(* ===== verification/_CoqProject ===== *)
-Q . S2P
Prelude.v
Sha256.v
Json.v
JsonText.v
Canonical.v
JsonSpec.v
JsonFacts.v
JsonAscii.v
CanonicalFacts.v
CanonicalTheorems.v
Ledger.v
LedgerFacts.v
LedgerTheorems.v
PyStr.v
PyConv.v
TextFacts.v
JsonIndent.v
Acceptance.v
AcceptanceFacts.v
Contradictions.v
AcceptanceTheorems.v
Approval.v
Drift.v
Quality.v
Barebones.v
Engine.v
Run.v
RunFacts.v
RunStages.v
RunTheorems.v
CheckTheorems.v
RunDemo.v
Lifecycle.v
LifecycleRules.v
LifecycleTheorems.v
ControlData.v
ControlEvidence.v
ControlLedger.v
PolicySnapshots.v
ControlGuards.v
Control.v
ControlDenials.v
ControlLoad.v
ControlFacts.v
ControlReplay.v
ControlLoadFacts.v
ControlRun.v
ControlHistory.v
ControlTheorems.v
ControlDemo.v
MergeAdmission.v
MergeTheorems.v
Support.v
Workflow.v
Publish.v
SupportTheorems.v
PublishTheorems.v
SupportDemo.v
JsonBytes.v
EngineeringLedger.v
EngineeringLedgerFacts.v
EngineeringLedgerTheorems.v
Trajectory.v
TrajectoryFacts.v
TrajectoryTheorems.v
Schema.v
FullstackContract.v
FullstackGates.v
FullstackGateTheorems.v
Fullstack.v
TrajectoryFullstack.v
FullstackSpec.v
FullstackRefine.v
FullstackRuns.v
FullstackAudit.v
FullstackTheorems.v
FullstackDemo.v
Receipts.v
ReceiptTheorems.v
Submissions.v
