(* ===== verification/Prelude.v ===== *)
(** * Verification of the Production Engineering OS core

    A model of the core of [src/src/pmpe] and the theorems that make it correct.

    ** The program

    A product contract is admitted as strict JSON, its acceptance criteria are
    compiled to a plan, and [barebones.py] drives a coder (an external model)
    until the plan passes behind a sandbox, sealing each step in an append-only
    ledger.  Around it, [orchestration/lifecycle.py] says which state a delivery
    may enter next, on what evidence and under whose authority: its
    [LifecycleControlPlane] keeps a run in three files (the ledger of events, the
    metadata, the journal of mutations) and rebuilds an instance from them.

    ** The files and the code

    - [Prelude]: Python's exceptions, results and state-passing computations,
      strings, association lists (dicts in insertion order), and their lemmas
      and tactics ([simp_res] opens a computation that returned).
    - [Sha256]: SHA-256 of the standard library's [hashlib].
    - [Json], [JsonText], [PyStr]: JSON values, [json.loads] with hooks,
      [json.dumps], [repr], Unicode case and white space as Python has them.
    - [Canonical] ([contracts/canonical.py]); [JsonSpec], [JsonFacts],
      [CanonicalFacts], [CanonicalTheorems]: RFC 8785, admissible values, the
      round trip of [strict_loads], its bounds and termination.
    - [Ledger] ([evidence/ledger.py]); [LedgerFacts], [LedgerTheorems]: the store
      is the event file and the blobs; [append] verifies the log and adds a line,
      in place or, under a deadline, by publishing a staged copy that it takes back
      on an error; any of its calls to the file system may raise ([disk]), those of
      the other operations are taken to work.  A log of sealed
      events verifies, [append] is atomic but for the faults that it cannot undo
      (a torn write in place, a restoration that fails), the chain is tamper
      evident, and [verify] implements the specification of a chained log.
    - [Acceptance] ([contracts/acceptance.py]); [AcceptanceFacts],
      [Contradictions], [AcceptanceTheorems]: a compiled plan covers a complete
      contract; what is refused as contradictory has no model.
    - [Approval] ([verify_contract_approval] of [contracts/authoring.py]),
      [Drift] ([evals/barebones_drift.py]), [Quality]
      ([quality/generated_python.py]); [CheckTheorems]: what the checks around a
      run guarantee.
    - [Barebones], [Engine], [Run] ([barebones.py]): the criteria and their
      sandboxed execution; the provider behind its budget; the run, from
      admission to one of its three endings.  [run_to_release_ready] is a
      computation on a [world] (ledger store, workspace, counters).  [RunFacts]
      holds a logic of triples, [RunStages] the machine of six states and a
      triple per stage, [RunTheorems] the protected files and the theorems, [CheckTheorems]
      those of the engine, [RunDemo] a concrete run.
    - [Lifecycle], [LifecycleRules] ([orchestration/lifecycle.py]): the states,
      the rules and the two policies; [LifecycleTheorems]: order of the
      stations, liveness, guards, subjects of mutations.
    - The control plane, in the same source file.  Its data and payloads are
      [ControlData]; the instance ([plane]), its environment and the methods
      [_trusted_*_valid] [ControlEvidence]; the files, [_append], [_deny] and the
      journal [ControlLedger]; [_policy_from_payload] and the schemas of earlier
      versions [PolicySnapshots]; the guards of a transition, one definition per
      guard, [ControlGuards]; the operations [Control]; [create], [load] and
      [admit_legacy_migration] [ControlLoad].  A guard returns a [verdict]: go
      on, refuse (the refusal is written to the ledger), or raise.
    - Its proofs.  [PyConv], [TextFacts] and [JsonAscii]: conversions of Python,
      and the round trip of [json.dumps] and [json.loads].  [ControlFacts]: a
      written event is read back.  [ControlReplay]: the order on uses of the
      budget, and replay of one event; [ControlLoadFacts]: [load] of a sound
      ledger, and the policies in the metadata.  [ControlDenials]: a refusal keeps the evidence.
      [ControlRun]: what each operation writes ([written]), and that a run stays
      [lawful].  [ControlHistory]: what holds of any lawful history.
      [ControlTheorems]: a [system] is the files and any number of instances;
      its steps are an operation of one instance, a [load] and the end of an
      instance.  [load] is a refinement of the memory by the files, stale
      instances write nothing, every applied event follows the policy, results
      of mutations are used once, and runs only grow; but a result whose digest is
      the text [UNKNOWN] makes any run unreadable.  [ControlDemo]: a concrete run,
      the witnesses, and a refusal that uses up the result of another mutation.
    - [MergeAdmission] ([engineering/merge_admission.py]): the reasons against a
      snapshot, [enqueue], [linearize_merge] and [resolve_external_race];
      [MergeTheorems]: a merge is admitted exactly when it is the specified one
      ([merge_ok]), and is then the one that was enqueued.
    - [Support] ([workflows/support.py], [workflows/decision.py],
      [workflows/support_discovery.py]), [Workflow] and [Publish]
      ([workflows/runtime.py], [cli/support_cmd.py]): visible cases and the
      decision that their policies authorize; the plan, its execution and the
      report; the directories of published reports, where any call may fail.
      [SupportTheorems], [PublishTheorems]: no oracle leaks,
      discovery decides every case by its strongest policies, exactly the
      discovered contract executes, publication is atomic and no unsupported
      action completes; [SupportDemo].
    - [JsonBytes]: [json.loads] of bytes in every encoding it detects.
      [EngineeringLedger]
      ([engineering/ledger.py]) is the other ledger of the program, whose file is
      its bytes: a line may be torn.  [EngineeringLedgerFacts] (texts cut
      short) and [EngineeringLedgerTheorems]: a keyed record that is retried after any interruption leaves exactly one event, a keyless one
      after an unended line ruins the file.
    - [Trajectory] ([evals/trajectory.py]): the rules that a recorded run is
      checked against.  [TrajectoryFacts], [TrajectoryTheorems]:
      a verdict is clean exactly when the events are well
      ordered, every destination allowed and every use of a capability within
      the policy and its latest permissions.
    - The full-stack path.  [Schema]: the validator
      ([ingestion/schema.py]) and the packaged schema as a JSON value;
      [FullstackContract] ([fullstack/contract.py]); [FullstackGates]
      ([fullstack/stack.py], [fullstack/journey.py], [fullstack/preview.py],
      [fullstack/api_contract.py], [agents/registry.py],
      [agents/permissions.py], [assurance/readonly_guard.py]); [Fullstack]
      ([fullstack/orchestration.py], the journey record, [freeze_candidate]): a
      run is its dict, the files of its directory and the open snapshots, and
      every operation is a computation on it.  [FullstackSpec] is its abstract
      machine: facts, which fact may come next ([allowed]) and what the facts so
      far amount to ([advance]).  [FullstackRefine],
      [FullstackRuns]: each call, whatever it returns or raises,
      leaves a run that [simulates] the machine.  [FullstackAudit]: what a state
      says about the facts before it.  [TrajectoryFullstack]
      ([evals/trajectory_fullstack.py]) are the eight rules on the ledger of such
      a run, [FullstackAudit] that they are silent on regular runs.
      [FullstackGateTheorems], [FullstackTheorems], [FullstackDemo]: the run
      refines its machine and is loaded back from its files, a release rests on
      its evidence and the auditor agrees, the read-only proof and the preview
      are exact; a second freeze and a review that wrote leave the way to a
      release open.
    - [Submissions]: what an agent proposes and the gates it passes: the routing
      decision ([agents/router.py]), the artifacts ([engineering/submissions.py])
      and the table of risk levels ([policies/engine.py]).  A routing is accepted
      exactly when it is minimal and complete, and an accepted plan can be routed.
    - [Receipts] ([admission/receipts.py]), [ReceiptTheorems]: the files of signed
      receipts; what was admitted is verified, and an artifact has one receipt
      whatever fails.
    - [JsonIndent], [TextFacts]: documents with an indentation, in either order
      of keys, are read back; texts that UTF-8 carries.

    ** Parameters

    What the code calls and does not contain is an argument of the model:
    [rfc8785.dumps] (class [Rfc8785], with the documented laws in
    [Rfc8785Laws], which a concrete encoder satisfies), [yaml.load] ([Yaml]),
    [re] on the patterns a contract supplies ([Regex]), two Unicode tables
    ([Unicode]), [ast], [tokenize] and the checkers ([PythonTools]), and, in the
    environment of a run, the provider, the clock, the stop signal, the sandbox
    and the files of the repository.  The control plane takes [datetime] as the
    class [Datetime] (an instant in microseconds, or none when the text is
    malformed) and, in [control_env], the verifiers of evidence and of bundles,
    its readings of the clock, the state of the run directory, interrupted writes
    and what the retention sweep raises.  Merge admission takes its authenticators
    and its clock, and [isoformat] as [DatetimeText]; publication, the names that
    [tempfile] picks and what each call to the file system raises.  The full-stack run takes
    [str.lower] ([Lower]), the answers of git and the files of a repository, and
    the times as arguments.  Receipts take the provider of keyed
    fingerprints and, for each call, the fault that stops it and the file that
    another process puts in place first; their theorems assume that [json.loads]
    reads what [rfc8785.dumps] wrote for objects of texts ([dumps_reads_line]).
    The theorems hold for all of them; those of the full-stack run assume that [rfc8785.dumps] encodes flat objects of texts
    ([flat_encodes]), and that the texts that callers pass are texts that UTF-8
    carries.

    The theorems about runs of the control plane assume that writes are not
    interrupted, that one verifier of evidence serves the run, and that arguments
    are what [call_ok] says: values that JSON can carry, a result digest that is
    not the text [UNKNOWN], and no evidence under the name that the plane itself
    uses for used results ([recorded_result_locks_the_run] and [ControlDemo] show
    why).  An
    operation is one step of the system: [transition], [prejournal_mutation] and
    [record_observation] hold the lock of the run throughout; [resume],
    [record_mutation_result] and [admit_budget_policy] hold it for their append
    only, and read before it nothing but the journal, which only grows.

    ** Fuel

    The JSON scanner takes the length of the text as fuel, and
    [strict_parse_returns] shows that it never runs out.  The walk over the
    parents of a protected test takes the number of parts of the path, after
    which it would meet the root for ever ([package_initializers_end]); the run
    is then [OutOfFuel], the model's word for divergence.  The attempts of a run
    are counted down from the budget.  Fixed iterations of the hash and of the
    decimal printer of floats follow their algorithms.

    ** Not modelled

    [BubblewrapCandidateSandbox] (it composes a command line); the retention
    sweep over the directories of other runs; drafting and approving contracts;
    the removal of the hidden temporary file of a receipt;
    reading a frozen candidate back and the review subjects of merge readiness
    ([engineering/candidate.py]); the capabilities that a stack lists; the command
    line, but for the support commands; and the subsystems around the core
    (repository scanner, guided and
    personal workflows, code generators, web product), which have their own data
    and no part in the run.  Files are whole values: a write that fails or is
    interrupted half way is not a state of the model, except in the two ledgers
    (the faults of [append]; any sequence of bytes in the engineering ledger), in
    the control plane's own interrupted writes, in the receipts and in the
    publication of reports.  A barebones run takes a sound disk for its appends:
    an [OSError] of its ledger ends the process, and is covered by [append_atomic]. *)
From stdpp Require Export base option list strings gmap.
From Stdlib Require Export ZArith.
From Stdlib Require Import String Ascii Sorting.Sorted.
Export StringSyntax.

Declare Scope py_scope.
Delimit Scope py_scope with py.
#[global] Open Scope Z_scope.
#[global] Open Scope list_scope.

(** ** Python exceptions *)

(** The exception classes that the modelled code raises or catches, each with
    the arguments of its constructor that the code can observe. *)
Inductive exn : Type :=
  | ValueError (message : string)
  | UnicodeDecodeError (message : string)
  | JSONDecodeError (message : string)
  | YAMLError (message : string)
  | CanonicalInputError (code message : string)
  | CanonicalizationError (message : string)
  | EvidenceIntegrityError (message : string)
  | ContractInvalidError (message : string)
  | ContractViolation (message : string)
  | AcceptanceCompileError (diagnostics : list (string * string * string))
  | TransitionDeniedError (message : string)
  | VisibleCorpusError (message : string)
  | DecisionContractError (message : string)
  | WorkflowEvidenceError (message : string)
  | SpecError (message : string)
  | ConfigError (message : string)
  | PmpeError (message : string)
  | GitError (message : string)
  | OrchestrationViolation (message : string)
  | JourneyNotValidated (message : string)
  | ReadOnlyViolation (message : string)
  | CandidateViolation (message : string)
  | RoutingError (message : string)
  | AdmissionReceiptError (message : string)
  | AdmissionReceiptConflictError (message : string)
  | KeyError (key : string)
  | TypeError (message : string)
  | AttributeError (message : string)
  | ReError (message : string)
  | RuntimeError (message : string)
  | TimeoutError (message : string)
  | FileExistsError (path : string)
  | OSError (message : string)
  | AssertionError (message : string)
  | OverflowError (message : string)
  | RecursionError
  | OutOfFuel (* a computation that does not return, or whose fuel ran out *).

(** [isinstance(exc, ValueError)]: the subclasses of [ValueError]. *)
Definition is_ValueError (e : exn) : bool :=
  match e with
  | ValueError _ | UnicodeDecodeError _ | JSONDecodeError _ | CanonicalInputError _ _
  | CanonicalizationError _ | EvidenceIntegrityError _ | ContractInvalidError _
  | AcceptanceCompileError _ | VisibleCorpusError _ | DecisionContractError _ | WorkflowEvidenceError _
  | AdmissionReceiptError _ | AdmissionReceiptConflictError _ => true
  | _ => false
  end.

(** [isinstance(exc, OSError)]: [TimeoutError] and [FileExistsError] are
    subclasses of [OSError]. *)
Definition is_OSError (e : exn) : bool :=
  match e with
  | OSError _ | FileExistsError _ | TimeoutError _ => true
  | _ => false
  end.

Definition is_RuntimeError (e : exn) : bool :=
  match e with
  | RuntimeError _ | TransitionDeniedError _ | RecursionError => true
  | _ => false
  end.

(** ** Results: a value or a raised exception *)

Inductive res (A : Type) : Type :=
  | Ok (a : A)
  | Raise (e : exn).
Arguments Ok {A} a.
Arguments Raise {A} e.

#[export] Instance res_ret : MRet res := fun A a => Ok a.
#[export] Instance res_bind : MBind res := fun A B k m =>
  match m with Ok a => k a | Raise e => Raise e end.
#[export] Instance res_fmap : FMap res := fun A B f m =>
  match m with Ok a => Ok (f a) | Raise e => Raise e end.

(** [try: m except E as exc: handler], for the classes [catches] selects. *)
Definition try_except {A} (m : res A) (catches : exn -> bool) (handler : exn -> res A) : res A :=
  match m with
  | Raise e => if catches e then handler e else Raise e
  | Ok a => Ok a
  end.

(** [if c: raise e]. *)
Definition raise_if (c : bool) (e : exn) : res unit := if c then Raise e else Ok tt.

Definition is_ok {A} (m : res A) : bool := match m with Ok _ => true | Raise _ => false end.

Definition from_option_res {A} (o : option A) (e : exn) : res A :=
  match o with Some a => Ok a | None => Raise e end.

(** Loops that stop at the first exception. *)
Section Loops.
Context {A B : Type}.

Definition res_mapM (f : A -> res B) : list A -> res (list B) :=
  fix go (l : list A) : res (list B) :=
    match l with
    | [] => Ok []
    | x :: l' => y ← f x; ys ← go l'; Ok (y :: ys)
    end.

Definition res_foldM (f : B -> A -> res B) : B -> list A -> res B :=
  fix go (acc : B) (l : list A) : res B :=
    match l with
    | [] => Ok acc
    | x :: l' => acc' ← f acc x; go acc' l'
    end.
End Loops.

(** ** State passing with exceptions: an exception keeps the state it met *)

Definition st (S A : Type) : Type := S -> res A * S.

#[export] Instance st_ret {S} : MRet (st S) := fun A a s => (Ok a, s).
#[export] Instance st_bind {S} : MBind (st S) := fun A B k m s =>
  match m s with
  | (Ok a, s') => k a s'
  | (Raise e, s') => (Raise e, s')
  end.

Definition raise_st {S A} (e : exn) : st S A := fun s => (Raise e, s).
Definition lift_res {S A} (m : res A) : st S A := fun s => (m, s).
Definition get_st {S A} (f : S -> A) : st S A := fun s => (Ok (f s), s).
Definition modify_st {S} (f : S -> S) : st S unit := fun s => (Ok tt, f s).

(** [try: m except ...: handler] in a stateful computation. *)
Definition try_st {S A} (m : st S A) (catches : exn -> bool) (handler : exn -> st S A) : st S A :=
  fun s =>
    match m s with
    | (Raise e, s') => if catches e then handler e s' else (Raise e, s')
    | ok => ok
    end.

(** ** Python strings

    A [str] is the [string] of its UTF-8 bytes (a lone surrogate, which a
    Python [str] may hold, keeps its three-byte form).  Byte order is then code
    point order, and the operations below agree with those of [str]. *)

Definition str_leb (a b : string) : bool :=
  match String.compare a b with Gt => false | _ => true end.
Definition str_ltb (a b : string) : bool :=
  match String.compare a b with Lt => true | _ => false end.

(** [s.startswith(p)], [s.endswith(p)], [p in s]. *)
Definition startswith (s p : string) : bool := String.prefix p s.

Fixpoint drop_str (n : nat) (s : string) : string :=
  match n, s with
  | S n', String _ s' => drop_str n' s'
  | _, _ => s
  end.

Fixpoint str_rev_app (s acc : string) : string :=
  match s with
  | EmptyString => acc
  | String c s' => str_rev_app s' (String c acc)
  end.
Definition str_rev (s : string) : string := str_rev_app s "".
Definition endswith (s p : string) : bool := String.prefix (str_rev p) (str_rev s).

Fixpoint contains_str (p s : string) : bool :=
  String.prefix p s ||
  match s with EmptyString => false | String _ s' => contains_str p s' end.

(** [s.removeprefix(p)]. *)
Definition removeprefix (s p : string) : string :=
  if startswith s p then drop_str (String.length p) s else s.

(** [s.split(sep)] for a one-character separator. *)
Fixpoint split_on (sep : ascii) (s : string) : list string :=
  match s with
  | EmptyString => [""%string]
  | String c s' =>
      if Ascii.eqb c sep then ""%string :: split_on sep s'
      else match split_on sep s' with
           | hd :: tl => String c hd :: tl
           | [] => [String c ""]
           end
  end.

(** [s.split(sep, maxsplit=1)[0]]. *)
Definition split_first (sep : ascii) (s : string) : string :=
  match split_on sep s with hd :: _ => hd | [] => s end.

Fixpoint replace_char (c : ascii) (by_ : string) (s : string) : string :=
  match s with
  | EmptyString => ""
  | String d s' => if Ascii.eqb c d then (by_ +:+ replace_char c by_ s')
                   else String d (replace_char c by_ s')
  end.

(** [s.replace(old, new)], for a non-empty [old]. *)
Fixpoint replace_from (fuel : nat) (old new s : string) : string :=
  match fuel, s with
  | S f, String c s' =>
      if startswith s old then new +:+ replace_from f old new (drop_str (String.length old) s)
      else String c (replace_from f old new s')
  | _, _ => s
  end.
Definition replace_str (old new s : string) : string := replace_from (String.length s) old new s.

Fixpoint string_forallb (p : ascii -> bool) (s : string) : bool :=
  match s with EmptyString => true | String c s' => p c && string_forallb p s' end.

(** Character classes of the fixed regular expressions in the code. *)
Definition in_range (lo hi c : ascii) : bool :=
  (Ascii.leb lo c && Ascii.leb c hi)%bool.
Definition is_digit (c : ascii) : bool := in_range "0" "9" c.
Definition is_lower (c : ascii) : bool := in_range "a" "z" c.
Definition is_upper (c : ascii) : bool := in_range "A" "Z" c.
Definition is_alpha (c : ascii) : bool := is_lower c || is_upper c.
Definition is_alnum (c : ascii) : bool := is_alpha c || is_digit c.
Definition is_hex (c : ascii) : bool := is_digit c || in_range "a" "f" c.
Definition char_in (set : string) (c : ascii) : bool :=
  existsb (Ascii.eqb c) (list_ascii_of_string set).

(** [bool(s)] of a text. *)
Definition nonempty (s : string) : bool := negb (String.eqb s "").

(** Membership of a string in a list of strings. *)
Definition str_in (x : string) (l : list string) : bool := existsb (String.eqb x) l.

(** [sorted(l)] and [sorted(set(l))] on strings. *)
Fixpoint insert_sorted (x : string) (l : list string) : list string :=
  match l with
  | [] => [x]
  | y :: l' => if str_leb x y then x :: l else y :: insert_sorted x l'
  end.
Definition sorted_str (l : list string) : list string := foldr insert_sorted [] l.

Fixpoint insert_set (x : string) (l : list string) : list string :=
  match l with
  | [] => [x]
  | y :: l' =>
      match String.compare x y with
      | Lt => x :: l
      | Eq => l
      | Gt => y :: insert_set x l'
      end
  end.
Definition sorted_set (l : list string) : list string := foldr insert_set [] l.

(** [tuple(dict.fromkeys(l))]: the first occurrences, in order. *)
Fixpoint dedup_from (seen l : list string) : list string :=
  match l with
  | [] => []
  | x :: l' => if str_in x seen then dedup_from seen l' else x :: dedup_from (x :: seen) l'
  end.
Definition dict_fromkeys (l : list string) : list string := dedup_from [] l.

(** [sep.join(l)]. *)
Definition join (sep : string) (l : list string) : string := String.concat sep l.

(** [str(z)] and [str(n)]. *)
Definition digit_char (n : N) : ascii := ascii_of_N (48 + n).
Fixpoint dec_digits (fuel : nat) (n : N) (acc : string) : string :=
  match fuel with
  | O => acc
  | S f =>
      let acc' := String (digit_char (n mod 10)) acc in
      if (n <? 10)%N then acc' else dec_digits f (n / 10) acc'
  end.
Definition str_of_N (n : N) : string := dec_digits (S (N.to_nat (N.log2 n))) n "".
Definition str_of_Z (z : Z) : string :=
  if z <? 0 then String "-" (str_of_N (Z.to_N (- z))) else str_of_N (Z.to_N z).

(** ** Association lists: Python dicts in insertion order *)

Section Assoc.
Context {V : Type}.

Fixpoint assoc (k : string) (m : list (string * V)) : option V :=
  match m with
  | [] => None
  | (k', v) :: m' => if String.eqb k k' then Some v else assoc k m'
  end.

Definition has_key (k : string) (m : list (string * V)) : bool :=
  match assoc k m with Some _ => true | None => false end.

(** [d[k] = v]: an existing key keeps its position. *)
Fixpoint assoc_set (k : string) (v : V) (m : list (string * V)) : list (string * V) :=
  match m with
  | [] => [(k, v)]
  | (k', v') :: m' => if String.eqb k k' then (k, v) :: m' else (k', v') :: assoc_set k v m'
  end.

(** [{key: value for ... if key != k}]. *)
Definition assoc_del (k : string) (m : list (string * V)) : list (string * V) :=
  List.filter (fun p => negb (String.eqb (fst p) k)) m.

(** [sorted(d.items())] of a dict, whose keys are distinct. *)
Fixpoint insert_item (p : string * V) (m : list (string * V)) : list (string * V) :=
  match m with
  | [] => [p]
  | q :: m' => if str_leb (fst p) (fst q) then p :: m else q :: insert_item p m'
  end.
Definition sorted_items (m : list (string * V)) : list (string * V) :=
  foldr insert_item [] m.
End Assoc.

(** ** Tactics and hints

    [simp_res] inverts a computation that is known to have returned: it opens
    every bind, [try], conditional and lookup on the way. *)

Create HintDb pydb.
Create Rewrite HintDb pydb.

Lemma bind_Ok {A B} (m : res A) (k : A -> res B) (b : B) :
  (m ≫= k) = Ok b -> exists a, m = Ok a /\ k a = Ok b.
Proof. destruct m; simpl; [eauto | discriminate]. Qed.

Lemma bind_Raise {A B} (m : res A) (k : A -> res B) (e : exn) :
  (m ≫= k) = Raise e -> m = Raise e \/ exists a, m = Ok a /\ k a = Raise e.
Proof. destruct m; simpl; [eauto | intros [= ->]; auto]. Qed.

Lemma from_option_Ok {A} (o : option A) e (a : A) : from_option_res o e = Ok a -> o = Some a.
Proof. destruct o; simpl; congruence. Qed.

Lemma raise_if_Ok (c : bool) (e : exn) (u : unit) : raise_if c e = Ok u -> c = false.
Proof. destruct c; simpl; congruence. Qed.

Lemma st_bind_inv {S A B} (m : st S A) (k : A -> st S B) s r s' :
  (m ≫= k) s = (r, s') ->
  (exists a s1, m s = (Ok a, s1) /\ k a s1 = (r, s')) \/ (exists x, m s = (Raise x, s') /\ r = Raise x).
Proof.
  unfold mbind, st_bind. destruct (m s) as [[a|x] s1]; [eauto|]. intros [= <- <-]. eauto.
Qed.
Ltac open_bind H :=
  let a := fresh "a" in let w := fresh "w" in let x := fresh "x" in
  let E := fresh "E" in
  apply st_bind_inv in H as [(a & w & E & H)|(x & E & ->)].

Lemma st_bind_Ok {S A B} (m : st S A) (k : A -> st S B) s b s' :
  (m ≫= k) s = (Ok b, s') -> exists a s1, m s = (Ok a, s1) /\ k a s1 = (Ok b, s').
Proof. intros [?|(x & _ & [=])]%st_bind_inv. done. Qed.
Ltac open_ok H :=
  let a := fresh "a" in let w := fresh "w" in let E := fresh "E" in
  apply st_bind_Ok in H as (a & w & E & H).

Lemma bind_run {S A B} (m : st S A) (k : A -> st S B) s a s' : m s = (Ok a, s') -> (m ≫= k) s = k a s'.
Proof. unfold mbind, st_bind. by intros ->. Qed.
Lemma bind_stop {S A B} (m : st S A) (k : A -> st S B) s x s' : m s = (Raise x, s') -> (m ≫= k) s = (Raise x, s').
Proof. unfold mbind, st_bind. by intros ->. Qed.
Lemma get_bind {S A B} (f : S -> A) (k : A -> st S B) s : (get_st f ≫= k) s = k (f s) s.
Proof. done. Qed.
Lemma lift_Ok_bind {S A B} (a : A) (k : A -> st S B) s : (lift_res (Ok a) ≫= k) s = k a s.
Proof. done. Qed.
Lemma lift_Raise_bind {S A B} (x : exn) (k : A -> st S B) s : (lift_res (Raise x) ≫= k) s = (Raise x, s).
Proof. done. Qed.
Lemma ret_bind {S A B} (a : A) (k : A -> st S B) s : ((mret a : st S A) ≫= k) s = k a s.
Proof. done. Qed.

Lemma is_ok_exists {A} (m : res A) : is_ok m = true -> exists a, m = Ok a.
Proof. destruct m; [eauto|discriminate]. Qed.
Lemma try_except_Ok {A} (m : res A) c h (a : A) :
  try_except m c h = Ok a ->
  m = Ok a \/ exists e, m = Raise e /\ c e = true /\ h e = Ok a.
Proof. destruct m; simpl; [auto|]. destruct (c e) eqn:?; [eauto | discriminate]. Qed.

Ltac simp_res :=
  repeat match goal with
  | H : Ok _ = Ok _ |- _ => injection H as H
  | H : Raise _ = Ok _ |- _ => discriminate H
  | H : Ok _ = Raise _ |- _ => discriminate H
  | H : Some _ = Some _ |- _ => injection H as H
  | H : Some _ = None |- _ => discriminate H
  | H : None = Some _ |- _ => discriminate H
  | H : (_ ≫= _) = Ok _ |- _ =>
      let a := fresh "a" in let E := fresh "E" in apply bind_Ok in H as (a & E & H)
  | H : from_option_res _ _ = Ok _ |- _ => apply from_option_Ok in H
  | H : raise_if _ _ = Ok _ |- _ => apply raise_if_Ok in H
  | H : (if ?c then _ else _) = Ok _ |- _ =>
      let E := fresh "E" in destruct c eqn:E; [discriminate H|]
  | H : (if ?c then _ else _) = Ok _ |- _ =>
      let E := fresh "E" in destruct c eqn:E; [|discriminate H]
  end.

(** A closed decidable fact, by evaluation. *)
Ltac decide_now := refine (bool_decide_unpack _ _); vm_compute; exact I.

(** Boolean connectives in hypotheses and goals. *)
Ltac bool_simp :=
  repeat match goal with
  | H : (_ && _)%bool = true |- _ => apply andb_prop in H as [? ?]
  | H : (_ || _)%bool = false |- _ => apply orb_false_elim in H as [? ?]
  | H : negb _ = true |- _ => apply negb_true_iff in H
  | H : negb _ = false |- _ => apply negb_false_iff in H
  | H : String.eqb _ _ = true |- _ => apply String.eqb_eq in H
  | H : String.eqb _ _ = false |- _ => apply String.eqb_neq in H
  | H : Ascii.eqb _ _ = true |- _ => apply Ascii.eqb_eq in H
  end.

(** ** Lemmas on strings *)

(** stdpp keeps [String.append] folded; here it computes. *)
#[global] Arguments String.append !_ _ / : simpl nomatch.

Lemma sapp_nil_r (s : string) : s +:+ "" = s.
Proof. induction s as [|c s IH]; simpl; congruence. Qed.

Lemma sapp_assoc (a b c : string) : (a +:+ b) +:+ c = a +:+ (b +:+ c).
Proof. induction a as [|x a IH]; simpl; congruence. Qed.

Lemma sapp_length (a b : string) :
  String.length (a +:+ b) = (String.length a + String.length b)%nat.
Proof. induction a as [|x a IH]; simpl; congruence. Qed.

Lemma sapp_inj_l (a b c : string) : a +:+ b = a +:+ c -> b = c.
Proof. induction a as [|x a IH]; simpl; [done|]. intros [= ?]; auto. Qed.

Lemma startswith_app (a b : string) : startswith (a +:+ b) a = true.
Proof.
  unfold startswith. induction a as [|x a IH]; simpl; [by destruct b|].
  destruct (ascii_dec x x); [done | congruence].
Qed.

Lemma drop_str_app (a b : string) : drop_str (String.length a) (a +:+ b) = b.
Proof. induction a; simpl; [by destruct b | done]. Qed.

Lemma removeprefix_app (a b : string) : removeprefix (a +:+ b) a = b.
Proof. unfold removeprefix. by rewrite startswith_app, drop_str_app. Qed.

Lemma startswith_split (s p : string) : startswith s p = true -> s = p +:+ removeprefix s p.
Proof.
  intros H. unfold removeprefix. rewrite H. revert s H.
  unfold startswith. induction p as [|x p IH]; intros s H; simpl in *; [reflexivity|].
  destruct s as [|y s]; [done|]. simpl in H. destruct (ascii_dec x y); [|done]. subst.
  f_equal. by apply IH.
Qed.

Lemma string_forallb_app p (a b : string) :
  string_forallb p (a +:+ b) = (string_forallb p a && string_forallb p b)%bool.
Proof. induction a as [|c a IH]; simpl; [done|]. by rewrite IH, andb_assoc. Qed.

#[export] Hint Rewrite sapp_nil_r sapp_assoc sapp_length drop_str_app removeprefix_app : pydb.

Lemma Forall2_map_self {A B} (P : B -> A -> Prop) (f : A -> B) (l : list A) :
  (forall x, P (f x) x) -> Forall2 P (map f l) l.
Proof. intros Hf. induction l; by constructor. Qed.

Lemma str_in_elem (x : string) (l : list string) : str_in x l = true <-> x ∈ l.
Proof.
  unfold str_in. rewrite existsb_exists. split.
  - intros (y & Hy & E). apply String.eqb_eq in E as ->. by apply list_elem_of_In.
  - intros H. exists x. split; [by apply list_elem_of_In | apply String.eqb_refl].
Qed.

Lemma str_in_false (x : string) (l : list string) : str_in x l = false <-> x ∉ l.
Proof. rewrite <- str_in_elem. destruct (str_in x l); naive_solver. Qed.

(** *** The order on strings *)

Lemma compare_refl (s : string) : String.compare s s = Eq.
Proof.
  induction s as [|c s IH]; simpl; [done|].
  unfold Ascii.compare. by rewrite N.compare_refl.
Qed.

Lemma compare_lt_trans (a b c : string) :
  String.compare a b = Lt -> String.compare b c = Lt -> String.compare a c = Lt.
Proof.
  revert b c. induction a as [|x a IH]; intros [|y b] [|z c]; simpl; try done.
  unfold Ascii.compare. intros H1 H2.
  destruct (N.compare_spec (N_of_ascii x) (N_of_ascii y)) as [E|E|E]; try done;
  destruct (N.compare_spec (N_of_ascii y) (N_of_ascii z)) as [E'|E'|E']; try done;
  destruct (N.compare_spec (N_of_ascii x) (N_of_ascii z)) as [F|F|F]; try lia; eauto.
Qed.

Lemma compare_gt_lt (a b : string) : String.compare a b = Gt <-> String.compare b a = Lt.
Proof. rewrite (String.compare_antisym a b). destruct (String.compare b a); done. Qed.

Lemma compare_eq (a b : string) : String.compare a b = Eq <-> a = b.
Proof. split; [apply String.compare_eq_iff | intros ->; apply compare_refl]. Qed.

Definition str_lt (a b : string) : Prop := String.compare a b = Lt.

#[export] Instance str_lt_trans : Transitive str_lt.
Proof. intros a b c. apply compare_lt_trans. Qed.

#[export] Instance str_lt_irrefl : Irreflexive str_lt.
Proof. intros a H. unfold str_lt in H. by rewrite compare_refl in H. Qed.

(** *** Sorted sets of strings *)

Fixpoint strictly_sorted (l : list string) : Prop :=
  match l with
  | [] => True
  | x :: l' => Forall (str_lt x) l' /\ strictly_sorted l'
  end.

Lemma elem_of_insert_set x y l : x ∈ insert_set y l <-> x = y \/ x ∈ l.
Proof.
  induction l as [|z l IH]; simpl; [set_solver|].
  destruct (String.compare y z) eqn:E; [|set_solver..].
  apply compare_eq in E as ->. set_solver.
Qed.

Lemma elem_of_sorted_set x l : x ∈ sorted_set l <-> x ∈ l.
Proof.
  induction l as [|y l IH]; simpl; [done|].
  rewrite elem_of_insert_set, IH. set_solver.
Qed.

Lemma insert_set_sorted x l : strictly_sorted l -> strictly_sorted (insert_set x l).
Proof.
  induction l as [|y l IH]; simpl; [by repeat constructor|].
  intros [Hy Hl]. destruct (String.compare x y) eqn:E; simpl; [done| |].
  - split; [|done]. constructor; [done|].
    eapply Forall_impl; [exact Hy|]. intros z Hz. by transitivity y.
  - split; [|by auto]. apply Forall_forall. intros z Hz.
    apply elem_of_insert_set in Hz as [->|Hz]; [by apply compare_gt_lt|].
    by eapply Forall_forall in Hy.
Qed.

Lemma sorted_set_sorted l : strictly_sorted (sorted_set l).
Proof. induction l; simpl; [done | by apply insert_set_sorted]. Qed.

(** A strictly sorted list is determined by its members. *)
Lemma strictly_sorted_ext l1 l2 :
  strictly_sorted l1 -> strictly_sorted l2 -> (forall x, x ∈ l1 <-> x ∈ l2) -> l1 = l2.
Proof.
  revert l2. induction l1 as [|x l1 IH]; intros [|y l2]; simpl; intros H1 H2 E.
  - done.
  - specialize (E y). set_solver.
  - specialize (E x). set_solver.
  - destruct H1 as [Hx H1], H2 as [Hy H2]. rewrite Forall_forall in Hx, Hy.
    assert (x = y) as ->.
    { destruct (String.compare x y) eqn:C; [by apply compare_eq| |].
      - assert (x ∈ y :: l2) as [->|Hin]%elem_of_cons by set_solver; [done|].
        exfalso. apply (irreflexivity str_lt x). transitivity y; [done | by apply Hy].
      - apply compare_gt_lt in C.
        assert (y ∈ x :: l1) as [->|Hin]%elem_of_cons by set_solver; [done|].
        exfalso. apply (irreflexivity str_lt y). transitivity x; [done | by apply Hx]. }
    f_equal. apply IH; [done..|]. intros z. specialize (E z). split; intros Hz.
    + assert (z ∈ y :: l2) as [->|?]%elem_of_cons by set_solver; [|done].
      exfalso. by apply (irreflexivity str_lt y), Hx.
    + assert (z ∈ y :: l1) as [->|?]%elem_of_cons by set_solver; [|done].
      exfalso. by apply (irreflexivity str_lt y), Hy.
Qed.

Lemma strictly_sorted_NoDup l : strictly_sorted l -> NoDup l.
Proof.
  induction l as [|x l IH]; simpl; [constructor|]. intros [Hx Hl]. constructor; [|auto].
  intros Hin. eapply Forall_forall in Hx; [|done]. by apply (irreflexivity str_lt x).
Qed.

(** [sorted(set(l)) == l] recognises the sorted duplicate-free lists. *)
Lemma sorted_set_id l : strictly_sorted l -> sorted_set l = l.
Proof.
  intros H. apply strictly_sorted_ext; [apply sorted_set_sorted | done|].
  intros x. apply elem_of_sorted_set.
Qed.

Lemma sorted_set_idem l : sorted_set (sorted_set l) = sorted_set l.
Proof. apply sorted_set_id, sorted_set_sorted. Qed.

(** *** Association lists *)

Section AssocLemmas.
Context {V : Type}.
Implicit Types (m : list (string * V)).

Lemma assoc_In k v m : assoc k m = Some v -> (k, v) ∈ m.
Proof.
  induction m as [|[k' v'] m IH]; simpl; [done|].
  destruct (String.eqb k k') eqn:E; bool_simp; intros; simplify_eq; set_solver.
Qed.

Lemma assoc_NoDup k v m : NoDup (map fst m) -> (k, v) ∈ m -> assoc k m = Some v.
Proof.
  induction m as [|[k' v'] m IH]; simpl; [set_solver|].
  intros [Hk Hm]%NoDup_cons [[= <- <-]|Hin]%elem_of_cons; [by rewrite String.eqb_refl|].
  destruct (String.eqb_spec k k') as [->|]; [|auto].
  exfalso. apply Hk. apply list_elem_of_In, in_map_iff. exists (k', v).
  split; [done | by apply list_elem_of_In].
Qed.

Lemma assoc_None k m : assoc k m = None <-> k ∉ map fst m.
Proof.
  induction m as [|[k' v'] m IH]; simpl; [set_solver|].
  destruct (String.eqb_spec k k') as [->|]; [split; [done|set_solver]|].
  rewrite IH. set_solver.
Qed.

Lemma has_key_spec k m : has_key k m = true <-> k ∈ map fst m.
Proof.
  unfold has_key. destruct (assoc k m) as [v|] eqn:E.
  - split; [intros _|done]. apply assoc_In in E. apply list_elem_of_In, in_map_iff.
    exists (k, v). split; [done|by apply list_elem_of_In].
  - apply assoc_None in E. split; [done|]. intros. done.
Qed.

Lemma has_key_false k m : has_key k m = false <-> k ∉ map fst m.
Proof. rewrite <- has_key_spec. destruct (has_key k m); naive_solver. Qed.

Lemma assoc_app k m m' :
  assoc k (m ++ m') = match assoc k m with Some v => Some v | None => assoc k m' end.
Proof. induction m as [|[k' v'] m IH]; simpl; [done|]. by destruct (String.eqb k k'). Qed.

Lemma assoc_set_eq k v m : assoc k (assoc_set k v m) = Some v.
Proof.
  induction m as [|[k' v'] m IH]; simpl; [by rewrite String.eqb_refl|].
  destruct (String.eqb k k') eqn:E; simpl; [by rewrite String.eqb_refl|by rewrite E].
Qed.

Lemma assoc_set_ne k k' v m : k <> k' -> assoc k' (assoc_set k v m) = assoc k' m.
Proof.
  intros Hne. induction m as [|[k2 v2] m IH]; simpl.
  - by destruct (String.eqb_spec k' k).
  - destruct (String.eqb_spec k k2) as [<-|]; simpl; [|by rewrite IH].
    by destruct (String.eqb_spec k' k).
Qed.

(** Adding a new key appends it. *)
Lemma assoc_set_new k v m : k ∉ map fst m -> assoc_set k v m = m ++ [(k, v)].
Proof.
  induction m as [|[k' v'] m IH]; simpl; [done|]. intros H.
  destruct (String.eqb_spec k k') as [->|]; [set_solver|]. rewrite IH; set_solver.
Qed.

Lemma assoc_del_ne k k' m : k <> k' -> assoc k' (assoc_del k m) = assoc k' m.
Proof.
  intros Hne. unfold assoc_del. induction m as [|[k2 v2] m IH]; simpl; [done|].
  destruct (String.eqb_spec k2 k) as [->|]; simpl; rewrite IH.
  - by destruct (String.eqb_spec k' k).
  - done.
Qed.

Lemma assoc_del_snoc k v m : k ∉ map fst m -> assoc_del k (m ++ [(k, v)]) = m.
Proof.
  unfold assoc_del. induction m as [|[k2 v2] m IH]; simpl; intros H.
  - by rewrite String.eqb_refl.
  - destruct (String.eqb_spec k2 k) as [->|]; simpl; [set_solver|]. rewrite IH; set_solver.
Qed.

Lemma assoc_del_NoDup k m : NoDup (map fst m) -> NoDup (map fst (assoc_del k m)).
Proof.
  unfold assoc_del. induction m as [|[k2 v2] m IH]; simpl; [done|].
  intros [Hn Hm]%NoDup_cons. destruct (negb _); simpl; [|auto]. constructor; [|auto].
  intros Hin. apply Hn. apply list_elem_of_In, in_map_iff in Hin as (q & <- & Hq%filter_In).
  apply list_elem_of_In, in_map, Hq.
Qed.

Lemma insert_item_perm p m : insert_item p m ≡ₚ p :: m.
Proof.
  induction m as [|q m IH]; simpl; [done|].
  destruct (str_leb (fst p) (fst q)); [done|]. rewrite IH. by constructor.
Qed.

Lemma sorted_items_perm m : sorted_items m ≡ₚ m.
Proof. induction m as [|p m IH]; simpl; [done|]. by rewrite insert_item_perm, IH. Qed.
End AssocLemmas.

Lemma set_keys_distinct {V} k (v : V) m : NoDup (map fst m) -> NoDup (map fst (assoc_set k v m)).
Proof.
  induction m as [|[k' v'] m IH]; cbn [assoc_set map fst]; intros Hn.
  - repeat constructor. by intros ?%elem_of_nil.
  - apply NoDup_cons in Hn as [Hk Hn]. destruct (String.eqb_spec k k') as [->|Hne]; cbn [map fst]; constructor; auto.
    intros Hin. apply Hk. clear -Hin Hne. induction m as [|[x y] m IH]; cbn [assoc_set map fst] in *.
    + apply list_elem_of_singleton in Hin. by subst.
    + destruct (String.eqb_spec k x); cbn [map fst] in Hin; [subst; done|]. set_solver.
Qed.

Lemma assoc_set_all {V} (P : string * V -> Prop) k v m : P (k, v) -> Forall P m -> Forall P (assoc_set k v m).
Proof.
  intros Hv. induction 1 as [|[k' v'] m Hp Hm IH]; cbn [assoc_set]; [by repeat constructor|].
  destruct (String.eqb k k'); by constructor.
Qed.

Lemma sorted_items_map {V W} (f : string -> V -> W) (m : list (string * V)) :
  sorted_items (map (fun p => (fst p, f (fst p) (snd p))) m)
  = map (fun p => (fst p, f (fst p) (snd p))) (sorted_items m).
Proof.
  induction m as [|p m IH]; [done|]. cbn [map sorted_items foldr]. fold (@sorted_items W) (@sorted_items V).
  change (foldr insert_item [] ?l) with (sorted_items l). rewrite IH. generalize (sorted_items m) as l. intros l.
  induction l as [|q l IHl]; [done|]. cbn. destruct (str_leb (fst p) (fst q)); [done|]. cbn. by rewrite IHl.
Qed.

Lemma compare_gt_trans (a b c : string) :
  String.compare a b <> Gt -> String.compare b c <> Gt -> String.compare a c <> Gt.
Proof.
  intros Hab Hbc. destruct (String.compare a b) eqn:E1; [apply compare_eq in E1 as ->; done| |done].
  destruct (String.compare b c) eqn:E2; [apply compare_eq in E2 as ->; by rewrite E1| |done].
  by rewrite (compare_lt_trans a b c).
Qed.
Lemma str_leb_trans (a b c : string) : str_leb a b = true -> str_leb b c = true -> str_leb a c = true.
Proof.
  unfold str_leb. pose proof (compare_gt_trans a b c).
  destruct (String.compare a b), (String.compare b c), (String.compare a c); naive_solver.
Qed.
Lemma str_leb_total (a b : string) : str_leb a b = false -> str_leb b a = true.
Proof.
  unfold str_leb. destruct (String.compare a b) eqn:E; [done..|]. apply compare_gt_lt in E. by rewrite E.
Qed.

(** Items in the order of their names are left as they are. *)
Definition item_leb {V} (p q : string * V) : Prop := str_leb (fst p) (fst q) = true.
Lemma sorted_items_sorted {V} (m : list (string * V)) : StronglySorted item_leb (sorted_items m).
Proof.
  induction m as [|p m IH]; cbn [sorted_items foldr]; [constructor|].
  change (foldr insert_item [] m) with (sorted_items m). generalize dependent (sorted_items m). intros l IH.
  induction IH as [|q l Hl IHl Hq]; cbn [insert_item]; [repeat constructor|].
  destruct (str_leb (fst p) (fst q)) eqn:E.
  - constructor; [by constructor|]. constructor; [done|].
    eapply Forall_impl; [exact Hq|]. intros r Hr. by eapply str_leb_trans.
  - constructor; [done|]. rewrite insert_item_perm. constructor; [|done]. by apply str_leb_total.
Qed.
Lemma sorted_items_id {V} (m : list (string * V)) : StronglySorted item_leb m -> sorted_items m = m.
Proof.
  induction 1 as [|p m Hm IH Hp]; [done|]. cbn [sorted_items foldr].
  change (foldr insert_item [] m) with (sorted_items m). rewrite IH.
  destruct m as [|q m]; [done|]. cbn [insert_item]. apply Forall_cons in Hp as [Hp _]. by rewrite Hp.
Qed.
Lemma sorted_items_idem {V} (m : list (string * V)) : sorted_items (sorted_items m) = sorted_items m.
Proof. apply sorted_items_id, sorted_items_sorted. Qed.

#[export] Hint Rewrite @assoc_set_eq : pydb.

Lemma existsb_none {A} (p : A -> bool) l x : existsb p l = false -> In x l -> p x = false.
Proof.
  intros He Hin. destruct (p x) eqn:E; [|done].
  assert (existsb p l = true); [|congruence]. apply existsb_exists. eauto.
Qed.

Lemma insert_sorted_perm x l : insert_sorted x l ≡ₚ x :: l.
Proof.
  induction l as [|y l IH]; simpl; [done|]. destruct (str_leb x y); [done|]. rewrite IH. by constructor.
Qed.

Lemma sorted_str_perm l : sorted_str l ≡ₚ l.
Proof. induction l; simpl; [done|]. by rewrite insert_sorted_perm, IHl. Qed.

Lemma sorted_str_nil l : sorted_str l = [] <-> l = [].
Proof.
  split; [|by intros ->]. intros E. apply Permutation_nil. by rewrite <- E, sorted_str_perm.
Qed.

Lemma sorted_set_elem x l : x ∈ sorted_set l <-> x ∈ l.
Proof.
  assert (Hi : forall y m, x ∈ insert_set y m <-> x = y \/ x ∈ m).
  { intros y m. induction m as [|z m IH]; simpl; [set_solver|].
    destruct (String.compare y z) eqn:E; rewrite ?elem_of_cons, ?IH; [|set_solver..].
    apply String.compare_eq_iff in E as ->. set_solver. }
  unfold sorted_set. induction l as [|y l IH]; simpl; [done|]. rewrite Hi, IH, elem_of_cons. done.
Qed.

Lemma dict_fromkeys_elem x l : x ∈ dict_fromkeys l <-> x ∈ l.
Proof.
  unfold dict_fromkeys. assert (Hg : forall seen, x ∈ dedup_from seen l <-> x ∈ l /\ x ∉ seen).
  { induction l as [|y l IH]; intros seen; simpl; [set_solver|].
    destruct (str_in y seen) eqn:E.
    - rewrite IH. rewrite str_in_elem in E. set_solver.
    - rewrite elem_of_cons, IH. apply str_in_false in E. destruct (decide (x = y)); set_solver. }
  rewrite Hg. set_solver.
Qed.

Lemma res_Ok_inj {A} (a b : A) : Ok a = Ok b -> a = b.
Proof. congruence. Qed.

(** *** Loops and conditions over lists *)

Lemma Ok_iff {A} (x y : A) : Ok x = Ok y <-> x = y.
Proof. naive_solver. Qed.
Lemma bind_Ok_iff {A B} (m : res A) (k : A -> res B) b : m ≫= k = Ok b <-> exists a, m = Ok a /\ k a = Ok b.
Proof. split; [apply bind_Ok|]. intros (a & -> & E). done. Qed.
Lemma flat_map_nil {A B} (f : A -> list B) l : flat_map f l = [] <-> forall x, x ∈ l -> f x = [].
Proof.
  induction l as [|x l IH]; cbn; [split; [intros _ ? []%not_elem_of_nil|done]|].
  rewrite app_nil, IH. setoid_rewrite elem_of_cons. naive_solver.
Qed.
Lemma concat_nil_iff {A} (ls : list (list A)) : List.concat ls = [] <-> Forall (fun l => l = []) ls.
Proof. induction ls as [|l ls IH]; cbn; [done|]. by rewrite app_nil, Forall_cons, IH. Qed.
Lemma existsb_false {A} (f : A -> bool) l : existsb f l = false <-> forall x, x ∈ l -> f x = false.
Proof.
  induction l as [|x l IH]; cbn; [split; [intros _ ? []%not_elem_of_nil|done]|].
  rewrite orb_false_iff, IH. setoid_rewrite elem_of_cons. naive_solver.
Qed.
Lemma existsb_true {A} (f : A -> bool) l : existsb f l = true <-> exists x, x ∈ l /\ f x = true.
Proof. rewrite existsb_exists. by setoid_rewrite list_elem_of_In. Qed.
Lemma forallb_true {A} (f : A -> bool) l : forallb f l = true <-> forall x, x ∈ l -> f x = true.
Proof. rewrite forallb_forall. by setoid_rewrite list_elem_of_In. Qed.

(** Loops that may raise: each result, in order. *)
Lemma mapM_Ok {A B} (f : A -> res B) l ys : res_mapM f l = Ok ys <-> Forall2 (fun x y => f x = Ok y) l ys.
Proof.
  split.
  - revert ys. induction l as [|x l IH]; intros ys E; cbn in E; simp_res; subst; constructor; eauto.
  - induction 1 as [|x y l ys E _ IH]; [done|]. cbn. by rewrite E, IH.
Qed.
Lemma mapM_nils {A B} (f : A -> res (list B)) l :
  (exists ys, res_mapM f l = Ok ys /\ List.concat ys = []) <-> forall x, x ∈ l -> f x = Ok [].
Proof.
  split.
  - intros (ys & Ey%mapM_Ok & Hn%concat_nil_iff). revert Hn. induction Ey as [|x y l ys E _ IH]; intros Hn z Hz.
    + by apply not_elem_of_nil in Hz.
    + apply Forall_cons in Hn as [-> Hn]. apply elem_of_cons in Hz as [->|Hz]; [done|by apply IH].
  - intros Hl. exists (map (fun _ => []) l). split.
    + apply mapM_Ok. induction l as [|x l IH]; constructor; [apply Hl, list_elem_of_here|].
      apply IH. intros z Hz. by apply Hl, list_elem_of_further.
    + apply concat_nil_iff. clear Hl. induction l; by constructor.
Qed.

(** The last of the items with a name, when names are distinct, is the only one. *)
Lemma last_named {A} (name : A -> string) (l : list A) (key : string) (x : A) :
  NoDup (map name l) ->
  last (List.filter (fun y => String.eqb (name y) key) l) = Some x <-> x ∈ l /\ name x = key.
Proof.
  induction l as [|y l IH]; cbn [map List.filter]; [split; [done|by intros [[]%not_elem_of_nil _]]|].
  intros [Hy Hl]%NoDup_cons. destruct (String.eqb_spec (name y) key) as [E|Hne].
  - assert (Hf : List.filter (fun y => String.eqb (name y) key) l = []).
    { subst key. clear IH Hl. induction l as [|z l IH]; [done|]. cbn in *. apply not_elem_of_cons in Hy as [Hz Hy].
      destruct (String.eqb_spec (name z) (name y)); [congruence|by apply IH]. }
    rewrite Hf. cbn. rewrite elem_of_cons. split; [intros [= ->]; auto|].
    intros [[->|Hx] Ex]; [done|]. exfalso. apply Hy. rewrite E, <- Ex. by apply list_elem_of_In, List.in_map, list_elem_of_In.
  - rewrite IH, elem_of_cons by done. naive_solver.
Qed.

Lemma mapM_Forall {A B} (f : A -> res B) (P : B -> Prop) l ys :
  (forall x y, f x = Ok y -> P y) -> res_mapM f l = Ok ys -> Forall P ys.
Proof.
  intros Hf. revert ys. induction l as [|x l IH]; intros ys E; cbn in E; simp_res; subst; [constructor|].
  constructor; eauto.
Qed.

Lemma filter_nil_iff {A} (f : A -> bool) l : List.filter f l = [] <-> Forall (fun x => f x = false) l.
Proof. induction l as [|x l IH]; cbn; [done|]. rewrite Forall_cons, <- IH. destruct (f x); naive_solver. Qed.
