(* ===== verification/Sha256.v ===== *)
(** * hashlib.sha256

    The SHA-256 compression function of FIPS 180-4, the part of Python's
    [hashlib] that every digest in the code under [src/] is built from.  The
    32-bit words are [N] reduced modulo [2^32] with the wrap-around written out;
    a byte string is a [string], eight bits per character. *)
From Stdlib Require Import NArith Arith Ascii String List Lia.
Import ListNotations.
Local Open Scope N_scope.

Definition w32 (x : N) : N := N.land x 4294967295.
Definition add32 (x y : N) : N := w32 (x + y).
Definition not32 (x : N) : N := N.lxor x 4294967295.
Definition shr (x n : N) : N := N.shiftr x n.
Definition rotr (x n : N) : N := N.lor (N.shiftr x n) (w32 (N.shiftl x (32 - n))).

Definition Ch (x y z : N) : N := N.lxor (N.land x y) (N.land (not32 x) z).
Definition Maj (x y z : N) : N :=
  N.lxor (N.lxor (N.land x y) (N.land x z)) (N.land y z).
Definition Sigma0 (x : N) : N := N.lxor (N.lxor (rotr x 2) (rotr x 13)) (rotr x 22).
Definition Sigma1 (x : N) : N := N.lxor (N.lxor (rotr x 6) (rotr x 11)) (rotr x 25).
Definition sigma0 (x : N) : N := N.lxor (N.lxor (rotr x 7) (rotr x 18)) (shr x 3).
Definition sigma1 (x : N) : N := N.lxor (N.lxor (rotr x 17) (rotr x 19)) (shr x 10).

(** The constants are the first 32 bits of the fractional parts of the cube
    roots of the first 64 primes and of the square roots of the first 8. *)
Definition has_divisor (n : nat) : bool :=
  existsb (fun d => Nat.eqb (n mod d) 0) (seq 2 (n - 2)).
Definition first_primes (count : nat) : list N :=
  map N.of_nat (firstn count (filter (fun n => negb (has_divisor n)) (seq 2 310))).

(** The largest [r] of at most [bits] bits with [r ^ k <= n]. *)
Fixpoint int_root (bits : nat) (k n r : N) : N :=
  match bits with
  | O => r
  | S b =>
      let r' := r + N.shiftl 1 (N.of_nat b) in
      int_root b k n (if r' ^ k <=? n then r' else r)
  end.

(** The fractional part of the [k]-th root of [p], to 32 bits. *)
Definition root_fraction (k p : N) : N := w32 (int_root 40 k (p * 2 ^ (32 * k)) 0).

Definition K256 : list N := Eval vm_compute in map (root_fraction 3) (first_primes 64).
Definition H256 : list N := Eval vm_compute in map (root_fraction 2) (first_primes 8).

(** [bytes_be n x] is [x] as [n] big-endian bytes. *)
Fixpoint bytes_be (n : nat) (x : N) : list N :=
  match n with
  | O => []
  | S n' => N.land (N.shiftr x (8 * N.of_nat n')) 255 :: bytes_be n' x
  end.

(** Padding: a one bit, zero bits up to 56 modulo 64 bytes, the bit length. *)
Definition pad_zeros (len : N) : nat := N.to_nat ((119 - len mod 64) mod 64).
Definition pad (message : list N) : list N :=
  let len := N.of_nat (List.length message) in
  message ++ 128 :: repeat 0 (pad_zeros len) ++ bytes_be 8 (8 * len).

Fixpoint words_of_bytes (fuel : nat) (bytes : list N) : list N :=
  match fuel, bytes with
  | S f, a :: b :: c :: d :: rest =>
      N.lor (N.lor (N.shiftl a 24) (N.shiftl b 16)) (N.lor (N.shiftl c 8) d)
      :: words_of_bytes f rest
  | _, _ => []
  end.

(** The message schedule, newest word first: [w_t] from [w_(t-2)], [w_(t-7)],
    [w_(t-15)] and [w_(t-16)]. *)
Fixpoint schedule (n : nat) (rev_words : list N) : list N :=
  match n with
  | O => rev_words
  | S n' =>
      let w i := nth i rev_words 0 in
      schedule n'
        (w32 (sigma1 (w 1%nat) + w 6%nat + sigma0 (w 14%nat) + w 15%nat) :: rev_words)
  end.

Definition round (st : list N) (kw : N * N) : list N :=
  match st with
  | [a; b; c; d; e; f; g; h] =>
      let t1 := h + Sigma1 e + Ch e f g + fst kw + snd kw in
      let t2 := Sigma0 a + Maj a b c in
      [w32 (t1 + t2); a; b; c; add32 d t1; e; f; g]
  | _ => st
  end.

Definition compress (st : list N) (block : list N) : list N :=
  let w := rev (schedule 48 (rev block)) in
  map (fun p => add32 (fst p) (snd p)) (combine st (fold_left round (combine K256 w) st)).

Fixpoint blocks (fuel : nat) (ws : list N) (st : list N) : list N :=
  match fuel, ws with
  | S f, _ :: _ => blocks f (skipn 16 ws) (compress st (firstn 16 ws))
  | _, _ => st
  end.

Definition bytes_of_string (s : string) : list N :=
  map N_of_ascii (list_ascii_of_string s).

Definition sha256_words (message : list N) : list N :=
  let padded := pad message in
  let n := List.length padded in
  blocks n (words_of_bytes n padded) H256.

(** [hexdigest()]: lower-case hexadecimal, two digits per byte. *)
Definition hex_digit (n : N) : ascii :=
  ascii_of_N (if n <? 10 then 48 + n else 87 + n).
Definition hex_byte (b : N) : list ascii :=
  [hex_digit (N.shiftr b 4); hex_digit (N.land b 15)].

Definition sha256_hexdigest (payload : string) : string :=
  string_of_list_ascii
    (flat_map hex_byte (flat_map (bytes_be 4) (sha256_words (bytes_of_string payload)))).

(** The form in which the code writes a digest. *)
Definition sha256_digest (payload : string) : string :=
  String.append "sha256:" (sha256_hexdigest payload).

Example sha256_empty :
  sha256_hexdigest "" = "e3b0c44298fc1c149afbf4c8996fb92427ae41e4649b934ca495991b7852b855"%string.
Proof. vm_compute. reflexivity. Qed.

Example sha256_abc :
  sha256_hexdigest "abc" = "ba7816bf8f01cfea414140de5dae2223b00361a396177a9cb410ff61f20015ad"%string.
Proof. vm_compute. reflexivity. Qed.

Example sha256_two_blocks :
  sha256_hexdigest "abcdbcdecdefdefgefghfghighijhijkijkljklmklmnlmnomnopnopq"
  = "248d6a61d20638b8e5c026930c3e6039a33ce45964ff2167f6ecedd419db06c1"%string.
Proof. vm_compute. reflexivity. Qed.

(** ** The digest is 64 lower-case hexadecimal digits *)

Definition is_hex_digit (c : ascii) : bool :=
  let n := N_of_ascii c in ((48 <=? n) && (n <=? 57)) || ((97 <=? n) && (n <=? 102)).

Lemma hex_digit_is_hex (n : N) : n < 16 -> is_hex_digit (hex_digit n) = true.
Proof.
  intros H. unfold is_hex_digit, hex_digit.
  destruct (N.ltb_spec n 10); rewrite N_ascii_embedding by lia;
    repeat match goal with |- context [?a <=? ?b] => destruct (N.leb_spec a b) end;
    try reflexivity; lia.
Qed.

Lemma land_255_lt (x : N) : N.land x 255 < 256.
Proof. change 255 with (N.ones 8). rewrite N.land_ones. apply N.mod_lt. discriminate. Qed.

Lemma hex_byte_is_hex (x : N) : forallb is_hex_digit (hex_byte (N.land x 255)) = true.
Proof.
  pose proof (land_255_lt x) as Hx. unfold hex_byte. cbn [forallb].
  rewrite !hex_digit_is_hex; [reflexivity| |].
  - change 15 with (N.ones 4). rewrite N.land_ones. apply N.mod_lt. discriminate.
  - rewrite N.shiftr_div_pow2. apply N.Div0.div_lt_upper_bound. exact Hx.
Qed.

Lemma round_length (st : list N) kw : List.length (round st kw) = List.length st.
Proof.
  unfold round. do 9 (destruct st as [|? st]; [reflexivity|]). reflexivity.
Qed.

Lemma fold_round_length kws st : List.length (fold_left round kws st) = List.length st.
Proof. revert st. induction kws as [|kw kws IH]; intros st; simpl; [reflexivity|]. now rewrite IH, round_length. Qed.

Lemma compress_length st block : List.length (compress st block) = List.length st.
Proof.
  unfold compress. rewrite length_map, length_combine, fold_round_length. apply Nat.min_id.
Qed.

Lemma blocks_length f ws st : List.length (blocks f ws st) = List.length st.
Proof.
  revert ws st. induction f as [|f IH]; intros ws st; simpl; [now destruct ws|].
  destruct ws as [|w ws]; [reflexivity|]. now rewrite IH, compress_length.
Qed.

Lemma bytes_be_length n x : List.length (bytes_be n x) = n.
Proof. revert x. induction n as [|n IH]; intros x; simpl; [reflexivity|]. now rewrite IH. Qed.

Lemma bytes_be_hex n x : forallb is_hex_digit (flat_map hex_byte (bytes_be n x)) = true.
Proof.
  induction n as [|n IH]; [reflexivity|]. cbn [bytes_be flat_map].
  now rewrite forallb_app, hex_byte_is_hex, IH.
Qed.

Lemma hex_byte_length bs : List.length (flat_map hex_byte bs) = (2 * List.length bs)%nat.
Proof. induction bs as [|b bs IH]; [reflexivity|]. cbn [flat_map]. rewrite length_app, IH. cbn. lia. Qed.

Lemma hexdigest_chars (words : list N) :
  let hex := flat_map hex_byte (flat_map (bytes_be 4) words) in
  List.length hex = (8 * List.length words)%nat /\ forallb is_hex_digit hex = true.
Proof.
  cbv zeta. rewrite hex_byte_length.
  induction words as [|w ws [IHl IHh]]; [split; reflexivity|]. cbn [flat_map].
  rewrite length_app, bytes_be_length, flat_map_app, forallb_app, bytes_be_hex, IHh.
  split; [cbn [List.length]; lia|reflexivity].
Qed.

Lemma sha256_hexdigest_shape (payload : string) :
  String.length (sha256_hexdigest payload) = 64%nat /\
  forallb is_hex_digit (list_ascii_of_string (sha256_hexdigest payload)) = true.
Proof.
  unfold sha256_hexdigest. rewrite list_ascii_of_string_of_list_ascii.
  destruct (hexdigest_chars (sha256_words (bytes_of_string payload))) as [Hl Hh].
  split; [|exact Hh].
  assert (Hs : forall l, String.length (string_of_list_ascii l) = List.length l).
  { induction l as [|c l IH]; simpl; [reflexivity|now rewrite IH]. }
  rewrite Hs, Hl. unfold sha256_words. now rewrite blocks_length.
Qed.
