(* ===== verification/Json.v ===== *)
(** * JSON values and the standard library's [json]

    The Python values that JSON documents load into, the [==], [<] and
    [isinstance] tests the code performs on them, UTF-8 decoding, a model of
    [json.loads] with its hooks ([object_pairs_hook], [parse_int],
    [parse_float], [parse_constant]) and of [json.dumps] with sorted keys and
    the compact separators.  Floats are IEEE-754 binary64 values
    ([SpecFloat.spec_float] with 53 bits of precision). *)
From Stdlib Require Import SpecFloat Ascii String.
From S2P Require Import Prelude.

(** ** Values *)

#[warnings="-register-all"]
Inductive json : Type :=
  | JNull
  | JBool (b : bool)
  | JInt (z : Z)
  | JFloat (f : spec_float)
  | JStr (s : string)
  | JArr (l : list json)
  | JObj (m : list (string * json)).

Section JsonInd.
Variable P : json -> Prop.
Hypothesis Hnull : P JNull.
Hypothesis Hbool : forall b, P (JBool b).
Hypothesis Hint : forall z, P (JInt z).
Hypothesis Hfloat : forall f, P (JFloat f).
Hypothesis Hstr : forall s, P (JStr s).
Hypothesis Harr : forall l, Forall P l -> P (JArr l).
Hypothesis Hobj : forall m, Forall (fun p => P (snd p)) m -> P (JObj m).

Fixpoint json_ind' (v : json) : P v :=
  match v with
  | JNull => Hnull
  | JBool b => Hbool b
  | JInt z => Hint z
  | JFloat f => Hfloat f
  | JStr s => Hstr s
  | JArr l =>
      Harr l ((fix go (l : list json) : Forall P l :=
                 match l with
                 | [] => List.Forall_nil P
                 | x :: l' => List.Forall_cons P x l' (json_ind' x) (go l')
                 end) l)
  | JObj m =>
      Hobj m ((fix go (m : list (string * json)) : Forall (fun p => P (snd p)) m :=
                 match m with
                 | [] => List.Forall_nil _
                 | p :: m' => List.Forall_cons _ p m' (json_ind' (snd p)) (go m')
                 end) m)
  end.
End JsonInd.

(** [isinstance(v, str)], [isinstance(v, Mapping)], ... ; [bool] is a subclass
    of [int] in Python, so the tests on numbers say so explicitly. *)
Definition is_str (v : json) : bool := match v with JStr _ => true | _ => false end.
Definition is_bool (v : json) : bool := match v with JBool _ => true | _ => false end.
Definition is_int (v : json) : bool := match v with JInt _ | JBool _ => true | _ => false end.
Definition is_number (v : json) : bool :=
  match v with JInt _ | JBool _ | JFloat _ => true | _ => false end.
Definition is_list (v : json) : bool := match v with JArr _ => true | _ => false end.
Definition is_mapping (v : json) : bool := match v with JObj _ => true | _ => false end.

Definition as_str (v : json) : option string := match v with JStr s => Some s | _ => None end.
Definition as_obj (v : json) : option (list (string * json)) :=
  match v with JObj m => Some m | _ => None end.

(** An object of texts. *)
Definition strs (l : list (string * string)) : json := JObj (map (fun p => (fst p, JStr (snd p))) l).

(** [d.get(k)]: [None] when the key is absent. *)
Definition jget (k : string) (m : list (string * json)) : json :=
  match assoc k m with Some v => v | None => JNull end.

(** ** Numbers: exact comparison of [int] and [float] *)

(** A finite number is [m * 2^e]. *)
Inductive num : Type :=
  | NNaN
  | NInf (negative : bool)
  | NDyadic (m e : Z).

Definition num_of_float (f : spec_float) : num :=
  match f with
  | S754_zero _ => NDyadic 0 0
  | S754_infinity s => NInf s
  | S754_nan => NNaN
  | S754_finite s m e => NDyadic (if s then Zneg m else Zpos m) e
  end.

Definition num_of (v : json) : option num :=
  match v with
  | JInt z => Some (NDyadic z 0)
  | JBool b => Some (NDyadic (if b then 1 else 0) 0)
  | JFloat f => Some (num_of_float f)
  | _ => None
  end.

Definition dyadic_compare (m1 e1 m2 e2 : Z) : comparison :=
  let e := Z.min e1 e2 in
  (m1 * 2 ^ (e1 - e) ?= m2 * 2 ^ (e2 - e)).

(** [None] when a NaN is involved: every ordering is then [False]. *)
Definition num_compare (a b : num) : option comparison :=
  match a, b with
  | NNaN, _ | _, NNaN => None
  | NInf s1, NInf s2 => Some (if Bool.eqb s1 s2 then Eq else if s1 then Lt else Gt)
  | NInf s, _ => Some (if s then Lt else Gt)
  | _, NInf s => Some (if s then Gt else Lt)
  | NDyadic m1 e1, NDyadic m2 e2 => Some (dyadic_compare m1 e1 m2 e2)
  end.

Definition cmp_lt (c : option comparison) : bool := match c with Some Lt => true | _ => false end.
Definition cmp_le (c : option comparison) : bool :=
  match c with Some Lt | Some Eq => true | _ => false end.
Definition cmp_gt (c : option comparison) : bool := match c with Some Gt => true | _ => false end.
Definition cmp_ge (c : option comparison) : bool :=
  match c with Some Gt | Some Eq => true | _ => false end.
Definition cmp_eq (c : option comparison) : bool := match c with Some Eq => true | _ => false end.

(** Python's [==] on JSON values: numbers by value ([True == 1]), strings by
    content, lists item by item, dicts as finite maps. *)
Fixpoint py_eq (a b : json) {struct a} : bool :=
  match a, b with
  | JNull, JNull => true
  | JStr s, JStr t => String.eqb s t
  | JArr l, JArr l' =>
      (fix go (l l' : list json) {struct l} : bool :=
         match l, l' with
         | [], [] => true
         | x :: xs, y :: ys => py_eq x y && go xs ys
         | _, _ => false
         end) l l'
  | JObj m, JObj m' =>
      Nat.eqb (List.length m) (List.length m') &&
      (fix go (m : list (string * json)) : bool :=
         match m with
         | [] => true
         | (k, x) :: rest =>
             match assoc k m' with Some y => py_eq x y | None => false end && go rest
         end) m
  | _, _ =>
      match num_of a, num_of b with
      | Some x, Some y => cmp_eq (num_compare x y)
      | _, _ => false
      end
  end.

(** ** UTF-8 *)

Definition byte_n (c : ascii) : N := N_of_ascii c.
Definition is_cont (c : ascii) : bool := (N.land (byte_n c) 192 =? 128)%N.

(** Code points of a [str], by the shape of the leading byte; a byte that does
    not start a well-formed sequence stands for itself. *)
Fixpoint code_points (fuel : nat) (s : string) : list N :=
  match fuel, s with
  | S f, String c s1 =>
      let b := byte_n c in
      if (b <? 128)%N then b :: code_points f s1
      else if (b <? 224)%N then
        match s1 with
        | String c1 s2 =>
            (N.lor (N.shiftl (N.land b 31) 6) (N.land (byte_n c1) 63)) :: code_points f s2
        | _ => [b]
        end
      else if (b <? 240)%N then
        match s1 with
        | String c1 (String c2 s3) =>
            (N.lor (N.shiftl (N.land b 15) 12)
               (N.lor (N.shiftl (N.land (byte_n c1) 63) 6) (N.land (byte_n c2) 63)))
              :: code_points f s3
        | _ => [b]
        end
      else
        match s1 with
        | String c1 (String c2 (String c3 s4)) =>
            (N.lor (N.shiftl (N.land b 7) 18)
               (N.lor (N.shiftl (N.land (byte_n c1) 63) 12)
                  (N.lor (N.shiftl (N.land (byte_n c2) 63) 6) (N.land (byte_n c3) 63))))
              :: code_points f s4
        | _ => [b]
        end
  | _, _ => []
  end.
Definition ords (s : string) : list N := code_points (String.length s) s.

(** The (generalised) UTF-8 bytes of a code point. *)
Definition chr_n (n : N) : ascii := ascii_of_N n.
Definition utf8_encode (cp : N) : string :=
  if (cp <? 128)%N then String (chr_n cp) ""
  else if (cp <? 2048)%N then
    String (chr_n (N.lor 192 (N.shiftr cp 6))) (String (chr_n (N.lor 128 (N.land cp 63))) "")
  else if (cp <? 65536)%N then
    String (chr_n (N.lor 224 (N.shiftr cp 12)))
      (String (chr_n (N.lor 128 (N.land (N.shiftr cp 6) 63)))
         (String (chr_n (N.lor 128 (N.land cp 63))) ""))
  else
    String (chr_n (N.lor 240 (N.shiftr cp 18)))
      (String (chr_n (N.lor 128 (N.land (N.shiftr cp 12) 63)))
         (String (chr_n (N.lor 128 (N.land (N.shiftr cp 6) 63)))
            (String (chr_n (N.lor 128 (N.land cp 63))) ""))).
Definition utf8_encode_all (cps : list N) : string :=
  foldr (fun cp acc => utf8_encode cp +:+ acc) ""%string cps.

Definition is_surrogate (cp : N) : bool := (55296 <=? cp)%N && (cp <=? 57343)%N.

(** [bytes.decode("utf-8", errors)]: well-formed sequences only, in shortest
    form, nothing beyond U+10FFFF; surrogates when the error handler passes them
    ([surrogatepass]), not in strict mode. *)
Section Utf8Valid.
Variable surrogatepass : bool.

Fixpoint utf8_valid_with (fuel : nat) (s : string) : bool :=
  match fuel, s with
  | _, EmptyString => true
  | S f, String c s1 =>
      let b := byte_n c in
      if (b <? 128)%N then utf8_valid_with f s1
      else if (b <? 194)%N then false
      else if (b <? 224)%N then
        match s1 with
        | String c1 s2 => is_cont c1 && utf8_valid_with f s2
        | _ => false
        end
      else if (b <? 240)%N then
        match s1 with
        | String c1 (String c2 s3) =>
            let cp := (N.lor (N.shiftl (N.land b 15) 12)
               (N.lor (N.shiftl (N.land (byte_n c1) 63) 6) (N.land (byte_n c2) 63))) in
            is_cont c1 && is_cont c2 && (2048 <=? cp)%N && (surrogatepass || negb (is_surrogate cp))
            && utf8_valid_with f s3
        | _ => false
        end
      else
        match s1 with
        | String c1 (String c2 (String c3 s4)) =>
            let cp := (N.lor (N.shiftl (N.land b 7) 18)
               (N.lor (N.shiftl (N.land (byte_n c1) 63) 12)
                  (N.lor (N.shiftl (N.land (byte_n c2) 63) 6) (N.land (byte_n c3) 63)))) in
            (b <? 245)%N && is_cont c1 && is_cont c2 && is_cont c3
            && (65536 <=? cp)%N && (cp <=? 1114111)%N && utf8_valid_with f s4
        | _ => false
        end
  | O, _ => false
  end.
End Utf8Valid.
Abbreviation utf8_valid := (utf8_valid_with false).

Definition decode_utf8 (payload : string) : res string :=
  if utf8_valid (String.length payload) payload then Ok payload
  else Raise (UnicodeDecodeError "invalid utf-8").
