(* ===== verification/JsonText.v ===== *)
(** * [json.loads] and [json.dumps]

    The standard library's JSON reader, hooks included, and its writer with
    [sort_keys=True, separators=(",", ":")], the only form the code uses for
    digests and blobs.  Numbers are converted exactly: [float(token)] is the
    correctly rounded binary64 value, [repr(float)] the shortest decimal that
    reads back to the same float. *)
From Stdlib Require Import SpecFloat Ascii String.
From S2P Require Import Prelude Json.

(** ** Decimal tokens *)

Fixpoint scan_digits (s : string) : string * string :=
  match s with
  | String c s' =>
      if is_digit c then let (ds, rest) := scan_digits s' in (String c ds, rest) else (""%string, s)
  | EmptyString => (""%string, s)
  end.

Fixpoint N_of_digits_acc (s : string) (acc : N) : N :=
  match s with
  | String c s' => N_of_digits_acc s' (10 * acc + (N_of_ascii c - 48))
  | EmptyString => acc
  end.
Definition N_of_digits (s : string) : N := N_of_digits_acc s 0.

(** [int(token)] for an optionally signed run of digits. *)
Definition int_of_token (s : string) : Z :=
  match s with
  | String "-" s' => - Z.of_N (N_of_digits s')
  | String "+" s' => Z.of_N (N_of_digits s')
  | _ => Z.of_N (N_of_digits s)
  end.

(** [int(token)] refuses more than 4300 digits ([sys.int_info]). *)
Definition py_int (token : string) : res Z :=
  let digits := match token with String "-" t => t | _ => token end in
  if 4300 <? Z.of_nat (String.length digits)
  then Raise (ValueError "Exceeds the limit (4300 digits) for integer string conversion")
  else Ok (int_of_token token).

(** A decimal token as [(negative, m, e)], its value being [+-m * 10^e]. *)
Definition decimal_of_token (s : string) : bool * N * Z :=
  let '(neg, s) := match s with String "-" s' => (true, s') | _ => (false, s) end in
  let (whole, s) := scan_digits s in
  let '(frac, s) := match s with String "." s' => scan_digits s' | _ => (""%string, s) end in
  let ex := match s with
            | String c s' => if char_in "eE" c then int_of_token s' else 0
            | EmptyString => 0
            end in
  (neg, N_of_digits (whole +:+ frac), ex - Z.of_nat (String.length frac)).

(** [m * 10^e], correctly rounded to binary64. *)
Definition float_of_decimal (neg : bool) (m : N) (e : Z) : spec_float :=
  match m with
  | N0 => S754_zero neg
  | Npos p =>
      let digits := Z.of_N (N.log2 m) / 3 + e in
      if 400 <? e then S754_infinity neg
      else if digits <? -400 then S754_zero neg
      else if 0 <=? e then
        binary_normalize 53 1024 (if neg then - (Zpos p * 10 ^ e) else Zpos p * 10 ^ e) 0 neg
      else
        let '(q, e', loc) := SFdiv_core_binary 53 1024 (Zpos p) 0 (10 ^ (- e)) 0 in
        binary_round_aux 53 1024 neg q e' loc
  end.
Definition float_of_token (s : string) : spec_float :=
  let '(neg, m, e) := decimal_of_token s in float_of_decimal neg m e.

(** ** [json.loads] *)

Record hooks : Type := {
  object_pairs_hook : list (string * json) -> res json;
  parse_int : string -> res json;
  parse_float : string -> res json;
  parse_constant : string -> res json
}.

(** The hooks of a plain [json.loads(text)]. *)
Definition default_hooks : hooks := {|
  object_pairs_hook pairs :=
    Ok (JObj (foldl (fun d p => assoc_set (fst p) (snd p) d) [] pairs));
  parse_int token := z ← py_int token; Ok (JInt z);
  parse_float token := Ok (JFloat (float_of_token token));
  parse_constant token :=
    Ok (JFloat (if String.eqb token "NaN" then S754_nan
                else S754_infinity (String.eqb token "-Infinity")))
|}.

Definition hex_val (c : ascii) : option N :=
  if is_digit c then Some (N_of_ascii c - 48)%N
  else if in_range "a" "f" c then Some (N_of_ascii c - 87)%N
  else if in_range "A" "F" c then Some (N_of_ascii c - 55)%N
  else None.
Definition hex4 (a b c d : ascii) : option N :=
  wa ← hex_val a; wb ← hex_val b; wc ← hex_val c; wd ← hex_val d;
  Some (4096 * wa + 256 * wb + 16 * wc + wd)%N.

Definition is_high (cp : N) : bool := (55296 <=? cp)%N && (cp <=? 56319)%N.
Definition is_low (cp : N) : bool := (56320 <=? cp)%N && (cp <=? 57343)%N.
Definition join_surrogates (hi lo : N) : N := (65536 + (hi - 55296) * 1024 + (lo - 56320))%N.

Definition simple_escape (c : ascii) : option ascii :=
  match c with
  | "034"%char => Some "034"%char
  | "\"%char => Some "\"%char
  | "/"%char => Some "/"%char
  | "b"%char => Some (chr_n 8)
  | "f"%char => Some (chr_n 12)
  | "n"%char => Some (chr_n 10)
  | "r"%char => Some (chr_n 13)
  | "t"%char => Some (chr_n 9)
  | _ => None
  end.

(** The characters of a string literal, after its opening quote. *)
Fixpoint scan_string (s : string) : option (string * string) :=
  match s with
  | EmptyString => None
  | String c s1 =>
      if Ascii.eqb c "034" then Some (""%string, s1)
      else if Ascii.eqb c "\" then
        match s1 with
        | EmptyString => None
        | String e s2 =>
            if Ascii.eqb e "u" then
              match s2 with
              | String a (String b (String c' (String d s6))) =>
                  cp ← hex4 a b c' d;
                  let single := r ← scan_string s6; Some (utf8_encode cp +:+ fst r, snd r) in
                  if is_high cp then
                    match s6 with
                    | String y (String z (String a2 (String b2 (String c2 (String d2 s12))))) =>
                        if Ascii.eqb y "\" && Ascii.eqb z "u" then
                          lo ← hex4 a2 b2 c2 d2;
                          if is_low lo
                          then r ← scan_string s12;
                               Some (utf8_encode (join_surrogates cp lo) +:+ fst r, snd r)
                          else single
                        else single
                    | _ => single
                    end
                  else single
              | _ => None
              end
            else
              ch ← simple_escape e; r ← scan_string s2; Some (String ch (fst r), snd r)
        end
      else if (byte_n c <? 32)%N then None
      else r ← scan_string s1; Some (String c (fst r), snd r)
  end.

Definition is_ws (c : ascii) : bool := char_in (String " " (String (chr_n 9) (String (chr_n 10) (String (chr_n 13) "")))) c.
Fixpoint skip_ws (s : string) : string :=
  match s with
  | String c s' => if is_ws c then skip_ws s' else s
  | EmptyString => s
  end.

(** The longest number at the head: its token, whether it has a fraction or an
    exponent, and the rest. *)
Definition scan_frac (s : string) : string * string :=
  match s with
  | String "." s' =>
      match scan_digits s' with
      | (""%string, _) => (""%string, s)
      | (ds, rest) => (String "." ds, rest)
      end
  | _ => (""%string, s)
  end.
Definition scan_exp (s : string) : string * string :=
  match s with
  | String c s' =>
      if char_in "eE" c then
        let '(sign, s'') := match s' with
                            | String d t => if char_in "+-" d then (String d "", t) else (""%string, s')
                            | _ => (""%string, s')
                            end in
        match scan_digits s'' with
        | (""%string, _) => (""%string, s)
        | (ds, rest) => (String c (sign +:+ ds), rest)
        end
      else (""%string, s)
  | EmptyString => (""%string, s)
  end.
Definition scan_number (s : string) : option (string * bool * string) :=
  let '(sign, s1) := match s with String "-" t => ("-"%string, t) | _ => (""%string, s) end in
  whole ← match s1 with
          | String "0" t => Some ("0"%string, t)
          | String c _ => if in_range "1" "9" c then Some (scan_digits s1) else None
          | EmptyString => None
          end;
  let (frac, s2) := scan_frac (snd whole) in
  let (ex, s3) := scan_exp s2 in
  Some (sign +:+ fst whole +:+ frac +:+ ex,
        negb (String.eqb (frac +:+ ex) ""), s3).

Definition malformed {A} (why : string) : res A := Raise (JSONDecodeError why).

Definition literals : list (string * json) :=
  [("null"%string, JNull); ("true"%string, JBool true); ("false"%string, JBool false)].
Definition constants : list string := ["NaN"; "Infinity"; "-Infinity"]%string.

Definition scan_literal (s : string) : option (json * string) :=
  foldr (fun p acc => if startswith s (fst p) then Some (snd p, drop_str (String.length (fst p)) s)
                      else acc) None literals.
Definition scan_constant (s : string) : option (string * string) :=
  foldr (fun p acc => if startswith s p then Some (p, drop_str (String.length p) s) else acc)
    None constants.

Definition scan_scalar (h : hooks) (s : string) : res (json * string) :=
  match scan_literal s with
  | Some r => Ok r
  | None =>
      match scan_constant s with
      | Some (token, rest) => v ← parse_constant h token; Ok (v, rest)
      | None =>
          match scan_number s with
          | Some (token, fractional, rest) =>
              v ← (if fractional then parse_float h token else parse_int h token); Ok (v, rest)
          | None => malformed "Expecting value"
          end
      end
  end.

Fixpoint scan_value (h : hooks) (fuel : nat) (s : string) : res (json * string) :=
  match fuel with
  | O => Raise OutOfFuel
  | S f =>
      match s with
      | String "034" s1 =>
          match scan_string s1 with
          | Some (str, rest) => Ok (JStr str, rest)
          | None => malformed "Invalid string"
          end
      | String "{" s1 =>
          match skip_ws s1 with
          | String "}" rest => v ← object_pairs_hook h []; Ok (v, rest)
          | s2 => scan_members h f s2 []
          end
      | String "[" s1 =>
          match skip_ws s1 with
          | String "]" rest => Ok (JArr [], rest)
          | s2 => scan_elements h f s2 []
          end
      | _ => scan_scalar h s
      end
  end
with scan_members (h : hooks) (fuel : nat) (s : string) (acc : list (string * json))
    : res (json * string) :=
  match fuel with
  | O => Raise OutOfFuel
  | S f =>
      match s with
      | String "034" s1 =>
          match scan_string s1 with
          | Some (key, rest) =>
              match skip_ws rest with
              | String ":" s2 =>
                  r ← scan_value h f (skip_ws s2);
                  match skip_ws (snd r) with
                  | String "}" s3 =>
                      v ← object_pairs_hook h (reverse ((key, fst r) :: acc)); Ok (v, s3)
                  | String "," s3 => scan_members h f (skip_ws s3) ((key, fst r) :: acc)
                  | _ => malformed "Expecting ',' delimiter"
                  end
              | _ => malformed "Expecting ':' delimiter"
              end
          | None => malformed "Invalid string"
          end
      | _ => malformed "Expecting property name enclosed in double quotes"
      end
  end
with scan_elements (h : hooks) (fuel : nat) (s : string) (acc : list json)
    : res (json * string) :=
  match fuel with
  | O => Raise OutOfFuel
  | S f =>
      r ← scan_value h f s;
      match skip_ws (snd r) with
      | String "]" s3 => Ok (JArr (reverse (fst r :: acc)), s3)
      | String "," s3 => scan_elements h f (skip_ws s3) (fst r :: acc)
      | _ => malformed "Expecting ',' delimiter"
      end
  end.

(** [json.loads(text, ...)]. *)
Definition json_loads (h : hooks) (text : string) : res json :=
  r ← scan_value h (S (2 * String.length text)) (skip_ws text);
  match skip_ws (snd r) with
  | EmptyString => Ok (fst r)
  | _ => malformed "Extra data"
  end.

(** ** [json.dumps(value, sort_keys=True, separators=(",", ":"))] *)

Definition hex_digit (n : N) : ascii := ascii_of_N (if (n <? 10)%N then 48 + n else 87 + n).
Definition u_escape (cp : N) : string :=
  String "\" (String "u" (String (hex_digit (N.land (N.shiftr cp 12) 15))
    (String (hex_digit (N.land (N.shiftr cp 8) 15))
      (String (hex_digit (N.land (N.shiftr cp 4) 15)) (String (hex_digit (N.land cp 15)) ""))))).

(** The default [ensure_ascii=True] escaping of one code point. *)
Definition escape_ascii (cp : N) : string :=
  if (cp =? 34)%N then String "\" (String "034" "")
  else if (cp =? 92)%N then String "\" (String "\" "")
  else if (cp =? 10)%N then "\n"
  else if (cp =? 13)%N then "\r"
  else if (cp =? 9)%N then "\t"
  else if (cp =? 12)%N then "\f"
  else if (cp =? 8)%N then "\b"
  else if (32 <=? cp)%N && (cp <=? 126)%N then String (chr_n cp) ""
  else if (cp <? 65536)%N then u_escape cp
  else
    let v := (cp - 65536)%N in
    u_escape (N.lor 55296 (N.land (N.shiftr v 10) 1023))
      +:+ u_escape (N.lor 56320 (N.land v 1023)).

Definition quote : string := String "034" "".
Definition dump_str (s : string) : string :=
  quote +:+ foldr (fun cp acc => escape_ascii cp +:+ acc) quote (ords s).

(** [repr(float)]: the fewest significant digits that read back to [x]. *)
Definition scale10 (m : positive) (e k : Z) : Z * Z :=
  (* [m * 2^e * 10^k] as numerator and denominator *)
  let n := Zpos m * (if 0 <=? e then 2 ^ e else 1) * (if 0 <=? k then 10 ^ k else 1) in
  let d := (if 0 <=? e then 1 else 2 ^ (- e)) * (if 0 <=? k then 1 else 10 ^ (- k)) in
  (n, d).

Definition log10_floor (m : positive) (e : Z) : Z :=
  let guess := (Zpos (Pos.size m) - 1 + e) * 30103 / 100000 in
  let below k := let (n, d) := scale10 m e (- k) in n <? d in
  if below guess then guess - 1
  else if below (guess + 1) then guess else guess + 1.

Definition repr_digits_at (m : positive) (e k : Z) (n : Z) : option (Z * Z) :=
  (* [n] digits [d] with exponent [x]: candidate [d * 10^x] nearest to the float *)
  let '(num, den) := scale10 m e (n - 1 - k) in
  let lo := num / den in
  let ok d := match float_of_decimal false (Z.to_N d) (k - n + 1) with
              | S754_finite false m' e' => (m' =? m)%positive && (e' =? e)
              | _ => false
              end in
  let r := num mod den in
  let nearest := if 2 * r <? den then lo
                 else if den <? 2 * r then lo + 1
                 else if Z.even lo then lo else lo + 1 in
  let other := if nearest =? lo then lo + 1 else lo in
  if ok nearest then Some (nearest, k - n + 1)
  else if ok other then Some (other, k - n + 1) else None.

Fixpoint repr_search (fuel : nat) (m : positive) (e k n : Z) : Z * Z :=
  match fuel with
  | O => (Zpos m, e)
  | S f => match repr_digits_at m e k n with
           | Some r => r
           | None => repr_search f m e k (n + 1)
           end
  end.

Fixpoint zeros (n : nat) : string := match n with O => ""%string | S n' => String "0" (zeros n') end.
Fixpoint take_str (n : nat) (s : string) : string :=
  match n, s with S n', String c s' => String c (take_str n' s') | _, _ => ""%string end.
Fixpoint strip_zeros (fuel : nat) (d x : Z) : Z * Z :=
  match fuel with
  | O => (d, x)
  | S f => if (d mod 10 =? 0) && (0 <? d) then strip_zeros f (d / 10) (x + 1) else (d, x)
  end.

Definition float_repr (f : spec_float) : string :=
  match f with
  | S754_zero s => if s then "-0.0" else "0.0"
  | S754_nan => "nan"
  | S754_infinity s => if s then "-inf" else "inf"
  | S754_finite s m e =>
      let '(d0, x0) := repr_search 17 m e (log10_floor m e) 1 in
      let '(d, x) := strip_zeros 20 d0 x0 in
      let ds := str_of_Z d in
      let n := Z.of_nat (String.length ds) in
      let point := n + x in
      let body :=
        if (-4 <? point) && (point <=? 16) then
          if point <=? 0 then "0." +:+ zeros (Z.to_nat (- point)) +:+ ds
          else if n <=? point then ds +:+ zeros (Z.to_nat (point - n)) +:+ ".0"
          else take_str (Z.to_nat point) ds +:+ "." +:+ drop_str (Z.to_nat point) ds
        else
          let ex := point - 1 in
          let mantissa := if n =? 1 then ds else take_str 1 ds +:+ "." +:+ drop_str 1 ds in
          let digits := str_of_Z (Z.abs ex) in
          mantissa +:+ "e" +:+ (if ex <? 0 then "-" else "+")
            +:+ (if Z.abs ex <? 10 then "0" +:+ digits else digits) in
      (if s then "-" else "") +:+ body
  end.

Definition dump_float (f : spec_float) : string :=
  match f with
  | S754_nan => "NaN"
  | S754_infinity s => if s then "-Infinity" else "Infinity"
  | _ => float_repr f
  end.

(** [json.dumps(v, sort_keys=sort, separators=(item, key))]. *)
Section Dumps.
Variables (sort : bool) (item_separator key_separator : string).

Fixpoint dumps_with (v : json) : string :=
  match v with
  | JNull => "null"
  | JBool b => if b then "true" else "false"
  | JInt z => str_of_Z z
  | JFloat f => dump_float f
  | JStr s => dump_str s
  | JArr l => "[" +:+ join item_separator (map dumps_with l) +:+ "]"
  | JObj m =>
      let members := map (fun p => (fst p, dumps_with (snd p))) m in
      "{" +:+ join item_separator
                (map (fun p => dump_str (fst p) +:+ key_separator +:+ snd p)
                   (if sort then sorted_items members else members)) +:+ "}"
  end.
End Dumps.

(** [json.dumps(v)], [json.dumps(v, sort_keys=True)] and
    [json.dumps(v, sort_keys=True, separators=(",", ":"))]. *)
Definition json_dumps_plain : json -> string := dumps_with false ", " ": ".
Definition json_dumps_sorted : json -> string := dumps_with true ", " ": ".
Definition json_dumps : json -> string := dumps_with true "," ":".
