(* ===== verification/Canonical.v ===== *)
(** * Strict admission and canonical digests ([contracts/canonical.py])

    [strict_loads] is [json.loads] with the module's four hooks, followed by
    the Unicode and complexity admission and the canonicalisation check.  The
    third-party [rfc8785.dumps] and [yaml.load] are the operations of the
    classes [Rfc8785] and [Yaml]; what the code relies on of the first is the
    class [Rfc8785Laws]. *)
From Stdlib Require Import SpecFloat Ascii String.
From S2P Require Import Prelude Sha256 Json JsonText.

Definition MAX_INTEROPERABLE_INTEGER : Z := 2 ^ 53 - 1.
Definition MAX_STRUCTURE_DEPTH : Z := 128.
Definition MAX_STRUCTURE_NODES : Z := 100000.

(** [rfc8785.dumps], raising [CanonicalizationError] outside its domain. *)
Class Rfc8785 : Type := { rfc8785_dumps : json -> res string }.

(** [yaml.load(text, Loader=_DuplicateAwareSafeLoader)]. *)
Class Yaml : Type := { yaml_load : string -> res json }.

(** ** The hooks of [json.loads] *)

Fixpoint reject_duplicates (result pairs : list (string * json)) : res (list (string * json)) :=
  match pairs with
  | [] => Ok result
  | (key, value) :: rest =>
      if has_key key result
      then Raise (CanonicalInputError "DUPLICATE_OBJECT_KEY" "duplicate object member")
      else reject_duplicates (assoc_set key value result) rest
  end.
Definition _reject_duplicate_pairs (pairs : list (string * json)) : res json :=
  result ← reject_duplicates [] pairs; Ok (JObj result).

Definition _reject_constant (_ : string) : res json :=
  Raise (CanonicalInputError "NON_JSON_NUMBER" "non-JSON numeric constant").

Definition is_finite (f : spec_float) : bool :=
  match f with S754_zero _ | S754_finite _ _ _ => true | _ => false end.

(** [exact == exact.to_integral_value() and abs(exact) > MAX_INTEROPERABLE_INTEGER]
    for the decimal [m * 10^e]. *)
Definition integral_beyond_max (m : N) (e : Z) : bool :=
  if 0 <=? e then MAX_INTEROPERABLE_INTEGER <? Z.of_N m * 10 ^ e
  else (Z.of_N m mod 10 ^ (- e) =? 0) && (MAX_INTEROPERABLE_INTEGER <? Z.of_N m / 10 ^ (- e)).

Definition _parse_float (token : string) : res json :=
  let value := float_of_token token in
  if negb (is_finite value)
  then Raise (CanonicalInputError "NON_JSON_NUMBER" "non-finite numeric value")
  else
    let '(_, m, e) := decimal_of_token token in
    if integral_beyond_max m e
    then Raise (CanonicalInputError "NON_JSON_NUMBER"
                  "integer-valued number exceeds the interoperable IEEE-754 range")
    else Ok (JFloat value).

Definition _parse_int (token : string) : res json :=
  value ← py_int token;
  if MAX_INTEROPERABLE_INTEGER <? Z.abs value
  then Raise (CanonicalInputError "NON_JSON_NUMBER"
                "integer exceeds the interoperable IEEE-754 range")
  else Ok (JInt value).

Definition strict_hooks : hooks := {|
  object_pairs_hook := _reject_duplicate_pairs;
  parse_int := _parse_int;
  parse_float := _parse_float;
  parse_constant := _reject_constant
|}.

(** ** Unicode and complexity admission *)

(** [value.encode("utf-16-le", "surrogatepass").decode("utf-16-le")]: paired
    surrogates become one code point, an unpaired one is an error. *)
Fixpoint normalize_surrogates (cps : list N) : option (list N) :=
  match cps with
  | [] => Some []
  | cp :: rest =>
      if is_high cp then
        match rest with
        | lo :: rest' =>
            if is_low lo
            then r ← normalize_surrogates rest'; Some (join_surrogates cp lo :: r)
            else None
        | [] => None
        end
      else if is_low cp then None
      else r ← normalize_surrogates rest; Some (cp :: r)
  end.

Definition is_noncharacter (cp : N) : bool :=
  ((64976 <=? cp)%N && (cp <=? 65007)%N)
  || (N.land cp 65535 =? 65534)%N || (N.land cp 65535 =? 65535)%N.

Definition admit_str (value : string) : res string :=
  match normalize_surrogates (ords value) with
  | None => Raise (CanonicalInputError "INVALID_UNICODE" "unpaired Unicode surrogate")
  | Some normalized =>
      if existsb is_noncharacter normalized
      then Raise (CanonicalInputError "INVALID_UNICODE" "Unicode noncharacter")
      else Ok (utf8_encode_all normalized)
  end.

(** [budget[0] += 1] and the complexity check at the head of every call. *)
Definition visit (depth nodes : Z) : res Z :=
  let nodes := nodes + 1 in
  if (MAX_STRUCTURE_DEPTH <? depth) || (MAX_STRUCTURE_NODES <? nodes)
  then Raise (CanonicalInputError "INPUT_COMPLEXITY_EXCEEDED"
                "contract structure exceeds the admitted complexity bound")
  else Ok nodes.

(** The shared node budget is threaded: the result carries its new value. *)
Fixpoint _admit_unicode (value : json) (depth nodes : Z) {struct value} : res (json * Z) :=
  nodes ← visit depth nodes;
  match value with
  | JStr s => normalized ← admit_str s; Ok (JStr normalized, nodes)
  | JObj members =>
      r ← (fix go (members normalized_object : list (string * json)) (nodes : Z) {struct members}
             : res (list (string * json) * Z) :=
             match members with
             | [] => Ok (normalized_object, nodes)
             | (key, child) :: rest =>
                 nodes ← visit (depth + 1) nodes;
                 normalized_key ← admit_str key;
                 if has_key normalized_key normalized_object
                 then Raise (CanonicalInputError "DUPLICATE_OBJECT_KEY"
                               "duplicate object member after Unicode normalization")
                 else
                   c ← _admit_unicode child (depth + 1) nodes;
                   go rest (assoc_set normalized_key (fst c) normalized_object) (snd c)
             end) members [] nodes;
      Ok (JObj (fst r), snd r)
  | JArr items =>
      r ← (fix go (items : list json) (nodes : Z) {struct items} : res (list json * Z) :=
             match items with
             | [] => Ok ([], nodes)
             | child :: rest =>
                 c ← _admit_unicode child (depth + 1) nodes;
                 cs ← go rest (snd c);
                 Ok (fst c :: fst cs, snd cs)
             end) items nodes;
      Ok (JArr (fst r), snd r)
  | _ => Ok (value, nodes)
  end.

Definition admit_root (value : json) : res json := r ← _admit_unicode value 0 0; Ok (fst r).

Section Canonical.
Context `{Rfc8785}.

(** Return RFC 8785 bytes. *)
Definition canonical_json_bytes (value : json) : res string := rfc8785_dumps value.

Definition canonical_digest (value : json) : res string :=
  bytes ← canonical_json_bytes value; Ok ("sha256:" +:+ sha256_hexdigest bytes).

Definition strict_parse `{Yaml} (text content_type : string) : res json :=
  if String.eqb content_type "application/json" then json_loads strict_hooks text
  else if str_in content_type ["application/yaml"; "application/x-yaml"]%string
  then yaml_load text
  else Raise (CanonicalInputError "CONTENT_TYPE_REJECTED" "unsupported contract content type").

Definition is_malformed (e : exn) : bool :=
  match e with JSONDecodeError _ | YAMLError _ | RecursionError => true | _ => false end.
Definition is_UnicodeDecodeError (e : exn) : bool :=
  match e with UnicodeDecodeError _ => true | _ => false end.
Definition is_CanonicalizationError (e : exn) : bool :=
  match e with CanonicalizationError _ => true | _ => false end.

(** Parse duplicate-aware JSON/YAML into the interoperable domain. *)
Definition strict_loads `{Yaml} (payload content_type : string) : res (list (string * json)) :=
  text ← try_except (decode_utf8 payload) is_UnicodeDecodeError
           (fun _ => Raise (CanonicalInputError "INVALID_UNICODE" "source must be UTF-8"));
  value ← try_except (strict_parse text content_type) is_malformed
            (fun _ => Raise (CanonicalInputError "MALFORMED_SOURCE" "malformed contract source"));
  value ← admit_root value;
  match value with
  | JObj members =>
      _ ← try_except (canonical_json_bytes value) is_CanonicalizationError
            (fun _ => Raise (CanonicalInputError "NON_JSON_NUMBER"
                               "source is outside the RFC 8785 interoperable domain"));
      Ok members
  | _ => Raise (CanonicalInputError "MALFORMED_SOURCE" "contract source must be an object")
  end.
End Canonical.
