(* ===== verification/JsonSpec.v ===== *)
(** * Canonical JSON text and its reading back

    What the canonical form of a value is ([jcanon]), what [json.loads] with
    given hooks makes of canonical text ([rebuild]), the contract of
    [rfc8785.dumps] that the code relies on ([Rfc8785Laws]) and a concrete
    serializer for values without fractional numbers, [jcs], which satisfies
    the contract and with which the examples are computed. *)
From Stdlib Require Import SpecFloat Ascii String.
From S2P Require Import Prelude Sha256 Json JsonText Canonical.

(** ** Canonical values *)

(** Object members are ordered by the UTF-16 code units of their names. *)
Definition utf16_units (s : string) : list N :=
  flat_map (fun cp => if (cp <? 65536)%N then [cp]
                      else let v := (cp - 65536)%N in
                           [N.lor 55296 (N.shiftr v 10); N.lor 56320 (N.land v 1023)]) (ords s).

Fixpoint units_leb (a b : list N) : bool :=
  match a, b with
  | [], _ => true
  | _, [] => false
  | x :: a', y :: b' => (x <? y)%N || ((x =? y)%N && units_leb a' b')
  end.

Section SortMembers.
Context {V : Type}.
Fixpoint insert_member (p : string * V) (m : list (string * V)) : list (string * V) :=
  match m with
  | [] => [p]
  | q :: m' => if units_leb (utf16_units (fst p)) (utf16_units (fst q)) then p :: m
               else q :: insert_member p m'
  end.
Definition sort_members (m : list (string * V)) : list (string * V) :=
  foldr insert_member [] m.
End SortMembers.

(** A float with an integral value inside the safe range is written as that
    integer, so it reads back as an [int]. *)
Definition integral_value (f : spec_float) : option Z :=
  match f with
  | S754_zero _ => Some 0
  | S754_finite s m e =>
      let z := if 0 <=? e then Some (Zpos m * 2 ^ e)
               else if Zpos m mod 2 ^ (- e) =? 0 then Some (Zpos m / 2 ^ (- e)) else None in
      z ← z; if z <=? MAX_INTEROPERABLE_INTEGER then Some (if s then - z else z) else None
  | _ => None
  end.

Fixpoint jcanon (v : json) : json :=
  match v with
  | JFloat f => match integral_value f with Some z => JInt z | None => v end
  | JArr l => JArr (map jcanon l)
  | JObj m => JObj (sort_members (map (fun p => (fst p, jcanon (snd p))) m))
  | _ => v
  end.

(** The JSON value itself: a number is its exact value ([1] and [1.0] are one
    number), the order of members does not count. *)
Fixpoint odd_part (m : positive) (e : Z) : positive * Z :=
  match m with xO m' => odd_part m' (e + 1) | _ => (m, e) end.

Definition norm_float (f : spec_float) : json :=
  match f with
  | S754_zero _ => JInt 0
  | S754_finite s m e =>
      let '(m', e') := odd_part m e in
      if 0 <=? e' then JInt ((if s then Zneg m' else Zpos m') * 2 ^ e') else JFloat (S754_finite s m' e')
  | _ => JFloat f
  end.

Fixpoint json_norm (v : json) : json :=
  match v with
  | JFloat f => norm_float f
  | JArr l => JArr (map json_norm l)
  | JObj m => JObj (sort_members (map (fun p => (fst p, json_norm (snd p))) m))
  | _ => v
  end.

(** What [json.loads] returns on the text of [v], its hooks called as it goes;
    [token] is the text of a float, which [json.loads] takes for an integer when
    it has neither a fraction nor an exponent. *)
Definition integer_text (token : string) : bool := string_forallb (fun c => is_digit c || Ascii.eqb c "-") token.

Section Rebuild.
Variable token : spec_float -> string.
Variable h : hooks.

Fixpoint rebuild (v : json) : res json :=
  match v with
  | JInt z => parse_int h (str_of_Z z)
  | JFloat f => if integer_text (token f) then parse_int h (token f) else parse_float h (token f)
  | JArr l => vs ← res_mapM rebuild l; Ok (JArr vs)
  | JObj m => ps ← res_mapM (fun p => r ← rebuild (snd p); Ok (fst p, r)) m;
              object_pairs_hook h ps
  | _ => Ok v
  end.
End Rebuild.

(** ** The contract of [rfc8785.dumps]

    RFC 8785: the output is the JSON text of the value with its members in
    canonical order and no white space; it is UTF-8 and every control character
    of a string is escaped; two values have the same text exactly when they are
    the same JSON value; a fractional number is written so that it reads back. *)
Definition no_line_break (c : ascii) : bool := negb (Ascii.eqb c (chr_n 10) || Ascii.eqb c (chr_n 13)).

Definition float_token `{Rfc8785} (f : spec_float) : string :=
  match rfc8785_dumps (JFloat f) with Ok token => token | Raise _ => "" end.

Definition fractional (f : spec_float) : bool :=
  match f with
  | S754_finite _ m e => (e <? 0) && negb (Zpos m mod 2 ^ (- e) =? 0)
  | _ => false
  end.

Class Rfc8785Laws `{Rfc8785} : Prop := {
  dumps_reads : forall v s h,
    rfc8785_dumps v = Ok s -> json_loads h s = rebuild float_token h (jcanon v);
  dumps_utf8 : forall v s, rfc8785_dumps v = Ok s -> decode_utf8 s = Ok s;
  dumps_one_line : forall v s, rfc8785_dumps v = Ok s -> string_forallb no_line_break s = true;
  dumps_canonical : forall v, rfc8785_dumps (jcanon v) = rfc8785_dumps v;
  dumps_norm : forall a b s,
    rfc8785_dumps a = Ok s -> rfc8785_dumps b = Ok s -> json_norm a = json_norm b;
  dumps_of_norm : forall a b s t,
    json_norm a = json_norm b -> rfc8785_dumps a = Ok s -> rfc8785_dumps b = Ok t -> s = t;
  dumps_float : forall f token,
    rfc8785_dumps (JFloat f) = Ok token -> fractional f = true ->
    integer_text token = false /\ float_of_token token = f /\
    (let '(_, m, e) := decimal_of_token token in integral_beyond_max m e = false)
}.

(** ** A serializer that satisfies the contract *)

Definition jcs_escape (c : ascii) : string :=
  if Ascii.eqb c "034" then String "\" (String "034" "")
  else if Ascii.eqb c "\" then String "\" (String "\" "")
  else if Ascii.eqb c (chr_n 8) then "\b"
  else if Ascii.eqb c (chr_n 9) then "\t"
  else if Ascii.eqb c (chr_n 10) then "\n"
  else if Ascii.eqb c (chr_n 12) then "\f"
  else if Ascii.eqb c (chr_n 13) then "\r"
  else if (byte_n c <? 32)%N then u_escape (byte_n c)
  else String c "".

Fixpoint jcs_chars (s : string) : string :=
  match s with
  | EmptyString => ""
  | String c s' => jcs_escape c +:+ jcs_chars s'
  end.
Definition jcs_string (s : string) : string := String "034" (jcs_chars s +:+ quote).

Fixpoint jcs_text (v : json) : string :=
  match v with
  | JNull => "null"
  | JBool b => if b then "true" else "false"
  | JInt z => str_of_Z z
  | JFloat _ => ""
  | JStr s => jcs_string s
  | JArr l => "[" +:+ join "," (map jcs_text l) +:+ "]"
  | JObj m => "{" +:+ join "," (map (fun p => jcs_string (fst p) +:+ ":" +:+ jcs_text (snd p)) m) +:+ "}"
  end.

(** Values without fractional numbers and with integers in the safe range. *)
Fixpoint jcs_domain (v : json) : bool :=
  match v with
  | JInt z => Z.abs z <=? MAX_INTEROPERABLE_INTEGER
  | JFloat f => false
  | JArr l => forallb jcs_domain l
  | JObj m => forallb (fun p => jcs_domain (snd p)) m
  | _ => true
  end.

Definition jcs_dumps (v : json) : res string :=
  let text := jcs_text (jcanon v) in
  if jcs_domain (jcanon v) && utf8_valid (String.length text) text then Ok text
  else Raise (CanonicalizationError "outside the serializer's domain").

#[export] Instance jcs : Rfc8785 := {| rfc8785_dumps := jcs_dumps |}.
#[export] Instance no_yaml : Yaml := {| yaml_load _ := Raise (YAMLError "not used") |}.
