(* ===== verification/JsonFacts.v ===== *)
(** * Reading canonical text back

    Lemmas on [json.loads] over the text of the reference serializer, up to the
    instance [jcs_laws] of the contract of [rfc8785.dumps], and the totality of
    the reader. *)
From Stdlib Require Import SpecFloat Ascii String.
From S2P Require Import Prelude Sha256 Json JsonText Canonical JsonSpec.

(** ** Decimal digits *)

Lemma digit_char_value (d : N) : (d < 10)%N -> (N_of_ascii (digit_char d) - 48 = d)%N.
Proof. intros H. unfold digit_char. rewrite N_ascii_embedding; lia. Qed.

Lemma digit_char_is_digit (d : N) : (d < 10)%N -> is_digit (digit_char d) = true.
Proof.
  intros H. unfold is_digit, in_range, digit_char, Ascii.leb, Ascii.compare.
  rewrite N_ascii_embedding by lia.
  change (N_of_ascii "0") with 48%N. change (N_of_ascii "9") with 57%N.
  destruct (N.compare_spec 48 (48 + d)); try lia; destruct (N.compare_spec (48 + d) 57); try lia; done.
Qed.

Lemma digit_char_zero (d : N) : (d < 10)%N -> digit_char d = "0"%char -> d = 0%N.
Proof.
  intros H E. apply (f_equal N_of_ascii) in E. unfold digit_char in E.
  rewrite N_ascii_embedding in E by lia. change (N_of_ascii "0") with 48%N in E. lia.
Qed.

Lemma N_of_digits_acc_app (a b : string) (x : N) :
  N_of_digits_acc (a +:+ b) x = N_of_digits_acc b (N_of_digits_acc a x).
Proof. revert x. induction a as [|c a IH]; simpl; auto. Qed.

(** The shape of a decimal numeral: digits, no leading zero. *)
Record numeral (ds : string) (n : N) : Prop := {
  numeral_digits : string_forallb is_digit ds = true;
  numeral_value : N_of_digits_acc ds 0 = n;
  numeral_head : exists c ds', ds = String c ds' /\ (c = "0"%char -> ds' = ""%string)
}.

Lemma numeral_snoc (ds : string) (n d : N) :
  numeral ds n -> n <> 0%N -> (d < 10)%N ->
  numeral (ds +:+ String (digit_char d) "") (10 * n + d).
Proof.
  intros [Hd Hv (c & ds' & -> & Hc)] Hn Hd10. split.
  - rewrite string_forallb_app, Hd. simpl. by rewrite digit_char_is_digit.
  - rewrite N_of_digits_acc_app, Hv. simpl N_of_digits_acc. by rewrite digit_char_value.
  - exists c, (ds' +:+ String (digit_char d) ""). split; [done|]. intros ->.
    rewrite Hc in Hv by done. simpl in Hv. lia.
Qed.

Lemma dec_digits_spec (f : nat) (n : N) (acc : string) :
  f <> O -> (n < 2 ^ N.of_nat f)%N ->
  exists ds, dec_digits f n acc = ds +:+ acc /\ numeral ds n /\ (String.length ds <= f)%nat.
Proof.
  revert n acc. induction f as [|f IH]; intros n acc Hf Hn; [done|].
  cbn [dec_digits]. destruct (N.ltb_spec n 10) as [Hlt|Hge].
  - rewrite N.mod_small by done. exists (String (digit_char n) ""). split; [done|].
    split; [|simpl; lia]. split.
    + simpl. by rewrite digit_char_is_digit.
    + simpl N_of_digits_acc. by rewrite digit_char_value.
    + exists (digit_char n), ""%string. done.
  - assert (Hq : (n / 10 < 2 ^ N.of_nat f)%N).
    { replace (N.of_nat (S f)) with (N.succ (N.of_nat f)) in Hn by lia.
      rewrite N.pow_succ_r' in Hn. apply N.Div0.div_lt_upper_bound. lia. }
    assert (Hm : (n mod 10 < 10)%N) by (apply N.mod_lt; lia).
    assert (Hq0 : (n / 10 <> 0)%N).
    { intros E. apply N.div_small_iff in E; lia. }
    destruct (IH (n / 10)%N (String (digit_char (n mod 10)) acc)) as (ds & E & Hds & Hlen).
    { intros ->. simpl in Hq. lia. }
    { done. }
    exists (ds +:+ String (digit_char (n mod 10)) ""). rewrite E, sapp_assoc. split; [done|].
    split; [|rewrite sapp_length; simpl; lia].
    pose proof (N.div_mod n 10 ltac:(lia)) as Hdm.
    replace n with (10 * (n / 10) + n mod 10)%N at 2 by lia.
    by apply numeral_snoc.
Qed.

Lemma str_of_N_spec (n : N) :
  numeral (str_of_N n) n /\ (String.length (str_of_N n) <= S (N.to_nat (N.log2 n)))%nat.
Proof.
  unfold str_of_N.
  destruct (dec_digits_spec (S (N.to_nat (N.log2 n))) n ""%string) as (ds & E & Hds & Hl).
  - done.
  - rewrite Nat2N.inj_succ, N2Nat.id. destruct n as [|p]; [done|]. apply N.log2_spec. lia.
  - rewrite E, sapp_nil_r. done.
Qed.

Lemma digits_not_signed (ds : string) (n : N) : numeral ds n -> int_of_token ds = Z.of_N n.
Proof.
  intros [Hd Hv (c & ds' & -> & _)]. simpl in Hd. bool_simp.
  assert (Z.of_N (N_of_digits (String c ds')) = Z.of_N n) as <- by (unfold N_of_digits; by rewrite Hv).
  destruct c as [[] [] [] [] [] [] [] []]; try done.
Qed.

Lemma int_of_str_of_Z (z : Z) : int_of_token (str_of_Z z) = z.
Proof.
  unfold str_of_Z. destruct (Z.ltb_spec z 0).
  - destruct (str_of_N_spec (Z.to_N (- z))) as [[_ Hv _] _]. simpl.
    unfold N_of_digits. rewrite Hv. lia.
  - destruct (str_of_N_spec (Z.to_N z)) as [Hn _]. rewrite (digits_not_signed _ _ Hn). lia.
Qed.

(** ** Scanning numbers *)

Definition delimited (rest : string) : bool :=
  match rest with EmptyString => true | String c _ => char_in ",]}" c || is_ws c end.

Lemma scan_digits_app (ds rest : string) :
  string_forallb is_digit ds = true ->
  match rest with String c _ => is_digit c = false | EmptyString => True end ->
  scan_digits (ds +:+ rest) = (ds, rest).
Proof.
  intros Hd Hr. induction ds as [|c ds IH]; simpl in *.
  - destruct rest as [|c r]; simpl; [done|]. by rewrite Hr.
  - bool_simp. rewrite H. by rewrite IH.
Qed.

Lemma char_in_elem (set : string) (c : ascii) : char_in set c = true -> c ∈ list_ascii_of_string set.
Proof.
  unfold char_in. rewrite existsb_exists. intros (x & Hx & E%Ascii.eqb_eq). subst x.
  by apply list_elem_of_In.
Qed.

Definition delimiters : list ascii := list_ascii_of_string ",]}" ++ [" "%char; chr_n 9; chr_n 10; chr_n 13].

Lemma delimited_cases (rest : string) :
  delimited rest = true -> rest = ""%string \/ exists c r, rest = String c r /\ c ∈ delimiters.
Proof.
  destruct rest as [|c r]; [auto|]. unfold delimited, is_ws. intros H. right. exists c, r. split; [done|].
  unfold delimiters. apply elem_of_app.
  apply orb_prop in H as [H%char_in_elem|H%char_in_elem]; [by left | by right].
Qed.

Ltac delim_cases H :=
  let c := fresh "c" in let r := fresh "r" in let Hc := fresh "Hc" in
  apply delimited_cases in H as [->|(c & r & -> & Hc)];
  [|cbn in Hc; repeat (apply elem_of_cons in Hc as [->|Hc]); [..|by apply elem_of_nil in Hc] ].

Lemma scan_frac_delim rest : delimited rest = true -> scan_frac rest = (""%string, rest).
Proof. intros H. delim_cases H; done. Qed.

Lemma scan_exp_delim rest : delimited rest = true -> scan_exp rest = (""%string, rest).
Proof. intros H. delim_cases H; done. Qed.

Lemma scan_numeral (ds : string) (n : N) (rest : string) :
  numeral ds n -> delimited rest = true ->
  (match ds +:+ rest with
   | String "0" t => Some ("0"%string, t)
   | String c _ => if in_range "1" "9" c then Some (scan_digits (ds +:+ rest)) else None
   | EmptyString => None
   end) = Some (ds, rest).
Proof.
  intros [Hd Hv (c & ds' & -> & Hz)] Hr.
  assert (Hscan : scan_digits (String c ds' +:+ rest) = (String c ds', rest)).
  { apply scan_digits_app; [done|]. delim_cases Hr; done. }
  simpl in Hd. bool_simp. rewrite Hscan.
  destruct c as [[] [] [] [] [] [] [] []]; try done.
  rewrite Hz by done. done.
Qed.

Definition numeric_head (c : ascii) : bool := is_digit c || Ascii.eqb c "-".

(** The shape of an integer's text. *)
Inductive int_text : string -> Prop :=
  | int_text_pos ds n : numeral ds n -> int_text ds
  | int_text_neg ds n : numeral ds n -> int_text (String "-" ds).

Lemma str_of_Z_text (z : Z) : int_text (str_of_Z z).
Proof. unfold str_of_Z. destruct (z <? 0); econstructor; apply str_of_N_spec. Qed.

Lemma scan_number_int (t rest : string) :
  int_text t -> delimited rest = true -> scan_number (t +:+ rest) = Some (t, false, rest).
Proof.
  intros Ht Hr. unfold scan_number. destruct Ht as [ds n Hn|ds n Hn].
  - pose proof (scan_numeral _ _ rest Hn Hr) as E.
    assert (Hs : match ds +:+ rest with String "-" t => ("-"%string, t) | _ => (""%string, ds +:+ rest) end
                 = (""%string, ds +:+ rest)).
    { destruct Hn as [Hd _ (c & ds' & -> & _)]. simpl in Hd. bool_simp.
      destruct c as [[] [] [] [] [] [] [] []]; done. }
    rewrite Hs, E. simpl.
    rewrite scan_frac_delim, scan_exp_delim by done. simpl. by rewrite !sapp_nil_r.
  - cbn [String.append]. rewrite (scan_numeral _ _ rest Hn Hr). simpl.
    rewrite scan_frac_delim, scan_exp_delim by done. simpl. by rewrite !sapp_nil_r.
Qed.

Lemma int_text_head (t : string) : int_text t -> exists c u, t = String c u /\ numeric_head c = true
  /\ (c = "-"%char -> exists d v, u = String d v /\ is_digit d = true).
Proof.
  unfold numeric_head. intros [ds n [Hd _ (c & ds' & -> & _)]|ds n [Hd _ (c & ds' & -> & _)]];
    simpl in Hd; bool_simp; eexists _, _; (split; [done|]).
  - rewrite H. split; [done|]. intros ->. done.
  - split; [done|]. eauto.
Qed.

Lemma str_of_Z_head (z : Z) : exists c t, str_of_Z z = String c t /\ numeric_head c = true
  /\ (c = "-"%char -> exists d u, t = String d u /\ is_digit d = true).
Proof. apply int_text_head, str_of_Z_text. Qed.

Lemma scan_int_text (h : hooks) (t rest : string) :
  int_text t -> delimited rest = true -> scan_scalar h (t +:+ rest) = (v ← parse_int h t; Ok (v, rest)).
Proof.
  intros Ht Hr. unfold scan_scalar.
  destruct (int_text_head t Ht) as (c & u & E & Hc & Hm).
  assert (scan_literal (t +:+ rest) = None) as ->.
  { rewrite E. destruct c as [[] [] [] [] [] [] [] []]; done. }
  assert (scan_constant (t +:+ rest) = None) as ->.
  { rewrite E. destruct c as [[] [] [] [] [] [] [] []]; try done.
    destruct Hm as (d & v & -> & Hd); [done|].
    destruct d as [[] [] [] [] [] [] [] []]; done. }
  by rewrite scan_number_int.
Qed.

Lemma scan_scalar_int (h : hooks) (z : Z) (rest : string) :
  delimited rest = true ->
  scan_scalar h (str_of_Z z +:+ rest) = (v ← parse_int h (str_of_Z z); Ok (v, rest)).
Proof. apply scan_int_text, str_of_Z_text. Qed.

(** ** Scanning strings *)

Lemma scan_string_escape (c : ascii) (t : string) :
  scan_string (jcs_escape c +:+ t)
  = match scan_string t with Some r => Some (String c (fst r), snd r) | None => None end.
Proof. destruct c as [[] [] [] [] [] [] [] []]; reflexivity. Qed.

Lemma scan_string_chars (s rest : string) :
  scan_string (jcs_chars s +:+ String "034" rest) = Some (s, rest).
Proof.
  induction s as [|c s IH]; [done|].
  simpl jcs_chars. by rewrite sapp_assoc, scan_string_escape, IH.
Qed.

Lemma scan_jcs_string (s rest : string) :
  exists t, jcs_string s +:+ rest = String "034" t /\ scan_string t = Some (s, rest).
Proof.
  unfold jcs_string, quote. exists (jcs_chars s +:+ String "034" rest). split.
  - simpl. by rewrite sapp_assoc.
  - apply scan_string_chars.
Qed.

(** ** Scanning the text of a value *)

Lemma skip_ws_head (c : ascii) (t : string) : is_ws c = false -> skip_ws (String c t) = String c t.
Proof. intros H. simpl. by rewrite H. Qed.

(** The first character of a value's text starts a value and closes nothing. *)
Definition value_head (c : ascii) : bool :=
  numeric_head c || char_in "nft[{" c || Ascii.eqb c "034".

Lemma value_head_facts (c : ascii) :
  value_head c = true -> is_ws c = false /\ c <> "]"%char /\ c <> "}"%char.
Proof. destruct c as [[] [] [] [] [] [] [] []]; done. Qed.

Lemma jcs_text_head (v : json) :
  jcs_domain v = true -> exists c t, jcs_text v = String c t /\ value_head c = true.
Proof.
  destruct v as [|b|z|f|s|l|m]; simpl; intros H.
  - by eexists _, _.
  - destruct b; by eexists _, _.
  - destruct (str_of_Z_head z) as (c & t & E & Hc & _). exists c, t.
    unfold value_head. by rewrite Hc.
  - done.
  - by eexists _, _.
  - by eexists _, _.
  - by eexists _, _.
Qed.

Lemma skip_ws_text (v : json) (rest : string) :
  jcs_domain v = true -> skip_ws (jcs_text v +:+ rest) = jcs_text v +:+ rest.
Proof.
  intros H. destruct (jcs_text_head v H) as (c & t & -> & Hc).
  apply value_head_facts in Hc as (Hc & _). simpl. by rewrite Hc.
Qed.

Lemma scan_value_scalar (h : hooks) (f : nat) (c : ascii) (t : string) :
  c <> "034"%char -> c <> "{"%char -> c <> "["%char ->
  scan_value h (S f) (String c t) = scan_scalar h (String c t).
Proof. destruct c as [[] [] [] [] [] [] [] []]; intros; simpl; done. Qed.

#[local] Arguments reverse : simpl never.

Section ScanRebuild.
Variable token : spec_float -> string.
Variable h : hooks.

Definition reads_back (v : json) : Prop :=
  forall f rest,
    (2 * String.length (jcs_text v) < f)%nat -> delimited rest = true ->
    scan_value h f (jcs_text v +:+ rest) = (r ← rebuild token h v; Ok (r, rest)).

Lemma concat_cons (sep x y : string) (l : list string) :
  String.concat sep (x :: y :: l) = x +:+ sep +:+ String.concat sep (y :: l).
Proof. done. Qed.

Lemma scan_elements_reads (l : list json) (v : json) (acc : list json) (f : nat) (rest : string) :
  Forall reads_back (v :: l) -> forallb jcs_domain (v :: l) = true ->
  (2 * String.length (join "," (map jcs_text (v :: l))) + 1 < f)%nat ->
  scan_elements h f (join "," (map jcs_text (v :: l)) +:+ String "]" rest) acc
  = (vs ← res_mapM (rebuild token h) (v :: l); Ok (JArr (reverse acc ++ vs), rest)).
Proof.
  revert v acc f rest. induction l as [|w l IH]; intros v acc f rest Hall Hdom Hf;
    destruct f as [|f]; try (simpl in Hf; lia).
  - apply Forall_cons in Hall as [Hv _]. cbn [map join String.concat] in *.
    cbn [scan_elements]. rewrite Hv by (try done; lia).
    cbn [res_mapM]. destruct (rebuild token h v) as [r|e]; cbn; [|done].
    by rewrite reverse_cons.
  - apply Forall_cons in Hall as [Hv Hall].
    cbn [forallb] in Hdom. apply andb_prop in Hdom as [Hdv Hdom].
    unfold join in *. cbn [map] in Hf |- *. rewrite concat_cons in Hf |- *.
    change (jcs_text w :: map jcs_text l) with (map jcs_text (w :: l)) in *.
    rewrite !sapp_length in Hf. cbn [String.length] in Hf.
    rewrite !sapp_assoc. cbn [scan_elements].
    rewrite Hv by (try done; lia).
    assert (Hcons : forall A B (g : A -> res B) x y,
      res_mapM g (x :: y) = (a ← g x; b ← res_mapM g y; Ok (a :: b))) by done.
    rewrite (Hcons _ _ _ v). clear Hcons.
    destruct (rebuild token h v) as [r|e]; cbn -[res_mapM scan_elements String.concat map]; [|done].
    assert (Hdw : jcs_domain w = true) by (simpl in Hdom; by apply andb_prop in Hdom as [? _]).
    assert (Hskip : skip_ws (String.concat "," (map jcs_text (w :: l)) +:+ String "]" rest)
                    = String.concat "," (map jcs_text (w :: l)) +:+ String "]" rest).
    { destruct (jcs_text_head w Hdw) as (c & t & E & Hc).
      apply value_head_facts in Hc as (Hc & _).
      cbn [map]. rewrite E. destruct (map jcs_text l); simpl; by rewrite Hc. }
    rewrite Hskip.
    rewrite IH by (try done; lia).
    destruct (res_mapM (rebuild token h) (w :: l)) as [vs|e]; cbn -[res_mapM]; [|done].
    by rewrite reverse_cons, <- app_assoc.
Qed.

Lemma scan_members_step (k : string) (t : string) f acc v rest :
  reads_back v -> jcs_domain v = true -> (2 * String.length (jcs_text v) < f)%nat ->
  delimited rest = true ->
  scan_members h (S f) (jcs_string k +:+ ":" +:+ jcs_text v +:+ rest) acc
  = (r ← rebuild token h v;
     match skip_ws rest with
     | String "}" s3 => x ← object_pairs_hook h (reverse ((k, r) :: acc)); Ok (x, s3)
     | String "," s3 => scan_members h f (skip_ws s3) ((k, r) :: acc)
     | _ => malformed "Expecting ',' delimiter"
     end).
Proof.
  intros Hv Hd Hf Hr.
  destruct (scan_jcs_string k (":" +:+ jcs_text v +:+ rest)) as (u & -> & Hs).
  cbn [scan_members]. rewrite Hs. cbn -[scan_value skip_ws scan_members].
  rewrite skip_ws_head by done. rewrite skip_ws_text by done. rewrite Hv by done.
  by destruct (rebuild token h v).
Qed.

Definition member_text (p : string * json) : string :=
  jcs_string (fst p) +:+ ":" +:+ jcs_text (snd p).
Definition rebuild_member (p : string * json) : res (string * json) :=
  r ← rebuild token h (snd p); Ok (fst p, r).

Lemma scan_members_reads (m : list (string * json)) p acc (f : nat) (rest : string) :
  Forall (fun p => reads_back (snd p)) (p :: m) ->
  forallb (fun p => jcs_domain (snd p)) (p :: m) = true ->
  (2 * String.length (join "," (map member_text (p :: m))) + 1 < f)%nat ->
  scan_members h f (join "," (map member_text (p :: m)) +:+ String "}" rest) acc
  = (ps ← res_mapM rebuild_member (p :: m);
     x ← object_pairs_hook h (reverse acc ++ ps); Ok (x, rest)).
Proof.
  revert p acc f rest. induction m as [|q m IH]; intros [k v] acc f rest Hall Hdom Hf;
    destruct f as [|f]; try (simpl in Hf; lia);
    apply Forall_cons in Hall as [Hv Hall];
    cbn [forallb snd] in Hdom; apply andb_prop in Hdom as [Hdv Hdom]; cbn [snd] in Hv.
  - cbn [map join String.concat] in *. unfold member_text in *. cbn [fst snd] in *.
    rewrite !sapp_length in Hf. rewrite !sapp_assoc.
    rewrite scan_members_step by (try done; simpl in Hf; lia).
    cbn [res_mapM]. unfold rebuild_member. cbn [fst snd].
    destruct (rebuild token h v) as [r|e]; cbn; [|done].
    rewrite reverse_cons. by destruct (object_pairs_hook h (reverse acc ++ [(k, r)])).
  - unfold join in *. cbn [map] in Hf |- *. rewrite concat_cons in Hf |- *.
    change (member_text q :: map member_text m) with (map member_text (q :: m)) in *.
    rewrite !sapp_length in Hf. cbn [String.length] in Hf.
    unfold member_text at 1 in Hf. rewrite !sapp_length in Hf. cbn [fst snd String.length] in Hf.
    rewrite !sapp_assoc. unfold member_text at 1. cbn [fst snd]. rewrite !sapp_assoc.
    rewrite scan_members_step by (try done; lia).
    assert (Hcons : forall A B (g : A -> res B) x y,
      res_mapM g (x :: y) = (a ← g x; b ← res_mapM g y; Ok (a :: b))) by done.
    rewrite (Hcons _ _ _ (k, v)). clear Hcons.
    change (rebuild_member (k, v)) with (r ← rebuild token h v; Ok (k, r)).
    destruct (rebuild token h v) as [r|e]; cbn -[res_mapM scan_members String.concat map]; [|done].
    assert (Hskip : skip_ws (String.concat "," (map member_text (q :: m)) +:+ String "}" rest)
                    = String.concat "," (map member_text (q :: m)) +:+ String "}" rest).
    { cbn [map]. unfold member_text at 1 3. unfold jcs_string.
      destruct (map member_text m); done. }
    rewrite Hskip, IH by (try done; lia).
    destruct (res_mapM rebuild_member (q :: m)) as [ps|e]; cbn -[res_mapM]; [|done].
    by rewrite reverse_cons, <- app_assoc.
Qed.

Theorem scan_text_reads (v : json) : jcs_domain v = true -> reads_back v.
Proof.
  induction v as [|b|z|f|s|l IH|m IH] using json_ind'; intros Hd fuel rest Hf Hr;
    (destruct fuel as [|fuel]; [lia|]).
  - by destruct rest.
  - destruct b; by destruct rest.
  - cbn [rebuild]. rewrite <- scan_scalar_int by done. cbn [jcs_text].
    destruct (str_of_Z_head z) as (c & t & E & Hc & _). rewrite E.
    cbn [String.append]. apply scan_value_scalar; intros ->; done.
  - done.
  - cbn [rebuild jcs_text]. destruct (scan_jcs_string s rest) as (t & -> & E).
    cbn [scan_value]. by rewrite E.
  - destruct l as [|v l]; [done|].
    cbn [jcs_text rebuild]. rewrite !sapp_assoc.
    assert (Hall : Forall reads_back (v :: l)).
    { cbn [jcs_domain] in Hd. rewrite forallb_forall in Hd. rewrite Forall_forall in IH |- *.
      intros x Hx. apply IH; [done|]. apply Hd. by apply list_elem_of_In. }
    cbn [jcs_text] in Hf. rewrite !sapp_length in Hf. cbn [String.length] in Hf.
    assert (Hdv : jcs_domain v = true) by (simpl in Hd; by apply andb_prop in Hd as [? _]).
    pose proof (scan_elements_reads l v [] fuel rest Hall Hd ltac:(lia)) as Hscan.
    destruct (jcs_text_head v Hdv) as (c & t & E & Hc).
    apply value_head_facts in Hc as (Hw & Hb & _).
    assert (exists u, join "," (map jcs_text (v :: l)) +:+ String "]" rest = String c u) as [u Hu].
    { unfold join. cbn [map]. rewrite E. destruct (map jcs_text l); simpl; eauto. }
    change ("[" +:+ ?x) with (String "[" x). change ("]" +:+ rest) with (String "]" rest).
    rewrite Hu in *. cbn [scan_value]. rewrite skip_ws_head by done.
    transitivity (scan_elements h fuel (String c u) []); [|rewrite Hscan; by destruct res_mapM].
    destruct c as [[] [] [] [] [] [] [] []]; done.
  - destruct m as [|p m]; [done|].
    cbn [jcs_text rebuild]. rewrite !sapp_assoc.
    change (fun p => jcs_string (fst p) +:+ ":" +:+ jcs_text (snd p)) with member_text.
    assert (Hall : Forall (fun p => reads_back (snd p)) (p :: m)).
    { cbn [jcs_domain] in Hd. rewrite forallb_forall in Hd. rewrite Forall_forall in IH |- *.
      intros x Hx. apply IH; [done|]. apply Hd. by apply list_elem_of_In. }
    cbn [jcs_text] in Hf. rewrite !sapp_length in Hf. cbn [String.length] in Hf.
    pose proof (scan_members_reads m p [] fuel rest Hall Hd
                  ltac:(unfold member_text; lia)) as Hscan.
    assert (exists u, join "," (map member_text (p :: m)) +:+ String "}" rest = String "034" u) as [u Hu].
    { unfold join. cbn [map]. unfold member_text at 1, jcs_string.
      destruct (map member_text m); simpl; eauto. }
    change ("{" +:+ ?x) with (String "{" x). change ("}" +:+ rest) with (String "}" rest).
    rewrite Hu in *. cbn [scan_value]. rewrite skip_ws_head by done.
    transitivity (scan_members h fuel (String "034" u) []); [done|].
    rewrite Hscan. unfold rebuild_member. cbn [fst snd].
    destruct (res_mapM _ (p :: m)); cbn; [|done].
    by destruct (object_pairs_hook h _).
Qed.
End ScanRebuild.

(** ** The reader terminates: its fuel is never exhausted *)

Abbreviation len := String.length.

Lemma skip_ws_len s : (len (skip_ws s) <= len s)%nat.
Proof. induction s as [|c s IH]; simpl; [done|]. destruct (is_ws c); simpl; lia. Qed.

Lemma drop_str_len n s : (len (drop_str n s) <= len s)%nat.
Proof. revert s. induction n as [|n IH]; intros [|c s]; simpl; try lia. specialize (IH s). lia. Qed.

Lemma scan_string_len_aux n : forall s a r,
  (len s <= n)%nat -> scan_string s = Some (a, r) -> (len r < len s)%nat.
Proof.
  induction n as [|n IH]; intros [|c s] a r Hn H; simpl in *; try done; try lia.
  assert (IH' : forall t a r, (len t <= n)%nat -> scan_string t = Some (a, r) -> (len r < len t)%nat) by auto.
  assert (Hopt : forall (o : option (string * string)) f,
    (r0 ← o; Some (f (fst r0), snd r0)) = Some (a, r) -> exists a0, o = Some (a0, r)).
  { intros [[x y]|] f; simpl; [|done]. intros [= _ <-]. eauto. }
  destruct (Ascii.eqb c "034"); [simplify_eq; lia|].
  destruct (Ascii.eqb c "\").
  - destruct s as [|e s2]; [done|]. simpl in Hn |- *.
    destruct (Ascii.eqb e "u").
    + destruct s2 as [|x1 [|x2 [|x3 [|x4 s6]]]]; try done. simpl in Hn |- *.
      destruct (hex4 x1 x2 x3 x4) as [cp|]; simpl in H; [|done].
      assert (Hsingle : (r0 ← scan_string s6; Some (utf8_encode cp +:+ fst r0, snd r0)) = Some (a, r) ->
                        (len r < len s6)%nat).
      { intros E. destruct (Hopt (scan_string s6) _ E) as [a0 E0]. eapply IH'; [|done]. lia. }
      destruct (is_high cp); [|apply Hsingle in H; lia].
      destruct s6 as [|y [|z [|z1 [|z2 [|z3 [|z4 s12]]]]]]; try (apply Hsingle in H; simpl in *; lia).
      destruct (Ascii.eqb y "\" && Ascii.eqb z "u"); [|apply Hsingle in H; simpl in *; lia].
      destruct (hex4 z1 z2 z3 z4) as [lo|]; simpl in H; [|done].
      destruct (is_low lo); [|apply Hsingle in H; simpl in *; lia].
      destruct (Hopt (scan_string s12) _ H) as [a0 E0]. simpl in *.
      eapply IH' in E0; lia.
    + destruct (simple_escape e) as [ch|]; simpl in H; [|done].
      destruct (Hopt (scan_string s2) _ H) as [a0 E0]. eapply IH' in E0; lia.
  - destruct (byte_n c <? 32)%N; [done|].
    destruct (Hopt (scan_string s) _ H) as [a0 E0]. eapply IH' in E0; lia.
Qed.

Lemma scan_string_len s a r : scan_string s = Some (a, r) -> (len r < len s)%nat.
Proof. by eapply scan_string_len_aux. Qed.

Lemma scan_digits_len s : (len (snd (scan_digits s)) <= len s)%nat /\
  (fst (scan_digits s) <> ""%string -> (len (snd (scan_digits s)) < len s)%nat).
Proof.
  induction s as [|c s [IH1 IH2]]; simpl; [done|].
  destruct (is_digit c); [|simpl; split; [lia|done]].
  destruct (scan_digits s) as [ds rest]; simpl in *. lia.
Qed.

Lemma scan_frac_len s : (len (snd (scan_frac s)) <= len s)%nat.
Proof.
  destruct s as [|c s]; [done|].
  destruct c as [[] [] [] [] [] [] [] []]; simpl; try lia.
  pose proof (scan_digits_len s) as [H _]. destruct (scan_digits s) as [[|] rest]; simpl in *; lia.
Qed.

Lemma scan_exp_len s : (len (snd (scan_exp s)) <= len s)%nat.
Proof.
  destruct s as [|c s]; [done|]. cbn [scan_exp]. destruct (char_in "eE" c); [|done].
  assert (Hs : forall sign t, (len t <= len s)%nat ->
    (len (snd (match scan_digits t with
               | (""%string, _) => (""%string, String c s)
               | (ds, rest) => (String c (sign +:+ ds), rest) end)) <= len (String c s))%nat).
  { intros sign t Ht. pose proof (scan_digits_len t) as [H _].
    destruct (scan_digits t) as [[|] rest]; simpl in *; lia. }
  destruct s as [|d t]; [done|]. destruct (char_in "+-" d); apply Hs; simpl; lia.
Qed.

Lemma scan_number_len s tok fr r : scan_number s = Some (tok, fr, r) -> (len r < len s)%nat.
Proof.
  unfold scan_number. set (p := match s with String "-" t => ("-"%string, t) | _ => (""%string, s) end).
  assert (Hp : (len (snd p) <= len s)%nat).
  { subst p. destruct s as [|c t]; [done|]. destruct c as [[] [] [] [] [] [] [] []]; simpl; lia. }
  destruct p as [sign s1]. simpl in Hp.
  set (w := match s1 with String "0" t => _ | String _ _ => _ | EmptyString => _ end).
  assert (Hw : forall x, w = Some x -> (len (snd x) < len s1)%nat).
  { intros x. subst w. destruct s1 as [|c t]; [done|].
    assert (Hd : (if in_range "1" "9" c then Some (scan_digits (String c t)) else None) = Some x ->
                 (len (snd x) < len (String c t))%nat).
    { destruct (in_range "1" "9" c) eqn:E; [|done]. intros [= <-].
      assert (Hdig : is_digit c = true) by (destruct c as [[] [] [] [] [] [] [] []]; done).
      apply (proj2 (scan_digits_len (String c t))). cbn [scan_digits]. rewrite Hdig.
      by destruct (scan_digits t). }
    destruct c as [[] [] [] [] [] [] [] []]; try exact Hd. intros [= <-]. simpl. lia. }
  destruct w as [x|]; simpl; [|done]. specialize (Hw x eq_refl).
  pose proof (scan_frac_len (snd x)) as Hf. destruct (scan_frac (snd x)) as [frac s2].
  pose proof (scan_exp_len s2) as He. destruct (scan_exp s2) as [ex s3]. simpl in *.
  intros [= _ _ <-]. lia.
Qed.

Lemma startswith_len s p : startswith s p = true -> (0 < len p)%nat ->
  (len (drop_str (len p) s) < len s)%nat.
Proof.
  intros H Hp. rewrite (startswith_split s p H) at 1 2.
  rewrite drop_str_app, sapp_length. lia.
Qed.

Lemma scan_literal_len s v r : scan_literal s = Some (v, r) -> (len r < len s)%nat.
Proof.
  unfold scan_literal. cbn -[startswith drop_str String.length].
  repeat match goal with |- context [startswith s ?p] => destruct (startswith s p) eqn:? end;
    intros H; simplify_eq;
    match goal with E : startswith s ?p = true |- _ =>
      exact (startswith_len s p E ltac:(simpl; lia)) end.
Qed.

Lemma scan_constant_len s v r : scan_constant s = Some (v, r) -> (len r < len s)%nat.
Proof.
  unfold scan_constant. cbn -[startswith drop_str String.length].
  repeat match goal with |- context [startswith s ?p] => destruct (startswith s p) eqn:? end;
    intros H; simplify_eq;
    match goal with E : startswith s ?p = true |- _ =>
      exact (startswith_len s p E ltac:(simpl; lia)) end.
Qed.

(** Hooks never raise the model's own [OutOfFuel]. *)
Definition hooks_return (h : hooks) : Prop :=
  (forall l, object_pairs_hook h l <> Raise OutOfFuel) /\
  (forall t, parse_int h t <> Raise OutOfFuel) /\
  (forall t, parse_float h t <> Raise OutOfFuel) /\
  (forall t, parse_constant h t <> Raise OutOfFuel).

(** A scan of [s] that neither runs out of fuel nor reads past [s]. *)
Definition progresses (s : string) (m : res (json * string)) : Prop :=
  m <> Raise OutOfFuel /\ forall v r, m = Ok (v, r) -> (len r < len s)%nat.

Lemma progresses_bind (s : string) (m : res json) (r : string) :
  m <> Raise OutOfFuel -> (len r < len s)%nat -> progresses s (v ← m; Ok (v, r)).
Proof. intros Hm Hr. destruct m; simpl; split; congruence. Qed.

Lemma progresses_malformed s why : progresses s (malformed why).
Proof. split; [done|]. intros v r [=]. Qed.

Lemma progresses_weaken s t m : (len t <= len s)%nat -> progresses t m -> progresses s m.
Proof. intros Hl [H1 H2]. split; [done|]. intros v r E. specialize (H2 v r E). lia. Qed.



Lemma scan_scalar_progresses h s : hooks_return h -> progresses s (scan_scalar h s).
Proof.
  intros (_ & Hi & Hf & Hc). unfold scan_scalar.
  destruct (scan_literal s) as [[v r]|] eqn:E1.
  { apply scan_literal_len in E1. split; [done|]. intros; simplify_eq. done. }
  destruct (scan_constant s) as [[t r]|] eqn:E2.
  { apply scan_constant_len in E2. by apply progresses_bind. }
  destruct (scan_number s) as [[[t fr] r]|] eqn:E3; [|apply progresses_malformed].
  apply scan_number_len in E3. apply progresses_bind; [|done]. by destruct fr.
Qed.

Lemma scan_progresses h : hooks_return h -> forall f,
  (forall s, (2 * len s < f)%nat -> progresses s (scan_value h f s)) /\
  (forall s acc, (2 * len s < f)%nat -> progresses s (scan_members h f s acc)) /\
  (forall s acc, (2 * len s + 1 < f)%nat -> progresses s (scan_elements h f s acc)).
Proof.
  intros Hh. induction f as [|f (IHv & IHm & IHe)]; [repeat split; lia|].
  split; [|split].
  - intros s Hs. destruct s as [|c s]; [by apply scan_scalar_progresses|].
    pose proof (scan_scalar_progresses h (String c s) Hh) as Hscalar.
    pose proof (skip_ws_len s) as Hws. simpl in Hs.
    destruct c as [[] [] [] [] [] [] [] []]; try exact Hscalar; cbn [scan_value].
    + (* object *)
      assert (Hm : progresses (String "{" s) (scan_members h f (skip_ws s) [])).
      { eapply progresses_weaken, IHm; simpl; lia. }
      destruct (skip_ws s) as [|d s2] eqn:E; [exact Hm|].
      destruct d as [[] [] [] [] [] [] [] []]; try exact Hm.
      apply progresses_bind; [apply Hh|]. simpl in *. lia.
    + (* array *)
      assert (He : progresses (String "[" s) (scan_elements h f (skip_ws s) [])).
      { eapply progresses_weaken, IHe; simpl; lia. }
      destruct (skip_ws s) as [|d s2] eqn:E; [exact He|].
      destruct d as [[] [] [] [] [] [] [] []]; try exact He.
      split; [done|]. intros v r [= _ <-]. simpl in *. lia.
    + (* string *)
      destruct (scan_string s) as [[str r]|] eqn:E; [|apply progresses_malformed].
      apply scan_string_len in E. split; [done|]. intros v r' [= _ <-]. simpl. lia.
  - intros s acc Hs. destruct s as [|c s]; [apply progresses_malformed|]. simpl in Hs.
    destruct c as [[] [] [] [] [] [] [] []]; try apply progresses_malformed; cbn [scan_members].
    destruct (scan_string s) as [[key rest]|] eqn:E; [|apply progresses_malformed].
    apply scan_string_len in E. pose proof (skip_ws_len rest) as Hr.
    destruct (skip_ws rest) as [|d s2]; [apply progresses_malformed|]. simpl in Hr.
    destruct d as [[] [] [] [] [] [] [] []]; try apply progresses_malformed.
    pose proof (skip_ws_len s2) as Hs2.
    destruct (IHv (skip_ws s2)) as [Hv1 Hv2]; [lia|].
    destruct (scan_value h f (skip_ws s2)) as [[v r]|e]; cbn [mbind res_bind fst snd].
    2: { split; [congruence|done]. }
    specialize (Hv2 v r eq_refl). pose proof (skip_ws_len r) as Hr'.
    destruct (skip_ws r) as [|x s3]; [apply progresses_malformed|]. simpl in Hr'.
    destruct x as [[] [] [] [] [] [] [] []]; try apply progresses_malformed.
    + apply progresses_bind; [apply Hh|]. simpl. lia.
    + pose proof (skip_ws_len s3). eapply progresses_weaken, IHm; simpl; lia.
  - intros s acc Hs. cbn [scan_elements].
    destruct (IHv s) as [Hv1 Hv2]; [lia|].
    destruct (scan_value h f s) as [[v r]|e]; cbn [mbind res_bind fst snd].
    2: { split; [congruence|done]. }
    specialize (Hv2 v r eq_refl). pose proof (skip_ws_len r) as Hr'.
    destruct (skip_ws r) as [|x s3]; [apply progresses_malformed|]. simpl in Hr'.
    destruct x as [[] [] [] [] [] [] [] []]; try apply progresses_malformed.
    + split; [done|]. intros v' r' [= _ <-]. lia.
    + pose proof (skip_ws_len s3). eapply progresses_weaken, IHe; simpl; lia.
Qed.

Lemma json_loads_terminates (h : hooks) (text : string) :
  hooks_return h -> json_loads h text <> Raise OutOfFuel.
Proof.
  intros Hh. unfold json_loads. pose proof (skip_ws_len text) as Hw.
  destruct (scan_progresses h Hh (S (2 * len text))) as (Hv & _).
  destruct (Hv (skip_ws text)) as [H1 _]; [lia|].
  destruct (scan_value _ _ _) as [[v r]|e]; cbn [mbind res_bind fst snd]; [|congruence].
  by destruct (skip_ws r).
Qed.
