(* ===== verification/JsonAscii.v ===== *)
(** * Reading back what [json.dumps] writes

    [json.dumps] escapes everything but printable ASCII; [json.loads] gives the
    same value with its members in the order of their names.  The texts that are
    read back are stated by [reads], which does not depend on the layout, so
    that the compact text and the indented one share the proof. *)
From Stdlib Require Import SpecFloat Ascii String.
From S2P Require Import Prelude Json JsonText JsonFacts.

(** ** Texts and numbers that survive *)

(** A text that UTF-8 can carry: the encoding of its code points, none of them a
    surrogate. *)
Definition scalar (cp : N) : bool := negb (is_surrogate cp) && (cp <? 1114112)%N.
Definition is_text (s : string) : bool :=
  forallb scalar (ords s) && String.eqb (utf8_encode_all (ords s)) s.

(** An integer that [int] converts from its digits. *)
Definition short_int (z : Z) : bool := is_ok (py_int (str_of_Z z)).

Fixpoint readable (v : json) : bool :=
  match v with
  | JInt z => short_int z
  | JFloat _ => false
  | JStr s => is_text s
  | JArr l => forallb readable l
  | JObj m => forallb (fun p => is_text (fst p) && readable (snd p)) m && bool_decide (NoDup (map fst m))
  | _ => true
  end.

(** The value with the members of every object sorted by name. *)
Fixpoint sort_json (v : json) : json :=
  match v with
  | JArr l => JArr (map sort_json l)
  | JObj m => JObj (sorted_items (map (fun p => (fst p, sort_json (snd p))) m))
  | _ => v
  end.

(** ** Escapes *)

Lemma hex_val_digit (n : N) : (n < 16)%N -> hex_val (hex_digit n) = Some n.
Proof.
  intros H.
  assert (E : forallb (fun k => bool_decide (hex_val (hex_digit (N.of_nat k)) = Some (N.of_nat k))) (seq 0 16) = true)
    by (vm_compute; done).
  rewrite forallb_forall in E. specialize (E (N.to_nat n)). rewrite N2Nat.id in E.
  apply bool_decide_eq_true in E; [done|]. apply in_seq. lia.
Qed.

Lemma land_15 (n : N) : N.land n 15 = (n mod 16)%N.
Proof. change 15%N with (N.ones 4). by rewrite N.land_ones. Qed.

Lemma hex4_digits (cp : N) :
  (cp < 65536)%N ->
  hex4 (hex_digit (N.land (N.shiftr cp 12) 15)) (hex_digit (N.land (N.shiftr cp 8) 15))
    (hex_digit (N.land (N.shiftr cp 4) 15)) (hex_digit (N.land cp 15)) = Some cp.
Proof.
  intros H. unfold hex4. rewrite !land_15, !N.shiftr_div_pow2.
  rewrite !hex_val_digit by (apply N.mod_lt; lia). simpl. f_equal.
  change (2 ^ 12)%N with 4096%N. change (2 ^ 8)%N with 256%N. change (2 ^ 4)%N with 16%N.
  zify. Z.to_euclidean_division_equations. lia.
Qed.

Lemma lor_small (base : N) (x : N) :
  forallb (fun k => (N.lor base (N.of_nat k) =? base + N.of_nat k)%N) (seq 0 1024) = true ->
  (x < 1024)%N -> N.lor base x = (base + x)%N.
Proof.
  rewrite forallb_forall. intros E H. specialize (E (N.to_nat x)). rewrite N2Nat.id in E.
  apply N.eqb_eq, E, in_seq. lia.
Qed.

Lemma land_1023 (n : N) : N.land n 1023 = (n mod 1024)%N.
Proof. change 1023%N with (N.ones 10). by rewrite N.land_ones. Qed.

Lemma scan_u_escape (cp : N) (t : string) :
  (cp < 65536)%N -> is_high cp = false ->
  scan_string (u_escape cp +:+ t) = (r ← scan_string t; Some (utf8_encode cp +:+ fst r, snd r)).
Proof.
  intros H Hh. unfold u_escape. cbn -[hex4 hex_digit N.land N.shiftr utf8_encode].
  rewrite hex4_digits by done. cbn -[utf8_encode scan_string]. by rewrite Hh.
Qed.

Lemma scan_surrogates (hi lo : N) (t : string) :
  (hi < 65536)%N -> (lo < 65536)%N -> is_high hi = true -> is_low lo = true ->
  scan_string ((u_escape hi +:+ u_escape lo) +:+ t)
  = (r ← scan_string t; Some (utf8_encode (join_surrogates hi lo) +:+ fst r, snd r)).
Proof.
  intros Hhi Hlo Hh Hl. rewrite sapp_assoc. unfold u_escape at 1.
  cbn -[hex4 hex_digit N.land N.shiftr utf8_encode u_escape].
  rewrite hex4_digits by done. cbn -[utf8_encode scan_string u_escape]. rewrite Hh.
  unfold u_escape. cbn -[hex4 hex_digit N.land N.shiftr utf8_encode scan_string].
  rewrite hex4_digits by done. cbn -[utf8_encode scan_string]. by rewrite Hl.
Qed.

Lemma scan_plain (cp : N) (t : string) :
  (32 <= cp <= 126)%N -> cp <> 34%N -> cp <> 92%N ->
  scan_string (String (chr_n cp) t) = (r ← scan_string t; Some (utf8_encode cp +:+ fst r, snd r)).
Proof.
  intros H Hq Hb.
  assert (Hn : N_of_ascii (chr_n cp) = cp) by (apply N_ascii_embedding; lia).
  assert (Hne : forall c, N_of_ascii c <> cp -> Ascii.eqb (chr_n cp) c = false).
  { intros c Hc. apply Ascii.eqb_neq. intros E. apply Hc. by rewrite <- E. }
  cbn [scan_string]. rewrite !Hne by (change (N_of_ascii "034") with 34%N; change (N_of_ascii "\") with 92%N; lia).
  unfold byte_n. rewrite Hn. destruct (N.ltb_spec cp 32); [lia|].
  unfold utf8_encode. destruct (N.ltb_spec cp 128); [|lia]. by destruct (scan_string t).
Qed.

Lemma surrogate_pair (cp : N) :
  (65536 <= cp < 1114112)%N ->
  let v := (cp - 65536)%N in
  let hi := N.lor 55296 (N.land (N.shiftr v 10) 1023) in
  let lo := N.lor 56320 (N.land v 1023) in
  (hi < 65536 /\ lo < 65536)%N /\ is_high hi = true /\ is_low lo = true /\ join_surrogates hi lo = cp.
Proof.
  intros H. cbv zeta. rewrite !land_1023, N.shiftr_div_pow2. change (2 ^ 10)%N with 1024%N.
  assert (forall x, (x mod 1024 < 1024)%N) by (intros; apply N.mod_lt; lia).
  rewrite !lor_small by (done || (vm_compute; done)).
  unfold is_high, is_low, join_surrogates. rewrite !andb_true_iff, !N.leb_le.
  split_and!; zify; Z.to_euclidean_division_equations; lia.
Qed.

Lemma scan_escape (cp : N) (t : string) :
  scalar cp = true ->
  scan_string (escape_ascii cp +:+ t) = (r ← scan_string t; Some (utf8_encode cp +:+ fst r, snd r)).
Proof.
  unfold scalar, is_surrogate. intros [Hs Hm%N.ltb_lt]%andb_prop.
  assert (Hhigh : is_high cp = false).
  { unfold is_high. apply negb_true_iff in Hs. apply andb_false_iff in Hs as [E|E]; apply andb_false_iff; [by left|].
    right. apply N.leb_gt in E. apply N.leb_gt. lia. }
  unfold escape_ascii.
  repeat match goal with
  | |- context [N.eqb cp ?k] => destruct (N.eqb_spec cp k) as [->|]; [simpl; by destruct (scan_string t)|]
  end.
  destruct (N.leb_spec 32 cp), (N.leb_spec cp 126); cbn [andb];
    try (apply scan_plain; lia);
    (destruct (N.ltb_spec cp 65536); [by apply scan_u_escape|]); [|lia|lia].
  destruct (surrogate_pair cp) as ([Hhi Hlo] & Hh & Hl & E); [lia|].
  rewrite scan_surrogates by done. by rewrite E.
Qed.

Lemma scan_escapes (cps : list N) (rest : string) :
  forallb scalar cps = true ->
  scan_string (foldr (fun cp acc => escape_ascii cp +:+ acc) quote cps +:+ rest)
  = Some (utf8_encode_all cps, rest).
Proof.
  induction cps as [|cp cps IH]; cbn [foldr forallb utf8_encode_all]; intros H; [done|].
  apply andb_prop in H as [Hc H].
  rewrite sapp_assoc, scan_escape, IH by done. done.
Qed.

Lemma scan_dump_str (s rest : string) :
  is_text s = true ->
  exists t, dump_str s +:+ rest = String "034" t /\ scan_string t = Some (s, rest).
Proof.
  intros [Hs E%String.eqb_eq]%andb_prop. unfold dump_str. rewrite sapp_assoc. eexists. split; [done|].
  rewrite scan_escapes by done. by rewrite E.
Qed.

#[local] Arguments reverse : simpl never.

(** ** Layout *)

Definition blank (w : string) : bool := string_forallb is_ws w.

Lemma skip_blank (w s : string) : blank w = true -> skip_ws (w +:+ s) = skip_ws s.
Proof.
  unfold blank. induction w as [|c w IH]; [done|]. simpl. intros [Hc H]%andb_prop. rewrite Hc. auto.
Qed.

Lemma delimited_blank (w s : string) : blank w = true -> delimited s = true -> delimited (w +:+ s) = true.
Proof.
  destruct w as [|c w]; [done|]. unfold blank. simpl. intros [Hc _]%andb_prop _. rewrite Hc. apply orb_true_r.
Qed.

(** The text [t] of a value [v], in front of anything that ends a value. *)
Definition reads (t : string) (v : json) : Prop :=
  (exists c t', t = String c t' /\ value_head c = true) /\
  forall f rest, (2 * String.length t < f)%nat -> delimited rest = true ->
    scan_value default_hooks f (t +:+ rest) = Ok (v, rest).

Lemma skip_reads t v rest : reads t v -> skip_ws (t +:+ rest) = t +:+ rest.
Proof. intros [(c & t' & -> & Hc) _]. apply value_head_facts in Hc as (Hc & _). simpl. by rewrite Hc. Qed.

Section Containers.
(** The blanks after a comma, before a closing bracket, and after a colon. *)
Variables w w' w'' : string.
Hypothesis Hw : blank w = true.
Hypothesis Hw' : blank w' = true.
Hypothesis Hw'' : blank w'' = true.

Lemma closing_delimited (c : ascii) (rest : string) :
  (c = "]" \/ c = "}")%char -> delimited (w' +:+ String c rest) = true.
Proof. intros Hc. apply delimited_blank; [done|]. by destruct Hc as [->| ->]. Qed.

Definition body_text (ts : list string) : string := join ("," +:+ w) ts.

Lemma body_cons t t' ts : body_text (t :: t' :: ts) = t +:+ "," +:+ w +:+ body_text (t' :: ts).
Proof. unfold body_text, join. cbn [String.concat]. by rewrite !sapp_assoc. Qed.

Lemma body_head t ts : exists u, body_text (t :: ts) = t +:+ u.
Proof.
  destruct ts as [|t' ts]; [exists ""%string; by rewrite sapp_nil_r|].
  rewrite body_cons. eauto.
Qed.

Lemma scan_elements_texts ts vs t v acc f rest :
  Forall2 reads (t :: ts) (v :: vs) ->
  (2 * String.length (body_text (t :: ts)) + 1 < f)%nat ->
  scan_elements default_hooks f (body_text (t :: ts) +:+ w' +:+ String "]" rest) acc
  = Ok (JArr (reverse acc ++ v :: vs), rest).
Proof.
  revert vs t v acc f. induction ts as [|t' ts IH]; intros vs t v acc f Hall Hf;
    (destruct f as [|f]; [lia|]);
    apply Forall2_cons in Hall as [Ht Hall]; cbn [scan_elements].
  - apply Forall2_nil_inv_l in Hall as ->. unfold body_text, join in *. cbn [String.concat] in *.
    destruct Ht as [_ Ht]. rewrite Ht by (auto using closing_delimited; lia). simpl.
    rewrite skip_blank by done. simpl. by rewrite reverse_cons.
  - destruct vs as [|v' vs]; [by apply Forall2_nil_inv_r in Hall|].
    rewrite body_cons in Hf |- *. rewrite !sapp_length in Hf. rewrite !sapp_assoc.
    destruct Ht as [_ Ht]. rewrite Ht by (done || (cbn [String.length] in Hf; lia)).
    cbn -[scan_elements body_text]. rewrite skip_blank by done.
    destruct (body_head t' ts) as (u & Eu). pose proof Hall as Hall'.
    apply Forall2_cons in Hall' as [Ht' _].
    assert (Hskip : skip_ws (body_text (t' :: ts) +:+ w' +:+ String "]" rest)
                    = body_text (t' :: ts) +:+ w' +:+ String "]" rest).
    { rewrite Eu, sapp_assoc. by apply (skip_reads _ v'). }
    rewrite Hskip, (IH vs t' v') by (done || (cbn [String.length] in Hf; lia)). rewrite reverse_cons. by rewrite <- app_assoc.
Qed.

(** The text of a member: its name, a colon, its value. *)
Definition member_of (p : string * string) : string := dump_str (fst p) +:+ ":" +:+ w'' +:+ snd p.
Definition member_reads (t : string * string) (p : string * json) : Prop :=
  fst t = fst p /\ is_text (fst p) = true /\ reads (snd t) (snd p).

Lemma scan_member k t v f acc rest :
  is_text k = true -> reads t v -> (2 * String.length t < f)%nat -> delimited rest = true ->
  scan_members default_hooks (S f) (member_of (k, t) +:+ rest) acc
  = match skip_ws rest with
    | String "}" s3 => x ← object_pairs_hook default_hooks (reverse ((k, v) :: acc)); Ok (x, s3)
    | String "," s3 => scan_members default_hooks f (skip_ws s3) ((k, v) :: acc)
    | _ => malformed "Expecting ',' delimiter"
    end.
Proof.
  intros Hk Ht Hf Hr. unfold member_of. cbn [fst snd]. rewrite !sapp_assoc.
  destruct (scan_dump_str k (":" +:+ w'' +:+ t +:+ rest) Hk) as (u & -> & Hs).
  cbn [scan_members]. rewrite Hs. cbn -[scan_value skip_ws scan_members object_pairs_hook].
  rewrite skip_ws_head by done. rewrite skip_blank by done. rewrite (skip_reads _ v) by done.
  destruct Ht as [_ Ht]. by rewrite Ht by done.
Qed.

Lemma scan_members_texts ts ps t p acc f rest :
  Forall2 member_reads (t :: ts) (p :: ps) ->
  (2 * String.length (body_text (map member_of (t :: ts))) + 1 < f)%nat ->
  scan_members default_hooks f (body_text (map member_of (t :: ts)) +:+ w' +:+ String "}" rest) acc
  = (x ← object_pairs_hook default_hooks (reverse acc ++ p :: ps); Ok (x, rest)).
Proof.
  revert ps t p acc f. induction ts as [|t' ts IH]; intros ps [k t] [k' v] acc f Hall Hf;
    (destruct f as [|f]; [lia|]);
    apply Forall2_cons in Hall as [(Hk & Htext & Ht) Hall]; cbn [fst snd] in *; subst k'.
  - apply Forall2_nil_inv_l in Hall as ->. unfold body_text, join in *. cbn [map String.concat] in *.
    rewrite (scan_member k t v)
      by (auto using closing_delimited; unfold member_of in Hf; cbn [fst snd] in Hf; rewrite !sapp_length in Hf; lia).
    rewrite skip_blank by done. cbn [skip_ws is_ws]. simpl. by rewrite reverse_cons.
  - destruct ps as [|p' ps]; [by apply Forall2_nil_inv_r in Hall|].
    cbn [map] in Hf |- *. rewrite body_cons in Hf |- *.
    change (member_of t' :: map member_of ts) with (map member_of (t' :: ts)) in *.
    rewrite !sapp_length in Hf. rewrite !sapp_assoc.
    rewrite (scan_member k t v)
      by (done || (unfold member_of in Hf; cbn [fst snd] in Hf; rewrite !sapp_length in Hf; lia)).
    cbn -[scan_members object_pairs_hook body_text map]. rewrite skip_blank by done.
    assert (Hskip : skip_ws (body_text (map member_of (t' :: ts)) +:+ w' +:+ String "}" rest)
                    = body_text (map member_of (t' :: ts)) +:+ w' +:+ String "}" rest).
    { destruct (body_head (member_of t') (map member_of ts)) as (u & Eu). cbn [map]. rewrite Eu. done. }
    rewrite Hskip, (IH ps t' p') by (done || (cbn [String.length] in Hf; lia)). rewrite reverse_cons. by rewrite <- app_assoc.
Qed.

Lemma dict_of_pairs {V} (m d : list (string * V)) :
  NoDup (map fst (d ++ m)) -> foldl (fun d p => assoc_set (fst p) (snd p) d) d m = d ++ m.
Proof.
  revert d. induction m as [|[k v] m IH]; intros d Hn; [by rewrite app_nil_r|].
  cbn [foldl fst snd]. rewrite assoc_set_new.
  - rewrite IH; rewrite <- app_assoc; done.
  - rewrite map_app in Hn. apply NoDup_app in Hn as (_ & Hd & _). intros Hk. apply (Hd k Hk). simpl. left.
Qed.

(** ** Containers *)

Lemma reads_array open_ ts vs :
  blank open_ = true -> Forall2 reads ts vs -> ts <> [] ->
  reads ("[" +:+ open_ +:+ body_text ts +:+ w' +:+ "]") (JArr vs).
Proof.
  intros Ho Hall Hne. split; [by eexists _, _|]. intros f rest Hf Hr.
  destruct ts as [|t ts]; [done|]. destruct vs as [|v vs]; [by apply Forall2_nil_inv_r in Hall|].
  rewrite !sapp_length in Hf. cbn [String.length] in Hf. destruct f as [|f]; [lia|]. rewrite !sapp_assoc.
  change ("[" +:+ ?x) with (String "[" x). change ("]" +:+ rest) with (String "]" rest).
  cbn [scan_value]. rewrite skip_blank by done.
  pose proof (scan_elements_texts ts vs t v [] f rest Hall ltac:(lia)) as Hscan.
  pose proof Hall as Hall'. apply Forall2_cons in Hall' as [Ht _].
  destruct (body_head t ts) as (u & Eu).
  assert (Hskip : skip_ws (body_text (t :: ts) +:+ w' +:+ String "]" rest)
                  = body_text (t :: ts) +:+ w' +:+ String "]" rest).
  { rewrite Eu, sapp_assoc. by apply (skip_reads _ v). }
  rewrite Hskip. destruct Ht as [(c & t' & -> & Hc) _]. apply value_head_facts in Hc as (_ & Hc & _).
  rewrite Eu in *. cbn [String.append] in *.
  transitivity (scan_elements default_hooks f (String c ((t' +:+ u) +:+ w' +:+ String "]" rest)) []); [|done].
  destruct c as [[] [] [] [] [] [] [] []]; done.
Qed.

(** What follows an object does not matter. *)
Lemma scan_object open_ ts ps f rest :
  blank open_ = true -> Forall2 member_reads ts ps -> NoDup (map fst ps) -> ts <> [] ->
  (2 * String.length ("{" +:+ open_ +:+ body_text (map member_of ts) +:+ w' +:+ "}") < f)%nat ->
  scan_value default_hooks f (("{" +:+ open_ +:+ body_text (map member_of ts) +:+ w' +:+ "}") +:+ rest) = Ok (JObj ps, rest).
Proof.
  intros Ho Hall Hn Hne Hf.
  destruct ts as [|t ts]; [done|]. destruct ps as [|p ps]; [by apply Forall2_nil_inv_r in Hall|].
  rewrite !sapp_length in Hf. cbn [String.length] in Hf. destruct f as [|f]; [lia|]. rewrite !sapp_assoc.
  change ("{" +:+ ?x) with (String "{" x). change ("}" +:+ rest) with (String "}" rest).
  cbn [scan_value]. rewrite skip_blank by done.
  pose proof (scan_members_texts ts ps t p [] f rest Hall ltac:(lia)) as Hscan.
  assert (exists u, body_text (map member_of (t :: ts)) +:+ w' +:+ String "}" rest = String "034" u) as (u & Eu).
  { destruct (body_head (member_of t) (map member_of ts)) as (u & Eu). cbn [map]. rewrite Eu.
    unfold member_of, dump_str. eexists. done. }
  rewrite Eu in *. rewrite skip_ws_head by done.
  transitivity (scan_members default_hooks f (String "034" u) []); [done|]. rewrite Hscan.
  change (object_pairs_hook default_hooks (reverse [] ++ p :: ps))
    with (Ok (JObj (foldl (fun d p => assoc_set (fst p) (snd p) d) [] (p :: ps)))).
  by rewrite dict_of_pairs.
Qed.

Lemma reads_object open_ ts ps :
  blank open_ = true -> Forall2 member_reads ts ps -> NoDup (map fst ps) -> ts <> [] ->
  reads ("{" +:+ open_ +:+ body_text (map member_of ts) +:+ w' +:+ "}") (JObj ps).
Proof. intros. split; [by eexists _, _|]. intros f rest Hf _. by apply scan_object. Qed.
End Containers.

(** ** The compact text *)

Lemma reads_scalar (t : string) (v : json) :
  (exists c t', t = String c t' /\ value_head c = true) ->
  (forall c t', t = String c t' -> c <> "034"%char /\ c <> "{"%char /\ c <> "["%char) ->
  (forall rest, delimited rest = true -> scan_scalar default_hooks (t +:+ rest) = Ok (v, rest)) ->
  reads t v.
Proof.
  intros Hh Hc Hs. split; [done|]. intros f rest Hf Hr. destruct f as [|f]; [lia|].
  destruct Hh as (c & t' & -> & _). destruct (Hc c t') as (? & ? & ?); [done|].
  rewrite <- Hs by done. cbn [String.append]. by apply scan_value_scalar.
Qed.

Lemma reads_null : reads "null" JNull.
Proof.
  apply reads_scalar; [by eexists _, _| |by intros [|]].
  intros c t' [= <- <-]. done.
Qed.
Lemma reads_bool (b : bool) : reads (if b then "true" else "false") (JBool b).
Proof.
  apply reads_scalar; [destruct b; by eexists _, _| |destruct b; by intros [|]].
  intros c t' E. destruct b; injection E as <- <-; done.
Qed.
Lemma reads_int (z : Z) : short_int z = true -> reads (str_of_Z z) (JInt z).
Proof.
  intros Hz. destruct (str_of_Z_head z) as (c & t & E & Hc & _). apply reads_scalar.
  - exists c, t. split; [done|]. unfold value_head. by rewrite Hc.
  - intros c' t' E'. rewrite E in E'. injection E' as <- <-. split_and!; intros ->; done.
  - intros rest Hr. rewrite scan_scalar_int by done. cbn [parse_int default_hooks].
    unfold short_int in Hz. unfold py_int in *.
    destruct (4300 <? _); [done|]. simpl. by rewrite int_of_str_of_Z.
Qed.
Lemma reads_str (s : string) : is_text s = true -> reads (dump_str s) (JStr s).
Proof.
  intros Hs. split; [by eexists _, _|]. intros f rest Hf Hr. destruct f as [|f]; [lia|].
  destruct (scan_dump_str s rest Hs) as (t & -> & E). cbn [scan_value]. by rewrite E.
Qed.

Lemma sorted_items_nil {V} (m : list (string * V)) : sorted_items m = [] -> m = [].
Proof. intros E. apply Permutation_nil. rewrite <- E. by rewrite sorted_items_perm. Qed.

(** The members of an object, each printed by [f] and read as [g] says. *)
Lemma sorted_members_read (f : json -> string) (g : json -> json) (m : list (string * json)) :
  Forall (fun p => readable (snd p) = true -> reads (f (snd p)) (g (snd p))) m ->
  forallb (fun p => is_text (fst p) && readable (snd p)) m = true ->
  Forall2 member_reads (sorted_items (map (fun p => (fst p, f (snd p))) m))
    (sorted_items (map (fun p => (fst p, g (snd p))) m)).
Proof.
  intros IH Hr. induction m as [|[k v] m IHm]; [constructor|].
  apply Forall_cons in IH as [Hv IH]. cbn [forallb fst snd] in *. bool_simp.
  unfold sorted_items in *. cbn [map foldr fst snd].
  specialize (IHm IH ltac:(done)).
  assert (Hm : member_reads (k, f v) (k, g v)) by (split_and!; auto).
  revert IHm Hm. generalize (k, f v), (k, g v). intros a b.
  generalize (foldr insert_item [] (map (fun p => (p.1, f p.2)) m)), (foldr insert_item [] (map (fun p => (p.1, g p.2)) m)).
  intros ts ps Hall Hm. induction Hall as [|t p ts ps Ht Hall IHall]; cbn [insert_item].
  { apply List.Forall2_cons; [done|apply List.Forall2_nil]. }
  destruct Ht as (E & Ht), Hm as (E' & Hm). rewrite E, E'.
  destruct (str_leb (fst b) (fst p)); repeat (apply List.Forall2_cons); done.
Qed.

Lemma sorted_keys {V} (m : list (string * V)) : NoDup (map fst m) -> NoDup (map fst (sorted_items m)).
Proof. intros H. by rewrite sorted_items_perm. Qed.

Lemma map_fst_map {A B} (f : A -> B) (m : list (string * A)) :
  map fst (map (fun p => (fst p, f (snd p))) m) = map fst m.
Proof. rewrite map_map. done. Qed.

Lemma reads_empty_object : reads "{}" (JObj []).
Proof. split; [by eexists _, _|]. intros [|f] rest Hf Hr; [lia|]. done. Qed.
Lemma reads_empty_array : reads "[]" (JArr []).
Proof. split; [by eexists _, _|]. intros [|f] rest Hf Hr; [lia|]. done. Qed.

Lemma elements_read (f : json -> string) (g : json -> json) (l : list json) :
  Forall (fun v => readable v = true -> reads (f v) (g v)) l -> forallb readable l = true ->
  Forall2 reads (map f l) (map g l).
Proof.
  induction 1 as [|v l Hv Hl IH]; cbn [forallb map]; intros Hr; [constructor|].
  bool_simp. constructor; auto.
Qed.

(** A value reads back from its text, whatever blanks follow commas and colons;
    an object does in front of any text. *)
Section Text.
Variables w w'' : string.
Hypothesis Hw : blank w = true.
Hypothesis Hw'' : blank w'' = true.
Abbreviation text := (dumps_with true ("," +:+ w) (":" +:+ w'')).

Lemma scan_object_text m :
  Forall (fun p => readable (snd p) = true -> reads (text (snd p)) (sort_json (snd p))) m -> readable (JObj m) = true ->
  forall f rest, (2 * String.length (text (JObj m)) < f)%nat ->
    scan_value default_hooks f (text (JObj m) +:+ rest) = Ok (sort_json (JObj m), rest).
Proof.
  intros IH [H Hn%bool_decide_eq_true]%andb_prop f rest. cbn [dumps_with sort_json].
  destruct m as [|p m]; [destruct f; [lia|done]|]. intros Hf.
  pose proof (sorted_members_read text sort_json (p :: m) IH H) as Hall.
  apply (scan_object w "" w'' Hw eq_refl Hw'' ""); [done|done| | |done].
  - apply sorted_keys. by rewrite map_fst_map.
  - intros E. by apply sorted_items_nil in E.
Qed.

Theorem dumps_reads (v : json) : readable v = true -> reads (text v) (sort_json v).
Proof.
  induction v as [|b|z|f|s|l IH|m IH] using json_ind'; cbn [readable]; intros H.
  - apply reads_null.
  - apply reads_bool.
  - by apply reads_int.
  - done.
  - by apply reads_str.
  - destruct l as [|v l]; [apply reads_empty_array|].
    by apply (reads_array w "" Hw eq_refl ""); [|apply elements_read|].
  - split; [by eexists _, _|]. intros f rest Hf _. by apply scan_object_text.
Qed.

Theorem object_reads m f rest : readable (JObj m) = true -> (2 * String.length (text (JObj m)) < f)%nat ->
  scan_value default_hooks f (text (JObj m) +:+ rest) = Ok (sort_json (JObj m), rest).
Proof. intros H. apply scan_object_text; [|done]. apply Forall_forall. intros p _. apply dumps_reads. Qed.
End Text.

Lemma reads_loads (t v : _) (w : string) : reads t v -> blank w = true -> json_loads default_hooks (t +:+ w) = Ok v.
Proof.
  intros Hr Hw. unfold json_loads. rewrite (skip_reads _ v) by done. destruct Hr as [_ Hr].
  rewrite Hr.
  - simpl. rewrite <- (sapp_nil_r w), skip_blank by done. done.
  - rewrite sapp_length. lia.
  - rewrite <- (sapp_nil_r w). by apply delimited_blank.
Qed.

Theorem loads_dumps (v : json) :
  readable v = true -> json_loads default_hooks (json_dumps v) = Ok (sort_json v).
Proof.
  intros Hv. rewrite <- (sapp_nil_r (json_dumps v)). by apply reads_loads; [apply (dumps_reads "" "")|].
Qed.
