(* ===== verification/CanonicalFacts.v ===== *)
(** * Admission of canonical text

    Canonical form is stable, the reference serializer satisfies the contract
    of [rfc8785.dumps], and [strict_loads] reads the canonical bytes of an
    admissible object back to that object. *)
From Stdlib Require Import SpecFloat Ascii String.
From S2P Require Import Prelude Sha256 Json JsonText Canonical JsonSpec JsonFacts.

(** Values that [strict_loads] admits unchanged: integers in the interoperable
    range, fractional floats that the serializer writes, distinct member names. *)
Fixpoint readable `{Rfc8785} (v : json) : bool :=
  match v with
  | JInt z => Z.abs z <=? MAX_INTEROPERABLE_INTEGER
  | JFloat f => fractional f && is_ok (rfc8785_dumps (JFloat f))
  | JArr l => forallb readable l
  | JObj m => forallb (fun p => readable (snd p)) m && bool_decide (NoDup (map fst m))
  | _ => true
  end.

Definition admissible `{Rfc8785} (v : json) : Prop :=
  readable (jcanon v) = true /\ admit_root (jcanon v) = Ok (jcanon v).

(** ** Canonical order *)

Lemma units_leb_total a b : units_leb a b = true \/ units_leb b a = true.
Proof.
  revert b. induction a as [|x a IH]; intros [|y b]; simpl; auto.
  destruct (N.ltb_spec x y), (N.ltb_spec y x), (N.eqb_spec x y), (N.eqb_spec y x);
    simpl; auto; try lia.
Qed.

Lemma units_leb_trans a b c : units_leb a b = true -> units_leb b c = true -> units_leb a c = true.
Proof.
  revert b c. induction a as [|x a IH]; intros [|y b] [|z c]; simpl; try done.
  destruct (N.ltb_spec x y), (N.ltb_spec y z), (N.ltb_spec x z),
    (N.eqb_spec x y), (N.eqb_spec y z), (N.eqb_spec x z); simpl; try done; try lia; eauto.
Qed.

Section Members.
Context {V W : Type}.

Definition member_leb (p q : string * V) : bool :=
  units_leb (utf16_units (fst p)) (utf16_units (fst q)).

Fixpoint members_sorted (m : list (string * V)) : Prop :=
  match m with
  | [] => True
  | p :: m' => Forall (fun q => member_leb p q = true) m' /\ members_sorted m'
  end.

Lemma insert_member_perm p (m : list (string * V)) : insert_member p m ≡ₚ p :: m.
Proof.
  induction m as [|q m IH]; simpl; [done|].
  destruct (units_leb _ _); [done|]. rewrite IH. by constructor.
Qed.

Lemma sort_members_perm (m : list (string * V)) : sort_members m ≡ₚ m.
Proof. induction m as [|p m IH]; simpl; [done|]. by rewrite insert_member_perm, IH. Qed.

Lemma insert_member_sorted p (m : list (string * V)) :
  members_sorted m -> members_sorted (insert_member p m).
Proof.
  induction m as [|q m IH]; simpl; [by repeat constructor|].
  intros [Hq Hm]. destruct (units_leb (utf16_units p.1) (utf16_units q.1)) eqn:E.
  - split; [|done]. constructor; [done|].
    eapply Forall_impl; [exact Hq|]. intros x Hx. by eapply units_leb_trans.
  - split; [|auto]. rewrite insert_member_perm. constructor; [|done].
    unfold member_leb. by destruct (units_leb_total (utf16_units p.1) (utf16_units q.1)); [congruence|].
Qed.

Lemma sort_members_sorted (m : list (string * V)) : members_sorted (sort_members m).
Proof. induction m; simpl; [done | by apply insert_member_sorted]. Qed.

Lemma sort_members_id (m : list (string * V)) : members_sorted m -> sort_members m = m.
Proof.
  induction m as [|p m IH]; simpl; [done|]. intros [Hp Hm]. rewrite IH by done.
  destruct m as [|q m]; [done|]. simpl. apply Forall_cons in Hp as [Hp _].
  unfold member_leb in Hp. by rewrite Hp.
Qed.

Lemma sort_members_map (f : V -> W) (m : list (string * V)) :
  sort_members (map (fun p => (fst p, f (snd p))) m)
  = map (fun p => (fst p, f (snd p))) (sort_members m).
Proof.
  induction m as [|p m IH]; simpl; [done|]. rewrite IH. generalize (sort_members m). intros s.
  induction s as [|q s IHs]; simpl; [done|]. destruct (units_leb _ _); simpl; [done|]. by rewrite IHs.
Qed.

Lemma sort_members_assoc k (m : list (string * V)) :
  NoDup (map fst m) -> assoc k (sort_members m) = assoc k m.
Proof.
  intros Hnd.
  assert (Hp : map fst (sort_members m) ≡ₚ map fst m).
  { apply Permutation_map, sort_members_perm. }
  destruct (assoc k m) as [v|] eqn:E.
  - apply assoc_NoDup; [by rewrite Hp|]. rewrite sort_members_perm. by apply assoc_In.
  - apply assoc_None. rewrite Hp. by apply assoc_None.
Qed.
End Members.

Lemma sort_members_idem {V} (m : list (string * V)) : sort_members (sort_members m) = sort_members m.
Proof. apply sort_members_id, sort_members_sorted. Qed.

Lemma jcanon_idem (v : json) : jcanon (jcanon v) = jcanon v.
Proof.
  induction v as [| | |f| |l IH|m IH] using json_ind'; try done.
  - simpl. destruct (integral_value f) eqn:E; simpl; [done|by rewrite E].
  - simpl. f_equal. rewrite map_map. apply map_ext_in. intros x Hx.
    rewrite Forall_forall in IH. apply IH. by apply list_elem_of_In.
  - simpl. f_equal. rewrite <- sort_members_map, map_map, sort_members_idem. f_equal.
    apply map_ext_in. intros [k x] Hx. simpl. f_equal.
    rewrite Forall_forall in IH. apply (IH (k, x)). by apply list_elem_of_In.
Qed.

Lemma fractional_not_integral f : fractional f = true -> integral_value f = None /\ is_finite f = true.
Proof.
  destruct f as [| | |s m e]; simpl; try done. intros H. bool_simp.
  apply Z.ltb_lt in H. destruct (Z.leb_spec 0 e); [lia|]. by rewrite H0.
Qed.

(** ** The reference serializer *)

Lemma numeral_one_line ds : string_forallb is_digit ds = true -> string_forallb no_line_break ds = true.
Proof.
  induction ds as [|c ds IH]; simpl; [done|]. intros H. bool_simp. rewrite IH, andb_true_r by done.
  destruct c as [[] [] [] [] [] [] [] []]; done.
Qed.

Lemma str_of_Z_one_line z : string_forallb no_line_break (str_of_Z z) = true.
Proof.
  unfold str_of_Z. destruct (z <? 0); simpl; apply numeral_one_line, str_of_N_spec.
Qed.

Lemma jcs_string_one_line s : string_forallb no_line_break (jcs_string s) = true.
Proof.
  unfold jcs_string, quote. simpl. rewrite string_forallb_app. apply andb_true_intro. split; [|done].
  induction s as [|c s IH]; [done|]. simpl jcs_chars. rewrite string_forallb_app, IH, andb_true_r.
  destruct c as [[] [] [] [] [] [] [] []]; reflexivity.
Qed.

Lemma join_one_line l :
  Forall (fun s => string_forallb no_line_break s = true) l ->
  string_forallb no_line_break (join "," l) = true.
Proof.
  unfold join. induction 1 as [|x l Hx Hl IH]; [done|].
  destruct l as [|y l]; [done|]. rewrite concat_cons, !string_forallb_app, Hx, IH. done.
Qed.

Lemma jcs_text_one_line v : string_forallb no_line_break (jcs_text v) = true.
Proof.
  induction v as [|b|z|f|s|l IH|m IH] using json_ind'; try done.
  - by destruct b.
  - apply str_of_Z_one_line.
  - apply jcs_string_one_line.
  - cbn [jcs_text]. rewrite !string_forallb_app, join_one_line; [done|].
    apply Forall_map. exact IH.
  - cbn [jcs_text]. rewrite !string_forallb_app, join_one_line; [done|].
    apply Forall_map. eapply Forall_impl; [exact IH|]. intros [k x] Hx. cbn [fst snd] in *.
    rewrite !string_forallb_app, jcs_string_one_line, Hx. done.
Qed.

(** ** Equal texts, equal values *)

Section View.
Variable token : spec_float -> string.

(** Hooks that keep every number as it is written. *)
Definition raw_hooks : hooks := {|
  object_pairs_hook ps := Ok (JObj ps);
  parse_int t := Ok (JInt (int_of_token t));
  parse_float t := Ok (JStr t);
  parse_constant t := Ok (JStr t)
|}.

Fixpoint view (v : json) : json :=
  match v with
  | JFloat f => if integer_text (token f) then JInt (int_of_token (token f)) else JStr (token f)
  | JArr l => JArr (map view l)
  | JObj m => JObj (map (fun p => (fst p, view (snd p))) m)
  | _ => v
  end.

Lemma res_mapM_total {A B} (f : A -> res B) (g : A -> B) l :
  Forall (fun x => f x = Ok (g x)) l -> res_mapM f l = Ok (map g l).
Proof. induction 1 as [|x l Hx Hl IH]; simpl; [done|]. by rewrite Hx; simpl; rewrite IH. Qed.

Lemma rebuild_view v : rebuild token raw_hooks v = Ok (view v).
Proof.
  induction v as [|b|z|f|s|l IH|m IH] using json_ind'; try done.
  - simpl. by rewrite int_of_str_of_Z.
  - simpl. by destruct (integer_text (token f)).
  - cbn [rebuild]. by rewrite (res_mapM_total _ view).
  - cbn [rebuild]. rewrite (res_mapM_total _ (fun p => (fst p, view (snd p)))); [done|].
    eapply Forall_impl; [exact IH|]. intros [k x] Hx. simpl in *. by rewrite Hx.
Qed.
End View.

Lemma odd_part_spec m : forall e m' e',
  odd_part m e = (m', e') -> e <= e' /\ Zpos m = Zpos m' * 2 ^ (e' - e) /\ Z.odd (Zpos m') = true.
Proof.
  induction m as [m IH|m IH|]; intros e m' e' Ho; simpl in Ho.
  - injection Ho as <- <-. rewrite Z.sub_diag. repeat split; lia.
  - apply IH in Ho as (Hle & Hm & Hodd). split; [lia|]. split; [|done].
    rewrite Pos2Z.inj_xO, Hm. replace (e' - e) with (Z.succ (e' - (e + 1))) by lia.
    rewrite Z.pow_succ_r by lia. lia.
  - injection Ho as <- <-. rewrite Z.sub_diag. repeat split; lia.
Qed.

(** An odd number is no multiple of a proper power of two. *)
Lemma odd_pow_divides n k j : 0 <= j -> Z.odd n = true -> (2 ^ k | n * 2 ^ j) -> k <= j.
Proof.
  intros Hj Hn [q Hq]. destruct (Z.le_gt_cases k j); [done|]. exfalso.
  replace k with (Z.succ (k - j - 1) + j) in Hq by lia.
  rewrite Z.pow_add_r, Z.pow_succ_r in Hq by lia.
  assert (Hc : n = 2 * (q * 2 ^ (k - j - 1))).
  { apply (Z.mul_reg_r _ _ (2 ^ j)); [apply Z.pow_nonzero; lia|]. lia. }
  rewrite Hc, Z.odd_mul in Hn. done.
Qed.

Lemma integral_norm f z : integral_value f = Some z -> norm_float f = JInt z.
Proof.
  destruct f as [s| | |s m e]; simpl; try done; [congruence|].
  destruct (odd_part m e) as [m' e'] eqn:Ho. apply odd_part_spec in Ho as (Hle & Hm & Hodd).
  intros Hz. assert (Hi : 0 <= e' /\ z = (if s then Zneg m' else Zpos m') * 2 ^ e').
  { destruct (Z.leb_spec 0 e) as [He|He]; [|destruct (Z.eqb_spec (Zpos m mod 2 ^ (- e)) 0) as [Hd|]]; simpl in Hz; try done;
      (destruct (_ <=? MAX_INTEROPERABLE_INTEGER); [|done]); injection Hz as <-.
    - split; [lia|]. rewrite Hm. assert (2 ^ e' = 2 ^ (e' - e) * 2 ^ e) as -> by (rewrite <- Z.pow_add_r by lia; f_equal; lia).
      destruct s; lia.
    - apply Z.mod_divide in Hd; [|apply Z.pow_nonzero; lia]. pose proof Hd as Hd'. rewrite Hm in Hd'.
      apply odd_pow_divides in Hd'; [|lia|done]. split; [lia|].
      replace (Zpos m / 2 ^ (- e)) with (Zpos m' * 2 ^ e'); [destruct s; lia|].
      apply Z.div_unique_exact; [apply Z.pow_nonzero; lia|]. rewrite Hm.
      replace (e' - e) with (- e + e') by lia. rewrite Z.pow_add_r by lia. lia. }
  destruct Hi as [Hp ->]. by destruct (Z.leb_spec 0 e'); [|lia].
Qed.

Lemma norm_jcanon v : json_norm (jcanon v) = json_norm v.
Proof.
  induction v as [| | |f| |l IH|m IH] using json_ind'; try done.
  - cbn [jcanon json_norm]. destruct (integral_value f) as [z|] eqn:E; [|done].
    by rewrite (integral_norm _ _ E).
  - cbn [jcanon json_norm]. f_equal. rewrite map_map. apply map_ext_in. intros x Hx.
    rewrite Forall_forall in IH. apply IH. by apply list_elem_of_In.
  - cbn [jcanon json_norm]. f_equal. rewrite <- sort_members_map, map_map, sort_members_idem. f_equal.
    apply map_ext_in. intros [k x] Hx. simpl. f_equal.
    rewrite Forall_forall in IH. apply (IH (k, x)). by apply list_elem_of_In.
Qed.

(** Without floats the two normal forms agree. *)
Lemma norm_domain v : jcs_domain v = true -> json_norm v = jcanon v.
Proof.
  induction v as [| | |f| |l IH|m IH] using json_ind'; intros Hd; try done.
  - cbn [jcanon json_norm]. f_equal. apply map_ext_in. intros x Hx.
    cbn [jcs_domain] in Hd. rewrite forallb_forall in Hd. rewrite Forall_forall in IH.
    apply IH; [by apply list_elem_of_In|auto].
  - cbn [jcanon json_norm]. do 2 f_equal. apply map_ext_in. intros [k x] Hx. cbn [fst snd]. f_equal.
    cbn [jcs_domain] in Hd. rewrite forallb_forall in Hd. rewrite Forall_forall in IH.
    apply (IH (k, x)); [by apply list_elem_of_In|apply (Hd _ Hx)].
Qed.

Lemma norm_of_domain v : jcs_domain (jcanon v) = true -> json_norm v = jcanon v.
Proof. intros Hd. by rewrite <- norm_jcanon, norm_domain, jcanon_idem. Qed.

Lemma view_domain token v : jcs_domain v = true -> view token v = v.
Proof.
  induction v as [| | |f| |l IH|m IH] using json_ind'; intros Hd; try done.
  - cbn [view]. f_equal. rewrite <- (map_id l) at 2. apply map_ext_in. intros x Hx.
    cbn [jcs_domain] in Hd. rewrite forallb_forall in Hd. rewrite Forall_forall in IH.
    apply IH; [by apply list_elem_of_In|auto].
  - cbn [view]. f_equal. rewrite <- (map_id m) at 2. apply map_ext_in. intros [k x] Hx. cbn [fst snd]. f_equal.
    cbn [jcs_domain] in Hd. rewrite forallb_forall in Hd. rewrite Forall_forall in IH.
    apply (IH (k, x)); [by apply list_elem_of_In|apply (Hd _ Hx)].
Qed.

#[export] Instance jcs_laws : Rfc8785Laws.
Proof.
  assert (Hinv : forall v s, jcs_dumps v = Ok s -> s = jcs_text (jcanon v) /\
            jcs_domain (jcanon v) = true /\ utf8_valid (String.length s) s = true).
  { intros v s. unfold jcs_dumps. destruct (_ && _) eqn:E; [|done]. intros [= <-]. by bool_simp. }
  assert (Hreads : forall v s h, jcs_dumps v = Ok s ->
            json_loads h s = rebuild float_token h (jcanon v)).
  { intros v s h (-> & Hd & _)%Hinv. unfold json_loads.
    assert (Hs : skip_ws (jcs_text (jcanon v)) = jcs_text (jcanon v)).
    { pose proof (skip_ws_text (jcanon v) "" Hd) as E. by rewrite sapp_nil_r in E. }
    rewrite Hs.
    pose proof (scan_text_reads float_token h (jcanon v) Hd
      (S (2 * String.length (jcs_text (jcanon v)))) ""%string ltac:(lia) eq_refl) as E.
    rewrite sapp_nil_r in E. rewrite E. by destruct (rebuild _ h (jcanon v)). }
  split.
  - exact Hreads.
  - intros v s (_ & _ & Hu)%Hinv. unfold decode_utf8. by rewrite Hu.
  - intros v s (-> & _)%Hinv. apply jcs_text_one_line.
  - intros v. simpl. unfold jcs_dumps. by rewrite jcanon_idem.
  - intros a b s Ha Hb. pose proof (Hreads a s raw_hooks Ha) as Ra. pose proof (Hreads b s raw_hooks Hb) as Rb.
    apply Hinv in Ha as (_ & Da & _), Hb as (_ & Db & _).
    rewrite rebuild_view in Ra, Rb. rewrite view_domain in Ra, Rb by done.
    rewrite !norm_of_domain by done. congruence.
  - intros a b s t Hn (-> & Da & _)%Hinv (-> & Db & _)%Hinv.
    rewrite !norm_of_domain in Hn by done. by rewrite Hn.
  - intros f token (_ & Hd & _)%Hinv Hf. apply fractional_not_integral in Hf as [Hf _].
    simpl in Hd. by rewrite Hf in Hd.
Qed.

(** ** Reading canonical bytes back *)

Lemma py_int_safe z : Z.abs z <= MAX_INTEROPERABLE_INTEGER -> py_int (str_of_Z z) = Ok z.
Proof.
  intros Hz. unfold py_int.
  assert (Hlen : forall n : N, (n <= 2 ^ 53)%N -> (String.length (str_of_N n) <= 54)%nat).
  { intros n Hn. destruct (str_of_N_spec n) as [_ H].
    assert (N.log2 n <= 53)%N; [|lia].
    apply N.log2_le_mono in Hn. by rewrite N.log2_pow2 in Hn by lia. }
  assert (Hd : (4300 <? Z.of_nat (String.length
            (match str_of_Z z with String "-" t => t | _ => str_of_Z z end))) = false).
  { apply Z.ltb_ge. unfold MAX_INTEROPERABLE_INTEGER in Hz.
    assert (Hl : (String.length (str_of_Z z) <= 55)%nat).
    { unfold str_of_Z. destruct (z <? 0); simpl.
      - specialize (Hlen (Z.to_N (- z))). lia.
      - specialize (Hlen (Z.to_N z)). lia. }
    destruct (str_of_Z z) as [|c t]; [done|]. simpl in Hl.
    destruct c as [[] [] [] [] [] [] [] []]; simpl; lia. }
  rewrite Hd. by rewrite int_of_str_of_Z.
Qed.

Lemma reject_duplicates_ok ps : forall acc,
  NoDup (map fst (acc ++ ps)) -> reject_duplicates acc ps = Ok (acc ++ ps).
Proof.
  induction ps as [|[k v] ps IH]; intros acc Hnd; simpl; [by rewrite app_nil_r|].
  rewrite map_app in Hnd. simpl in Hnd.
  assert (Hk : k ∉ map fst acc).
  { apply NoDup_app in Hnd as (_ & H & _). intros Hin. apply (H k Hin). set_solver. }
  apply has_key_false in Hk as ->.
  rewrite assoc_set_new.
  - rewrite IH, <- app_assoc; [done|]. by rewrite <- app_assoc, map_app.
  - apply NoDup_app in Hnd as (_ & H & _). intros Hin. apply (H k Hin). set_solver.
Qed.

Lemma res_mapM_id {A} (f : A -> res A) l : Forall (fun x => f x = Ok x) l -> res_mapM f l = Ok l.
Proof. induction 1 as [|x l Hx Hl IH]; simpl; [done|]. by rewrite Hx; simpl; rewrite IH. Qed.

Section Reading.
Context `{Rfc8785Laws} `{Yaml}.

Lemma rebuild_readable v : readable v = true -> rebuild float_token strict_hooks v = Ok v.
Proof.
  induction v as [|b|z|f|s|l IH|m IH] using json_ind'; intros Hr; try done.
  - simpl in Hr. apply Z.leb_le in Hr. cbn [rebuild strict_hooks parse_int].
    unfold _parse_int. rewrite py_int_safe by done. simpl.
    by destruct (Z.ltb_spec MAX_INTEROPERABLE_INTEGER (Z.abs z)); [lia|].
  - simpl in Hr. bool_simp. cbn [rebuild strict_hooks parse_float].
    unfold float_token. destruct (rfc8785_dumps (JFloat f)) as [tok|e] eqn:E; [|done].
    destruct (dumps_float f tok E H2) as (-> & Hv & Hi).
    unfold _parse_float. rewrite Hv.
    destruct (fractional_not_integral f H2) as [_ ->]. simpl.
    destruct (decimal_of_token tok) as [[sgn d] ex]. by rewrite Hi.
  - simpl in Hr. cbn [rebuild]. rewrite res_mapM_id; [done|].
    rewrite forallb_forall in Hr. rewrite Forall_forall in IH |- *.
    intros x Hx. apply IH; [done|]. apply Hr. by apply list_elem_of_In.
  - simpl in Hr. apply andb_prop in Hr as [Hr Hnd]. apply bool_decide_eq_true in Hnd.
    cbn [rebuild]. rewrite res_mapM_id.
    + simpl. unfold _reject_duplicate_pairs. by rewrite reject_duplicates_ok.
    + rewrite forallb_forall in Hr. rewrite Forall_forall in IH |- *.
      intros [k x] Hx. cbn [fst snd]. specialize (IH (k, x) Hx). cbn [snd] in IH.
      rewrite IH; [done|]. apply (Hr (k, x)). by apply list_elem_of_In.
Qed.

(** [strict_loads] inverts [canonical_json_bytes] on admissible objects. *)
Lemma strict_loads_canonical m s :
  rfc8785_dumps (JObj m) = Ok s -> admissible (JObj m) ->
  exists m', jcanon (JObj m) = JObj m' /\ strict_loads s "application/json" = Ok m'.
Proof.
  intros Hs [Hr Ha]. eexists. split; [done|].
  unfold strict_loads. rewrite (dumps_utf8 _ _ Hs). cbn [try_except mbind res_bind].
  unfold strict_parse. simpl (String.eqb _ _). cbv iota.
  rewrite (dumps_reads _ _ _ Hs), rebuild_readable by done. cbn [try_except mbind res_bind].
  rewrite Ha. cbn [mbind res_bind].
  pose proof (dumps_canonical (JObj m)) as Hc. rewrite Hs in Hc.
  unfold canonical_json_bytes. cbn [jcanon] in Hc |- *. by rewrite Hc.
Qed.
End Reading.
