(* ===== verification/CanonicalTheorems.v ===== *)
(** * Strict admission and canonical digests: theorems *)
From Stdlib Require Import SpecFloat Ascii String.
From S2P Require Import Prelude Sha256 Json JsonText Canonical JsonSpec JsonFacts CanonicalFacts.

(** ** What is admitted *)

(** The depth and the number of nodes of a value; a member name is a node. *)
Fixpoint json_depth (v : json) : Z :=
  match v with
  | JArr l => foldr (fun c d => Z.max (1 + json_depth c) d) 0 l
  | JObj m => foldr (fun p d => Z.max (1 + json_depth (snd p)) d) 0 m
  | _ => 0
  end.

Fixpoint json_nodes (v : json) : Z :=
  match v with
  | JArr l => 1 + foldr (fun c n => json_nodes c + n) 0 l
  | JObj m => 1 + foldr (fun p n => 1 + json_nodes (snd p) + n) 0 m
  | _ => 1
  end.

(** Member names are distinct at every level. *)
Fixpoint names_distinct (v : json) : bool :=
  match v with
  | JArr l => forallb names_distinct l
  | JObj m => bool_decide (NoDup (map fst m)) && forallb (fun p => names_distinct (snd p)) m
  | _ => true
  end.

Record bounded (v : json) (depth nodes nodes' : Z) : Prop := {
  bounded_depth : depth + json_depth v <= MAX_STRUCTURE_DEPTH;
  bounded_nodes : nodes' = nodes + json_nodes v /\ nodes' <= MAX_STRUCTURE_NODES;
  bounded_names : names_distinct v = true
}.

Lemma visit_Ok depth nodes n : visit depth nodes = Ok n ->
  n = nodes + 1 /\ n <= MAX_STRUCTURE_NODES /\ depth <= MAX_STRUCTURE_DEPTH.
Proof.
  unfold visit. destruct (_ || _) eqn:E; [done|]. intros [= <-].
  apply orb_false_elim in E as [E1%Z.ltb_ge E2%Z.ltb_ge]. done.
Qed.

Lemma admit_scalar v depth nodes v' nodes' :
  (n ← visit depth nodes; Ok (v, n)) = Ok (v', nodes') -> json_depth v = 0 -> json_nodes v = 1 ->
  names_distinct v = true -> bounded v' depth nodes nodes'.
Proof.
  intros Ha Hd Hn Hk. simp_res. simplify_eq. apply visit_Ok in E as (-> & ? & ?).
  split; [lia|lia|done].
Qed.

(** The two loops of [_admit_unicode]. *)
Definition admit_items (depth : Z) : list json -> Z -> res (list json * Z) :=
  fix go items nodes :=
    match items with
    | [] => Ok ([], nodes)
    | child :: rest =>
        c ← _admit_unicode child (depth + 1) nodes;
        cs ← go rest (snd c);
        Ok (fst c :: fst cs, snd cs)
    end.

Definition admit_members (depth : Z) :
    list (string * json) -> list (string * json) -> Z -> res (list (string * json) * Z) :=
  fix go members normalized_object nodes :=
    match members with
    | [] => Ok (normalized_object, nodes)
    | (key, child) :: rest =>
        nodes ← visit (depth + 1) nodes;
        normalized_key ← admit_str key;
        if has_key normalized_key normalized_object
        then Raise (CanonicalInputError "DUPLICATE_OBJECT_KEY"
                      "duplicate object member after Unicode normalization")
        else
          c ← _admit_unicode child (depth + 1) nodes;
          go rest (assoc_set normalized_key (fst c) normalized_object) (snd c)
    end.

Lemma admit_arr l depth nodes :
  _admit_unicode (JArr l) depth nodes
  = (nodes ← visit depth nodes; r ← admit_items depth l nodes; Ok (JArr (fst r), snd r)).
Proof. done. Qed.

Lemma admit_obj m depth nodes :
  _admit_unicode (JObj m) depth nodes
  = (nodes ← visit depth nodes; r ← admit_members depth m [] nodes; Ok (JObj (fst r), snd r)).
Proof. done. Qed.

Lemma foldr_add_base {A} (f : A -> Z) l z : foldr (fun x n => f x + n) z l = foldr (fun x n => f x + n) 0 l + z.
Proof. induction l as [|x l IH]; simpl; lia. Qed.

Lemma foldr_max_base {A} (f : A -> Z) l z :
  0 <= z -> foldr (fun x n => Z.max (f x) n) z l = Z.max (foldr (fun x n => Z.max (f x) n) 0 l) z.
Proof. intros Hz. induction l as [|x l IH]; simpl; lia. Qed.

Lemma json_depth_nonneg v : 0 <= json_depth v.
Proof. destruct v as [| | | | |l|m]; simpl; try lia; [induction l|induction m]; simpl; lia. Qed.

Lemma json_snoc k c acc :
  k ∉ map fst acc -> names_distinct c = true -> names_distinct (JObj acc) = true ->
  names_distinct (JObj (assoc_set k c acc)) = true /\
  json_nodes (JObj (assoc_set k c acc)) = json_nodes (JObj acc) + 1 + json_nodes c /\
  json_depth (JObj (assoc_set k c acc)) = Z.max (json_depth (JObj acc)) (1 + json_depth c).
Proof.
  intros Hk Hc Ha. rewrite assoc_set_new by done. cbn [names_distinct] in *.
  apply andb_prop in Ha as [Hn Ha]. apply bool_decide_eq_true in Hn. split_and!.
  - rewrite forallb_app, Ha. simpl. rewrite Hc, bool_decide_true; [done|].
    rewrite map_app. apply NoDup_app. split; [done|]. split; [set_solver|apply NoDup_singleton].
  - cbn [json_nodes]. rewrite foldr_app, (foldr_add_base (fun p : string * json => 1 + json_nodes (snd p))).
    simpl. lia.
  - cbn [json_depth]. rewrite foldr_app, (foldr_max_base (fun p : string * json => 1 + json_depth (snd p))); simpl.
    + pose proof (foldr_max_base (fun p : string * json => 1 + json_depth (snd p)) acc 0). lia.
    + pose proof (json_depth_nonneg c). lia.
Qed.

Definition bounded_at (depth : Z) (v : json) : Prop := forall nodes v' nodes',
  _admit_unicode v depth nodes = Ok (v', nodes') -> bounded v' depth nodes nodes'.

Lemma admit_items_bounded depth l : Forall (bounded_at (depth + 1)) l -> forall n r,
  depth <= MAX_STRUCTURE_DEPTH -> n <= MAX_STRUCTURE_NODES -> admit_items depth l n = Ok r ->
  depth + json_depth (JArr (fst r)) <= MAX_STRUCTURE_DEPTH /\
  snd r = n + (json_nodes (JArr (fst r)) - 1) /\ snd r <= MAX_STRUCTURE_NODES /\
  forallb names_distinct (fst r) = true.
Proof.
  induction 1 as [|v l Hv _ IHl]; intros n r Hd Hn Hr; simpl in Hr; simp_res; subst.
  - simpl. split_and!; [lia..|done].
  - destruct a as [c n1]. simpl in *. apply Hv in E as [Hcd [Hcn ?] Hck].
    apply IHl in E0 as (? & ? & ? & ?); [|lia..]. rewrite Hck. simpl in *. split_and!; [lia..|done].
Qed.

Lemma admit_members_bounded depth m : Forall (fun p => bounded_at (depth + 1) (snd p)) m -> forall n acc r,
  n <= MAX_STRUCTURE_NODES -> admit_members depth m acc n = Ok r ->
  depth + json_depth (JObj acc) <= MAX_STRUCTURE_DEPTH -> names_distinct (JObj acc) = true ->
  depth + json_depth (JObj (fst r)) <= MAX_STRUCTURE_DEPTH /\
  snd r - json_nodes (JObj (fst r)) = n - json_nodes (JObj acc) /\ snd r <= MAX_STRUCTURE_NODES /\
  names_distinct (JObj (fst r)) = true.
Proof.
  induction 1 as [|[k v] m Hv _ IHm]; intros n acc r Hn Hr Had Hak; simpl in Hr; simp_res; subst.
  - split_and!; simpl; [done|lia|done|done].
  - match goal with E : _admit_unicode _ _ _ = Ok ?p |- _ => destruct p as [c n1]; apply Hv in E as [Hcd [Hcn ?] Hck] end.
    match goal with E : visit _ _ = _ |- _ => apply visit_Ok in E as (-> & ? & ?) end.
    match goal with Hk : has_key ?k _ = false |- _ =>
      apply has_key_false in Hk; destruct (json_snoc k c acc Hk Hck Hak) as (Hs1 & Hs2 & Hs3) end.
    cbn [fst snd] in *. apply IHm in Hr as (? & ? & ? & ?); [|lia..|done]. split_and!; [lia..|done].
Qed.

Lemma admit_bounded v : forall depth, bounded_at depth v.
Proof.
  induction v as [|b|z|f|s|l IH|m IH] using json_ind'; intros depth nodes v' nodes' Ha;
    try (eapply admit_scalar; [exact Ha|done..]).
  - cbn [_admit_unicode] in Ha. simp_res. simplify_eq. apply visit_Ok in E as (-> & ? & ?).
    split; simpl; [lia|lia|done].
  - rewrite admit_arr in Ha. simp_res. simplify_eq. apply visit_Ok in E as (-> & ? & ?).
    apply admit_items_bounded in E0 as (? & ? & ? & ?); [| |done..].
    + split; [done|lia|done].
    + eapply Forall_impl; [exact IH|]. auto.
  - rewrite admit_obj in Ha. simp_res. simplify_eq. apply visit_Ok in E as (-> & ? & ?).
    apply admit_members_bounded in E0 as (? & ? & ? & ?); [| |done|simpl; lia|done].
    + split; [done|simpl in *; lia|done].
    + eapply Forall_impl; [exact IH|]. auto.
Qed.

Section Theorems.
Context `{Rfc8785Laws} `{Yaml}.

(** Whatever [strict_loads] returns, of either content type, is within the
    complexity bounds, names its members uniquely at every level, and has an
    RFC 8785 serialization and so a digest. *)
Theorem strict_loads_bounded payload content_type m :
  strict_loads payload content_type = Ok m ->
  json_depth (JObj m) <= 128 /\ json_nodes (JObj m) <= 100000 /\
  names_distinct (JObj m) = true /\ exists digest, canonical_digest (JObj m) = Ok digest.
Proof.
  unfold strict_loads. intros Hs. simp_res. destruct a1 as [| | | | | |m']; try discriminate.
  simp_res. subst m'. unfold admit_root in *. simp_res.
  match goal with r : (json * Z)%type |- _ => destruct r as [v n] end. cbn [fst] in *. subst v.
  match goal with E : _admit_unicode _ _ _ = _ |- _ => apply admit_bounded in E as [? [? ?] ?] end.
  match goal with E : try_except (canonical_json_bytes _) _ _ = Ok ?b |- _ =>
    apply try_except_Ok in E as [E|(e & _ & _ & E)]; [|discriminate] end.
  unfold MAX_STRUCTURE_DEPTH, MAX_STRUCTURE_NODES in *.
  split_and!; [lia|lia|done|]. eexists. unfold canonical_digest.
  match goal with E : canonical_json_bytes _ = _ |- _ => rewrite E end. done.
Qed.

(** C33. The canonical bytes of an admissible object load back as that object in
    canonical order, whose canonical bytes and digest are the same again. *)
Theorem strict_loads_inverts_canonical m bytes :
  canonical_json_bytes (JObj m) = Ok bytes -> admissible (JObj m) ->
  exists m', jcanon (JObj m) = JObj m' /\ strict_loads bytes "application/json" = Ok m' /\
             canonical_json_bytes (JObj m') = Ok bytes /\
             canonical_digest (JObj m') = canonical_digest (JObj m).
Proof.
  intros Hb Ha. destruct (strict_loads_canonical m bytes Hb Ha) as (m' & Hc & Hl).
  exists m'. unfold canonical_digest, canonical_json_bytes in *.
  by rewrite <- Hc, dumps_canonical, Hb.
Qed.
End Theorems.

Lemma reject_duplicate_pairs_total pairs :
  _reject_duplicate_pairs pairs
  = if bool_decide (NoDup (map fst pairs)) then Ok (JObj pairs)
    else Raise (CanonicalInputError "DUPLICATE_OBJECT_KEY" "duplicate object member").
Proof.
  unfold _reject_duplicate_pairs. case_bool_decide as Hn.
  - by rewrite reject_duplicates_ok.
  - assert (Hr : forall ps acc, NoDup (map fst acc) -> ~ NoDup (map fst (acc ++ ps)) ->
      reject_duplicates acc ps
      = Raise (CanonicalInputError "DUPLICATE_OBJECT_KEY" "duplicate object member")).
    { induction ps as [|[k v] ps IH]; intros acc Ha Hd; simpl; [by rewrite app_nil_r in Hd|].
      destruct (has_key k acc) eqn:Hk; [done|]. apply has_key_false in Hk.
      rewrite assoc_set_new by done. apply IH.
      - rewrite map_app. apply NoDup_app. split; [done|]. split; [set_solver|apply NoDup_singleton].
      - by rewrite <- app_assoc. }
    rewrite Hr; [done|constructor|done].
Qed.

(** A JSON object is built exactly when no member name repeats, and then it
      holds the parsed members in their order. *)
Theorem reject_duplicate_pairs_spec pairs :
  _reject_duplicate_pairs pairs
  = if bool_decide (NoDup (map fst pairs)) then Ok (JObj pairs)
    else Raise (CanonicalInputError "DUPLICATE_OBJECT_KEY" "duplicate object member").
Proof. apply reject_duplicate_pairs_total. Qed.

(** Parsing JSON text always returns: a value, or an exception the code
      names.  (The model's fuel, twice the length of the text, is enough.) *)
Theorem strict_parse_returns `{Yaml} text :
  strict_parse text "application/json" <> Raise OutOfFuel /\
  json_loads default_hooks text <> Raise OutOfFuel.
Proof.
  split; apply json_loads_terminates; split_and!; intros; cbn; try done.
  - rewrite reject_duplicate_pairs_total. by case_bool_decide.
  - unfold _parse_int, py_int. repeat (case_match; simpl; try done).
  - unfold _parse_float. repeat (case_match; simpl; try done).
  - unfold py_int. repeat (case_match; simpl; try done).
Qed.

(** The double 2^53. *)
Definition two53 : spec_float := S754_finite false 4503599627370496 1.
Definition rounded_source : string := "{" +:+ quote +:+ "a" +:+ quote +:+ ":9007199254740992.5}".
Definition rounded_text : string := "{" +:+ quote +:+ "a" +:+ quote +:+ ":9007199254740992}".

(** The range check of [_parse_float] is on the exact decimal and not on the
      double it rounds to: 9007199254740992.5 is admitted as 2^53, so a serializer
      that writes 2^53 by its digits, as RFC 8785 has it, gives canonical bytes
      that [strict_loads] refuses. *)
Theorem strict_loads_rounds_out_of_range `{Rfc8785} `{Yaml} :
  rfc8785_dumps (JObj [("a"%string, JFloat two53)]) = Ok rounded_text ->
  exists m, strict_loads rounded_source "application/json" = Ok m /\
    canonical_json_bytes (JObj m) = Ok rounded_text /\
    strict_loads rounded_text "application/json"
    = Raise (CanonicalInputError "NON_JSON_NUMBER" "integer exceeds the interoperable IEEE-754 range").
Proof.
  intros Hd. exists [("a"%string, JFloat two53)].
  assert (Hp : forall d : Rfc8785, strict_loads (H := d) rounded_source "application/json"
    = _ ← try_except (canonical_json_bytes (JObj [("a"%string, JFloat two53)])) is_CanonicalizationError
            (fun _ => Raise (CanonicalInputError "NON_JSON_NUMBER"
                               "source is outside the RFC 8785 interoperable domain"));
      Ok [("a"%string, JFloat two53)]) by (intros d; vm_compute; reflexivity).
  rewrite Hp. unfold canonical_json_bytes. rewrite Hd. split_and!; [done..|]. vm_compute. reflexivity.
Qed.

(** ** The theorems at concrete inputs *)

Section Demo.
Local Open Scope string_scope.

Definition demo_members : list (string * json) := [("b", JArr [JInt 1; JNull]); ("a", JStr "x")].
Definition demo_bytes : string :=
  match jcs_dumps (JObj demo_members) with Ok b => b | Raise _ => "" end.

Lemma strict_loads_bounded_witness :
  json_nodes (JObj [("a", JStr "x"); ("b", JArr [JInt 1; JNull])]) <= 100000.
Proof. apply (strict_loads_bounded demo_bytes "application/json"). vm_compute; reflexivity. Defined.

Lemma strict_loads_inverts_canonical_witness :
  exists m', jcanon (JObj demo_members) = JObj m' /\ strict_loads demo_bytes "application/json" = Ok m' /\
             canonical_json_bytes (JObj m') = Ok demo_bytes /\
             canonical_digest (JObj m') = canonical_digest (JObj demo_members).
Proof.
  apply (strict_loads_inverts_canonical demo_members demo_bytes); [vm_compute; reflexivity|].
  split; vm_compute; reflexivity.
Defined.

(** A serializer that also writes 2^53. *)
Definition digits53 : Rfc8785 := {|
  rfc8785_dumps v :=
    match v with
    | JObj [("a", JFloat (S754_finite false 4503599627370496 1))] => Ok rounded_text
    | _ => jcs_dumps v
    end
|}.

Lemma strict_loads_rounds_out_of_range_witness :
  exists m, strict_loads (H := digits53) rounded_source "application/json" = Ok m /\
    canonical_json_bytes (H := digits53) (JObj m) = Ok rounded_text /\
    strict_loads (H := digits53) rounded_text "application/json"
    = Raise (CanonicalInputError "NON_JSON_NUMBER" "integer exceeds the interoperable IEEE-754 range").
Proof. apply (strict_loads_rounds_out_of_range (H := digits53)). vm_compute; reflexivity. Defined.
End Demo.
