(* ===== verification/Ledger.v ===== *)
(** * The evidence ledger ([evidence/ledger.py])

    A run's append-only [events.jsonl] and the content-addressed blobs under
    [.pmpe/blobs].  The file system the ledger works on is the record [store];
    the advisory lock that serialises [append] makes each operation one step on
    it.  An event is the Python dict the code handles: its members in order. *)
From Stdlib Require Import Ascii String.
From S2P Require Import Prelude Sha256 Json JsonText Canonical.

Abbreviation event := (list (string * json)).

Definition is_alnum_id (c : ascii) : bool := is_alnum c || char_in "._-" c.

(** [_RUN_ID]: [[A-Za-z0-9][A-Za-z0-9._-]{0,127}\Z]. *)
Definition _RUN_ID (s : string) : bool :=
  match s with
  | String c rest => is_alnum c && string_forallb is_alnum_id rest && Nat.leb (String.length rest) 127
  | EmptyString => false
  end.

(** [_DIGEST]: [sha256:([0-9a-f]{64})\Z]; the result is the group. *)
Definition _DIGEST (s : string) : option string :=
  let hex := drop_str 7 s in
  if startswith s "sha256:" && Nat.eqb (String.length hex) 64 && string_forallb is_hex hex
  then Some hex else None.

Fixpoint repeat_char (n : nat) (c : ascii) : string :=
  match n with O => EmptyString | S n' => String c (repeat_char n' c) end.
Definition GENESIS_DIGEST : string := "sha256:" +:+ repeat_char 64 "0".

Definition _EVENT_FIELDS : list string :=
  ["schema_version"; "run_id"; "sequence"; "previous_digest"; "event_type"; "state";
   "subject_digest"; "blob_digests"; "payload"; "event_digest"]%string.

Definition _FROZEN_STATES : list string :=
  ["VALIDATED"; "BUILDING"; "VERIFYING"; "RELEASE_READY"; "HALTED"; "STOPPED"]%string.

Definition integrity {A} (message : string) : res A := Raise (EvidenceIntegrityError message).

Definition is_digest_str (s : string) : bool :=
  match _DIGEST s with Some _ => true | None => false end.
Definition _is_digest (value : json) : bool :=
  match value with JStr s => is_digest_str s | _ => false end.

(** [set(event) != _EVENT_FIELDS]. *)
Definition has_event_fields (e : event) : bool :=
  forallb (fun p => str_in (fst p) _EVENT_FIELDS) e
  && forallb (fun k => has_key k e) _EVENT_FIELDS.

Definition strings_of (l : list json) : list string :=
  omap as_str l.

(** [_validate_event_schema]. *)
Definition _validate_event_schema (e : event) : res unit :=
  let get k := jget k e in
  let unless ok message := raise_if (negb ok) (EvidenceIntegrityError message) in
  _ ← unless (has_event_fields e) "event fields do not match schema version 1.0.0";
  _ ← unless (match get "schema_version" with JStr s => String.eqb s "1.0.0" | _ => false end)
        "event schema_version is unsupported";
  _ ← unless (match get "run_id" with JStr s => _RUN_ID s | _ => false end)
        "event run_id is malformed";
  _ ← unless (match get "sequence" with JInt z => negb (z <? 1) | _ => false end)
        "event sequence is malformed";
  _ ← unless (_is_digest (get "previous_digest")) "event previous_digest is malformed";
  _ ← unless (match get "event_type" with JStr s => negb (String.eqb s "") | _ => false end)
        "event event_type is malformed";
  _ ← unless (match get "state" with JStr s => str_in s _FROZEN_STATES | _ => false end)
        "event state is not a frozen core state";
  _ ← unless (_is_digest (get "subject_digest")) "event subject_digest is malformed";
  match get "blob_digests" with
  | JArr l =>
      _ ← unless (forallb _is_digest l) "event blob_digests contain a malformed digest";
      _ ← unless (bool_decide (strings_of l = sorted_set (strings_of l)))
            "event blob_digests must be sorted and unique";
      _ ← unless (is_mapping (get "payload")) "event payload must be an object";
      unless (_is_digest (get "event_digest")) "event event_digest is malformed"
  | _ => integrity "event blob_digests must be a list"
  end.

(** ** State *)

(** [events.jsonl] of one run ([None]: no such file) and the blob directory,
    by file name. *)
Record store : Type := {
  events_file : option string;
  blobs : gmap string string
}.

Record ledger : Type := {
  run_id : string;
  read_only : bool;
  max_read_bytes : option Z;
  max_total_read_bytes : option Z
}.

Definition validate_run_id (id : string) : res unit :=
  raise_if (negb (_RUN_ID id)) (ValueError "run_id must be a bounded filesystem-safe identifier").

(** [_read_bounded]: [None] stands for a file that cannot be read. *)
Definition _read_bounded (l : ledger) (file : option string) (description : string) : res string :=
  match file with
  | None => integrity (description +:+ " cannot be read")
  | Some payload =>
      match max_read_bytes l with
      | Some limit =>
          if limit <? Z.of_nat (String.length payload)
          then integrity (description +:+ " exceeds size limit")
          else Ok payload
      | None => Ok payload
      end
  end.

Definition read_blob (l : ledger) (s : store) (digest : string) : res string :=
  match _DIGEST digest with
  | None => integrity "blob digest is malformed"
  | Some name =>
      match blobs s !! name with
      | None => integrity "evidence blob does not exist"
      | Some content =>
          payload ← _read_bounded l (Some content) "evidence blob";
          if negb (String.eqb (sha256_digest payload) digest)
          then integrity "blob content does not match its digest"
          else Ok payload
      end
  end.

(** [put_blob].  [others] is what other writers do to the blob directory
    between the existence check and the atomic [os.link]. *)
Definition put_blob (l : ledger) (payload : string)
    (others : gmap string string -> gmap string string) : st store string := fun s =>
  if read_only l then (integrity "an inspection ledger is read-only", s)
  else
    let digest := sha256_digest payload in
    let destination := removeprefix digest "sha256:" in
    match blobs s !! destination with
    | Some existing =>
        if negb (String.eqb existing payload)
        then (integrity "content-addressed blob does not match its name", s)
        else (Ok digest, s)
    | None =>
        let bs := others (blobs s) in
        match bs !! destination with
        | Some existing =>
            (if negb (String.eqb existing payload)
             then integrity "concurrent blob write changed content" else Ok digest,
             {| events_file := events_file s; blobs := bs |})
        | None => (Ok digest, {| events_file := events_file s;
                                 blobs := <[destination := payload]> bs |})
        end
    end.

(** [bytes.splitlines()]. *)
Fixpoint splitlines_from (line : string) (s : string) : list string :=
  match s with
  | EmptyString => match line with EmptyString => [] | _ => [str_rev line] end
  | String c s' =>
      if Ascii.eqb c (chr_n 10) then str_rev line :: splitlines_from "" s'
      else if Ascii.eqb c (chr_n 13) then
        match s' with
        | String d s'' => if Ascii.eqb d (chr_n 10) then str_rev line :: splitlines_from "" s''
                          else str_rev line :: splitlines_from "" s'
        | EmptyString => [str_rev line]
        end
      else splitlines_from (String c line) s'
  end.
Definition splitlines (s : string) : list string := splitlines_from "" s.

Section Ledger.
Context `{Rfc8785} `{Yaml}.

(** The variables of the loop of [_verify_payload]. *)
Record verify_state : Type := {
  previous : string;
  total_read_bytes : Z;
  counted_blobs : list string
}.

(** The loop over the blob references of one event. *)
Fixpoint verify_blobs (l : ledger) (s : store) (digests : list json) (vs : verify_state)
    : res verify_state :=
  match digests with
  | [] => Ok vs
  | JStr digest :: rest =>
      if str_in digest (counted_blobs vs) then verify_blobs l s rest vs
      else
        blob ← try_except (read_blob l s digest)
                 (fun e => match e with EvidenceIntegrityError _ => true | _ => false end)
                 (fun _ => integrity "event references an invalid blob");
        let total := total_read_bytes vs + Z.of_nat (String.length blob) in
        if match max_total_read_bytes l with Some limit => limit <? total | None => false end
        then integrity "evidence exceeds aggregate size limit"
        else verify_blobs l s rest {| previous := previous vs; total_read_bytes := total;
                                      counted_blobs := digest :: counted_blobs vs |}
  | _ :: _ => integrity "event references a missing blob"
  end.

Definition event_str (k : string) (e : event) : string :=
  match jget k e with JStr s => s | _ => "" end.

(** One iteration of [_verify_payload]: the event at [expected_sequence]. *)
Definition verify_event (l : ledger) (s : store) (expected_sequence : Z) (raw_line : string)
    (vs : verify_state) : res (event * verify_state) :=
  e ← try_except (strict_loads raw_line "application/json") is_ValueError
        (fun _ => integrity "event is not canonical JSON");
  _ ← _validate_event_schema e;
  let event_digest := event_str "event_digest" e in
  let body := assoc_del "event_digest" e in
  broken ← (if negb (match jget "sequence" e with JInt z => z =? expected_sequence | _ => false end)
            then Ok true
            else if negb (String.eqb (event_str "previous_digest" e) (previous vs)) then Ok true
            else
              digest ← canonical_digest (JObj body);
              if negb (String.eqb event_digest digest) then Ok true
              else
                bytes ← canonical_json_bytes (JObj e);
                Ok (negb (String.eqb raw_line bytes)));
  if (broken : bool)
  then integrity ("broken evidence chain at event " +:+ str_of_Z expected_sequence)
  else if negb (String.eqb (event_str "run_id" e) (run_id l))
  then integrity ("event run_id mismatch at event " +:+ str_of_Z expected_sequence)
  else
    match jget "blob_digests" e with
    | JArr digests =>
        vs' ← verify_blobs l s digests vs;
        Ok (e, {| previous := event_digest; total_read_bytes := total_read_bytes vs';
                  counted_blobs := counted_blobs vs' |})
    | _ => integrity "event blob_digests must be a list"
    end.

Fixpoint verify_lines (l : ledger) (s : store) (expected_sequence : Z) (lines : list string)
    (vs : verify_state) : res (list event) :=
  match lines with
  | [] => Ok []
  | raw_line :: rest =>
      r ← verify_event l s expected_sequence raw_line vs;
      events ← verify_lines l s (expected_sequence + 1) rest (snd r);
      Ok (fst r :: events)
  end.

Definition _verify_payload (l : ledger) (s : store) (payload : string) : res (list event) :=
  verify_lines l s 1 (splitlines payload)
    {| previous := GENESIS_DIGEST; total_read_bytes := Z.of_nat (String.length payload);
       counted_blobs := [] |}.

(** [tuple(ledger.verify())]. *)
Definition verify (l : ledger) (s : store) : res (list event) :=
  match events_file s with
  | None => Ok []
  | Some _ => payload ← _read_bounded l (events_file s) "evidence ledger";
              _verify_payload l s payload
  end.

(** ** Appending *)

(** The two readings of [trusted_monotonic] around the publication, and the
    exceptions that the calls to the file system raise: opening and locking the
    directory; writing, flushing and syncing the event file in place, with the
    number of bytes of the line that have reached it; writing the two temporary
    copies; publishing the one by [os.replace] and syncing the directory; restoring
    the other and syncing again; removing them. *)
Record clock : Type := { reading_before : Z; reading_after : Z }.
Record disk : Type := {
  directory_error : option exn; write_error : option (nat * exn); staging_error : option exn;
  replace_error : option exn; fsync_error : option exn;
  restore_error : option exn; restore_sync_error : option exn; cleanup_error : option exn
}.
Definition sound_disk : disk := {|
  directory_error := None; write_error := None; staging_error := None; replace_error := None; fsync_error := None;
  restore_error := None; restore_sync_error := None; cleanup_error := None |}.

Definition set_events (s : store) (content : string) : store :=
  {| events_file := Some content; blobs := blobs s |}.

Definition deadline_exceeded : exn := TimeoutError "evidence commit deadline exceeded".

(** The plain write, in place. *)
Definition write_in_place (d : disk) (current encoded : string) (e : event) : st store event := fun s =>
  match write_error d with
  | Some (n, err) => (Raise err, set_events s (current +:+ take_str n encoded))
  | None => (Ok e, set_events s (current +:+ encoded))
  end.

(** Publish by [os.replace]; any exception after it restores the old file, if the
    restoration does not fail itself. *)
Definition publish_staged (deadline : Z) (now : clock) (d : disk) (current encoded : string)
    (e : event) : st store event := fun s =>
  match staging_error d with
  | Some err => (Raise err, s)
  | None =>
    if deadline <? reading_before now then (Raise deadline_exceeded, s)
    else
      match replace_error d with
      | Some err => (Raise err, s)
      | None =>
          let published := set_events s (current +:+ encoded) in
          let rollback err :=
            match restore_error d with
            | Some again => (Raise again, published)
            | None => (Raise (default err (restore_sync_error d)), set_events published current)
            end in
          match fsync_error d with
          | Some err => rollback err
          | None => if deadline <? reading_after now then rollback deadline_exceeded
                    else (Ok e, published)
          end
      end
  end.

(** An exception of the clean-up replaces what the commit returned or raised. *)
Definition commit_staged (deadline : Z) (now : clock) (d : disk) (current encoded : string)
    (e : event) : st store event := fun s =>
  let (r, s') := publish_staged deadline now d current encoded e s in
  (match cleanup_error d with Some err => Raise err | None => r end, s').

Definition event_body (l : ledger) (events : list event) (event_type state subject_digest : string)
    (blob_digests : list string) (payload : event) : event :=
  [("schema_version", JStr "1.0.0"); ("run_id", JStr (run_id l));
   ("sequence", JInt (Z.of_nat (List.length events) + 1));
   ("previous_digest", JStr (match last events with
                             | Some e => event_str "event_digest" e
                             | None => GENESIS_DIGEST
                             end));
   ("event_type", JStr event_type); ("state", JStr state);
   ("subject_digest", JStr subject_digest);
   ("blob_digests", JArr (map JStr (sorted_set blob_digests)));
   ("payload", JObj payload)]%string.

Definition new_line : string := String (chr_n 10) "".

(** The event that [append] writes after [events], and its bytes. *)
Definition seal_event (body : event) : res (event * string) :=
  digest ← canonical_digest (JObj body);
  let e := body ++ [("event_digest"%string, JStr digest)] in
  _ ← _validate_event_schema e;
  bytes ← canonical_json_bytes (JObj e);
  Ok (e, bytes +:+ new_line).

Definition append (l : ledger) (event_type state subject_digest : string)
    (blob_digests : list string) (payload : event)
    (commit_deadline : option Z) (trusted_monotonic : option clock) (d : disk)
    : st store event := fun s =>
  if read_only l then (integrity "an inspection ledger is read-only", s)
  else if String.eqb event_type "" || negb (str_in state _FROZEN_STATES)
          || negb (is_digest_str subject_digest)
  then (Raise (ValueError "event type, state, and subject digest are required"), s)
  else if existsb (fun d => negb (is_digest_str d)) blob_digests
  then (Raise (ValueError "blob references must be SHA-256 digests"), s)
  else
    let write current encoded e : res event * store :=
      match commit_deadline, trusted_monotonic with
      | Some deadline, Some now => commit_staged deadline now d current encoded e s
      | _, _ => write_in_place d current encoded e s
      end in
    if xorb (bool_decide (commit_deadline = None)) (match trusted_monotonic with None => true | _ => false end)
    then (Raise (ValueError
            "commit deadline and trusted monotonic clock must be provided together"), s)
    else
      match directory_error d with
      | Some err => (Raise err, s)
      | None =>
      match _read_bounded l (events_file s) "evidence ledger" with
      | Raise err => (Raise err, s)
      | Ok current =>
          match events ← _verify_payload l s current;
                seal_event (event_body l events event_type state subject_digest blob_digests payload)
          with
          | Raise err => (Raise err, s)
          | Ok (e, encoded) => write current encoded e
          end
      end
      end.

(** ** Opening *)

Definition terminal_states : list string := ["RELEASE_READY"; "HALTED"; "STOPPED"]%string.

Definition writer (id : string) : ledger :=
  {| run_id := id; read_only := false; max_read_bytes := None; max_total_read_bytes := None |}.

(** [EvidenceLedger(root, run_id, resume=resume)]. *)
Definition open_ledger (id : string) (resume : bool) : st store ledger := fun s =>
  match validate_run_id id with
  | Raise err => (Raise err, s)
  | Ok _ =>
      let l := writer id in
      if resume then
        match events_file s with
        | None => (integrity "cannot resume a run without an evidence ledger", s)
        | Some _ =>
            (events ← verify l s;
             match last events with
             | None => integrity "cannot resume an empty evidence ledger"
             | Some e =>
                 if match jget "state" e with JStr x => str_in x terminal_states | _ => false end
                 then integrity "a terminal run cannot be resumed" else Ok l
             end, s)
        end
      else
        match events_file s with
        | Some _ => (integrity "run_id already has an evidence ledger; use a new run_id", s)
        | None => (Ok l, set_events s "")
        end
  end.

(** [EvidenceLedger.open_existing]. *)
Definition open_existing (id : string) (max_read max_total : option Z) (s : store) : res ledger :=
  _ ← validate_run_id id;
  let l := {| run_id := id; read_only := true; max_read_bytes := max_read;
              max_total_read_bytes := max_total |} in
  match events_file s with
  | None => integrity "evidence ledger does not exist"
  | Some _ => _ ← verify l s; Ok l
  end.
End Ledger.
