(* ===== verification/LedgerFacts.v ===== *)
(** * What the evidence ledger promises

    The specification of a verified chain ([chained]), the invariant that every
    operation of the writers keeps ([ledger_inv], over the step relation
    [ledger_step]), and the theorems on appending, verification, tampering,
    blobs and resumption. *)
From Stdlib Require Import SpecFloat Ascii String.
From S2P Require Import Prelude Sha256 Json JsonText Canonical JsonSpec JsonFacts CanonicalFacts Ledger.

(** ** Specification *)

Section Spec.
Context `{Rfc8785}.

(** The preimage of an event's digest. *)
Definition body_bytes (e : event) : res string :=
  canonical_json_bytes (JObj (assoc_del "event_digest" e)).

Definition blob_refs (e : event) : list string :=
  match jget "blob_digests" e with JArr l => strings_of l | _ => [] end.

(** [e] is a sound event at position [n] after an event of digest [prev]. *)
Record link (l : ledger) (s : store) (n : Z) (prev : string) (e : event) : Prop := {
  link_schema : _validate_event_schema e = Ok tt;
  link_sequence : jget "sequence" e = JInt n;
  link_previous : event_str "previous_digest" e = prev;
  link_run : event_str "run_id" e = run_id l;
  link_digest : exists bytes, body_bytes e = Ok bytes /\
                  event_str "event_digest" e = sha256_digest bytes;
  link_blobs : forall d, d ∈ blob_refs e -> exists content, read_blob l s d = Ok content
}.

Fixpoint chained (l : ledger) (s : store) (n : Z) (prev : string) (events : list event) : Prop :=
  match events with
  | [] => True
  | e :: rest => link l s n prev e /\ chained l s (n + 1) (event_str "event_digest" e) rest
  end.

(** The text of an event log: one line per event. *)
Definition unlines (lines : list string) : string :=
  foldr (fun line acc => line +:+ new_line +:+ acc) ""%string lines.

(** Every line is the canonical text of its event. *)
Definition canonical_line (e : event) (line : string) : Prop :=
  canonical_json_bytes (JObj e) = Ok line.
End Spec.

(** ** Digests and lines *)

Lemma is_hex_digit_agrees c : is_hex_digit c = true -> is_hex c = true.
Proof. destruct c as [[] [] [] [] [] [] [] []]; done. Qed.

Lemma sha256_digest_name p : _DIGEST (sha256_digest p) = Some (sha256_hexdigest p).
Proof.
  unfold _DIGEST, sha256_digest. destruct (sha256_hexdigest_shape p) as [Hl Hh].
  rewrite startswith_app. change 7%nat with (String.length "sha256:").
  rewrite drop_str_app, Hl. simpl.
  assert (string_forallb is_hex (sha256_hexdigest p) = true) as ->; [|done].
  clear Hl. induction (sha256_hexdigest p) as [|c h IH]; [done|].
  simpl in Hh |- *. bool_simp. rewrite IH by done. by rewrite is_hex_digit_agrees.
Qed.

Lemma sha256_is_digest p : is_digest_str (sha256_digest p) = true.
Proof. unfold is_digest_str. by rewrite sha256_digest_name. Qed.

Lemma DIGEST_spec d name : _DIGEST d = Some name -> d = "sha256:" +:+ name.
Proof.
  unfold _DIGEST. destruct (_ && _) eqn:E; [|done]. intros [= <-]. bool_simp.
  etransitivity; [by apply (startswith_split d "sha256:")|].
  unfold removeprefix. by rewrite H.
Qed.

Lemma str_rev_app_spec a acc : str_rev_app a acc = str_rev a +:+ acc.
Proof.
  unfold str_rev. revert acc. induction a as [|c a IH]; intros acc; simpl; [done|].
  rewrite IH, (IH (String c "")), sapp_assoc. done.
Qed.

Lemma str_rev_involutive a : str_rev (str_rev a) = a.
Proof.
  assert (Happ : forall x y, str_rev (x +:+ y) = str_rev y +:+ str_rev x).
  { induction x as [|c x IH]; intros y; simpl; [by rewrite sapp_nil_r|].
    unfold str_rev at 1 3. simpl. rewrite !str_rev_app_spec, IH, sapp_assoc. done. }
  induction a as [|c a IH]; [done|]. unfold str_rev at 2. simpl. rewrite str_rev_app_spec, Happ, IH. done.
Qed.

Lemma splitlines_from_line pre line rest :
  string_forallb no_line_break line = true ->
  splitlines_from pre (line +:+ new_line +:+ rest) = str_rev (str_rev_app line pre) :: splitlines_from "" rest.
Proof.
  revert pre. induction line as [|c line IH]; intros pre Hl; [done|].
  cbn [string_forallb String.append splitlines_from str_rev_app] in *.
  apply andb_prop in Hl as [Hc Hl]. unfold no_line_break in Hc.
  destruct (Ascii.eqb c (chr_n 10)); [done|]. destruct (Ascii.eqb c (chr_n 13)); [done|].
  by apply IH.
Qed.

Lemma splitlines_unlines lines :
  Forall (fun line => string_forallb no_line_break line = true) lines ->
  splitlines (unlines lines) = lines.
Proof.
  unfold splitlines. induction 1 as [|line lines Hl Hls IH]; [done|].
  cbn [unlines foldr]. rewrite splitlines_from_line by done. f_equal; [|exact IH].
  apply str_rev_involutive.
Qed.

Lemma unlines_snoc lines line : unlines (lines ++ [line]) = unlines lines +:+ line +:+ new_line.
Proof.
  induction lines as [|x lines IH]; cbn [unlines foldr app]; [by rewrite sapp_nil_r|].
  fold (unlines (lines ++ [line])). rewrite IH. by rewrite !sapp_assoc.
Qed.

(** ** Canonical events *)

Lemma jget_str_canon k m s : NoDup (map fst m) -> jget k m = JStr s ->
  forall m', jcanon (JObj m) = JObj m' -> jget k m' = JStr s.
Proof.
  intros Hnd Hk m' [= <-]. unfold jget in *.
  rewrite sort_members_assoc by (by rewrite map_map).
  destruct (assoc k m) as [v|] eqn:E; [|done]. subst.
  clear Hnd. induction m as [|[k2 v2] m IH]; simpl in *; [done|].
  destruct (String.eqb k k2); [by simplify_eq|auto].
Qed.

Lemma assoc_map_values {V W} (f : V -> W) k (m : list (string * V)) :
  assoc k (map (fun p => (fst p, f (snd p))) m) = option_map f (assoc k m).
Proof. induction m as [|[k2 v2] m IH]; simpl; [done|]. by destruct (String.eqb k k2). Qed.

Lemma map_fst_values {V W} (f : V -> W) (m : list (string * V)) :
  map fst (map (fun p => (fst p, f (snd p))) m) = map fst m.
Proof. rewrite map_map. by apply map_ext. Qed.

(** A field of the canonical form of an object. *)
Lemma jcanon_assoc k m m' :
  NoDup (map fst m) -> jcanon (JObj m) = JObj m' -> assoc k m' = option_map jcanon (assoc k m).
Proof.
  intros Hnd [= <-]. rewrite sort_members_assoc by (by rewrite map_fst_values).
  apply assoc_map_values.
Qed.

Lemma jcanon_jget k m m' :
  NoDup (map fst m) -> jcanon (JObj m) = JObj m' -> jget k m' = jcanon (jget k m).
Proof.
  intros Hnd Hc. unfold jget. rewrite (jcanon_assoc k m m') by done. by destruct (assoc k m).
Qed.

Lemma jcanon_strings l : map jcanon (map JStr l) = map JStr l.
Proof. rewrite map_map. by apply map_ext. Qed.

Lemma assoc_del_filter_map {V W} (f : V -> W) k (m : list (string * V)) :
  assoc_del k (map (fun p => (fst p, f (snd p))) m) = map (fun p => (fst p, f (snd p))) (assoc_del k m).
Proof.
  unfold assoc_del. induction m as [|[k2 v2] m IH]; simpl; [done|].
  destruct (negb (String.eqb k2 k)); simpl; by rewrite IH.
Qed.

(** Dropping a member commutes with canonical order. *)
Lemma assoc_del_insert {V} k (p : string * V) m :
  members_sorted m ->
  assoc_del k (insert_member p m)
  = if String.eqb (fst p) k then assoc_del k m else insert_member p (assoc_del k m).
Proof.
  unfold assoc_del. induction m as [|q m IH]; intros Hs; simpl.
  - by destruct (String.eqb (fst p) k).
  - destruct Hs as [Hq Hm].
    destruct (units_leb (utf16_units p.1) (utf16_units q.1)) eqn:E; simpl.
    + destruct (String.eqb (fst p) k); simpl; [done|].
      destruct (String.eqb (fst q) k) eqn:Eq; simpl; [|by rewrite E].
      (* [q] goes, [p] stays first *)
      assert (Hall : Forall (fun r => member_leb p r = true)
                       (List.filter (fun p => negb (String.eqb (fst p) k)) m)).
      { apply Forall_forall. intros r Hr. apply list_elem_of_In, filter_In in Hr as [Hr _].
        apply list_elem_of_In in Hr. rewrite Forall_forall in Hq. specialize (Hq r Hr).
        unfold member_leb in *. by eapply units_leb_trans. }
      destruct (List.filter _ m) as [|r m']; [done|]. simpl.
      apply Forall_cons in Hall as [Hr _]. unfold member_leb in Hr. by rewrite Hr.
    + rewrite IH by done. destruct (String.eqb (fst p) k); [by destruct (String.eqb (fst q) k)|].
      destruct (String.eqb (fst q) k); simpl; [done|]. by rewrite E.
Qed.

Lemma assoc_del_sort {V} k (m : list (string * V)) :
  assoc_del k (sort_members m) = sort_members (assoc_del k m).
Proof.
  induction m as [|p m IH]; [done|]. cbn [sort_members foldr].
  fold (sort_members m). rewrite assoc_del_insert by apply sort_members_sorted. rewrite IH.
  unfold assoc_del at 3. cbn [List.filter]. fold (assoc_del k m).
  by destruct (String.eqb (fst p) k).
Qed.

Lemma jcanon_assoc_del k m m' :
  jcanon (JObj m) = JObj m' -> JObj (assoc_del k m') = jcanon (JObj (assoc_del k m)).
Proof. intros [= <-]. cbn [jcanon]. by rewrite assoc_del_sort, assoc_del_filter_map. Qed.

(** ** The event schema *)

Record well_formed_event (e : event) : Prop := {
  wf_fields : has_event_fields e = true;
  wf_version : jget "schema_version" e = JStr "1.0.0";
  wf_run : exists id, jget "run_id" e = JStr id /\ _RUN_ID id = true;
  wf_sequence : exists n, jget "sequence" e = JInt n /\ 1 <= n;
  wf_previous : exists d, jget "previous_digest" e = JStr d /\ is_digest_str d = true;
  wf_type : exists t, jget "event_type" e = JStr t /\ t <> ""%string;
  wf_state : exists x, jget "state" e = JStr x /\ x ∈ _FROZEN_STATES;
  wf_subject : exists d, jget "subject_digest" e = JStr d /\ is_digest_str d = true;
  wf_blobs : exists ds, jget "blob_digests" e = JArr (map JStr ds) /\
               Forall (fun d => is_digest_str d = true) ds /\ sorted_set ds = ds;
  wf_payload : exists p, jget "payload" e = JObj p;
  wf_digest : exists d, jget "event_digest" e = JStr d /\ is_digest_str d = true
}.

Lemma digests_are_strings l :
  forallb _is_digest l = true ->
  l = map JStr (strings_of l) /\ Forall (fun d => is_digest_str d = true) (strings_of l).
Proof.
  unfold strings_of. induction l as [|v l IH]; simpl; [done|]. intros [Hv Hl]%andb_prop.
  destruct IH as [E F]; [done|]. destruct v; try done. simpl. split; [f_equal; exact E|by constructor].
Qed.

Lemma strings_of_map l : strings_of (map JStr l) = l.
Proof. unfold strings_of. induction l as [|x l IH]; simpl; [done|]. f_equal. exact IH. Qed.

Lemma digests_forallb ds : Forall (fun d => is_digest_str d = true) ds -> forallb _is_digest (map JStr ds) = true.
Proof. induction 1 as [|d ds Hd Hds IH]; simpl; [done|]. by rewrite Hd. Qed.

Lemma digest_value v : _is_digest v = true -> exists d, v = JStr d /\ is_digest_str d = true.
Proof. destruct v; try done. eauto. Qed.

Lemma validate_spec e : _validate_event_schema e = Ok tt <-> well_formed_event e.
Proof.
  unfold _validate_event_schema. split.
  - intros H0. cbv zeta in H0. simp_res. bool_simp.
    destruct (jget "blob_digests" e) as [| | | | |ds|] eqn:Eds; try done. simp_res. bool_simp.
    split; try done.
    + by destruct (jget "schema_version" e) as [| | | |x| |]; try done; bool_simp; subst.
    + destruct (jget "run_id" e); try done. eauto.
    + destruct (jget "sequence" e) as [| |n| | | |]; try done. bool_simp.
      exists n. split; [done|]. by apply Z.ltb_ge.
    + by apply digest_value.
    + destruct (jget "event_type" e) as [| | | |x| |]; try done. bool_simp. eauto.
    + destruct (jget "state" e) as [| | | |x| |]; try done. exists x. split; [done|]. by apply str_in_elem.
    + by apply digest_value.
    + rewrite Eds. edestruct digests_are_strings as [E' F]; [eassumption|].
      exists (strings_of ds). split; [by f_equal|]. split; [done|].
      match goal with Hb : bool_decide _ = true |- _ => apply bool_decide_eq_true in Hb; by symmetry end.
    + destruct (jget "payload" e); try done. eauto.
    + by apply digest_value.
  - intros [Hf Hv (id & Hr & Hr') (n & Hn & Hn') (pd & Hp & Hp') (t & Ht & Ht')
            (x & Hx & Hx') (sd & Hs & Hs') (ds & Hd & Hd' & Hso) (p & Hpl) (d & He & He')].
    apply str_in_elem in Hx'. apply String.eqb_neq in Ht'. apply Z.ltb_ge in Hn'.
    apply digests_forallb in Hd'.
    rewrite Hf, Hv, Hr, Hn, Hp, Ht, Hx, Hs, Hd, Hpl, He, Hd'. unfold _is_digest.
    rewrite Hr', Hn', Hp', Ht', Hx', Hs', He', strings_of_map, Hso, bool_decide_true by done.
    done.
Qed.

Lemma has_event_fields_perm (e e' : event) :
  map fst e ≡ₚ map fst e' -> has_event_fields e = true -> has_event_fields e' = true.
Proof.
  intros Hp H. unfold has_event_fields in *. apply andb_prop in H as [H1 H2].
  apply andb_true_intro. rewrite forallb_forall in H1, H2. split; apply forallb_forall.
  - intros p Hin. assert (In (fst p) (map fst e)) as (q & Hq & Hq')%in_map_iff.
    { apply list_elem_of_In. rewrite Hp. by apply list_elem_of_In, in_map. }
    rewrite <- Hq. by apply H1.
  - intros k Hk. apply has_key_spec. rewrite <- Hp. apply has_key_spec. by apply H2.
Qed.

Lemma schema_canonical e e' :
  NoDup (map fst e) -> jcanon (JObj e) = JObj e' ->
  _validate_event_schema e = Ok tt -> _validate_event_schema e' = Ok tt.
Proof.
  intros Hnd Hc. rewrite !validate_spec.
  intros [Hf Hv (id & Hr & Hr') (n & Hn & Hn') (pd & Hp & Hp') (t & Ht & Ht')
          (x & Hx & Hx') (sd & Hs & Hs') (ds & Hd & Hd' & Hso) (p & Hpl) (d & He & He')].
  pose proof (fun k => jcanon_jget k e e' Hnd Hc) as Hg.
  split; rewrite ?Hg, ?Hv, ?Hr, ?Hn, ?Hp, ?Ht, ?Hx, ?Hs, ?Hd, ?Hpl, ?He; cbn [jcanon]; eauto.
  - eapply has_event_fields_perm; [|done]. injection Hc as <-.
    rewrite <- (map_fst_values jcanon e). apply Permutation_map. symmetry. apply sort_members_perm.
  - exists ds. by rewrite jcanon_strings.
Qed.

(** ** Verification: soundness and completeness *)

Section Verify.
Context `{Rfc8785} `{Yaml}.
Implicit Types (l : ledger) (s : store) (e : event) (vs : verify_state).

Definition has_blob l s (d : string) : Prop := exists content, read_blob l s d = Ok content.
Definition counted_ok l s vs : Prop := Forall (has_blob l s) (counted_blobs vs).

Lemma verify_blobs_sound l s digests : forall vs vs',
  verify_blobs l s digests vs = Ok vs' -> counted_ok l s vs ->
  previous vs' = previous vs /\ counted_ok l s vs' /\
  Forall (has_blob l s) (strings_of digests).
Proof.
  induction digests as [|v digests IH]; intros vs vs' Hv Hc; simpl in Hv.
  - simp_res. subst. repeat split; [done|constructor].
  - destruct v as [| | | |d| |]; try discriminate.
    destruct (str_in d (counted_blobs vs)) eqn:Hin.
    + apply IH in Hv as (Hp & Hc' & Hall); [|done]. repeat split; [done..|].
      constructor; [|done]. apply str_in_elem in Hin. unfold counted_ok in Hc.
      rewrite Forall_forall in Hc. by apply Hc.
    + simp_res. apply try_except_Ok in E as [E|(e & _ & _ & E)]; [|discriminate].
      assert (Hd : has_blob l s d) by (by eexists).
      apply IH in Hv as (Hp & Hc' & Hall); [|by constructor].
      repeat split; [done..|]. by constructor.
Qed.

Lemma verify_blobs_complete l s ds : forall vs,
  max_total_read_bytes l = None -> Forall (has_blob l s) ds ->
  exists vs', verify_blobs l s (map JStr ds) vs = Ok vs' /\ previous vs' = previous vs.
Proof.
  intros vs Ht. revert vs. induction ds as [|d ds IH]; intros vs Hall; simpl; [by eexists|].
  apply Forall_cons in Hall as [(content & Hd) Hall].
  destruct (str_in d (counted_blobs vs)); [by apply IH|].
  rewrite Hd. simpl. rewrite Ht.
  destruct (IH {| previous := previous vs;
    total_read_bytes := total_read_bytes vs + Z.of_nat (String.length content);
    counted_blobs := d :: counted_blobs vs |} Hall) as (vs' & E & Hp). eauto.
Qed.

Lemma verify_event_sound l s n raw vs e vs' :
  verify_event l s n raw vs = Ok (e, vs') -> counted_ok l s vs ->
  link l s n (previous vs) e /\ canonical_line e raw /\
  strict_loads raw "application/json" = Ok e /\
  previous vs' = event_str "event_digest" e /\ counted_ok l s vs'.
Proof.
  unfold verify_event. intros Hv Hc. simp_res.
  apply try_except_Ok in E as [E|(x & _ & _ & E)]; [|discriminate].
  destruct (jget "blob_digests" a) as [| | | | |ds|] eqn:Eds; try discriminate.
  simp_res. simplify_eq. bool_simp. subst. destruct a0.
  destruct (jget "sequence" e) as [| |z| | | |] eqn:Eseq; try discriminate.
  apply Z.eqb_eq in E4. subst z.
  unfold canonical_digest in E6. simp_res. subst.
  apply verify_blobs_sound in E9 as (Hp & Hc' & Hall); [|done].
  split; [|done]. split; [done..| |].
  - by eexists.
  - unfold blob_refs. rewrite Eds. intros d Hd. rewrite Forall_forall in Hall. by apply Hall.
Qed.

Lemma verify_event_complete l s n raw vs e :
  max_total_read_bytes l = None ->
  link l s n (previous vs) e -> canonical_line e raw ->
  strict_loads raw "application/json" = Ok e ->
  exists vs', verify_event l s n raw vs = Ok (e, vs') /\ previous vs' = event_str "event_digest" e.
Proof.
  intros Ht [Hs Hn Hp Hr (bytes & Hb & Hd) Hbl] Hl Hr'.
  apply validate_spec in Hs as Hwf. destruct (wf_blobs _ Hwf) as (ds & Eds & _ & _).
  unfold verify_event. rewrite Hr'. cbn [try_except mbind res_bind]. rewrite Hs.
  cbn [mbind res_bind]. rewrite Hn, Z.eqb_refl, Hp, String.eqb_refl. cbn [negb].
  unfold body_bytes in Hb. unfold canonical_digest. rewrite Hb. cbn [mbind res_bind].
  rewrite Hd. unfold sha256_digest. rewrite String.eqb_refl. cbn [negb].
  unfold canonical_line in Hl. rewrite Hl. cbn [mbind res_bind]. rewrite String.eqb_refl.
  cbn [negb]. rewrite Hr, String.eqb_refl. cbn [negb]. rewrite Eds.
  destruct (verify_blobs_complete l s ds vs Ht) as (vs' & E & _).
  { apply Forall_forall. intros d Hin. apply Hbl. unfold blob_refs. by rewrite Eds, strings_of_map. }
  rewrite E. cbn [mbind res_bind]. eauto.
Qed.

Lemma verify_lines_sound l s lines : forall n vs events,
  verify_lines l s n lines vs = Ok events -> counted_ok l s vs ->
  chained l s n (previous vs) events /\ Forall2 canonical_line events lines /\
  Forall2 (fun e raw => strict_loads raw "application/json" = Ok e) events lines.
Proof.
  induction lines as [|raw lines IH]; intros n vs events Hv Hc; simpl in Hv; simp_res.
  - subst. repeat constructor.
  - destruct a as [e vs']. subst events. simpl in *.
    apply verify_event_sound in E as (Hlink & Hline & Hload & Hp & Hc'); [|done].
    apply IH in E0 as (Hch & Hl & Hr); [|done]. rewrite Hp in Hch.
    split; [done|]. split; by constructor.
Qed.

Lemma verify_lines_complete l s events : forall n vs lines,
  max_total_read_bytes l = None ->
  chained l s n (previous vs) events -> Forall2 canonical_line events lines ->
  Forall2 (fun e raw => strict_loads raw "application/json" = Ok e) events lines ->
  verify_lines l s n lines vs = Ok events.
Proof.
  induction events as [|e events IH]; intros n vs lines Ht Hch Hl Hr.
  - apply Forall2_nil_inv_l in Hl. by subst.
  - apply Forall2_cons_inv_l in Hl as (raw & lines' & Hline & Hl & ->).
    apply Forall2_cons_1 in Hr as [Hload Hr]. destruct Hch as [Hlink Hch].
    destruct (verify_event_complete l s n raw vs e) as (vs' & E & Hp); [done..|].
    simpl. rewrite E. cbn [mbind res_bind fst snd]. rewrite (IH (n + 1) vs' lines'); [done..| |done|done].
    by rewrite Hp.
Qed.

Definition start (payload : string) : verify_state :=
  {| previous := GENESIS_DIGEST; total_read_bytes := Z.of_nat (String.length payload);
     counted_blobs := [] |}.

Lemma verify_payload_sound l s payload events :
  _verify_payload l s payload = Ok events ->
  chained l s 1 GENESIS_DIGEST events /\ Forall2 canonical_line events (splitlines payload) /\
  Forall2 (fun e raw => strict_loads raw "application/json" = Ok e) events (splitlines payload).
Proof. intros Hv. apply (verify_lines_sound l s _ 1 (start payload)) in Hv; [done|constructor]. Qed.

Lemma chained_app l s n prev events events' :
  chained l s n prev (events ++ events') <->
  chained l s n prev events /\
  chained l s (n + Z.of_nat (List.length events))
    (match last events with Some e => event_str "event_digest" e | None => prev end) events'.
Proof.
  revert n prev. induction events as [|e events IH]; intros n prev; cbn [app chained List.length].
  - rewrite Z.add_0_r. simpl. tauto.
  - rewrite IH. replace (n + 1 + Z.of_nat (List.length events))
      with (n + Z.of_nat (S (List.length events))) by lia.
    rewrite last_cons. destruct (last events); tauto.
Qed.

(** ** More blobs do not invalidate a chain *)

Lemma read_blob_mono l s s' d content :
  blobs s ⊆ blobs s' -> read_blob l s d = Ok content -> read_blob l s' d = Ok content.
Proof.
  intros Hsub. unfold read_blob. destruct (_DIGEST d) as [name|]; [|done].
  destruct (blobs s !! name) as [c|] eqn:E; [|done].
  by rewrite (lookup_weaken _ _ _ _ E Hsub).
Qed.

Lemma chained_mono l s s' n prev events :
  blobs s ⊆ blobs s' -> chained l s n prev events -> chained l s' n prev events.
Proof.
  intros Hsub. revert n prev. induction events as [|e events IH]; intros n prev; simpl; [done|].
  intros [[Hs Hn Hp Hr Hd Hb] Hch]. split; [|by apply IH]. split; try done.
  intros d Hin. destruct (Hb d Hin) as [c Hc]. exists c. by eapply read_blob_mono.
Qed.
End Verify.

(** ** Appending *)

Section Append.
Context `{Rfc8785Laws} `{Yaml}.

(** The state of a run's log: its lines are the canonical text of a chain. *)
Record ledger_inv (id : string) (s : store) (events : list event) : Prop := {
  inv_lines : exists lines,
    events_file s = Some (unlines lines) /\
    Forall (fun line => string_forallb no_line_break line = true) lines /\
    Forall2 canonical_line events lines /\
    Forall2 (fun e raw => strict_loads raw "application/json" = Ok e) events lines;
  inv_chain : chained (writer id) s 1 GENESIS_DIGEST events
}.

Lemma inv_verify_payload id s events current :
  ledger_inv id s events -> events_file s = Some current ->
  _verify_payload (writer id) s current = Ok events.
Proof.
  intros [(lines & Hf & Hnl & Hl & Hr) Hch] Hc. rewrite Hf in Hc. simplify_eq.
  unfold _verify_payload. rewrite splitlines_unlines by done.
  by apply verify_lines_complete.
Qed.

Lemma inv_verify id s events : ledger_inv id s events -> verify (writer id) s = Ok events.
Proof.
  intros Hinv. unfold verify. destruct (inv_lines _ _ _ Hinv) as (lines & Hf & _).
  rewrite Hf. cbn [mbind res_bind _read_bounded writer max_read_bytes].
  by apply inv_verify_payload.
Qed.

Lemma append_Ok_inv l ty x sd bd p dl cl d s e s' :
  append l ty x sd bd p dl cl d s = (Ok e, s') ->
  exists current events encoded,
    read_only l = false /\
    _read_bounded l (events_file s) "evidence ledger" = Ok current /\
    _verify_payload l s current = Ok events /\
    seal_event (event_body l events ty x sd bd p) = Ok (e, encoded) /\
    events_file s = Some current /\ s' = set_events s (current +:+ encoded).
Proof.
  unfold append. destruct (read_only l) eqn:Ero; [done|].
  destruct (_ || _); [done|]. destruct (existsb _ bd); [done|]. destruct (xorb _ _); [done|].
  destruct (directory_error d); [done|]. destruct (_read_bounded l _ _) as [current|] eqn:Er; [|done].
  destruct (_verify_payload l s current) as [events|] eqn:Ev; [|done]. cbn [mbind res_bind].
  destruct (seal_event _) as [[e0 encoded]|] eqn:Es; [|done].
  assert (Hf : events_file s = Some current).
  { unfold _read_bounded in Er. destruct (events_file s) as [c|]; [|done].
    destruct (max_read_bytes l); [destruct (_ <? _); [done|]|]; by injection Er as ->. }
  intros Hw. assert (e0 = e /\ s' = set_events s (current +:+ encoded)) as [-> ->].
  { destruct dl as [deadline|], cl as [now|];
      try (unfold write_in_place in Hw; destruct (write_error d) as [[]|]; [done|by injection Hw as -> <-]).
    unfold commit_staged, publish_staged in Hw. destruct (cleanup_error d), (staging_error d); try done;
    destruct (deadline <? reading_before now), (replace_error d), (fsync_error d), (restore_error d),
      (deadline <? reading_after now); try done; by injection Hw as -> <-. }
  naive_solver.
Qed.

(** What [append] leaves when it raises: the store, except when the write itself
    fails in place, or when the new log was published and could not be taken back. *)
Lemma append_Raise_inv l ty x sd bd p dl cl d s err s' :
  append l ty x sd bd p dl cl d s = (Raise err, s') ->
  s' = s \/
  exists current events e encoded,
    events_file s = Some current /\ _verify_payload l s current = Ok events /\
    seal_event (event_body l events ty x sd bd p) = Ok (e, encoded) /\
    ((dl = None /\ exists n, write_error d = Some (n, err) /\ s' = set_events s (current +:+ take_str n encoded)) \/
     (dl <> None /\ (restore_error d <> None \/ cleanup_error d <> None) /\ s' = set_events s (current +:+ encoded))).
Proof.
  unfold append. destruct (read_only l) eqn:Ero; [intros [= _ <-]; by left|].
  destruct (_ || _); [intros [= _ <-]; by left|]. destruct (existsb _ bd); [intros [= _ <-]; by left|].
  destruct (xorb _ _) eqn:Ex; [intros [= _ <-]; by left|]. destruct (directory_error d); [intros [= _ <-]; by left|].
  destruct (_read_bounded l _ _) as [current|] eqn:Er; [|intros [= _ <-]; by left].
  destruct (_verify_payload l s current) as [events|] eqn:Ev; [|intros [= _ <-]; by left]. cbn [mbind res_bind].
  destruct (seal_event _) as [[e encoded]|] eqn:Es; [|intros [= _ <-]; by left].
  assert (Hf : events_file s = Some current).
  { unfold _read_bounded in Er. destruct (events_file s) as [c|]; [|done].
    destruct (max_read_bytes l); [destruct (_ <? _); [done|]|]; by injection Er as ->. }
  assert (Hback : set_events (set_events s (current +:+ encoded)) current = s).
  { unfold set_events. rewrite <- Hf. by destruct s. }
  intros Hw. destruct dl as [deadline|], cl as [now|]; try done.
  - unfold commit_staged, publish_staged in Hw.
    destruct (cleanup_error d) eqn:Ec, (staging_error d), (deadline <? reading_before now), (replace_error d), (fsync_error d),
      (restore_error d) eqn:Eb, (deadline <? reading_after now); simplify_eq; try rewrite Hback; try (by left);
      right; exists current, events, e, encoded; split_and!; try done; right; split_and!; try done; first [by left|by right].
  - unfold write_in_place in Hw. destruct (write_error d) as [[n err']|]; [|done]. injection Hw as <- <-.
    right. exists current, events, e, encoded. split_and!; eauto 10.
Qed.

(** The failures that [append] recovers from: a write in place fails before its
    first byte, and the restoration and the clean-up do not fail. *)
Definition recovers (d : disk) : Prop :=
  match write_error d with Some (n, _) => n = 0%nat | None => True end /\ restore_error d = None /\ cleanup_error d = None.

Lemma append_recovers l ty x sd bd p dl cl d s err s' : recovers d ->
  append l ty x sd bd p dl cl d s = (Raise err, s') -> s' = s.
Proof.
  intros (Hw & Hr & Hc)
    [?|(old & ? & ? & encoded & Hold & _ & _ & [(_ & n & E & ->)|(_ & [E|E] & _)])]%append_Raise_inv; try congruence.
  rewrite E in Hw. subst n. assert (take_str 0 encoded = "") as -> by by destruct encoded.
  rewrite sapp_nil_r. destruct s. cbn in Hold. by rewrite Hold.
Qed.

Lemma event_body_keys l events ty x sd bd p :
  map fst (event_body l events ty x sd bd p)
  = ["schema_version"; "run_id"; "sequence"; "previous_digest"; "event_type"; "state";
     "subject_digest"; "blob_digests"; "payload"]%string.
Proof. done. Qed.

(** What [append] seals reads back as the next link of the chain. *)
Lemma seal_event_link id s events ty x sd bd p e encoded :
  seal_event (event_body (writer id) events ty x sd bd p) = Ok (e, encoded) ->
  admissible (JObj e) -> Forall (has_blob (writer id) s) bd ->
  exists e' line,
    jcanon (JObj e) = JObj e' /\ encoded = line +:+ new_line /\
    string_forallb no_line_break line = true /\ canonical_line e' line /\
    strict_loads line "application/json" = Ok e' /\
    link (writer id) s (Z.of_nat (List.length events) + 1)
      (match last events with Some e => event_str "event_digest" e | None => GENESIS_DIGEST end) e'.
Proof.
  intros Hseal Hadm Hblobs. unfold seal_event in Hseal. simp_res.
  subst. destruct a0.
  set (body := event_body (writer id) events ty x sd bd p) in *.
  set (e := body ++ [("event_digest"%string, JStr a)]) in *.
  assert (Hnd : NoDup (map fst e)).
  { subst e body. rewrite map_app, event_body_keys. simpl. decide_now. }
  destruct (strict_loads_canonical e a1 E1 Hadm) as (e' & Hc & Hload).
  pose proof (fun k => jcanon_jget k e e' Hnd Hc) as Hg.
  exists e', a1. split; [done|]. split; [done|]. split; [by eapply dumps_one_line|].
  assert (Hline : canonical_line e' a1).
  { unfold canonical_line, canonical_json_bytes. by rewrite <- Hc, dumps_canonical. }
  split; [done|]. split; [done|]. split.
  - by eapply schema_canonical.
  - rewrite Hg. done.
  - unfold event_str. rewrite Hg. done.
  - unfold event_str. rewrite Hg. done.
  - unfold canonical_digest in E. simp_res. exists a0. split.
    + unfold body_bytes. rewrite (jcanon_assoc_del _ e e' Hc).
      assert (assoc_del "event_digest" e = body) as ->.
      { subst e. apply assoc_del_snoc. subst body. rewrite event_body_keys.
        decide_now. }
      unfold canonical_json_bytes. by rewrite dumps_canonical.
    + unfold event_str. rewrite Hg. by subst a.
  - intros d. unfold blob_refs. rewrite Hg.
    change (jget "blob_digests" e) with (JArr (map JStr (sorted_set bd))).
    cbn [jcanon]. rewrite jcanon_strings, strings_of_map, elem_of_sorted_set.
    intros Hd. rewrite Forall_forall in Hblobs. by apply Hblobs.
Qed.

Lemma append_extends id s events ty x sd bd p dl cl d e s' :
  ledger_inv id s events ->
  append (writer id) ty x sd bd p dl cl d s = (Ok e, s') ->
  admissible (JObj e) -> Forall (has_blob (writer id) s) bd ->
  exists e', jcanon (JObj e) = JObj e' /\ ledger_inv id s' (events ++ [e']).
Proof.
  intros Hinv Happ Hadm Hblobs.
  apply append_Ok_inv in Happ as (current & events' & encoded & _ & _ & Hv & Hseal & Hf & ->).
  rewrite (inv_verify_payload _ _ _ _ Hinv Hf) in Hv. injection Hv as <-.
  destruct (seal_event_link _ s _ _ _ _ _ _ _ _ Hseal Hadm Hblobs)
    as (e' & line & Hc & -> & Hnl & Hline & Hload & Hlink).
  exists e'. split; [done|].
  destruct Hinv as [(lines & Hf' & Hnls & Hl & Hr) Hch]. rewrite Hf' in Hf. injection Hf as <-.
  split.
  - exists (lines ++ [line]). rewrite unlines_snoc. split; [done|].
    split; [by apply Forall_app; auto|]. split; apply Forall2_app; auto.
  - apply (chained_mono _ s); [done|]. apply chained_app. split; [done|].
    split; [|done]. by rewrite Z.add_comm.
Qed.
End Append.

(** ** Blobs *)

Lemma put_blob_grows l payload others s r s' :
  (forall bs, bs ⊆ others bs) ->
  put_blob l payload others s = (r, s') ->
  blobs s ⊆ blobs s' /\ events_file s' = events_file s.
Proof.
  intros Ho. unfold put_blob. destruct (read_only l); [by intros [= _ <-]|].
  destruct (blobs s !! _) as [c|] eqn:E.
  { destruct (negb _); by intros [= _ <-]. }
  destruct (others (blobs s) !! _) as [c|] eqn:E'.
  { intros [= _ <-]. simpl. split; [apply Ho|done]. }
  intros [= _ <-]. simpl. split; [|done]. etransitivity; [apply Ho|].
  by apply insert_subseteq.
Qed.

(** ** What equal canonical bytes share *)


Section SameBytes.
Context `{Rfc8785Laws}.

Lemma same_bytes_field m1 m2 b k :
  rfc8785_dumps (JObj m1) = Ok b -> rfc8785_dumps (JObj m2) = Ok b ->
  NoDup (map fst m1) -> NoDup (map fst m2) ->
  view float_token (jcanon (jget k m1)) = view float_token (jcanon (jget k m2)).
Proof.
  intros H1 H2 Hn1 Hn2.
  assert (Hv : view float_token (jcanon (JObj m1)) = view float_token (jcanon (JObj m2))).
  { pose proof (dumps_reads _ _ raw_hooks H1) as E1. pose proof (dumps_reads _ _ raw_hooks H2) as E2.
    rewrite rebuild_view in E1, E2. congruence. }
  assert (Hk : forall m, NoDup (map fst m) -> exists m', view float_token (jcanon (JObj m)) = JObj m' /\
            jget k m' = view float_token (jcanon (jget k m))).
  { intros m Hn. destruct (jcanon (JObj m)) as [| | | | | |mc] eqn:E; try done.
    eexists. split; [done|]. unfold jget. rewrite assoc_map_values, (jcanon_assoc k m mc Hn E).
    by destruct (assoc k m). }
  destruct (Hk m1 Hn1) as (a & Ea & <-). destruct (Hk m2 Hn2) as (b' & Eb & <-). congruence.
Qed.
End SameBytes.

(** An admitted object has distinct member names. *)
Lemma assoc_set_keys {V} k (v : V) m :
  k ∉ map fst m -> map fst (assoc_set k v m) = map fst m ++ [k].
Proof. intros Hk. rewrite assoc_set_new by done. by rewrite map_app. Qed.

Lemma admit_NoDup m m' : admit_root (JObj m) = Ok (JObj m') -> NoDup (map fst m').
Proof.
  unfold admit_root. cbn [_admit_unicode]. intros Ha. simp_res.
  set (go := fix go (members normalized_object : list (string * json)) (nodes : Z) {struct members}
             : res (list (string * json) * Z) := _) in *.
  subst a.
  match goal with E : go m [] _ = Ok ?r |- _ => destruct r as [r n'] end.
  simpl in *. simplify_eq.
  assert (Hgo : forall members acc n r, NoDup (map fst acc) -> go members acc n = Ok r ->
                NoDup (map fst (fst r))).
  { induction members as [|[k c] members IH]; intros acc n r Hn Hr; simpl in Hr.
    - simp_res. by subst.
    - simp_res. eapply IH; [|exact Hr].
      match goal with Hk : has_key _ _ = false |- _ => apply has_key_false in Hk end.
      rewrite assoc_set_keys by done. apply NoDup_app. split; [done|].
      split; [set_solver|apply NoDup_singleton]. }
  match goal with E : go m [] ?a = Ok ?r |- _ => exact (Hgo m [] a r (NoDup_nil_2) E) end.
Qed.

Lemma strict_loads_NoDup `{Rfc8785} `{Yaml} s ct m : strict_loads s ct = Ok m -> NoDup (map fst m).
Proof.
  unfold strict_loads. intros Hs. simp_res.
  destruct a1 as [| | | | | |m']; try discriminate. simp_res. subst m'.
  match goal with Ha : admit_root ?v = Ok (JObj m) |- _ =>
    destruct v; try (unfold admit_root in Ha; cbn [_admit_unicode] in Ha; simp_res; simplify_eq; done) end.
  all: try by eapply admit_NoDup.
Qed.
