(* ===== verification/LedgerTheorems.v ===== *)
(** * The evidence ledger: theorems

    The steps the writers of one run take on the store ([ledger_step]), and what
    holds of every run: its log verifies, appending is atomic, a changed log
    needs a digest collision, blobs are what they are named after, and only an
    unfinished run can be resumed. *)
From Stdlib Require Import SpecFloat Ascii String.
From stdpp Require Import relations.
From S2P Require Import Prelude Sha256 Json JsonText Canonical JsonSpec JsonFacts CanonicalFacts.
From S2P Require Import Ledger LedgerFacts.

(** ** Runs *)

Section Runs.
Context `{Rfc8785Laws} `{Yaml}.

(** What a writer of run [id] may do; [events] is what it was told is in the
    log.  Other runs share the blob directory and only add to it. *)
Inductive ledger_step (id : string) : store * list event -> store * list event -> Prop :=
  | step_put payload others r s s' events :
      (forall bs, bs ⊆ others bs) ->
      put_blob (writer id) payload others s = (r, s') ->
      ledger_step id (s, events) (s', events)
  | step_append ty x sd bd p dl cl d e e' s s' events :
      append (writer id) ty x sd bd p dl cl d s = (Ok e, s') ->
      admissible (JObj e) -> jcanon (JObj e) = JObj e' ->
      Forall (has_blob (writer id) s) bd ->
      ledger_step id (s, events) (s', events ++ [e'])
  | step_refused ty x sd bd p dl cl d err s s' events :
      recovers d -> append (writer id) ty x sd bd p dl cl d s = (Raise err, s') ->
      ledger_step id (s, events) (s', events)
  | step_unsynced ty x sd bd p dl cl d err e e' s s' events :
      append (writer id) ty x sd bd p dl cl d s = (Raise err, s') ->
      append (writer id) ty x sd bd p None None sound_disk s = (Ok e, s') ->
      admissible (JObj e) -> jcanon (JObj e) = JObj e' ->
      Forall (has_blob (writer id) s) bd ->
      ledger_step id (s, events) (s', events ++ [e']).

Lemma ledger_inv_blobs id s s' events :
  blobs s ⊆ blobs s' -> events_file s' = events_file s ->
  ledger_inv id s events -> ledger_inv id s' events.
Proof.
  intros Hb Hf [Hl Hc]. split; [by rewrite Hf|]. by eapply chained_mono.
Qed.

Lemma ledger_step_inv id c c' :
  ledger_step id c c' -> ledger_inv id (fst c) (snd c) -> ledger_inv id (fst c') (snd c').
Proof.
  destruct 1 as [pl others r s s' events Ho Hp|ty x sd bd p dl cl d e e' s s' events Ha Had Hc Hb
                |ty x sd bd p dl cl d err s s' events Hd Ha
                |ty x sd bd p dl cl d err e e' s s' events _ Ha Had Hc Hb]; simpl; intros Hinv.
  - apply put_blob_grows in Hp as [Hg Hf]; [|done]. by eapply ledger_inv_blobs.
  - destruct (append_extends _ _ _ _ _ _ _ _ _ _ _ _ _ Hinv Ha Had Hb) as (e2 & Hc2 & Hinv').
    rewrite Hc in Hc2. by injection Hc2 as <-.
  - apply append_recovers in Ha; [|done]. by subst.
  - destruct (append_extends _ _ _ _ _ _ _ _ _ _ _ _ _ Hinv Ha Had Hb) as (e2 & Hc2 & Hinv').
    rewrite Hc in Hc2. by injection Hc2 as <-.
Qed.

Lemma open_fresh_inv id s l s' : open_ledger id false s = (Ok l, s') -> l = writer id /\ ledger_inv id s' [].
Proof.
  unfold open_ledger. destruct (validate_run_id id); [|done].
  destruct (events_file s); [done|]. intros [= <- <-]. split; [done|].
  split; [|done]. exists []. repeat split; try constructor.
Qed.

(** C25. From a fresh ledger, after any sequence of the following steps, the log
    verifies and holds exactly the events that were sealed, in order, in canonical
    form: writes of blobs, of this run or another; appends that returned, and
    appends that raised after their whole line was in the file, whose sealed event
    is one that [strict_loads] admits and whose blobs exist; appends that raised in
    any other way, but for an error of the write in place after its first byte, of
    the restoration of the old log and of the clean-up.  ([append] checks neither the first condition,
    see [append_seals_unverifiable], nor the second.) *)
Theorem ledger_runs_verify id s0 l s1 s events :
  open_ledger id false s0 = (Ok l, s1) ->
  rtc (ledger_step id) (s1, []) (s, events) ->
  verify l s = Ok events.
Proof.
  intros Hopen Hrun. apply open_fresh_inv in Hopen as [-> Hinv]. apply inv_verify.
  change (ledger_inv id (fst (s, events)) (snd (s, events))).
  change (ledger_inv id (fst (s1, [] : list event)) (snd (s1, [] : list event))) in Hinv.
  revert Hrun Hinv. generalize (s1, [] : list event), (s, events). intros c c'.
  induction 1; eauto using ledger_step_inv.
Qed.

(** C26. When [append] returns, the log that verified has one more line, the
    canonical text of the sealed event.  When it raises, the store is what it was,
    with two exceptions.  Without a commit deadline the line is written in place,
    and an error of the write leaves the part of it that reached the file.  With
    one, the log is never torn: it has the whole line when the old log could not be
    restored, or a temporary file not be removed. *)
Theorem append_atomic l ty x sd bd p dl cl d s :
  match append l ty x sd bd p dl cl d s with
  | (Ok e, s') =>
      exists old events line,
        events_file s = Some old /\ _verify_payload l s old = Ok events /\
        e = event_body l events ty x sd bd p ++ [("event_digest"%string, jget "event_digest" e)] /\
        _validate_event_schema e = Ok tt /\ canonical_json_bytes (JObj e) = Ok line /\
        events_file s' = Some (old +:+ line +:+ new_line) /\ blobs s' = blobs s
  | (Raise err, s') =>
      s' = s \/
      exists old events e line,
        events_file s = Some old /\ _verify_payload l s old = Ok events /\ blobs s' = blobs s /\
        e = event_body l events ty x sd bd p ++ [("event_digest"%string, jget "event_digest" e)] /\
        canonical_json_bytes (JObj e) = Ok line /\
        ((dl = None /\ exists n, write_error d = Some (n, err) /\
            events_file s' = Some (old +:+ take_str n (line +:+ new_line))) \/
         (dl <> None /\ (restore_error d <> None \/ cleanup_error d <> None) /\
            events_file s' = Some (old +:+ line +:+ new_line)))
  end.
Proof.
  destruct (append l ty x sd bd p dl cl d s) as [[e|err] s'] eqn:Ha.
  - apply append_Ok_inv in Ha as (old & events & encoded & _ & _ & Hv & Hs & Hf & ->).
    unfold seal_event in Hs. simp_res. subst. destruct a0.
    exists old, events, a1. repeat split; done.
  - apply append_Raise_inv in Ha as [?|(old & events & e & encoded & Hf & Hv & Hs & Hc)]; [by left|right].
    unfold seal_event in Hs. simp_res. subst. destruct a0.
    exists old, events, (event_body l events ty x sd bd p ++ [("event_digest"%string, JStr a)]), a1.
    split_and!; try done; [by destruct Hc as [(_ & ? & _ & ->)|(_ & _ & ->)]|].
    destruct Hc as [(-> & n & Ew & ->)|(Hn & Hd & ->)]; [left|right]; eauto.
Qed.

(** ** Verification *)

(** Verification without size limits accepts a log exactly when its lines
    are the canonical texts of a chain: schema, sequence, previous digest,
    event digest, run and blobs of every event in order. *)
Theorem verify_iff_chained l s payload events :
  max_read_bytes l = None -> max_total_read_bytes l = None -> events_file s = Some payload ->
  verify l s = Ok events <->
  chained l s 1 GENESIS_DIGEST events /\
  Forall2 canonical_line events (splitlines payload) /\
  Forall2 (fun e line => strict_loads line "application/json" = Ok e) events (splitlines payload).
Proof.
  intros Hr Ht Hf. unfold verify, _read_bounded. rewrite Hf, Hr. cbn [mbind res_bind]. split.
  - apply verify_payload_sound.
  - intros (Hc & Hl & Hs). by apply verify_lines_complete.
Qed.

(** The bodies of two events differ and have the same digest. *)
Definition digest_collision (events1 events2 : list event) : Prop :=
  exists e1 e2 b1 b2, e1 ∈ events1 /\ e2 ∈ events2 /\
    body_bytes e1 = Ok b1 /\ body_bytes e2 = Ok b2 /\
    b1 <> b2 /\ sha256_digest b1 = sha256_digest b2.

Lemma collision_mono a b a' b' :
  digest_collision a b -> digest_collision (a ++ a') (b ++ b').
Proof.
  intros (e1 & e2 & b1 & b2 & He1 & He2 & ?). exists e1, e2, b1, b2. rewrite !elem_of_app. tauto.
Qed.

Lemma same_body_field e1 e2 b k :
  NoDup (map fst e1) -> NoDup (map fst e2) -> k <> "event_digest"%string ->
  body_bytes e1 = Ok b -> body_bytes e2 = Ok b ->
  view float_token (jcanon (jget k e1)) = view float_token (jcanon (jget k e2)).
Proof.
  intros Hn1 Hn2 Hk Hb1 Hb2.
  pose proof (same_bytes_field _ _ _ k Hb1 Hb2 (assoc_del_NoDup _ _ Hn1) (assoc_del_NoDup _ _ Hn2)) as E.
  unfold jget in E |- *. by rewrite !assoc_del_ne in E by done.
Qed.

Lemma chained_tail_evident l s1 s2 events1 : forall events2 e1 e2,
  chained l s1 1 GENESIS_DIGEST (events1 ++ [e1]) ->
  chained l s2 1 GENESIS_DIGEST (events2 ++ [e2]) ->
  Forall (fun e : event => NoDup (map fst e)) (events1 ++ [e1]) ->
  Forall (fun e : event => NoDup (map fst e)) (events2 ++ [e2]) ->
  event_str "event_digest" e1 = event_str "event_digest" e2 ->
  map body_bytes (events1 ++ [e1]) = map body_bytes (events2 ++ [e2]) \/
  digest_collision (events1 ++ [e1]) (events2 ++ [e2]).
Proof.
  induction events1 as [|f1 events1 IH] using rev_ind; intros events2 e1 e2 Hc1 Hc2 Hn1 Hn2 Hd;
    apply chained_app in Hc1 as [Hc1 [L1 _]]; apply chained_app in Hc2 as [Hc2 [L2 _]];
    apply Forall_app in Hn1 as [Hn1 [Hne1 _]%Forall_cons];
    apply Forall_app in Hn2 as [Hn2 [Hne2 _]%Forall_cons];
    destruct (link_digest _ _ _ _ _ L1) as (b1 & Hb1 & D1), (link_digest _ _ _ _ _ L2) as (b2 & Hb2 & D2);
    (destruct (String.eqb_spec b1 b2) as [->|Hne];
     [|right; exists e1, e2, b1, b2; rewrite !elem_of_app; repeat split; [set_solver..|done|done|done|congruence]]);
    pose proof (same_body_field e1 e2 b2 "sequence" Hne1 Hne2 ltac:(done) Hb1 Hb2) as Eseq;
    pose proof (same_body_field e1 e2 b2 "previous_digest" Hne1 Hne2 ltac:(done) Hb1 Hb2) as Eprev;
    rewrite (link_sequence _ _ _ _ _ L1), (link_sequence _ _ _ _ _ L2) in Eseq;
    cbn [jcanon view] in Eseq; injection Eseq as Eseq.
  - destruct events2 as [|x events2]; [left; simpl; congruence|simpl in Eseq; lia].
  - destruct events2 as [|f2 events2 _] using rev_ind; [rewrite length_app in Eseq; simpl in Eseq; lia|].
    assert (Hf : event_str "event_digest" f1 = event_str "event_digest" f2).
    { pose proof (link_previous _ _ _ _ _ L1) as P1. pose proof (link_previous _ _ _ _ _ L2) as P2.
      rewrite !last_snoc in P1, P2. rewrite <- P1, <- P2. unfold event_str.
      apply link_schema, validate_spec, wf_previous in L1 as (p1 & E1 & _).
      apply link_schema, validate_spec, wf_previous in L2 as (p2 & E2 & _).
      rewrite E1, E2 in Eprev |- *. cbn [jcanon view] in Eprev. by injection Eprev. }
    destruct (IH events2 f1 f2 Hc1 Hc2 Hn1 Hn2 Hf) as [Heq|Hcol].
    + left. rewrite (map_app _ (_ ++ _)), (map_app _ (_ ++ [f2])), Heq. simpl. congruence.
    + right. by apply collision_mono.
Qed.

Lemma verified_NoDup l s payload events :
  _verify_payload l s payload = Ok events -> Forall (fun e : event => NoDup (map fst e)) events.
Proof.
  intros (_ & _ & Hl)%verify_payload_sound. induction Hl; constructor; [|done].
  by eapply strict_loads_NoDup.
Qed.

(** C27. The log of a run is tamper evident: of two payloads that verify for the
    same run and end in the same event digest, either all event bodies agree
    byte for byte, or they show two different bodies with one SHA-256 digest. *)
Theorem verify_tamper_evident l s1 s2 payload1 payload2 events1 events2 e1 e2 :
  _verify_payload l s1 payload1 = Ok events1 -> _verify_payload l s2 payload2 = Ok events2 ->
  last events1 = Some e1 -> last events2 = Some e2 ->
  event_str "event_digest" e1 = event_str "event_digest" e2 ->
  map body_bytes events1 = map body_bytes events2 \/ digest_collision events1 events2.
Proof.
  intros Hv1 Hv2 [t1 ->]%last_Some [t2 ->]%last_Some.
  pose proof (verified_NoDup _ _ _ _ Hv1). pose proof (verified_NoDup _ _ _ _ Hv2).
  apply verify_payload_sound in Hv1 as [? _], Hv2 as [? _].
  eauto using chained_tail_evident.
Qed.

(** ** Opening *)

Lemma unfinished_state (e : event) :
  (match jget "state" e with JStr x => str_in x terminal_states | _ => false end) = false <->
  forall x, jget "state" e = JStr x -> x ∉ terminal_states.
Proof.
  destruct (jget "state" e) as [| | | |x| |]; try (split; [by intros ? ? ?|done]).
  rewrite str_in_false. split; [by intros ? ? [= <-]|auto].
Qed.

(** A run can be reopened for writing exactly when its identifier is well
    formed, its log verifies, is not empty, and ends in a state that is not
    terminal; reopening changes nothing. *)
Theorem resume_iff_unfinished id s :
  (exists l, fst (open_ledger id true s) = Ok l) <->
  _RUN_ID id = true /\ events_file s <> None /\
  exists events e, verify (writer id) s = Ok events /\ last events = Some e /\
    forall x, jget "state" e = JStr x -> x ∉ terminal_states.
Proof.
  unfold open_ledger, validate_run_id, raise_if. destruct (_RUN_ID id); simpl;
    [|split; [by intros [l ?]|by intros (? & _)]].
  destruct (events_file s) as [content|] eqn:Hf; simpl; [|split; [by intros [l ?]|naive_solver]].
  destruct (verify (writer id) s) as [events|]; simpl; [|split; [by intros [l ?]|naive_solver]].
  destruct (last events) as [e|] eqn:He; simpl; [|split; [by intros [l ?]|naive_solver]].
  pose proof (unfinished_state e) as Hu.
  destruct (match jget "state" e with JStr _ => _ | _ => _ end).
  - split; [by intros [l ?]|]. intros (_ & _ & ev & e' & [= <-] & He' & Hn).
    simplify_eq. by apply Hu in Hn.
  - split; [|naive_solver]. intros _. split_and!; [done..|].
    exists events, e. split_and!; [done..|]. by apply Hu.
Qed.
End Runs.

(** ** Blobs *)

(** A stored blob is named by its digest and reads back as it was written,
    through every handle without a size limit; storing it again changes
    nothing; and everything that could be read before still reads the same. *)
Theorem put_blob_content_addressed l payload others s d s' :
  (forall bs, bs ⊆ others bs) -> put_blob l payload others s = (Ok d, s') ->
  d = sha256_digest payload /\ events_file s' = events_file s /\
  (forall l', max_read_bytes l' = None -> read_blob l' s' d = Ok payload) /\
  (forall others', put_blob l payload others' s' = (Ok d, s')) /\
  (forall l' d' content, read_blob l' s d' = Ok content -> read_blob l' s' d' = Ok content).
Proof.
  intros Ho Hp. destruct (put_blob_grows _ _ _ _ _ _ Ho Hp) as [Hg Hf].
  assert (Hs : d = sha256_digest payload /\ read_only l = false /\
               blobs s' !! removeprefix (sha256_digest payload) "sha256:" = Some payload).
  { unfold put_blob in Hp. destruct (read_only l); [done|].
    destruct (blobs s !! _) as [c|] eqn:E.
    { destruct (String.eqb_spec c payload) as [->|]; simpl in Hp; [|done]. by injection Hp as <- <-. }
    destruct (others (blobs s) !! _) as [c|] eqn:E'.
    { destruct (String.eqb_spec c payload) as [->|]; simpl in Hp; [|done]. by injection Hp as <- <-. }
    injection Hp as <- <-. simpl. by rewrite lookup_insert_eq. }
  destruct Hs as (-> & Hro & Hl). split_and!; [done..| | |].
  - intros l' Hm. unfold read_blob. rewrite sha256_digest_name.
    unfold sha256_digest in Hl. rewrite removeprefix_app in Hl. rewrite Hl.
    unfold _read_bounded. rewrite Hm. cbn [mbind res_bind]. by rewrite String.eqb_refl.
  - intros others'. unfold put_blob. rewrite Hro, Hl. by rewrite String.eqb_refl.
  - intros l' d' content. by apply read_blob_mono.
Qed.

(** What is read under a digest has that digest. *)
Theorem read_blob_authentic l s d content :
  read_blob l s d = Ok content -> sha256_digest content = d.
Proof.
  unfold read_blob. destruct (_DIGEST d); [|done]. destruct (blobs s !! _); [|done].
  intros Hr. simp_res. by bool_simp; subst.
Qed.

(** ** A run of two events, computed with [jcs] *)

Section Demo.
Local Open Scope string_scope.

Definition demo_subject : string := sha256_digest "subject".
Definition demo_open : res ledger * store := open_ledger "run-1" false {| events_file := None; blobs := ∅ |}.
Definition demo_put : res string * store := put_blob (writer "run-1") "report" (fun bs => bs) (snd demo_open).
Definition demo_append (state : string) (bd : list string) (payload : event) (dl : option Z)
    (cl : option clock) (s : store) : res event * store :=
  append (writer "run-1") "step" state demo_subject bd payload dl cl sound_disk s.
Definition demo_first : res event * store :=
  demo_append "VALIDATED" [sha256_digest "report"] [("b", JInt 2); ("a", JNull)] None None (snd demo_put).
(** The commit deadline passes between the two readings of the clock. *)
Definition demo_late : res event * store :=
  demo_append "BUILDING" [] [] (Some 10) (Some {| reading_before := 9; reading_after := 11 |}) (snd demo_first).
Definition demo_second : res event * store := demo_append "HALTED" [] [] None None (snd demo_late).
Definition event_of (r : res event * store) : event := match fst r with Ok e => e | Raise _ => [] end.
Definition canonical_of (r : res event * store) : event :=
  match jcanon (JObj (event_of r)) with JObj e => e | _ => [] end.
Definition demo_payload (s : store) : string := match events_file s with Some p => p | None => "" end.

Lemma ledger_runs_verify_witness :
  verify (writer "run-1") (snd demo_second) = Ok [canonical_of demo_first; canonical_of demo_second]
  /\ fst demo_late = Raise deadline_exceeded.
Proof.
  split; [|vm_compute; reflexivity].
  apply (ledger_runs_verify "run-1" {| events_file := None; blobs := ∅ |} _ (snd demo_open));
    [vm_compute; reflexivity|].
  eapply rtc_l; [apply (step_put _ "report" (fun bs => bs) (fst demo_put) _ (snd demo_put));
                 [done|vm_compute; reflexivity]|].
  eapply rtc_l.
  { apply (step_append _ "step" "VALIDATED" demo_subject [sha256_digest "report"]
      [("b", JInt 2); ("a", JNull)] None None sound_disk (event_of demo_first) (canonical_of demo_first)
      _ (snd demo_first)).
    - vm_compute; reflexivity.
    - split; vm_compute; reflexivity.
    - vm_compute; reflexivity.
    - constructor; [|constructor]. exists "report". vm_compute; reflexivity. }
  eapply rtc_l.
  { apply (step_refused _ "step" "BUILDING" demo_subject [] [] (Some 10)
      (Some {| reading_before := 9; reading_after := 11 |}) sound_disk deadline_exceeded _ (snd demo_late)).
    - repeat split.
    - vm_compute; reflexivity. }
  eapply rtc_l; [|apply rtc_refl].
  apply (step_append _ "step" "HALTED" demo_subject [] [] None None sound_disk
           (event_of demo_second) (canonical_of demo_second)).
  - vm_compute; reflexivity.
  - split; vm_compute; reflexivity.
  - vm_compute; reflexivity.
  - constructor.
Defined.

Lemma verify_iff_chained_witness :
  let payload := demo_payload (snd demo_second) in
  let events := [canonical_of demo_first; canonical_of demo_second] in
  chained (writer "run-1") (snd demo_second) 1 GENESIS_DIGEST events /\
  Forall2 canonical_line events (splitlines payload) /\
  Forall2 (fun e line => strict_loads line "application/json" = Ok e) events (splitlines payload).
Proof.
  apply (verify_iff_chained (writer "run-1") (snd demo_second) (demo_payload (snd demo_second))
           [canonical_of demo_first; canonical_of demo_second]); vm_compute; reflexivity.
Defined.

(** The first event alone, and the same log with the second event removed. *)
Lemma verify_tamper_evident_witness :
  map body_bytes [canonical_of demo_first] = map body_bytes [canonical_of demo_first] \/
  digest_collision [canonical_of demo_first] [canonical_of demo_first].
Proof.
  apply (verify_tamper_evident (writer "run-1") (snd demo_first) (snd demo_second)
           (demo_payload (snd demo_first)) (demo_payload (snd demo_late))
           _ _ (canonical_of demo_first) (canonical_of demo_first)); vm_compute; reflexivity.
Defined.

Lemma put_blob_content_addressed_witness :
  read_blob (writer "run-1") (snd demo_put) (sha256_digest "report") = Ok "report".
Proof.
  destruct (put_blob_content_addressed (writer "run-1") "report" (fun bs => bs) (snd demo_open)
              (sha256_digest "report") (snd demo_put)) as (_ & _ & Hr & _);
    [intros bs; reflexivity|vm_compute; reflexivity|apply Hr; reflexivity].
Defined.

End Demo.

(** ** Limits of [append] *)

(** U+FFFF in UTF-8. *)
Definition noncharacter : string := String "239" (String "191" (String "191" "")).

(** [append] does not apply to its payload the admission that verification
      applies: with a Unicode noncharacter in the payload it succeeds and leaves a
      log that no longer verifies and cannot be appended to or resumed. *)
Theorem append_seals_unverifiable :
  exists s e s' message,
    events_file s = Some ""%string /\
    demo_append "VALIDATED" [] [("note"%string, JStr noncharacter)] None None s = (Ok e, s') /\
    verify (writer "run-1") s' = Raise (EvidenceIntegrityError message) /\
    demo_append "HALTED" [] [] None None s' = (Raise (EvidenceIntegrityError message), s') /\
    fst (open_ledger "run-1" true s') = Raise (EvidenceIntegrityError message).
Proof.
  exists (snd demo_open).
  set (r := demo_append "VALIDATED" [] [("note"%string, JStr noncharacter)] None None (snd demo_open)).
  exists (event_of r), (snd r), "event is not canonical JSON"%string.
  split_and!; vm_compute; reflexivity.
Qed.

(** The write in place fails when all but the newline of the line is in the file:
    the log verifies, the next [append] returns, and leaves two events on one line,
    after which the log no longer verifies. *)
Definition torn_disk (n : nat) : disk := {|
  directory_error := None; write_error := Some (n, OSError "No space left on device"); staging_error := None;
  replace_error := None; fsync_error := None; restore_error := None; restore_sync_error := None; cleanup_error := None |}.
Definition demo_torn : res event * store :=
  append (writer "run-1") "step" "VALIDATED" demo_subject [sha256_digest "report"] [("b", JInt 2); ("a", JNull)]%string None None
    (torn_disk (pred (String.length (demo_payload (snd demo_first))))) (snd demo_put).
Theorem torn_newline_ruins_the_log :
  exists e s' message,
    fst demo_torn = Raise (OSError "No space left on device") /\
    verify (writer "run-1") (snd demo_torn) = Ok [canonical_of demo_first] /\
    demo_append "BUILDING" [] [] None None (snd demo_torn) = (Ok e, s') /\
    verify (writer "run-1") s' = Raise (EvidenceIntegrityError message).
Proof.
  set (r := demo_append "BUILDING" [] [] None None (snd demo_torn)).
  exists (event_of r), (snd r), "event is not canonical JSON"%string.
  split_and!; vm_compute; reflexivity.
Qed.
