(* ===== verification/PyStr.v ===== *)
(** * [str()] and [repr()] of the values that JSON loads into *)
From Stdlib Require Import Ascii String.
From S2P Require Import Prelude Json JsonText.

(** [str.isprintable], [str.isalnum] and [unicodedata.decimal] of a non-ASCII
    character: tables of the interpreter. *)
Class Unicode : Type := { isprintable : N -> bool; isalnum : N -> bool; decimal : N -> option N }.

(** [str.isspace] of a character, which is also the class [\s] of [re]. *)
Definition is_space (cp : N) : bool :=
  ((9 <=? cp) && (cp <=? 13))%N || ((28 <=? cp) && (cp <=? 32))%N || (cp =? 133)%N || (cp =? 160)%N
  || (cp =? 5760)%N || ((8192 <=? cp) && (cp <=? 8202))%N || (cp =? 8232)%N || (cp =? 8233)%N
  || (cp =? 8239)%N || (cp =? 8287)%N || (cp =? 12288)%N.

(** [s.strip()]. *)
Fixpoint drop_spaces (cps : list N) : list N :=
  match cps with cp :: rest => if is_space cp then drop_spaces rest else cps | [] => [] end.
Definition strip (s : string) : string :=
  utf8_encode_all (rev (drop_spaces (rev (drop_spaces (ords s))))).

(** [str.splitlines()]: its line boundaries, [\r\n] counting as one. *)
Definition is_line_boundary (cp : N) : bool :=
  ((10 <=? cp) && (cp <=? 13))%N || ((28 <=? cp) && (cp <=? 30))%N || (cp =? 133)%N
  || (cp =? 8232)%N || (cp =? 8233)%N.
Fixpoint str_lines_from (line : list N) (cps : list N) : list string :=
  match cps with
  | [] => match line with [] => [] | _ => [utf8_encode_all (rev line)] end
  | cp :: rest =>
      if is_line_boundary cp then
        utf8_encode_all (rev line)
        :: (if (cp =? 13)%N
            then match rest with
                 | lf :: rest' => if (lf =? 10)%N then str_lines_from [] rest' else str_lines_from [] rest
                 | [] => str_lines_from [] rest
                 end
            else str_lines_from [] rest)
      else str_lines_from (cp :: line) rest
  end.
Definition str_splitlines (s : string) : list string := str_lines_from [] (ords s).

(** [open(path).read()]: strict UTF-8 with universal newlines. *)
Fixpoint universal_newlines (s : string) : string :=
  match s with
  | EmptyString => ""
  | String c rest =>
      if Ascii.eqb c (chr_n 13) then
        String (chr_n 10)
          (match rest with
           | String d rest' => if Ascii.eqb d (chr_n 10) then universal_newlines rest' else universal_newlines rest
           | EmptyString => ""
           end)
      else String c (universal_newlines rest)
  end.
Definition read_text (payload : string) : res string :=
  text ← decode_utf8 payload; Ok (universal_newlines text).

Definition upper_char (c : ascii) : ascii :=
  if is_lower c then ascii_of_N (N_of_ascii c - 32) else c.
Fixpoint upper (s : string) : string :=
  match s with EmptyString => "" | String c s' => String (upper_char c) (upper s') end.

Fixpoint hex_pad (digits : nat) (n : N) : string :=
  match digits with
  | O => ""
  | S d => String (hex_digit (N.land (N.shiftr n (4 * N.of_nat d)) 15)) (hex_pad d n)
  end.

Section Repr.
Context `{Unicode}.

Definition repr_char (q : ascii) (cp : N) : string :=
  if (cp =? byte_n q)%N || (cp =? 92)%N then String "\" (String (chr_n cp) "")
  else if (cp =? 9)%N then "\t"
  else if (cp =? 10)%N then "\n"
  else if (cp =? 13)%N then "\r"
  else if (cp <? 32)%N || (cp =? 127)%N then "\x" +:+ hex_pad 2 cp
  else if (cp <? 127)%N then String (chr_n cp) ""
  else if isprintable cp then utf8_encode cp
  else if (cp <=? 255)%N then "\x" +:+ hex_pad 2 cp
  else if (cp <=? 65535)%N then "\u" +:+ hex_pad 4 cp
  else "\U" +:+ hex_pad 8 cp.

Definition repr_str (s : string) : string :=
  let q := if contains_str "'" s && negb (contains_str quote s) then "034"%char else "'"%char in
  String q (foldr (fun cp acc => repr_char q cp +:+ acc) (String q "") (ords s)).

Fixpoint py_repr (v : json) : string :=
  match v with
  | JNull => "None"
  | JBool b => if b then "True" else "False"
  | JInt z => str_of_Z z
  | JFloat f => float_repr f
  | JStr s => repr_str s
  | JArr l => "[" +:+ join ", " (map py_repr l) +:+ "]"
  | JObj m => "{" +:+ join ", " (map (fun p => repr_str (fst p) +:+ ": " +:+ py_repr (snd p)) m) +:+ "}"
  end.

Definition py_str (v : json) : string := match v with JStr s => s | _ => py_repr v end.
End Repr.
