(* ===== verification/PyConv.v ===== *)
(** * [bool()], [int()] and [dict()] of the values that JSON loads into *)
From Stdlib Require Import SpecFloat Ascii String.
From S2P Require Import Prelude Json JsonText PyStr.

(** ** [bool(v)] *)

Definition truthy (v : json) : bool :=
  match v with
  | JNull => false
  | JBool b => b
  | JInt z => negb (z =? 0)
  | JFloat (S754_zero _) => false
  | JFloat _ => true
  | JStr s => negb (String.eqb s "")
  | JArr l => negb (bool_decide (length l = 0%nat))
  | JObj m => negb (bool_decide (length m = 0%nat))
  end.

(** ** [int(v)] *)

Section Int.
Context `{Unicode}.

(** A run of decimal digits of any script, single underscores between them; the
    digits as ASCII. *)
Definition digit_value (cp : N) : option N :=
  if (48 <=? cp)%N && (cp <=? 57)%N then Some (cp - 48)%N else if (128 <=? cp)%N then decimal cp else None.
Fixpoint digit_run (after_digit : bool) (cps : list N) : option string :=
  match cps with
  | [] => if after_digit then Some ""%string else None
  | cp :: rest =>
      if after_digit && (cp =? 95)%N then digit_run false rest
      else d ← digit_value cp; s ← digit_run true rest; Some (String (digit_char d) s)
  end.

Definition int_literal (cps : list N) : option string :=
  match cps with
  | 45%N :: rest => s ← digit_run false rest; Some (String "-" s)
  | 43%N :: rest => digit_run false rest
  | _ => digit_run false cps
  end.

(** [int(f)] truncates. *)
Definition truncate (f : spec_float) : res Z :=
  match num_of_float f with
  | NNaN => Raise (ValueError "cannot convert float NaN to integer")
  | NInf _ => Raise (OverflowError "cannot convert float infinity to integer")
  | NDyadic m e => Ok (if 0 <=? e then m * 2 ^ e else Z.quot m (2 ^ (- e)))
  end.

Definition as_int (v : json) : res Z :=
  match v with
  | JInt z => Ok z
  | JBool b => Ok (if b then 1 else 0)
  | JFloat f => truncate f
  | JStr s =>
      match int_literal (ords (strip s)) with
      | Some token => py_int token
      | None => Raise (ValueError ("invalid literal for int() with base 10: " +:+ repr_str s))
      end
  | _ => Raise (TypeError "int() argument must be a string, a bytes-like object or a real number")
  end.
End Int.

(** ** [dict(v)] *)

(** The items that [iter(v)] gives. *)
Definition iterate (v : json) : res (list json) :=
  match v with
  | JArr l => Ok l
  | JObj m => Ok (map (fun p => JStr (fst p)) m)
  | JStr s => Ok (map (fun cp => JStr (utf8_encode cp)) (ords s))
  | _ => Raise (TypeError "object is not iterable")
  end.

Definition hashable (v : json) : bool := match v with JArr _ | JObj _ => false | _ => true end.

Fixpoint set_item (k v : json) (d : list (json * json)) : list (json * json) :=
  match d with
  | [] => [(k, v)]
  | (k', v') :: d' => if py_eq k k' then (k', v) :: d' else (k', v') :: set_item k v d'
  end.

Definition add_pair (d : list (json * json)) (pair : json) : res (list (json * json)) :=
  l ← iterate pair;
  match l with
  | [k; v] => if hashable k then Ok (set_item k v d) else Raise (TypeError "unhashable type")
  | _ => Raise (ValueError "dictionary update sequence element has the wrong length; 2 is required")
  end.

Definition py_dict (v : json) : res (list (json * json)) :=
  match v with
  | JObj m => Ok (map (fun p => (JStr (fst p), snd p)) m)
  | _ => l ← iterate v; res_foldM add_pair [] l
  end.

(** The entries whose keys are texts, the only ones a lookup by name can meet. *)
Definition named_entries (d : list (json * json)) : list (string * json) :=
  omap (fun q => match fst q with JStr k => Some (k, snd q) | _ => None end) d.
