(* ===== verification/TextFacts.v ===== *)
(** * Facts on text: ASCII, lines, and the layout of what [json.dumps] writes

    ** Texts and their UTF-8 bytes: lemmas

    Encoding inverts decoding, so a concatenation of texts is a text; and what
    [open(path).read()] gives reads back as itself. *)
From Stdlib Require Import Ascii String.
From S2P Require Import Prelude Sha256 Json JsonText JsonFacts JsonAscii PyStr.

(** ** ASCII *)

(** Printable ASCII. *)
Definition printable_char (c : ascii) : bool := (32 <=? byte_n c)%N && (byte_n c <=? 126)%N.
Definition printable (s : string) : bool := string_forallb printable_char s.

Definition ascii_char (c : ascii) : bool := (byte_n c <? 128)%N.
Definition bytes (s : string) : list N := map byte_n (list_ascii_of_string s).

Lemma bytes_app a b : bytes (a +:+ b) = bytes a ++ bytes b.
Proof. unfold bytes. induction a as [|c a IH]; simpl; [done|]. by f_equal. Qed.

Lemma ascii_ords s : string_forallb ascii_char s = true -> ords s = bytes s.
Proof.
  unfold ords, bytes. induction s as [|c s IH]; [done|].
  cbn [string_forallb String.length code_points list_ascii_of_string map].
  intros [Hc Hs]%andb_prop. unfold ascii_char in Hc. rewrite Hc. f_equal. auto.
Qed.

Lemma chr_byte c : chr_n (byte_n c) = c.
Proof. apply ascii_N_embedding. Qed.

Lemma ascii_encode s : string_forallb ascii_char s = true -> utf8_encode_all (bytes s) = s.
Proof.
  unfold bytes. induction s as [|c s IH]; [done|].
  cbn [string_forallb list_ascii_of_string map]. intros [Hc Hs]%andb_prop.
  cbn [utf8_encode_all foldr]. unfold utf8_encode at 1. unfold ascii_char in Hc. rewrite Hc, chr_byte.
  cbn [String.append]. f_equal. by apply IH.
Qed.

Lemma ascii_valid pass s : string_forallb ascii_char s = true -> utf8_valid_with pass (String.length s) s = true.
Proof.
  induction s as [|c s IH]; [done|]. cbn [string_forallb]. intros [Hc Hs]%andb_prop.
  cbn [String.length utf8_valid_with]. unfold ascii_char in Hc. rewrite Hc. auto.
Qed.

Lemma ascii_utf8 s : string_forallb ascii_char s = true -> decode_utf8 s = Ok s.
Proof. intros Hs. unfold decode_utf8. by rewrite ascii_valid. Qed.

Lemma printable_ascii s : printable s = true -> string_forallb ascii_char s = true.
Proof.
  unfold printable. induction s as [|c s IH]; [done|]. cbn [string_forallb].
  intros [Hc Hs]%andb_prop. rewrite IH by done. apply andb_prop in Hc as [_ Hc%N.leb_le].
  unfold ascii_char. apply andb_true_iff. split; [apply N.ltb_lt; lia|done].
Qed.

Lemma printable_app a b : printable (a +:+ b) = printable a && printable b.
Proof. apply string_forallb_app. Qed.

(** ** Lines *)

Definition lf : string := String (chr_n 10) "".
Fixpoint text_of_lines (lines : list string) : string :=
  match lines with [] => "" | line :: rest => line +:+ lf +:+ text_of_lines rest end.

Lemma text_of_lines_app a b : text_of_lines (a ++ b) = text_of_lines a +:+ text_of_lines b.
Proof. induction a as [|line a IH]; [done|]. cbn [text_of_lines app]. by rewrite IH, !sapp_assoc. Qed.

Lemma lines_ascii lines :
  Forall (fun l => printable l = true) lines -> string_forallb ascii_char (text_of_lines lines) = true.
Proof.
  induction 1 as [|line lines Hl Hls IH]; [done|]. cbn [text_of_lines].
  rewrite !string_forallb_app, printable_ascii by done. exact IH.
Qed.

Lemma printable_newlines s : printable s = true -> forall rest,
  universal_newlines (s +:+ rest) = s +:+ universal_newlines rest.
Proof.
  unfold printable. induction s as [|c s IH]; [done|]. cbn [string_forallb]. intros [Hc Hs]%andb_prop rest.
  cbn [String.append universal_newlines]. rewrite IH by done.
  destruct (Ascii.eqb_spec c (chr_n 13)) as [->|]; [done|]. done.
Qed.

Lemma lines_newlines lines :
  Forall (fun l => printable l = true) lines -> universal_newlines (text_of_lines lines) = text_of_lines lines.
Proof.
  induction 1 as [|line lines Hl Hls IH]; [done|]. cbn [text_of_lines].
  rewrite printable_newlines by done. unfold lf. cbn [String.append universal_newlines].
  change (Ascii.eqb (chr_n 10) (chr_n 13)) with false. cbn iota. by rewrite IH.
Qed.

Lemma no_boundary line acc rest :
  printable line = true ->
  str_lines_from acc (bytes line ++ 10%N :: rest)
  = utf8_encode_all (rev acc ++ bytes line) :: str_lines_from [] rest.
Proof.
  unfold printable, bytes. revert acc. induction line as [|c line IH]; intros acc.
  - intros _. cbn. by rewrite app_nil_r.
  - cbn [string_forallb list_ascii_of_string map app]. intros [Hc Hs]%andb_prop. cbn [str_lines_from].
    assert (is_line_boundary (byte_n c) = false) as ->.
    { unfold printable_char in Hc. apply andb_prop in Hc as [H1%N.leb_le H2%N.leb_le]. unfold is_line_boundary.
      repeat (apply orb_false_iff; split);
        first [apply N.eqb_neq; lia | apply andb_false_iff; right; apply N.leb_gt; lia
              | apply andb_false_iff; left; apply N.leb_gt; lia]. }
    rewrite IH by done. cbn [rev]. by rewrite <- app_assoc.
Qed.

Lemma splitlines_lines lines :
  Forall (fun l => printable l = true) lines -> str_splitlines (text_of_lines lines) = lines.
Proof.
  intros Hl. unfold str_splitlines. rewrite ascii_ords by (by apply lines_ascii).
  induction Hl as [|line lines Hl Hls IH]; [done|]. cbn [text_of_lines].
  rewrite !bytes_app. cbn [bytes lf list_ascii_of_string map app].
  change (byte_n (chr_n 10)) with 10%N.
  rewrite no_boundary by done. cbn [rev app]. rewrite ascii_encode by (by apply printable_ascii). by rewrite IH.
Qed.

Lemma read_lines lines :
  Forall (fun l => printable l = true) lines -> read_text (text_of_lines lines) = Ok (text_of_lines lines).
Proof.
  intros Hl. unfold read_text. rewrite ascii_utf8 by (by apply lines_ascii). cbn.
  by rewrite lines_newlines.
Qed.

(** ** [strip] *)

Lemma drop_spaces_stops (l : list N) (x : N) (r : list N) :
  is_space x = false -> exists l', drop_spaces (l ++ x :: r) = l' ++ x :: r.
Proof.
  intros Hx. induction l as [|y l (l' & IH)]; cbn [app drop_spaces].
  - rewrite Hx. by exists [].
  - destruct (is_space y); [eauto|]. by exists (y :: l).
Qed.

Lemma strip_nonempty (s : string) (x : N) (cps : list N) :
  ords s = x :: cps -> is_space x = false -> strip s <> ""%string.
Proof.
  intros E Hx. unfold strip. rewrite E. cbn [drop_spaces]. rewrite Hx. cbn [rev].
  destruct (drop_spaces_stops (rev cps) x [] Hx) as (l' & ->). rewrite rev_app_distr. cbn [rev app].
  cbn [utf8_encode_all foldr]. unfold utf8_encode at 1.
  repeat match goal with |- context [N.ltb ?a ?b] => destruct (N.ltb a b) end; done.
Qed.

(** ** The text of [json.dumps] *)

Lemma hex_digit_printable (n : N) : (n < 16)%N -> printable_char (hex_digit n) = true.
Proof.
  intros H.
  assert (E : forallb (fun k => printable_char (hex_digit (N.of_nat k))) (seq 0 16) = true) by (vm_compute; done).
  rewrite forallb_forall in E. specialize (E (N.to_nat n)). rewrite N2Nat.id in E. apply E, in_seq. lia.
Qed.

Lemma u_escape_printable (cp : N) : printable (u_escape cp) = true.
Proof.
  unfold printable, u_escape. cbn -[hex_digit N.land N.shiftr printable_char]. rewrite !land_15.
  rewrite !hex_digit_printable by (apply N.mod_lt; lia). done.
Qed.

Lemma escape_printable (cp : N) : printable (escape_ascii cp) = true.
Proof.
  unfold escape_ascii.
  repeat match goal with |- context [if (cp =? ?k)%N then _ else _] => destruct (cp =? k)%N; [done|] end.
  destruct ((32 <=? cp)%N && (cp <=? 126)%N) eqn:E.
  - unfold printable. cbn [string_forallb]. unfold printable_char, byte_n, chr_n.
    pose proof E as E'. apply andb_prop in E' as [H1%N.leb_le H2%N.leb_le].
    rewrite N_ascii_embedding by lia. by rewrite E.
  - destruct (cp <? 65536)%N; [apply u_escape_printable|]. by rewrite printable_app, !u_escape_printable.
Qed.

Lemma dump_str_printable (s : string) : printable (dump_str s) = true.
Proof.
  unfold dump_str. rewrite printable_app. change (printable quote) with true. cbn [andb].
  induction (ords s) as [|cp l IH]; [done|]. cbn [foldr]. by rewrite printable_app, escape_printable, IH.
Qed.

Lemma str_of_Z_printable (z : Z) : printable (str_of_Z z) = true.
Proof.
  assert (Hd : forall s, string_forallb is_digit s = true -> printable s = true).
  { intros s. unfold printable. induction s as [|c s IH]; [done|]. cbn [string_forallb].
    intros [Hc Hs]%andb_prop. rewrite (IH Hs), andb_true_r.
    destruct c as [[] [] [] [] [] [] [] []]; done. }
  unfold str_of_Z. destruct (z <? 0).
  - destruct (str_of_N_spec (Z.to_N (- z))) as [[H _ _] _].
    change (String "-" ?s) with ("-" +:+ s). by rewrite printable_app, (Hd _ H).
  - destruct (str_of_N_spec (Z.to_N z)) as [[H _ _] _]. by apply Hd.
Qed.

Section Separators.
Variables item key : string.
Hypothesis Hitem : printable item = true.
Hypothesis Hkey : printable key = true.

Lemma join_printable (l : list string) :
  Forall (fun s => printable s = true) l -> printable (join item l) = true.
Proof.
  unfold join. induction 1 as [|s l Hs Hl IH]; [done|]. cbn [String.concat].
  destruct l; [done|]. by rewrite !printable_app, Hs, Hitem, IH.
Qed.

Lemma dumps_with_printable (v : json) : readable v = true -> printable (dumps_with true item key v) = true.
Proof.
  induction v as [|b|z|f|s|l IH|m IH] using json_ind'; cbn [readable dumps_with]; intros H.
  - done.
  - by destruct b.
  - apply str_of_Z_printable.
  - done.
  - apply dump_str_printable.
  - rewrite !printable_app, join_printable; [done|]. rewrite forallb_forall in H.
    apply List.Forall_map. rewrite Forall_forall in IH. apply List.Forall_forall. intros x Hx.
    apply IH; [by apply list_elem_of_In|auto].
  - apply andb_prop in H as [H _]. rewrite !printable_app, join_printable; [done|].
    apply List.Forall_map. rewrite forallb_forall in H. rewrite Forall_forall in IH.
    apply Forall_forall. intros q Hq. rewrite sorted_items_perm in Hq.
    apply list_elem_of_In, in_map_iff in Hq as (p & <- & Hp). cbn [fst snd].
    pose proof (H p Hp) as Hr. apply andb_prop in Hr as [_ Hr].
    rewrite !printable_app, dump_str_printable, Hkey, IH; [done|by apply list_elem_of_In|done].
Qed.
End Separators.

Lemma dumps_printable (v : json) : readable v = true -> printable (json_dumps v) = true.
Proof. by apply dumps_with_printable. Qed.

(** Sorting before does not change the text, so neither does it the digest. *)
Lemma dumps_sort (v : json) : json_dumps (sort_json v) = json_dumps v.
Proof.
  unfold json_dumps. induction v as [|b|z|f|s|l IH|m IH] using json_ind'; cbn [sort_json dumps_with]; try done.
  - do 2 f_equal. f_equal. rewrite map_map. apply map_ext_in. intros x Hx. rewrite Forall_forall in IH.
    apply IH. by apply list_elem_of_In.
  - do 2 f_equal. f_equal. f_equal.
    rewrite (sorted_items_map (fun _ v => dumps_with true "," ":" v) (sorted_items _)), sorted_items_idem.
    rewrite (sorted_items_map (fun _ v => dumps_with true "," ":" v) m).
    rewrite (sorted_items_map (fun _ v => sort_json v) m), map_map. apply map_ext_in.
    intros p Hp. cbn [fst snd]. f_equal. rewrite Forall_forall in IH. apply IH.
    rewrite <- sorted_items_perm. by apply list_elem_of_In.
Qed.

Lemma sort_json_idem (v : json) : sort_json (sort_json v) = sort_json v.
Proof.
  induction v as [|b|z|f|s|l IH|m IH] using json_ind'; cbn [sort_json]; try done.
  - f_equal. rewrite map_map. apply map_ext_in. intros x Hx. rewrite Forall_forall in IH.
    apply IH. by apply list_elem_of_In.
  - f_equal. rewrite (sorted_items_map (fun _ v => sort_json v) (sorted_items _)), sorted_items_idem.
    rewrite (sorted_items_map (fun _ v => sort_json v) m), map_map. apply map_ext_in.
    intros p Hp. cbn [fst snd]. f_equal. rewrite Forall_forall in IH. apply IH.
    rewrite <- sorted_items_perm. by apply list_elem_of_In.
Qed.

(** ** Text of several lines *)

Definition document_char (c : ascii) : bool := printable_char c || Ascii.eqb c (chr_n 10).
Definition document (s : string) : bool := string_forallb document_char s.

Lemma document_app a b : document (a +:+ b) = document a && document b.
Proof. apply string_forallb_app. Qed.

Lemma printable_document s : printable s = true -> document s = true.
Proof.
  unfold printable, document. induction s as [|c s IH]; [done|]. cbn [string_forallb].
  intros [Hc Hs]%andb_prop. unfold document_char at 1. rewrite Hc. cbn [orb andb]. auto.
Qed.

Lemma read_document s : document s = true -> read_text s = Ok s.
Proof.
  intros Hs. unfold read_text. rewrite ascii_utf8.
  - cbn [mbind res_bind]. f_equal. unfold document in Hs. induction s as [|c s IH]; [done|].
    cbn [string_forallb universal_newlines] in *. apply andb_prop in Hs as [Hc Hs]. rewrite IH by done.
    destruct (Ascii.eqb_spec c (chr_n 13)) as [->|]; done.
  - unfold document in Hs. induction s as [|c s IH]; [done|]. cbn [string_forallb] in *.
    apply andb_prop in Hs as [Hc Hs]. rewrite IH by done. rewrite andb_true_r. unfold ascii_char.
    apply orb_prop in Hc as [Hc|Hc%Ascii.eqb_eq]; [|by subst].
    apply andb_prop in Hc as [_ Hc%N.leb_le]. apply N.ltb_lt. lia.
Qed.

(** ** Texts of digests *)

Lemma ascii_text s : string_forallb ascii_char s = true -> is_text s = true.
Proof.
  intros Hs. unfold is_text. rewrite ascii_ords, ascii_encode, String.eqb_refl, andb_true_r by done.
  unfold bytes. induction s as [|c s IH]; [done|]. cbn [string_forallb list_ascii_of_string map forallb] in *.
  apply andb_prop in Hs as [Hc Hs]. rewrite IH, andb_true_r by done. unfold ascii_char in Hc. unfold scalar, is_surrogate.
  apply N.ltb_lt in Hc. destruct (N.leb_spec 55296 (byte_n c)); [lia|]. cbn. apply N.ltb_lt. lia.
Qed.

Lemma hex_text s : forallb is_hex_digit (list_ascii_of_string s) = true -> string_forallb ascii_char s = true.
Proof.
  induction s as [|c s IH]; [done|]. cbn [list_ascii_of_string forallb string_forallb]. intros [Hc Hs]%andb_prop.
  rewrite IH, andb_true_r by done. unfold is_hex_digit in Hc. unfold ascii_char, byte_n.
  apply N.ltb_lt. apply orb_true_iff in Hc as [[_ Hc]%andb_prop|[_ Hc]%andb_prop]; apply N.leb_le in Hc; lia.
Qed.

Lemma sha256_digest_text payload : is_text (sha256_digest payload) = true.
Proof.
  apply ascii_text. unfold sha256_digest. rewrite string_forallb_app. apply hex_text.
  apply (sha256_hexdigest_shape payload).
Qed.

Lemma readable_members (m : list (string * json)) :
  NoDup (map fst m) -> Forall (fun p => is_text (fst p) = true /\ readable (snd p) = true) m -> readable (JObj m) = true.
Proof.
  intros Hn Hm. cbn [readable]. rewrite bool_decide_true, andb_true_r by done. apply forallb_forall.
  intros p Hp. rewrite Forall_forall in Hm. apply list_elem_of_In, Hm in Hp as [-> ->]. done.
Qed.

(** The text that is written identifies the value: [json.loads] gives back
    what [json.dumps] wrote with its members in order, so two values have the
    same text exactly when they differ by the order of members only. *)
Theorem text_identifies_value (v w : json) :
  readable v = true -> readable w = true ->
  json_loads default_hooks (json_dumps v) = Ok (sort_json v) /\ (json_dumps v = json_dumps w <-> sort_json v = sort_json w).
Proof.
  intros Hv Hw. split; [by apply loads_dumps|]. split; intros E.
  - assert (Ok (sort_json v) = Ok (sort_json w)) as Es by (rewrite <- !loads_dumps by done; by rewrite E).
    by injection Es.
  - by rewrite <- (dumps_sort v), E, dumps_sort.
Qed.

Lemma text_identifies_value_witness :
  let v := JObj [("b", JInt 1); ("a", JArr [JStr "x"; JNull])]%string in
  let w := JObj [("a", JArr [JStr "x"; JNull]); ("b", JInt 1)]%string in
  readable v = true /\ v <> w /\ json_dumps v = json_dumps w.
Proof.
  cbv zeta. split; [vm_compute; reflexivity|]. split; [discriminate|].
  apply (text_identifies_value (JObj [("b", JInt 1); ("a", JArr [JStr "x"; JNull])]%string)
           (JObj [("a", JArr [JStr "x"; JNull]); ("b", JInt 1)]%string)); vm_compute; reflexivity.
Defined.

(** * Texts and their UTF-8 bytes: lemmas *)

(** ** Encoding and decoding *)

Lemma byte_chr n : (n < 256)%N -> byte_n (chr_n n) = n.
Proof. apply N_ascii_embedding. Qed.

Lemma shift_or (x y k : N) : (y < 2 ^ k)%N -> N.lor (N.shiftl x k) y = (x * 2 ^ k + y)%N.
Proof.
  intros Hy. rewrite N.shiftl_mul_pow2.
  assert (Hl : N.land (x * 2 ^ k) y = 0%N).
  { apply N.bits_inj_0. intros n. rewrite N.land_spec. destruct (N.lt_ge_cases n k) as [Hn|Hn].
    - by rewrite N.mul_pow2_bits_low.
    - destruct (decide (y = 0%N)) as [->|Hy0]; [by rewrite N.bits_0, andb_false_r|].
      rewrite (N.bits_above_log2 y), andb_false_r; [done|]. apply N.log2_lt_pow2 in Hy; lia. }
  by rewrite <- N.lxor_lor, <- N.add_nocarry_lxor.
Qed.

Lemma lead_two x : (x < 32)%N -> N.lor 192 x = (192 + x)%N.
Proof. intros H. exact (shift_or 6 x 5 H). Qed.
Lemma lead_three x : (x < 16)%N -> N.lor 224 x = (224 + x)%N.
Proof. intros H. exact (shift_or 14 x 4 H). Qed.
Lemma lead_four x : (x < 8)%N -> N.lor 240 x = (240 + x)%N.
Proof. intros H. exact (shift_or 30 x 3 H). Qed.
Lemma trail x : N.lor 128 (N.land x 63) = (128 + x mod 64)%N.
Proof.
  change 63%N with (N.ones 6). rewrite N.land_ones. apply (shift_or 2 _ 6), N.mod_lt. done.
Qed.
Lemma low k m x : m = N.ones k -> N.land x m = (x mod 2 ^ k)%N.
Proof. intros ->. apply N.land_ones. Qed.

Ltac by_division := zify; Z.to_euclidean_division_equations; lia.
Lemma decode_one f cp s : (cp < 1114112)%N -> code_points (S f) (utf8_encode cp +:+ s) = cp :: code_points f s.
Proof.
  intros H. unfold utf8_encode.
  destruct (N.ltb_spec cp 128) as [H1|H1]; [|destruct (N.ltb_spec cp 2048) as [H2|H2];
    [|destruct (N.ltb_spec cp 65536) as [H3|H3]]]; cbn [String.append code_points].
  - rewrite byte_chr by lia. destruct (N.ltb_spec cp 128); [done|lia].
  - rewrite !trail. rewrite N.shiftr_div_pow2. change (2 ^ 6)%N with 64%N.
    assert (cp / 64 < 32)%N by (apply N.Div0.div_lt_upper_bound; lia).
    pose proof (N.mod_lt cp 64 ltac:(done)). rewrite lead_two by done. rewrite !byte_chr by lia.
    pose proof (N.le_add_r 192 (cp / 64)).
    destruct (N.ltb_spec (192 + cp / 64) 128); [lia|]. destruct (N.ltb_spec (192 + cp / 64) 224); [|lia].
    f_equal. rewrite (low 6 63), (low 5 31) by done. rewrite shift_or by (apply N.mod_lt; done).
    change (2 ^ 5)%N with 32%N. change (2 ^ 6)%N with 64%N. by_division.
  - rewrite !trail. rewrite !N.shiftr_div_pow2. change (2 ^ 6)%N with 64%N. change (2 ^ 12)%N with 4096%N.
    assert (cp / 4096 < 16)%N by (apply N.Div0.div_lt_upper_bound; lia).
    pose proof (N.mod_lt cp 64 ltac:(done)). pose proof (N.mod_lt (cp / 64) 64 ltac:(done)).
    rewrite lead_three by done. rewrite !byte_chr by lia.
    pose proof (N.le_add_r 224 (cp / 4096)).
    destruct (N.ltb_spec (224 + cp / 4096) 128); [lia|]. destruct (N.ltb_spec (224 + cp / 4096) 224); [lia|].
    destruct (N.ltb_spec (224 + cp / 4096) 240); [|lia].
    f_equal. rewrite !(low 6 63), (low 4 15) by done. change (2 ^ 6)%N with 64%N. change (2 ^ 4)%N with 16%N.
    rewrite (shift_or _ _ 6) by (apply N.mod_lt; done). change (2 ^ 6)%N with 64%N.
    rewrite shift_or by (change (2 ^ 12)%N with 4096%N; by_division). change (2 ^ 12)%N with 4096%N. by_division.
  - rewrite !trail. rewrite !N.shiftr_div_pow2.
    change (2 ^ 6)%N with 64%N. change (2 ^ 12)%N with 4096%N. change (2 ^ 18)%N with 262144%N.
    assert (cp / 262144 < 5)%N by (apply N.Div0.div_lt_upper_bound; lia).
    pose proof (N.mod_lt cp 64 ltac:(done)). pose proof (N.mod_lt (cp / 64) 64 ltac:(done)).
    pose proof (N.mod_lt (cp / 4096) 64 ltac:(done)).
    rewrite lead_four by lia. rewrite !byte_chr by lia.
    pose proof (N.le_add_r 240 (cp / 262144)).
    destruct (N.ltb_spec (240 + cp / 262144) 128); [lia|]. destruct (N.ltb_spec (240 + cp / 262144) 224); [lia|].
    destruct (N.ltb_spec (240 + cp / 262144) 240); [lia|].
    f_equal. rewrite !(low 6 63), (low 3 7) by done. change (2 ^ 6)%N with 64%N. change (2 ^ 3)%N with 8%N.
    rewrite (shift_or _ _ 6) by (apply N.mod_lt; done). change (2 ^ 6)%N with 64%N.
    rewrite (shift_or _ _ 12) by (change (2 ^ 12)%N with 4096%N; by_division). change (2 ^ 12)%N with 4096%N.
    rewrite shift_or by (change (2 ^ 18)%N with 262144%N; by_division). change (2 ^ 18)%N with 262144%N. by_division.
Qed.

Lemma decode_all cps f : forallb scalar cps = true -> (List.length cps <= f)%nat -> code_points f (utf8_encode_all cps) = cps.
Proof.
  revert f. induction cps as [|cp cps IH]; intros f Hs Hf; [by destruct f|].
  cbn [forallb List.length utf8_encode_all foldr] in *. apply andb_prop in Hs as [Hc Hs]. destruct f as [|f]; [lia|].
  apply andb_prop in Hc as [_ Hc%N.ltb_lt]. rewrite decode_one by done. f_equal. apply IH; [done|lia].
Qed.

Lemma encode_length cps : (List.length cps <= String.length (utf8_encode_all cps))%nat.
Proof.
  induction cps as [|cp cps IH]; [done|]. cbn [List.length utf8_encode_all foldr]. rewrite sapp_length.
  assert (0 < String.length (utf8_encode cp))%nat.
  { unfold utf8_encode. destruct (_ <? _)%N; [|destruct (_ <? _)%N; [|destruct (_ <? _)%N]]; cbn; lia. }
  unfold utf8_encode_all in IH. lia.
Qed.

Lemma ords_encode cps : forallb scalar cps = true -> ords (utf8_encode_all cps) = cps.
Proof. intros H. apply decode_all; [done|apply encode_length]. Qed.

Lemma encode_app a b : utf8_encode_all (a ++ b) = utf8_encode_all a +:+ utf8_encode_all b.
Proof. unfold utf8_encode_all. induction a as [|x a IH]; [done|]. cbn [app foldr]. by rewrite IH, sapp_assoc. Qed.

Lemma is_text_encode cps : forallb scalar cps = true -> is_text (utf8_encode_all cps) = true.
Proof. intros H. unfold is_text. by rewrite ords_encode, H, String.eqb_refl. Qed.

Lemma is_text_app a b : is_text a = true -> is_text b = true -> is_text (a +:+ b) = true.
Proof.
  unfold is_text at 1 2. intros [Ha Ea%String.eqb_eq]%andb_prop [Hb Eb%String.eqb_eq]%andb_prop.
  rewrite <- Ea, <- Eb, <- encode_app. apply is_text_encode. by rewrite forallb_app, Ha, Hb.
Qed.

Lemma is_text_join sep l : is_text sep = true -> Forall (fun s => is_text s = true) l -> is_text (join sep l) = true.
Proof.
  intros Hs. unfold join. induction 1 as [|s l Hl Hls IH]; [done|]. cbn [String.concat].
  destruct l; [done|]. apply is_text_app; [done|by apply is_text_app].
Qed.

(** ** Reading what was read *)

Lemma valid_more pass f g s : utf8_valid_with pass f s = true -> (f <= g)%nat -> utf8_valid_with pass g s = true.
Proof.
  revert g s. induction f as [|f IH]; intros g s H Hg; [by destruct s, g|].
  destruct g as [|g]; [lia|]. destruct s as [|c s]; [done|]. cbn [utf8_valid_with] in *.
  repeat (case_match; try done); bool_simp; rewrite ?andb_true_iff; split_and?; try done;
    try (eapply IH; [done|lia]).
Qed.

Lemma valid_length pass f s : utf8_valid_with pass f s = true -> utf8_valid_with pass (String.length s) s = true.
Proof.
  revert s. induction f as [|f IH]; intros s H; [by destruct s|]. destruct s as [|c s]; [done|].
  cbn [String.length utf8_valid_with] in *. repeat (case_match; try done); bool_simp; rewrite ?andb_true_iff;
    split_and?; try done; subst; cbn [String.length]; try (by apply IH);
    (eapply valid_more; [by apply IH|cbn [String.length]; lia]).
Qed.

Lemma cont_not_cr c : is_cont c = true -> Ascii.eqb c (chr_n 13) = false.
Proof. destruct c as [[] [] [] [] [] [] [] []]; done. Qed.
Lemma high_not_cr c : (byte_n c <? 128)%N = false -> Ascii.eqb c (chr_n 13) = false.
Proof. destruct c as [[] [] [] [] [] [] [] []]; done. Qed.

Lemma newlines_valid f s : utf8_valid_with false f s = true -> utf8_valid_with false f (universal_newlines s) = true.
Proof.
  revert s. induction f as [f IH] using lt_wf_ind. intros s H. destruct f as [|f]; [by destruct s|].
  destruct s as [|c s]; [done|]. cbn [universal_newlines]. destruct (Ascii.eqb c (chr_n 13)) eqn:Ec.
  - apply Ascii.eqb_eq in Ec as ->. cbn [utf8_valid_with] in H |- *.
    change (byte_n (chr_n 13) <? 128)%N with true in H. change (byte_n (chr_n 10) <? 128)%N with true. cbv iota in *.
    destruct s as [|d s]; [by destruct f|]. destruct (Ascii.eqb d (chr_n 10)) eqn:Ed; [|apply IH; [lia|done]].
    apply Ascii.eqb_eq in Ed as ->. destruct f as [|f]; [done|]. cbn [utf8_valid_with] in H.
    change (byte_n (chr_n 10) <? 128)%N with true in H. cbv iota in H.
    apply (valid_more _ f); [|lia]. apply IH; [lia|done].
  - cbn [utf8_valid_with] in *. destruct (byte_n c <? 128)%N; [apply IH; [lia|done]|].
    destruct (byte_n c <? 194)%N; [done|]. destruct (byte_n c <? 224)%N; [|destruct (byte_n c <? 240)%N].
    + destruct s as [|c1 s]; [done|]. apply andb_prop in H as [H1 H].
      cbn [universal_newlines]. rewrite cont_not_cr by done. rewrite H1. apply IH; [lia|done].
    + destruct s as [|c1 [|c2 s]]; [done..|]. bool_simp. cbn [universal_newlines]. rewrite !cont_not_cr by done.
      rewrite ?andb_true_iff. split_and?; try done. apply IH; [lia|done].
    + destruct s as [|c1 [|c2 [|c3 s]]]; [done..|]. bool_simp. cbn [universal_newlines]. rewrite !cont_not_cr by done.
      rewrite ?andb_true_iff. split_and?; try done. apply IH; [lia|done].
Qed.

Lemma newlines_id s : universal_newlines (universal_newlines s) = universal_newlines s.
Proof.
  remember (String.length s) as n eqn:En. revert s En. induction n as [n IH] using lt_wf_ind. intros s ->.
  destruct s as [|c s]; [done|]. cbn [universal_newlines]. destruct (Ascii.eqb c (chr_n 13)) eqn:Ec.
  - cbn [universal_newlines]. change (Ascii.eqb (chr_n 10) (chr_n 13)) with false. cbv iota. f_equal.
    destruct s as [|d s]; [done|]. destruct (Ascii.eqb d (chr_n 10)); eapply IH; [|done| |done]; cbn; lia.
  - cbn [universal_newlines]. rewrite Ec. f_equal. eapply IH; [|done]. cbn; lia.
Qed.

Lemma read_text_again b t : read_text b = Ok t -> read_text t = Ok t.
Proof.
  unfold read_text, decode_utf8. destruct (utf8_valid _ b) eqn:E; [|done]. cbn. intros [= <-].
  by rewrite (valid_length _ (String.length b)) by (by apply newlines_valid); cbn; rewrite newlines_id.
Qed.
