(* ===== verification/JsonIndent.v ===== *)
(** * Indented JSON documents

    [json.dumps(value, indent=2)], with the members sorted by name or in the order
    of the dict, and what reads back from it. *)
From Stdlib Require Import Ascii String.
From S2P Require Import Prelude Json JsonText JsonFacts JsonAscii PyStr TextFacts.

Definition eol : string := String (chr_n 10) "".
Fixpoint spaces (n : nat) : string := match n with O => "" | S n' => String " " (spaces n') end.

(** The items of a container, one a line. *)
Definition indented (depth : nat) (left right : string) (members : list string) : string :=
  match members with
  | [] => left +:+ right
  | _ => let separator := eol +:+ spaces (2 * S depth) in
         left +:+ separator +:+ join ("," +:+ separator) members
         +:+ eol +:+ spaces (2 * depth) +:+ right
  end.

Section Indented.
Variable sort_keys : bool.

Definition in_order {V} (m : list (string * V)) : list (string * V) := if sort_keys then sorted_items m else m.

Fixpoint dumps_indented (depth : nat) (v : json) : string :=
  match v with
  | JNull => "null"
  | JBool b => if b then "true" else "false"
  | JInt z => str_of_Z z
  | JFloat f => dump_float f
  | JStr s => dump_str s
  | JArr l => indented depth "[" "]" (map (dumps_indented (S depth)) l)
  | JObj m =>
      let members := map (fun p => (fst p, dumps_indented (S depth) (snd p))) m in
      indented depth "{" "}" (map (fun p => dump_str (fst p) +:+ ": " +:+ snd p) (in_order members))
  end.

(** The value that reads back: its members are in the order of the text. *)
Definition read_order (v : json) : json := if sort_keys then sort_json v else v.
End Indented.

(** What [atomic_write_json] writes. *)
Definition json_document (v : json) : string := dumps_indented true 0 v +:+ eol.

(** ** Reading it back *)

Lemma spaces_blank n : blank (spaces n) = true.
Proof. unfold blank. by induction n. Qed.
Lemma spaces_document n : document (spaces n) = true.
Proof. unfold document. by induction n. Qed.

Definition line_break (depth : nat) : string := eol +:+ spaces (2 * depth).
Lemma line_break_blank depth : blank (line_break depth) = true.
Proof. unfold line_break. pose proof (spaces_blank (2 * depth)). unfold blank in *. by rewrite string_forallb_app. Qed.
Lemma line_break_document depth : document (line_break depth) = true.
Proof. unfold line_break. by rewrite document_app, spaces_document. Qed.

Lemma indented_body depth left_ right_ members :
  members <> [] ->
  indented depth left_ right_ members
  = left_ +:+ line_break (S depth) +:+ body_text (line_break (S depth)) members +:+ line_break depth +:+ right_.
Proof.
  intros Hne. unfold indented, body_text, line_break. destruct members as [|x xs]; [done|].
  rewrite !sapp_assoc. done.
Qed.

Lemma in_order_perm {V} s (m : list (string * V)) : in_order s m ≡ₚ m.
Proof. destruct s; [apply sorted_items_perm|done]. Qed.
Lemma in_order_nil {V} s (m : list (string * V)) : in_order s m = [] -> m = [].
Proof. intros E. apply Permutation_nil. by rewrite <- E, in_order_perm. Qed.

(** The members of an object, each printed by [f] and read as [g] says. *)
Lemma members_read s (f : json -> string) (g : json -> json) (m : list (string * json)) :
  Forall (fun p => readable (snd p) = true -> reads (f (snd p)) (g (snd p))) m ->
  forallb (fun p => is_text (fst p) && readable (snd p)) m = true ->
  Forall2 member_reads (in_order s (map (fun p => (fst p, f (snd p))) m))
    (in_order s (map (fun p => (fst p, g (snd p))) m)).
Proof.
  destruct s; [apply sorted_members_read|]. cbn [in_order]. intros IH Hr.
  induction m as [|[k v] m IHm]; [constructor|]. apply Forall_cons in IH as [Hv IH].
  cbn [forallb map fst snd] in *. bool_simp. constructor; [split_and!; auto|auto].
Qed.

Lemma read_order_array s l : read_order s (JArr l) = JArr (map (read_order s) l).
Proof. destruct s; [done|]. cbn. by rewrite map_id. Qed.
Lemma read_order_object s m : read_order s (JObj m) = JObj (in_order s (map (fun p => (fst p, read_order s (snd p))) m)).
Proof.
  destruct s; [done|]. cbn. f_equal. induction m as [|[k v] m IH]; [done|]. cbn [map fst snd]. by rewrite <- IH.
Qed.

Theorem dumps_reads_indented s (v : json) (depth : nat) :
  readable v = true -> reads (dumps_indented s depth v) (read_order s v).
Proof.
  revert depth.
  induction v as [|b|z|f|t|l IH|m IH] using json_ind'; intros depth; cbn [readable dumps_indented]; intros H'.
  - destruct s; apply reads_null.
  - destruct s; apply reads_bool.
  - destruct s; by apply reads_int.
  - done.
  - destruct s; by apply reads_str.
  - rewrite read_order_array. destruct l as [|v l]; [apply reads_empty_array|]. rewrite indented_body by done.
    apply reads_array; [apply line_break_blank..| |done].
    apply elements_read; [|done]. eapply Forall_impl; [exact IH|]. cbn. auto.
  - apply andb_prop in H' as [H' Hn%bool_decide_eq_true]. rewrite read_order_object.
    destruct m as [|p m]; [destruct s; apply reads_empty_object|]. rewrite indented_body.
    + assert (IH' : Forall (fun p => readable (snd p) = true -> reads (dumps_indented s (S depth) (snd p)) (read_order s (snd p))) (p :: m)).
      { eapply Forall_impl; [exact IH|]. cbn. auto. }
      pose proof (members_read s (dumps_indented s (S depth)) (read_order s) (p :: m) IH' H') as Hall.
      apply (reads_object (line_break (S depth)) (line_break depth) " " (line_break_blank _) (line_break_blank _)
               eq_refl (line_break (S depth))) in Hall; [done|apply line_break_blank| |].
      * rewrite in_order_perm. by rewrite map_fst_map.
      * intros E. by apply in_order_nil in E.
    + intros E. apply map_eq_nil in E. by apply in_order_nil in E.
Qed.

Lemma join_document sep (l : list string) :
  document sep = true -> Forall (fun s => document s = true) l -> document (join sep l) = true.
Proof.
  intros Hs. unfold join. induction 1 as [|s l Hl Hls IH]; [done|]. cbn [String.concat].
  destruct l; [done|]. by rewrite !document_app, Hs, Hl, IH.
Qed.

Lemma indented_document depth left_ right_ members :
  document left_ = true -> document right_ = true -> Forall (fun s => document s = true) members ->
  document (indented depth left_ right_ members) = true.
Proof.
  intros Hl Hr Hm. destruct members as [|x xs]; [cbn; by rewrite document_app, Hl, Hr|].
  rewrite indented_body by done. rewrite !document_app, !line_break_document, Hl, Hr. unfold body_text.
  rewrite join_document; [done|by rewrite document_app, line_break_document|done].
Qed.

Lemma dumps_document s (v : json) (depth : nat) : readable v = true -> document (dumps_indented s depth v) = true.
Proof.
  revert depth.
  induction v as [|b|z|f|t|l IH|m IH] using json_ind'; intros depth; cbn [readable dumps_indented]; intros H'.
  - done.
  - by destruct b.
  - apply printable_document, str_of_Z_printable.
  - done.
  - apply printable_document, dump_str_printable.
  - apply indented_document; [done..|]. apply List.Forall_map. rewrite forallb_forall in H'.
    rewrite Forall_forall in IH. apply Forall_forall. intros x Hx. apply IH; [done|].
    by apply H', list_elem_of_In.
  - apply andb_prop in H' as [H' _]. apply indented_document; [done..|].
    apply List.Forall_map. rewrite forallb_forall in H'. rewrite Forall_forall in IH.
    apply Forall_forall. intros q Hq. rewrite in_order_perm in Hq.
    apply list_elem_of_In, in_map_iff in Hq as (p & <- & Hp). cbn [fst snd].
    pose proof (H' p Hp) as Hr. apply andb_prop in Hr as [_ Hr].
    rewrite !document_app, IH; [|by apply list_elem_of_In|done].
    by rewrite (printable_document _ (dump_str_printable _)).
Qed.

(** [json.loads(path.read_text())] of a document with a newline at its end. *)
Lemma read_back_document s (v : json) :
  readable v = true -> read_text (dumps_indented s 0 v +:+ eol) ≫= json_loads default_hooks = Ok (read_order s v).
Proof.
  intros Hv. rewrite read_document by (by rewrite document_app, dumps_document). cbn [mbind res_bind].
  apply reads_loads; [by apply dumps_reads_indented|done].
Qed.
