(* ===== verification/Acceptance.v ===== *)
(** * The acceptance compiler ([contracts/acceptance.py])

    Diagnostics are appended to a list the functions share: a computation is a
    state transformer on it that may raise.  [re.compile] and [re.search] are
    the operations of the class [Regex]; the files of the repository are a
    function from paths to contents. *)
From Stdlib Require Import Ascii String.
From S2P Require Import Prelude Sha256 Json JsonText PyStr Canonical.

(** The regular expressions of Python's [re]: which patterns compile, and
    whether [re.search] finds a compiled pattern in a string. *)
Class Regex : Type := { re_compiles : string -> bool; re_found : string -> string -> bool }.

(** [bool(re.search(pattern, value))]. *)
Definition re_search `{Regex} (pattern : json) (value : string) : res bool :=
  match pattern with
  | JStr p => if re_compiles p then Ok (re_found p value) else Raise (ReError p)
  | _ => Raise (TypeError "first argument must be string or compiled pattern")
  end.

(** ** Data *)

Inductive Operator : Type :=
  | EQ | NE | LT | LTE | GT | GTE | CONTAINS | NOT_CONTAINS | MATCHES
  | IS_TRUE | IS_FALSE | IS_NULL | NOT_NULL.

#[export] Instance Operator_eq_dec : EqDecision Operator.
Proof. solve_decision. Defined.

Definition operator_value (o : Operator) : string :=
  match o with
  | EQ => "eq" | NE => "ne" | LT => "lt" | LTE => "lte" | GT => "gt" | GTE => "gte"
  | CONTAINS => "contains" | NOT_CONTAINS => "not_contains" | MATCHES => "matches"
  | IS_TRUE => "is_true" | IS_FALSE => "is_false" | IS_NULL => "is_null" | NOT_NULL => "not_null"
  end.
Definition operators : list Operator :=
  [EQ; NE; LT; LTE; GT; GTE; CONTAINS; NOT_CONTAINS; MATCHES; IS_TRUE; IS_FALSE; IS_NULL; NOT_NULL].

(** [Operator(s)]: [None] stands for the [ValueError]. *)
Definition operator_of (s : string) : option Operator :=
  List.find (fun o => String.eqb (operator_value o) s) operators.

Record AcceptanceDiagnostic : Type := { d_code : string; d_subject_id : string; d_message : string }.
Record PropertyAssertion : Type := { pa_path : string; pa_operator : Operator; pa_value : json }.
Record ActionCall : Type := { ac_action : string; ac_arguments : list (string * json) }.
Record HumanTest : Type :=
  { ht_path : string; ht_node_id : string; ht_command : list string; ht_file_digest : string }.
Record TemplateProof : Type :=
  { tp_template_version : string; tp_test_id : string; tp_file_digest : string }.
Record CompiledCriterion : Type := {
  criterion_id : string;
  requirement_refs : list string;
  form : string;
  given : list PropertyAssertion;
  when : option ActionCall;
  then_ : list PropertyAssertion;
  measure : string;
  operator : option Operator;
  value : json;
  minimum_sample : option Z;
  human_test : option HumanTest;
  template_proof : option TemplateProof
}.
Record BuildTask : Type := { task_id : string; requirement_id : string }.
Record AcceptanceBuildPlan : Type := {
  contract_digest : string;
  requirements : list string;
  tasks : list BuildTask;
  criteria : list CompiledCriterion;
  trusted_test_digests : list (string * string);
  plan_digest : string
}.

(** [CompiledCriterion(cid, refs, form)] with the defaults of the other fields. *)
Definition bare_criterion (cid : string) (refs : list string) (form_ : string) : CompiledCriterion := {|
  criterion_id := cid; requirement_refs := refs; form := form_; given := []; when := None; then_ := [];
  measure := ""; operator := None; value := JNull; minimum_sample := None; human_test := None;
  template_proof := None
|}.

(** ** [asdict] *)

Definition JStrs (l : list string) : json := JArr (map JStr l).
Definition jopt {A} (f : A -> json) (o : option A) : json :=
  match o with Some a => f a | None => JNull end.
Definition operator_dict (o : Operator) : json := JStr (operator_value o).
Definition assertion_dict (a : PropertyAssertion) : json :=
  JObj [("path", JStr (pa_path a)); ("operator", operator_dict (pa_operator a)); ("value", pa_value a)]%string.
Definition action_dict (c : ActionCall) : json :=
  JObj [("action", JStr (ac_action c)); ("arguments", JObj (ac_arguments c))]%string.
Definition human_dict (h : HumanTest) : json :=
  JObj [("path", JStr (ht_path h)); ("node_id", JStr (ht_node_id h)); ("command", JStrs (ht_command h));
        ("file_digest", JStr (ht_file_digest h))]%string.
Definition proof_dict (p : TemplateProof) : json :=
  JObj [("template_version", JStr (tp_template_version p)); ("test_id", JStr (tp_test_id p));
        ("file_digest", JStr (tp_file_digest p))]%string.
Definition criterion_dict (c : CompiledCriterion) : json :=
  JObj [("criterion_id", JStr (criterion_id c)); ("requirement_refs", JStrs (requirement_refs c));
        ("form", JStr (form c)); ("given", JArr (map assertion_dict (given c)));
        ("when", jopt action_dict (when c)); ("then", JArr (map assertion_dict (then_ c)));
        ("measure", JStr (measure c)); ("operator", jopt operator_dict (operator c));
        ("value", value c); ("minimum_sample", jopt JInt (minimum_sample c));
        ("human_test", jopt human_dict (human_test c));
        ("template_proof", jopt proof_dict (template_proof c))]%string.
Definition task_dict (t : BuildTask) : json :=
  JObj [("task_id", JStr (task_id t)); ("requirement_id", JStr (requirement_id t))]%string.
Definition pair_json (p : string * string) : json := JArr [JStr (fst p); JStr (snd p)].


(** The members that the plan's digest is taken of. *)
Definition plan_shell (contract_digest_ : string) (reqs : list string) (tasks_ : list BuildTask)
    (compiled : list CompiledCriterion) (trusted : list (string * string)) : list (string * json) :=
  [("contract_digest", JStr contract_digest_); ("requirements", JStrs reqs);
   ("tasks", JArr (map task_dict tasks_)); ("criteria", JArr (map criterion_dict compiled));
   ("trusted_test_digests", JArr (map pair_json trusted))]%string.

(** [AcceptanceBuildPlan.as_dict]. *)
Definition as_dict (p : AcceptanceBuildPlan) : json :=
  JObj (plan_shell (contract_digest p) (requirements p) (tasks p) (criteria p) (trusted_test_digests p)
        ++ [("plan_digest"%string, JStr (plan_digest p))]).

(** ** Evaluating assertions on values *)

Definition is_unary (o : Operator) : bool :=
  match o with IS_TRUE | IS_FALSE | IS_NULL | NOT_NULL => true | _ => false end.
Definition is_ordered (o : Operator) : bool :=
  match o with LT | LTE | GT | GTE => true | _ => false end.
Definition is_lower_bound (o : Operator) : bool := match o with GT | GTE => true | _ => false end.
Definition is_upper_bound (o : Operator) : bool := match o with LT | LTE => true | _ => false end.
Definition is_equality (o : Operator) : bool := match o with EQ | NE => true | _ => false end.

Definition order_holds (o : Operator) (c : option comparison) : option bool :=
  match o with
  | LT => Some (cmp_lt c) | LTE => Some (cmp_le c) | GT => Some (cmp_gt c) | GTE => Some (cmp_ge c)
  | _ => None
  end.

(** Python's ordering of two numbers or two strings. *)
Definition py_compare (left right : json) : option (option comparison) :=
  match left, right with
  | JBool _, _ | _, JBool _ => None
  | JStr a, JStr b => Some (Some (String.compare a b))
  | _, _ => match num_of left, num_of right with
            | Some a, Some b => Some (num_compare a b)
            | _, _ => None
            end
  end.

Definition _ordered_comparison (left : json) (o : Operator) (right : json) : option bool :=
  c ← py_compare left right; order_holds o c.

(** The value of [IS_TRUE], [IS_FALSE], [IS_NULL]. *)
Definition exact_unary (o : Operator) : option json :=
  match o with
  | IS_TRUE => Some (JBool true) | IS_FALSE => Some (JBool false) | IS_NULL => Some JNull
  | _ => None
  end.
Definition is_true (v : json) : bool := match v with JBool true => true | _ => false end.
Definition is_false (v : json) : bool := match v with JBool false => true | _ => false end.
Definition is_null (v : json) : bool := match v with JNull => true | _ => false end.
Definition unary_matches (o : Operator) (v : json) : bool :=
  match o with
  | IS_TRUE => is_true v | IS_FALSE => is_false v | IS_NULL => is_null v | NOT_NULL => negb (is_null v)
  | _ => false
  end.

Section Compile.
Context `{Rfc8785} `{Unicode} `{Regex}.

(** [canonical_digest(a) == canonical_digest(b)]. *)
Definition same_digest (a b : json) : res bool :=
  da ← canonical_digest a; db ← canonical_digest b; Ok (String.eqb da db).

(** [any(f(x) for x in l)]: stops at the first [True]. *)
Fixpoint res_any {A} (f : A -> res bool) (l : list A) : res bool :=
  match l with
  | [] => Ok false
  | x :: l' => b ← f x; if (b : bool) then Ok true else res_any f l'
  end.

(** [value] contains the assertion's value; [None]: neither can be asked. *)
Definition present_in (assertion_value v : json) : res (option bool) :=
  match v, assertion_value with
  | JArr items, _ => b ← res_any (fun item => same_digest item assertion_value) items; Ok (Some b)
  | JStr s, JStr x => Ok (Some (contains_str x s))
  | JObj m, JStr x => Ok (Some (has_key x m))
  | _, _ => Ok None
  end.

Definition _literal_satisfies (assertion : PropertyAssertion) (v : json) : res bool :=
  let expected := pa_value assertion in
  match pa_operator assertion with
  | EQ => same_digest v expected
  | NE => b ← same_digest v expected; Ok (negb b)
  | (LT | LTE | GT | GTE) as o =>
      Ok (match _ordered_comparison v o expected with Some true => true | _ => false end)
  | MATCHES => match v with JStr s => re_search expected s | _ => Ok false end
  | (CONTAINS | NOT_CONTAINS) as o =>
      present ← present_in expected v;
      Ok (match present with
          | Some b => if bool_decide (o = CONTAINS) then b else negb b
          | None => false
          end)
  | o => Ok (unary_matches o v)
  end.

(** ** Contradictions *)

Inductive domain : Type := D_null | D_boolean | D_number | D_string | D_list | D_mapping.
Definition domain_eqb (a b : domain) : bool :=
  match a, b with
  | D_null, D_null | D_boolean, D_boolean | D_number, D_number
  | D_string, D_string | D_list, D_list | D_mapping, D_mapping => true
  | _, _ => false
  end.
Definition _JSON_DOMAINS : list domain := [D_null; D_boolean; D_number; D_string; D_list; D_mapping].

Definition _value_domain (v : json) : domain :=
  match v with
  | JNull => D_null
  | JBool _ => D_boolean
  | JInt _ | JFloat _ => D_number
  | JStr _ => D_string
  | JArr _ => D_list
  | JObj _ => D_mapping
  end.

Definition _assertion_domains (assertion : PropertyAssertion) : list domain :=
  match pa_operator assertion with
  | EQ | LT | LTE | GT | GTE => [_value_domain (pa_value assertion)]
  | NE => _JSON_DOMAINS
  | MATCHES => [D_string]
  | CONTAINS | NOT_CONTAINS =>
      if is_str (pa_value assertion) then [D_string; D_list; D_mapping] else [D_list]
  | IS_TRUE | IS_FALSE => [D_boolean]
  | IS_NULL => [D_null]
  | NOT_NULL => [D_boolean; D_number; D_string; D_list; D_mapping]
  end.

Definition disjoint_domains (a b : list domain) : bool :=
  negb (existsb (fun d => existsb (domain_eqb d) b) a).

(** The walk of [suffix.split(".")] through the mappings of [ancestor.value]. *)
Fixpoint descend (parts : list string) (current : json) : option json :=
  match parts with
  | [] => Some current
  | part :: rest =>
      match current with
      | JObj m => match assoc part m with Some child => descend rest child | None => None end
      | _ => None
      end
  end.

Definition _ancestor_contradicts_descendant (ancestor descendant : PropertyAssertion) : res bool :=
  if negb (existsb (domain_eqb D_mapping) (_assertion_domains ancestor)) then Ok true
  else
    let suffix := removeprefix (pa_path descendant) (pa_path ancestor +:+ ".") in
    let first := split_first "." suffix in
    if bool_decide (pa_operator ancestor = NOT_CONTAINS)
       && match pa_value ancestor with JStr s => String.eqb s first | _ => false end
    then Ok true
    else if negb (bool_decide (pa_operator ancestor = EQ)) || negb (is_mapping (pa_value ancestor))
    then Ok false
    else
      match descend (split_on "." suffix) (pa_value ancestor) with
      | None => Ok true
      | Some current => b ← _literal_satisfies descendant current; Ok (negb b)
      end.

(** The part of [_contradictory] on bounds. *)
Definition bounds_contradict (left right : PropertyAssertion) : bool :=
  let lower := if is_lower_bound (pa_operator left) then left else right in
  let upper := if is_upper_bound (pa_operator right) then right else left in
  if negb (is_lower_bound (pa_operator lower)) || negb (is_upper_bound (pa_operator upper)) then false
  else
    match _ordered_comparison (pa_value lower) GT (pa_value upper) with
    | None | Some true => true
    | Some false =>
        py_eq (pa_value lower) (pa_value upper)
        && (bool_decide (pa_operator lower = GT) || bool_decide (pa_operator upper = LT))
    end.

Definition _contradictory (left right : PropertyAssertion) : res bool :=
  let lo := pa_operator left in
  let ro := pa_operator right in
  let pair a b := (bool_decide (lo = a) && bool_decide (ro = b))
                  || (bool_decide (lo = b) && bool_decide (ro = a)) in
  if disjoint_domains (_assertion_domains left) (_assertion_domains right) then Ok true
  else if bool_decide (lo = EQ) && bool_decide (ro = EQ)
  then b ← same_digest (pa_value left) (pa_value right); Ok (negb b)
  else if pair EQ NE then same_digest (pa_value left) (pa_value right)
  else if pair CONTAINS NOT_CONTAINS then same_digest (pa_value left) (pa_value right)
  else if pair IS_TRUE IS_FALSE || pair IS_NULL NOT_NULL then Ok true
  else
    match exact_unary lo with
    | Some v => b ← _literal_satisfies right v; Ok (negb b)
    | None =>
    match exact_unary ro with
    | Some v => b ← _literal_satisfies left v; Ok (negb b)
    | None =>
        let equality_assertion := if is_equality lo then left else right in
        let unary_assertion := if is_unary lo then left else right in
        if is_equality (pa_operator equality_assertion) && is_unary (pa_operator unary_assertion) then
          let matches := unary_matches (pa_operator unary_assertion) (pa_value equality_assertion) in
          Ok (if bool_decide (pa_operator equality_assertion = EQ) then negb matches
              else negb (bool_decide (pa_operator unary_assertion = NOT_NULL)) && matches)
        else if is_ordered lo && is_ordered ro
                && bool_decide (_ordered_comparison (pa_value left) GT (pa_value right) = None)
        then Ok true
        else if bool_decide (lo = EQ) && is_ordered ro
        then Ok (negb (bool_decide (_ordered_comparison (pa_value left) ro (pa_value right) = Some true)))
        else if bool_decide (ro = EQ) && is_ordered lo
        then Ok (negb (bool_decide (_ordered_comparison (pa_value right) lo (pa_value left) = Some true)))
        else Ok (bounds_contradict left right)
    end
    end.

Fixpoint pair_contradictory (assertions : list PropertyAssertion) : res bool :=
  match assertions with
  | [] => Ok false
  | first :: rest =>
      b ← res_any (_contradictory first) rest;
      if (b : bool) then Ok true else pair_contradictory rest
  end.

(** The values a set of assertions pins: equalities, constants, and a lower and
    an upper bound that coincide. *)
Definition pinned_bounds (assertions : list PropertyAssertion) : res (list json) :=
  let lower := List.filter (fun a => bool_decide (pa_operator a = GTE)) assertions in
  let upper := List.filter (fun a => bool_decide (pa_operator a = LTE)) assertions in
  ls ← res_mapM (fun floor =>
         us ← res_mapM (fun ceiling =>
                b ← same_digest (pa_value floor) (pa_value ceiling);
                Ok (if (b : bool) then [pa_value floor] else [])) upper;
         Ok (List.concat us)) lower;
  Ok (List.concat ls).

Definition exact_values (assertions : list PropertyAssertion) : list json :=
  map pa_value (List.filter (fun a => bool_decide (pa_operator a = EQ)) assertions)
  ++ omap (fun a => exact_unary (pa_operator a)) assertions.

Definition _assertion_set_contradictory (assertions : list PropertyAssertion) : res bool :=
  b ← pair_contradictory assertions;
  if (b : bool) then Ok true
  else
    pinned ← pinned_bounds assertions;
    res_any (fun v => res_any (fun a => ok ← _literal_satisfies a v; Ok (negb ok)) assertions)
      (exact_values assertions ++ pinned).
End Compile.

(** ** Compiling assertions *)

Abbreviation diagnostics := (list AcceptanceDiagnostic).

Definition emit (code subject message : string) : st diagnostics unit :=
  modify_st (fun ds => ds ++ [{| d_code := code; d_subject_id := subject; d_message := message |}]).

(** A loop body's outcome: [None] is [continue]. *)
Definition skip {A} (report : st diagnostics unit) : st diagnostics (option A) := _ ← report; mret None.

Section CompileAssertions.
Context `{Rfc8785} `{Unicode} `{Regex}.

(** [item.get(k, "")] through [str]. *)
Definition get_str (k : string) (item : list (string * json)) : string :=
  match assoc k item with Some v => py_str v | None => "" end.

(** [isinstance(value, bool) or not isinstance(value, (int, float, str))]. *)
Definition not_orderable (v : json) : bool :=
  match v with JInt _ | JFloat _ | JStr _ => false | _ => true end.

Definition invalid_regex (o : Operator) (v : json) : bool :=
  bool_decide (o = MATCHES) && match v with JStr p => negb (re_compiles p) | _ => true end.

(** The body of the loop of [_assertions] at [index]. *)
Definition assertion_of (cid field : string) (index : Z) (raw : json)
    : st diagnostics (option PropertyAssertion) :=
  let at_ := field +:+ "[" +:+ str_of_Z index +:+ "]" in
  let path := match raw with JObj item => jget "path" item | _ => JNull end in
  match raw, path with
  | JObj item, JStr (String _ _ as p) =>
      match operator_of (get_str "operator" item) with
      | None => skip (emit "UNKNOWN_ASSERTION_OPERATOR" cid (at_ +:+ " uses an unregistered operator"))
      | Some o =>
          let v := jget "value" item in
          if negb (is_unary o) && negb (has_key "value" item)
          then skip (emit "MISSING_ASSERTION_VALUE" cid (at_ +:+ " requires an explicit value"))
          else if invalid_regex o v
          then skip (emit "INVALID_REGEX_ASSERTION" cid (at_ +:+ " requires a valid string regex"))
          else if is_ordered o && not_orderable v
          then skip (emit "INVALID_ORDERED_ASSERTION_VALUE" cid
                       (at_ +:+ " requires a number or string value"))
          else mret (Some {| pa_path := p; pa_operator := o; pa_value := v |})
      end
  | _, _ => skip (emit "INVALID_ASSERTION_PATH" cid (at_ +:+ " requires a path"))
  end.

Fixpoint assertion_loop (cid field : string) (index : Z) (l : list json)
    : st diagnostics (list PropertyAssertion) :=
  match l with
  | [] => mret []
  | raw :: rest =>
      a ← assertion_of cid field index raw;
      compiled ← assertion_loop cid field (index + 1) rest;
      mret (option_list a ++ compiled)
  end.

(** The first path whose assertions contradict each other. *)
Fixpoint contradictory_path (compiled : list PropertyAssertion) (paths : list string)
    : res (option string) :=
  match paths with
  | [] => Ok None
  | path :: rest =>
      b ← _assertion_set_contradictory
            (List.filter (fun a => String.eqb (pa_path a) path) compiled);
      if (b : bool) then Ok (Some path) else contradictory_path compiled rest
  end.

(** The first assertion that contradicts one of its descendants. *)
Fixpoint contradictory_ancestor (compiled ancestors : list PropertyAssertion)
    : res (option string) :=
  match ancestors with
  | [] => Ok None
  | ancestor :: rest =>
      b ← res_any (_ancestor_contradicts_descendant ancestor)
            (List.filter (fun a => startswith (pa_path a) (pa_path ancestor +:+ ".")) compiled);
      if (b : bool) then Ok (Some (pa_path ancestor)) else contradictory_ancestor compiled rest
  end.

Definition _assertions (v : json) (cid field : string) : st diagnostics (list PropertyAssertion) :=
  match v with
  | JArr ((_ :: _) as l) =>
      compiled ← assertion_loop cid field 0 l;
      clash ← lift_res (contradictory_path compiled (sorted_set (map pa_path compiled)));
      match clash with
      | Some path =>
          _ ← emit "CONTRADICTORY_ASSERTIONS" cid
                (field +:+ " contains incompatible assertions for " +:+ path);
          mret compiled
      | None =>
          clash ← lift_res (contradictory_ancestor compiled compiled);
          match clash with
          | Some path =>
              _ ← emit "CONTRADICTORY_ASSERTIONS" cid
                    (field +:+ " constrains " +:+ path +:+ " to a non-object with descendants");
              mret compiled
          | None => mret compiled
          end
      end
  | _ => _ ← emit "INVALID_ASSERTION_LIST" cid (field +:+ " must be a non-empty assertion list");
         mret []
  end.

(** ** Collections keyed by identifier *)

Definition keyed_item (collection : string) (item : list (string * json)) : list (string * json) :=
  if String.eqb collection "criterion" && negb (has_key "requirement_refs" item) then
    match jget "requirement" item with
    | JStr (String _ _ as requirement) => item ++ [("requirement_refs"%string, JArr [JStr requirement])]
    | _ => item
    end
  else item.

Fixpoint keyed_items (collection : string) (index : Z) (l : list json) (keyed : list (string * json))
    : st diagnostics (list (string * json)) :=
  match l with
  | [] => mret keyed
  | raw :: rest =>
      let id := match raw with JObj item => jget "id" item | _ => JNull end in
      match raw, id with
      | JObj item, JStr (String _ _ as item_id) =>
          if has_key item_id keyed then
            _ ← emit (upper collection +:+ "_ID_DUPLICATE") item_id
                  (collection +:+ " contains a duplicate id");
            keyed_items collection (index + 1) rest keyed
          else keyed_items collection (index + 1) rest
                 (assoc_set item_id (JObj (keyed_item collection item)) keyed)
      | _, _ =>
          _ ← emit (upper collection +:+ "_ID_MISSING")
                (collection +:+ "[" +:+ str_of_Z index +:+ "]")
                (collection +:+ " item requires a non-empty id");
          keyed_items collection (index + 1) rest keyed
      end
  end.

Definition _id_keyed_collection (v : json) (collection : string)
    : st diagnostics (option (list (string * json))) :=
  match v with
  | JObj m => mret (Some m)
  | JArr l => keyed ← keyed_items collection 0 l []; mret (Some keyed)
  | _ => mret None
  end.
End CompileAssertions.

(** ** Compiling criteria *)

(** [PurePosixPath(s).parts], the root apart, and its [name]. *)
Definition path_parts (s : string) : list string :=
  List.filter (fun p => negb (str_in p [""; "."]%string)) (split_on "/" s).
Definition path_name (s : string) : string := default ""%string (last (path_parts s)).

Definition nonempty_str (v : json) : bool := match v with JStr (String _ _) => true | _ => false end.

(** What the compiler is given beside the contract. *)
Record registry : Type := {
  repository_file : string -> option string; (* the bytes at [repository_root / path] *)
  registered_actions : list string;
  registered_measures : list string;
  template_version : string;
  template_test_digests : list (string * string)
}.

(** [f"{n:03d}"]. *)
Definition pad3 (n : nat) : string :=
  let s := str_of_N (N.of_nat n) in
  zeros (3 - String.length s) +:+ s.

Section CompilePlan.
Context `{Rfc8785} `{Unicode} `{Regex}.
Variable reg : registry.

Definition _human_test (raw : list (string * json)) (cid : string) : st diagnostics (option HumanTest) :=
  let invalid := skip (emit "INVALID_HUMAN_TEST_REFERENCE" cid
                         "human test must bind a safe tests/ path, node ID, and argv") in
  match jget "path" raw, jget "node_id" raw, jget "command" raw with
  | JStr path_value, JStr (String _ _ as node_id), JArr ((_ :: _) as command) =>
      if negb (startswith path_value "tests/") || startswith path_value "/"
         || existsb (fun part => str_in part ["."; ".."]%string) (split_on "/" path_value)
         || negb (forallb nonempty_str command)
      then invalid
      else
        match repository_file reg path_value with
        | None => skip (emit "HUMAN_TEST_MISSING" cid ("human test does not exist: " +:+ path_value))
        | Some content =>
            let argv := omap as_str command in
            let target := path_value +:+ "::" +:+ node_id in
            let is_pytest :=
              startswith (path_name (default ""%string (head argv))) "pytest"
              || match argv with
                 | _ :: b :: c :: _ => String.eqb b "-m" && String.eqb c "pytest"
                 | _ => false
                 end in
            if negb is_pytest || negb (str_in target argv)
            then skip (emit "HUMAN_TEST_COMMAND_MISMATCH" cid
                         "human test command must run pytest against its exact bound node")
            else mret (Some {| ht_path := path_value; ht_node_id := node_id; ht_command := argv;
                               ht_file_digest := "sha256:" +:+ sha256_hexdigest content |})
        end
  | _, _, _ => invalid
  end.

Definition when_action (item : list (string * json)) : string :=
  match as_obj (jget "when" item) with Some w => get_str "action" w | None => "" end.
Definition when_arguments (item : list (string * json)) : json :=
  match as_obj (jget "when" item) with
  | Some w => match assoc "arguments" w with Some a => a | None => JObj [] end
  | None => JObj []
  end.

Definition given_when_then_form (cid : string) (refs : list string) (item : list (string * json))
    : st diagnostics (option CompiledCriterion) :=
  match str_in (when_action item) (registered_actions reg), when_arguments item with
  | true, JObj args =>
      before ← get_st List.length;
      given_ ← _assertions (jget "given" item) cid "given";
      then_clause ← _assertions (jget "then" item) cid "then";
      after ← get_st List.length;
      match given_, then_clause with
      | _ :: _, _ :: _ =>
          if Nat.eqb after before
          then mret (Some {|
            criterion_id := cid; requirement_refs := refs; form := "given_when_then";
            given := given_; when := Some {| ac_action := when_action item; ac_arguments := args |};
            then_ := then_clause; measure := ""; operator := None; value := JNull;
            minimum_sample := None; human_test := None; template_proof := None |})
          else mret None
      | _, _ => mret None
      end
  | _, _ => skip (emit "ACTION_NOT_REGISTERED" cid "when.action is not registered")
  end.

Definition measure_form (cid : string) (refs : list string) (item : list (string * json))
    : st diagnostics (option CompiledCriterion) :=
  match operator_of (get_str "operator" item) with
  | None => skip (emit "UNKNOWN_ASSERTION_OPERATOR" cid "measure operator is unregistered")
  | Some o =>
      let sample := default [] (as_obj (jget "sample" item)) in
      let invalid := skip (emit "MEASURE_INVALID" cid
                             "measure needs a registered source and positive sample.minimum") in
      match jget "measure" item, jget "minimum" sample with
      | JStr (String _ _ as m), JInt minimum =>
          if negb (str_in m (registered_measures reg)) || (minimum <=? 0) then invalid
          else
            let v := jget "value" item in
            if invalid_regex o v
            then skip (emit "INVALID_REGEX_ASSERTION" cid "measure requires a valid string regex")
            else if is_ordered o && not_orderable v
            then skip (emit "INVALID_ORDERED_ASSERTION_VALUE" cid
                         "measure requires a number or string value")
            else mret (Some {|
              criterion_id := cid; requirement_refs := refs; form := "measure"; given := []; when := None;
              then_ := []; measure := m; operator := Some o; value := v;
              minimum_sample := Some minimum; human_test := None; template_proof := None |})
      | _, _ => invalid
      end
  end.

Definition human_test_form (cid : string) (refs : list string) (item : list (string * json))
    : st diagnostics (option CompiledCriterion) :=
  human ← _human_test (default [] (as_obj (jget "human_test" item))) cid;
  mret (match human with
        | Some h => Some {|
            criterion_id := cid; requirement_refs := refs; form := "human_test"; given := []; when := None;
            then_ := []; measure := ""; operator := None; value := JNull; minimum_sample := None;
            human_test := Some h; template_proof := None |}
        | None => None
        end).

Definition template_form (cid : string) (refs : list string) (item : list (string * json))
    : st diagnostics (option CompiledCriterion) :=
  let proof_raw := as_obj (jget "satisfied_by_template" item) in
  let field k := match proof_raw with Some p => get_str k p | None => "" end in
  let version := field "template_version" in
  let test_id := field "test_id" in
  match assoc test_id (template_test_digests reg) with
  | Some proof_digest =>
      if String.eqb version (template_version reg)
      then mret (Some {|
        criterion_id := cid; requirement_refs := refs; form := "satisfied_by_template"; given := [];
        when := None; then_ := []; measure := ""; operator := None; value := JNull;
        minimum_sample := None; human_test := None;
        template_proof := Some {| tp_template_version := version; tp_test_id := test_id;
                                  tp_file_digest := proof_digest |} |})
      else skip (emit "TEMPLATE_PROOF_INVALID" cid "template proof does not match the pinned template")
  | None => skip (emit "TEMPLATE_PROOF_INVALID" cid "template proof does not match the pinned template")
  end.

(** The executable forms that a criterion's keys select. *)
Definition selected_forms (item : list (string * json)) : list string :=
  let all_keys ks := forallb (fun k => has_key k item) ks in
  (if all_keys ["given"; "when"; "then"] then ["given_when_then"] else [])%string
  ++ (if all_keys ["measure"; "operator"; "value"] then ["measure"] else [])%string
  ++ (if has_key "human_test" item then ["human_test"] else [])%string
  ++ (if has_key "satisfied_by_template" item then ["satisfied_by_template"] else [])%string.

Definition compile_form (form_ : string) : string -> list string -> list (string * json) ->
    st diagnostics (option CompiledCriterion) :=
  if String.eqb form_ "given_when_then" then given_when_then_form
  else if String.eqb form_ "measure" then measure_form
  else if String.eqb form_ "human_test" then human_test_form
  else template_form.

(** The body of the loop over the criteria. *)
Definition compile_criterion (requirement_set : list string) (cid : string) (raw : json)
    : st diagnostics (option CompiledCriterion) :=
  match raw with
  | JObj item =>
      match jget "requirement_refs" item with
      | JArr ((_ :: _) as refs_raw) =>
          if negb (forallb nonempty_str refs_raw)
          then skip (emit "REQUIREMENT_REFS_MISSING" cid "criterion needs requirement_refs")
          else
            let refs := sorted_set (omap as_str refs_raw) in
            match List.filter (fun r => negb (str_in r requirement_set)) refs with
            | (_ :: _) as unknown => skip (emit "UNKNOWN_REQUIREMENT_REF" cid (join ", " unknown))
            | [] =>
                match selected_forms item with
                | [form_] => compile_form form_ cid refs item
                | _ => skip (emit "CRITERION_FORM_INVALID" cid
                               "criterion must select exactly one executable form")
                end
            end
      | _ => skip (emit "REQUIREMENT_REFS_MISSING" cid "criterion needs requirement_refs")
      end
  | _ => skip (emit "INVALID_CRITERION" cid "criterion must be an object")
  end.

Fixpoint compile_criteria (requirement_set : list string) (items : list (string * json))
    : st diagnostics (list CompiledCriterion) :=
  match items with
  | [] => mret []
  | (cid, raw) :: rest =>
      c ← compile_criterion requirement_set cid raw;
      compiled ← compile_criteria requirement_set rest;
      mret (option_list c ++ compiled)
  end.

Fixpoint emit_uncovered (l : list string) : st diagnostics unit :=
  match l with
  | [] => mret tt
  | requirement :: rest =>
      _ ← emit "REQUIREMENT_UNCOVERED" requirement "requirement has no executable criterion";
      emit_uncovered rest
  end.

(** [or_missing]: an absent or empty collection is reported and becomes empty. *)
Definition or_missing (raw : option (list (string * json))) (code message : string)
    : st diagnostics (list (string * json)) :=
  match raw with
  | Some ((_ :: _) as m) => mret m
  | _ => _ ← emit code "contract" message; mret []
  end.

Definition numbered_tasks (l : list string) : list BuildTask :=
  imap (fun i r => {| task_id := "TASK-" +:+ pad3 (S i); requirement_id := r |}) l.

(** Everything that [compile_acceptance_plan] does before it looks at the
    diagnostics: the requirements and the compiled criteria. *)
Definition compile_contract (contract : list (string * json))
    : st diagnostics (list string * list CompiledCriterion) :=
  requirements_raw ← _id_keyed_collection (jget "functional_requirements" contract) "requirement";
  criteria_raw ← _id_keyed_collection (jget "acceptance_criteria" contract) "criterion";
  requirements_raw ← or_missing requirements_raw "REQUIREMENTS_MISSING" "functional requirements are required";
  criteria_raw ← or_missing criteria_raw "CRITERIA_MISSING" "acceptance criteria are required";
  let requirements := sorted_str (map fst requirements_raw) in
  compiled ← compile_criteria requirements (sorted_items criteria_raw);
  let covered := flat_map requirement_refs compiled in
  _ ← emit_uncovered (List.filter (fun r => negb (str_in r covered)) (sorted_set requirements));
  mret (requirements, compiled).

Definition diagnostic_triple (d : AcceptanceDiagnostic) : string * string * string :=
  (d_code d, d_subject_id d, d_message d).

Definition compile_acceptance_plan (contract : list (string * json))
    (trusted : list (string * string)) : res AcceptanceBuildPlan :=
  match compile_contract contract [] with
  | (Raise e, _) => Raise e
  | (Ok _, ((_ :: _) as found)) => Raise (AcceptanceCompileError (map diagnostic_triple found))
  | (Ok (reqs, compiled), []) =>
      let tasks_ := numbered_tasks reqs in
      let trusted_ := sorted_items trusted in
      contract_digest_ ← canonical_digest (JObj contract);
      plan_digest_ ← canonical_digest (JObj (plan_shell contract_digest_ reqs tasks_ compiled trusted_));
      Ok {| contract_digest := contract_digest_; requirements := reqs; tasks := tasks_;
            criteria := compiled; trusted_test_digests := trusted_; plan_digest := plan_digest_ |}
  end.
End CompilePlan.
