(* ===== verification/AcceptanceFacts.v ===== *)
(** * The acceptance compiler: lemmas

    A computation that appends to the diagnostics either reports something or
    returns a result that meets its specification ([reports]). *)
From Stdlib Require Import Ascii String.
From S2P Require Import Prelude Sha256 Json JsonText PyStr Canonical Acceptance.

(** ** Reporting computations *)

Definition reports {A} (m : st diagnostics A) (P : A -> Prop) : Prop :=
  forall ds r ds', m ds = (Ok r, ds') -> exists more, ds' = ds ++ more /\ (more = [] -> P r).

Lemma reports_ret {A} (P : A -> Prop) (a : A) : P a -> reports (mret a) P.
Proof. intros HP ds r ds' [= <- <-]. exists []. by rewrite app_nil_r. Qed.

Lemma reports_emit code subject message (P : unit -> Prop) : reports (emit code subject message) P.
Proof. intros ds r ds' [= <- <-]. eexists. split; [done|]. intros [=]. Qed.

Lemma reports_bind {A B} (m : st diagnostics A) (k : A -> st diagnostics B) P Q :
  reports m P -> (forall a, reports (k a) (fun b => P a -> Q b)) -> reports (m ≫= k) Q.
Proof.
  intros Hm Hk ds r ds' Hr. unfold mbind, st_bind in Hr. destruct (m ds) as [[a|e] ds1] eqn:E; [|done].
  apply Hm in E as (m1 & -> & H1). apply Hk in Hr as (m2 & -> & H2).
  exists (m1 ++ m2). rewrite app_assoc. split; [done|]. intros [-> ->]%app_nil. auto.
Qed.

Lemma reports_weaken {A} (m : st diagnostics A) (P Q : A -> Prop) :
  reports m P -> (forall a, P a -> Q a) -> reports m Q.
Proof. intros Hm Hpq ds r ds' Hr. apply Hm in Hr as (more & -> & HP). eauto. Qed.

(** A branch that reports meets any specification. *)
Lemma reports_after_emit {A} code subject message (k : unit -> st diagnostics A) (P : A -> Prop) :
  (forall u, reports (k u) (fun _ => True)) -> reports (emit code subject message ≫= k) P.
Proof. intros Hk. eapply (reports_bind _ _ (fun _ => False)); [apply reports_emit|].
  intros a. eapply reports_weaken; [apply Hk|done]. Qed.

Lemma reports_skip {A} code subject message (P : option A -> Prop) :
  reports (skip (emit code subject message)) P.
Proof. apply reports_after_emit. intros u. by apply reports_ret. Qed.

Lemma reports_lift {A} (m : res A) (P : A -> Prop) :
  (forall a, m = Ok a -> P a) -> reports (lift_res m) P.
Proof. intros Hm ds r ds' [= -> <-]. exists []. rewrite app_nil_r. auto. Qed.

Create HintDb reports.
#[export] Hint Resolve reports_emit reports_skip : reports.
#[export] Hint Extern 1 (reports (mret _) _) => apply reports_ret : reports.
#[export] Hint Extern 1 (reports (lift_res _) _) => apply reports_lift : reports.

(** The two branches of the next conditional; the reporting one is closed. *)
Ltac next_guard H :=
  match goal with |- reports (if ?c then _ else _) _ => destruct c eqn:H end;
  try solve [eauto with reports].

(** ** What the compiled pieces satisfy *)

Section Specification.
Context `{Rfc8785} `{Unicode} `{Regex}.

Record assertion_ok (a : PropertyAssertion) : Prop := {
  ok_path : pa_path a <> ""%string;
  ok_regex : pa_operator a = MATCHES -> exists p, pa_value a = JStr p /\ re_compiles p = true;
  ok_ordered : is_ordered (pa_operator a) = true -> not_orderable (pa_value a) = false
}.

(** The clause was checked and no contradiction was found in it. *)
Record clause_ok (l : list PropertyAssertion) : Prop := {
  clause_nonempty : l <> [];
  clause_assertions : Forall assertion_ok l;
  clause_paths : contradictory_path l (sorted_set (map pa_path l)) = Ok None;
  clause_ancestors : contradictory_ancestor l l = Ok None
}.

Lemma invalid_regex_ok o v :
  invalid_regex o v = false -> o = MATCHES -> exists p, v = JStr p /\ re_compiles p = true.
Proof.
  unfold invalid_regex. intros Hi ->. rewrite bool_decide_true in Hi by done. simpl in Hi.
  destruct v; try done. bool_simp. eauto.
Qed.

Lemma assertion_of_ok cid field index raw :
  reports (assertion_of cid field index raw) (fun o => exists a, o = Some a /\ assertion_ok a).
Proof.
  unfold assertion_of. destruct raw as [| | | | | |item]; eauto with reports.
  destruct (jget "path" item) as [| | | |[|c p]| |]; eauto with reports.
  destruct (operator_of _) as [o|]; eauto with reports.
  cbv zeta. next_guard Hu. next_guard Hr. next_guard Ho.
  apply reports_ret. eexists. split; [done|]. split; simpl; [done| |].
  - by apply invalid_regex_ok.
  - intros Hord. by rewrite Hord in Ho.
Qed.

Lemma assertion_loop_ok cid field : forall l index,
  reports (assertion_loop cid field index l)
    (fun compiled => Forall assertion_ok compiled /\ List.length compiled = List.length l).
Proof.
  induction l as [|raw l IH]; intros index; cbn [assertion_loop]; [by apply reports_ret|].
  eapply reports_bind; [apply assertion_of_ok|]. intros o.
  eapply reports_bind; [apply IH|]. intros compiled. apply reports_ret.
  intros [Hf Hl] (a & -> & Ha). simpl. split; [by constructor|congruence].
Qed.

Lemma assertions_ok v cid field : reports (_assertions v cid field) clause_ok.
Proof.
  assert (Hany : forall (o : option string) code s m l,
    reports (match o with Some path => _ ← emit code s (m path); mret l | None => mret l end)
            (fun (r : list PropertyAssertion) => o = None -> r = l)).
  { intros [path|] code s m l; [|by apply reports_ret].
    apply reports_after_emit. intros u. by apply reports_ret. }
  unfold _assertions.
  destruct v as [| | | | |[|x l]|]; try (apply reports_after_emit; intros u; by apply reports_ret).
  eapply reports_bind; [apply assertion_loop_ok|]. intros compiled.
  eapply reports_bind.
  { apply (reports_lift _ (fun clash => contradictory_path compiled (sorted_set (map pa_path compiled)) = Ok clash)). done. }
  intros [path|].
  { apply reports_after_emit. intros u. by apply reports_ret. }
  eapply reports_bind.
  { apply (reports_lift _ (fun clash => contradictory_ancestor compiled compiled = Ok clash)). done. }
  intros [path|].
  { apply reports_after_emit. intros u. by apply reports_ret. }
  apply reports_ret. intros Ha Hp [Hf Hl]. split; try done. intros ->. done.
Qed.
End Specification.

(** ** Criteria *)

Section Criteria.
Context `{Rfc8785} `{Unicode} `{Regex}.
Variable reg : registry.

(** A human test bound to an existing file under [tests/] and run by pytest. *)
Record human_ok (h : HumanTest) : Prop := {
  human_path : startswith (ht_path h) "tests/" = true /\
    forall part, part ∈ split_on "/" (ht_path h) -> part <> "."%string /\ part <> ".."%string;
  human_file : exists content, repository_file reg (ht_path h) = Some content /\
                 ht_file_digest h = "sha256:" +:+ sha256_hexdigest content;
  human_command : (ht_path h +:+ "::" +:+ ht_node_id h) ∈ ht_command h
}.

Record refs_ok (requirement_set refs : list string) : Prop := {
  refs_nonempty : refs <> [];
  refs_sorted : strictly_sorted refs;
  refs_known : forall r, r ∈ refs -> r ∈ requirement_set
}.

(** A compiled criterion: its references, and the fields of exactly one form. *)
Inductive criterion_ok (requirement_set : list string) (cid : string) : CompiledCriterion -> Prop :=
  | ok_action refs g a args t :
      refs_ok requirement_set refs -> clause_ok g -> clause_ok t -> a ∈ registered_actions reg ->
      criterion_ok requirement_set cid {|
        criterion_id := cid; requirement_refs := refs; form := "given_when_then"; given := g;
        when := Some {| ac_action := a; ac_arguments := args |}; then_ := t; measure := "";
        operator := None; value := JNull; minimum_sample := None; human_test := None; template_proof := None |}
  | ok_measure refs m o v minimum :
      refs_ok requirement_set refs -> m ∈ registered_measures reg -> 1 <= minimum ->
      (o = MATCHES -> exists p, v = JStr p /\ re_compiles p = true) ->
      (is_ordered o = true -> not_orderable v = false) ->
      criterion_ok requirement_set cid {|
        criterion_id := cid; requirement_refs := refs; form := "measure"; given := []; when := None;
        then_ := []; measure := m; operator := Some o; value := v; minimum_sample := Some minimum;
        human_test := None; template_proof := None |}
  | ok_human refs h :
      refs_ok requirement_set refs -> human_ok h ->
      criterion_ok requirement_set cid {|
        criterion_id := cid; requirement_refs := refs; form := "human_test"; given := []; when := None;
        then_ := []; measure := ""; operator := None; value := JNull; minimum_sample := None;
        human_test := Some h; template_proof := None |}
  | ok_template refs test_id digest :
      refs_ok requirement_set refs -> assoc test_id (template_test_digests reg) = Some digest ->
      criterion_ok requirement_set cid {|
        criterion_id := cid; requirement_refs := refs; form := "satisfied_by_template"; given := [];
        when := None; then_ := []; measure := ""; operator := None; value := JNull;
        minimum_sample := None; human_test := None;
        template_proof := Some {| tp_template_version := template_version reg; tp_test_id := test_id;
                                  tp_file_digest := digest |} |}.

Definition yields {A} (P : A -> Prop) (o : option A) : Prop := exists a, o = Some a /\ P a.

Lemma human_test_ok raw cid : reports (_human_test reg raw cid) (yields human_ok).
Proof.
  unfold _human_test.
  destruct (jget "path" raw) as [| | | |path| |]; eauto with reports.
  destruct (jget "node_id" raw) as [| | | |[|c node]| |]; eauto with reports.
  destruct (jget "command" raw) as [| | | | |[|x command]|]; eauto with reports.
  next_guard Hpath.
  destruct (repository_file reg path) as [content|] eqn:Hf; eauto with reports.
  cbv zeta. next_guard Hcmd.
  apply reports_ret. eexists. split; [done|]. bool_simp. split; simpl.
  - split; [done|]. intros part Hin.
    match goal with Hd : existsb _ _ = false |- _ => rename Hd into Hdots end.
    assert (Hp : str_in part ["."; ".."]%string = false).
    { apply not_true_is_false. intros Ht. apply not_true_iff_false in Hdots. apply Hdots.
      apply existsb_exists. exists part. split; [by apply list_elem_of_In|done]. }
    apply str_in_false in Hp. set_solver.
  - eauto.
  - match goal with Hd : str_in _ _ = true |- _ => by apply str_in_elem in Hd end.
Qed.

Lemma given_when_then_ok rs cid refs item :
  refs_ok rs refs -> reports (given_when_then_form reg cid refs item) (yields (criterion_ok rs cid)).
Proof.
  intros Hrefs. unfold given_when_then_form.
  destruct (str_in (when_action item) _) eqn:Ha, (when_arguments item) as [| | | | | |args]; eauto with reports.
  apply str_in_elem in Ha.
  intros ds r ds' Hr. unfold mbind, st_bind, get_st in Hr.
  destruct (_assertions (jget "given" item) cid "given" ds) as [[g|e] ds1] eqn:Eg; [|done].
  destruct (_assertions (jget "then" item) cid "then" ds1) as [[t|e] ds2] eqn:Et; [|done].
  apply assertions_ok in Eg as (m1 & -> & Hg). apply assertions_ok in Et as (m2 & -> & Ht).
  exists (m1 ++ m2).
  assert (Hds : ds' = (ds ++ m1) ++ m2 /\
    (m1 = [] -> m2 = [] -> g <> [] -> t <> [] -> yields (criterion_ok rs cid) r)).
  { destruct g as [|x g], t as [|y t]; try (by injection Hr as <- <-).
    destruct (Nat.eqb _ _) eqn:El; injection Hr as <- <-; (split; [done|]); intros -> -> _ _.
    - eexists. split; [done|]. apply ok_action; [done|auto|auto|done].
    - rewrite !app_nil_r, Nat.eqb_refl in El. done. }
  destruct Hds as [-> Hres]. rewrite app_assoc. split; [done|]. intros [-> ->]%app_nil.
  apply Hres; try done; by apply clause_nonempty; auto.
Qed.

Lemma measure_ok rs cid refs item :
  refs_ok rs refs -> reports (measure_form reg cid refs item) (yields (criterion_ok rs cid)).
Proof.
  intros Hrefs. unfold measure_form. destruct (operator_of _) as [o|]; eauto with reports.
  destruct (jget "measure" item) as [| | | |[|c m]| |]; eauto with reports.
  destruct (jget "minimum" _) as [| |minimum| | | |]; eauto with reports.
  next_guard Hm. cbv zeta. next_guard Hr. next_guard Ho.
  apply reports_ret. eexists. split; [done|]. bool_simp. apply ok_measure; [done| | | |].
  - match goal with Hd : str_in _ _ = true |- _ => by apply str_in_elem in Hd end.
  - match goal with Hd : (_ <=? _) = false |- _ => apply Z.leb_gt in Hd; lia end.
  - by apply invalid_regex_ok.
  - intros Hord. by rewrite Hord in Ho.
Qed.

Lemma human_form_ok rs cid refs item :
  refs_ok rs refs -> reports (human_test_form reg cid refs item) (yields (criterion_ok rs cid)).
Proof.
  intros Hrefs. eapply reports_bind; [apply human_test_ok|]. intros o. apply reports_ret.
  intros (h & -> & Hh). eexists. split; [done|]. by apply ok_human.
Qed.

Lemma template_ok rs cid refs item :
  refs_ok rs refs -> reports (template_form reg cid refs item) (yields (criterion_ok rs cid)).
Proof.
  intros Hrefs. unfold template_form. cbv zeta. destruct (assoc _ _) as [d|] eqn:Hd; eauto with reports.
  next_guard Hv. apply String.eqb_eq in Hv. apply reports_ret. eexists. split; [done|].
  rewrite Hv. by apply ok_template.
Qed.

Lemma sorted_refs_ok rs refs_raw :
  forallb nonempty_str refs_raw = true -> refs_raw <> [] ->
  List.filter (fun r => negb (str_in r rs)) (sorted_set (omap as_str refs_raw)) = [] ->
  refs_ok rs (sorted_set (omap as_str refs_raw)).
Proof.
  intros Hall Hne Hunk. split; [|apply sorted_set_sorted|].
  - destruct refs_raw as [|v l]; [done|]. simpl in Hall. apply andb_prop in Hall as [Hv _].
    destruct v as [| | | |s| |]; try done. intros Hnil.
    assert (s ∈ sorted_set (omap as_str (JStr s :: l))) as Hs by (apply elem_of_sorted_set; left).
    rewrite Hnil in Hs. set_solver.
  - intros r Hr. destruct (str_in r rs) eqn:E; [by apply str_in_elem|].
    exfalso. apply list_elem_of_In in Hr.
    assert (In r (List.filter (fun r => negb (str_in r rs)) (sorted_set (omap as_str refs_raw)))) as Hin
      by (apply filter_In; by rewrite E).
    by rewrite Hunk in Hin.
Qed.

Lemma compile_criterion_ok rs cid raw :
  reports (compile_criterion reg rs cid raw) (yields (criterion_ok rs cid)).
Proof.
  unfold compile_criterion. destruct raw as [| | | | | |item]; eauto with reports.
  destruct (jget "requirement_refs" item) as [| | | | |[|x l]|]; eauto with reports.
  next_guard Hall. cbv zeta. bool_simp.
  destruct (List.filter _ _) as [|u us] eqn:Hunk; eauto with reports.
  assert (Hrefs : refs_ok rs (sorted_set (omap as_str (x :: l)))) by (by apply sorted_refs_ok).
  destruct (selected_forms item) as [|form_ [|]]; eauto with reports.
  unfold compile_form.
  destruct (String.eqb form_ "given_when_then"); [by apply given_when_then_ok|].
  destruct (String.eqb form_ "measure"); [by apply measure_ok|].
  destruct (String.eqb form_ "human_test"); [by apply human_form_ok|by apply template_ok].
Qed.

Lemma compile_criteria_ok rs items :
  reports (compile_criteria reg rs items)
    (Forall2 (fun p c => criterion_ok rs (fst p) c) items).
Proof.
  induction items as [|[cid raw] items IH]; cbn [compile_criteria]; [by apply reports_ret|].
  eapply reports_bind; [apply compile_criterion_ok|]. intros o.
  eapply reports_bind; [apply IH|]. intros compiled. apply reports_ret.
  intros Hf (c & -> & Hc). by constructor.
Qed.

Lemma emit_uncovered_ok l : reports (emit_uncovered l) (fun _ => l = []).
Proof.
  destruct l as [|r l]; [by apply reports_ret|]. apply reports_after_emit. intros _.
  induction l as [|r' l IH]; cbn [emit_uncovered]; [by apply reports_ret|].
  apply reports_after_emit. intros _. exact IH.
Qed.
End Criteria.

(** ** Collections *)

(** The identifiers of an id-keyed collection, in the order given. *)
Definition item_id (raw : json) : option string :=
  match raw with JObj item => as_str (jget "id" item) | _ => None end.
Definition collection_ids (v : json) : list string :=
  match v with JObj m => map fst m | JArr l => omap item_id l | _ => [] end.

Lemma keyed_items_ok collection : forall l index keyed,
  reports (keyed_items collection index l keyed) (fun r => map fst r = map fst keyed ++ omap item_id l).
Proof.
  induction l as [|raw l IH]; intros index keyed; cbn [keyed_items]; [apply reports_ret; by rewrite app_nil_r|].
  assert (Hany : forall i k (P : list (string * json) -> Prop) c s m,
    reports (_ ← emit c s m; keyed_items collection i l k) P).
  { intros. apply reports_after_emit. intros u. eapply reports_weaken; [apply IH|done]. }
  destruct raw as [| | | | | |item]; try apply Hany.
  destruct (jget "id" item) as [| | | |[|c id]| |] eqn:Hid; try apply Hany.
  destruct (has_key _ keyed) eqn:Hk; [apply Hany|]. apply has_key_false in Hk.
  eapply reports_weaken; [apply IH|]. intros r ->.
  rewrite assoc_set_new by done. rewrite map_app, <- app_assoc. simpl. by rewrite Hid.
Qed.

Lemma id_keyed_ok v collection :
  reports (_id_keyed_collection v collection)
    (fun o => map fst (default [] o) = collection_ids v).
Proof.
  destruct v; try by apply reports_ret.
  eapply reports_bind; [apply keyed_items_ok|]. intros keyed. by apply reports_ret.
Qed.

Lemma or_missing_ok raw code message :
  reports (or_missing raw code message) (fun m => raw = Some m /\ m <> []).
Proof.
  destruct raw as [[|p m]|]; cbn [or_missing].
  - apply reports_after_emit. intros u. by apply reports_ret.
  - by apply reports_ret.
  - apply reports_after_emit. intros u. by apply reports_ret.
Qed.

Lemma sorted_items_keys {V} (m : list (string * V)) : map fst (sorted_items m) = sorted_str (map fst m).
Proof.
  induction m as [|p m IH]; [done|]. cbn [sorted_items foldr map sorted_str]. fold (sorted_items m).
  fold (sorted_str (map fst m)). rewrite <- IH. clear IH.
  induction (sorted_items m) as [|q l IH]; [done|]. cbn [insert_item map insert_sorted].
  destruct (str_leb (fst p) (fst q)); [done|]. cbn [map]. by rewrite IH.
Qed.

Lemma numbered_tasks_requirements l : map requirement_id (numbered_tasks l) = l.
Proof.
  unfold numbered_tasks.
  assert (Hi : forall n, map requirement_id (imap (fun i r =>
    {| task_id := "TASK-" +:+ pad3 (S (n + i)); requirement_id := r |}) l) = l); [|apply (Hi 0%nat)].
  induction l as [|r l IH]; intros n; [done|]. rewrite imap_cons. cbn [map]. f_equal.
  etransitivity; [|apply (IH (S n))]. f_equal. apply imap_ext. intros i x _. simpl.
  by rewrite Nat.add_succ_r.
Qed.

Section Contract.
Context `{Rfc8785} `{Unicode} `{Regex}.
Variable reg : registry.

Record contract_ok (contract : list (string * json)) (reqs : list string)
    (compiled : list CompiledCriterion) : Prop := {
  contract_requirements : reqs = sorted_str (collection_ids (jget "functional_requirements" contract));
  contract_requirements_some : reqs <> [];
  contract_criteria :
    map criterion_id compiled = sorted_str (collection_ids (jget "acceptance_criteria" contract));
  contract_criteria_ok : Forall (fun c => criterion_ok reg reqs (criterion_id c) c) compiled;
  contract_covered : forall r, r ∈ reqs -> exists c, c ∈ compiled /\ r ∈ requirement_refs c
}.

Lemma criterion_ok_id rs cid c : criterion_ok reg rs cid c -> criterion_id c = cid.
Proof. by destruct 1. Qed.

Lemma covered_spec reqs compiled :
  List.filter (fun r => negb (str_in r (flat_map requirement_refs compiled))) (sorted_set reqs) = [] ->
  forall r, r ∈ reqs -> exists c, c ∈ compiled /\ r ∈ requirement_refs c.
Proof.
  intros Hf r Hr. destruct (str_in r (flat_map requirement_refs compiled)) eqn:E.
  - apply str_in_elem, list_elem_of_In, in_flat_map in E as (c & Hc & Hin).
    exists c. by rewrite !list_elem_of_In.
  - exfalso. assert (Hin : In r (sorted_set reqs)) by (by apply list_elem_of_In, elem_of_sorted_set).
    assert (In r []) as []. rewrite <- Hf. apply filter_In. by rewrite E.
Qed.

Lemma compile_contract_ok contract :
  reports (compile_contract reg contract) (fun r => contract_ok contract (fst r) (snd r)).
Proof.
  unfold compile_contract.
  eapply reports_bind; [apply id_keyed_ok|]. intros rr.
  eapply reports_bind; [apply id_keyed_ok|]. intros cr.
  eapply reports_bind; [apply or_missing_ok|]. intros rm.
  eapply reports_bind; [apply or_missing_ok|]. intros cm. cbv zeta.
  eapply reports_bind; [apply compile_criteria_ok|]. intros compiled.
  eapply reports_bind; [apply emit_uncovered_ok|]. intros u.
  apply reports_ret. intros Hcov Hc [-> Hcm] [-> Hrm] Hck Hrk. simpl in *.
  assert (Hids : map criterion_id compiled = map fst (sorted_items cm)).
  { clear -Hc. induction Hc as [|p c l l' Hpc _ IH]; [done|]. simpl. rewrite IH.
    by rewrite (criterion_ok_id _ _ _ Hpc). }
  split.
  - by rewrite <- Hrk.
  - intros Hn. apply Hrm. pose proof (sorted_str_perm (map fst rm)) as Hp. rewrite Hn in Hp.
    apply Permutation_nil in Hp. by destruct rm.
  - by rewrite Hids, sorted_items_keys, Hck.
  - clear -Hc. induction Hc as [|p c l l' Hpc _ IH]; constructor; [|done].
    by rewrite (criterion_ok_id _ _ _ Hpc).
  - by apply covered_spec.
Qed.
End Contract.
