(* ===== verification/Contradictions.v ===== *)
(** * Contradictory assertions: lemmas

    The order on numbers and strings, and satisfaction of an assertion as a
    function of the JSON value alone. *)
From Stdlib Require Import SpecFloat Ascii String.
From S2P Require Import Prelude Sha256 Json JsonText PyStr Canonical JsonSpec JsonFacts CanonicalFacts.
From S2P Require Import Acceptance.

(** ** The exact order on numbers *)

Lemma dyadic_compare_at e m1 e1 m2 e2 :
  e <= e1 -> e <= e2 -> dyadic_compare m1 e1 m2 e2 = (m1 * 2 ^ (e1 - e) ?= m2 * 2 ^ (e2 - e)).
Proof.
  intros H1 H2. unfold dyadic_compare. set (k := Z.min e1 e2). set (d := k - e).
  assert (Hp : 0 < 2 ^ d) by (apply Z.pow_pos_nonneg; lia).
  assert (Hs : forall m x, k <= x -> m * 2 ^ (x - e) = m * 2 ^ (x - k) * 2 ^ d).
  { intros m x Hx. rewrite <- Z.mul_assoc, <- Z.pow_add_r by lia. do 2 f_equal. lia. }
  rewrite !Hs by lia. by rewrite <- Zmult_compare_compat_r by lia.
Qed.

Lemma num_compare_swap a b : num_compare b a = option_map CompOpp (num_compare a b).
Proof.
  destruct a as [|s|m1 e1], b as [|s'|m2 e2]; simpl; try done.
  - by destruct s, s'.
  - by destruct s.
  - by destruct s'.
  - unfold dyadic_compare. rewrite Z.min_comm, <- Z.compare_antisym. done.
Qed.

(** [a <= b] and [b <= c] give [a <= c], strictly when one of them is strict. *)
Lemma num_compare_trans a b c :
  cmp_le (num_compare a b) = true -> cmp_le (num_compare b c) = true ->
  cmp_le (num_compare a c) = true /\
  (cmp_lt (num_compare a b) || cmp_lt (num_compare b c) = true -> cmp_lt (num_compare a c) = true).
Proof.
  destruct a as [|s1|m1 e1], b as [|s2|m2 e2], c as [|s3|m3 e3]; simpl; try done;
    try (by destruct s1); try (by destruct s1, s2); try (by destruct s2); try (by destruct s1, s3);
    try (by destruct s1, s2, s3); try (by destruct s3); try (by destruct s2, s3).
  set (e := Z.min e1 (Z.min e2 e3)). rewrite !(dyadic_compare_at e) by lia.
  generalize (m1 * 2 ^ (e1 - e)), (m2 * 2 ^ (e2 - e)), (m3 * 2 ^ (e3 - e)). intros x y z.
  destruct (Z.compare_spec x y), (Z.compare_spec y z), (Z.compare_spec x z); simpl; try done; lia.
Qed.

Lemma string_compare_trans a b c :
  cmp_le (Some (String.compare a b)) = true -> cmp_le (Some (String.compare b c)) = true ->
  cmp_le (Some (String.compare a c)) = true /\
  (cmp_lt (Some (String.compare a b)) || cmp_lt (Some (String.compare b c)) = true ->
   cmp_lt (Some (String.compare a c)) = true).
Proof.
  destruct (String.compare a b) eqn:E1; try done; destruct (String.compare b c) eqn:E2; try done; intros _ _.
  - apply compare_eq in E1 as ->. apply compare_eq in E2 as ->. by rewrite compare_refl.
  - apply compare_eq in E1 as ->. by rewrite E2.
  - apply compare_eq in E2 as ->. by rewrite E1.
  - by rewrite (compare_lt_trans a b c E1 E2).
Qed.

(** ** The order of Python on numbers and strings *)

Lemma py_compare_swap a b : py_compare b a = option_map (option_map CompOpp) (py_compare a b).
Proof.
  destruct a, b; try done; cbn [py_compare num_of option_map]; f_equal; try apply num_compare_swap.
  simpl. by rewrite String.compare_antisym.
Qed.

Lemma py_compare_trans a b c x y :
  py_compare a b = Some x -> py_compare b c = Some y -> cmp_le x = true -> cmp_le y = true ->
  exists z, py_compare a c = Some z /\ cmp_le z = true /\ (cmp_lt x || cmp_lt y = true -> cmp_lt z = true).
Proof.
  intros Hab Hbc Hx Hy.
  destruct a, b; try done; destruct c; try done; cbn [py_compare num_of] in *;
    apply (inj Some) in Hab, Hbc; subst x y; (eexists; split; [reflexivity|]);
    first [by eapply string_compare_trans | by eapply num_compare_trans].
Qed.

Lemma py_compare_defined a b c x y :
  py_compare a b = Some x -> py_compare a c = Some y -> exists z, py_compare b c = Some z.
Proof. destruct a, b; try done; destruct c; try done; cbn [py_compare num_of]; eauto. Qed.

Lemma py_eq_compare a b x : py_compare a b = Some x -> py_eq a b = cmp_eq x.
Proof.
  destruct a, b; try done; cbn [py_compare num_of py_eq]; intros [= <-]; try done.
  destruct (String.compare s s0) eqn:E; simpl.
  - apply compare_eq in E as ->. by rewrite String.eqb_refl.
  - apply String.eqb_neq. intros ->. by rewrite compare_refl in E.
  - apply String.eqb_neq. intros ->. by rewrite compare_refl in E.
Qed.

Lemma cmp_flip x : cmp_ge x = cmp_le (option_map CompOpp x) /\ cmp_gt x = cmp_lt (option_map CompOpp x).
Proof. by destruct x as [[]|]. Qed.

(** A value between two bounds orders the bounds. *)
Lemma py_compare_between v lo hi x y :
  py_compare v lo = Some x -> py_compare v hi = Some y -> cmp_ge x = true -> cmp_le y = true ->
  exists z, py_compare lo hi = Some z /\ cmp_le z = true /\ (cmp_gt x || cmp_lt y = true -> cmp_lt z = true).
Proof.
  intros Hx Hy Hge Hle. destruct (cmp_flip x) as [F1 F2]. rewrite F1 in Hge. rewrite F2.
  apply (py_compare_trans lo v hi); [|done..]. by rewrite py_compare_swap, Hx.
Qed.

(** ** Values up to normal form *)

Definition num_or_nan (v : json) : num := match num_of v with Some n => n | None => NNaN end.

Lemma dyadic_scale m e k m2 e2 :
  0 <= k -> dyadic_compare (m * 2 ^ k) e m2 e2 = dyadic_compare m (e + k) m2 e2.
Proof.
  intros Hk. rewrite !(dyadic_compare_at (Z.min e e2)) by lia. f_equal.
  rewrite <- Z.mul_assoc, <- Z.pow_add_r by lia. do 2 f_equal. lia.
Qed.

Lemma num_of_norm_float f x : num_compare (num_of_float f) x = num_compare (num_or_nan (norm_float f)) x.
Proof.
  destruct f as [s|s| |s m e]; try done. cbn [norm_float num_of_float].
  destruct (odd_part m e) as [m' e'] eqn:Ho. apply odd_part_spec in Ho as (Hle & Hm & _).
  assert (Hs : (if s then Zneg m else Zpos m) = (if s then Zneg m' else Zpos m') * 2 ^ (e' - e)) by (destruct s; lia).
  rewrite Hs. destruct x as [| |m2 e2]; try (by destruct (0 <=? e')). cbn [num_compare].
  rewrite dyadic_scale by lia. replace (e + (e' - e)) with e' by lia.
  destruct (Z.leb_spec 0 e'); cbn [num_or_nan num_of num_of_float num_compare]; [|done].
  by rewrite dyadic_scale by lia.
Qed.

Lemma norm_float_number f : (exists z, norm_float f = JInt z) \/ exists f', norm_float f = JFloat f'.
Proof.
  destruct f as [s|s| |s m e]; simpl; eauto. destruct (odd_part m e) as [m' e'].
  destruct (0 <=? e'); eauto.
Qed.

Lemma norm_domain_same v : _value_domain (json_norm v) = _value_domain v.
Proof. destruct v; try done. simpl. by destruct (norm_float_number f) as [[z ->]|[f' ->] ]. Qed.

Lemma py_compare_norm v w : py_compare (json_norm v) w = py_compare v w.
Proof.
  destruct v as [| | |f| | |]; try done. cbn [json_norm].
  assert (Hn : forall x, num_compare (num_of_float f) x = num_compare (num_or_nan (norm_float f)) x)
    by apply num_of_norm_float.
  destruct (norm_float_number f) as [[z Hz]|[f' Hz] ];
  rewrite Hz in Hn |- *; cbn [num_or_nan num_of] in Hn;
  destruct w; try done; cbn [py_compare num_of]; by rewrite <- Hn.
Qed.

Lemma norm_list v l : json_norm v = json_norm (JArr l) -> exists l', v = JArr l' /\ map json_norm l' = map json_norm l.
Proof.
  destruct v as [| | |f| |l'|]; try done; simpl.
  - by destruct (norm_float_number f) as [[z ->]|[f' ->] ].
  - intros [= E]. eauto.
Qed.

Lemma norm_has_key m m' k : json_norm (JObj m) = json_norm (JObj m') -> has_key k m = has_key k m'.
Proof.
  intros [= E].
  assert (Hk : forall m : list (string * json), has_key k m
      = has_key k (sort_members (map (fun p => (fst p, json_norm (snd p))) m))).
  { intros n. apply Bool.eq_iff_eq_true. rewrite !has_key_spec.
    rewrite (Permutation_map fst (sort_members_perm _)), map_map. done. }
  by rewrite Hk, E, <- Hk.
Qed.

(** ** Satisfaction of assertions *)

Section Satisfaction.
Context `{Rfc8785Laws} `{Unicode} `{Regex}.
Implicit Types (a : PropertyAssertion) (v w : json).

Lemma same_digest_inv v w b :
  same_digest v w = Ok b -> exists s t, rfc8785_dumps v = Ok s /\ rfc8785_dumps w = Ok t /\
    b = String.eqb (sha256_digest s) (sha256_digest t).
Proof.
  unfold same_digest, canonical_digest, canonical_json_bytes. intros Hs. simp_res. subst. eauto.
Qed.

(** A comparison of digests that returns depends on the two values alone. *)
Lemma same_digest_norm v v' w w' b c :
  json_norm v = json_norm v' -> json_norm w = json_norm w' ->
  same_digest v w = Ok b -> same_digest v' w' = Ok c -> b = c.
Proof.
  intros Hv Hw (s & t & Hs & Ht & ->)%same_digest_inv (s' & t' & Hs' & Ht' & ->)%same_digest_inv.
  by rewrite (dumps_of_norm _ _ _ _ Hv Hs Hs'), (dumps_of_norm _ _ _ _ Hw Ht Ht').
Qed.

Lemma res_any_norm x l : forall l' b c,
  map json_norm l = map json_norm l' ->
  res_any (fun item => same_digest item x) l = Ok b ->
  res_any (fun item => same_digest item x) l' = Ok c -> b = c.
Proof.
  induction l as [|v l IH]; intros [|v' l'] b c Hm Hb Hc; try done; simpl in *; [congruence|].
  injection Hm as Hv Hl. simp_res. pose proof (same_digest_norm v v' x x _ _ Hv eq_refl E0 E) as ->.
  destruct a; simp_res; [congruence|]. by eapply IH.
Qed.

Lemma present_in_norm x v w p q :
  json_norm v = json_norm w -> present_in x v = Ok p -> present_in x w = Ok q -> p = q.
Proof.
  intros Hn Hp Hq. pose proof (norm_domain_same v) as Dv. rewrite Hn, norm_domain_same in Dv.
  destruct v as [| | | |s|l|m], w as [| | | |s'|l'|m']; try done; try (simpl in *; congruence).
  - injection Hn as ->. congruence.
  - injection Hn as Hl. simpl in Hp, Hq. simp_res. subst. f_equal. by eapply res_any_norm.
  - destruct x as [| | | |k| |]; simpl in *; try congruence.
    rewrite (norm_has_key m m' k Hn) in Hp. congruence.
Qed.

Lemma unary_matches_norm o v w : json_norm v = json_norm w -> unary_matches o v = unary_matches o w.
Proof.
  intros Hn. assert (Hb : forall u, unary_matches o (json_norm u) = unary_matches o u).
  { intros u. destruct u as [| | |f| | |]; try done. simpl.
    by destruct (norm_float_number f) as [[z ->]|[f' ->] ]. }
  by rewrite <- Hb, Hn, Hb.
Qed.

(** [_literal_satisfies] cannot tell two spellings of a JSON value apart. *)
Lemma literal_satisfies_norm a v w b c :
  json_norm v = json_norm w ->
  _literal_satisfies a v = Ok b -> _literal_satisfies a w = Ok c -> b = c.
Proof.
  intros Hn. unfold _literal_satisfies, _ordered_comparison.
  rewrite <- !(py_compare_norm v), <- !(py_compare_norm w), Hn.
  destruct (pa_operator a) eqn:Ho; try congruence.
  - by apply same_digest_norm.
  - intros Hb Hc. simp_res. subst. f_equal.
    eapply (same_digest_norm v w _ _ _ _ Hn eq_refl); eassumption.
  - intros Hb Hc. simp_res. 
    match goal with E1 : present_in _ v = _, E2 : present_in _ w = _ |- _ =>
      pose proof (present_in_norm _ _ _ _ _ Hn E1 E2) end. by subst.
  - intros Hb Hc. simp_res. 
    match goal with E1 : present_in _ v = _, E2 : present_in _ w = _ |- _ =>
      pose proof (present_in_norm _ _ _ _ _ Hn E1 E2) end. by subst.
  - pose proof (norm_domain_same v) as Dv. rewrite Hn, norm_domain_same in Dv.
    destruct v, w; try done; simpl in *; try congruence.
  - rewrite (unary_matches_norm _ v w Hn). congruence.
  - rewrite (unary_matches_norm _ v w Hn). congruence.
  - rewrite (unary_matches_norm _ v w Hn). congruence.
  - rewrite (unary_matches_norm _ v w Hn). congruence.
Qed.

(** ** Digests that stand for their values *)

(** No two of the values have different canonical bytes with one digest. *)
Definition digests_faithful (values : list json) : Prop :=
  forall v w s t, v ∈ values -> w ∈ values -> rfc8785_dumps v = Ok s -> rfc8785_dumps w = Ok t ->
    sha256_digest s = sha256_digest t -> s = t.

(** A value with the items that a [contains] looks at. *)
Definition with_items v : list json := v :: match v with JArr items => items | _ => [] end.

Lemma same_digest_norm_eq values v w :
  digests_faithful values -> v ∈ values -> w ∈ values ->
  same_digest v w = Ok true -> json_norm v = json_norm w.
Proof.
  intros Hf Hv Hw (s & t & Hs & Ht & E)%same_digest_inv. symmetry in E. apply String.eqb_eq in E.
  pose proof (Hf _ _ _ _ Hv Hw Hs Ht E) as ->. by eapply dumps_norm.
Qed.

Lemma same_digest_sym v w b : same_digest v w = Ok b -> same_digest w v = Ok b.
Proof.
  intros (s & t & Hs & Ht & ->)%same_digest_inv. unfold same_digest, canonical_digest, canonical_json_bytes.
  rewrite Hs, Ht. cbn [mbind res_bind]. by rewrite String.eqb_sym.
Qed.

Lemma same_digest_trans u v w b :
  same_digest u v = Ok true -> same_digest v w = Ok b -> same_digest u w = Ok b.
Proof.
  intros (s & t & Hs & Ht & E)%same_digest_inv (t' & x & Ht' & Hx & ->)%same_digest_inv.
  symmetry in E. apply String.eqb_eq in E. rewrite Ht in Ht'. simplify_eq.
  unfold same_digest, canonical_digest, canonical_json_bytes. rewrite Hs, Hx. cbn [mbind res_bind].
  unfold sha256_digest in E. by rewrite E.
Qed.

Lemma ordered_domain v o x : _ordered_comparison v o x = Some true -> _value_domain v = _value_domain x.
Proof. destruct v, x; done. Qed.

(** The domain of a value that satisfies an assertion is one of its domains. *)
Lemma satisfies_domain values a v :
  digests_faithful values -> v ∈ values -> pa_value a ∈ values ->
  _literal_satisfies a v = Ok true -> _value_domain v ∈ _assertion_domains a.
Proof.
  intros Hf Hv Ha. unfold _literal_satisfies, _assertion_domains.
  destruct (pa_operator a).
  - intros E. pose proof (same_digest_norm_eq _ _ _ Hf Hv Ha E) as Hn.
    rewrite <- norm_domain_same, Hn, norm_domain_same. set_solver.
  - intros _. destruct v; set_solver.
  - intros [= E]. destruct (_ordered_comparison _ _ _) as [[]|] eqn:Ho; try done. rewrite (ordered_domain _ _ _ Ho). set_solver.
  - intros [= E]. destruct (_ordered_comparison _ _ _) as [[]|] eqn:Ho; try done. rewrite (ordered_domain _ _ _ Ho). set_solver.
  - intros [= E]. destruct (_ordered_comparison _ _ _) as [[]|] eqn:Ho; try done. rewrite (ordered_domain _ _ _ Ho). set_solver.
  - intros [= E]. destruct (_ordered_comparison _ _ _) as [[]|] eqn:Ho; try done. rewrite (ordered_domain _ _ _ Ho). set_solver.
  - intros E. simp_res. destruct v, (pa_value a); simpl in *; simp_res; subst; simpl in *; try done; set_solver.
  - intros E. simp_res. destruct v, (pa_value a); simpl in *; simp_res; subst; simpl in *; try done; set_solver.
  - destruct v; try done. set_solver.
  - intros [= E]. destruct v; try done; set_solver.
  - intros [= E]. destruct v; try done; set_solver.
  - intros [= E]. destruct v; try done; set_solver.
  - intros [= E]. destruct v; try done; set_solver.
Qed.
End Satisfaction.

(** ** Equal numbers have one normal form *)

(** [m * 2^e] with [m] odd or zero. *)
Definition odd_or_zero (m e : Z) : Prop := Z.odd m = true \/ (m = 0 /\ e = 0).

Lemma odd_dyadic_unique m1 e1 m2 e2 :
  odd_or_zero m1 e1 -> odd_or_zero m2 e2 -> dyadic_compare m1 e1 m2 e2 = Eq -> m1 = m2 /\ e1 = e2.
Proof.
  assert (Hle : forall m1 e1 m2 e2, Z.odd m1 = true -> Z.odd m2 = true ->
    m1 * 2 ^ (e1 - Z.min e1 e2) = m2 * 2 ^ (e2 - Z.min e1 e2) -> e2 <= e1).
  { clear. intros m1 e1 m2 e2 H1 H2 E. enough (e2 - Z.min e1 e2 <= e1 - Z.min e1 e2) by lia.
    apply (odd_pow_divides m1); [lia|done|]. exists m2. lia. }
  unfold dyadic_compare. intros Ho1 Ho2 E%Z.compare_eq.
  assert (Hz : forall m k, 0 <= k -> m * 2 ^ k = 0 -> m = 0).
  { intros m k Hk Hm. apply Z.mul_eq_0 in Hm as [|Hp]; [done|]. by apply Z.pow_nonzero in Hp; lia. }
  destruct Ho1 as [H1|[-> ->]], Ho2 as [H2|[-> ->]].
  - assert (e1 = e2) as ->.
    { apply Z.le_antisymm; [apply (Hle m2 e2 m1 e1)|apply (Hle m1 e1 m2 e2)]; try done.
      by rewrite Z.min_comm. }
    split; [|done]. rewrite Z.min_id, Z.sub_diag in E. lia.
  - exfalso. rewrite Z.mul_0_l in E. apply Hz in E; [subst; done|lia].
  - exfalso. rewrite Z.mul_0_l in E. symmetry in E. apply Hz in E; [subst; done|lia].
  - done.
Qed.

(** The normal form of a number from its odd part. *)
Definition number_norm (m e : Z) : json :=
  if 0 <=? e then JInt (m * 2 ^ e)
  else JFloat (S754_finite (m <? 0) (Z.to_pos (Z.abs m)) e).

Lemma norm_of_number v n :
  num_of v = Some n -> is_bool v = false ->
  match n with
  | NNaN => True
  | NInf s => json_norm v = JFloat (S754_infinity s)
  | NDyadic m e => exists m' e', odd_or_zero m' e' /\ json_norm v = number_norm m' e' /\
      (forall x y, dyadic_compare m e x y = dyadic_compare m' e' x y)
  end.
Proof.
  assert (Hodd : forall m e, exists m' e', odd_part m e = (m', e')) by (intros m e; destruct (odd_part m e); eauto).
  assert (Hz : forall z, exists m' e', odd_or_zero m' e' /\ JInt z = number_norm m' e' /\
      (forall x y, dyadic_compare z 0 x y = dyadic_compare m' e' x y)).
  { intros [|p|p]; [exists 0, 0; split_and!; [by right|done|done]| |];
      destruct (Hodd p 0) as (m' & e' & Ho); apply odd_part_spec in Ho as (Hle & Hm & Ho);
      rewrite Z.sub_0_r in Hm; [exists (Zpos m'), e'|exists (Zneg m'), e'];
      (split; [by left|]); unfold number_norm; destruct (Z.leb_spec 0 e'); try lia;
      (split; [f_equal; lia|]); intros x y.
    - by rewrite Hm, dyadic_scale by lia.
    - change (Zneg p) with (- Zpos p). rewrite Hm, <- Z.mul_opp_l, dyadic_scale by lia. done. }
  destruct v as [| |z|[s|s| |s p e]| | |]; intros [= <-] Hb; try done; cbn [num_of_float].
  - apply (Hz z).
  - apply (Hz 0).
  - destruct (Hodd p e) as (m' & e' & Ho). cbn [json_norm norm_float]. rewrite Ho.
    apply odd_part_spec in Ho as (Hle & Hm & Ho).
    exists (if s then Zneg m' else Zpos m'), e'. split; [left; by destruct s|].
    split; [unfold number_norm; by destruct s, (0 <=? e')|].
    intros x y. assert (Hs : (if s then Zneg p else Zpos p) = (if s then Zneg m' else Zpos m') * 2 ^ (e' - e))
      by (destruct s; lia).
    rewrite Hs, dyadic_scale by lia. f_equal. lia.
Qed.

Lemma dyadic_compare_swap m1 e1 m2 e2 : dyadic_compare m2 e2 m1 e1 = CompOpp (dyadic_compare m1 e1 m2 e2).
Proof. unfold dyadic_compare. by rewrite Z.min_comm, <- Z.compare_antisym. Qed.

Lemma py_compare_Eq_norm v w : py_compare v w = Some (Some Eq) -> json_norm v = json_norm w.
Proof.
  intros Hc.
  assert (Hstr : (exists s t, v = JStr s /\ w = JStr t) \/
    exists a b, num_of v = Some a /\ num_of w = Some b /\ is_bool v = false /\ is_bool w = false /\
                num_compare a b = Some Eq).
  { destruct v, w; try done; first [left; by eauto | right; do 2 eexists; split_and!; [done..|];
      cbn [py_compare num_of] in Hc; by apply (inj Some) in Hc]. }
  destruct Hstr as [(s & t & -> & ->)|(a & b & Ha & Hb & Hva & Hvb & E)].
  - simpl in Hc. injection Hc as Hc. apply compare_eq in Hc as ->. done.
  - apply norm_of_number in Ha; [|done]. apply norm_of_number in Hb; [|done].
    destruct a as [|s|m e], b as [|s'|m' e']; try done; simpl in E.
    + destruct s, s'; try done; congruence.
    + by destruct s.
    + by destruct s'.
    + destruct Ha as (x & k & Hx & -> & Sx), Hb as (y & j & Hy & -> & Sy).
      injection E as E. rewrite Sx, dyadic_compare_swap, Sy in E.
      assert (Eyx : dyadic_compare y j x k = Eq) by (by destruct (dyadic_compare y j x k)).
      by destruct (odd_dyadic_unique _ _ _ _ Hy Hx Eyx) as [-> ->].
Qed.

(** ** Soundness of the contradiction checks *)

Section Soundness.
Context `{Rfc8785Laws} `{Unicode} `{Regex}.
Implicit Types (a l r : PropertyAssertion) (v w : json).

Abbreviation sat a v := (_literal_satisfies a v = Ok true).

Lemma disjoint_domains_no d xs ys : d ∈ xs -> d ∈ ys -> disjoint_domains xs ys = false.
Proof.
  intros Hx Hy. unfold disjoint_domains. apply negb_false_iff, existsb_exists.
  exists d. split; [by apply list_elem_of_In|]. apply existsb_exists.
  exists d. split; [by apply list_elem_of_In|by destruct d].
Qed.

Lemma sat_ordered a v :
  is_ordered (pa_operator a) = true -> sat a v ->
  _ordered_comparison v (pa_operator a) (pa_value a) = Some true.
Proof.
  unfold _literal_satisfies. destruct (pa_operator a); try done; intros _ [= Hs];
    destruct (_ordered_comparison _ _ _) as [[]|]; done.
Qed.

Lemma ordered_comparison_inv v o x :
  _ordered_comparison v o x = Some true -> exists c, py_compare v x = Some c /\ order_holds o c = Some true.
Proof.
  unfold _ordered_comparison. destruct (py_compare v x) as [c|]; simpl; [eauto|done].
Qed.

(** Two bounds that [bounds_contradict] refuses leave no value between them. *)
Lemma bounds_contradict_sound l r v : bounds_contradict l r = true -> sat l v -> sat r v -> False.
Proof.
  unfold bounds_contradict.
  set (lower := if is_lower_bound (pa_operator l) then l else r).
  set (upper := if is_upper_bound (pa_operator r) then r else l).
  intros Hb Hl Hr.
  assert (Hlo : sat lower v) by (unfold lower; destruct (is_lower_bound _); assumption).
  assert (Hup : sat upper v) by (unfold upper; destruct (is_upper_bound _); assumption).
  clearbody lower upper. clear l r Hl Hr.
  destruct (is_lower_bound (pa_operator lower)) eqn:Elo; [|done].
  destruct (is_upper_bound (pa_operator upper)) eqn:Eup; [|done]. simpl in Hb.
  apply sat_ordered in Hlo; [|by destruct (pa_operator lower)].
  apply sat_ordered in Hup; [|by destruct (pa_operator upper)].
  apply ordered_comparison_inv in Hlo as (x & Hx & Ox). apply ordered_comparison_inv in Hup as (y & Hy & Oy).
  assert (Gx : cmp_ge x = true) by (by destruct (pa_operator lower), x as [[]|]).
  assert (Ly : cmp_le y = true) by (by destruct (pa_operator upper), y as [[]|]).
  destruct (py_compare_between v _ _ x y Hx Hy Gx Ly) as (z & Hz & Lz & Sz).
  unfold _ordered_comparison in Hb. rewrite Hz in Hb. cbn [mbind option_bind order_holds] in Hb.
  destruct z as [[]|]; try done; simpl in Hb; rewrite (py_eq_compare _ _ _ Hz) in Hb; try done.
  assert (cmp_lt (Some Eq) = true); [|done]. apply Sz. apply orb_true_iff. simpl in Hb.
  apply orb_true_iff in Hb as [Hs|Hs]; apply bool_decide_eq_true in Hs; rewrite Hs in *.
  - left. by destruct x as [[]|].
  - right. by destruct y as [[]|].
Qed.

Lemma sat_exact o v w : exact_unary o = Some v -> unary_matches o w = true -> w = v.
Proof. destruct o; try done; intros [= <-]; destruct w as [|[]| | | | |]; done. Qed.

Lemma sat_unary a v : is_unary (pa_operator a) = true -> sat a v -> unary_matches (pa_operator a) v = true.
Proof. unfold _literal_satisfies. destruct (pa_operator a); try done; intros _ [= Hs]; exact Hs. Qed.

Lemma exact_is_unary o v : exact_unary o = Some v -> is_unary o = true.
Proof. by destruct o. Qed.

Lemma sat_eq a v : pa_operator a = EQ -> sat a v -> same_digest v (pa_value a) = Ok true.
Proof. unfold _literal_satisfies. by intros ->. Qed.

Lemma sat_ne a v : pa_operator a = NE -> sat a v -> same_digest v (pa_value a) = Ok false.
Proof. unfold _literal_satisfies. intros -> Hs. simp_res. by destruct a0. Qed.

Lemma same_digest_refl_false v w b : same_digest v w = Ok true -> same_digest v w = Ok b -> b = true.
Proof. congruence. Qed.

(** [contains] and [not_contains] of values with one digest. *)
Lemma contains_sound values l r v :
  digests_faithful values -> pa_value l ∈ values -> pa_value r ∈ values ->
  (forall item, item ∈ with_items v -> item ∈ values) ->
  pa_operator l = CONTAINS -> pa_operator r = NOT_CONTAINS ->
  same_digest (pa_value l) (pa_value r) = Ok true -> sat l v -> sat r v -> False.
Proof.
  intros Hf Hl Hr Hv El Er Hd Sl Sr. unfold _literal_satisfies in Sl, Sr. rewrite El in Sl. rewrite Er in Sr.
  simp_res. pose proof (same_digest_norm_eq _ _ _ Hf Hl Hr Hd) as Hn.
  destruct a as [[]|]; try done. destruct a0 as [[]|]; try done.
  unfold present_in in *. destruct v as [| | | |s|items|m]; try done.
  - destruct (pa_value l); try done. destruct (pa_value r); try done.
    injection Hn as ->. congruence.
  - simp_res. subst.
    assert (Hall : forall xs b c, res_any (fun item => same_digest item (pa_value r)) xs = Ok b ->
      res_any (fun item => same_digest item (pa_value l)) xs = Ok c -> b = c).
    { intros xs. induction xs as [|item xs IH]; intros b c Hb Hc; simpl in *; [congruence|]. simp_res.
      match goal with E1 : same_digest item (pa_value r) = Ok ?x, E2 : same_digest item (pa_value l) = Ok ?y |- _ =>
        pose proof (same_digest_norm item item _ _ x y eq_refl (eq_sym Hn) E1 E2) as -> ; destruct y end;
        simp_res; [congruence|by eapply IH]. }
    match goal with E1 : res_any _ items = Ok _, E2 : res_any _ items = Ok _ |- _ =>
      first [pose proof (Hall _ _ _ E1 E2)|pose proof (Hall _ _ _ E2 E1)] end. done.
  - destruct (pa_value l); try done. destruct (pa_value r); try done.
    injection Hn as ->. congruence.
Qed.

Lemma pair_guard (o1 o2 a b : Operator) :
  (bool_decide (o1 = a) && bool_decide (o2 = b)) || (bool_decide (o1 = b) && bool_decide (o2 = a)) = true ->
  (o1 = a /\ o2 = b) \/ (o1 = b /\ o2 = a).
Proof. intros [E|E]%orb_prop; apply andb_prop in E as [E1%bool_decide_eq_true E2%bool_decide_eq_true]; auto. Qed.

(** What the branches before the bounds rule out: an equality against a unary
    assertion, and the comparison of a pinned value with a bound. *)
Lemma equality_unary_sound values (e u : PropertyAssertion) v :
  digests_faithful values -> v ∈ values -> pa_value e ∈ values ->
  is_equality (pa_operator e) = true -> is_unary (pa_operator u) = true ->
  exact_unary (pa_operator u) = None ->
  (if bool_decide (pa_operator e = EQ) then negb (unary_matches (pa_operator u) (pa_value e))
   else negb (bool_decide (pa_operator u = NOT_NULL)) && unary_matches (pa_operator u) (pa_value e)) = true ->
  sat e v -> sat u v -> False.
Proof.
  intros Hf Hv He Ee Eu Ex Hc Se Su. destruct (pa_operator u) eqn:Ou; try done.
  destruct (bool_decide (pa_operator e = EQ)) eqn:Oe; [apply bool_decide_eq_true in Oe|done].
  apply sat_unary in Su; [|by rewrite Ou]. rewrite Ou in Su. apply negb_true_iff in Hc.
  pose proof (same_digest_norm_eq _ _ _ Hf Hv He (sat_eq _ _ Oe Se)) as Hn.
  rewrite (unary_matches_norm _ _ _ Hn) in Su. congruence.
Qed.

Lemma pinned_bound_sound values (e o : PropertyAssertion) v :
  digests_faithful values -> v ∈ values -> pa_value e ∈ values ->
  pa_operator e = EQ -> is_ordered (pa_operator o) = true ->
  negb (bool_decide (_ordered_comparison (pa_value e) (pa_operator o) (pa_value o) = Some true)) = true ->
  sat e v -> sat o v -> False.
Proof.
  intros Hf Hv He Ee Eo Hc Se So. apply negb_true_iff, bool_decide_eq_false in Hc. apply Hc.
  pose proof (same_digest_norm_eq _ _ _ Hf Hv He (sat_eq _ _ Ee Se)) as Hn.
  apply sat_ordered in So; [|done]. unfold _ordered_comparison in *.
  by rewrite <- py_compare_norm, <- Hn, py_compare_norm.
Qed.

Lemma incomparable_sound l r v :
  is_ordered (pa_operator l) = true -> is_ordered (pa_operator r) = true ->
  _ordered_comparison (pa_value l) GT (pa_value r) = None -> sat l v -> sat r v -> False.
Proof.
  intros El Er Hc Sl Sr. apply sat_ordered in Sl, Sr; [|done..].
  apply ordered_comparison_inv in Sl as (x & Hx & _). apply ordered_comparison_inv in Sr as (y & Hy & _).
  destruct (py_compare_defined _ _ _ _ _ Hx Hy) as [z Hz]. unfold _ordered_comparison in Hc.
  by rewrite Hz in Hc.
Qed.

(** [_contradictory] never refuses two assertions that one value satisfies. *)
Lemma contradictory_sound values l r v :
  digests_faithful values -> pa_value l ∈ values -> pa_value r ∈ values ->
  (forall item, item ∈ with_items v -> item ∈ values) ->
  _contradictory l r = Ok true -> sat l v -> sat r v -> False.
Proof.
  intros Hf Hl Hr Hv Hc Sl Sr. assert (Hvv : v ∈ values) by (apply Hv; left).
  unfold _contradictory in Hc. cbv zeta in Hc.
  rewrite (disjoint_domains_no (_value_domain v)) in Hc by (by eapply satisfies_domain).
  destruct (_ && _) eqn:G1 in Hc.
  { apply andb_prop in G1 as [O1%bool_decide_eq_true O2%bool_decide_eq_true]. simp_res.
    pose proof (same_digest_trans _ _ _ _ (same_digest_sym _ _ _ (sat_eq _ _ O1 Sl)) (sat_eq _ _ O2 Sr)) as E'.
    rewrite E' in E. by simplify_eq. }
  destruct (_ || _) eqn:G2 in Hc.
  { apply pair_guard in G2 as [[O1 O2]|[O1 O2]].
    - pose proof (same_digest_trans _ _ _ _ (sat_eq _ _ O1 Sl) Hc). pose proof (sat_ne _ _ O2 Sr). congruence.
    - pose proof (same_digest_trans _ _ _ _ (sat_eq _ _ O2 Sr) (same_digest_sym _ _ _ Hc)).
      pose proof (sat_ne _ _ O1 Sl). congruence. }
  destruct (_ || _) eqn:G3 in Hc.
  { apply pair_guard in G3 as [[O1 O2]|[O1 O2]]; [by eapply (contains_sound values l r v)|].
    apply same_digest_sym in Hc. by eapply (contains_sound values r l v). }
  destruct (_ || _) eqn:G4 in Hc.
  { apply orb_prop in G4 as [G4|G4]; apply pair_guard in G4 as [[O1 O2]|[O1 O2]];
      (apply sat_unary in Sl; [|by rewrite O1]); (apply sat_unary in Sr; [|by rewrite O2]);
      rewrite O1 in Sl; rewrite O2 in Sr; destruct v as [|[]| | | | |]; done. }
  destruct (exact_unary (pa_operator l)) as [w|] eqn:X1.
  { apply sat_unary in Sl; [|by eapply exact_is_unary]. rewrite <- (sat_exact _ _ _ X1 Sl) in Hc.
    rewrite Sr in Hc. done. }
  destruct (exact_unary (pa_operator r)) as [w|] eqn:X2.
  { apply sat_unary in Sr; [|by eapply exact_is_unary]. rewrite <- (sat_exact _ _ _ X2 Sr) in Hc.
    rewrite Sl in Hc. done. }
  destruct (_ && _) eqn:G5 in Hc.
  { apply andb_prop in G5 as [E1 E2]. simp_res.
    destruct (is_equality (pa_operator l)) eqn:El, (is_unary (pa_operator l)) eqn:Ul; try done.
    - by destruct (pa_operator l).
    - by apply (equality_unary_sound values l r v).
    - by apply (equality_unary_sound values r l v).
    - by destruct (pa_operator r). }
  destruct (_ && _) eqn:G6 in Hc.
  { bool_simp. match goal with E : bool_decide _ = true |- _ => apply bool_decide_eq_true in E end.
    by apply (incomparable_sound l r v). }
  destruct (_ && _) eqn:G7 in Hc.
  { apply andb_prop in G7 as [O1%bool_decide_eq_true O2]. simp_res. by apply (pinned_bound_sound values l r v). }
  destruct (_ && _) eqn:G8 in Hc.
  { apply andb_prop in G8 as [O1%bool_decide_eq_true O2]. simp_res. by apply (pinned_bound_sound values r l v). }
  simp_res. by eapply (bounds_contradict_sound l r v).
Qed.

Lemma res_any_true {A} (f : A -> res bool) xs : res_any f xs = Ok true -> exists x, x ∈ xs /\ f x = Ok true.
Proof.
  induction xs as [|x xs IH]; simpl; intros Hr; [done|]. simp_res. destruct a; simp_res.
  - exists x. split; [left|done].
  - destruct (IH Hr) as (y & Hy & E'). exists y. split; [by right|done].
Qed.

Lemma res_mapM_elem {A B} (f : A -> res B) xs ys y :
  res_mapM f xs = Ok ys -> y ∈ ys -> exists x, x ∈ xs /\ f x = Ok y.
Proof.
  revert ys. induction xs as [|x xs IH]; simpl; intros ys Hm Hy; simp_res; subst; [set_solver|].
  apply elem_of_cons in Hy as [->|Hy]; [exists x; split; [left|done]|].
  destruct (IH _ E0 Hy) as (x' & Hx & E'). exists x'. split; [by right|done].
Qed.

Section Set_.
Variables (assertions : list PropertyAssertion) (v : json).
Let values := map pa_value assertions ++ with_items v.
Hypothesis Hf : digests_faithful values.
Hypothesis Hsat : Forall (fun a => sat a v) assertions.

Lemma value_in a : a ∈ assertions -> pa_value a ∈ values.
Proof. intros Ha. apply elem_of_app. left. apply list_elem_of_In, in_map. by apply list_elem_of_In. Qed.

Lemma item_in item : item ∈ with_items v -> item ∈ values.
Proof. intros Hi. apply elem_of_app. by right. Qed.

Lemma sat_in a : a ∈ assertions -> sat a v.
Proof. rewrite Forall_forall in Hsat. apply Hsat. Qed.

Lemma pair_contradictory_sound rest :
  (forall a, a ∈ rest -> a ∈ assertions) -> pair_contradictory rest = Ok true -> False.
Proof.
  induction rest as [|first rest IH]; simpl; intros Hin Hc; [done|]. simp_res. destruct a; simp_res.
  - apply res_any_true in E as (other & Ho & E).
    assert (Hfa : first ∈ assertions) by (apply Hin; left).
    assert (Hoa : other ∈ assertions) by (apply Hin; by right).
    apply (contradictory_sound values first other v); auto using value_in, item_in, sat_in.
  - apply IH; [|done]. intros a Ha. apply Hin. by right.
Qed.

Lemma filter_operator o a :
  a ∈ List.filter (fun a => bool_decide (pa_operator a = o)) assertions -> a ∈ assertions /\ pa_operator a = o.
Proof.
  intros Ha. apply list_elem_of_In, filter_In in Ha as [Ha Ho%bool_decide_eq_true].
  by apply list_elem_of_In in Ha.
Qed.

Lemma exact_values_norm x : x ∈ exact_values assertions -> json_norm v = json_norm x.
Proof.
  unfold exact_values. intros [Hx|Hx]%elem_of_app.
  - apply list_elem_of_In, in_map_iff in Hx as (a & <- & Ha%list_elem_of_In).
    apply filter_operator in Ha as [Ha Ho].
    apply (same_digest_norm_eq values); [done| |by apply value_in|].
    + apply item_in. left.
    + apply sat_eq; [done|by apply sat_in].
  - apply list_elem_of_omap in Hx as (a & Ha & Hx). f_equal.
    apply (sat_exact _ _ _ Hx). apply sat_unary; [by eapply exact_is_unary|by apply sat_in].
Qed.

Lemma pinned_bounds_norm pinned x :
  pinned_bounds assertions = Ok pinned -> x ∈ pinned -> json_norm v = json_norm x.
Proof.
  unfold pinned_bounds. intros Hp Hx. simp_res. subst.
  apply list_elem_of_In, in_concat in Hx as (xs & Hxs%list_elem_of_In & Hx%list_elem_of_In).
  destruct (res_mapM_elem _ _ _ _ E Hxs) as (floor & Hfl & Ef). simp_res. subst.
  apply list_elem_of_In, in_concat in Hx as (us & Hus%list_elem_of_In & Hx%list_elem_of_In).
  match goal with E : res_mapM _ _ = Ok a0 |- _ => destruct (res_mapM_elem _ _ _ _ E Hus) as (ceiling & Hce & Ec) end.
  simp_res. subst. match goal with E : same_digest _ _ = Ok ?b |- _ => destruct b; [rename E into Hd|set_solver] end.
  apply list_elem_of_singleton in Hx as ->.
  apply filter_operator in Hfl as [Hfl Of]. apply filter_operator in Hce as [Hce Oc].
  assert (Hn : json_norm (pa_value floor) = json_norm (pa_value ceiling))
    by (apply (same_digest_norm_eq values); auto using value_in).
  assert (Sf := sat_ordered floor v ltac:(by rewrite Of) (sat_in _ Hfl)).
  assert (Sc := sat_ordered ceiling v ltac:(by rewrite Oc) (sat_in _ Hce)).
  rewrite Of in Sf. rewrite Oc in Sc.
  apply ordered_comparison_inv in Sf as (c & Hc & Oc'). apply ordered_comparison_inv in Sc as (d & Hd' & Od).
  assert (Hcd : py_compare v (pa_value ceiling) = py_compare v (pa_value floor)).
  { rewrite (py_compare_swap (pa_value ceiling)), (py_compare_swap (pa_value floor)).
    by rewrite <- (py_compare_norm (pa_value ceiling)), <- Hn, py_compare_norm. }
  rewrite Hcd, Hc in Hd'. apply (inj Some) in Hd' as <-.
  apply py_compare_Eq_norm. by destruct c as [[]|].
Qed.

Lemma assertion_set_sound : _assertion_set_contradictory assertions = Ok true -> False.
Proof.
  unfold _assertion_set_contradictory. intros Hc. simp_res. destruct a.
  { by apply pair_contradictory_sound in E. }
  simp_res. apply res_any_true in Hc as (x & Hx & Hc). apply res_any_true in Hc as (a' & Ha & Hc). simp_res.
  match goal with E : _literal_satisfies a' x = Ok ?b |- _ => destruct b; [done|rename E into Es] end.
  assert (Hn : json_norm v = json_norm x).
  { apply elem_of_app in Hx as [Hx|Hx]; [by apply exact_values_norm|by eapply pinned_bounds_norm]. }
  by pose proof (literal_satisfies_norm a' v x _ _ Hn (sat_in _ Ha) Es).
Qed.
End Set_.
End Soundness.
