(* ===== verification/AcceptanceTheorems.v ===== *)
(** * The acceptance compiler: theorems *)
From Stdlib Require Import SpecFloat Ascii String.
From S2P Require Import Prelude Sha256 Json JsonText PyStr Canonical JsonSpec JsonFacts CanonicalFacts.
From S2P Require Import Acceptance AcceptanceFacts Contradictions.

Section Theorems.
Context `{Rfc8785Laws} `{Unicode} `{Regex}.

Lemma compile_inv reg contract trusted plan :
  compile_acceptance_plan reg contract trusted = Ok plan ->
  compile_contract reg contract [] = (Ok (requirements plan, criteria plan), []) /\
  tasks plan = numbered_tasks (requirements plan) /\
  trusted_test_digests plan = sorted_items trusted /\
  canonical_digest (JObj contract) = Ok (contract_digest plan) /\
  canonical_digest (JObj (plan_shell (contract_digest plan) (requirements plan) (tasks plan)
                            (criteria plan) (trusted_test_digests plan))) = Ok (plan_digest plan).
Proof.
  unfold compile_acceptance_plan. intros Hc.
  destruct (compile_contract reg contract []) as [[[reqs compiled]|e] [|d ds]]; try done.
  cbv zeta in Hc. simp_res. subst. done.
Qed.

(** C31. A plan is compiled only from a complete contract: its requirements and
    criteria are exactly the contract's, in order of identifier; every criterion
    names known requirements and is sound in its one executable form; every
    requirement is covered by a criterion and has a task. *)
Theorem compile_plan_sound reg contract trusted plan :
  compile_acceptance_plan reg contract trusted = Ok plan ->
  contract_ok reg contract (requirements plan) (criteria plan) /\
  map requirement_id (tasks plan) = requirements plan /\
  canonical_digest (JObj contract) = Ok (contract_digest plan).
Proof.
  intros (Hc & Ht & _ & Hd & _)%compile_inv.
  apply compile_contract_ok in Hc as (more & Hm & Hok). destruct more; [|done].
  split; [by apply Hok|]. by rewrite Ht, numbered_tasks_requirements.
Qed.

(** C32. A set of assertions on one path that the compiler refuses as
    contradictory has no model: every JSON value fails one of them, unless two of
    the values involved have different canonical bytes with one SHA-256 digest. *)
Theorem contradictory_unsatisfiable assertions v :
  _assertion_set_contradictory assertions = Ok true ->
  digests_faithful (map pa_value assertions ++ with_items v) ->
  exists a, a ∈ assertions /\ _literal_satisfies a v <> Ok true.
Proof.
  intros Hc Hf.
  set (sat a := match _literal_satisfies a v with Ok true => true | _ => false end).
  assert (Hs : forall a, sat a = true <-> _literal_satisfies a v = Ok true).
  { intros a. subst sat. simpl. by destruct (_literal_satisfies a v) as [[]|]. }
  destruct (forallb sat assertions) eqn:Hall.
  - exfalso. apply (assertion_set_sound assertions v Hf); [|done].
    apply Forall_forall. intros a Ha. apply Hs. rewrite forallb_forall in Hall.
    by apply Hall, list_elem_of_In.
  - apply not_true_iff_false in Hall. rewrite forallb_forall in Hall.
    destruct (List.find (fun a => negb (sat a)) assertions) as [a|] eqn:Hfind.
    + apply find_some in Hfind as [Ha Hna]. exists a. split; [by apply list_elem_of_In|].
      rewrite <- Hs. by destruct (sat a).
    + exfalso. apply Hall. intros a Ha. apply (find_none _ _ Hfind) in Ha. by destruct (sat a).
Qed.

(** Whether a value satisfies an assertion depends on the JSON value alone:
    not on how a number is spelled ([1], [1.0]) nor on the order of members. *)
Theorem satisfaction_by_value a v w b c :
  json_norm v = json_norm w ->
  _literal_satisfies a v = Ok b -> _literal_satisfies a w = Ok c -> b = c.
Proof. apply literal_satisfies_norm. Qed.

Lemma norm_members k m m' :
  NoDup (map fst m) -> NoDup (map fst m') -> json_norm (JObj m) = json_norm (JObj m') ->
  json_norm (jget k m) = json_norm (jget k m').
Proof.
  intros Hm Hm' [= E].
  assert (Hk : forall n : list (string * json), NoDup (map fst n) ->
    json_norm (jget k n) = jget k (sort_members (map (fun p => (fst p, json_norm (snd p))) n))).
  { intros n Hn. unfold jget. rewrite sort_members_assoc by (by rewrite map_map).
    clear. induction n as [|[k' v] n IH]; simpl; [done|]. by destruct (String.eqb k k'). }
  by rewrite (Hk m), (Hk m'), E.
Qed.

Lemma shell_keys d reqs ts cs trusted : NoDup (map fst (plan_shell d reqs ts cs trusted)).
Proof. simpl. decide_now. Qed.

(** A plan's digest binds the plan: two compiled plans with one digest are
    the same JSON value, contract digest included, unless the digested plans are
    two different texts with one SHA-256 digest. *)
Theorem plan_digest_binds reg1 reg2 contract1 contract2 trusted1 trusted2 p1 p2 :
  compile_acceptance_plan reg1 contract1 trusted1 = Ok p1 ->
  compile_acceptance_plan reg2 contract2 trusted2 = Ok p2 ->
  plan_digest p1 = plan_digest p2 ->
  json_norm (as_dict p1) = json_norm (as_dict p2) \/
  exists b1 b2, b1 <> b2 /\ sha256_digest b1 = sha256_digest b2 /\
    canonical_json_bytes (JObj (plan_shell (contract_digest p1) (requirements p1) (tasks p1)
                                  (criteria p1) (trusted_test_digests p1))) = Ok b1 /\
    canonical_json_bytes (JObj (plan_shell (contract_digest p2) (requirements p2) (tasks p2)
                                  (criteria p2) (trusted_test_digests p2))) = Ok b2.
Proof.
  intros (_ & _ & _ & _ & D1)%compile_inv (_ & _ & _ & _ & D2)%compile_inv Hd.
  unfold canonical_digest in D1, D2. simp_res.
  destruct (String.eqb_spec a0 a) as [->|Hne]; [left|right; exists a0, a; split_and!; [done|unfold sha256_digest; congruence|done|done]].
  pose proof (dumps_norm _ _ _ E0 E) as Hn.
  pose proof (fun k => norm_members k _ _ (shell_keys _ _ _ _ _) (shell_keys _ _ _ _ _) Hn) as Hm.
  pose proof (Hm "contract_digest"%string) as M1. pose proof (Hm "requirements"%string) as M2.
  pose proof (Hm "tasks"%string) as M3. pose proof (Hm "criteria"%string) as M4.
  pose proof (Hm "trusted_test_digests"%string) as M5. cbn in M1, M2, M3, M4, M5.
  unfold as_dict, plan_shell. cbn -[sort_members]. congruence.
Qed.
End Theorems.

(** ** Collections *)

(** The map that an array of identified items stands for. *)
Definition keyed_map (collection : string) (items : list (string * list (string * json))) : list (string * json) :=
  map (fun p => (fst p, JObj (keyed_item collection (snd p)))) items.

(** An array of items with distinct non-empty identifiers compiles as the map
    from identifiers to items, without a diagnostic. *)
Theorem keyed_array_is_map collection items ds :
  NoDup (map fst items) -> Forall (fun p => fst p <> ""%string /\ jget "id" (snd p) = JStr (fst p)) items ->
  _id_keyed_collection (JArr (map (fun p => JObj (snd p)) items)) collection ds
  = _id_keyed_collection (JObj (keyed_map collection items)) collection ds.
Proof.
  intros Hn Hid. unfold _id_keyed_collection.
  assert (Hk : forall l index keyed, NoDup (map fst keyed ++ map fst l) ->
    Forall (fun p => fst p <> ""%string /\ jget "id" (snd p) = JStr (fst p)) l ->
    keyed_items collection index (map (fun p => JObj (snd p)) l) keyed ds
    = (Ok (keyed ++ keyed_map collection l), ds)).
  { induction l as [|[id item] l IH]; intros index keyed Hnd Hl; [by rewrite app_nil_r|].
    apply Forall_cons in Hl as [[Hne Hi] Hl]. cbn [fst snd] in *. cbn [map keyed_items fst snd]. rewrite Hi.
    destruct id as [|c id]; [done|].
    assert (Hk : (String c id) ∉ map fst keyed).
    { apply NoDup_app in Hnd as (_ & Hd & _). intros Hin. apply (Hd _ Hin). left. }
    pose proof Hk as Hk'. apply has_key_false in Hk as ->. rewrite assoc_set_new by done.
    rewrite IH; [by rewrite <- app_assoc| |done]. by rewrite map_app, <- app_assoc. }
  unfold mbind, st_bind. by rewrite Hk.
Qed.

(** ** The theorems at concrete inputs *)

Section Demo.
Local Open Scope string_scope.

(** Patterns without metacharacters, for which [re.search] is containment. *)
Definition literal_regex : Regex := {|
  re_compiles p := string_forallb is_alnum p; re_found p s := contains_str p s |}.
Definition ascii_unicode : Unicode := {| isprintable _ := true; isalnum _ := true; decimal _ := None |}.
#[local] Existing Instance literal_regex.
#[local] Existing Instance ascii_unicode.

Definition demo_registry : registry := {|
  repository_file _ := None; registered_actions := ["add"]; registered_measures := [];
  template_version := "1"; template_test_digests := [] |}.
Definition demo_assertion (p o : string) (v : json) : json :=
  JObj [("path", JStr p); ("operator", JStr o); ("value", v)].
Definition demo_criterion : list (string * json) :=
  [("id", JStr "C1"); ("requirement", JStr "R1");
   ("given", JArr [demo_assertion "store.count" "eq" (JInt 0)]);
   ("when", JObj [("action", JStr "add"); ("arguments", JObj [("n", JInt 1)])]);
   ("then", JArr [demo_assertion "store.count" "gte" (JInt 1); demo_assertion "store.name" "matches" (JStr "x")])].
Definition demo_contract : list (string * json) :=
  [("functional_requirements", JArr [JObj [("id", JStr "R1")]]);
   ("acceptance_criteria", JArr [JObj demo_criterion])].
Definition demo_plan : AcceptanceBuildPlan :=
  match compile_acceptance_plan demo_registry demo_contract [] with
  | Ok p => p
  | Raise _ => {| contract_digest := ""; requirements := []; tasks := []; criteria := [];
                  trusted_test_digests := []; plan_digest := "" |}
  end.

Lemma compile_plan_sound_witness :
  contract_ok demo_registry demo_contract ["R1"] (criteria demo_plan) /\
  map requirement_id (tasks demo_plan) = ["R1"] /\
  canonical_digest (JObj demo_contract) = Ok (contract_digest demo_plan).
Proof.
  replace ["R1"] with (requirements demo_plan) by (vm_compute; reflexivity).
  apply (compile_plan_sound demo_registry demo_contract [] demo_plan). vm_compute; reflexivity.
Defined.

Definition between (low high : Z) : list PropertyAssertion :=
  [{| pa_path := "n"; pa_operator := GTE; pa_value := JInt low |};
   {| pa_path := "n"; pa_operator := LTE; pa_value := JInt high |};
   {| pa_path := "n"; pa_operator := NE; pa_value := JInt high |}].

(** [1 <= n <= 1] and [n != 1], on the value [1]: the bounds pin the value. *)
Lemma contradictory_unsatisfiable_witness :
  exists a, a ∈ between 1 1 /\ _literal_satisfies a (JInt 1) <> Ok true.
Proof.
  apply (contradictory_unsatisfiable (between 1 1) (JInt 1)); [vm_compute; reflexivity|].
  intros v w s t Hv Hw Hs Ht _.
  assert (E : forall u, u ∈ (map pa_value (between 1 1) ++ with_items (JInt 1))%list -> u = JInt 1) by set_solver.
  apply E in Hv as ->. apply E in Hw as ->. congruence.
Defined.

Lemma satisfaction_by_value_witness :
  exists b, _literal_satisfies {| pa_path := "n"; pa_operator := LT; pa_value := JInt 2 |}
              (JFloat (S754_finite false 1 0)) = Ok b /\ true = b.
Proof.
  exists true. split; [vm_compute; reflexivity|].
  apply (satisfaction_by_value {| pa_path := "n"; pa_operator := LT; pa_value := JInt 2 |}
           (JInt 1) (JFloat (S754_finite false 1 0))); vm_compute; reflexivity.
Defined.

Lemma plan_digest_binds_witness :
  json_norm (as_dict demo_plan) = json_norm (as_dict demo_plan) \/
  exists b1 b2, b1 <> b2 /\ sha256_digest b1 = sha256_digest b2 /\
    canonical_json_bytes (JObj (plan_shell (contract_digest demo_plan) (requirements demo_plan) (tasks demo_plan)
                                  (criteria demo_plan) (trusted_test_digests demo_plan))) = Ok b1 /\
    canonical_json_bytes (JObj (plan_shell (contract_digest demo_plan) (requirements demo_plan) (tasks demo_plan)
                                  (criteria demo_plan) (trusted_test_digests demo_plan))) = Ok b2.
Proof.
  apply (plan_digest_binds demo_registry demo_registry demo_contract demo_contract [] [] demo_plan demo_plan);
    vm_compute; reflexivity.
Defined.

Lemma keyed_array_is_map_witness :
  _id_keyed_collection (JArr [JObj demo_criterion]) "criterion" []
  = _id_keyed_collection (JObj (keyed_map "criterion" [("C1", demo_criterion)])) "criterion" [].
Proof.
  apply (keyed_array_is_map "criterion" [("C1", demo_criterion)] []).
  - simpl. apply NoDup_singleton.
  - constructor; [split; [discriminate|vm_compute; reflexivity]|constructor].
Defined.
End Demo.
