(* ===== verification/Approval.v ===== *)
(** * Verification of a contract approval ([contracts/authoring.py]) *)
From Stdlib Require Import Ascii String.
From S2P Require Import Prelude Sha256 Json JsonText PyStr Canonical Ledger.

Definition receipt_fields : list string :=
  ["approved_at"; "approved_by"; "approved_contract_digest"; "contract_id"; "contract_version";
   "decision"; "draft_digest"; "receipt_digest"; "schema_version"]%string.

(** [set(receipt) != required]. *)
Definition has_fields (fields : list string) (m : list (string * json)) : bool :=
  forallb (fun p => str_in (fst p) fields) m && forallb (fun k => has_key k m) fields.

(** The draft that was reviewed: the contract with its approval undone. *)
Definition reconstructed_draft (contract : list (string * json)) : list (string * json) :=
  assoc_set "approved_at" (JStr "")
    (assoc_set "approved_by" (JStr "")
       (assoc_set "contract_status" (JStr "DRAFT") contract)).

(** The comparisons that bind the receipt to the contract. *)
Definition receipt_bound (contract receipt : list (string * json)) (approved_digest : string) : bool :=
  let r k := jget k receipt in
  let c k := jget k contract in
  py_eq (r "schema_version") (JStr "1.0.0")
  && py_eq (r "decision") (JStr "APPROVED")
  && py_eq (r "approved_contract_digest") (JStr approved_digest)
  && py_eq (c "contract_status") (JStr "APPROVED")
  && py_eq (r "contract_id") (c "contract_id")
  && py_eq (r "contract_version") (c "contract_version")
  && py_eq (r "approved_by") (c "approved_by")
  && py_eq (r "approved_at") (c "approved_at").

Section Approval.
Context `{Rfc8785}.

Definition violation (message : string) : exn := ContractViolation message.

Definition verify_contract_approval (contract receipt : list (string * json))
    (expected_approver : string) : res string :=
  _ ← raise_if (negb (has_fields receipt_fields receipt))
        (violation "approval receipt has an unexpected shape");
  match jget "receipt_digest" receipt with
  | JStr claimed_receipt_digest =>
      _ ← raise_if (negb (is_digest_str claimed_receipt_digest))
            (violation "approval receipt digest is malformed");
      unsigned_digest ← canonical_digest (JObj (assoc_del "receipt_digest" receipt));
      _ ← raise_if (negb (String.eqb unsigned_digest claimed_receipt_digest))
            (violation "approval receipt content differs from its digest");
      approved_digest ← canonical_digest (JObj contract);
      _ ← raise_if (negb (receipt_bound contract receipt approved_digest))
            (violation "approval receipt is not bound to the approved contract");
      match jget "draft_digest" receipt with
      | JStr draft_digest =>
          _ ← raise_if (negb (is_digest_str draft_digest))
                (violation "approval receipt draft digest is malformed");
          reviewed ← canonical_digest (JObj (reconstructed_draft contract));
          _ ← raise_if (negb (String.eqb reviewed draft_digest))
                (violation "approval receipt is not bound to the exact reviewed draft");
          let authority := strip expected_approver in
          _ ← raise_if (String.eqb authority "" || negb (py_eq (jget "approved_by" receipt) (JStr authority)))
                (violation "approval receipt is not from the expected approver");
          Ok claimed_receipt_digest
      | _ => Raise (violation "approval receipt draft digest is malformed")
      end
  | _ => Raise (violation "approval receipt digest is malformed")
  end.
End Approval.
