(* ===== verification/Drift.v ===== *)
(** * Provider behaviour and its drift ([evals/barebones_drift.py]) *)
From Stdlib Require Import Ascii String.
From S2P Require Import Prelude Sha256 Json JsonText PyStr Canonical Ledger.

Record ProviderBehavior : Type := {
  pb_purpose : string;
  pb_request_digest : string;
  pb_output_digest : string;
  pb_provider : string;
  pb_model : string;
  pb_prompt_version : string;
  pb_cli_version : string
}.

Record BehaviorDrift : Type := {
  detected : bool;
  drift_cause : string;
  attribution : list string;
  baseline_output_digest : string;
  current_output_digest : string
}.

Section Drift.
Context `{Rfc8785}.

(** [metadata.get(field)], a non-empty string. *)
Definition identity_field (metadata : list (string * json)) (field : string) : res string :=
  match jget field metadata with
  | JStr (String _ _ as v) => Ok v
  | _ => Raise (ValueError ("provider metadata lacks " +:+ field))
  end.

Definition observed_output (purpose : string) (response : list (string * json)) : res json :=
  if String.eqb purpose "code" then
    match jget "files" response with
    | JObj m =>
        if forallb (fun p => is_str (snd p)) m then Ok (JObj m)
        else Raise (ValueError "code response lacks a UTF-8 file mapping")
    | _ => Raise (ValueError "code response lacks a UTF-8 file mapping")
    end
  else
    match jget "summary" response with
    | JStr s => Ok (JStr s)
    | _ => Raise (ValueError "advisory response lacks a summary")
    end.

Definition observe_provider_behavior (purpose : string) (response : list (string * json))
    : res ProviderBehavior :=
  _ ← raise_if (negb (str_in purpose ["code"; "advisory_review"]%string))
        (ValueError "unsupported provider purpose");
  let unbound := Raise (ValueError "provider response lacks digest-bound metadata") in
  match jget "request_digest" response, jget "provider_metadata" response with
  | JStr request_digest, JObj metadata =>
      if negb (is_digest_str request_digest) then unbound
      else
        provider ← identity_field metadata "provider";
        model ← identity_field metadata "model";
        prompt_version ← identity_field metadata "prompt_version";
        match default (JStr "unknown") (assoc "cli_version"%string metadata) with
        | JStr (String _ _ as cli_version) =>
            output ← observed_output purpose response;
            output_digest ← canonical_digest output;
            Ok {| pb_purpose := purpose; pb_request_digest := request_digest;
                  pb_output_digest := output_digest; pb_provider := provider; pb_model := model;
                  pb_prompt_version := prompt_version; pb_cli_version := cli_version |}
        | _ => Raise (ValueError "provider metadata has malformed cli_version")
        end
  | _, _ => unbound
  end.

(** The configuration fields that changed and can explain a drift. *)
Definition attributed (baseline current : ProviderBehavior) : list string :=
  (if String.eqb (pb_provider baseline) (pb_provider current) then [] else ["provider"%string])
  ++ (if String.eqb (pb_model baseline) (pb_model current) then [] else ["model"%string])
  ++ (if String.eqb (pb_prompt_version baseline) (pb_prompt_version current) then [] else ["prompt_version"%string])
  ++ (if String.eqb (pb_cli_version baseline) (pb_cli_version current)
         || str_in "unknown" [pb_cli_version baseline; pb_cli_version current]
      then [] else ["cli_version"%string]).

Definition compare_provider_behavior (baseline current : ProviderBehavior) : res BehaviorDrift :=
  if negb (String.eqb (pb_purpose baseline) (pb_purpose current)
           && String.eqb (pb_request_digest baseline) (pb_request_digest current))
  then Raise (ValueError "provider behavior observations are not comparable")
  else if String.eqb (pb_output_digest baseline) (pb_output_digest current)
  then Ok {| detected := false; drift_cause := "NO_BEHAVIOR_DRIFT"; attribution := [];
             baseline_output_digest := pb_output_digest baseline;
             current_output_digest := pb_output_digest current |}
  else
    let a := attributed baseline current in
    Ok {| detected := true;
          drift_cause := match a with [] => "UNATTRIBUTED_BEHAVIOR_DRIFT" | _ => "PROVIDER_CONFIGURATION_CHANGED" end;
          attribution := a;
          baseline_output_digest := pb_output_digest baseline;
          current_output_digest := pb_output_digest current |}.
End Drift.

(** [asdict] of a [ProviderBehavior]. *)
Definition behavior_dict (b : ProviderBehavior) : json :=
  JObj [("purpose", JStr (pb_purpose b)); ("request_digest", JStr (pb_request_digest b));
        ("output_digest", JStr (pb_output_digest b)); ("provider", JStr (pb_provider b));
        ("model", JStr (pb_model b)); ("prompt_version", JStr (pb_prompt_version b));
        ("cli_version", JStr (pb_cli_version b))]%string.
