(* ===== verification/Quality.v ===== *)
(** * Static checks of generated Python ([quality/generated_python.py])

    Python's own parser and tokenizer, and the tools [ruff] and [mypy] run as
    subprocesses, are the operations of the class [PythonTools]; what the module
    makes of their answers is modelled. *)
From Stdlib Require Import Ascii String.
From S2P Require Import Prelude Sha256 Json JsonText PyStr Canonical Acceptance.

Definition PROFILE : string := "python-stdlib-quality/v1".
Definition _CHECKS : list string :=
  ["syntax"; "dependencies"; "verification_integrity"; "format"; "lint"; "types"]%string.
Definition _OTHER_CODE : list string := [".js"; ".jsx"; ".ts"; ".tsx"; ".go"; ".rs"; ".sh"]%string.
Definition _TYPE_SUPPRESSORS : list string := ["no_type_check"; "no_type_check_decorator"]%string.

Record PythonCheck : Type := { pc_name : string; pc_status : string; pc_details : string }.
Record PythonQualityReport : Type := {
  profile : string; candidate_digest : string; checks : list PythonCheck }.

Definition check_passed (c : PythonCheck) : bool := String.eqb (pc_status c) "PASS".
Definition passed (r : PythonQualityReport) : bool :=
  match checks r with [] => false | l => forallb check_passed l end.

Definition check_dict (c : PythonCheck) : json :=
  JObj [("name", JStr (pc_name c)); ("status", JStr (pc_status c)); ("details", JStr (pc_details c))]%string.
Definition report_members (r : PythonQualityReport) : list (string * json) :=
  [("profile", JStr (profile r)); ("candidate_digest", JStr (candidate_digest r));
   ("checks", JArr (map check_dict (checks r))); ("passed", JBool (passed r))]%string.

Definition generation_policy : json :=
  JObj [("profile", JStr PROFILE); ("required_checks", JStrs _CHECKS);
        ("dependencies", JStr "Python standard library and candidate-local modules only");
        ("instructions", JStrs [
           "Implement the approved contract; do not change acceptance expectations.";
           "Keep module responsibilities explicit; reuse existing local components.";
           "Use typed public interfaces and explicit error handling.";
           "Use ruff formatting and fix undefined names and type mismatches.";
           "Do not add checker suppressions, external dependencies or unrelated code.";
           "Make the smallest coherent repair for the supplied findings."])]%string.

(** ** The interpreter and the tools *)

(** What [ast.walk] visits, as far as the module looks at it. *)
Inductive node : Type :=
  | Import (names : list string) (lineno : Z)
  | ImportFrom (module : option string) (names : list string) (level lineno : Z)
  | Attribute (attr : string)
  | OtherNode.

Class PythonTools : Type := {
  (* [ast.parse]: the nodes in the order of [ast.walk], or the exception's class *)
  ast_parse : string -> string -> string + list node;
  (* [tokenize]: the comments with their lines, and the exception that ends it *)
  tokenize_comments : string -> list (Z * string) * option string;
  stdlib_module_names : list string;
  tool_available : string -> bool;
  (* the tool run on the files: exit code, stdout and stderr; [None]: it could not complete *)
  run_subprocess : string -> list string -> list (string * string) -> option (Z * string * string)
}.

(** ** Paths *)

(** [str(PurePosixPath(s))] and [PurePosixPath(s).suffix]. *)
Definition posix_str (s : string) : string :=
  match path_parts s with
  | [] => if startswith s "/" then "/" else "."
  | parts => (if startswith s "/" then "/" else "") +:+ join "/" parts
  end.

Definition path_suffix (s : string) : string :=
  match rev (split_on "." (path_name s)) with
  | ext :: (_ :: _) as rest =>
      let stem := join "." (rev rest) in
      if String.eqb ext "" || String.eqb stem "" then "" else "." +:+ ext
  | _ => ""
  end.

Definition removesuffix (s p : string) : string :=
  if endswith s p then take_str (String.length s - String.length p) s else s.

Definition unsafe_snapshot_path (relative : string) : bool :=
  String.eqb relative "" || startswith relative "/" || str_in ".." (path_parts relative)
  || contains_str "\" relative || negb (String.eqb (posix_str relative) relative).

(** ** [_SUPPRESSION.search]: [noqa|type:\s*ignore|mypy:|ruff:], ignoring case *)

Definition fold_case (cp : N) : N :=
  if ((65 <=? cp) && (cp <=? 90))%N then (cp + 32)%N
  else if (cp =? 304)%N || (cp =? 305)%N then 105%N
  else cp.

Fixpoint prefix_cps (p s : list N) : option (list N) :=
  match p, s with
  | [], _ => Some s
  | x :: p', y :: s' => if (x =? y)%N then prefix_cps p' s' else None
  | _, [] => None
  end.

Definition suppression_at (s : list N) : bool :=
  let starts p s := match prefix_cps (ords p) s with Some _ => true | None => false end in
  starts "noqa" s || starts "mypy:" s || starts "ruff:" s
  || match prefix_cps (ords "type:") s with
     | Some rest => starts "ignore"%string (drop_spaces rest)
     | None => false
     end.

Fixpoint suppression_in (s : list N) : bool :=
  suppression_at s || match s with [] => false | _ :: rest => suppression_in rest end.
Definition is_suppression (comment : string) : bool := suppression_in (map fold_case (ords comment)).

Section Quality.
Context `{Rfc8785} `{PythonTools}.

Definition missing_quality_tools : list string :=
  List.filter (fun name => negb (tool_available name)) ["ruff"; "mypy"]%string.

Fixpoint take_cps (n : nat) (cps : list N) : list N :=
  match n, cps with S n', cp :: rest => cp :: take_cps n' rest | _, _ => [] end.

Definition _run_tool (name : string) (arguments : list string) (files : list (string * string))
    : string * string :=
  if negb (tool_available name)
  then ("UNAVAILABLE", "required checker missing: " +:+ name +:+ "; install PEOS dev dependencies")%string
  else
    match run_subprocess name arguments files with
    | None => ("UNAVAILABLE", "required checker could not complete: " +:+ name)%string
    | Some (code, out, err) =>
        ((if (code =? 0)%Z then "PASS" else "FAIL")%string,
         utf8_encode_all (take_cps (Z.to_nat 20000) (ords (strip (out +:+ err)))))
    end.

(** ** One source file *)

Definition node_integrity (relative : string) (n : node) : list string :=
  let bad := [relative +:+ ": type-check suppression decorator"] in
  match n with
  | ImportFrom (Some m) names _ _ =>
      if str_in m ["typing"; "typing_extensions"]%string
         && existsb (fun a => str_in a _TYPE_SUPPRESSORS) names then bad else []
  | Attribute attr => if str_in attr _TYPE_SUPPRESSORS then bad else []
  | _ => []
  end.

Definition node_modules (n : node) : list (string * Z) :=
  match n with
  | Import names lineno => map (fun m => (m, lineno)) names
  | ImportFrom (Some (String _ _ as m)) _ level lineno => if level =? 0 then [(m, lineno)] else []
  | _ => []
  end.

Definition node_dependencies (relative : string) (local_roots : list string) (n : node) : list string :=
  omap (fun p =>
          let name := split_first "." (fst p) in
          if str_in name stdlib_module_names || str_in name local_roots then None
          else Some (relative +:+ ":" +:+ str_of_Z (snd p) +:+ ": unsupported import " +:+ name))
       (node_modules n).

Record problems : Type := { p_syntax : list string; p_dependencies : list string; p_integrity : list string }.

Definition check_source (local_roots : list string) (ps : problems) (file : string * string) : problems :=
  let '(relative, payload) := file in
  let broken ps error := {| p_syntax := p_syntax ps ++ [relative +:+ ": " +:+ error];
                            p_dependencies := p_dependencies ps; p_integrity := p_integrity ps |} in
  match decode_utf8 payload with
  | Raise _ => broken ps "UnicodeDecodeError"%string
  | Ok source =>
      match ast_parse relative source with
      | inl error => broken ps error
      | inr nodes =>
          let (comments, error) := tokenize_comments source in
          let suppressions :=
            omap (fun c => if is_suppression (snd c)
                           then Some (relative +:+ ":" +:+ str_of_Z (fst c) +:+ ": checker suppression")
                           else None) comments in
          let ps := {| p_syntax := p_syntax ps; p_dependencies := p_dependencies ps;
                       p_integrity := p_integrity ps ++ suppressions |} in
          match error with
          | Some e => broken ps e
          | None =>
              {| p_syntax := p_syntax ps;
                 p_dependencies := p_dependencies ps ++ flat_map (node_dependencies relative local_roots) nodes;
                 p_integrity := p_integrity ps ++ flat_map (node_integrity relative) nodes |}
          end
      end
  end.

Definition problem_check (name : string) (problems : list string) : PythonCheck :=
  {| pc_name := name; pc_status := match problems with [] => "PASS" | _ => "FAIL" end;
     pc_details := join "; " problems |}.

Definition tool_commands (paths : list string) : list (string * (string * list string)) :=
  let command name tool options := (name, (tool, (options ++ paths)%list)) in
  [command "format" "ruff" ["format"; "--isolated"; "--check"];
   command "lint" "ruff" ["check"; "--isolated"; "--select"; "E9,F"];
   command "types" "mypy" ["--config-file=/dev/null"; "--no-incremental"; "--cache-dir=/dev/null";
                           "--no-site-packages"; "--strict"]]%string.

Definition check_python_candidate (snapshot : list (string * string)) (trusted_paths : list string)
    : res PythonQualityReport :=
  _ ← raise_if (existsb (fun p => unsafe_snapshot_path (fst p)) snapshot)
        (ValueError "candidate contains an unsafe path");
  digest ← canonical_digest (JObj (map (fun p => (fst p, JStr (sha256_digest (snd p))))
                                     (sorted_items snapshot)));
  let report l := Ok {| profile := PROFILE; candidate_digest := digest; checks := l |} in
  let rejected message := report [{| pc_name := "syntax"; pc_status := "FAIL"; pc_details := message |}] in
  let sources := List.filter (fun p => endswith (fst p) ".py" && negb (str_in (fst p) trusted_paths)) snapshot in
  if match sources with [] => true | _ => false end
     || existsb (fun p => str_in (path_suffix (fst p)) _OTHER_CODE) snapshot
  then rejected "profile requires Python source; other stacks unsupported"%string
  else if (1000 <? Z.of_nat (List.length snapshot))
          || (2000000 <? foldr (fun p n => Z.of_nat (String.length (snd p)) + n) 0 snapshot)
  then rejected "candidate exceeds static verification budget"%string
  else
    let local_roots := map (fun p => removesuffix (default ""%string (head (path_parts (fst p)))) ".py") sources in
    let ps := foldl (check_source local_roots) {| p_syntax := []; p_dependencies := []; p_integrity := [] |} sources in
    let static := [problem_check "syntax" (p_syntax ps); problem_check "dependencies" (p_dependencies ps);
                   problem_check "verification_integrity" (p_integrity ps)] in
    match p_syntax ps with
    | _ :: _ =>
        report (static ++ map (fun name => {| pc_name := name; pc_status := "NOT_RUN";
                                              pc_details := "source syntax or complexity check failed" |})
                              ["format"; "lint"; "types"]%string)
    | [] =>
        report (static ++ map (fun c => let '(name, (tool, arguments)) := c in
                                        let (status, details) := _run_tool tool arguments sources in
                                        {| pc_name := name; pc_status := status; pc_details := details |})
                              (tool_commands (sorted_str (map fst sources))))
    end.
End Quality.
