(* ===== verification/Barebones.v ===== *)
(** * The engine's data and helpers ([barebones.py])

    A workspace is a finite map from relative paths to contents; a directory
    exists when a file lies under it.  Generated code runs behind the
    [CandidateSandbox] protocol, an operation of the environment. *)
From Stdlib Require Import SpecFloat Ascii String.
From S2P Require Import Prelude Sha256 Json JsonText PyStr Canonical Ledger Acceptance Quality Drift.

(** ** Data *)

Inductive RunState : Type := VALIDATED | BUILDING | VERIFYING | RELEASE_READY | HALTED | STOPPED.
#[export] Instance RunState_eq_dec : EqDecision RunState.
Proof. solve_decision. Defined.
Definition state_name (s : RunState) : string :=
  match s with
  | VALIDATED => "VALIDATED" | BUILDING => "BUILDING" | VERIFYING => "VERIFYING"
  | RELEASE_READY => "RELEASE_READY" | HALTED => "HALTED" | STOPPED => "STOPPED"
  end.

Record TemplateTest : Type := { tt_path : string; tt_node_id : string; tt_command : list string }.
Record Template : Type := {
  version : string;
  files : list (string * string);
  actions : list (string * string);
  context : list (string * json);
  proofs : list (string * TemplateTest);
  measures : list (string * string)
}.
Record BudgetCaps : Type := {
  max_attempts : Z; max_model_calls : Z; max_model_output_bytes : Z }.
Definition default_budget : BudgetCaps :=
  {| max_attempts := 3; max_model_calls := 8; max_model_output_bytes := 1000000 |}.
Record Finding : Type := {
  f_code : string; f_subject_id : string; f_message : string; f_files : list string }.
Record RunResult : Type := {
  result_run_id : string; result_state : RunState; result_cause : string; result_attempts : Z;
  result_model_calls : Z; result_elapsed_ms : Z; result_annotation : list (string * json);
  result_telemetry : list (string * json) }.

Definition finding_dict (f : Finding) : json :=
  JObj [("code", JStr (f_code f)); ("subject_id", JStr (f_subject_id f));
        ("message", JStr (f_message f)); ("files", JStrs (f_files f))]%string.
Definition findings_json (l : list Finding) : json := JArr (map finding_dict l).

(** ** Regular expressions *)

(** [_SAFE_RELATIVE] and the test that no part is [.] or [..]. *)
Definition is_safe_char (c : ascii) : bool := is_alnum c || char_in "_.-" c.
Definition is_safe_relative (relative : string) : bool :=
  forallb (fun part => negb (String.eqb part "") && string_forallb is_safe_char part) (split_on "/" relative)
  && negb (existsb (fun part => str_in part ["."; ".."]%string) (split_on "/" relative)).

(** [_MODULE_TARGET]: the module and the function. *)
Definition is_identifier (dots : bool) (s : string) : bool :=
  match s with
  | String c rest => (is_alpha c || Ascii.eqb c "_")
                     && string_forallb (fun d => is_alnum d || char_in (if dots then "_." else "_") d) rest
  | EmptyString => false
  end.
Definition _MODULE_TARGET (target : string) : option (string * string) :=
  match split_on ":" target with
  | [m; f] => if is_identifier true m && is_identifier false f then Some (m, f) else None
  | _ => None
  end.

Fixpoint count_prefix (p : ascii -> bool) (s : string) : Z :=
  match s with String c s' => if p c then 1 + count_prefix p s' else 0 | EmptyString => 0 end.

(** [_CREDENTIAL.search]. *)
Definition credential_at (s : string) : bool :=
  existsb (fun kind => startswith s ("-----BEGIN " +:+ kind +:+ "PRIVATE KEY-----"))
    [""; "RSA "; "EC "; "OPENSSH "]%string
  || (startswith s "AKIA" && (16 <=? count_prefix (fun c => is_digit c || is_upper c) (drop_str 4 s)))
  || (startswith s "sk-" && (20 <=? count_prefix (fun c => is_alnum c || char_in "_-" c) (drop_str 3 s))).
Fixpoint _CREDENTIAL (s : string) : bool :=
  credential_at s || match s with EmptyString => false | String _ s' => _CREDENTIAL s' end.

(** [_PROVIDER_ERROR_CODE.fullmatch]. *)
Definition _PROVIDER_ERROR_CODE (s : string) : bool :=
  match s with
  | String c rest => is_upper c && string_forallb (fun d => is_upper d || is_digit d || Ascii.eqb d "_") rest
  | EmptyString => false
  end.

(** [_HIGH_RISK_CODE.search]: [\b(?:eval|exec)\s*\(]. *)
Definition is_word `{Unicode} (cp : N) : bool :=
  if (cp <? 128)%N then is_alnum (chr_n cp) || (cp =? 95)%N else isalnum cp.
Definition call_at (s : list N) : bool :=
  existsb (fun name => match prefix_cps (ords name) s with
                       | Some rest => match drop_spaces rest with cp :: _ => (cp =? 40)%N | [] => false end
                       | None => false
                       end) ["eval"; "exec"]%string.
Fixpoint high_risk_from `{Unicode} (after_word : bool) (s : list N) : bool :=
  (negb after_word && call_at s)
  || match s with [] => false | cp :: rest => high_risk_from (is_word cp) rest end.
Definition _HIGH_RISK_CODE `{Unicode} (content : string) : bool := high_risk_from false (ords content).

Definition _PYTEST_RESULT_PREFIX : string := "__PMPE_PYTEST_RESULT__:".
Definition _SANDBOX_PATH : string := "/usr/local/bin:/usr/bin:/bin".
Definition _MAX_SAFE_JSON_INTEGER : Z := Z.shiftl 1 53 - 1.

(** [str(error)] and [_classify_provider_error]. *)
Definition exn_message (e : exn) : string :=
  match e with
  | ValueError m | UnicodeDecodeError m | JSONDecodeError m | YAMLError m | CanonicalInputError _ m
  | CanonicalizationError m | EvidenceIntegrityError m | ContractInvalidError m | ContractViolation m
  | TransitionDeniedError m | VisibleCorpusError m | DecisionContractError m | WorkflowEvidenceError m | SpecError m
  | ConfigError m | PmpeError m | GitError m | OrchestrationViolation m | JourneyNotValidated m | ReadOnlyViolation m
  | CandidateViolation m | RoutingError m | AdmissionReceiptError m | AdmissionReceiptConflictError m
  | KeyError m | TypeError m | AttributeError m | ReError m | RuntimeError m
  | TimeoutError m | FileExistsError m | OSError m | AssertionError m | OverflowError m => m
  | AcceptanceCompileError ds => join "; " (map (fun d => d.1.1 +:+ ":" +:+ d.1.2) ds)
  | RecursionError => "maximum recursion depth exceeded"
  | OutOfFuel => ""
  end.
Definition _classify_provider_error (error : exn) : string :=
  if is_OSError error then "MODEL_PROVIDER_FAILED"
  else
    let message := exn_message error in
    if _CREDENTIAL message || negb (_PROVIDER_ERROR_CODE message) then "MODEL_PROVIDER_FAILED" else message.

Definition _provider_behavior_payload `{Rfc8785} (purpose : string) (response : list (string * json))
    : res (option json) :=
  try_except (b ← observe_provider_behavior purpose response; Ok (Some (behavior_dict b)))
    is_ValueError (fun _ => Ok None).

(** ** The workspace *)

Abbreviation workspace := (gmap string string).

(** [Path] objects are ordered by their parts. *)
Fixpoint parts_leb (a b : list string) : bool :=
  match a, b with
  | [], _ => true
  | _, [] => false
  | x :: a', y :: b' => match String.compare x y with Lt => true | Eq => parts_leb a' b' | Gt => false end
  end.
Fixpoint insert_path (p : string * string) (l : list (string * string)) : list (string * string) :=
  match l with
  | [] => [p]
  | q :: l' => if parts_leb (split_on "/" (fst p)) (split_on "/" (fst q)) then p :: l else q :: insert_path p l'
  end.

(** The files in the order of [sorted(workspace.rglob("*"))], and by name. *)
Definition files_in_order (ws : workspace) : list (string * string) :=
  foldr insert_path [] (map_to_list ws).
Definition files_by_name (ws : workspace) : list (string * string) := sorted_items (map_to_list ws).

Definition _safe_path (relative : string) : res string :=
  if is_safe_relative relative then Ok relative
  else Raise (ValueError ("unsafe candidate path: " +:+ relative)).

(** The proper prefixes of a path, the nearest first. *)
Fixpoint prefixes_rev (l : list string) : list string :=
  match l with [] => [] | _ :: rest => join "/" (rev l) :: prefixes_rev rest end.
Definition ancestors (relative : string) : list string := prefixes_rev (tl (rev (split_on "/" relative))).

Definition is_directory (ws : workspace) (p : string) : bool :=
  existsb (fun f => startswith (fst f) (p +:+ "/")) (map_to_list ws).

(** [target.parent.mkdir(parents=True, exist_ok=True)]. *)
Definition make_parents (ws : workspace) (relative : string) : res unit :=
  match ancestors relative with
  | [] => Ok tt
  | parent :: higher =>
      match ws !! parent with
      | Some _ => Raise (FileExistsError parent)
      | None => raise_if (existsb (fun a => match ws !! a with Some _ => true | None => false end) higher)
                  (OSError "Not a directory")
      end
  end.

(** [target.write_bytes(payload)] and [target.write_text(content)]; the latter
    opens the file before it encodes the text. *)
Definition write_bytes (relative payload : string) : st workspace unit := fun ws =>
  match make_parents ws relative with
  | Raise e => (Raise e, ws)
  | Ok _ => if is_directory ws relative then (Raise (OSError "Is a directory"), ws)
            else (Ok tt, <[relative := payload]> ws)
  end.
Definition write_text (relative content : string) : st workspace unit :=
  if utf8_valid (String.length content) content then write_bytes relative content
  else _ ← write_bytes relative ""; raise_st (ValueError "surrogates not allowed").

Fixpoint write_each (items : list (string * json)) : st workspace (list string) :=
  match items with
  | [] => mret []
  | (relative, JStr content) :: rest =>
      target ← lift_res (_safe_path relative);
      existing ← get_st (fun ws : workspace => ws !! target);
      before ← lift_res (match existing with
                         | Some payload => text ← read_text payload; Ok (Some text)
                         | None => Ok None
                         end);
      if bool_decide (before = Some content) then write_each rest
      else
        _ ← write_text target content;
        changed ← write_each rest;
        mret (relative :: changed)
  | _ :: _ => raise_st (ValueError "candidate files must map safe paths to UTF-8 text")
  end.
Definition _write_files (items : list (string * json)) : st workspace (list string) :=
  write_each (sorted_items items).

Fixpoint write_snapshot (items : list (string * string)) : st workspace unit :=
  match items with
  | [] => mret tt
  | (relative, payload) :: rest =>
      target ← lift_res (_safe_path relative);
      _ ← write_bytes target payload;
      write_snapshot rest
  end.
Definition _materialize_snapshot (snapshot : workspace) : st workspace unit :=
  write_snapshot (files_by_name snapshot).

(** ** Evaluating assertions *)

(** [_path]: [None] stands for the [KeyError]. *)
Definition _path (v : json) (dotted_path : string) : option json := descend (split_on "." dotted_path) v.

Section Verification.
Context `{Rfc8785} `{Unicode} `{Regex}.

Definition is_TypeError_or_ReError (e : exn) : bool :=
  match e with TypeError _ | ReError _ => true | _ => false end.

Definition ordered (left right : json) (o : Operator) : bool :=
  match _ordered_comparison left o right with Some b => b | None => false end.

Definition contains (left right : json) (negate : bool) : res bool :=
  match left, right with
  | JArr items, _ =>
      present ← res_any (fun item => same_digest item right) items;
      Ok (if negate then negb present else present)
  | JStr s, JStr x => Ok (let present := contains_str x s in if negate then negb present else present)
  | JObj m, JStr x => Ok (let present := has_key x m in if negate then negb present else present)
  | _, _ => Ok false
  end.

Definition matches (left right : json) : res bool :=
  match left, right with JStr s, JStr _ => re_search right s | _, _ => Ok false end.

Definition _assertion_passes (assertion : PropertyAssertion) (v : json) : res bool :=
  match _path v (pa_path assertion) with
  | None => Ok false
  | Some actual =>
      let expected := pa_value assertion in
      let binary m := try_except m is_TypeError_or_ReError (fun _ => Ok false) in
      match pa_operator assertion with
      | EQ => binary (same_digest actual expected)
      | NE => binary (b ← same_digest actual expected; Ok (negb b))
      | (LT | LTE | GT | GTE) as o => Ok (ordered actual expected o)
      | CONTAINS => binary (contains actual expected false)
      | NOT_CONTAINS => binary (contains actual expected true)
      | MATCHES => binary (matches actual expected)
      | o => Ok (unary_matches o actual)
      end
  end.

(** [all(f(x) for x in l)]. *)
Fixpoint res_all {A} (f : A -> res bool) (l : list A) : res bool :=
  match l with
  | [] => Ok true
  | x :: l' => b ← f x; if (b : bool) then res_all f l' else Ok false
  end.

(** ** Running the candidate *)

Record CompletedProcess : Type := { returncode : Z; stdout : string; stderr : string }.

(** One execution behind the sandbox: its outcome and the workspace it leaves,
    from the number of the execution, the workspace, the argument vector, the
    time limit in seconds and the environment. *)
Definition sandbox_run : Type :=
  nat -> workspace -> list string -> Z -> list (string * string) ->
  res CompletedProcess * workspace.

(** The disposable workspace of a verification and the executions so far. *)
Record isolated : Type := { iso_files : workspace; iso_runs : nat }.

Variables (sandbox : sandbox_run) (sys_executable : string).

Definition run_in_sandbox (argv : list string) (timeout_seconds : Z) (environment : list (string * string))
    : st isolated CompletedProcess := fun s =>
  let (r, ws) := sandbox (iso_runs s) (iso_files s) argv timeout_seconds environment in
  (r, {| iso_files := ws; iso_runs := S (iso_runs s) |}).

Definition action_environment : list (string * string) :=
  [("HOME", "/tmp/home"); ("LC_ALL", "C"); ("PATH", _SANDBOX_PATH); ("PYTHONDONTWRITEBYTECODE", "1");
   ("PYTHONNOUSERSITE", "1"); ("TMPDIR", "/tmp")]%string.
Definition pytest_environment : list (string * string) :=
  [("HOME", "/tmp/home"); ("LC_ALL", "C"); ("PATH", _SANDBOX_PATH); ("PYTHONDONTWRITEBYTECODE", "1");
   ("PYTHONNOUSERSITE", "1"); ("PYTEST_ADDOPTS", ""); ("PYTEST_DISABLE_PLUGIN_AUTOLOAD", "1");
   ("PYTEST_PLUGINS", ""); ("TMPDIR", "/tmp")]%string.

Definition action_runner : string :=
  "import importlib,json,sys;"
  +:+ "sys.path.insert(0,'/workspace');"
  +:+ "m=importlib.import_module(sys.argv[2]);"
  +:+ "v=getattr(m,sys.argv[3])(**json.loads(sys.argv[4]));"
  +:+ "print(json.dumps(v,sort_keys=True,separators=(',',':')))".

(** [json.loads(text, parse_constant=_reject_non_json_constant)]. *)
Definition _reject_non_json_constant (token : string) : res json :=
  Raise (ValueError ("non-JSON numeric constant: " +:+ token)).
Definition candidate_hooks : hooks := {|
  object_pairs_hook := object_pairs_hook default_hooks;
  parse_int := parse_int default_hooks;
  parse_float := parse_float default_hooks;
  parse_constant := _reject_non_json_constant
|}.

Definition module_file (m : string) : string := replace_char "." "/" m +:+ ".py".

Definition _run_action (target : string) (arguments : list (string * json)) : st isolated json :=
  match _MODULE_TARGET target with
  | None => raise_st (ContractInvalidError ("invalid template action target: " +:+ target))
  | Some (m, function) =>
      present ← get_st (fun s => iso_files s !! module_file m);
      match present with
      | None => raise_st (ContractInvalidError ("template action module is missing: " +:+ m))
      | Some _ =>
          completed ← run_in_sandbox
            [sys_executable; "-I"; "-B"; "-c"; action_runner; "unused-workspace-argument"; m; function;
             json_dumps_plain (JObj arguments)]%string 10 action_environment;
          if negb (returncode completed =? 0)
          then raise_st (ContractInvalidError ("action failed before an assertion: " +:+ strip (stderr completed)))
          else lift_res (try_except
                 (v ← json_loads candidate_hooks (stdout completed); _ ← canonical_digest v; Ok v)
                 is_ValueError
                 (fun _ => Raise (ContractInvalidError "action did not return one JSON value")))
      end
  end.

(** The program that runs one pytest node and reports on it. *)
Definition trusted_runner : string := join new_line [
  "import json, os, sys, pytest";
  "root = '/workspace'";
  "protected = {os.path.realpath(os.path.join(root, p)) for p in json.loads(sys.argv[1])}";
  "writes = []";
  "write_flags = os.O_WRONLY | os.O_RDWR | os.O_CREAT | os.O_TRUNC | os.O_APPEND";
  "def resolve(path):";
  " try:";
  "  value = os.fspath(path)";
  "  return os.path.realpath(value) if isinstance(value, str) else ''";
  " except (OSError, TypeError, ValueError):";
  "  return ''";
  "def audit(event,args):";
  " path = resolve(args[0]) if args else ''";
  " targets = {path}";
  " if event in {'os.rename', 'os.replace'} and len(args) > 1:";
  "  targets.add(resolve(args[1]))";
  " def touches(target):";
  "  return any(item == target or item.startswith(target + os.sep) for item in protected)";
  " if event == 'open':";
  "  if path not in protected:";
  "   return";
  "  mode = args[1] or ''";
  "  flags = args[2] or 0";
  "  if any(character in mode for character in 'wax+') or flags & write_flags:";
  "   writes.append((event, path, str(mode), flags))";
  "  return";
  " if not any(touches(target) for target in targets if target):";
  "  return";
  " if event.startswith('os.') and event not in {'os.chdir', 'os.listdir', 'os.scandir', 'os.stat'}:";
  "  writes.append((event, path))";
  "sys.addaudithook(audit)";
  "class Recorder:";
  " def __init__(self): self.reports = {}";
  " def pytest_runtest_logreport(self, report):";
  "  if report.when == 'call' or report.outcome != 'passed':";
  "   self.reports[report.nodeid] = {'outcome': report.outcome, 'when': report.when}";
  "recorder = Recorder()";
  "sys.path.insert(0, root)";
  "code = pytest.main(sys.argv[2:], plugins=[recorder])";
  "print('__PMPE_PYTEST_RESULT__:' + json.dumps({'code': int(code), 'reports': recorder.reports, 'writes': writes}, sort_keys=True))";
  "raise SystemExit(5 if writes else code)";
  ""]%string.

(** [structured.get(k, default)] of a value that need not be a mapping. *)
Definition py_get (v : json) (k : string) (default_ : json) : res json :=
  match v with
  | JObj m => Ok (default default_ (assoc k m))
  | _ => Raise (AttributeError "object has no attribute 'get'")
  end.

Definition pytest_arguments (command : list string) : list string :=
  match command with
  | _ :: b :: c :: rest => if String.eqb b "-m" && String.eqb c "pytest" then rest else tl command
  | _ => tl command
  end.
Definition node_target (test : TemplateTest) : string := tt_path test +:+ "::" +:+ tt_node_id test.

Definition _run_pytest_node (test : TemplateTest) (protected_paths : list string) : st isolated bool :=
  completed ← run_in_sandbox
    ([sys_executable; "-I"; "-B"; "-c"; trusted_runner; json_dumps_plain (JStrs (sorted_set protected_paths))]%string
     ++ pytest_arguments (tt_command test)
     ++ ["--noconftest"; "--rootdir=/workspace"; "-c"; "/dev/null"; "-p"; "no:cacheprovider"]%string)
    30 pytest_environment;
  let result_lines :=
    map (fun line => removeprefix line _PYTEST_RESULT_PREFIX)
      (List.filter (fun line => startswith line _PYTEST_RESULT_PREFIX) (str_splitlines (stdout completed))) in
  let detail := strip (stderr completed) in
  match result_lines with
  | [line] =>
      structured ← lift_res (try_except (json_loads candidate_hooks line) is_ValueError
        (fun _ => Raise (ContractInvalidError "human test produced malformed structured evidence")));
      reports ← lift_res (py_get structured "reports" (JObj []));
      report ← lift_res (py_get reports (node_target test) JNull);
      match report with
      | JObj fields =>
          let outcome := jget "outcome" fields in
          if py_eq outcome (JStr "failed") && (returncode completed =? 1) then mret false
          else if py_eq outcome (JStr "passed") && (returncode completed =? 0) then mret true
          else
            writes ← lift_res (py_get structured "writes" (JArr []));
            raise_st (ContractInvalidError ("bound human test was skipped, errored, or mutated evidence: "
                                            +:+ json_dumps_sorted writes))
      | _ => raise_st (ContractInvalidError "bound human test node did not execute exactly once")
      end
  | _ => raise_st (ContractInvalidError
           ("human test produced no structured pytest result"
            +:+ (if String.eqb detail "" then "" else ": " +:+ detail)))
  end.

(** ** Findings *)

Definition assertion_failed (cid message : string) (implicated : list string) : Finding :=
  {| f_code := "ASSERTION_FAILED"; f_subject_id := cid; f_message := message; f_files := implicated |}.

(** [target.split(":", maxsplit=1)[0].replace(".", "/") + ".py"]. *)
Definition target_file (target : string) : string := module_file (split_first ":" target).

Definition lookup_or_KeyError {V} (k : string) (m : list (string * V)) : res V :=
  from_option_res (assoc k m) (KeyError k).

(** [assert x is not None]. *)
Definition asserted {A} (o : option A) : res A := from_option_res o (AssertionError "").

Definition protected_paths (template : Template) (c : CompiledCriterion) : list string :=
  List.filter (fun relative => startswith relative "tests/") (map fst (files template))
  ++ match human_test c with Some h => [ht_path h] | None => [] end.

Definition template_findings (c : CompiledCriterion) (template : Template) : st isolated (list Finding) :=
  compiled ← lift_res (asserted (template_proof c));
  proof ← lift_res (lookup_or_KeyError (tp_test_id compiled) (proofs template));
  proof_path ← lift_res (_safe_path (tt_path proof));
  payload ← get_st (fun s => iso_files s !! proof_path);
  content ← lift_res (from_option_res payload (OSError "No such file or directory"));
  if negb (String.eqb (sha256_digest content) (tp_file_digest compiled))
  then raise_st (ContractInvalidError "template proof file does not match its compiled digest")
  else
    ok ← _run_pytest_node proof (protected_paths template c);
    mret (if (ok : bool) then []
          else [assertion_failed (criterion_id c) "template acceptance proof failed" [tt_path proof]]).

Definition human_findings (c : CompiledCriterion) (template : Template) : st isolated (list Finding) :=
  human ← lift_res (asserted (human_test c));
  let test := {| tt_path := ht_path human; tt_node_id := ht_node_id human; tt_command := ht_command human |} in
  ok ← _run_pytest_node test (protected_paths template c);
  mret (if (ok : bool) then []
        else [assertion_failed (criterion_id c) "human-authored acceptance assertion failed" [ht_path human]]).

Definition measure_findings (c : CompiledCriterion) (template : Template) : st isolated (list Finding) :=
  o ← lift_res (asserted (operator c));
  minimum ← lift_res (asserted (minimum_sample c));
  target ← lift_res (lookup_or_KeyError (measure c) (measures template));
  observation ← _run_action target [];
  match observation with
  | JObj m =>
      match jget "sample_size" m with
      | JInt sample_size =>
          let assertion := {| pa_path := "value"; pa_operator := o; pa_value := value c |} in
          ok ← (if minimum <=? sample_size
                then lift_res (_assertion_passes assertion observation) else mret false);
          mret (if (ok : bool) then []
                else [assertion_failed (criterion_id c) "compiled measure assertion failed" [target_file target]])
      | _ => raise_st (ContractInvalidError "measure did not return an integer sample_size")
      end
  | _ => raise_st (ContractInvalidError "measure did not return a JSON object")
  end.

Definition action_findings (c : CompiledCriterion) (template : Template) : st isolated (list Finding) :=
  call ← lift_res (asserted (when c));
  given_fails ← lift_res (res_any (fun a => b ← _assertion_passes a (JObj (context template)); Ok (negb b)) (given c));
  if (given_fails : bool)
  then raise_st (ContractInvalidError (criterion_id c +:+ ": Given precondition is false"))
  else
    target ← lift_res (lookup_or_KeyError (ac_action call) (actions template));
    result ← _run_action target (ac_arguments call);
    ok ← lift_res (res_all (fun a => _assertion_passes a (JObj [("result"%string, result)])) (then_ c));
    mret (if (ok : bool) then []
          else [assertion_failed (criterion_id c) "compiled acceptance assertion failed" [target_file target]]).

Definition _criterion_findings (c : CompiledCriterion) (template : Template) : st isolated (list Finding) :=
  if String.eqb (form c) "satisfied_by_template" then template_findings c template
  else if String.eqb (form c) "human_test" then human_findings c template
  else if String.eqb (form c) "measure" then measure_findings c template
  else action_findings c template.

Definition is_ContractInvalidError (e : exn) : bool :=
  match e with ContractInvalidError _ => true | _ => false end.

(** The paths on which two snapshots differ, sorted. *)
Definition changed_paths (snapshot observed : workspace) : list string :=
  sorted_set (List.filter (fun p => negb (bool_decide (snapshot !! p = observed !! p)))
                (map fst (map_to_list snapshot) ++ map fst (map_to_list observed))).

(** Verify one criterion in a fresh copy of the snapshot. *)
Definition verify_criterion (snapshot : workspace) (template : Template) (c : CompiledCriterion)
    : st nat (list Finding) := fun runs =>
  match _materialize_snapshot snapshot ∅ with
  | (Raise e, _) => (Raise e, runs)
  | (Ok _, ws) =>
      let (r, s) := _criterion_findings c template {| iso_files := ws; iso_runs := runs |} in
      let found :=
        try_except r (fun e => is_ContractInvalidError e && negb (bool_decide (human_test c = None)))
          (fun e => match human_test c with
                    | Some h => Ok [{| f_code := "CANDIDATE_EXECUTION_FAILED"; f_subject_id := criterion_id c;
                                       f_message := exn_message e; f_files := [ht_path h] |}]
                    | None => Raise e
                    end) in
      (l ← found;
       Ok (l ++ if bool_decide (iso_files s = snapshot) then []
                else [{| f_code := "CANDIDATE_MUTATED_DURING_VERIFICATION"; f_subject_id := criterion_id c;
                         f_message := "candidate changed its isolated verification snapshot";
                         f_files := changed_paths snapshot (iso_files s) |}]),
       iso_runs s)
  end.

Fixpoint verify_each (snapshot : workspace) (template : Template) (l : list CompiledCriterion)
    : st nat (list Finding) :=
  match l with
  | [] => mret []
  | c :: rest =>
      found ← verify_criterion snapshot template c;
      more ← verify_each snapshot template rest;
      mret (found ++ more)
  end.

Definition _verify_snapshot (plan : AcceptanceBuildPlan) (snapshot : workspace) (template : Template)
    : st nat (list Finding) :=
  verify_each snapshot template (criteria plan).
End Verification.
