(* ===== verification/Engine.v ===== *)
(** * The engine ([barebones.py]): from a contract to [RELEASE_READY]

    [run_to_release_ready] is a computation on the [world]: the evidence store,
    the workspace, the counters and the numbers of the calls made so far to the
    environment.  The environment [env] holds what the engine calls and does not
    control: the provider, the stop signal, the clock, the sandbox, the files of
    the repository and the tools. *)
From Stdlib Require Import SpecFloat Ascii String.
From S2P Require Import Prelude Sha256 Json JsonText PyStr Canonical Ledger Acceptance Quality Drift.
From S2P Require Import Approval Barebones.

(** ** State *)

Record counters : Type := {
  calls : Z;
  bytes : Z;
  tokens_in : Z;
  tokens_out : Z;
  estimated_cost_usd : spec_float;
  provider_model_id : string;
  structured_criteria_count : Z;
  human_test_count : Z;
  elapsed_ms : option Z
}.
Definition zero_counters : counters := {|
  calls := 0; bytes := 0; tokens_in := 0; tokens_out := 0; estimated_cost_usd := S754_zero false;
  provider_model_id := ""; structured_criteria_count := 0; human_test_count := 0; elapsed_ms := None |}.

(** [dict(counters)]. *)
Definition counters_dict (c : counters) : list (string * json) :=
  [("calls", JInt (calls c)); ("bytes", JInt (bytes c)); ("tokens_in", JInt (tokens_in c));
   ("tokens_out", JInt (tokens_out c)); ("estimated_cost_usd", JFloat (estimated_cost_usd c));
   ("provider_model_id", JStr (provider_model_id c));
   ("structured_criteria_count", JInt (structured_criteria_count c));
   ("human_test_count", JInt (human_test_count c))]%string
  ++ match elapsed_ms c with Some z => [("elapsed_ms"%string, JInt z)] | None => [] end.

Record world : Type := {
  evidence : store;
  ws : workspace;
  cnt : counters;
  sandbox_runs : nat;
  stop_polls : nat;
  clock_reads : nat
}.

Definition set_evidence (e : store) (w : world) : world :=
  {| evidence := e; ws := ws w; cnt := cnt w; sandbox_runs := sandbox_runs w;
     stop_polls := stop_polls w; clock_reads := clock_reads w |}.
Definition set_ws (x : workspace) (w : world) : world :=
  {| evidence := evidence w; ws := x; cnt := cnt w; sandbox_runs := sandbox_runs w;
     stop_polls := stop_polls w; clock_reads := clock_reads w |}.
Definition set_cnt (c : counters) (w : world) : world :=
  {| evidence := evidence w; ws := ws w; cnt := c; sandbox_runs := sandbox_runs w;
     stop_polls := stop_polls w; clock_reads := clock_reads w |}.
Definition set_runs (n : nat) (w : world) : world :=
  {| evidence := evidence w; ws := ws w; cnt := cnt w; sandbox_runs := n;
     stop_polls := stop_polls w; clock_reads := clock_reads w |}.

(** Lifting the operations of the parts to the world. *)
Definition in_evidence {A} (m : st store A) : st world A := fun w =>
  let (r, e) := m (evidence w) in (r, set_evidence e w).
Definition in_ws {A} (m : st workspace A) : st world A := fun w =>
  let (r, x) := m (ws w) in (r, set_ws x w).
Definition in_runs {A} (m : st nat A) : st world A := fun w =>
  let (r, n) := m (sandbox_runs w) in (r, set_runs n w).
Definition in_cnt {A} (m : st counters A) : st world A := fun w =>
  let (r, c) := m (cnt w) in (r, set_cnt c w).

(** ** The environment *)

(** A [Path]: whether it is absolute, and its parts. *)
Record Path : Type := { is_absolute : bool; segments : list string }.
#[export] Instance Path_eq_dec : EqDecision Path.
Proof. solve_decision. Defined.

Record env : Type := {
  (* [provider.invoke], from the number of the call *)
  invoke : Z -> string -> list (string * json) -> res (list (string * json));
  stop_requested : nat -> bool;
  (* [int((time.monotonic() - started) * 1000)] at each reading *)
  clock_ms : nat -> Z;
  candidate_sandbox : sandbox_run;
  python : string; (* [sys.executable] *)
  (* the repository's files when the plan is compiled, when the digest of a
     human test is compared, and when the test is copied *)
  repository_at_compile : string -> option string;
  repository_at_check : string -> option string;
  repository_at_copy : string -> option string;
  workspace_path : Path;            (* [workspace], as the caller gives it *)
  workspace_resolved : list string; (* the parts of [workspace.resolve()] *)
  overlaps_evidence : bool;         (* the workspace overlaps [.pmpe] *)
  workspace_occupied : bool;        (* it exists and is not an empty directory *)
  (* what other runs do to the shared blob directory during a write *)
  other_writers : gmap string string -> gmap string string
}.

(** ** Scanning and describing the candidate *)

Section Scan.
Context `{Unicode}.

Definition file_security (f : string * string) : list Finding :=
  let (relative, payload) := f in
  match read_text payload with
  | Raise _ => []
  | Ok content =>
      let found code message :=
        {| f_code := code; f_subject_id := relative; f_message := message; f_files := [relative] |} in
      let is_python := String.eqb (path_suffix relative) ".py" in
      (if _CREDENTIAL content then [found "CRITICAL_CREDENTIAL" "credential material"] else [])%string
      ++ (if is_python && _HIGH_RISK_CODE content
          then [found "HIGH_DYNAMIC_EXECUTION" "dynamic execution"] else [])%string
      ++ (if is_python && contains_str "TODO" content then [found "LOW_TODO" "TODO remains"] else [])%string
  end.
Definition _security_findings (w : workspace) : list Finding := flat_map file_security (files_in_order w).

Definition is_blocking (f : Finding) : bool :=
  startswith (f_code f) "CRITICAL_" || startswith (f_code f) "HIGH_".
End Scan.

(** [_workspace_snapshot]: the files of the workspace. *)
Definition _workspace_snapshot (w : workspace) : workspace := w.

Section Requests.
Context `{Rfc8785}.

(** The blobs of the files, in the order given. *)
Fixpoint store_files (put : string -> st store string) (l : list (string * string))
    : st store (list (string * string)) :=
  match l with
  | [] => mret []
  | (relative, payload) :: rest =>
      digest ← put payload;
      more ← store_files put rest;
      mret ((relative, digest) :: more)
  end.
Definition _candidate_manifest (put : string -> st store string) (snapshot : workspace)
    : st store (string * list string) :=
  stored ← store_files put (files_by_name snapshot);
  manifest_blob ← put (json_dumps (JObj (map (fun p => (fst p, JStr (snd p))) stored)));
  mret (manifest_blob, sorted_set (map snd stored)).

Definition request_suffixes : list string :=
  [".json"; ".md"; ".py"; ".toml"; ".txt"; ".yaml"; ".yml"]%string.

Definition in_request (f : string * string) : bool :=
  negb (str_in "__pycache__" (path_parts (fst f))) && str_in (path_suffix (fst f)) request_suffixes.

Definition _model_request (contract : list (string * json)) (plan : AcceptanceBuildPlan) (w : workspace)
    (findings : list Finding) (enforce_quality : bool) : res (list (string * json)) :=
  texts ← res_mapM (fun f => text ← read_text (snd f); Ok (fst f, JStr text))
            (List.filter in_request (files_in_order w));
  let body := [("contract", JObj contract); ("plan", as_dict plan); ("files", JObj texts);
               ("findings", findings_json findings)]%string
              ++ (if enforce_quality then [("generation_policy"%string, generation_policy)] else []) in
  digest ← canonical_digest (JObj body);
  Ok (body ++ [("request_digest"%string, JStr digest)]).
End Requests.

(** ** The provider behind its budget *)

Definition token_usage (usage : list (string * json)) (source : string) (so_far : Z) : res Z :=
  match jget source usage with
  | JNull => Ok so_far
  | JInt v =>
      if (v <? 0) || (_MAX_SAFE_JSON_INTEGER <? so_far + v)
      then Raise (RuntimeError "MODEL_PROVIDER_USAGE_INVALID") else Ok (so_far + v)
  | _ => Raise (RuntimeError "MODEL_PROVIDER_USAGE_INVALID")
  end.

(** [float(estimated)] of an integer that a double holds, or of a float. *)
Definition cost_value (estimated : json) : res spec_float :=
  match estimated with
  | JInt z => if _MAX_SAFE_JSON_INTEGER <? Z.abs z then Raise (RuntimeError "MODEL_PROVIDER_USAGE_INVALID")
              else Ok (binary_normalize 53 1024 z 0 false)
  | JFloat f => Ok f
  | _ => Raise (RuntimeError "MODEL_PROVIDER_USAGE_INVALID")
  end.
Definition is_negative (f : spec_float) : bool :=
  match f with S754_finite true _ _ => true | _ => false end.
Definition cost_usage (usage : list (string * json)) (so_far : spec_float) : res spec_float :=
  match jget "estimated_cost_usd" usage with
  | JNull => Ok so_far
  | estimated =>
      v ← cost_value estimated;
      let total := SFadd 53 1024 so_far v in
      if negb (is_finite v) || is_negative v || negb (is_finite total)
      then Raise (RuntimeError "MODEL_PROVIDER_USAGE_INVALID") else Ok total
  end.

Definition observed_model (so_far model : string) : string :=
  if String.eqb so_far "" || String.eqb so_far model then model else "multiple".

Definition with_calls n c := {| calls := n; bytes := bytes c; tokens_in := tokens_in c;
  tokens_out := tokens_out c; estimated_cost_usd := estimated_cost_usd c;
  provider_model_id := provider_model_id c; structured_criteria_count := structured_criteria_count c;
  human_test_count := human_test_count c; elapsed_ms := elapsed_ms c |}.
Definition with_bytes n c := {| calls := calls c; bytes := n; tokens_in := tokens_in c;
  tokens_out := tokens_out c; estimated_cost_usd := estimated_cost_usd c;
  provider_model_id := provider_model_id c; structured_criteria_count := structured_criteria_count c;
  human_test_count := human_test_count c; elapsed_ms := elapsed_ms c |}.
Definition with_tokens_in n c := {| calls := calls c; bytes := bytes c; tokens_in := n;
  tokens_out := tokens_out c; estimated_cost_usd := estimated_cost_usd c;
  provider_model_id := provider_model_id c; structured_criteria_count := structured_criteria_count c;
  human_test_count := human_test_count c; elapsed_ms := elapsed_ms c |}.
Definition with_tokens_out n c := {| calls := calls c; bytes := bytes c; tokens_in := tokens_in c;
  tokens_out := n; estimated_cost_usd := estimated_cost_usd c;
  provider_model_id := provider_model_id c; structured_criteria_count := structured_criteria_count c;
  human_test_count := human_test_count c; elapsed_ms := elapsed_ms c |}.
Definition with_cost x c := {| calls := calls c; bytes := bytes c; tokens_in := tokens_in c;
  tokens_out := tokens_out c; estimated_cost_usd := x;
  provider_model_id := provider_model_id c; structured_criteria_count := structured_criteria_count c;
  human_test_count := human_test_count c; elapsed_ms := elapsed_ms c |}.
Definition with_model m c := {| calls := calls c; bytes := bytes c; tokens_in := tokens_in c;
  tokens_out := tokens_out c; estimated_cost_usd := estimated_cost_usd c;
  provider_model_id := m; structured_criteria_count := structured_criteria_count c;
  human_test_count := human_test_count c; elapsed_ms := elapsed_ms c |}.

(** The update of the usage counters from [response["usage"]]. *)
Definition account_usage (response : list (string * json)) : st counters unit :=
  match jget "usage" response with
  | JObj usage =>
      spent ← get_st tokens_in; n ← lift_res (token_usage usage "input_tokens" spent);
      _ ← modify_st (with_tokens_in n);
      spent ← get_st tokens_out; n ← lift_res (token_usage usage "output_tokens" spent);
      _ ← modify_st (with_tokens_out n);
      spent ← get_st estimated_cost_usd; x ← lift_res (cost_usage usage spent);
      modify_st (with_cost x)
  | _ => mret tt
  end.

Definition account_model (response : list (string * json)) : st counters unit :=
  match jget "provider_metadata" response with
  | JObj metadata =>
      match jget "model" metadata with
      | JStr (String _ _ as model) =>
          modify_st (fun c => with_model (observed_model (provider_model_id c) model) c)
      | _ => mret tt
      end
  | _ => mret tt
  end.

Definition _invoke_bound (provider : Z -> string -> list (string * json) -> res (list (string * json)))
    (purpose : string) (request : list (string * json)) (budget : BudgetCaps)
    : st counters (list (string * json)) :=
  made ← get_st calls;
  if max_model_calls budget <=? made then raise_st (RuntimeError "MODEL_CALL_BUDGET_EXHAUSTED")
  else
    _ ← modify_st (with_calls (made + 1));
    response ← lift_res (provider made purpose request);
    let serialized := json_dumps (JObj response) in
    if _CREDENTIAL serialized then raise_st (RuntimeError "MODEL_RESPONSE_CONTAINS_CREDENTIAL")
    else
      _ ← modify_st (fun c => with_bytes (bytes c + Z.of_nat (String.length serialized)) c);
      used ← get_st bytes;
      if max_model_output_bytes budget <? used then raise_st (RuntimeError "MODEL_OUTPUT_BUDGET_EXHAUSTED")
      else if negb (py_eq (jget "request_digest" response) (jget "request_digest" request))
      then raise_st (RuntimeError "MODEL_RESPONSE_UNBOUND")
      else
        _ ← account_usage response;
        _ ← account_model response;
        mret response.
