(* ===== verification/Run.v ===== *)
(** * [run_to_release_ready] ([barebones.py])

    The run from a contract to one of its three endings, in the order of the
    code: admission, the protected files, the failing baseline, and the attempts
    of the coder, each verified before it can be released. *)
From Stdlib Require Import SpecFloat Ascii String.
From S2P Require Import Prelude Sha256 Json JsonText PyStr Canonical Ledger Acceptance Quality Drift.
From S2P Require Import Approval Barebones Engine.

Definition default_template : Template := {|
  version := "barebones-1";
  files := [("product.py"%string,
    quote +:+ quote +:+ quote +:+ "Product behavior generated from a PMOS contract."
    +:+ quote +:+ quote +:+ quote +:+ new_line +:+ new_line
    +:+ "def health() -> dict[str, str]:" +:+ new_line
    +:+ "    return {" +:+ quote +:+ "status" +:+ quote +:+ ": "
    +:+ quote +:+ "not_implemented" +:+ quote +:+ "}" +:+ new_line)];
  actions := [("health", "product:health")]%string;
  context := [("service", JObj [("running", JBool true)])]%string;
  proofs := [];
  measures := []
|}.

(** ** Compiling the plan *)

Section Plan.
Context `{Rfc8785} `{Unicode} `{Regex}.

Fixpoint proof_digests (template : Template) (l : list (string * TemplateTest)) : res (list (string * string)) :=
  match l with
  | [] => Ok []
  | (test_id, proof) :: rest =>
      _ ← raise_if (negb (is_safe_relative (tt_path proof)))
            (ContractInvalidError ("invalid template proof path: " +:+ test_id));
      match assoc (tt_path proof) (files template) with
      | Some content =>
          _ ← raise_if (negb (str_in (node_target proof) (tt_command proof)))
                (ContractInvalidError ("invalid template proof binding: " +:+ test_id));
          more ← proof_digests template rest;
          Ok ((test_id, sha256_digest content) :: more)
      | None => Raise (ContractInvalidError ("invalid template proof binding: " +:+ test_id))
      end
  end.

Definition trusted_tests (template : Template) : list (string * string) :=
  map (fun f => (fst f, sha256_digest (snd f)))
    (List.filter (fun f => startswith (fst f) "tests/") (files template)).

Definition compile_barebones_plan (contract : list (string * json))
    (repository : string -> option string) (template : Template) : res AcceptanceBuildPlan :=
  template_test_digests ← proof_digests template (proofs template);
  compile_acceptance_plan
    {| repository_file := repository; registered_actions := map fst (actions template);
       registered_measures := map fst (measures template); template_version := version template;
       template_test_digests := template_test_digests |}
    contract (trusted_tests template).
End Plan.

(** ** The approval of the contract *)

(** The three approval inputs, which are given together or not at all. *)
Record approval_inputs : Type := {
  approval_receipt : option (list (string * json));
  approval_authority : option string;
  approval_receipt_bytes : option string
}.
Definition no_approval : approval_inputs :=
  {| approval_receipt := None; approval_authority := None; approval_receipt_bytes := None |}.

Definition is_ContractViolation (e : exn) : bool :=
  match e with ContractViolation _ => true | _ => false end.
Definition is_CanonicalInputError (e : exn) : bool :=
  match e with CanonicalInputError _ _ => true | _ => false end.

Section Admission.
Context `{Rfc8785} `{Yaml}.

Definition approval_payload (contract : list (string * json)) (a : approval_inputs)
    : res (list (string * json)) :=
  match approval_receipt a, approval_authority a, approval_receipt_bytes a with
  | None, None, None => Ok [("status", JStr "UNVERIFIED_DIRECT_CALL")]%string
  | Some receipt, Some authority, Some submitted =>
      submitted_receipt ← try_except (strict_loads submitted "application/json") is_CanonicalInputError
        (fun _ => Raise (ContractInvalidError "submitted approval receipt is malformed"));
      submitted_digest ← canonical_digest (JObj submitted_receipt);
      given_digest ← canonical_digest (JObj receipt);
      _ ← raise_if (negb (String.eqb submitted_digest given_digest))
            (ContractInvalidError "submitted approval receipt bytes do not match receipt");
      receipt_digest ← try_except (verify_contract_approval contract receipt authority) is_ContractViolation
        (fun e => Raise (ContractInvalidError (exn_message e)));
      Ok [("status", JStr "VERIFIED"); ("authority", JStr authority);
          ("receipt_digest", JStr receipt_digest)]%string
  | _, _, _ => Raise (ContractInvalidError
      "approval receipt, authority, and submitted bytes must be supplied together")
  end.
End Admission.

(** ** Paths of the workspace *)

(** [parent] of the root and of the empty relative path is the path itself. *)
Definition parent (p : Path) : Path := {| is_absolute := is_absolute p; segments := removelast (segments p) |}.
Definition child (p : Path) (name : string) : Path :=
  {| is_absolute := is_absolute p; segments := segments p ++ [name] |}.

(** [workspace.resolve() / relative]. *)
Definition resolved_path (resolved : list string) (relative : string) : Path :=
  {| is_absolute := true; segments := resolved ++ split_on "/" relative |}.

Fixpoint drop_segments (prefix l : list string) : option (list string) :=
  match prefix, l with
  | [], _ => Some l
  | x :: prefix', y :: l' => if String.eqb x y then drop_segments prefix' l' else None
  | _, [] => None
  end.
(** [path.relative_to(workspace).as_posix()]. *)
Definition relative_to (workspace_path p : Path) : res string :=
  match (if Bool.eqb (is_absolute workspace_path) (is_absolute p)
         then drop_segments (segments workspace_path) (segments p) else None) with
  | Some [] => Ok "."%string
  | Some rest => Ok (join "/" rest)
  | None => Raise (ValueError "is not in the subpath")
  end.

(** [while parent != workspace: ...; parent = parent.parent], for [fuel] rounds;
    [None]: it has not ended. *)
Fixpoint initializer_walk (fuel : nat) (workspace_path directory : Path) : option (list Path) :=
  if decide (directory = workspace_path) then Some []
  else match fuel with
       | O => None
       | S fuel' => more ← initializer_walk fuel' workspace_path (parent directory);
                    Some (child directory "__init__.py" :: more)
       end.
(** The root is reached, and met again for ever, after as many rounds as the
    path has parts. *)
Definition package_initializers (workspace_path protected_test : Path) : option (list Path) :=
  initializer_walk (List.length (segments protected_test)) workspace_path (parent protected_test).

Fixpoint all_initializers (workspace_path : Path) (l : list Path) : option (list Path) :=
  match l with
  | [] => Some []
  | p :: rest => here ← package_initializers workspace_path p;
                 more ← all_initializers workspace_path rest;
                 Some (here ++ more)
  end.

(** [data.decode("utf-8", errors="replace")]: every maximal ill-formed part
    becomes one U+FFFD. *)
Definition in_bytes (lo hi : N) (c : ascii) : bool := ((lo <=? byte_n c) && (byte_n c <=? hi))%N.
Definition continuation : ascii -> bool := in_bytes 128 191.
Definition second_byte (lead : ascii) : ascii -> bool :=
  let n := byte_n lead in
  if (n =? 224)%N then in_bytes 160 191 else if (n =? 237)%N then in_bytes 128 159
  else if (n =? 240)%N then in_bytes 144 191 else if (n =? 244)%N then in_bytes 128 143
  else continuation.
Definition replacement : string := utf8_encode 65533.
Fixpoint decode_replace (s : string) : string :=
  match s with
  | EmptyString => ""
  | String a s1 =>
      if in_bytes 0 127 a then String a (decode_replace s1)
      else if negb (in_bytes 194 244 a) then replacement +:+ decode_replace s1
      else match s1 with
           | EmptyString => replacement
           | String b s2 =>
               if negb (second_byte a b) then replacement +:+ decode_replace s1
               else if in_bytes 194 223 a then String a (String b (decode_replace s2))
               else match s2 with
                    | EmptyString => replacement
                    | String c s3 =>
                        if negb (continuation c) then replacement +:+ decode_replace s2
                        else if in_bytes 224 239 a then String a (String b (String c (decode_replace s3)))
                        else match s3 with
                             | EmptyString => replacement
                             | String d s4 =>
                                 if negb (continuation d) then replacement +:+ decode_replace s3
                                 else String a (String b (String c (String d (decode_replace s4))))
                             end
                    end
           end
  end.

(** ** The run *)

(** What the caller passes; [None] stands for the default argument. *)
Record run_arguments : Type := {
  contract : list (string * json);
  requested_run_id : string;
  template : option Template;
  budget : option BudgetCaps;
  approval : approval_inputs;
  enforce_quality : bool
}.

(** What the closures of the run share. *)
Record run_context : Type := {
  rc_contract : list (string * json);
  rc_template : Template;
  rc_budget : BudgetCaps;
  rc_enforce : bool;
  rc_subject : string;
  rc_plan : AcceptanceBuildPlan;
  rc_ledger : ledger
}.

(** The outcome of a part of the run: the run is over, or it goes on. *)
Inductive stage (A : Type) : Type := Finished (r : RunResult) | Continue (a : A).
Arguments Finished {A} r.
Arguments Continue {A} a.

Section Run.
Context `{Rfc8785} `{Yaml} `{Unicode} `{Regex} `{PythonTools}.
Variable e : env.

(** [m] and then, unless the run is over, [k]. *)
Definition next {A B} (m : st world (stage A)) (k : A -> st world (stage B)) : st world (stage B) :=
  x ← m; match x with Finished r => mret (Finished r) | Continue a => k a end.

Definition poll_stop : st world bool := fun w =>
  (Ok (stop_requested e (stop_polls w)),
   {| evidence := evidence w; ws := ws w; cnt := cnt w; sandbox_runs := sandbox_runs w;
      stop_polls := S (stop_polls w); clock_reads := clock_reads w |}).
Definition read_clock : st world Z := fun w =>
  (Ok (clock_ms e (clock_reads w)),
   {| evidence := evidence w; ws := ws w; cnt := cnt w; sandbox_runs := sandbox_runs w;
      stop_polls := stop_polls w; clock_reads := S (clock_reads w) |}).

Definition with_elapsed ms c := {| calls := calls c; bytes := bytes c; tokens_in := tokens_in c;
  tokens_out := tokens_out c; estimated_cost_usd := estimated_cost_usd c;
  provider_model_id := provider_model_id c; structured_criteria_count := structured_criteria_count c;
  human_test_count := human_test_count c; elapsed_ms := Some ms |}.
Definition with_criteria structured human c := {| calls := calls c; bytes := bytes c;
  tokens_in := tokens_in c; tokens_out := tokens_out c; estimated_cost_usd := estimated_cost_usd c;
  provider_model_id := provider_model_id c; structured_criteria_count := structured;
  human_test_count := human; elapsed_ms := elapsed_ms c |}.

Definition _terminal_telemetry : st world json :=
  ms ← read_clock;
  _ ← in_cnt (modify_st (with_elapsed ms));
  get_st (fun w => JObj (counters_dict (cnt w))).

Section Context_.
Variable rc : run_context.

Definition put (payload : string) : st world string :=
  in_evidence (put_blob (rc_ledger rc) payload (other_writers e)).
Definition put_json (v : json) : st world string := put (json_dumps v).

(** [ledger.append] with the contract's digest as the subject. *)
Definition log (event_type : string) (state : RunState) (blob_digests : list string)
    (payload : list (string * json)) : st world event :=
  in_evidence (append (rc_ledger rc) event_type (state_name state) (rc_subject rc) blob_digests payload
                 None None sound_disk).

(** [finish]: its default for [elapsed_ms] reads the clock in any case. *)
Definition finish (state : RunState) (cause : string) (attempts : Z) (annotation : list (string * json))
    : st world RunResult :=
  now ← read_clock;
  c ← get_st cnt;
  mret {| result_run_id := run_id (rc_ledger rc); result_state := state; result_cause := cause;
          result_attempts := attempts; result_model_calls := calls c;
          result_elapsed_ms := default now (elapsed_ms c); result_annotation := annotation;
          result_telemetry := counters_dict c |}.

(** The terminal event of a run that is not released, and its result. *)
Definition conclude (event_type : string) (state : RunState) (cause : string)
    (details : list (string * json)) (attempts : Z) : st world RunResult :=
  telemetry ← _terminal_telemetry;
  _ ← log event_type state []
        ([("cause"%string, JStr cause)] ++ details ++ [("telemetry"%string, telemetry)]);
  finish state cause attempts [].
Definition halt {A} (cause : string) (details : list (string * json)) (attempts : Z) : st world (stage A) :=
  r ← conclude "halted" HALTED cause details attempts; mret (Finished r).

(** Stop when the operator asks for it. *)
Definition stop_point (attempts : Z) : st world (stage unit) :=
  stop ← poll_stop;
  if (stop : bool)
  then r ← conclude "stopped" STOPPED "STOP_REQUESTED" [] attempts; mret (Finished r)
  else mret (Continue tt).

(** *** One answer of the coder *)

Definition provider_errors (error : exn) : bool := is_RuntimeError error || is_OSError error.

(** [_invoke_bound] in its [try]: [inl] is the cause of the failure. *)
Definition invoke_bound (purpose : string) (request : list (string * json))
    : st world (string + list (string * json)) :=
  try_st (response ← in_cnt (_invoke_bound (invoke e) purpose request (rc_budget rc)); mret (inr response))
    provider_errors (fun error => mret (inl (_classify_provider_error error))).

Definition distinct (l : list string) : nat := List.length (dict_fromkeys l).

(** The paths of the response, all safe. *)
Definition response_paths (response_files : list (string * json)) : res (list Path) :=
  relatives ← res_mapM _safe_path (map fst response_files);
  _ ← raise_if (negb (Nat.eqb (distinct relatives) (List.length response_files)))
        (ValueError "candidate paths must be strings");
  Ok (map (resolved_path (workspace_resolved e)) relatives).

Definition touches (protected_tests paths : list Path) : bool :=
  existsb (fun p => bool_decide (p ∈ protected_tests)) paths.

(** From the request to the event [coder_completed]: what the coder changed. *)
Definition coder_turn (protected_tests : list Path) (attempt : Z) (findings : list Finding)
    : st world (stage (list string)) :=
  w ← get_st ws;
  request ← lift_res (_model_request (rc_contract rc) (rc_plan rc) w findings (rc_enforce rc));
  answer ← invoke_bound "code" request;
  match answer with
  | inl cause => halt cause [] (attempt - 1)
  | inr response =>
      match jget "files" response with
      | JObj response_files =>
          match response_paths response_files with
          | Raise error => if is_ValueError error then halt "CODER_RESPONSE_INVALID" [] attempt
                           else raise_st error
          | Ok paths =>
              if touches protected_tests paths then halt "CODER_MODIFIED_EVIDENCE" [] attempt
              else
                next (try_st (changed ← in_ws (_write_files response_files); mret (Continue changed))
                        is_ValueError (fun _ => halt "CODER_RESPONSE_INVALID" [] attempt))
                  (fun changed =>
                     coder_blob ← put_json (JObj response);
                     request_blob ← put_json (JObj request);
                     behavior ← lift_res (_provider_behavior_payload "code" response);
                     _ ← log "coder_completed" BUILDING [request_blob; coder_blob]
                           ([("attempt", JInt attempt); ("changed", JStrs changed);
                             ("request_blob_digest", JStr request_blob);
                             ("response_blob_digest", JStr coder_blob)]%string
                            ++ match behavior with
                               | Some b => [("provider_behavior"%string, b)]
                               | None => []
                               end);
                     mret (Continue changed))
          end
      | _ => halt "CODER_RESPONSE_INVALID" [] attempt
      end
  end.

(** *** The same findings again *)

Definition human_test_ids : list string :=
  map criterion_id (List.filter (fun c => String.eqb (form c) "human_test") (criteria (rc_plan rc))).

(** Whether the change bears on the findings it answers. *)
Definition relevant_change (findings : list Finding) (changed : list string) : bool :=
  existsb (fun p => str_in p changed) (flat_map f_files findings)
  || (negb (bool_decide (changed = [])) && existsb (fun f => str_in (f_subject_id f) human_test_ids) findings)
  || (existsb (fun f => String.eqb (f_code f) "CANDIDATE_EXECUTION_FAILED") findings
      && existsb (fun p => endswith p ".py") changed).

Definition repeat_cause (findings : list Finding) : string :=
  "REPEAT_FINDING_WITHOUT_RELEVANT_CHANGE:" +:+ join "," (sorted_set (map f_subject_id findings)).

Definition repeat_check (attempt : Z) (findings : list Finding) (previous_finding_digest : string)
    (changed : list string) : st world (stage unit) :=
  finding_digest ← lift_res (canonical_digest (findings_json findings));
  if String.eqb previous_finding_digest finding_digest && negb (relevant_change findings changed)
  then halt (repeat_cause findings) [("findings"%string, findings_json findings)] attempt
  else mret (Continue tt).

(** *** Verification of the candidate *)

Definition no_quality : json := JObj [("status", JStr "NOT_REQUESTED"); ("passed", JBool false)]%string.

Definition quality_findings (snapshot : workspace) (report : PythonQualityReport) : list Finding :=
  let source_files := List.filter (fun p => endswith p ".py") (map fst (files_in_order snapshot)) in
  map (fun check => {| f_code := "GENERATED_QUALITY_FAILED"; f_subject_id := "quality:" +:+ pc_name check;
                       f_message := pc_details check; f_files := source_files |})
    (List.filter (fun check => negb (check_passed check)) (checks report)).

Definition quality_stage (protected_tests : list Path) (attempt : Z) (snapshot : workspace)
    : st world (json * list Finding) :=
  if rc_enforce rc then
    trusted_paths ← lift_res (res_mapM (relative_to (workspace_path e)) protected_tests);
    report ← lift_res (check_python_candidate (files_in_order snapshot) trusted_paths);
    let quality := report_members report in
    quality_blob ← put (json_dumps_sorted (JObj quality));
    _ ← log "generated_quality_checked" VERIFYING [quality_blob] (("attempt"%string, JInt attempt) :: quality);
    mret (JObj quality, quality_findings snapshot report)
  else mret (no_quality, []).

Definition verify_snapshot (snapshot : workspace) : st world (list Finding) :=
  in_runs (_verify_snapshot (candidate_sandbox e) (python e) (rc_plan rc) snapshot (rc_template rc)).

Definition execution_failed (error : exn) : Finding := {|
  f_code := "CANDIDATE_EXECUTION_FAILED"; f_subject_id := "candidate"; f_message := exn_message error;
  f_files := sorted_set (map target_file (map snd (actions (rc_template rc)) ++ map snd (measures (rc_template rc))))
|}.

(** The [try] around the quality checks and the criteria. *)
Definition verification (protected_tests : list Path) (attempt : Z) (snapshot : workspace)
    : st world (json * list Finding) :=
  try_st
    (q ← quality_stage protected_tests attempt snapshot;
     let (quality, found) := (q : json * list Finding) in
     match found with
     | _ :: _ => mret (quality, found)
     | [] => found ← verify_snapshot snapshot; mret (quality, found)
     end)
    is_ContractInvalidError (fun error => mret (no_quality, [execution_failed error])).

(** *** Release *)

Definition review_body (evidence_blob : string) (snapshot : workspace) (quality : json) : list (string * json) :=
  [("contract_digest", JStr (rc_subject rc)); ("plan_digest", JStr (plan_digest (rc_plan rc)));
   ("evidence_digest", JStr evidence_blob);
   ("instruction", JStr "Return one non-blocking advisory annotation.")]%string
  ++ (if rc_enforce rc
      then [("contract", JObj (rc_contract rc));
            ("files", JObj (map (fun f => (fst f, JStr (decode_replace (snd f)))) (files_in_order snapshot)));
            ("generation_policy", generation_policy); ("quality", quality)]%string
      else []).

Definition release (attempt : Z) (snapshot : workspace) (security : list Finding) (quality : json)
    : st world RunResult :=
  blob ← put (json_dumps_sorted (JObj
    [("assertions", JStr "passed"); ("coverage", JStr "complete"); ("security", findings_json security);
     ("attempt", JInt attempt); ("quality", quality)]%string));
  manifest ← in_evidence (_candidate_manifest
    (fun payload => put_blob (rc_ledger rc) payload (other_writers e)) snapshot);
  let (candidate_blob, candidate_file_blobs) := (manifest : string * list string) in
  let body := review_body blob snapshot quality in
  request_digest ← lift_res (canonical_digest (JObj body));
  answer ← invoke_bound "advisory_review" (body ++ [("request_digest"%string, JStr request_digest)]);
  let annotation := match answer with
                    | inr a => a
                    | inl cause => [("status", JStr "unavailable"); ("cause", JStr cause)]%string
                    end in
  telemetry ← _terminal_telemetry;
  behavior ← lift_res (_provider_behavior_payload "advisory_review" annotation);
  _ ← log "release_ready" RELEASE_READY (blob :: candidate_blob :: candidate_file_blobs)
        ([("annotation", JObj annotation); ("candidate_digest", JStr candidate_blob);
          ("telemetry", telemetry); ("quality", quality)]%string
         ++ match behavior with Some b => [("provider_behavior"%string, b)] | None => [] end);
  finish RELEASE_READY "PASS" attempt annotation.

(** *** One attempt *)

Definition failed (event_type : string) (attempt : Z) (findings : list Finding)
    : st world (stage (list Finding)) :=
  finding_blob ← put_json (findings_json findings);
  _ ← log event_type BUILDING [finding_blob]
        [("attempt", JInt attempt); ("findings", findings_json findings)]%string;
  mret (Continue findings).

(** From the security scan to the release or the findings of the next attempt. *)
Definition judge (protected_tests : list Path) (attempt : Z) (changed : list string)
    : st world (stage (list Finding)) :=
  snapshot ← get_st (fun w => _workspace_snapshot (ws w));
  security ← get_st (fun w => _security_findings (ws w));
  match List.filter is_blocking security with
  | (_ :: _) as blocking_security => failed "security_failed" attempt blocking_security
  | [] =>
      _ ← log "verification_started" VERIFYING []
            [("attempt", JInt attempt); ("changed", JStrs changed)]%string;
      verdict ← verification protected_tests attempt snapshot;
      let (quality, findings) := (verdict : json * list Finding) in
      match findings with
      | [] => r ← release attempt snapshot security quality; mret (Finished r)
      | _ :: _ => failed "verification_failed" attempt findings
      end
  end.

Definition run_attempt (protected_tests : list Path) (attempt : Z) (findings : list Finding)
    (previous_finding_digest : string) : st world (stage (list Finding)) :=
  next (stop_point (attempt - 1)) (fun _ =>
  next (coder_turn protected_tests attempt findings) (fun changed =>
  next (repeat_check attempt findings previous_finding_digest changed) (fun _ =>
  judge protected_tests attempt changed))).

(** [for attempt in range(1, max_attempts + 1)], with [remaining] to go. *)
Fixpoint attempts (protected_tests : list Path) (remaining : nat) (attempt : Z) (findings : list Finding)
    (previous_finding_digest : string) : st world RunResult :=
  match remaining with
  | O => conclude "halted" HALTED "ATTEMPT_BUDGET_EXHAUSTED"
           [("findings"%string, findings_json findings)] (max_attempts (rc_budget rc))
  | S remaining' =>
      outcome ← run_attempt protected_tests attempt findings previous_finding_digest;
      match outcome with
      | Finished r => mret r
      | Continue findings' =>
          digest ← lift_res (canonical_digest (findings_json findings'));
          attempts protected_tests remaining' (attempt + 1) findings' digest
      end
  end.

(** *** Before the attempts *)

Fixpoint protect_trusted (l : list (string * string)) : st world (list Path) :=
  match l with
  | [] => mret []
  | (relative, digest) :: rest =>
      trusted_path ← lift_res (_safe_path relative);
      content ← get_st (fun w => ws w !! trusted_path);
      content ← lift_res (from_option_res content (OSError "No such file or directory"));
      if negb (String.eqb (sha256_digest content) digest)
      then raise_st (ContractInvalidError "trusted test support does not match its compiled digest")
      else more ← protect_trusted rest;
           mret (resolved_path (workspace_resolved e) trusted_path :: more)
  end.

Fixpoint protect_human (l : list CompiledCriterion) : st world (list Path) :=
  match l with
  | [] => mret []
  | c :: rest =>
      match human_test c with
      | None => protect_human rest
      | Some human =>
          let relative := ht_path human in
          source ← lift_res (from_option_res (repository_at_check e relative) (OSError "No such file or directory"));
          if negb (String.eqb (sha256_digest source) (ht_file_digest human))
          then raise_st (ContractInvalidError "human test changed after compilation")
          else
            source ← lift_res (from_option_res (repository_at_copy e relative) (OSError "No such file or directory"));
            text ← lift_res (read_text source);
            _ ← in_ws (_write_files [(relative, JStr text)]);
            relative ← lift_res (_safe_path relative);
            more ← protect_human rest;
            mret (resolved_path (workspace_resolved e) relative :: more)
      end
  end.

(** The template's files and the tests that the coder must not touch. *)
Definition prepare : st world (list Path) :=
  _ ← in_ws (_write_files (map (fun f => (fst f, JStr (snd f))) (files (rc_template rc))));
  bound ← lift_res (res_mapM (fun p => _safe_path (tt_path (snd p))) (proofs (rc_template rc)));
  trusted ← protect_trusted (trusted_test_digests (rc_plan rc));
  human ← protect_human (criteria (rc_plan rc));
  let protected_tests := map (resolved_path (workspace_resolved e)) bound ++ trusted ++ human in
  initializers ← lift_res (from_option_res (all_initializers (workspace_path e) protected_tests) OutOfFuel);
  mret (protected_tests ++ initializers).

(** The candidate must fail every criterion but the template's, by assertion. *)
Definition meaningful_red (baseline : list Finding) : bool :=
  let non_template :=
    map criterion_id (List.filter (fun c => negb (String.eqb (form c) "satisfied_by_template"))
                        (criteria (rc_plan rc))) in
  forallb (fun f => String.eqb (f_code f) "ASSERTION_FAILED") baseline
  && bool_decide (sorted_set (map f_subject_id baseline) = sorted_set non_template).

Definition confirm_red : st world (list Finding) :=
  snapshot ← get_st (fun w => _workspace_snapshot (ws w));
  baseline ← verify_snapshot snapshot;
  if negb (meaningful_red baseline)
  then raise_st (ContractInvalidError "baseline must fail every non-template criterion by assertion")
  else
    baseline_blob ← put_json (findings_json baseline);
    _ ← log "meaningful_red_confirmed" BUILDING [baseline_blob]
          [("findings"%string, findings_json baseline)];
    mret baseline.

Definition validated (approval_ : list (string * json)) (receipt_bytes : option string) : st world unit :=
  plan_blob ← put_json (as_dict (rc_plan rc));
  contract_blob ← put_json (JObj (rc_contract rc));
  receipt ← match receipt_bytes with
            | Some submitted => receipt_blob ← put submitted; mret (Some receipt_blob)
            | None => mret None
            end;
  let approval_payload := approval_ ++ match receipt with
                                       | Some receipt_blob => [("receipt_blob_digest"%string, JStr receipt_blob)]
                                       | None => []
                                       end in
  _ ← log "contract_validated" VALIDATED
        ([contract_blob; plan_blob] ++ match receipt with Some b => [b] | None => [] end)
        [("approval", JObj approval_payload); ("contract_digest", JStr contract_blob);
         ("plan_digest", JStr (plan_digest (rc_plan rc)));
         ("generation_policy", if rc_enforce rc then generation_policy else JNull)]%string;
  mret tt.

(** Everything after the first event. *)
Definition build : st world RunResult :=
  stopped ← stop_point 0;
  match stopped with
  | Finished r => mret r
  | Continue _ =>
      protected_tests ← prepare;
      baseline ← confirm_red;
      attempts protected_tests (Z.to_nat (max_attempts (rc_budget rc))) 1 baseline ""
  end.
End Context_.

Definition count_form (human : bool) (l : list CompiledCriterion) : Z :=
  Z.of_nat (List.length (List.filter (fun c => Bool.eqb human (String.eqb (form c) "human_test")) l)).

(** What is decided before the workspace and the ledger exist. *)
Definition admitted (a : run_arguments) : res (list (string * json) * string * AcceptanceBuildPlan) :=
  _ ← raise_if (enforce_quality a && negb (bool_decide (missing_quality_tools = [])))
        (ContractInvalidError ("GENERATION_CHECKER_UNAVAILABLE: " +:+ join ", " missing_quality_tools));
  subject_digest ← canonical_digest (JObj (contract a));
  approval_ ← approval_payload (contract a) (approval a);
  plan ← compile_barebones_plan (contract a) (repository_at_compile e)
           (default default_template (template a));
  _ ← raise_if (overlaps_evidence e)
        (ContractInvalidError "candidate workspace must not overlap evidence storage");
  _ ← raise_if (workspace_occupied e) (ContractInvalidError "candidate workspace must be empty");
  Ok (approval_, subject_digest, plan).

Definition context_of (a : run_arguments) (subject_digest : string) (plan : AcceptanceBuildPlan) (l : ledger)
    : run_context := {|
  rc_contract := contract a; rc_template := default default_template (template a);
  rc_budget := default default_budget (budget a); rc_enforce := enforce_quality a;
  rc_subject := subject_digest; rc_plan := plan; rc_ledger := l |}.

Definition run_to_release_ready (a : run_arguments) : st world RunResult :=
  start ← lift_res (admitted a);
  let '(approval_, subject_digest, plan) := (start : list (string * json) * string * AcceptanceBuildPlan) in
  _ ← in_cnt (modify_st (with_criteria (count_form false (criteria plan)) (count_form true (criteria plan))));
  l ← in_evidence (open_ledger (requested_run_id a) false);
  let rc := context_of a subject_digest plan l in
  _ ← validated rc approval_ (approval_receipt_bytes (approval a));
  build rc.

(** The world a run starts in: no counters, an empty workspace. *)
Definition initial (s : store) : world :=
  {| evidence := s; ws := ∅; cnt := zero_counters; sandbox_runs := 0; stop_polls := 0; clock_reads := 0 |}.
End Run.
