(* ===== verification/RunFacts.v ===== *)
(** * Facts on the run: what a computation records and leaves behind

    A Hoare triple for the computations on the world: its postcondition speaks
    of the entries recorded in the ledger, of the result and of the final world;
    its frame relates the worlds before and after.  The rules follow the
    structure of the computations, so a proof reads along the code. *)
From Stdlib Require Import SpecFloat Ascii String.
From S2P Require Import Prelude Sha256 Json JsonText PyStr Canonical Ledger LedgerFacts Acceptance Quality Drift.
From S2P Require Import JsonSpec Approval Barebones Engine Run.

(** ** What reaches the ledger *)

(** An event as the engine writes it. *)
Record entry : Type := {
  en_type : string; en_state : RunState; en_blobs : list string; en_payload : list (string * json) }.

Section Recorded.
Context `{Rfc8785} `{Yaml}.

(** The entries [tr] take the store [s] to the store [s'], with blob writes
    in between; [append] is the ledger's. *)
Inductive recorded (l : ledger) (subject : string) : store -> list entry -> store -> Prop :=
  | rec_nil s : recorded l subject s [] s
  | rec_put payload others r s s' s'' tr :
      put_blob l payload others s = (r, s') -> recorded l subject s' tr s'' -> recorded l subject s tr s''
  | rec_log en ev s s' s'' tr :
      append l (en_type en) (state_name (en_state en)) subject (en_blobs en) (en_payload en)
        None None sound_disk s = (Ok ev, s') ->
      recorded l subject s' tr s'' -> recorded l subject s (en :: tr) s''.

Lemma recorded_app l subject s tr s' tr' s'' :
  recorded l subject s tr s' -> recorded l subject s' tr' s'' -> recorded l subject s (tr ++ tr') s''.
Proof. induction 1; intros; simpl; eauto using recorded. Qed.
End Recorded.

(** ** Triples *)

Definition ok_counters (caps : BudgetCaps) (c : counters) : Prop :=
  0 <= calls c <= Z.max 0 (max_model_calls caps) /\
  0 <= tokens_in c <= _MAX_SAFE_JSON_INTEGER /\ 0 <= tokens_out c <= _MAX_SAFE_JSON_INTEGER.

Section Triples.
Context `{Rfc8785} `{Yaml}.
Variables (l : ledger) (subject : string) (caps : BudgetCaps).

(** Nothing but the evidence, the counters and the numbers of calls changes. *)
Definition quiet (w w' : world) : Prop :=
  ws w' = ws w /\ (ok_counters caps (cnt w) -> ok_counters caps (cnt w')).

#[export] Instance quiet_preorder : PreOrder quiet.
Proof. split; [by intros w|]. intros w1 w2 w3 [E1 O1] [E2 O2]. split; [congruence|auto]. Qed.

Definition triple {A} (F : relation world) (P : world -> Prop) (m : st world A)
    (Q : list entry -> res A -> world -> Prop) : Prop :=
  forall w r w', P w -> m w = (r, w') ->
    exists tr, recorded l subject (evidence w) tr (evidence w') /\ F w w' /\ Q tr r w'.

(** A property of worlds that quiet computations keep. *)
Definition stable (P : world -> Prop) : Prop := forall w w', quiet w w' -> P w -> P w'.

Lemma stable_True : stable (fun _ => True).
Proof. done. Qed.
Lemma stable_const (X : Prop) : stable (fun _ => X).
Proof. by intros w w' _. Qed.
Lemma stable_ws (P : workspace -> Prop) : stable (fun w => P (ws w)).
Proof. by intros w w' [-> _]. Qed.

Lemma stable_evidence P : stable P -> forall s w, P w -> P (set_evidence s w).
Proof. intros HP s w. by apply HP. Qed.

(** Computations that record nothing. *)
Definition silent {A} (m : st world A) : Prop :=
  forall w r w', m w = (r, w') -> recorded l subject (evidence w) [] (evidence w') /\ quiet w w'.

Section Rules.
Context {F : relation world} `{!PreOrder F}.
Hypothesis quiet_frame : forall w w', quiet w w' -> F w w'.

Lemma triple_pre {A} (P P' : world -> Prop) (m : st world A) Q :
  triple F P m Q -> (forall w, P' w -> P w) -> triple F P' m Q.
Proof. intros Hm HP w r w' Hw. apply Hm. auto. Qed.

Lemma triple_post {A} P (m : st world A) (Q Q' : list entry -> res A -> world -> Prop) :
  triple F P m Q -> (forall tr r w', Q tr r w' -> Q' tr r w') -> triple F P m Q'.
Proof. intros Hm HQ w r w' Hw E. destruct (Hm _ _ _ Hw E) as (tr & ? & ? & ?). eauto 6. Qed.

Lemma triple_ret {A} (P : world -> Prop) (a : A) (Q : list entry -> res A -> world -> Prop) :
  (forall w, P w -> Q [] (Ok a) w) -> triple F P (mret a) Q.
Proof. intros HQ w r w' Hw [= <- <-]. exists []. split; [constructor|]. split; [reflexivity|auto]. Qed.

Lemma triple_raise {A} (P : world -> Prop) x (Q : list entry -> res A -> world -> Prop) :
  (forall w, P w -> Q [] (Raise x) w) -> triple F P (raise_st x) Q.
Proof. intros HQ w r w' Hw [= <- <-]. exists []. split; [constructor|]. split; [reflexivity|auto]. Qed.

Lemma triple_bind {A B} P (m : st world A) Q1 (k : A -> st world B) Q :
  triple F P m Q1 ->
  (forall tr x w', Q1 tr (Raise x) w' -> Q tr (Raise x) w') ->
  (forall a tr, triple F (fun w => Q1 tr (Ok a) w) (k a) (fun tr' r w' => Q (tr ++ tr') r w')) ->
  triple F P (m ≫= k) Q.
Proof.
  intros Hm Hx Hk w r w' Hw. unfold mbind, st_bind. destruct (m w) as [[a|x] w1] eqn:E.
  - destruct (Hm _ _ _ Hw E) as (tr & Hr & HF & HQ). intros E2.
    destruct (Hk a tr _ _ _ HQ E2) as (tr2 & Hr2 & HF2 & HQ2).
    exists (tr ++ tr2). split; [by eapply recorded_app|]. split; [by etransitivity|done].
  - intros [= <- <-]. destruct (Hm _ _ _ Hw E) as (tr & ? & ? & ?). eauto 6.
Qed.

Lemma triple_silent {A B} P (m : st world A) (k : A -> st world B) Q :
  silent m -> stable P -> (forall x w, P w -> Q [] (Raise x) w) ->
  (forall a, triple F P (k a) Q) -> triple F P (m ≫= k) Q.
Proof.
  intros Hm HP Hx Hk w r w' Hw. unfold mbind, st_bind. destruct (m w) as [[a|x] w1] eqn:E;
    destruct (Hm _ _ _ E) as [Hr Hq].
  - intros E2. destruct (Hk a w1 r w' (HP _ _ Hq Hw) E2) as (tr & Hr2 & HF & HQ). exists tr.
    split; [by eapply (recorded_app _ _ _ [])|]. split; [|done]. etransitivity; [by apply quiet_frame|done].
  - intros [= <- <-]. exists []. eauto 6.
Qed.

Lemma triple_last {A} P (m : st world A) (Q : list entry -> res A -> world -> Prop) :
  silent m -> stable P -> (forall r w, P w -> Q [] r w) -> triple F P m Q.
Proof. intros Hm HP HQ w r w' Hw E. destruct (Hm _ _ _ E). exists []. eauto 6. Qed.

Lemma triple_lift {A B} P (x : res A) (k : A -> st world B) Q :
  (forall err w, x = Raise err -> P w -> Q [] (Raise err) w) ->
  (forall a, x = Ok a -> triple F P (k a) Q) -> triple F P (lift_res x ≫= k) Q.
Proof.
  intros Hx Hk w r w' Hw. unfold mbind, st_bind, lift_res. destruct x as [a|err].
  - apply (Hk a eq_refl). done.
  - intros [= <- <-]. exists []. split; [constructor|]. split; [reflexivity|auto].
Qed.

Lemma triple_get {A B} (P : world -> Prop) (f : world -> A) (k : A -> st world B) Q :
  (forall a, triple F (fun w => P w /\ f w = a) (k a) Q) -> triple F P (get_st f ≫= k) Q.
Proof. intros Hk w r w' Hw. apply (Hk (f w)). auto. Qed.

Lemma triple_log {B} (P : world -> Prop) en (k : event -> st world B) Q :
  (forall s w, P w -> P (set_evidence s w)) -> (forall x w, P w -> Q [] (Raise x) w) ->
  (forall ev, triple F P (k ev) (fun tr r w => Q (en :: tr) r w)) ->
  triple F P (in_evidence (append l (en_type en) (state_name (en_state en)) subject (en_blobs en)
                             (en_payload en) None None sound_disk) ≫= k) Q.
Proof.
  intros HP Hx Hk w r w' Hw. unfold mbind, st_bind, in_evidence.
  destruct (append l _ _ _ _ _ _ _ _ (evidence w)) as [[ev|err] s'] eqn:E.
  - intros E2. assert (Hq : quiet w (set_evidence s' w)) by done.
    destruct (Hk ev _ r w' (HP s' _ Hw) E2) as (tr & Hr & HF & HQ). exists (en :: tr).
    split; [by eapply rec_log|]. split; [etransitivity; [by apply quiet_frame|done]|done].
  - intros [= <- <-]. apply append_recovers in E as ->; [|done]. destruct w. exists [].
    split; [constructor|]. split; [by apply quiet_frame|auto].
Qed.

Lemma triple_try {A} P (m : st world A) c h Q1 (Q : list entry -> res A -> world -> Prop) :
  triple F P m Q1 ->
  (forall tr a w, Q1 tr (Ok a) w -> Q tr (Ok a) w) ->
  (forall tr x w, Q1 tr (Raise x) w -> c x = false -> Q tr (Raise x) w) ->
  (forall x tr, c x = true ->
     triple F (fun w => Q1 tr (Raise x) w) (h x) (fun tr' r w' => Q (tr ++ tr') r w')) ->
  triple F P (try_st m c h) Q.
Proof.
  intros Hm Ho Hx Hh w r w' Hw. unfold try_st. destruct (m w) as [[a|x] w1] eqn:E;
    destruct (Hm _ _ _ Hw E) as (tr & Hr & HF & HQ).
  - intros [= <- <-]. eauto 6.
  - destruct (c x) eqn:Ec; [|intros [= <- <-]; eauto 6]. intros E2.
    destruct (Hh x tr Ec _ _ _ HQ E2) as (tr2 & Hr2 & HF2 & HQ2). exists (tr ++ tr2).
    split; [by eapply recorded_app|]. split; [by etransitivity|done].
Qed.

(** [m] and then [k]: the bind of [next]. *)
Lemma triple_next {A B} P (m : st world (stage A)) Q1 (k : A -> st world (stage B)) Q :
  triple F P m Q1 ->
  (forall tr x w', Q1 tr (Raise x) w' -> Q tr (Raise x) w') ->
  (forall tr res w', Q1 tr (Ok (Finished res)) w' -> Q tr (Ok (Finished res)) w') ->
  (forall a tr, triple F (fun w => Q1 tr (Ok (Continue a)) w) (k a) (fun tr' r w' => Q (tr ++ tr') r w')) ->
  triple F P (next m k) Q.
Proof.
  intros Hm Hx Hf Hk. eapply triple_bind; [exact Hm|exact Hx|]. intros [res|a] tr; [|apply Hk].
  apply triple_ret. intros w HQ. rewrite app_nil_r. auto.
Qed.
End Rules.

Lemma triple_frame {A} (F F' : relation world) P (m : st world A) Q :
  triple F P m Q -> (forall w w', F w w' -> F' w w') -> triple F' P m Q.
Proof. intros Hm HF w r w' Hw E. destruct (Hm _ _ _ Hw E) as (tr & ? & ? & ?). eauto 6. Qed.

(** *** Silent computations *)

Lemma silent_ret {A} (a : A) : silent (mret a).
Proof. intros w r w' [= <- <-]. split; [constructor|reflexivity]. Qed.

Lemma silent_raise {A} x : silent (A := A) (raise_st x).
Proof. intros w r w' [= <- <-]. split; [constructor|reflexivity]. Qed.

Lemma silent_lift {A} (x : res A) : silent (lift_res x).
Proof. intros w r w' [= <- <-]. split; [constructor|reflexivity]. Qed.

Lemma silent_get {A} (f : world -> A) : silent (get_st f).
Proof. intros w r w' [= <- <-]. split; [constructor|reflexivity]. Qed.

Lemma silent_bind {A B} (m : st world A) (k : A -> st world B) :
  silent m -> (forall a, silent (k a)) -> silent (m ≫= k).
Proof.
  intros Hm Hk w r w'. unfold mbind, st_bind. destruct (m w) as [[a|x] w1] eqn:E;
    destruct (Hm _ _ _ E) as [Hr Hq].
  - intros E2. destruct (Hk a _ _ _ E2) as [Hr2 Hq2]. split; [by eapply (recorded_app _ _ _ [])|].
    by etransitivity.
  - by intros [= <- <-].
Qed.

Lemma silent_try {A} (m : st world A) c h :
  silent m -> (forall x, silent (h x)) -> silent (try_st m c h).
Proof.
  intros Hm Hh w r w'. unfold try_st. destruct (m w) as [[a|x] w1] eqn:E; destruct (Hm _ _ _ E) as [Hr Hq].
  - by intros [= <- <-].
  - destruct (c x); [|by intros [= <- <-]]. intros E2. destruct (Hh x _ _ _ E2) as [Hr2 Hq2].
    split; [by eapply (recorded_app _ _ _ [])|]. by etransitivity.
Qed.

Lemma silent_put others payload : silent (in_evidence (put_blob l payload others)).
Proof.
  intros w r w'. unfold in_evidence. destruct (put_blob l payload others (evidence w)) as [x s'] eqn:E.
  intros [= <- <-]. split; [|done]. by eapply rec_put; [|constructor].
Qed.

Lemma silent_runs {A} (m : st nat A) : silent (in_runs m).
Proof.
  intros w r w'. unfold in_runs. destruct (m (sandbox_runs w)). intros [= <- <-]. split; [constructor|done].
Qed.

Lemma silent_cnt {A} (m : st counters A) :
  (forall c r c', m c = (r, c') -> ok_counters caps c -> ok_counters caps c') -> silent (in_cnt m).
Proof.
  intros Hm w r w'. unfold in_cnt. destruct (m (cnt w)) as [x c'] eqn:E. intros [= <- <-].
  split; [constructor|]. split; [done|]. by apply (Hm _ _ _ E).
Qed.
End Triples.

#[export] Hint Resolve silent_ret silent_raise silent_lift silent_get silent_put silent_runs : pydb.
#[export] Hint Resolve stable_True stable_const stable_ws : pydb.

(** ** The counters *)

Section Counters.
Context `{Rfc8785}.

Lemma token_usage_bound usage source so_far n :
  token_usage usage source so_far = Ok n ->
  0 <= so_far <= _MAX_SAFE_JSON_INTEGER -> so_far <= n <= _MAX_SAFE_JSON_INTEGER.
Proof.
  unfold token_usage. destruct (jget source usage) as [| |v| | | |]; try done; [intros; simp_res; lia|].
  destruct (_ || _) eqn:E; [done|]. intros; simp_res. apply orb_false_elim in E as [?%Z.ltb_ge ?%Z.ltb_ge]. lia.
Qed.

Lemma account_usage_ok caps response c r c' :
  account_usage response c = (r, c') -> ok_counters caps c -> ok_counters caps c' /\ calls c' = calls c.
Proof.
  unfold account_usage. destruct (jget "usage" response) as [| | | | | |usage]; try (by intros [= <- <-]).
  unfold mbind, st_bind, get_st, lift_res, modify_st. intros E (Hc & Hi & Ho).
  destruct (token_usage usage "input_tokens" _) as [n|] eqn:E1; [|by simplify_eq].
  apply token_usage_bound in E1; [|done]. cbn [with_tokens_in tokens_out tokens_in estimated_cost_usd] in E.
  destruct (token_usage usage "output_tokens" _) as [k|] eqn:E2;
    [|simplify_eq; split; [|done]; repeat split; simpl; lia].
  apply token_usage_bound in E2; [|done].
  destruct (cost_usage usage _); simplify_eq; (split; [|done]; repeat split; simpl; lia).
Qed.

Lemma account_model_ok caps response c r c' :
  account_model response c = (r, c') -> ok_counters caps c -> ok_counters caps c' /\ calls c' = calls c.
Proof.
  unfold account_model. destruct (jget "provider_metadata" response) as [| | | | | |m]; try (by intros [= <- <-]).
  destruct (jget "model" m) as [| | | |[|x s]| |]; try (by intros [= <- <-]).
Qed.

(** One call at most, within the budget. *)
Lemma invoke_bound_ok provider purpose request caps c r c' :
  _invoke_bound provider purpose request caps c = (r, c') -> ok_counters caps c -> ok_counters caps c'.
Proof.
  unfold _invoke_bound, mbind, st_bind, get_st, modify_st, lift_res. intros E Hok. revert E.
  destruct (max_model_calls caps <=? calls c) eqn:Eb; [by intros [= <- <-]|]. apply Z.leb_gt in Eb.
  assert (H1 : ok_counters caps (with_calls (calls c + 1) c)).
  { destruct Hok as (? & ? & ?). repeat split; simpl; lia. }
  destruct (provider _ _ _) as [response|err]; [|by intros [= <- <-]].
  destruct (_CREDENTIAL _); [by intros [= <- <-]|].
  cbn [bytes with_bytes]. destruct (max_model_output_bytes caps <? _); [by intros [= <- <-]|].
  destruct (negb _); [by intros [= <- <-]|].
  match goal with |- context [account_usage response ?c2] => set (c2' := c2) end.
  assert (H2 : ok_counters caps c2') by exact H1.
  destruct (account_usage response c2') as [[u|err] c3] eqn:E3;
    destruct (account_usage_ok _ _ _ _ _ E3 H2) as [H3 _]; [|by intros [= <- <-]].
  destruct (account_model response c3) as [[u2|err] c4] eqn:E4;
    destruct (account_model_ok _ _ _ _ _ E4 H3) as [H4 _]; by intros [= <- <-].
Qed.
End Counters.

(** ** Writing files *)

Lemma write_bytes_elsewhere relative s w r w' p :
  write_bytes relative s w = (r, w') -> p <> relative -> w' !! p = w !! p.
Proof.
  unfold write_bytes. destruct (make_parents _ _); [|by intros [= <- <-]].
  destruct (is_directory _ _); intros [= <- <-] Hp; [done|by rewrite lookup_insert_ne].
Qed.

Lemma write_text_elsewhere relative content w r w' p :
  write_text relative content w = (r, w') -> p <> relative -> w' !! p = w !! p.
Proof.
  unfold write_text. destruct (utf8_valid _ _); [apply write_bytes_elsewhere|].
  intros H Hp. open_bind H; [|by eapply write_bytes_elsewhere].
  revert H. intros [= <- <-]. by eapply write_bytes_elsewhere.
Qed.

Lemma safe_path_Ok relative target : _safe_path relative = Ok target -> target = relative.
Proof. unfold _safe_path. destruct (is_safe_relative relative); congruence. Qed.

Lemma write_each_elsewhere items : forall w r w' p,
  write_each items w = (r, w') -> p ∉ map fst items -> w' !! p = w !! p.
Proof.
  induction items as [|[relative v] items IH]; intros w r w' p; simpl; [by intros [= <- <-]|].
  intros H [Hne Hp]%not_elem_of_cons. simpl in Hne. destruct v as [| | | |content| |]; try (revert H; by intros [= <- <-]).
  open_bind H; [|by (revert E; intros [= _ ->])]. revert E; intros [= E <-]; apply safe_path_Ok in E as ->.
  open_bind H; [|by (revert E; intros [= _ ->])]. injection E as <- <-.
  open_bind H; [|by (revert E; intros [= _ ->])]. injection E as E <-.
  destruct (bool_decide _); [by eauto|].
  open_bind H; [|by eapply write_text_elsewhere]. eapply write_text_elsewhere in E0; [|done].
  rewrite <- E0. open_bind H; [injection H as <- <-|]; by eapply IH.
Qed.

Lemma sorted_items_fst {V} (m : list (string * V)) p : p ∈ map fst (sorted_items m) <-> p ∈ map fst m.
Proof. by rewrite sorted_items_perm. Qed.

Lemma write_files_elsewhere items w r w' p :
  _write_files items w = (r, w') -> p ∉ map fst items -> w' !! p = w !! p.
Proof. intros E Hp. eapply write_each_elsewhere; [exact E|]. by rewrite sorted_items_fst. Qed.

Lemma split_on_nonempty sep s : split_on sep s <> [].
Proof. destruct s as [|c s]; simpl; [done|]. destruct (Ascii.eqb c sep); [done|]. by destruct (split_on sep s). Qed.

Lemma split_on_cons sep s : exists h t, split_on sep s = h :: t.
Proof. destruct (split_on sep s) eqn:E; [by destruct (split_on_nonempty sep s)|eauto]. Qed.

Lemma split_on_inj sep s : forall t, split_on sep s = split_on sep t -> s = t.
Proof.
  induction s as [|c s IH]; intros [|d t]; simpl; try done;
    try destruct (split_on_cons sep s) as (hs & ts & Es); try destruct (split_on_cons sep t) as (ht & tt & Et);
    rewrite ?Es, ?Et; try (by destruct (Ascii.eqb _ _)).
  destruct (Ascii.eqb c sep) eqn:Ec, (Ascii.eqb d sep) eqn:Ed; bool_simp; subst; try done.
  - intros [= -> ->]. f_equal. apply IH. congruence.
  - intros [= -> -> ->]. f_equal. apply IH. congruence.
Qed.

#[export] Instance resolved_path_inj resolved : Inj eq eq (resolved_path resolved).
Proof. intros a b. unfold resolved_path. intros [= E%app_inv_head]. by eapply split_on_inj. Qed.

Lemma res_mapM_Forall2 {A B} (f : A -> res B) l ys :
  res_mapM f l = Ok ys -> Forall2 (fun x y => f x = Ok y) l ys.
Proof. apply mapM_Ok. Qed.
