(* ===== verification/RunStages.v ===== *)
(** * What each part of the run does

    One triple per part of [run_to_release_ready], from the terminal events to
    a whole attempt: the entries it records, the result when the run ends in it,
    and what it knows of the workspace. *)
From Stdlib Require Import SpecFloat Ascii String.
From S2P Require Import Prelude Sha256 Json JsonText PyStr Canonical Ledger LedgerFacts Acceptance Quality Drift.
From S2P Require Import JsonSpec Approval Barebones Engine Run RunFacts.

Definition record_of (ty : string) (state : RunState) (blobs : list string) (payload : list (string * json)) : entry :=
  {| en_type := ty; en_state := state; en_blobs := blobs; en_payload := payload |}.

(** The result [res] agrees with the final world [w]. *)
Record result_of (res : RunResult) (state : RunState) (cause : string) (n : Z) (w : world) : Prop := {
  ro_state : result_state res = state;
  ro_cause : result_cause res = cause;
  ro_attempts : result_attempts res = n;
  ro_calls : result_model_calls res = calls (cnt w);
  ro_telemetry : result_telemetry res = counters_dict (cnt w);
  ro_elapsed : elapsed_ms (cnt w) = Some (result_elapsed_ms res)
}.

(** [tr] is the one terminal event of a run that ends without a release after
    [lo] to [hi] attempts. *)
Definition closing (ty : string) (state : RunState) (lo hi : Z) (tr : list entry) (res : RunResult) (w : world) : Prop :=
  exists n payload, tr = [record_of ty state [] payload] /\ lo <= n <= hi /\
    jget "cause" payload = JStr (result_cause res) /\
    jget "telemetry" payload = JObj (result_telemetry res) /\
    result_of res state (result_cause res) n w.

(** ** The machine of six states

    The events that may follow an event of a type ([""] before the first one),
    with the state each is recorded in. *)
Definition successors (enforced : bool) (last : string) : list (string * RunState) :=
  let next_of l := default [] (assoc last l) in
  let repaired := [("stopped", STOPPED); ("halted", HALTED); ("coder_completed", BUILDING)]%string in
  let verified := [("verification_failed", BUILDING); ("release_ready", RELEASE_READY)]%string in
  next_of [
    ("", [("contract_validated", VALIDATED)]);
    ("contract_validated", [("stopped", STOPPED); ("meaningful_red_confirmed", BUILDING)]);
    ("meaningful_red_confirmed", repaired); ("security_failed", repaired); ("verification_failed", repaired);
    ("coder_completed", [("halted", HALTED); ("security_failed", BUILDING); ("verification_started", VERIFYING)]);
    ("verification_started",
     if enforced then [("generated_quality_checked", VERIFYING); ("verification_failed", BUILDING)] else verified);
    ("generated_quality_checked", verified)]%string.

Definition is_terminal (state : RunState) : bool :=
  match state with RELEASE_READY | HALTED | STOPPED => true | _ => false end.

(** The trace is a path of the machine from the event of type [last]. *)
Fixpoint path (enforced : bool) (last : string) (tr : list entry) : bool :=
  match tr with
  | [] => true
  | en :: rest => bool_decide ((en_type en, en_state en) ∈ successors enforced last)
                  && path enforced (en_type en) rest
  end.
Fixpoint end_of (last : string) (tr : list entry) : string :=
  match tr with [] => last | en :: rest => end_of (en_type en) rest end.

Definition ready (last : string) : Prop :=
  last ∈ ["meaningful_red_confirmed"; "security_failed"; "verification_failed"]%string.

Definition open_trace (enforced : bool) (last : string) (tr : list entry) : Prop :=
  path enforced last tr = true /\ Forall (fun en => is_terminal (en_state en) = false) tr.

Lemma path_app enforced last tr tr' :
  path enforced last (tr ++ tr') = path enforced last tr && path enforced (end_of last tr) tr'.
Proof.
  revert last. induction tr as [|en tr IH]; intros last; [done|].
  cbn [app path end_of]. by rewrite IH, andb_assoc.
Qed.
Lemma end_of_app last tr tr' : end_of last (tr ++ tr') = end_of (end_of last tr) tr'.
Proof. revert last. induction tr as [|en tr IH]; intros last; simpl; auto. Qed.

Lemma open_trace_app enforced last tr tr' :
  open_trace enforced last tr -> open_trace enforced (end_of last tr) tr' -> open_trace enforced last (tr ++ tr').
Proof.
  intros [Hp Ht] [Hp' Ht']. split; [by rewrite path_app, Hp, Hp'|by apply Forall_app].
Qed.
Lemma open_trace_nil enforced last : open_trace enforced last [].
Proof. done. Qed.

(** The rule of bind with the middle condition given. *)
Ltac tbind Q := eapply triple_bind with (Q1 := Q); [typeclasses eauto|..].
Ltac tret := eapply triple_ret; [typeclasses eauto|].
Ltac traise := eapply triple_raise; [typeclasses eauto|].
Ltac tlift := eapply triple_lift; [typeclasses eauto|..].
Ltac tget := eapply triple_get.
Ltac tsilent := eapply triple_silent; [typeclasses eauto|first [eassumption|exact (fun _ _ q => q)]|..].
Ltac tnext Q := eapply triple_next with (Q1 := Q); [typeclasses eauto|..].

Section Stages.
Context `{Rfc8785} `{Yaml} `{Unicode} `{Regex} `{PythonTools}.
Variables (e : env) (rc : run_context).

Abbreviation triple := (triple (rc_ledger rc) (rc_subject rc)).
Abbreviation quiet := (quiet (rc_budget rc)).
Abbreviation stable := (stable (rc_budget rc)).
Abbreviation silent := (silent (rc_ledger rc) (rc_subject rc) (rc_budget rc)).

Lemma silent_clock : silent (read_clock e).
Proof. intros w r w' [= <- <-]. split; [constructor|done]. Qed.
Lemma silent_poll : silent (poll_stop e).
Proof. intros w r w' [= <- <-]. split; [constructor|done]. Qed.

Lemma silent_put_json v : silent (put_json e rc v).
Proof. apply silent_put. Qed.

Lemma silent_invoke purpose request : silent (invoke_bound e rc purpose request).
Proof.
  apply silent_try; [|eauto with pydb]. apply silent_bind; [|eauto with pydb].
  apply silent_cnt. intros c r c' E. by eapply invoke_bound_ok.
Qed.

Section Any.
Context {F : relation world} `{!PreOrder F}.
Hypothesis quiet_frame : forall w w', quiet w w' -> F w w'.

Lemma triple_entry {B} (P : world -> Prop) ty state blobs payload (k : event -> st world B) Q :
  (forall s w, P w -> P (set_evidence s w)) -> (forall x w, P w -> Q [] (Raise x) w) ->
  (forall ev, triple F P (k ev) (fun tr r w => Q (record_of ty state blobs payload :: tr) r w)) ->
  triple F P (log rc ty state blobs payload ≫= k) Q.
Proof. apply (triple_log _ _ (rc_budget rc) quiet_frame P (record_of ty state blobs payload) k Q). Qed.

(** [finish] once the telemetry has been taken. *)
Lemma triple_finish (P : world -> Prop) c state cause n annotation (Q : list entry -> res RunResult -> world -> Prop) :
  stable P -> elapsed_ms c <> None ->
  (forall res w, P w -> result_of res state cause n w -> result_annotation res = annotation ->
     result_telemetry res = counters_dict c -> Q [] (Ok res) w) ->
  triple F (fun w => P w /\ cnt w = c) (finish e rc state cause n annotation) Q.
Proof.
  intros HP Hc HQ w r w' [Hw Hcnt] E. subst c. destruct (elapsed_ms (cnt w)) as [ms|] eqn:Ems; [clear Hc|done].
  revert E. unfold finish, mbind, st_bind, read_clock, get_st, mret, st_ret. intros [= <- <-].
  exists []. split; [constructor|]. split; [by apply quiet_frame|].
  apply HQ; [by eapply HP; [|exact Hw]| |done|done]. split; try done. simpl. by rewrite Ems.
Qed.

(** [_terminal_telemetry]: the counters, with the time. *)
Lemma triple_telemetry {B} (P : world -> Prop) (k : json -> st world B) (Q : list entry -> res B -> world -> Prop) :
  stable P ->
  (forall c, elapsed_ms c <> None ->
     triple F (fun w => P w /\ cnt w = c) (k (JObj (counters_dict c))) Q) ->
  triple F P (_terminal_telemetry e ≫= k) Q.
Proof.
  intros HP Hk w r w' Hw. unfold _terminal_telemetry.
  set (w1 := set_cnt (with_elapsed (clock_ms e (clock_reads w)) (cnt w)) (snd (read_clock e w))).
  assert (Hq : quiet w w1) by done.
  assert (E1 : forall w2, (ms ← read_clock e; _ ← in_cnt (modify_st (with_elapsed ms));
                 get_st (fun w => JObj (counters_dict (cnt w)))) w = w2 ->
               w2 = (Ok (JObj (counters_dict (cnt w1))), w1)) by (intros ? <-; done).
  unfold mbind at 1. unfold st_bind at 1. rewrite (E1 _ eq_refl). intros E.
  destruct (Hk (cnt w1) ltac:(done) w1 r w' (conj (HP _ _ Hq Hw) eq_refl) E) as (tr & Hr & HF & HQ).
  exists tr. split; [exact Hr|]. split; [|done]. etransitivity; [by apply quiet_frame|done].
Qed.

Lemma triple_conclude (P : world -> Prop) ty state cause details n (Q : list entry -> res RunResult -> world -> Prop) :
  stable P -> assoc "telemetry" details = None ->
  (forall x w, P w -> Q [] (Raise x) w) ->
  (forall tr res w, P w -> closing ty state n n tr res w -> result_cause res = cause ->
     result_annotation res = [] -> Q tr (Ok res) w) ->
  triple F P (conclude e rc ty state cause details n) Q.
Proof.
  intros HP Hd Hx HQ. unfold conclude. apply triple_telemetry; [done|]. intros c Hc.
  apply triple_entry.
  - intros s w [Hw Hcnt]. split; [by eapply stable_evidence|done].
  - intros x w [Hw _]. by apply Hx.
  - intros _. apply triple_finish; [done..|]. intros res w Hw Hres Ha Ht.
    pose proof (ro_cause _ _ _ _ _ Hres) as Ec. apply HQ; [done| |done|done]. eexists n, _.
    split; [done|]. split; [lia|]. split; [by rewrite Ec|]. split; [|by rewrite Ec].
    unfold jget. simpl. by rewrite assoc_app, Hd, Ht.
Qed.

Lemma triple_halt {A} (P : world -> Prop) cause details n (Q : list entry -> res (stage A) -> world -> Prop) :
  stable P -> assoc "telemetry" details = None ->
  (forall x w, P w -> Q [] (Raise x) w) ->
  (forall tr res w, P w -> closing "halted" HALTED n n tr res w -> result_cause res = cause ->
     Q tr (Ok (Finished res)) w) ->
  triple F P (halt e rc cause details n) Q.
Proof.
  intros HP Hd Hx HQ.
  tbind (fun (tr : list entry) (r : res RunResult) w => match r with
     | Ok res => P w /\ closing "halted" HALTED n n tr res w /\ result_cause res = cause
     | Raise _ => P w /\ tr = [] end).
  - by apply triple_conclude.
  - intros tr x w [Hw ->]. auto.
  - intros res tr. tret. intros w (Hw & Hc & He). rewrite app_nil_r. auto.
Qed.

Lemma triple_stop (P : world -> Prop) n (Q : list entry -> res (stage unit) -> world -> Prop) :
  stable P ->
  (forall x w, P w -> Q [] (Raise x) w) -> (forall w, P w -> Q [] (Ok (Continue tt)) w) ->
  (forall tr res w, P w -> closing "stopped" STOPPED n n tr res w -> result_cause res = "STOP_REQUESTED"%string ->
     Q tr (Ok (Finished res)) w) ->
  triple F P (stop_point e rc n) Q.
Proof.
  intros HP Hx Hc HQ. unfold stop_point.
  tsilent; [apply silent_poll|done|done|]. intros [].
  - tbind (fun (tr : list entry) (r : res RunResult) w => match r with
     | Ok res => P w /\ closing "stopped" STOPPED n n tr res w /\ result_cause res = "STOP_REQUESTED"%string
     | Raise _ => P w /\ tr = [] end).
    + by apply triple_conclude.
    + intros tr x w [Hw ->]. auto.
    + intros res tr. tret. intros w (Hw & Hcl & He). rewrite app_nil_r. auto.
  - by tret.
Qed.
Lemma triple_repeat (P : world -> Prop) n findings previous changed
    (Q : list entry -> res (stage unit) -> world -> Prop) :
  stable P -> (forall x w, P w -> Q [] (Raise x) w) -> (forall w, P w -> Q [] (Ok (Continue tt)) w) ->
  (forall tr res w, P w -> closing "halted" HALTED n n tr res w -> result_cause res = repeat_cause findings ->
     Q tr (Ok (Finished res)) w) ->
  triple F P (repeat_check e rc n findings previous changed) Q.
Proof.
  intros HP Hx Hc HQ. unfold repeat_check. tlift; [auto|]. intros digest _.
  destruct (_ && _); [|by tret]. by apply triple_halt.
Qed.

(** The findings of a failed attempt are recorded and handed to the next one. *)
Lemma triple_failed (P : world -> Prop) ty n findings (Q : list entry -> res (stage (list Finding)) -> world -> Prop) :
  stable P -> (forall x w, P w -> Q [] (Raise x) w) ->
  (forall blobs payload w, P w -> Q [record_of ty BUILDING blobs payload] (Ok (Continue findings)) w) ->
  triple F P (failed e rc ty n findings) Q.
Proof.
  intros HP Hx HQ. unfold failed. tsilent; [apply silent_put_json|done|done|]. intros blob.
  apply triple_entry; [by apply stable_evidence with (caps := rc_budget rc)|done|]. intros _. tret. eauto.
Qed.
End Any.

(** *** The coder *)

(** The files under the protected paths keep their contents. *)
Definition guarded (protected_tests : list Path) (w w' : world) : Prop :=
  (forall p, resolved_path (workspace_resolved e) p ∈ protected_tests -> ws w' !! p = ws w !! p) /\
  (ok_counters (rc_budget rc) (cnt w) -> ok_counters (rc_budget rc) (cnt w')).

#[export] Instance guarded_preorder protected_tests : PreOrder (guarded protected_tests).
Proof.
  split; [by intros w|]. intros w1 w2 w3 [E1 O1] [E2 O2].
  split; [|auto]. intros p Hp. rewrite (E2 p Hp). auto.
Qed.

Lemma quiet_guarded protected_tests w w' : quiet w w' -> guarded protected_tests w w'.
Proof. intros [E O]. split; [|done]. intros p _. by rewrite E. Qed.

Lemma touches_false protected_tests paths p :
  touches protected_tests paths = false -> p ∈ protected_tests -> p ∉ paths.
Proof.
  unfold touches. intros Ht Hp Hin. assert (existsb (fun q => bool_decide (q ∈ protected_tests)) paths = true); [|congruence].
  apply existsb_exists. exists p. split; [by apply list_elem_of_In|]. by apply bool_decide_eq_true.
Qed.

Lemma response_paths_spec items paths :
  response_paths e items = Ok paths ->
  paths = map (resolved_path (workspace_resolved e)) (map fst items).
Proof.
  unfold response_paths. intros E. simp_res. subst. f_equal.
  apply res_mapM_Forall2 in E0. clear -E0. induction E0 as [|x y l l' Hy Hl IH]; [done|].
  apply safe_path_Ok in Hy. congruence.
Qed.

Lemma triple_write protected_tests items paths (P : world -> Prop) :
  response_paths e items = Ok paths -> touches protected_tests paths = false ->
  triple (guarded protected_tests) P (in_ws (_write_files items)) (fun (tr : list entry) _ _ => tr = []).
Proof.
  intros Hp Ht w r w' _. unfold in_ws. destruct (_write_files items (ws w)) as [x f] eqn:E. intros [= <- <-].
  exists []. split; [constructor|]. split; [|done]. split; [|done]. intros p Hin.
  eapply write_files_elsewhere; [exact E|]. intros Hitem.
  apply (touches_false _ _ _ Ht) in Hin. apply Hin. rewrite (response_paths_spec _ _ Hp).
  by apply list_elem_of_fmap_2.
Qed.

Definition coder_post (n : Z) (tr : list entry) (r : res (stage (list string))) (w : world) : Prop :=
  match r with
  | Raise _ => tr = []
  | Ok (Continue _) => exists blobs payload, tr = [record_of "coder_completed" BUILDING blobs payload]
  | Ok (Finished res) => closing "halted" HALTED (n - 1) n tr res w
  end.

Lemma closing_range ty state lo hi lo' hi' tr res w :
  closing ty state lo hi tr res w -> lo' <= lo -> hi <= hi' -> closing ty state lo' hi' tr res w.
Proof. intros (n & p & E & Hn & Hrest) ? ?. exists n, p. split; [done|]. split; [lia|done]. Qed.

Lemma triple_coder protected_tests n findings :
  triple (guarded protected_tests) (fun _ => True) (coder_turn e rc protected_tests n findings) (coder_post n).
Proof.
  pose proof (quiet_guarded protected_tests) as Hqg.
  assert (Hhalt : forall (P : world -> Prop) cause m, stable P -> n - 1 <= m <= n ->
    triple (guarded protected_tests) P (halt e rc cause [] m) (coder_post n)).
  { intros P cause m HP Hm. apply triple_halt; [done..|]. intros tr res w _ Hc _. eapply closing_range; [exact Hc|lia..]. }
  unfold coder_turn. tget. intros files. eapply triple_pre; [|by intros w _; exact I].
  tlift; [done|]. intros request _.
  tsilent; [apply silent_invoke|done|done|]. intros [cause|response]; [apply Hhalt; [done|lia]|].
  destruct (jget "files" response) as [| | | | | |items]; try (apply Hhalt; [done|lia]).
  destruct (response_paths e items) as [paths|err] eqn:Ep;
    [|destruct (is_ValueError err); [apply Hhalt; [done|lia]|by traise]].
  destruct (touches protected_tests paths) eqn:Et; [apply Hhalt; [done|lia]|].
  tnext (fun (tr : list entry) (r : res (stage (list string))) w => match r with
     | Ok (Finished res) => closing "halted" HALTED (n - 1) n tr res w
     | _ => tr = [] end); [|done|done|].
  - eapply triple_try with (Q1 := fun (tr : list entry) r _ => tr = [] /\ forall res, r <> Ok (Finished res));
      [typeclasses eauto|..].
    + tbind (fun (tr : list entry) (_ : res (list string)) (_ : world) => tr = []); [by eapply triple_write|..].
      * by intros tr x w ->.
      * intros changed tr. tret. by intros w ->.
    + intros tr [res|changed] w [-> Hr]; [by destruct (Hr res)|done].
    + by intros tr x w [-> _].
    + intros x tr _. eapply triple_pre with (P := fun _ => tr = []); [|by intros w [-> _]].
      apply triple_halt; [done|apply stable_const|done|by intros ? w ->|]. intros tr' res w -> Hc _.
      eapply closing_range; [exact Hc|lia..].
  - intros changed tr. apply triple_pre with (P := fun _ => tr = []); [|done].
    tsilent; [apply silent_put_json|apply stable_const|by intros ? w ->|]. intros b1.
    tsilent; [apply silent_put_json|apply stable_const|by intros ? w ->|]. intros b2.
    tlift; [by intros ? w _ ->|]. intros behavior _.
    apply triple_entry; [done|done|by intros ? w ->|]. intros _. tret. intros w ->. eexists _, _. done.
Qed.

(** *** Verification *)

Definition quality_record (tr : list entry) : Prop :=
  exists blobs payload, tr = [record_of "generated_quality_checked" VERIFYING blobs payload].

(** The candidate passes the quality checks that the run enforces. *)
Definition quality_passed (protected_tests : list Path) (snapshot : workspace) : Prop :=
  rc_enforce rc = true ->
  exists trusted_paths report,
    res_mapM (relative_to (workspace_path e)) protected_tests = Ok trusted_paths /\
    check_python_candidate (files_in_order snapshot) trusted_paths = Ok report /\
    forallb check_passed (checks report) = true.

(** Every criterion of the plan passes, in some executions of the sandbox. *)
Definition criteria_passed (snapshot : workspace) : Prop :=
  exists runs runs', _verify_snapshot (candidate_sandbox e) (python e) (rc_plan rc) snapshot (rc_template rc) runs
                     = (Ok [], runs').

Lemma triple_quality protected_tests n snapshot :
  triple quiet (fun _ => True) (quality_stage e rc protected_tests n snapshot) (fun tr r _ =>
    match r with
    | Raise _ => tr = []
    | Ok (_, findings) => (if rc_enforce rc then quality_record tr else tr = []) /\
                          (findings = [] -> quality_passed protected_tests snapshot)
    end).
Proof.
  unfold quality_stage, quality_passed. destruct (rc_enforce rc); [|by tret].
  tlift; [done|]. intros trusted Et. tlift; [done|]. intros report Er.
  tsilent; [apply silent_put|done|done|]. intros blob.
  apply triple_entry; [done|done|done|]. intros _. tret. intros w _. split; [eexists _, _; done|].
  unfold quality_findings. intros Hf%map_eq_nil _. exists trusted, report. split; [done|]. split; [done|].
  apply forallb_forall. intros c Hc. destruct (check_passed c) eqn:Ec; [done|].
  assert (In c (List.filter (fun check => negb (check_passed check)) (checks report))) as Hin.
  { apply filter_In. by rewrite Ec. }
  by rewrite Hf in Hin.
Qed.

Lemma silent_verify snapshot : silent (verify_snapshot e rc snapshot).
Proof. apply silent_runs. Qed.

Definition verdict (protected_tests : list Path) (snapshot : workspace) (tr : list entry)
    (r : res (json * list Finding)) : Prop :=
  (tr = [] \/ quality_record tr /\ rc_enforce rc = true) /\
  forall quality, r = Ok (quality, []) ->
    (if rc_enforce rc then quality_record tr else tr = []) /\
    quality_passed protected_tests snapshot /\ criteria_passed snapshot.

Lemma triple_verification protected_tests n snapshot (P : world -> Prop) :
  stable P ->
  triple quiet P (verification e rc protected_tests n snapshot)
    (fun tr r w => P w /\ verdict protected_tests snapshot tr r).
Proof.
  intros HP. assert (Hq : triple quiet (fun _ => True) (verification e rc protected_tests n snapshot)
    (fun tr r _ => verdict protected_tests snapshot tr r)).
  2: { intros w r w' Hw E. destruct (Hq w r w' I E) as (tr & Hr & HF & HQ). exists tr. eauto 6. }
  assert (Hrec : forall tr, (if rc_enforce rc then quality_record tr else tr = []) ->
    tr = [] \/ quality_record tr /\ rc_enforce rc = true) by (intros tr; destruct (rc_enforce rc); auto).
  eapply triple_try with (Q1 := fun tr r _ => verdict protected_tests snapshot tr r); [typeclasses eauto|..].
  - tbind (fun (tr : list entry) (r : res (json * list Finding)) (_ : world) => match r with
      | Raise _ => tr = []
      | Ok (_, findings) => (if rc_enforce rc then quality_record tr else tr = []) /\
                            (findings = [] -> quality_passed protected_tests snapshot) end).
    + apply triple_quality.
    + intros tr x w ->. split; [auto|done].
    + intros [quality [|f found]] tr.
      * intros w r w' [Htr Hqual] E. apply st_bind_inv in E as [(findings & w1 & E1 & E)|(x & E1 & ->)];
          destruct (silent_verify _ _ _ _ E1) as [Hr1 Hq1]; exists []; rewrite app_nil_r.
        -- revert E. intros [= <- <-]. split; [done|]. split; [done|]. split; [by apply Hrec|].
           intros q [= <- ->]. split; [done|]. split; [by apply Hqual|].
           unfold verify_snapshot, in_runs in E1. revert E1.
           destruct (_verify_snapshot _ _ _ _ _ _) as [x runs'] eqn:Ev. intros [= -> _]. by eexists _, _.
        -- split; [done|]. split; [done|]. split; [by apply Hrec|done].
      * tret. intros w [Htr _]. rewrite app_nil_r. split; [by apply Hrec|done].
  - done.
  - intros tr x w Hv _. exact Hv.
  - intros x tr _. tret. intros w [Htr _]. rewrite app_nil_r. split; [done|]. intros q [=].
Qed.

(** *** Release *)

(** The manifest of a candidate: its files by name, with their digests. *)
Definition manifest (snapshot : workspace) : json :=
  JObj (map (fun f => (fst f, JStr (sha256_digest (snd f)))) (files_by_name snapshot)).
Definition candidate_digest_of (snapshot : workspace) : string := sha256_digest (json_dumps (manifest snapshot)).

Lemma put_blob_digest l payload others s d s' : put_blob l payload others s = (Ok d, s') -> d = sha256_digest payload.
Proof.
  unfold put_blob. destruct (read_only l); [done|].
  destruct (blobs s !! _); [destruct (negb _); by intros [= <- <-]|].
  destruct (others _ !! _); [destruct (negb _)|]; by intros [= <- <-].
Qed.

Lemma manifest_recorded others snapshot s r s' :
  _candidate_manifest (fun payload => put_blob (rc_ledger rc) payload others) snapshot s = (r, s') ->
  recorded (rc_ledger rc) (rc_subject rc) s [] s' /\
  forall blob more, r = Ok (blob, more) -> blob = candidate_digest_of snapshot.
Proof.
  unfold _candidate_manifest, candidate_digest_of, manifest. set (put := fun payload => put_blob _ payload others).
  assert (Hgo : forall l s r s', store_files put l s = (r, s') -> recorded (rc_ledger rc) (rc_subject rc) s [] s' /\
    forall stored, r = Ok stored -> stored = map (fun f => (fst f, sha256_digest (snd f))) l).
  { induction l as [|[relative payload] l IH]; intros s0 r0 s0' E; simpl in E.
    - revert E. intros [= <- <-]. split; [constructor|]. by intros ? [= <-].
    - open_bind E; [|split; [by eapply rec_put; [|constructor]|done]].
      open_bind E; destruct (IH _ _ _ E1) as [Hr Hs].
      + revert E. intros [= <- <-]. split; [by eapply rec_put|]. intros ? [= <-].
        rewrite (Hs _ eq_refl). simpl. by rewrite (put_blob_digest _ _ _ _ _ _ E0).
      + split; [by eapply rec_put|done]. }
  intros E. open_bind E; destruct (Hgo _ _ _ _ E0) as [Hr Hs]; [|by split].
  open_bind E; [|split; [|done]; eapply (recorded_app _ _ _ []); [done|by eapply rec_put; [|constructor]]].
  revert E. intros [= <- <-]. split.
  - eapply (recorded_app _ _ _ []); [done|]. by eapply rec_put; [|constructor].
  - intros blob more [= <- _]. rewrite (put_blob_digest _ _ _ _ _ _ E1), (Hs _ eq_refl). by rewrite map_map.
Qed.

Definition released (n : Z) (snapshot : workspace) (tr : list entry) (res : RunResult) (w : world) : Prop :=
  exists blobs payload, tr = [record_of "release_ready" RELEASE_READY blobs payload] /\
    jget "candidate_digest" payload = JStr (candidate_digest_of snapshot) /\
    jget "telemetry" payload = JObj (result_telemetry res) /\
    ws w = snapshot /\ result_of res RELEASE_READY "PASS" n w.

Lemma triple_release n snapshot security quality :
  triple quiet (fun w => ws w = snapshot) (release e rc n snapshot security quality) (fun tr r w =>
    match r with Raise _ => tr = [] | Ok res => released n snapshot tr res w end).
Proof.
  unfold release. tsilent; [apply silent_put|apply stable_ws with (P := fun x => x = snapshot)|done|]. intros blob.
  tbind (fun (tr : list entry) (r : res (string * list string)) (w : world) => tr = [] /\ ws w = snapshot /\
           forall x more, r = Ok (x, more) -> x = candidate_digest_of snapshot).
  { intros w r w' Hw. unfold in_evidence. destruct (_candidate_manifest _ _ _) as [x s'] eqn:E. intros [= <- <-].
    apply manifest_recorded in E as [Hr Hd]. exists []. split; [done|]. split; [done|auto]. }
  { by intros tr x w [-> _]. }
  intros [candidate more] tr. eapply triple_pre with (P := fun w => tr = [] /\ candidate = candidate_digest_of snapshot /\ ws w = snapshot);
    [|intros w (-> & Hw & Hd); split; [done|]; by split; [eapply Hd|]].
  assert (Hs : stable (fun w => tr = [] /\ candidate = candidate_digest_of snapshot /\ ws w = snapshot)).
  { intros w w' [-> _]. done. }
  tlift; [by intros x w _ [-> _]|]. intros digest _.
  tsilent; [apply silent_invoke|exact Hs|by intros x w [-> _]|]. intros answer.
  apply triple_telemetry; [done|exact Hs|]. intros c Hc.
  tlift; [by intros x w _ [[-> _] _]|]. intros behavior _.
  apply triple_entry; [done|by intros s w [? ?]|by intros x w [[-> _] _]|]. intros _.
  apply triple_finish; [done|exact Hs|done|]. intros res w (-> & -> & Hw) Hres _ Ht.
  eexists _, _. split; [done|]. split; [done|]. split; [unfold jget; simpl; by rewrite Ht|]. done.
Qed.

(** *** A whole attempt *)

Definition verifying (tr : list entry) : Prop :=
  exists blobs payload, tr = [record_of "verification_started" VERIFYING blobs payload].
Definition failing (ty : string) (tr : list entry) : Prop :=
  exists blobs payload, tr = [record_of ty BUILDING blobs payload].

(** The released workspace was clean, and passed everything the run asks for. *)
Definition judged_fit (protected_tests : list Path) (w : world) : Prop :=
  List.filter is_blocking (_security_findings (ws w)) = [] /\
  quality_passed protected_tests (ws w) /\ criteria_passed (ws w).

Definition judge_post (protected_tests : list Path) (n : Z) (tr : list entry) (r : res (stage (list Finding)))
    (w : world) : Prop :=
  match r with
  | Raise _ => tr = [] \/ exists tr1 tr2, tr = tr1 ++ tr2 /\ verifying tr1 /\
                 (tr2 = [] \/ quality_record tr2 /\ rc_enforce rc = true)
  | Ok (Continue findings) =>
      findings <> [] /\
      (failing "security_failed" tr \/
       exists tr1 tr2 tr3, tr = tr1 ++ tr2 ++ tr3 /\ verifying tr1 /\
         (tr2 = [] \/ quality_record tr2 /\ rc_enforce rc = true) /\ failing "verification_failed" tr3)
  | Ok (Finished res) =>
      judged_fit protected_tests w /\
      exists tr1 tr2 tr3, tr = tr1 ++ tr2 ++ tr3 /\ verifying tr1 /\
        (if rc_enforce rc then quality_record tr2 else tr2 = []) /\ released n (ws w) tr3 res w
  end.

Lemma triple_judge protected_tests n changed :
  triple quiet (fun _ => True) (judge e rc protected_tests n changed) (judge_post protected_tests n).
Proof.
  unfold judge. tget. intros snapshot. tget. intros security.
  eapply triple_pre with (P := fun w => ws w = snapshot /\ security = _security_findings snapshot);
    [|intros w [[_ Hw] Hs]; unfold _workspace_snapshot in Hw; by subst].
  assert (HP : stable (fun w => ws w = snapshot /\ security = _security_findings snapshot)) by (by intros w w' [-> _]).
  destruct (List.filter is_blocking security) as [|f blocking] eqn:Eb.
  2: { apply triple_failed; [done|exact HP|by left|]. intros blobs payload w _. split; [done|]. left. by eexists _, _. }
  apply triple_entry; [done|by apply stable_evidence with (caps := rc_budget rc)|by left|]. intros _.
  tbind (fun tr r w => (ws w = snapshot /\ security = _security_findings snapshot) /\ verdict protected_tests snapshot tr r).
  { by apply triple_verification. }
  { intros tr x w [_ [Htr _]]. right. eexists [_], tr. split; [done|]. split; [by eexists _, _|done]. }
  intros [quality [|f findings]] tr.
  - tbind (fun tr' r w => verdict protected_tests snapshot tr (Ok (quality, [])) /\ security = _security_findings snapshot /\
             match r with Raise _ => tr' = [] | Ok res => released n snapshot tr' res w end).
    { intros w r w' [[Hw Hs] Hv] E. destruct (triple_release n snapshot security quality w r w' Hw E) as (tr' & Hr & Hq & HQ).
      exists tr'. eauto 6. }
    { intros tr' x w ((Htr & _) & _ & ->). rewrite app_nil_r. right. eexists [_], tr. split; [done|]. split; [by eexists _, _|done]. }
    intros res tr'. tret. intros w (Hv & Hs & Hr). rewrite app_nil_r.
    destruct (proj2 Hv quality eq_refl) as (Htr & Hqual & Hcrit).
    assert (ws w = snapshot) as Hw by (by destruct Hr as (? & ? & _ & _ & _ & Hw & _)).
    unfold judge_post, judged_fit. rewrite Hw, <- Hs. split; [done|]. eexists [_], tr, tr'. split; [done|]. split; [by eexists _, _|]. done.
  - eapply triple_pre with (P := fun _ => verdict protected_tests snapshot tr (Ok (quality, f :: findings)));
      [|by intros w [_ Hv]].
    apply triple_failed; [done|apply stable_const|..].
    + intros x w [Htr _]. rewrite app_nil_r. right. eexists [_], tr. split; [done|]. split; [by eexists _, _|done].
    + intros blobs payload w [Htr _]. split; [done|]. right. eexists [_], tr, [_]. split; [done|].
      split; [by eexists _, _|]. split; [done|]. by eexists _, _.
Qed.

(** How a run ends: its last event is the one terminal event, in the state of
    the result, and a release is of a workspace judged fit. *)
Definition ended (protected_tests : list Path) (lo hi : Z) (last : string) (tr : list entry) (res : RunResult)
    (w : world) : Prop :=
  exists before en, tr = before ++ [en] /\ path (rc_enforce rc) last tr = true /\
    Forall (fun en => is_terminal (en_state en) = false) before /\
    is_terminal (result_state res) = true /\ en_state en = result_state res /\
    jget "telemetry" (en_payload en) = JObj (result_telemetry res) /\
    lo <= result_attempts res <= hi /\
    result_of res (result_state res) (result_cause res) (result_attempts res) w /\
    (result_state res = RELEASE_READY ->
       1 <= result_attempts res /\ result_cause res = "PASS"%string /\ judged_fit protected_tests w /\
       jget "candidate_digest" (en_payload en) = JStr (candidate_digest_of (ws w))).

Lemma ended_app protected_tests lo hi lo' hi' last tr tr' res w :
  open_trace (rc_enforce rc) last tr -> ended protected_tests lo hi (end_of last tr) tr' res w ->
  lo' <= lo -> hi <= hi' -> ended protected_tests lo' hi' last (tr ++ tr') res w.
Proof.
  intros [Hp Ht] (before & en & -> & Hp' & Hb & Hrest) Hlo Hhi. exists (tr ++ before), en.
  split; [by rewrite app_assoc|]. split; [by rewrite path_app, Hp, Hp'|]. split; [by apply Forall_app|].
  destruct Hrest as (? & ? & ? & ? & ?). repeat (split; [done || lia|]). done.
Qed.

Lemma closing_ended protected_tests ty state lo hi last tr res w :
  closing ty state lo hi tr res w -> is_terminal state = true -> state <> RELEASE_READY ->
  (ty, state) ∈ successors (rc_enforce rc) last -> ended protected_tests lo hi last tr res w.
Proof.
  intros (n & payload & -> & Hn & _ & Ht & Hres) Hterm Hne Hs. pose proof (ro_state _ _ _ _ _ Hres) as Es.
  pose proof (ro_attempts _ _ _ _ _ Hres) as Ea.
  eexists [], _. split; [done|]. cbn [path record_of en_type en_state en_payload].
  split; [by rewrite bool_decide_eq_true_2|]. split; [done|]. rewrite Es, Ea. by repeat (split; [done|]).
Qed.

Lemma in_successors enforced last t : bool_decide (t ∈ successors enforced last) = true -> t ∈ successors enforced last.
Proof. apply bool_decide_eq_true_1. Qed.

Definition attempt_post (protected_tests : list Path) (n : Z) (tr : list entry) (r : res (stage (list Finding)))
    (w : world) : Prop :=
  forall last, ready last ->
  match r with
  | Raise _ => open_trace (rc_enforce rc) last tr
  | Ok (Continue findings) => findings <> [] /\ open_trace (rc_enforce rc) last tr /\ ready (end_of last tr)
  | Ok (Finished res) => ended protected_tests (n - 1) n last tr res w
  end.

Lemma triple_const {A} (F : relation world) (X : Prop) (m : st world A) Q :
  (X -> triple F (fun _ => True) m Q) -> triple F (fun _ => X) m Q.
Proof. intros Hm w r w' HX. by apply (Hm HX). Qed.

(** The concrete traces, from each event the attempts start from. *)
Ltac in_cases H := repeat (apply elem_of_cons in H as [->|H]); [..|by apply elem_of_nil in H].
Ltac trace_cases Hr :=
  intros; unfold ready in Hr; in_cases Hr; destruct (rc_enforce rc);
  (split; [vm_compute; reflexivity|repeat constructor]).

Lemma open_coder last blobs payload :
  ready last -> open_trace (rc_enforce rc) last [record_of "coder_completed" BUILDING blobs payload].
Proof. intros Hr. trace_cases Hr. Qed.
Lemma open_verifying tr : verifying tr -> open_trace (rc_enforce rc) "coder_completed" tr.
Proof. intros (b & p & ->). destruct (rc_enforce rc); (split; [vm_compute; reflexivity|repeat constructor]). Qed.
Lemma open_failing ty last tr :
  failing ty tr -> (ty, BUILDING) ∈ successors (rc_enforce rc) last -> open_trace (rc_enforce rc) last tr.
Proof.
  intros (b & p & ->) Hs. split; [cbn [path record_of en_type en_state]; by rewrite bool_decide_eq_true_2|repeat constructor].
Qed.
Lemma open_quality tr :
  tr = [] \/ quality_record tr /\ rc_enforce rc = true ->
  open_trace (rc_enforce rc) "verification_started" tr /\
  ("verification_failed"%string, BUILDING) ∈ successors (rc_enforce rc) (end_of "verification_started" tr).
Proof.
  intros [->|[(b & p & ->) ->]].
  - split; [done|]. destruct (rc_enforce rc); decide_now.
  - split; [split; [vm_compute; reflexivity|repeat constructor]|]. cbn [end_of en_type record_of]. decide_now.
Qed.

Lemma end_verifying last tr : verifying tr -> end_of last tr = "verification_started"%string.
Proof. by intros (b & p & ->). Qed.
Lemma end_failing ty last tr : failing ty tr -> end_of last tr = ty.
Proof. by intros (b & p & ->). Qed.

Lemma judge_open protected_tests n tr r w :
  judge_post protected_tests n tr r w ->
  match r with
  | Raise _ => open_trace (rc_enforce rc) "coder_completed" tr
  | Ok (Continue findings) => findings <> [] /\ open_trace (rc_enforce rc) "coder_completed" tr /\
                              ready (end_of "coder_completed" tr)
  | Ok (Finished res) => 1 <= n -> ended protected_tests (n - 1) n "coder_completed" tr res w
  end.
Proof.
  destruct r as [[res|findings]|x]; cbn [judge_post].
  - intros (Hfit & tr1 & tr2 & tr3 & -> & Hv & Hq & Hrel) Hn.
    apply (ended_app protected_tests n n); [by apply open_verifying| |lia|lia]. rewrite (end_verifying _ _ Hv).
    destruct Hrel as (blobs & payload & -> & Hd & Ht & _ & Hres).
    assert (Hend : ended protected_tests n n (end_of "verification_started" tr2)
              [record_of "release_ready" RELEASE_READY blobs payload] res w).
    { pose proof (ro_state _ _ _ _ _ Hres) as Es. pose proof (ro_cause _ _ _ _ _ Hres) as Ec.
      pose proof (ro_attempts _ _ _ _ _ Hres) as Ea.
      eexists [], _. split; [done|]. cbn [path record_of en_type en_state en_payload].
      rewrite bool_decide_eq_true_2.
      2: { destruct (rc_enforce rc); [destruct Hq as (b & p & ->)|subst tr2]; cbn [end_of en_type record_of]; decide_now. }
      split; [done|]. split; [done|]. rewrite Es, Ea, Ec. repeat (split; [done || lia|]). done. }
    apply (ended_app protected_tests n n); [|exact Hend|lia|lia]. apply open_quality.
    destruct (rc_enforce rc); [by right|by left].
  - intros (Hf & Htr). split; [done|]. destruct Htr as [Hs|(tr1 & tr2 & tr3 & -> & Hv & Hq & Hb)].
    + split; [|rewrite (end_failing _ _ _ Hs); by repeat constructor].
      eapply open_failing; [done|]. destruct (rc_enforce rc); decide_now.
    + destruct (open_quality _ Hq) as [Ho Hs]. rewrite !end_of_app, (end_failing _ _ _ Hb).
      split; [|by repeat constructor]. apply open_trace_app; [by apply open_verifying|].
      rewrite (end_verifying _ _ Hv). apply open_trace_app; [done|]. by eapply open_failing.
  - intros [->|(tr1 & tr2 & -> & Hv & Hq)]; [done|]. apply open_trace_app; [by apply open_verifying|].
    rewrite (end_verifying _ _ Hv). by apply open_quality.
Qed.

Lemma halted_from_ready last : ready last -> ("halted"%string, HALTED) ∈ successors (rc_enforce rc) last.
Proof. intros Hr. unfold ready in Hr. in_cases Hr; destruct (rc_enforce rc); decide_now. Qed.
Lemma stopped_from_ready last : ready last -> ("stopped"%string, STOPPED) ∈ successors (rc_enforce rc) last.
Proof. intros Hr. unfold ready in Hr. in_cases Hr; destruct (rc_enforce rc); decide_now. Qed.


Lemma triple_attempt protected_tests n findings previous :
  1 <= n ->
  triple (guarded protected_tests) (fun _ => True) (run_attempt e rc protected_tests n findings previous)
    (attempt_post protected_tests n).
Proof.
  intros Hn. pose proof (quiet_guarded protected_tests) as Hqg. unfold run_attempt.
  tnext (fun (tr : list entry) (r : res (stage unit)) w => match r with
     | Ok (Finished res) => closing "stopped" STOPPED (n - 1) (n - 1) tr res w | _ => tr = [] end).
  { by apply triple_stop. }
  { by intros tr x w -> last Hr. }
  { intros tr res w Hc last Hr. eapply closing_ended; [eapply closing_range; [exact Hc|lia..]|done|done|].
    by apply stopped_from_ready. }
  intros [] tr0. apply triple_const. intros ->.
  tnext (coder_post n); [apply triple_coder|by intros tr x w -> last Hr|..].
  { intros tr res w Hc last Hr. eapply closing_ended; [exact Hc|done|done|]. by apply halted_from_ready. }
  intros changed tr1.
  eapply triple_pre with (P := fun _ => exists b p, tr1 = [record_of "coder_completed" BUILDING b p]); [|done].
  apply triple_const. intros (b1 & p1 & ->).
  tnext (fun (tr : list entry) (r : res (stage unit)) w => match r with
     | Ok (Finished res) => closing "halted" HALTED n n tr res w | _ => tr = [] end).
  { by apply triple_repeat. }
  { intros tr x w -> last Hr. by apply open_coder. }
  { intros tr res w Hc last Hr.
    apply (ended_app protected_tests n n _ _ _ [_] tr); [by apply open_coder| |lia|lia].
    eapply closing_ended; [exact Hc|done|done|]. destruct (rc_enforce rc); decide_now. }
  intros [] tr2. apply triple_const. intros ->.
  eapply triple_frame; [|exact Hqg]. eapply triple_post; [apply triple_judge|].
  intros tr r w Hj last Hr. apply judge_open in Hj.
  pose proof (open_coder last b1 p1 Hr) as Ho. cbn [app].
  change (record_of ?t ?s ?b ?p :: tr) with ([record_of t s b p] ++ tr).
  destruct r as [[res|f]|x].
  - apply (ended_app protected_tests (n - 1) n); [done|by apply Hj|lia|lia].
  - destruct Hj as (Hf & Hop & Hre). split; [done|]. split; [by apply open_trace_app|by rewrite end_of_app].
  - by apply open_trace_app.
Qed.

Lemma triple_attempts protected_tests remaining : forall n findings previous,
  1 <= n -> n + Z.of_nat remaining = Z.max 0 (max_attempts (rc_budget rc)) + 1 ->
  triple (guarded protected_tests) (fun _ => True) (attempts e rc protected_tests remaining n findings previous)
    (fun tr r w => forall last, ready last ->
       match r with
       | Ok res => ended protected_tests (Z.min (n - 1) (max_attempts (rc_budget rc)))
                     (Z.max 0 (max_attempts (rc_budget rc))) last tr res w
       | Raise _ => open_trace (rc_enforce rc) last tr
       end).
Proof.
  pose proof (quiet_guarded protected_tests) as Hqg.
  induction remaining as [|remaining IH]; intros n findings previous Hn Hrem; simpl.
  - apply triple_conclude; [done|apply stable_True|done|by intros|].
    intros tr res w _ Hc _ _ last Hr. eapply closing_ended; [eapply closing_range; [exact Hc|lia..]|done|done|].
    by apply halted_from_ready.
  - tbind (attempt_post protected_tests n); [by apply triple_attempt|done|].
    intros [res|findings'] tr.
    + tret. intros w Hp last Hr. rewrite app_nil_r. specialize (Hp last Hr).
      rewrite <- (app_nil_l tr). apply (ended_app protected_tests (n - 1) n); [apply open_trace_nil|done|lia|lia].
    + eapply triple_pre with (P := fun _ => forall last, ready last ->
        findings' <> [] /\ open_trace (rc_enforce rc) last tr /\ ready (end_of last tr)); [|done].
      apply triple_const. intros Ho. tlift; [intros x w _ _ last Hr; rewrite app_nil_r; by apply Ho|].
      intros digest _. eapply triple_post; [apply IH; lia|].
      intros tr' r w Hp last Hr. destruct (Ho last Hr) as (_ & Hop & Hre). specialize (Hp _ Hre).
      destruct r as [res|x]; [|by apply open_trace_app].
      eapply ended_app; [done|exact Hp|lia|lia].
Qed.
End Stages.
