(* ===== verification/RunTheorems.v ===== *)
(** * The beginning of a run: the protected files, the failing baseline

    What [prepare] and [confirm_red] establish, the walk over the parents of
    the protected tests, and the triple of everything after the first event.

    ** The run: theorems

    What every run of [run_to_release_ready] does, whatever the provider, the
    sandbox, the tools and the operator do: it walks the machine of six states
    and ends in one terminal event, stays within its budget, keeps the tests it
    protects, and releases only what it has verified. *)
From Stdlib Require Import SpecFloat Ascii String.
From S2P Require Import Prelude Sha256 Json JsonText Canonical JsonSpec Ledger LedgerFacts PyStr Acceptance Approval.
From S2P Require Import Drift Quality Barebones Engine Run RunFacts RunStages.

(** ** The parents of a path *)

(** The path of these parts below [top]. *)
Definition below (top : Path) (parts : list string) : Path :=
  {| is_absolute := is_absolute top; segments := segments top ++ parts |}.

Lemma below_nil top : below top [] = top.
Proof. destruct top. unfold below. simpl. by rewrite app_nil_r. Qed.

Lemma parent_below top parts x : parent (below top (parts ++ [x])) = below top parts.
Proof. unfold parent, below. simpl. by rewrite app_assoc, removelast_last. Qed.

Lemma below_is_top top parts : below top parts = top <-> parts = [].
Proof.
  split; [|intros ->; apply below_nil]. intros E. apply (f_equal segments) in E. simpl in E.
  apply (f_equal List.length) in E. rewrite length_app in E. destruct parts; simpl in *; [done|lia].
Qed.

(** The non-empty prefixes of the reversed list, the longest first. *)
Fixpoint prefixes_of (rev_parts : list string) : list (list string) :=
  match rev_parts with [] => [] | _ :: rest => reverse rev_parts :: prefixes_of rest end.

Lemma initializer_walk_below top rev_parts : forall fuel,
  (List.length rev_parts <= fuel)%nat ->
  initializer_walk fuel top (below top (reverse rev_parts))
  = Some (map (fun d => child (below top d) "__init__.py") (prefixes_of rev_parts)).
Proof.
  induction rev_parts as [|x rest IH]; intros fuel Hf.
  - change (reverse []) with (@nil string). rewrite below_nil. destruct fuel; simpl; by rewrite decide_True.
  - destruct fuel as [|fuel]; [simpl in Hf; lia|]. cbn [initializer_walk].
    rewrite decide_False by (rewrite below_is_top, reverse_cons; by destruct (reverse rest)).
    rewrite reverse_cons, parent_below, IH by (simpl in Hf; lia). cbn [prefixes_of map].
    by rewrite reverse_cons.
Qed.

(** The resolved path of the workspace. *)
Definition resolved_workspace (resolved : list string) : Path :=
  {| is_absolute := true; segments := resolved |}.

(** In a resolved workspace the walk ends, with every directory above the test. *)
Lemma package_initializers_resolved resolved relative :
  package_initializers (resolved_workspace resolved) (resolved_path resolved relative)
  = Some (map (fun d => child (below (resolved_workspace resolved) d) "__init__.py")
            (prefixes_of (tl (reverse (split_on "/" relative))))).
Proof.
  unfold package_initializers. destruct (split_on "/" relative) as [|x parts _] eqn:E using rev_ind.
  { by destruct (split_on_nonempty "/" relative). }
  change (resolved_path resolved relative) with (below (resolved_workspace resolved) (split_on "/" relative)).
  rewrite E, parent_below, reverse_snoc. cbn [tl].
  rewrite <- (reverse_involutive parts) at 2. apply initializer_walk_below.
  rewrite length_reverse. unfold below. cbn [segments]. rewrite !length_app. simpl. lia.
Qed.

(** A walk that starts outside the workspace meets the root, or the empty path,
    which is its own parent, and never ends. *)
Definition is_ancestor (workspace_path directory : Path) : Prop :=
  is_absolute workspace_path = is_absolute directory /\
  exists rest, segments directory = segments workspace_path ++ rest.

Lemma initializer_walk_foreign workspace_path fuel : forall directory,
  ~ is_ancestor workspace_path directory -> initializer_walk fuel workspace_path directory = None.
Proof.
  induction fuel as [|fuel IH]; intros d Hd; simpl; rewrite decide_False
    by (intros ->; apply Hd; split; [done|exists []; by rewrite app_nil_r]); [done|].
  rewrite IH; [done|]. intros [Ha [rest Hr]]. apply Hd. split; [done|]. unfold parent in Hr. simpl in Hr.
  destruct (segments d) as [|x s _] eqn:Es using rev_ind.
  - exists []. rewrite app_nil_r. simpl in Hr. by destruct (segments workspace_path).
  - rewrite removelast_last in Hr. exists (rest ++ [x]). by rewrite app_assoc, <- Hr.
Qed.

Lemma initializer_walk_ancestor workspace_path directory :
  is_ancestor workspace_path directory ->
  exists found, initializer_walk (List.length (segments directory)) workspace_path directory = Some found.
Proof.
  intros [Ha [rest Hr]]. assert (directory = below workspace_path (reverse (reverse rest))) as ->.
  { rewrite reverse_involutive. destruct directory. unfold below. simpl in *. congruence. }
  eexists. apply initializer_walk_below. rewrite reverse_involutive, length_reverse. simpl. rewrite length_app. lia.
Qed.

(** ** The protected files *)

Section Setup.
Context `{Rfc8785} `{Yaml} `{Unicode} `{Regex} `{PythonTools}.
Variables (e : env) (rc : run_context).

Abbreviation triple := (triple (rc_ledger rc) (rc_subject rc)).
Abbreviation quiet := (quiet (rc_budget rc)).
Abbreviation silent := (silent (rc_ledger rc) (rc_subject rc) (rc_budget rc)).
Abbreviation at_ := (resolved_path (workspace_resolved e)).

(** The files with the digests that the plan was compiled with. *)
Definition digests_hold (l : list (string * string)) (files : workspace) : Prop :=
  Forall (fun p => exists content, files !! p.1 = Some content /\ sha256_digest content = p.2) l.

Lemma protect_trusted_spec l : forall w r w',
  protect_trusted e l w = (r, w') ->
  w' = w /\ forall paths, r = Ok paths -> paths = map (fun p => at_ p.1) l /\ digests_hold l (ws w).
Proof.
  induction l as [|[relative digest] l IH]; intros w r w' E; cbn [protect_trusted] in E.
  - revert E. intros [= <- <-]. split; [done|]. intros paths [= <-]. split; [done|constructor].
  - open_bind E; [|by (revert E0; intros [= _ ->])]. revert E0. intros [= E0 <-]. apply safe_path_Ok in E0 as ->.
    open_bind E; [|by (revert E0; intros [= _ ->])]. revert E0. intros [= <- <-].
    open_bind E; [|by (revert E0; intros [= _ ->])]. revert E0. intros [= E0 <-]. apply from_option_Ok in E0.
    destruct (negb _) eqn:Ed; [by (revert E; intros [= <- <-])|]. bool_simp.
    open_bind E; destruct (IH _ _ _ E1) as [-> Hp]; [|done].
    revert E. intros [= <- <-]. split; [done|]. intros paths [= <-].
    destruct (Hp _ eq_refl) as [-> Hd]. split; [done|]. constructor; [by eexists|done].
Qed.

Definition human_paths (l : list CompiledCriterion) : list string :=
  omap (fun c => option_map ht_path (human_test c)) l.

Lemma protect_human_spec l : forall w r w',
  protect_human e l w = (r, w') ->
  evidence w' = evidence w /\ cnt w' = cnt w /\
  (forall p, p ∉ human_paths l -> ws w' !! p = ws w !! p) /\
  forall paths, r = Ok paths -> paths = map at_ (human_paths l).
Proof.
  induction l as [|c l IH]; intros w r w' E; cbn [protect_human] in E; unfold human_paths; simpl.
  { revert E. intros [= <- <-]. split; [done|]. split; [done|]. split; [done|]. by intros paths [= <-]. }
  destruct (human_test c) as [h|]; simpl; [|by apply IH].
  open_bind E; [|by (revert E0; intros [= _ ->])]. revert E0. intros [= E0 <-].
  destruct (negb _); [by (revert E; intros [= <- <-])|].
  open_bind E; [|by (revert E1; intros [= _ ->])]. revert E1. intros [= E1 <-].
  open_bind E; [|by (revert E2; intros [= _ ->])]. revert E2. intros [= E2 <-].
  set (items := [(ht_path h, JStr a1)]) in *.
  assert (Hw : forall w r w', in_ws (_write_files items) w = (r, w') ->
    evidence w' = evidence w /\ cnt w' = cnt w /\ forall p, p ∉ ht_path h :: human_paths l -> ws w' !! p = ws w !! p).
  { intros w0 r0 w0'. unfold in_ws. destruct (_write_files items (ws w0)) as [x f] eqn:Ef. intros [= <- <-].
    split; [done|]. split; [done|]. intros p Hp. eapply write_files_elsewhere; [exact Ef|]. set_solver. }
  open_bind E; [|by destruct (Hw _ _ _ E3) as (? & ? & ?)]. destruct (Hw _ _ _ E3) as (He & Hc & Hf).
  open_bind E; [|by (revert E4; intros [= _ <-])]. revert E4. intros [= E4 <-]. apply safe_path_Ok in E4 as ->.
  open_bind E; destruct (IH _ _ _ E4) as (He2 & Hc2 & Hf2 & Hp2).
  - revert E. intros [= <- <-]. split; [congruence|]. split; [congruence|]. split.
    + intros p Hp. rewrite (Hf2 p), Hf; [done|exact Hp|]. set_solver.
    + intros paths [= <-]. by rewrite (Hp2 _ eq_refl).
  - split; [congruence|]. split; [congruence|]. split; [|done].
    intros p Hp. rewrite (Hf2 p), Hf; [done|exact Hp|]. set_solver.
Qed.

(** What the coder finds protected: the template's proofs, the trusted tests
    with the digests of the plan, the human tests, the package initializers. *)
Record prepared (protected_tests : list Path) (files : workspace) : Prop := {
  pr_trusted : forall relative digest,
    (relative, digest) ∈ trusted_test_digests (rc_plan rc) ->
    at_ relative ∈ protected_tests /\
    (relative ∉ human_paths (criteria (rc_plan rc)) ->
     exists content, files !! relative = Some content /\ sha256_digest content = digest);
  pr_proofs : forall id proof, (id, proof) ∈ proofs (rc_template rc) -> at_ (tt_path proof) ∈ protected_tests;
  pr_human : forall relative, relative ∈ human_paths (criteria (rc_plan rc)) -> at_ relative ∈ protected_tests;
  pr_initializers : exists tests found,
    protected_tests = tests ++ found /\ all_initializers (workspace_path e) tests = Some found
}.

Lemma prepare_spec w r w' :
  prepare e rc w = (r, w') ->
  evidence w' = evidence w /\ cnt w' = cnt w /\ forall protected_tests, r = Ok protected_tests -> prepared protected_tests (ws w').
Proof.
  unfold prepare. intros E.
  assert (Hw : forall items w r w', in_ws (_write_files items) w = (r, w') -> evidence w' = evidence w /\ cnt w' = cnt w).
  { intros items w0 r0 w0'. unfold in_ws. destruct (_write_files items _). by intros [= <- <-]. }
  open_bind E; [|by destruct (Hw _ _ _ _ E0)]. destruct (Hw _ _ _ _ E0) as [He Hc].
  open_bind E; [|by (revert E1; intros [= _ <-])]. revert E1. intros [= E1 <-].
  open_bind E; [|destruct (protect_trusted_spec _ _ _ _ E2) as [-> _]; by split].
  destruct (protect_trusted_spec _ _ _ _ E2) as [-> Ht]. destruct (Ht _ eq_refl) as [-> Hd].
  open_bind E; destruct (protect_human_spec _ _ _ _ E3) as (He3 & Hc3 & Hf & Hp);
    [|split; [congruence|split; [congruence|done]]].
  open_bind E; [|revert E4; intros [= _ <-]; split; [congruence|split; [congruence|done]]].
  revert E4. intros [= E4 <-]. revert E. intros [= <- <-].
  split; [congruence|]. split; [congruence|]. intros protected_tests [= <-].
  rewrite (Hp _ eq_refl) in *. apply from_option_Ok in E4. split.
  - intros relative digest Hin. split.
    + rewrite !elem_of_app. left. right. left. apply list_elem_of_fmap. by exists (relative, digest).
    + intros Hh. rewrite (Hf _ Hh). unfold digests_hold in Hd. rewrite Forall_forall in Hd. by apply (Hd _ Hin).
  - intros id proof Hin. rewrite !elem_of_app. left. left. apply list_elem_of_fmap.
    exists (tt_path proof). split; [done|]. apply res_mapM_Forall2 in E1.
    apply list_elem_of_lookup in Hin as [k Hk]. destruct (Forall2_lookup_l _ _ _ _ _ E1 Hk) as (y & Hy & Hyp).
    apply safe_path_Ok in Hyp as ->. by eapply list_elem_of_lookup_2.
  - intros relative Hin. rewrite !elem_of_app. left. right. right. by apply list_elem_of_fmap_2.
  - eexists _, _. by split.
Qed.

(** ** Up to the first attempt *)

(** The baseline of a workspace: every criterion but the template's fails. *)
Definition red (files : workspace) (baseline : list Finding) : Prop :=
  (exists runs runs', _verify_snapshot (candidate_sandbox e) (python e) (rc_plan rc) files (rc_template rc) runs
                      = (Ok baseline, runs')) /\
  meaningful_red rc baseline = true.

(** The protected files are those of a workspace that was prepared and red. *)
Definition established (protected_tests : list Path) (final : workspace) : Prop :=
  exists files baseline, prepared protected_tests files /\ red files baseline /\
    forall p, at_ p ∈ protected_tests -> final !! p = files !! p.

Definition counted (w w' : world) : Prop :=
  ok_counters (rc_budget rc) (cnt w) -> ok_counters (rc_budget rc) (cnt w').
#[export] Instance counted_preorder : PreOrder counted.
Proof. split; [by intros w Hw|]. intros w1 w2 w3 O1 O2 Hw. by apply O2, O1. Qed.
Lemma quiet_counted w w' : quiet w w' -> counted w w'.
Proof. by intros [_ O]. Qed.

Lemma triple_from protected_tests baseline m Q :
  triple (guarded e rc protected_tests) (fun _ => True) m Q ->
  triple counted (fun w => prepared protected_tests (ws w) /\ red (ws w) baseline) m
    (fun tr (r : res RunResult) w => Q tr r w /\ established protected_tests (ws w)).
Proof.
  intros Hm w r w' [Hp Hred] E. destruct (Hm w r w' I E) as (tr & Hr & [Hf Ho] & HQ).
  exists tr. split; [done|]. split; [exact Ho|]. split; [done|]. by exists (ws w), baseline.
Qed.

Lemma triple_red protected_tests :
  triple quiet (fun w => prepared protected_tests (ws w)) (confirm_red e rc) (fun tr r w =>
    match r with
    | Raise _ => tr = []
    | Ok baseline => (exists blobs payload, tr = [record_of "meaningful_red_confirmed" BUILDING blobs payload]) /\
                     prepared protected_tests (ws w) /\ red (ws w) baseline
    end).
Proof.
  unfold confirm_red. tget. intros snapshot.
  tbind (fun (tr : list entry) (r : res (list Finding)) (w : world) => tr = [] /\ prepared protected_tests (ws w) /\
    forall baseline, r = Ok baseline -> exists runs runs',
      _verify_snapshot (candidate_sandbox e) (python e) (rc_plan rc) (ws w) (rc_template rc) runs = (Ok baseline, runs')).
  { intros w r w' [Hp Hs] E. unfold _workspace_snapshot in Hs. subst snapshot. exists [].
    destruct (silent_verify _ _ _ _ _ _ E) as [Hr Hq]. split; [done|]. split; [done|]. split; [done|].
    destruct Hq as [Hw _]. rewrite Hw. split; [done|]. intros baseline ->.
    revert E. unfold verify_snapshot, in_runs. destruct (_verify_snapshot _ _ _ _ _ _) as [x n] eqn:Ev.
    intros [= -> _]. by eexists _, _. }
  { by intros tr x w [-> _]. }
  intros baseline tr. set (P := fun w : world => tr = [] /\ prepared protected_tests (ws w) /\ exists runs runs',
      _verify_snapshot (candidate_sandbox e) (python e) (rc_plan rc) (ws w) (rc_template rc) runs = (Ok baseline, runs')).
  eapply triple_pre with (P := P); [|by intros w (-> & Hp & Hv); split; [done|]; split; [done|apply Hv]].
  assert (HP : stable (rc_budget rc) P) by (unfold P; intros w w' [-> _]; done).
  destruct (meaningful_red rc baseline) eqn:Er; cbn [negb]; [|traise; by intros w [-> _]].
  tsilent; [apply silent_put_json|exact HP|by intros x w [-> _]|]. intros blob.
  apply triple_entry; [typeclasses eauto|done|by apply stable_evidence with (caps := rc_budget rc)|by intros x w [-> _]|].
  intros _. tret. intros w (-> & Hp & Hv). split; [by eexists _, _|]. split; [done|]. by split.
Qed.

Definition build_post (tr : list entry) (r : res RunResult) (w : world) : Prop :=
  match r with
  | Raise _ => open_trace (rc_enforce rc) "contract_validated" tr
  | Ok res =>
      exists protected_tests,
        ended e rc protected_tests (Z.min 0 (max_attempts (rc_budget rc))) (Z.max 0 (max_attempts (rc_budget rc)))
          "contract_validated" tr res w /\
        (result_state res <> STOPPED \/ result_attempts res <> 0 -> established protected_tests (ws w))
  end.

Lemma triple_build : triple counted (fun _ => True) (build e rc) build_post.
Proof.
  pose proof quiet_counted as Hqc. unfold build.
  tbind (fun (tr : list entry) (r : res (stage unit)) w => match r with
     | Ok (Finished res) => closing "stopped" STOPPED 0 0 tr res w | _ => tr = [] end).
  { apply triple_stop; [typeclasses eauto|done|apply stable_True|done|done|by intros]. }
  { by intros tr x w ->. }
  intros [res|[]] tr.
  { tret. intros w Hc. rewrite app_nil_r. exists []. split.
    - eapply closing_ended; [eapply closing_range; [exact Hc|lia..]|done|done|]. destruct (rc_enforce rc); decide_now.
    - destruct Hc as (n & p & _ & Hn & _ & _ & Hres). rewrite (ro_state _ _ _ _ _ Hres), (ro_attempts _ _ _ _ _ Hres).
      intros [?|?]; [done|lia]. }
  apply triple_const. intros ->.
  tbind (fun (tr : list entry) (r : res (list Path)) (w : world) => tr = [] /\
           forall protected_tests, r = Ok protected_tests -> prepared protected_tests (ws w)).
  { intros w r w' _ E. apply prepare_spec in E as (He & Hc & Hp). exists []. rewrite He. split; [constructor|].
    split; [unfold counted; by rewrite Hc|done]. }
  { by intros tr x w [-> _]. }
  intros protected_tests tr. eapply triple_pre with (P := fun w => prepared protected_tests (ws w) /\ tr = []);
    [|intros w [-> Hp]; auto].
  tbind (fun (tr' : list entry) (r : res (list Finding)) (w : world) => tr = [] /\ match r with
    | Raise _ => tr' = []
    | Ok baseline => (exists blobs payload, tr' = [record_of "meaningful_red_confirmed" BUILDING blobs payload]) /\
                     prepared protected_tests (ws w) /\ red (ws w) baseline
    end).
  { eapply triple_frame; [|exact Hqc]. intros w r w' [Hp ->] E.
    destruct (triple_red protected_tests w r w' Hp E) as (tr' & ? & ? & ?). eauto 6. }
  { by intros tr' x w [-> ->]. }
  intros baseline tr'.
  eapply triple_pre with (P := fun w => prepared protected_tests (ws w) /\ red (ws w) baseline /\
     tr = [] /\ exists blobs payload, tr' = [record_of "meaningful_red_confirmed" BUILDING blobs payload]);
    [|by intros w (-> & Ht & Hp & Hr)].
  set (m := attempts _ _ _ _ _ _ _). intros w r w' (Hp & Hr & -> & b & p & ->) E.
  destruct (triple_from protected_tests baseline m _
    (triple_attempts e rc protected_tests (Z.to_nat (max_attempts (rc_budget rc))) 1 baseline "" ltac:(lia) ltac:(lia))
    w r w' (conj Hp Hr) E) as (tr & Hrec & Hcnt & Hend & Hest).
  exists tr. split; [done|]. split; [done|]. cbn [app].
  change (record_of ?t ?s ?b ?p :: tr) with ([record_of t s b p] ++ tr).
  specialize (Hend "meaningful_red_confirmed"%string ltac:(by repeat constructor)).
  assert (Ho : open_trace (rc_enforce rc) "contract_validated" [record_of "meaningful_red_confirmed" BUILDING b p]).
  { destruct (rc_enforce rc); (split; [vm_compute; reflexivity|repeat constructor]). }
  destruct r as [res|x]; [|by apply open_trace_app].
  exists protected_tests. split; [|done]. eapply ended_app; [exact Ho|exact Hend|lia|lia].
Qed.

Lemma triple_validated approval_ receipt_bytes :
  triple quiet (fun _ => True) (validated e rc approval_ receipt_bytes) (fun tr r _ =>
    match r with
    | Raise _ => tr = []
    | Ok _ => exists blobs payload, tr = [record_of "contract_validated" VALIDATED blobs payload]
    end).
Proof.
  unfold validated. tsilent; [apply silent_put_json|done|done|]. intros b1.
  tsilent; [apply silent_put_json|done|done|]. intros b2.
  tsilent; [|done|done|].
  { destruct receipt_bytes as [payload|]; [|apply silent_ret]. apply silent_bind; [apply silent_put|].
    intros b. apply silent_ret. }
  intros receipt. apply triple_entry; [typeclasses eauto|done|done|done|]. intros _. tret. by eexists _, _.
Qed.

Definition run_post (tr : list entry) (r : res RunResult) (w : world) : Prop :=
  match r with
  | Raise _ => open_trace (rc_enforce rc) "" tr
  | Ok res =>
      exists protected_tests,
        ended e rc protected_tests (Z.min 0 (max_attempts (rc_budget rc))) (Z.max 0 (max_attempts (rc_budget rc)))
          "" tr res w /\
        (result_state res <> STOPPED \/ result_attempts res <> 0 -> established protected_tests (ws w))
  end.

(** Everything after the ledger is open. *)
Lemma triple_run approval_ receipt_bytes :
  triple counted (fun _ => True) (_ ← validated e rc approval_ receipt_bytes; build e rc) run_post.
Proof.
  tbind (fun (tr : list entry) (r : res unit) (_ : world) => match r with
    | Raise _ => tr = []
    | Ok _ => exists blobs payload, tr = [record_of "contract_validated" VALIDATED blobs payload] end).
  { eapply triple_frame; [apply triple_validated|apply quiet_counted]. }
  { by intros tr x w ->. }
  intros [] tr0. apply triple_const. intros (b & p & ->).
  assert (Ho : open_trace (rc_enforce rc) "" [record_of "contract_validated" VALIDATED b p]).
  { destruct (rc_enforce rc); (split; [vm_compute; reflexivity|repeat constructor]). }
  eapply triple_post; [apply triple_build|]. intros tr [res|x] w; unfold run_post, build_post.
  - intros (pt & Hend & Hest). exists pt. split; [|done]. eapply ended_app; [exact Ho|exact Hend|lia|lia].
  - intros Hop. by apply open_trace_app.
Qed.
End Setup.

(** * The run: theorems *)

Section Theorems.
Context `{Rfc8785} `{Yaml} `{Unicode} `{Regex} `{PythonTools}.
Implicit Types (e : env) (a : run_arguments) (s : store).

Definition budget_of a : BudgetCaps := default default_budget (budget a).

(** The entries [tr] are what a run recorded, from the ledger it opened in [s]. *)
Definition run_recorded a subject s (tr : list entry) (w : world) : Prop :=
  exists s1, open_ledger (requested_run_id a) false s = (Ok (writer (requested_run_id a)), s1) /\
             recorded (writer (requested_run_id a)) subject s1 tr (evidence w).

Lemma open_ledger_fresh id s r s' :
  open_ledger id false s = (r, s') -> (exists x, r = Raise x /\ s' = s) \/ r = Ok (writer id).
Proof.
  unfold open_ledger. destruct (validate_run_id id); [|intros [= <- <-]; eauto].
  destruct (events_file s); intros [= <- <-]; [unfold integrity; eauto|auto].
Qed.

Lemma run_inv e a s r w :
  run_to_release_ready e a (initial s) = (r, w) ->
  ((exists x, r = Raise x) /\ evidence w = s) \/
  exists approval_ subject plan tr,
    admitted e a = Ok (approval_, subject, plan) /\ run_recorded a subject s tr w /\
    run_post e (context_of a subject plan (writer (requested_run_id a))) tr r w /\
    ok_counters (budget_of a) (cnt w).
Proof.
  unfold run_to_release_ready. intros E.
  open_bind E; [|revert E0; intros [= _ <-]; eauto]. revert E0. intros [= E0 <-].
  destruct a0 as [[approval_ subject] plan].
  open_bind E; [|done]. revert E1. intros [= _ <-].
  open_bind E; unfold in_evidence in E1; destruct (open_ledger _ _ _) as [y s1] eqn:Eo; revert E1; intros [= -> <-];
    destruct (open_ledger_fresh _ _ _ _ Eo) as [(x2 & Hx & Hs)|Hx]; simplify_eq; [|by left; eauto]. right.
  match type of E with _ ?w0 = _ => set (w1 := w0) in E end.
  destruct (triple_run e (context_of a subject plan (writer (requested_run_id a))) approval_
              (approval_receipt_bytes (approval a)) w1 r w I E) as (tr & Hr & Hc & Hp).
  exists approval_, subject, plan, tr. split; [done|]. split; [by exists s1|]. split; [done|].
  apply Hc. unfold ok_counters. change _MAX_SAFE_JSON_INTEGER with 9007199254740991. simpl. lia.
Qed.

(** C1. Every run walks the machine of six states.  Either it is refused
    before anything is recorded, or the events it records are a path of the
    machine; the path of a run that returns ends in its one terminal event, in
    the state of the result and with its telemetry; the path of a run that an
    exception ends has no terminal event. *)
Theorem run_walks_the_machine e a s r w :
  run_to_release_ready e a (initial s) = (r, w) ->
  ((exists x, r = Raise x) /\ evidence w = s) \/
  exists subject tr,
    canonical_digest (JObj (contract a)) = Ok subject /\ run_recorded a subject s tr w /\
    path (enforce_quality a) "" tr = true /\
    match r with
    | Ok res =>
        exists before en, tr = before ++ [en] /\
          Forall (fun en => is_terminal (en_state en) = false) before /\
          is_terminal (en_state en) = true /\ en_state en = result_state res /\
          jget "telemetry" (en_payload en) = JObj (result_telemetry res) /\
          result_telemetry res = counters_dict (cnt w) /\ result_model_calls res = calls (cnt w)
    | Raise _ => Forall (fun en => is_terminal (en_state en) = false) tr
    end.
Proof.
  intros E. apply run_inv in E as [E|(approval_ & subject & plan & tr & Ha & Hr & Hp & _)]; [by left|right].
  exists subject, tr. split; [unfold admitted in Ha; simp_res; by simplify_eq|]. split; [done|].
  destruct r as [res|x]; [|by destruct Hp].
  destruct Hp as (pt & (before & en & -> & Hpath & Hb & Ht & Hs & Htel & _ & Hres & _) & _).
  split; [exact Hpath|]. exists before, en. rewrite Hs. split; [done|]. split; [done|]. split; [done|]. split; [done|].
  split; [done|]. split; apply Hres.
Qed.

(** C10. A run that returns stays within its budget: it makes no more calls to
    the provider and no more attempts than the budget allows, its token counts
    stay integers that a double holds, and its result reports them. *)
Theorem run_within_budget e a s res w :
  run_to_release_ready e a (initial s) = (Ok res, w) ->
  0 <= result_model_calls res <= Z.max 0 (max_model_calls (budget_of a)) /\
  Z.min 0 (max_attempts (budget_of a)) <= result_attempts res <= Z.max 0 (max_attempts (budget_of a)) /\
  (result_state res = RELEASE_READY -> 1 <= result_attempts res) /\
  0 <= tokens_in (cnt w) <= _MAX_SAFE_JSON_INTEGER /\ 0 <= tokens_out (cnt w) <= _MAX_SAFE_JSON_INTEGER /\
  result_telemetry res = counters_dict (cnt w).
Proof.
  intros E. apply run_inv in E as [[[x [=]] _]|(approval_ & subject & plan & tr & _ & _ & Hp & Hc & Hi & Ho)].
  destruct Hp as (pt & (before & en & _ & _ & _ & _ & _ & _ & Hn & Hres & Hrel) & _).
  pose proof (ro_calls _ _ _ _ _ Hres) as Ec. rewrite Ec. split; [done|]. split; [exact Hn|].
  split; [intros Hs; by apply Hrel in Hs as [? _]|]. split; [done|]. split; [done|]. apply Hres.
Qed.

Lemma checks_nonempty snapshot trusted_paths report :
  check_python_candidate snapshot trusted_paths = Ok report -> checks report <> [].
Proof.
  unfold check_python_candidate. intros E. simp_res. cbv zeta in E.
  repeat match type of E with (if ?c then _ else _) = _ => destruct c end; by simplify_eq.
Qed.

(** C7. A run ends in [RELEASE_READY] only with a verified candidate.  On the
    very files it leaves, and whose digests its last event names: every
    criterion of the compiled plan passes behind the sandbox, no finding of the
    security scan is blocking, and, when quality is enforced, every quality
    check passes. *)
Theorem release_is_verified e a s res w :
  run_to_release_ready e a (initial s) = (Ok res, w) -> result_state res = RELEASE_READY ->
  exists subject plan protected_tests before en,
    compile_barebones_plan (contract a) (repository_at_compile e) (default default_template (template a)) = Ok plan /\
    run_recorded a subject s (before ++ [en]) w /\ en_state en = RELEASE_READY /\
    jget "candidate_digest" (en_payload en) = JStr (candidate_digest_of (ws w)) /\
    result_cause res = "PASS"%string /\
    (exists runs runs', _verify_snapshot (candidate_sandbox e) (python e) plan (ws w)
                          (default default_template (template a)) runs = (Ok [], runs')) /\
    List.filter is_blocking (_security_findings (ws w)) = [] /\
    (enforce_quality a = true ->
     exists trusted_paths report,
       res_mapM (relative_to (workspace_path e)) protected_tests = Ok trusted_paths /\
       check_python_candidate (files_in_order (ws w)) trusted_paths = Ok report /\ passed report = true).
Proof.
  intros E Hs. apply run_inv in E as [[[x [=]] _]|(approval_ & subject & plan & tr & Ha & Hr & Hp & _)].
  destruct Hp as (pt & (before & en & -> & _ & _ & _ & Hen & _ & _ & Hres & Hrel) & _).
  destruct (Hrel Hs) as (_ & Hc & (Hsec & Hq & Hcrit) & Hd).
  exists subject, plan, pt, before, en. split; [unfold admitted in Ha; simp_res; by simplify_eq|].
  split; [done|]. split; [congruence|]. split; [done|]. split; [done|]. split; [done|]. split; [done|].
  intros He. destruct (Hq He) as (trusted & report & Ht & Hrep & Hch). exists trusted, report.
  split; [done|]. split; [done|]. unfold passed. apply checks_nonempty in Hrep. by destruct (checks report).
Qed.

(** C9. What a run has protected stays as it was when the baseline failed.
    A run that returns after an attempt, or halts, has confirmed a meaningful
    red: some earlier workspace failed exactly the criteria that the template
    does not satisfy, by assertion.  In the final workspace every trusted test
    of the plan has its compiled digest, and every human test, template proof
    and package initializer above them is the one of that workspace. *)
Theorem evidence_is_protected e a s res w :
  run_to_release_ready e a (initial s) = (Ok res, w) ->
  result_state res <> STOPPED \/ result_attempts res <> 0 ->
  exists plan subject protected_tests files baseline,
    let rc := context_of a subject plan (writer (requested_run_id a)) in
    compile_barebones_plan (contract a) (repository_at_compile e) (default default_template (template a)) = Ok plan /\
    red e rc files baseline /\ prepared e rc protected_tests files /\
    (forall p, resolved_path (workspace_resolved e) p ∈ protected_tests -> ws w !! p = files !! p) /\
    (forall relative digest, (relative, digest) ∈ trusted_test_digests plan ->
       relative ∉ human_paths (criteria plan) ->
       exists content, ws w !! relative = Some content /\ sha256_digest content = digest).
Proof.
  intros E Hs. apply run_inv in E as [[[x [=]] _]|(approval_ & subject & plan & tr & Ha & Hr & Hp & _)].
  destruct Hp as (pt & _ & Hest). destruct (Hest Hs) as (files & baseline & Hprep & Hred & Hf).
  exists plan, subject, pt, files, baseline. cbv zeta. split; [unfold admitted in Ha; simp_res; by simplify_eq|].
  split; [done|]. split; [done|]. split; [done|]. intros relative digest Hin Hh.
  destruct (pr_trusted _ _ _ _ Hprep relative digest Hin) as [Hpt Hd].
  destruct (Hd Hh) as (content & Hc & Hdig). exists content. by rewrite (Hf _ Hpt).
Qed.
End Theorems.

(** C39. The walk over the parents of a protected test ends exactly when the
    workspace, as the caller spells it, lies above the test; it then ends within
    as many rounds as the path has parts.  In a workspace given by a relative
    path, or through a symbolic link, it does not end. *)
Theorem package_initializers_end workspace_path directory :
  (exists fuel found, initializer_walk fuel workspace_path directory = Some found) <->
  is_ancestor workspace_path directory.
Proof.
  split; [|intros Ha; by destruct (initializer_walk_ancestor _ _ Ha); eauto].
  intros (fuel & found & E). destruct (decide (is_absolute workspace_path = is_absolute directory)) as [Ha|Ha].
  2: { rewrite initializer_walk_foreign in E; [done|]. by intros [? _]. }
  destruct (decide (segments workspace_path `prefix_of` segments directory)) as [[rest Hr]|Hn].
  - split; [done|]. by exists rest.
  - rewrite initializer_walk_foreign in E; [done|]. intros [_ [rest Hr]]. apply Hn. by exists rest.
Qed.
