(* ===== verification/CheckTheorems.v ===== *)
(** * The checks around a run: theorems

    An approval binds one contract, a comparison of provider behaviour reports
    what changed, and a passing quality report says what it checked.

    ** The engine's operations: theorems

    The provider behind its budget, the codes that failures are recorded under,
    the evaluation of compiled assertions and the writing of files. *)
From Stdlib Require Import SpecFloat Ascii String.
From S2P Require Import Prelude Sha256 Json JsonText Canonical JsonSpec JsonFacts CanonicalFacts Ledger LedgerFacts PyStr.
From S2P Require Import Acceptance Approval Drift Quality Barebones Engine Run RunFacts.

(** ** Approvals *)

Lemma py_eq_str v s : py_eq v (JStr s) = true -> v = JStr s.
Proof.
  destruct v; simpl; try done; try (by intros ->%String.eqb_eq); by repeat case_match.
Qed.

Section Approvals.
Context `{Rfc8785}.

(** What the receipt says of the contract, once it verifies. *)
Record approved (contract receipt : list (string * json)) (approver digest : string) : Prop := {
  ap_receipt : canonical_digest (JObj (assoc_del "receipt_digest" receipt)) = Ok digest;
  ap_claimed : jget "receipt_digest" receipt = JStr digest;
  ap_contract : exists d, canonical_digest (JObj contract) = Ok d /\ jget "approved_contract_digest" receipt = JStr d;
  ap_draft : exists d, canonical_digest (JObj (reconstructed_draft contract)) = Ok d /\
                       jget "draft_digest" receipt = JStr d;
  ap_status : jget "contract_status" contract = JStr "APPROVED";
  ap_decision : jget "decision" receipt = JStr "APPROVED";
  ap_approver : jget "approved_by" receipt = JStr (strip approver) /\ strip approver <> ""%string
}.

Lemma verify_approved contract receipt approver digest :
  verify_contract_approval contract receipt approver = Ok digest -> approved contract receipt approver digest.
Proof.
  unfold verify_contract_approval. intros E. simp_res.
  destruct (jget "receipt_digest" receipt) as [| | | |claimed| |] eqn:Ec; try done. simp_res. bool_simp. subst.
  destruct (jget "draft_digest" receipt) as [| | | |draft| |] eqn:Ed; try done. simp_res. bool_simp. subst.
  match goal with Hb : receipt_bound _ _ _ = true |- _ => unfold receipt_bound in Hb; bool_simp end.
  repeat match goal with Hp : py_eq _ (JStr _) = true |- _ => apply py_eq_str in Hp end.
  split; eauto.
Qed.
End Approvals.

Section Binding.
Context `{Rfc8785Laws}.

(** Two different canonical texts with one SHA-256 digest. *)
Definition text_collision (v1 v2 : json) : Prop :=
  exists b1 b2, canonical_json_bytes v1 = Ok b1 /\ canonical_json_bytes v2 = Ok b2 /\
    b1 <> b2 /\ sha256_digest b1 = sha256_digest b2.

Lemma same_digest_value v1 v2 d :
  canonical_digest v1 = Ok d -> canonical_digest v2 = Ok d ->
  json_norm v1 = json_norm v2 \/ text_collision v1 v2.
Proof.
  unfold canonical_digest. intros E1 E2. simp_res.
  match goal with H1 : canonical_json_bytes v1 = Ok ?b1, H2 : canonical_json_bytes v2 = Ok ?b2 |- _ =>
    destruct (String.eqb_spec b1 b2) as [->|Hne];
      [left; by eapply dumps_norm|right; exists b1, b2; unfold sha256_digest; split_and!; congruence] end.
Qed.

(** C34. An approval receipt approves one contract: contracts that verify with
    the same receipt are the same JSON value, approved by the same authority,
    unless their canonical texts collide under SHA-256. *)
Theorem approval_binds_contract contract1 contract2 receipt approver1 approver2 d1 d2 :
  verify_contract_approval contract1 receipt approver1 = Ok d1 ->
  verify_contract_approval contract2 receipt approver2 = Ok d2 ->
  d1 = d2 /\ strip approver1 = strip approver2 /\
  jget "decision" receipt = JStr "APPROVED" /\ jget "contract_status" contract1 = JStr "APPROVED" /\
  (json_norm (JObj contract1) = json_norm (JObj contract2) \/ text_collision (JObj contract1) (JObj contract2)).
Proof.
  intros A1%verify_approved A2%verify_approved.
  destruct (ap_contract _ _ _ _ A1) as (e1 & H1 & R1), (ap_contract _ _ _ _ A2) as (e2 & H2 & R2).
  destruct (ap_approver _ _ _ _ A1) as [P1 _], (ap_approver _ _ _ _ A2) as [P2 _].
  pose proof (ap_claimed _ _ _ _ A1). pose proof (ap_claimed _ _ _ _ A2).
  split; [congruence|]. split; [congruence|]. split; [apply A1|]. split; [apply A1|].
  apply (same_digest_value _ _ e1); congruence.
Qed.
End Binding.

(** ** Drift *)

(** The field of the provider's configuration changed, and is known on both
    sides when it is the version of the command line. *)
Definition changed_field (baseline current : ProviderBehavior) (field : string) : Prop :=
  (field = "provider"%string /\ pb_provider baseline <> pb_provider current) \/
  (field = "model"%string /\ pb_model baseline <> pb_model current) \/
  (field = "prompt_version"%string /\ pb_prompt_version baseline <> pb_prompt_version current) \/
  (field = "cli_version"%string /\ pb_cli_version baseline <> pb_cli_version current /\
   pb_cli_version baseline <> "unknown"%string /\ pb_cli_version current <> "unknown"%string).

Lemma elem_of_if (b : bool) (x y : string) : x ∈ (if b then [] else [y]) <-> x = y /\ b = false.
Proof. destruct b; rewrite ?elem_of_nil, ?list_elem_of_singleton; naive_solver. Qed.

Lemma attributed_spec baseline current field :
  field ∈ attributed baseline current <-> changed_field baseline current field.
Proof.
  unfold attributed, changed_field. rewrite !elem_of_app, !elem_of_if, orb_false_iff, !String.eqb_neq, str_in_false.
  rewrite !not_elem_of_cons. pose proof (not_elem_of_nil (A := string)). naive_solver.
Qed.

(** Two observations are compared exactly when they are of the same
    purpose and request.  A drift is reported exactly when the outputs differ,
    and is attributed to exactly the configuration fields that changed. *)
Theorem drift_reported_iff_outputs_differ baseline current :
  match compare_provider_behavior baseline current with
  | Ok d =>
      pb_purpose baseline = pb_purpose current /\ pb_request_digest baseline = pb_request_digest current /\
      (detected d = true <-> pb_output_digest baseline <> pb_output_digest current) /\
      (forall field, field ∈ attribution d <-> detected d = true /\ changed_field baseline current field) /\
      (drift_cause d = "NO_BEHAVIOR_DRIFT"%string <-> detected d = false) /\
      (drift_cause d = "UNATTRIBUTED_BEHAVIOR_DRIFT"%string <-> detected d = true /\ attribution d = [])
  | Raise x => x = ValueError "provider behavior observations are not comparable" /\
      (pb_purpose baseline <> pb_purpose current \/ pb_request_digest baseline <> pb_request_digest current)
  end.
Proof.
  unfold compare_provider_behavior.
  destruct (String.eqb_spec (pb_purpose baseline) (pb_purpose current)); cbn [andb negb]; [|split; [done|by left]].
  destruct (String.eqb_spec (pb_request_digest baseline) (pb_request_digest current)); cbn [negb]; [|split; [done|by right]].
  destruct (String.eqb_spec (pb_output_digest baseline) (pb_output_digest current)); cbn [detected attribution drift_cause].
  - split_and!; try naive_solver. intros field. rewrite elem_of_nil. naive_solver.
  - split; [done|]. split; [done|]. split; [done|]. split; [intros field; rewrite attributed_spec; naive_solver|].
    destruct (attributed baseline current); naive_solver.
Qed.

(** ** Quality *)

Section Reports.
Context `{Rfc8785} `{PythonTools}.

(** A source file without a finding: it parses, its comments suppress no
    checker, and its imports are local or of the standard library. *)
Definition clean_source (local_roots : list string) (file : string * string) : Prop :=
  exists source nodes comments,
    decode_utf8 file.2 = Ok source /\ ast_parse file.1 source = inr nodes /\
    tokenize_comments source = (comments, None) /\
    (forall lineno c, In (lineno, c) comments -> is_suppression c = false) /\
    flat_map (node_dependencies file.1 local_roots) nodes = [] /\
    flat_map (node_integrity file.1) nodes = [].

Definition no_problems (ps : problems) : Prop := p_syntax ps = [] /\ p_dependencies ps = [] /\ p_integrity ps = [].

Lemma check_source_clean local_roots ps file :
  no_problems (check_source local_roots ps file) -> no_problems ps /\ clean_source local_roots file.
Proof.
  unfold no_problems, clean_source, check_source. destruct file as [relative payload]. cbn [fst snd].
  destruct (decode_utf8 payload) as [source|]; [|intros [Hs _]; simpl in Hs; by apply app_eq_nil in Hs as [_ ?]].
  destruct (ast_parse relative source) as [err|nodes] eqn:Ea; [intros [Hs _]; simpl in Hs; by apply app_eq_nil in Hs as [_ ?]|].
  destruct (tokenize_comments source) as [comments [err|]] eqn:Et; cbn [p_syntax p_dependencies p_integrity];
    [intros [Hs _]; by apply app_eq_nil in Hs as [_ ?]|].
  intros (Hs & Hd & Hi). apply app_eq_nil in Hd as [Hd Hd2]. apply app_eq_nil in Hi as [Hi Hi2].
  apply app_eq_nil in Hi as [Hi Hsup]. split; [done|]. exists source, nodes, comments. split_and!; try done.
  intros lineno c Hin. destruct (is_suppression c) eqn:Es; [|done]. exfalso.
  apply list_elem_of_In in Hin. assert (Hbad : relative +:+ ":" +:+ str_of_Z lineno +:+ ": checker suppression" ∈ @nil string).
  { rewrite <- Hsup. apply list_elem_of_omap. exists (lineno, c). split; [done|]. cbn [snd fst]. by rewrite Es. }
  by apply elem_of_nil in Hbad.
Qed.

Lemma check_sources_clean local_roots sources : forall ps,
  no_problems (foldl (check_source local_roots) ps sources) -> no_problems ps /\ Forall (clean_source local_roots) sources.
Proof.
  induction sources as [|file sources IH]; intros ps Hp; [by split|]. simpl in Hp.
  destruct (IH _ Hp) as [Hps Hall]. apply check_source_clean in Hps as [Hps Hf]. split; [done|by constructor].
Qed.

Definition python_sources (snapshot : list (string * string)) (trusted_paths : list string) : list (string * string) :=
  List.filter (fun p => endswith (fst p) ".py" && negb (str_in (fst p) trusted_paths)) snapshot.
Definition local_roots_of (sources : list (string * string)) : list string :=
  map (fun p => removesuffix (default ""%string (head (path_parts (fst p)))) ".py") sources.

Lemma problem_check_passed name l : check_passed (problem_check name l) = true -> l = [].
Proof. by destruct l. Qed.

Lemma tool_passed tool arguments files :
  String.eqb (fst (_run_tool tool arguments files)) "PASS" = true ->
  tool_available tool = true /\ exists out err, run_subprocess tool arguments files = Some (0, out, err).
Proof.
  unfold _run_tool. destruct (tool_available tool); cbn [negb fst]; [|done].
  destruct (run_subprocess _ _ _) as [[[code out] err]|]; cbn [fst]; [|done].
  destruct (code =? 0) eqn:Ec; [|done]. apply Z.eqb_eq in Ec as ->. eauto.
Qed.

(** C35. A quality report passes only for a candidate that the module checked
    and found clean: the profile's language and limits, every source that is
    not trusted parsed, without a checker suppression or a foreign import, and
    every tool run to exit code zero on exactly those sources. *)
Theorem passing_report_is_clean snapshot trusted_paths report :
  check_python_candidate snapshot trusted_paths = Ok report -> passed report = true ->
  let sources := python_sources snapshot trusted_paths in
  sources <> [] /\
  Forall (fun f => unsafe_snapshot_path f.1 = false /\ str_in (path_suffix f.1) _OTHER_CODE = false) snapshot /\
  Z.of_nat (List.length snapshot) <= 1000 /\
  foldr (fun f n => Z.of_nat (String.length f.2) + n) 0 snapshot <= 2000000 /\
  Forall (clean_source (local_roots_of sources)) sources /\
  Forall (fun command => tool_available (fst (snd command)) = true /\
            exists out err, run_subprocess (fst (snd command)) (snd (snd command)) sources = Some (0, out, err))
    (tool_commands (sorted_str (map fst sources))).
Proof.
  unfold check_python_candidate. intros E Hp. apply bind_Ok in E as (u & Hsafe & E). apply raise_if_Ok in Hsafe.
  apply bind_Ok in E as (digest & _ & E). cbv zeta in E. fold (python_sources snapshot trusted_paths) in E. cbv zeta.
  set (sources := python_sources snapshot trusted_paths) in *. fold (local_roots_of sources) in E.
  destruct (_ || _) eqn:Ek in E; [by simplify_eq|]. apply orb_false_elim in Ek as [Ene Eother].
  destruct (_ || _) eqn:El in E; [by simplify_eq|]. apply orb_false_elim in El as [El1%Z.ltb_ge El2%Z.ltb_ge].
  set (ps := foldl _ _ sources) in E.
  destruct (p_syntax ps) as [|x l] eqn:Esyn; apply res_Ok_inj in E; subst report; unfold passed in Hp; cbn [checks app] in Hp.
  2: discriminate Hp.
  cbn [forallb] in Hp. apply andb_prop in Hp as [_ Hp]. apply andb_prop in Hp as [Hdep%problem_check_passed Hp].
  apply andb_prop in Hp as [Hint%problem_check_passed Htools].
  destruct (check_sources_clean _ _ _ (conj Esyn (conj Hdep Hint))) as [_ Hclean].
  split; [by destruct sources|]. split; [|split; [done|split; [done|split; [exact Hclean|]]]].
  - apply Forall_forall. intros f Hin. apply list_elem_of_In in Hin. split.
    + by apply (existsb_none _ _ _ Hsafe).
    + by apply (existsb_none _ _ _ Eother).
  - rewrite forallb_forall in Htools. apply Forall_forall. intros [name [tool arguments]] Hin.
    apply tool_passed. specialize (Htools _ (in_map _ _ _ (proj1 (list_elem_of_In _ _) Hin))). cbn [fst snd] in *.
    destruct (_run_tool tool arguments sources) as [status details]. exact Htools.
Qed.
End Reports.

(** ** The theorems at concrete inputs *)

(** Tools that find nothing to complain of. *)
Definition content_tools : PythonTools := {|
  ast_parse _ _ := inr []; tokenize_comments _ := ([], None); stdlib_module_names := [];
  tool_available _ := true; run_subprocess _ _ _ := Some (0, "", "")%string |}.

Section Demo.
Local Open Scope string_scope.
#[local] Existing Instance content_tools.

Definition demo_snapshot : list (string * string) := [("product.py", "x = 1"); ("notes.md", "text")].
Definition demo_report : PythonQualityReport :=
  match check_python_candidate demo_snapshot [] with
  | Ok r => r
  | Raise _ => {| profile := ""; candidate_digest := ""; checks := [] |}
  end.

Lemma passing_report_is_clean_witness :
  Forall (clean_source ["product"]) [("product.py", "x = 1")].
Proof.
  assert (E : check_python_candidate demo_snapshot [] = Ok demo_report) by (vm_compute; reflexivity).
  assert (Hp : passed demo_report = true) by (vm_compute; reflexivity).
  exact (proj1 (proj2 (proj2 (proj2 (proj2 (passing_report_is_clean demo_snapshot [] demo_report E Hp)))))).
Defined.

Definition approved_contract : list (string * json) :=
  [("contract_id", JStr "K-1"); ("contract_version", JStr "1"); ("contract_status", JStr "APPROVED");
   ("approved_by", JStr "ann"); ("approved_at", JStr "2026-01-01")].
Definition digest_or_empty (v : json) : string := match canonical_digest v with Ok d => d | Raise _ => "" end.
Definition unsigned_receipt : list (string * json) :=
  [("schema_version", JStr "1.0.0"); ("decision", JStr "APPROVED"); ("contract_id", JStr "K-1");
   ("contract_version", JStr "1"); ("approved_by", JStr "ann"); ("approved_at", JStr "2026-01-01");
   ("approved_contract_digest", JStr (digest_or_empty (JObj approved_contract)));
   ("draft_digest", JStr (digest_or_empty (JObj (reconstructed_draft approved_contract))))].
Definition demo_receipt : list (string * json) :=
  unsigned_receipt ++ [("receipt_digest", JStr (digest_or_empty (JObj unsigned_receipt)))].

Lemma approval_binds_contract_witness :
  strip " ann" = strip "ann " /\ jget "contract_status" approved_contract = JStr "APPROVED".
Proof.
  destruct (approval_binds_contract approved_contract approved_contract demo_receipt " ann" "ann "
              (digest_or_empty (JObj unsigned_receipt)) (digest_or_empty (JObj unsigned_receipt)))
    as (_ & Hs & _ & Hc & _); [vm_compute; reflexivity|vm_compute; reflexivity|].
  split; [exact Hs|exact Hc].
Defined.
End Demo.

(** * The engine's operations: theorems *)

(** ** The provider *)

Section Provider.
Context `{Rfc8785}.

Lemma account_usage_keeps response c r c' :
  account_usage response c = (r, c') -> calls c' = calls c /\ bytes c' = bytes c.
Proof.
  unfold account_usage. destruct (jget "usage" response); try (by intros [= <- <-]).
  unfold mbind, st_bind, get_st, lift_res, modify_st. intros E.
  repeat match type of E with
  | context [token_usage ?u ?k ?n] => destruct (token_usage u k n); cbn in E
  | context [cost_usage ?u ?x] => destruct (cost_usage u x); cbn in E
  end; by simplify_eq.
Qed.

Lemma account_model_keeps response c r c' :
  account_model response c = (r, c') -> calls c' = calls c /\ bytes c' = bytes c.
Proof.
  unfold account_model. destruct (jget "provider_metadata" response) as [| | | | | |m]; try (by intros [= <- <-]).
  destruct (jget "model" m) as [| | | |[|x s]| |]; by intros [= <- <-].
Qed.

(** A call to the provider counts against the budget before it is made,
    and an answer is used only when it passes every check: it is bound to the
    request by digest, shows no credential, and keeps the total output within
    the budget.  Without budget left the provider is not called at all. *)
Theorem invoke_bound_checked provider purpose request caps c :
  match _invoke_bound provider purpose request caps c with
  | (Ok response, c') =>
      calls c < max_model_calls caps /\ provider (calls c) purpose request = Ok response /\
      calls c' = calls c + 1 /\
      bytes c' = bytes c + Z.of_nat (String.length (json_dumps (JObj response))) /\
      bytes c' <= max_model_output_bytes caps /\
      _CREDENTIAL (json_dumps (JObj response)) = false /\
      py_eq (jget "request_digest" response) (jget "request_digest" request) = true
  | (Raise err, c') =>
      (max_model_calls caps <= calls c /\ c' = c /\ err = RuntimeError "MODEL_CALL_BUDGET_EXHAUSTED") \/
      (calls c < max_model_calls caps /\ calls c' = calls c + 1)
  end.
Proof.
  unfold _invoke_bound. unfold mbind at 1. unfold st_bind at 1, get_st at 1.
  destruct (max_model_calls caps <=? calls c) eqn:Eb; [apply Z.leb_le in Eb; left; auto|apply Z.leb_gt in Eb].
  match goal with |- match ?m c with _ => _ end => destruct (m c) as [r c'] eqn:E end.
  open_bind E; [|done]. revert E0. intros [= <- <-].
  open_bind E; [|revert E0; intros [= _ <-]; by right]. revert E0. intros [= E0 <-].
  destruct (_CREDENTIAL _) eqn:Ecred; [revert E; intros [= <- <-]; by right|].
  open_bind E; [|done]. revert E1. intros [= <- <-]. open_bind E; [|done]. revert E1. intros [= <- <-].
  destruct (max_model_output_bytes caps <? _) eqn:Eo; [revert E; intros [= <- <-]; by right|apply Z.ltb_ge in Eo].
  destruct (negb _) eqn:Ed; [revert E; intros [= <- <-]; by right|apply negb_false_iff in Ed].
  open_bind E; destruct (account_usage_keeps _ _ _ _ E1) as [Hc Hb]; [|right; split; [done|exact Hc]].
  open_bind E; destruct (account_model_keeps _ _ _ _ E2) as [Hc2 Hb2]; [|right; split; [done|by rewrite Hc2]].
  revert E. intros [= <- <-]. rewrite Hc2, Hb2, Hc, Hb. done.
Qed.
End Provider.

(** Whatever error a provider raises, the cause that is recorded and
    returned is a bare upper-case code and shows no credential: no text of the
    provider reaches the evidence. *)
Theorem classified_cause_is_a_code error :
  _PROVIDER_ERROR_CODE (_classify_provider_error error) = true /\
  _CREDENTIAL (_classify_provider_error error) = false.
Proof.
  unfold _classify_provider_error. destruct (is_OSError error); [by vm_compute|].
  destruct (_CREDENTIAL (exn_message error)) eqn:Ec; [by vm_compute|].
  destruct (_PROVIDER_ERROR_CODE (exn_message error)) eqn:Ep; [done|by vm_compute].
Qed.

(** ** Assertions *)

Section Assertions.
Context `{Rfc8785} `{Unicode} `{Regex}.

Lemma try_false_true m : try_except m is_TypeError_or_ReError (fun _ => Ok false) = Ok true <-> m = Ok true.
Proof. destruct m as [b|x]; simpl; [done|]. by destruct (is_TypeError_or_ReError x). Qed.

Lemma contains_present actual expected negate :
  contains actual expected negate = Ok true <->
  exists b, present_in expected actual = Ok (Some b) /\ b = negb negate.
Proof.
  unfold contains, present_in. destruct actual as [| | | |s|items|m]; try (split; [done|naive_solver]).
  - destruct expected; try (split; [done|naive_solver]). destruct negate, (contains_str _ _); naive_solver.
  - destruct (res_any _ items) as [b|x]; simpl; [|naive_solver]. destruct negate, b; naive_solver.
  - destruct expected; try (split; [done|naive_solver]). destruct negate, (has_key _ _); naive_solver.
Qed.

(** At run time an assertion passes on a value exactly when the value at
    its path satisfies it in the sense of the compiler, the sense in which
    contradictory assertions were refused. *)
Theorem passes_iff_satisfies assertion v :
  _assertion_passes assertion v = Ok true <->
  exists actual, _path v (pa_path assertion) = Some actual /\ _literal_satisfies assertion actual = Ok true.
Proof.
  unfold _assertion_passes. destruct (_path v (pa_path assertion)) as [actual|]; [|naive_solver].
  transitivity (_literal_satisfies assertion actual = Ok true); [|naive_solver].
  unfold _literal_satisfies, ordered, matches. destruct (pa_operator assertion); cbn [bool_decide];
    rewrite ?try_false_true; try done;
    try (destruct (_ordered_comparison _ _ _) as [[]|]; naive_solver).
  - rewrite contains_present. destruct (present_in _ _) as [[[]|]|]; naive_solver.
  - rewrite contains_present. destruct (present_in _ _) as [[[]|]|]; naive_solver.
  - destruct actual; try done. destruct (pa_value assertion) as [| | | |p| |]; simpl; try done.
Qed.
End Assertions.

(** ** Writing files *)

(** The file at [p] holds [content], or text that reads as [content]. *)
Definition holds (files : workspace) (p content : string) : Prop :=
  exists payload, files !! p = Some payload /\ (payload = content \/ read_text payload = Ok content).

Lemma write_text_Ok p content w u w' : write_text p content w = (Ok u, w') -> w' !! p = Some content.
Proof.
  unfold write_text. destruct (utf8_valid _ _); [|intros E; by open_ok E].
  unfold write_bytes. destruct (make_parents w p); [|done]. destruct (is_directory w p); [done|].
  intros E. apply (f_equal snd) in E. simpl in E. subst. by rewrite lookup_insert_eq.
Qed.

Lemma write_each_Ok items : forall w changed w',
  NoDup (map fst items) -> write_each items w = (Ok changed, w') ->
  Forall (fun f => is_safe_relative f.1 = true /\ exists content, f.2 = JStr content /\ holds w' f.1 content) items /\
  (forall p, p ∈ changed -> p ∈ map fst items) /\
  (forall p, p ∉ changed -> w' !! p = w !! p).
Proof.
  induction items as [|[p v] items IH]; intros w changed w' Hnd E.
  { revert E. intros [= <- <-]. split; [constructor|]. split; [done|done]. }
  apply NoDup_cons in Hnd as [Hp Hnd]. cbn [write_each] in E.
  destruct v as [| | | |content| |]; try done.
  open_ok E. revert E0. intros [= E0 <-].
  assert (Hsafe : is_safe_relative p = true) by (unfold _safe_path in E0; by destruct (is_safe_relative p)).
  apply safe_path_Ok in E0 as ->.
  open_ok E. injection E0 as <- <-. open_ok E. injection E0 as Eb <-.
  destruct (bool_decide _) eqn:Ed.
  - apply bool_decide_eq_true in Ed as ->. destruct (IH _ _ _ Hnd E) as (Hall & Hin & Hout).
    split; [|split; [set_solver|done]]. constructor; [|done]. split; [done|]. exists content. split; [done|].
    destruct (w !! p) as [payload|] eqn:Ew; [|done]. exists payload. simpl in Eb. simp_res. split; [|by right; simplify_eq].
    rewrite <- Ew. eapply write_each_elsewhere; [exact E|done].
  - open_ok E. open_ok E. revert E. intros [= <- <-].
    destruct (IH _ _ _ Hnd E1) as (Hall & Hin & Hout). pose proof (write_text_Ok _ _ _ _ _ E0) as Hw.
    split; [|split; [set_solver|]].
    + constructor; [|done]. split; [done|]. exists content. split; [done|]. exists content. split; [|by left].
      rewrite <- Hw. eapply write_each_elsewhere; [exact E1|done].
    + intros q [Hq Hq']%not_elem_of_cons. rewrite (Hout q Hq'). by eapply write_text_elsewhere.
Qed.

(** [_write_files] writes what it is given: when it returns, every path was
    safe, its file holds the content, and only the paths it reports as changed
    differ from before.  When it raises, it has touched no other path. *)
Theorem write_files_writes items files :
  NoDup (map fst items) ->
  match _write_files items files with
  | (Ok changed, files') =>
      Forall (fun f => is_safe_relative f.1 = true /\ exists content, f.2 = JStr content /\ holds files' f.1 content) items /\
      (forall p, p ∈ changed -> p ∈ map fst items) /\
      (forall p, p ∉ changed -> files' !! p = files !! p)
  | (Raise _, files') => forall p, p ∉ map fst items -> files' !! p = files !! p
  end.
Proof.
  intros Hnd. destruct (_write_files items files) as [[changed|x] files'] eqn:E.
  - apply write_each_Ok in E as (Hall & Hin & Hout); [|by rewrite sorted_items_perm].
    split; [by rewrite sorted_items_perm in Hall|]. split; [|done]. intros p Hp. apply sorted_items_fst. auto.
  - intros p Hp. by eapply write_files_elsewhere.
Qed.

Lemma write_files_writes_witness :
  holds (snd (_write_files [("b.py", JStr "1"); ("a/c.py", JStr "2")]%string ∅)) "a/c.py" "2".
Proof.
  pose proof (write_files_writes [("b.py", JStr "1"); ("a/c.py", JStr "2")]%string ∅ ltac:(decide_now)) as Hw.
  destruct (_write_files [("b.py", JStr "1"); ("a/c.py", JStr "2")]%string ∅) as [[changed|x] files] eqn:E.
  - destruct Hw as [Hall _]. apply Forall_cons in Hall as [_ [(_ & content & [= <-] & Hh) _]%Forall_cons]. exact Hh.
  - exfalso. apply (f_equal fst) in E. vm_compute in E. discriminate.
Defined.
