(* ===== verification/RunDemo.v ===== *)
(** * A concrete run

    A provider, a sandbox and tools given as functions, and the runs they make:
    the theorems of the run at a concrete input, and a run that an answer of
    the coder ends without a terminal event. *)
From Stdlib Require Import SpecFloat Ascii String.
From S2P Require Import Prelude Sha256 Json JsonText PyStr Canonical JsonSpec Ledger LedgerFacts Acceptance.
From S2P Require Import AcceptanceTheorems Quality Drift Approval Barebones Engine Run RunFacts RunStages.
From S2P Require Import RunTheorems CheckTheorems.

#[local] Existing Instance literal_regex.
#[local] Existing Instance ascii_unicode.

#[local] Existing Instance content_tools.

Section Demo.
Local Open Scope string_scope.

Definition line (s : string) : string := s +:+ new_line.
Definition product (status : string) : string := line ("def health(): return '" +:+ status +:+ "'").

Definition demo_template : Template := {|
  version := "demo-1";
  files := [("product.py", product "todo"); ("tests/test_base.py", line "def test_base(): pass")];
  actions := [("health", "product:health")];
  context := [("service", JObj [("running", JBool true)])];
  proofs := [("base", {| tt_path := "tests/test_base.py"; tt_node_id := "test_base";
                         tt_command := ["python"; "-m"; "pytest"; "tests/test_base.py::test_base"] |})];
  measures := [] |}.

Definition demo_run_contract : list (string * json) :=
  [("functional_requirements", JArr [JObj [("id", JStr "R1")]]);
   ("acceptance_criteria", JArr [
      JObj [("id", JStr "C1"); ("requirement", JStr "R1");
            ("given", JArr [demo_assertion "service.running" "is_true" JNull]);
            ("when", JObj [("action", JStr "health")]);
            ("then", JArr [demo_assertion "result" "eq" (JStr "ok")])];
      JObj [("id", JStr "C2"); ("requirement", JStr "R1");
            ("satisfied_by_template", JObj [("template_version", JStr "demo-1"); ("test_id", JStr "base")])]])].

(** The action prints the status that [product.py] returns; pytest reports a
    passing test. *)
Definition demo_sandbox : sandbox_run := fun _ files argv _ _ =>
  let out := if str_in action_runner argv
             then (if contains_str "'ok'" (default "" (files !! "product.py")) then json_dumps (JStr "ok")
                   else json_dumps (JStr "todo"))
             else _PYTEST_RESULT_PREFIX +:+ json_dumps (JObj
                    [("code", JInt 0);
                     ("reports", JObj [("tests/test_base.py::test_base", JObj [("outcome", JStr "passed")])]);
                     ("writes", JArr [])]) in
  (Ok {| returncode := 0; stdout := line out; stderr := "" |}, files).

(** The coder answers with [written]; the reviewer has no remarks. *)
Definition demo_provider (written : list (string * string)) (_ : Z) (purpose : string)
    (request : list (string * json)) : res (list (string * json)) :=
  Ok (("request_digest", jget "request_digest" request) ::
      if String.eqb purpose "code" then [("files", JObj (map (fun f => (fst f, JStr (snd f))) written))]
      else [("summary", JStr "fine")]).

Definition demo_env (written : list (string * string)) : env := {|
  invoke := demo_provider written; stop_requested _ := false; clock_ms n := Z.of_nat n;
  candidate_sandbox := demo_sandbox; python := "/usr/bin/python3";
  repository_at_compile _ := None; repository_at_check _ := None; repository_at_copy _ := None;
  workspace_path := {| is_absolute := true; segments := ["work"] |}; workspace_resolved := ["work"];
  overlaps_evidence := false; workspace_occupied := false; other_writers m := m |}.

Definition demo_arguments : run_arguments := {|
  contract := demo_run_contract; requested_run_id := "run-1"; template := Some demo_template; budget := None;
  approval := no_approval; enforce_quality := true |}.

Definition empty_store : store := {| events_file := None; blobs := ∅ |}.
Abbreviation demo_run written :=
  (run_to_release_ready (demo_env written) demo_arguments (initial empty_store)).

(** The coder writes the product, or two files of which one is the other's
    directory. *)
Definition written_product : list (string * string) := [("product.py", product "ok")].
Definition written_conflict : list (string * string) := [("a", "x"); ("a/b", "y")].

Lemma demo_releases :
  exists res w, demo_run written_product = (Ok res, w) /\ result_state res = RELEASE_READY.
Proof.
  assert (E : match demo_run written_product with (Ok res, _) => bool_decide (result_state res = RELEASE_READY)
                                               | _ => false end = true) by (vm_compute; reflexivity).
  destruct (demo_run written_product) as [[res|x] w]; [|discriminate]. exists res, w.
  split; [reflexivity|]. by apply bool_decide_eq_true in E.
Qed.

Lemma demo_conflicts :
  exists w, demo_run written_conflict = (Raise (FileExistsError "a"), w) /\ events_file (evidence w) <> None.
Proof.
  assert (E : match demo_run written_conflict with
              | (Raise (FileExistsError p), w) => String.eqb p "a" && bool_decide (events_file (evidence w) <> None)
              | _ => false end = true) by (vm_compute; reflexivity).
  destruct (demo_run written_conflict) as [[res|x] w]; [discriminate|]. exists w.
  destruct x; try discriminate. apply andb_prop in E as [Ep%String.eqb_eq Ee%bool_decide_eq_true].
  subst. split; [reflexivity|exact Ee].
Qed.

Lemma run_walks_the_machine_witness :
  exists w subject tr,
    demo_run written_conflict = (Raise (FileExistsError "a"), w) /\
    run_recorded demo_arguments subject empty_store tr w /\
    Forall (fun en => is_terminal (en_state en) = false) tr.
Proof.
  destruct demo_conflicts as (w & E & Ev).
  destruct (run_walks_the_machine _ _ _ _ _ E) as [[_ He]|(subject & tr & _ & Hr & _ & Ht)].
  - exfalso. apply Ev. rewrite He. reflexivity.
  - exists w, subject, tr. split; [exact E|]. by split.
Defined.

Lemma run_within_budget_witness :
  exists res w, demo_run written_product = (Ok res, w) /\
    0 <= result_model_calls res <= 8 /\ 1 <= result_attempts res <= 3.
Proof.
  destruct demo_releases as (res & w & E & Hs). exists res, w. split; [exact E|].
  destruct (run_within_budget _ _ _ _ _ E) as (Hc & Ha & Hr & _). split; [exact Hc|].
  split; [exact (Hr Hs)|exact (proj2 Ha)].
Defined.

Lemma release_is_verified_witness :
  exists res w plan runs runs', demo_run written_product = (Ok res, w) /\
    _verify_snapshot demo_sandbox "/usr/bin/python3" plan (ws w) demo_template runs = (Ok [], runs').
Proof.
  destruct demo_releases as (res & w & E & Hs). exists res, w.
  destruct (release_is_verified _ _ _ _ _ E Hs) as (_ & plan & _ & _ & _ & _ & _ & _ & _ & _ & (n & n' & Hv) & _).
  exists plan, n, n'. split; [exact E|exact Hv].
Defined.

Lemma evidence_is_protected_witness :
  exists res w (files : workspace), demo_run written_product = (Ok res, w) /\
    ws w !! "tests/test_base.py" = files !! "tests/test_base.py".
Proof.
  destruct demo_releases as (res & w & E & Hs). exists res, w.
  destruct (evidence_is_protected _ _ _ _ _ E) as (plan & subject & pt & files & _ & _ & _ & Hp & Hf & _).
  - left. rewrite Hs. discriminate.
  - exists files. split; [exact E|]. apply Hf.
    apply (pr_proofs _ _ _ _ Hp "base" {| tt_path := "tests/test_base.py"; tt_node_id := "test_base";
             tt_command := ["python"; "-m"; "pytest"; "tests/test_base.py::test_base"] |}).
    apply list_elem_of_here.
Defined.

(** An answer of the coder can end a run without a terminal event: when it
    names a file and, below it, a second one, the [FileExistsError] of the
    second directory is none of the errors that the run turns into [HALTED];
    the log, which verifies, stops in [BUILDING]. *)
Theorem conflicting_files_leave_no_terminal_event :
  match demo_run written_conflict with
  | (r, w) =>
      r = Raise (FileExistsError "a") /\
      match verify (writer "run-1") (evidence w) with
      | Ok events => map (jget "state") events = [JStr "VALIDATED"; JStr "BUILDING"]
      | Raise _ => False
      end
  end.
Proof. vm_compute. split; reflexivity. Qed.
End Demo.
