(* ===== verification/Lifecycle.v ===== *)
(** * The lifecycle: states, rules, policies ([orchestration/lifecycle.py])

    A policy is a table of transition rules; the control plane admits a
    transition only under the one rule for its source, target and reason.  A
    [frozenset] of guards is the sorted list of its members. *)
From Stdlib Require Import Ascii String.
From S2P Require Import Prelude Sha256 Json JsonText PyStr.

Inductive LifecycleState : Type :=
  | CONTRACT_RECEIVED | CONTRACT_INVALID | PRODUCT_INPUT_REQUIRED | CONTRACT_APPROVED
  | REPOSITORY_ANALYSED | ARCHITECTURE_PROPOSED | ARCHITECTURE_APPROVED
  | TEST_PLAN_CREATED | TEST_PLAN_VALIDATED | IMPLEMENTATION_PLANNED
  | DRAFT_PR_OPEN | IMPLEMENTATION_IN_PROGRESS | VERIFICATION_FAILED | REPAIR_IN_PROGRESS
  | REVIEW_REQUIRED | REVIEW_FAILED | PR_READY | PR_MERGED
  | STAGING_DEPLOYED | STAGING_FAILED | CANARY_DEPLOYED | CANARY_FAILED
  | PRODUCTION_APPROVAL_REQUIRED | PRODUCTION_DEPLOYED | LIVE_VERIFICATION_FAILED
  | ROLLBACK_IN_PROGRESS | ROLLED_BACK | BLOCKED | BUDGET_EXCEEDED | COMPLETED.
#[export] Instance LifecycleState_eq_dec : EqDecision LifecycleState.
Proof. solve_decision. Defined.

Definition all_states : list LifecycleState :=
  [CONTRACT_RECEIVED; CONTRACT_INVALID; PRODUCT_INPUT_REQUIRED; CONTRACT_APPROVED;
   REPOSITORY_ANALYSED; ARCHITECTURE_PROPOSED; ARCHITECTURE_APPROVED;
   TEST_PLAN_CREATED; TEST_PLAN_VALIDATED; IMPLEMENTATION_PLANNED;
   DRAFT_PR_OPEN; IMPLEMENTATION_IN_PROGRESS; VERIFICATION_FAILED; REPAIR_IN_PROGRESS;
   REVIEW_REQUIRED; REVIEW_FAILED; PR_READY; PR_MERGED;
   STAGING_DEPLOYED; STAGING_FAILED; CANARY_DEPLOYED; CANARY_FAILED;
   PRODUCTION_APPROVAL_REQUIRED; PRODUCTION_DEPLOYED; LIVE_VERIFICATION_FAILED;
   ROLLBACK_IN_PROGRESS; ROLLED_BACK; BLOCKED; BUDGET_EXCEEDED; COMPLETED].

(** [state.value]. *)
Definition lifecycle_value (s : LifecycleState) : string :=
  match s with
  | CONTRACT_RECEIVED => "CONTRACT_RECEIVED" | CONTRACT_INVALID => "CONTRACT_INVALID"
  | PRODUCT_INPUT_REQUIRED => "PRODUCT_INPUT_REQUIRED" | CONTRACT_APPROVED => "CONTRACT_APPROVED"
  | REPOSITORY_ANALYSED => "REPOSITORY_ANALYSED" | ARCHITECTURE_PROPOSED => "ARCHITECTURE_PROPOSED"
  | ARCHITECTURE_APPROVED => "ARCHITECTURE_APPROVED" | TEST_PLAN_CREATED => "TEST_PLAN_CREATED"
  | TEST_PLAN_VALIDATED => "TEST_PLAN_VALIDATED" | IMPLEMENTATION_PLANNED => "IMPLEMENTATION_PLANNED"
  | DRAFT_PR_OPEN => "DRAFT_PR_OPEN" | IMPLEMENTATION_IN_PROGRESS => "IMPLEMENTATION_IN_PROGRESS"
  | VERIFICATION_FAILED => "VERIFICATION_FAILED" | REPAIR_IN_PROGRESS => "REPAIR_IN_PROGRESS"
  | REVIEW_REQUIRED => "REVIEW_REQUIRED" | REVIEW_FAILED => "REVIEW_FAILED" | PR_READY => "PR_READY"
  | PR_MERGED => "PR_MERGED" | STAGING_DEPLOYED => "STAGING_DEPLOYED" | STAGING_FAILED => "STAGING_FAILED"
  | CANARY_DEPLOYED => "CANARY_DEPLOYED" | CANARY_FAILED => "CANARY_FAILED"
  | PRODUCTION_APPROVAL_REQUIRED => "PRODUCTION_APPROVAL_REQUIRED"
  | PRODUCTION_DEPLOYED => "PRODUCTION_DEPLOYED" | LIVE_VERIFICATION_FAILED => "LIVE_VERIFICATION_FAILED"
  | ROLLBACK_IN_PROGRESS => "ROLLBACK_IN_PROGRESS" | ROLLED_BACK => "ROLLED_BACK" | BLOCKED => "BLOCKED"
  | BUDGET_EXCEEDED => "BUDGET_EXCEEDED" | COMPLETED => "COMPLETED"
  end.

Record TransitionRule : Type := {
  source : LifecycleState;
  target : LifecycleState;
  reason : string;
  required_evidence : list string;
  guards : list string;
  permission : string;
  mutation_action : option string
}.
#[export] Instance TransitionRule_eq_dec : EqDecision TransitionRule.
Proof. solve_decision. Defined.

(** [_digest]: the digest of a value's compact JSON text with sorted keys. *)
Definition _digest (value : json) : string := sha256_digest (json_dumps value).

(** Evidence: names with their values; [evidence.get(name, "")]. *)
Abbreviation evidence_map := (gmap string string).
Definition got (name : string) (evidence : evidence_map) : string := default ""%string (evidence !! name).

(** ** Mutation subjects *)

Definition _PRODUCTION_APPROVAL_SCOPE_FIELDS : list string :=
  ["subject_digest"; "merge_commit_sha"; "merge_digest"; "artifact_digest"; "configuration_digest";
   "migration_plan_digest"; "deployment_target_digest"; "rollout_plan_digest"; "staging_digest";
   "canary_id_digest"; "canary_attempt_digest"; "canary_status_digest"]%string.
Definition _CANARY_ROLLOUT_SUBJECT_FIELDS : list string :=
  ["subject_digest"; "merge_commit_sha"; "merge_digest"; "artifact_digest"; "configuration_digest";
   "migration_plan_digest"; "deployment_target_digest"; "rollout_plan_digest"; "staging_digest"]%string.

(** [{name: evidence.get(name, "") for name in fields}]. *)
Definition selected (fields : list string) (evidence : evidence_map) : json :=
  JObj (map (fun name => (name, JStr (got name evidence))) (dict_fromkeys fields)).

Definition _production_approval_scope_digest (evidence : evidence_map) : string :=
  _digest (selected _PRODUCTION_APPROVAL_SCOPE_FIELDS evidence).

Abbreviation schema := (list (string * list string)).

Definition _MUTATION_SUBJECT_FIELDS : schema :=
  [("open_draft_pr",
    ["subject_digest"; "issue_digest"; "branch_digest"; "red_commit_digest"; "draft_pr_digest"]);
   ("mark_pr_ready",
    ["subject_digest"; "reviewed_commit_sha"; "prospective_tree_digest"; "verification_bundle_digest";
     "review_digest"]);
   ("enqueue_merge",
    ["subject_digest"; "queue_subject_digest"; "head_commit_sha"; "head_digest"; "base_digest";
     "prospective_tree_digest"; "required_checks_digest"; "formal_review_digest";
     "verification_bundle_digest"; "merge_admission_bundle_digest"]);
   ("deploy_staging",
    ["subject_digest"; "merge_digest"; "evidence_bundle_digest"; "artifact_digest"; "configuration_digest";
     "deployment_target_digest"; "staging_authorization_digest"; "finding_source_set_digest";
     "finding_inventory_epochs_digest"; "authority_fence_digest"]);
   ("deploy_canary",
    (_CANARY_ROLLOUT_SUBJECT_FIELDS
     ++ ["canary_authorization_digest"; "canary_id_digest"; "authority_fence_digest"])%list);
   ("deploy_production",
    (_PRODUCTION_APPROVAL_SCOPE_FIELDS ++ ["authority_fence_digest"; "production_approval_digest"])%list);
   ("convert_pr_to_draft", ["subject_digest"; "finding_digest"; "ready_revocation_observation_digest"]);
   ("cleanup_staging", ["subject_digest"; "zero_resource_digest"]);
   ("rollback",
    ["subject_digest"; "failed_deployment_digest"; "restoration_target_digest"; "migration_plan_digest"]);
   ("teardown_canary", ["subject_digest"; "canary_teardown_digest"; "zero_resource_digest"])]%string.

Definition fields_of (schemas : schema) (action : option string) : list string :=
  default [] (assoc (default ""%string action) schemas).

Definition mutation_subject_digest `{Unicode} (action : string) (evidence : evidence_map)
    (schemas : schema) : res string :=
  match assoc action schemas with
  | None => Raise (ValueError ("mutation action " +:+ py_repr (JStr action) +:+ " has no exact-subject binding"))
  | Some fields => Ok (_digest (selected fields evidence))
  end.

(** ** Malformed evidence *)

Definition is_sha256 (s : string) : bool :=
  let hex := drop_str 7 s in
  startswith s "sha256:" && Nat.eqb (String.length hex) 64 && string_forallb is_hex hex.
Definition is_git_sha (s : string) : bool :=
  (Nat.eqb (String.length s) 40 || Nat.eqb (String.length s) 64) && string_forallb is_hex s.

Definition malformed_field (evidence : evidence_map) (name : string) : bool :=
  let v := got name evidence in
  if endswith name "_sha" then negb (is_git_sha v)
  else endswith name "_digest" && negb (is_sha256 v).
Definition _malformed_evidence (evidence : evidence_map) (names : list string) : list string :=
  sorted_str (List.filter (malformed_field evidence) names).

(** ** Policies *)

Record LifecyclePolicy : Type := {
  policy_version : string;
  rules : list TransitionRule;
  mutation_subject_fields : schema;
  mutation_subject_field_variants : list (string * list (list string));
  policy_digest : string
}.

Definition JStrs (l : list string) : json := JArr (map JStr l).
Definition rule_payload (version : string) (schemas : schema) (r : TransitionRule) : json :=
  JObj ([("source", JStr (lifecycle_value (source r))); ("target", JStr (lifecycle_value (target r)));
         ("reason", JStr (reason r)); ("required_evidence", JStrs (required_evidence r));
         ("guards", JStrs (guards r)); ("permission", JStr (permission r));
         ("mutation_action", match mutation_action r with Some m => JStr m | None => JNull end)]%string
        ++ (if String.eqb version "phase-zero-v1" then []
            else [("mutation_subject_fields"%string, JStrs (fields_of schemas (mutation_action r)))])).
Definition policy_payload (version : string) (schemas : schema) (l : list TransitionRule) : json :=
  JObj [("version", JStr version); ("rules", JArr (map (rule_payload version schemas) l))]%string.

Definition rule_key (r : TransitionRule) : LifecycleState * LifecycleState * string :=
  (source r, target r, reason r).

(** [LifecyclePolicy(version, rules, fields, variants)]. *)
Definition new_policy (version : string) (l : list TransitionRule) (fields : schema)
    (variants : option (list (string * list (list string)))) : res LifecyclePolicy :=
  if negb (bool_decide (NoDup (map rule_key l)))
  then Raise (ValueError "lifecycle policy contains a duplicate rule")
  else Ok {|
    policy_version := version; rules := l; mutation_subject_fields := fields;
    mutation_subject_field_variants :=
      match variants with
      | Some ((_ :: _) as vs) => vs
      | _ => map (fun p => (fst p, [snd p])) fields
      end;
    policy_digest := _digest (policy_payload version fields l)
  |}.

Definition matches_rule (from to : LifecycleState) (why : string) (r : TransitionRule) : bool :=
  bool_decide (source r = from) && bool_decide (target r = to) && String.eqb (reason r) why.

(** [policy.rule] and [policy.rules_from]. *)
Definition rule (p : LifecyclePolicy) (from to : LifecycleState) (why : string) : res TransitionRule :=
  match List.filter (matches_rule from to why) (rules p) with
  | [r] => Ok r
  | _ => Raise (TransitionDeniedError ("illegal transition " +:+ lifecycle_value from +:+ " -> "
                                       +:+ lifecycle_value to +:+ " (" +:+ why +:+ ")"))
  end.
Definition rules_from (p : LifecyclePolicy) (state : LifecycleState) : list TransitionRule :=
  List.filter (fun r => bool_decide (source r = state)) (rules p).

(** [_policy_payload], which takes the fields of the current schema. *)
Definition _policy_payload (p : LifecyclePolicy) : json :=
  policy_payload (policy_version p) _MUTATION_SUBJECT_FIELDS (rules p).

(** ** Rules *)

Definition has_guard (g : string) (l : list string) : bool := str_in g l.

Definition guard_evidence (guards_ : list string) (mutation : option string) : list string :=
  let stop_evidence :=
    ["work_disposition_digest"; "worker_quiescence_digest"; "mutation_revocation_digest"]%string in
  (if has_guard "drift" guards_ then stop_evidence ++ ["review_invalidation_digest"%string] else [])
  ++ (if has_guard "product_input" guards_ then stop_evidence else [])
  ++ (if has_guard "budget_stop" guards_ then stop_evidence else [])
  ++ (if has_guard "revoke_completion" guards_
      then ["subject_digest"; "monitor_identity_digest"; "monitor_authentication_evidence_digest";
            "integrity_monitor_id"; "integrity_monitor_authority_digest";
            "integrity_monitor_authentication_evidence_digest"]%string
      else [])
  ++ (if bool_decide (mutation = Some "rollback"%string)
      then fields_of _MUTATION_SUBJECT_FIELDS (Some "rollback"%string) else []).

Definition _r (from to : LifecycleState) (why : string) (evidence guards_ : list string)
    (mutation : option string) : TransitionRule := {|
  source := from; target := to; reason := why;
  required_evidence := dict_fromkeys (evidence ++ guard_evidence guards_ mutation);
  guards := sorted_set guards_; permission := "lifecycle.transition"; mutation_action := mutation
|}.

(** The default of the parameter [evidence]. *)
Definition default_evidence : list string := ["subject_digest"; "evidence_bundle_digest"]%string.

(** ** Migration of the states of the releases before *)

Record MigrationResult : Type := {
  migrated_state : LifecycleState; source_version : json; source_stage : string; migration_digest : string }.
