(* ===== verification/LifecycleRules.v ===== *)
(** * The tables of the lifecycle ([orchestration/lifecycle.py])

    The transition rules and the two policies built from them, phase zero and
    phase four, rule by rule as the module lists them. *)
From Stdlib Require Import Ascii String.
From S2P Require Import Prelude Sha256 Json JsonText PyStr Lifecycle.

Definition _FORWARD : list string := ["authority"; "budget"]%string.
Definition _STOP : list string := ["safe_stop"]%string.
Definition _MUTATION : list string := ["authority"; "budget"; "mutation"]%string.
Definition _SAFETY : list string := ["safety"; "mutation"]%string.

(** Rules from [CONTRACT_RECEIVED], [CONTRACT_INVALID], [PRODUCT_INPUT_REQUIRED], [CONTRACT_APPROVED],
    [REPOSITORY_ANALYSED], [ARCHITECTURE_PROPOSED], [ARCHITECTURE_APPROVED], [TEST_PLAN_CREATED],
    [TEST_PLAN_VALIDATED], [IMPLEMENTATION_PLANNED]. *)
Definition _RULES_1 : list TransitionRule := [
  _r CONTRACT_RECEIVED CONTRACT_INVALID "contract_rejected"
    ["intake_receipt_digest"; "diagnostic_digest"; "deletion_attestation_digest"] [] None;
  _r CONTRACT_RECEIVED BLOCKED "quarantine_disposition_indeterminate"
    ["subject_digest"; "intake_receipt_digest"; "affected_artifact_digest"; "quarantine_disposition_status";
     "quarantine_disposition_digest"; "exposure_digest"; "incident_digest"; "worker_quiescence_digest";
     "mutation_revocation_digest"; "retry_gate_digest"]
    ["security_incident_block"] None;
  _r CONTRACT_INVALID CONTRACT_RECEIVED "corrected_contract"
    ["correction_receipt_digest"; "lineage_digest"; "disposition_digest"] [] None;
  _r CONTRACT_RECEIVED PRODUCT_INPUT_REQUIRED "product_truth_missing"
    ["intake_receipt_digest"; "diagnostic_digest"; "input_request_digest"] ["safe_stop"] None;
  _r PRODUCT_INPUT_REQUIRED CONTRACT_RECEIVED "superseding_contract"
    ["correction_receipt_digest"; "approval_digest"; "work_disposition_digest"] [] None;
  _r CONTRACT_RECEIVED CONTRACT_APPROVED "contract_admitted"
    ["intake_receipt_digest"; "contract_digest"; "approval_digest"; "admission_digest"] _FORWARD None;
  _r CONTRACT_APPROVED REPOSITORY_ANALYSED "repository_admitted"
    ["contract_digest"; "snapshot_digest"; "governance_digest"] _FORWARD None;
  _r CONTRACT_APPROVED BLOCKED "repository_unavailable" ["blocker_digest"; "resume_gate_digest"] _STOP None;
  _r REPOSITORY_ANALYSED ARCHITECTURE_PROPOSED "architecture_compiled"
    ["snapshot_digest"; "governance_digest"; "architecture_pack_digest"] _FORWARD None;
  _r ARCHITECTURE_PROPOSED PRODUCT_INPUT_REQUIRED "architecture_input_missing"
    ["architecture_attempt_digest"; "input_request_digest"] _STOP None;
  _r ARCHITECTURE_PROPOSED ARCHITECTURE_APPROVED "architecture_approved"
    ["architecture_pack_digest"; "engineering_approval_digest"] _FORWARD None;
  _r ARCHITECTURE_APPROVED TEST_PLAN_CREATED "test_plan_compiled"
    ["architecture_pack_digest"; "test_plan_digest"] _FORWARD None;
  _r ARCHITECTURE_APPROVED PRODUCT_INPUT_REQUIRED "test_oracle_missing"
    ["compiler_diagnostic_digest"; "input_request_digest"] _STOP None;
  _r TEST_PLAN_CREATED TEST_PLAN_VALIDATED "test_plan_validated"
    ["test_plan_digest"; "coverage_matrix_digest"; "meaningful_red_plan_digest"] _FORWARD None;
  _r TEST_PLAN_CREATED PRODUCT_INPUT_REQUIRED "test_oracle_missing"
    ["unmapped_requirements_digest"; "input_request_digest"] _STOP None;
  _r TEST_PLAN_VALIDATED IMPLEMENTATION_PLANNED "implementation_planned"
    ["test_plan_digest"; "task_plan_digest"; "atomic_scope_digest"] _FORWARD None;
  _r IMPLEMENTATION_PLANNED DRAFT_PR_OPEN "draft_pr_admitted"
    ["governance_attempt_digest"; "issue_digest"; "branch_digest"; "red_commit_digest"; "draft_pr_digest";
     "governance_observation_digest"]
    ["authority"; "budget"; "mutation"] (Some "open_draft_pr")
]%string.

(** Rules from [DRAFT_PR_OPEN], [IMPLEMENTATION_IN_PROGRESS], [VERIFICATION_FAILED], [REPAIR_IN_PROGRESS]. *)
Definition _RULES_2 : list TransitionRule := [
  _r DRAFT_PR_OPEN IMPLEMENTATION_IN_PROGRESS "begin_work"
    ["draft_pr_digest"; "meaningful_red_digest"; "budget_ledger_digest"; "worktree_digest"] _FORWARD None;
  _r DRAFT_PR_OPEN BUDGET_EXCEEDED "delivery_budget_exhausted"
    ["budget_ledger_digest"; "zero_implementation_digest"; "worktree_disposition_digest"; "resume_gate_digest"]
    ["budget_stop"] None;
  _r DRAFT_PR_OPEN PRODUCT_INPUT_REQUIRED "meaningful_red_needs_product_truth"
    ["meaningful_red_digest"; "pre_code_tree_digest"; "input_request_digest"] ["product_input"] None;
  _r IMPLEMENTATION_IN_PROGRESS VERIFICATION_FAILED "candidate_ready_for_verification"
    ["candidate_digest"; "test_execution_digest"] _FORWARD None;
  _r IMPLEMENTATION_IN_PROGRESS REVIEW_REQUIRED "verification_passed"
    ["candidate_digest"; "verification_bundle_digest"] _FORWARD None;
  _r IMPLEMENTATION_IN_PROGRESS BUDGET_EXCEEDED "delivery_budget_exhausted"
    ["budget_ledger_digest"; "worker_stop_digest"; "partial_tree_digest"; "worktree_disposition_digest"]
    ["budget_stop"] None;
  _r IMPLEMENTATION_IN_PROGRESS PRODUCT_INPUT_REQUIRED "product_truth_missing"
    ["worker_stop_digest"; "partial_tree_digest"; "input_request_digest"] ["product_input"] None;
  _r VERIFICATION_FAILED REPAIR_IN_PROGRESS "accepted_finding"
    ["finding_digest"; "candidate_digest"; "repair_scope_digest"] ["authority"; "budget"; "repair"] None;
  _r VERIFICATION_FAILED REVIEW_REQUIRED "verification_rerun_passed"
    ["candidate_digest"; "verification_bundle_digest"] _FORWARD None;
  _r VERIFICATION_FAILED BUDGET_EXCEEDED "verification_budget_exhausted"
    ["budget_ledger_digest"; "resume_gate_digest"] ["budget_stop"] None;
  _r VERIFICATION_FAILED PRODUCT_INPUT_REQUIRED "product_truth_missing"
    ["verification_digest"; "input_request_digest"] ["product_input"] None;
  _r VERIFICATION_FAILED BLOCKED "verification_infrastructure_missing"
    ["blocker_digest"; "safe_state_digest"] _STOP None;
  _r REPAIR_IN_PROGRESS VERIFICATION_FAILED "repair_candidate_ready"
    ["repair_digest"; "candidate_digest"] _FORWARD None;
  _r REPAIR_IN_PROGRESS REVIEW_REQUIRED "repair_verified"
    ["repair_digest"; "verification_bundle_digest"] _FORWARD None;
  _r REPAIR_IN_PROGRESS BUDGET_EXCEEDED "delivery_budget_exhausted"
    ["budget_ledger_digest"; "worker_stop_digest"; "partial_tree_digest"; "worktree_disposition_digest"]
    ["budget_stop"] None;
  _r REPAIR_IN_PROGRESS PRODUCT_INPUT_REQUIRED "product_truth_missing"
    ["worker_stop_digest"; "repair_disposition_digest"; "input_request_digest"] ["product_input"] None
]%string.

(** Rules from [REVIEW_REQUIRED], [REVIEW_FAILED], [PR_READY]. *)
Definition _RULES_3 : list TransitionRule := [
  _r REVIEW_REQUIRED PR_READY "formal_review_clear"
    ["subject_digest"; "review_digest"; "verification_bundle_digest"; "prospective_tree_digest";
     "reviewed_commit_sha"; "ready_attempt_digest"; "ready_result_digest"; "ready_observation_digest"]
    ["authority"; "budget"; "review_clear"; "mutation"] (Some "mark_pr_ready");
  _r REVIEW_REQUIRED REVIEW_FAILED "blocking_finding"
    ["review_event_digest"; "finding_digest"; "ready_revocation_digest"] ["blocking_finding"] None;
  _r REVIEW_REQUIRED VERIFICATION_FAILED "check_stale" ["check_event_digest"; "candidate_digest"] [] None;
  _r REVIEW_REQUIRED IMPLEMENTATION_IN_PROGRESS "head_changed"
    ["candidate_change_digest"; "review_invalidation_digest"] [] None;
  _r REVIEW_REQUIRED REPOSITORY_ANALYSED "repository_drift"
    ["drift_digest"; "work_disposition_digest"; "snapshot_digest"; "governance_digest"] ["drift"] None;
  _r REVIEW_FAILED REPAIR_IN_PROGRESS "accepted_finding"
    ["finding_digest"; "candidate_digest"; "repair_scope_digest"] ["authority"; "budget"; "repair"] None;
  _r REVIEW_FAILED REVIEW_REQUIRED "finding_rejected_with_evidence"
    ["finding_digest"; "finding_disposition_digest"; "finding_disposition_source_id";
     "finding_disposition_authority_digest"; "finding_disposition_authentication_evidence_digest";
     "candidate_digest"; "verification_bundle_digest"]
    (_FORWARD ++ ["no_blocking_finding"; "finding_disposition"])%list None;
  _r REVIEW_FAILED PRODUCT_INPUT_REQUIRED "product_truth_missing"
    ["finding_digest"; "input_request_digest"; "candidate_disposition_digest"] ["product_input"] None;
  _r PR_READY PR_MERGED "native_merge_linearized"
    ["queue_subject_digest"; "head_commit_sha"; "head_digest"; "base_digest"; "prospective_tree_digest";
     "required_checks_digest"; "formal_review_digest"; "verification_bundle_digest"; "merge_attempt_digest";
     "merge_result_digest"; "merge_commit_sha"; "merge_tree_digest"; "merge_method_digest";
     "merge_actor_digest"]
    ["authority"; "budget"; "mutation"; "merge_binding"] (Some "enqueue_merge");
  _r PR_READY REVIEW_FAILED "blocking_finding"
    ["review_event_digest"; "finding_digest"; "ready_revocation_attempt_digest";
     "ready_revocation_result_digest"; "ready_revocation_observation_digest"]
    ["blocking_finding"; "mutation"] (Some "convert_pr_to_draft");
  _r PR_READY VERIFICATION_FAILED "required_check_invalidated"
    ["check_event_digest"; "ready_revocation_digest"; "approval_invalidation_digest"] [] None;
  _r PR_READY IMPLEMENTATION_IN_PROGRESS "head_changed"
    ["head_change_digest"; "ready_revocation_digest"] [] None;
  _r PR_READY REPOSITORY_ANALYSED "repository_drift"
    ["drift_digest"; "ready_revocation_digest"; "snapshot_digest"; "governance_digest"] ["drift"] None
]%string.

(** Rules from [PR_READY], [PR_MERGED], [STAGING_DEPLOYED]. *)
Definition _RULES_4 : list TransitionRule := [
  _r PR_READY BLOCKED "merge_protection_incident" ["incident_digest"; "governance_digest"] _STOP None;
  _r PR_READY PRODUCT_INPUT_REQUIRED "authority_invalidated"
    ["authority_event_digest"; "work_disposition_digest"; "zero_resource_digest";
     "ready_revocation_attempt_digest"; "ready_revocation_observation_digest"]
    ["product_input"; "mutation"] (Some "convert_pr_to_draft");
  _r PR_MERGED BLOCKED "post_merge_blocking_finding"
    ["subject_digest"; "finding_digest"; "worker_quiescence_digest"; "mutation_revocation_digest";
     "zero_resource_digest"]
    ["blocking_finding"; "safe_stop"] None;
  _r PR_MERGED STAGING_DEPLOYED "staging_admitted"
    ["merge_digest"; "artifact_digest"; "configuration_digest"; "deployment_target_digest";
     "staging_authorization_digest"; "finding_source_set_digest"; "finding_inventory_epochs_digest";
     "authority_fence_digest"; "staging_attempt_digest"; "staging_result_digest"]
    (_MUTATION ++ ["no_blocking_finding"; "integrated_merge"])%list (Some "deploy_staging");
  _r PR_MERGED STAGING_FAILED "staging_failed"
    ["staging_attempt_digest"; "cleanup_attempt_digest"; "zero_resource_digest"]
    ["safety"; "mutation"] (Some "cleanup_staging");
  _r PR_MERGED BLOCKED "staging_infrastructure_missing" ["blocker_digest"; "zero_resource_digest"] _STOP None;
  _r STAGING_DEPLOYED CANARY_DEPLOYED "canary_admitted"
    ["subject_digest"; "merge_commit_sha"; "release_sha"; "merge_digest"; "artifact_digest";
     "configuration_digest"; "migration_plan_digest"; "deployment_target_digest"; "rollout_plan_digest";
     "staging_digest"; "canary_authorization_digest"; "canary_id_digest"; "canary_attempt_digest";
     "canary_result_digest"; "canary_status_digest"; "authority_fence_digest"]
    (_MUTATION ++ ["no_blocking_finding"; "canary_binding"])%list (Some "deploy_canary");
  _r STAGING_DEPLOYED STAGING_FAILED "staging_cleanup"
    ["cleanup_attempt_digest"; "cleanup_result_digest"; "zero_resource_digest"]
    ["safety"; "mutation"] (Some "cleanup_staging");
  _r STAGING_DEPLOYED ROLLBACK_IN_PROGRESS "canary_mutation_indeterminate"
    ["canary_attempt_digest"; "rollback_attempt_digest"; "resource_status_digest"] _SAFETY (Some "rollback");
  _r STAGING_DEPLOYED BUDGET_EXCEEDED "delivery_budget_exhausted"
    ["budget_ledger_digest"; "cleanup_attempt_digest"; "zero_resource_digest"; "resume_gate_digest"]
    ["budget_stop"; "mutation"] (Some "cleanup_staging")
]%string.

(** Rules from [STAGING_DEPLOYED], [STAGING_FAILED], [CANARY_DEPLOYED], [CANARY_FAILED]. *)
Definition _RULES_5 : list TransitionRule := [
  _r STAGING_DEPLOYED BLOCKED "canary_authorization_missing"
    ["canary_no_mutation_digest"; "cleanup_attempt_digest"; "zero_resource_digest"; "blocker_digest"]
    ["safe_stop"; "mutation"] (Some "cleanup_staging");
  _r STAGING_FAILED PR_MERGED "fresh_deployment_required"
    ["zero_resource_digest"; "no_defect_digest"; "resume_gate_digest"] _FORWARD None;
  _r STAGING_FAILED PRODUCT_INPUT_REQUIRED "product_authority_invalidated"
    ["zero_resource_digest"; "input_request_digest"] ["product_input"] None;
  _r STAGING_FAILED REPOSITORY_ANALYSED "candidate_remediation"
    ["zero_resource_digest"; "snapshot_digest"; "governance_digest"] [] None;
  _r STAGING_FAILED BLOCKED "infrastructure_unavailable"
    ["zero_resource_digest"; "blocker_digest"; "original_attempt_digest"]
    ["safety_block"] (Some "cleanup_staging");
  _r CANARY_DEPLOYED PRODUCTION_APPROVAL_REQUIRED "canary_window_passed"
    ["subject_digest"; "merge_commit_sha"; "merge_digest"; "artifact_digest"; "configuration_digest";
     "migration_plan_digest"; "deployment_target_digest"; "rollout_plan_digest"; "staging_digest";
     "canary_digest"; "canary_id_digest"; "canary_attempt_digest"; "canary_status_digest"; "slo_window_digest";
     "approval_request_digest"; "canary_window_observer_id"; "canary_window_observer_authority_digest";
     "canary_window_authentication_evidence_digest"]
    (_FORWARD ++ ["active_canary"; "no_blocking_finding"; "canary_window"])%list None;
  _r CANARY_DEPLOYED CANARY_FAILED "canary_breach_recorded"
    ["subject_digest"; "canary_id_digest"; "canary_status_digest"; "canary_failure_digest";
     "canary_breach_observer_id"; "canary_breach_observer_authority_digest";
     "canary_breach_authentication_evidence_digest"]
    ["active_canary"; "canary_breach"] None;
  _r CANARY_DEPLOYED ROLLBACK_IN_PROGRESS "canary_failed"
    ["subject_digest"; "canary_id_digest"; "canary_status_digest"; "canary_attempt_digest";
     "canary_result_digest"; "canary_failure_digest"; "rollback_attempt_digest"; "resource_status_digest"]
    (_SAFETY ++ ["active_canary"])%list (Some "rollback");
  _r CANARY_DEPLOYED ROLLBACK_IN_PROGRESS "governance_stop"
    ["subject_digest"; "canary_id_digest"; "canary_attempt_digest"; "canary_status_digest";
     "governance_stop_digest"; "rollback_attempt_digest"]
    (_SAFETY ++ ["active_canary"])%list (Some "rollback");
  _r CANARY_FAILED ROLLBACK_IN_PROGRESS "rollback_started"
    ["canary_failure_digest"; "rollback_attempt_digest"] _SAFETY (Some "rollback")
]%string.

(** Rules from [PRODUCTION_APPROVAL_REQUIRED], [PRODUCTION_DEPLOYED]. *)
Definition _RULES_6 : list TransitionRule := [
  _r PRODUCTION_APPROVAL_REQUIRED CANARY_FAILED "canary_breach_recorded"
    ["subject_digest"; "canary_id_digest"; "canary_status_digest"; "canary_failure_digest";
     "canary_breach_observer_id"; "canary_breach_observer_authority_digest";
     "canary_breach_authentication_evidence_digest"]
    ["active_canary"; "canary_breach"] None;
  _r PRODUCTION_APPROVAL_REQUIRED PRODUCTION_DEPLOYED "production_admitted"
    ["subject_digest"; "merge_commit_sha"; "merge_digest"; "artifact_digest"; "configuration_digest";
     "migration_plan_digest"; "deployment_target_digest"; "rollout_plan_digest"; "staging_digest";
     "canary_id_digest"; "canary_attempt_digest"; "canary_status_digest"; "production_approval_digest";
     "authority_fence_digest"; "production_attempt_digest"; "production_result_digest"]
    (_MUTATION ++ ["production_approval"; "active_canary"; "no_blocking_finding"])%list (Some "deploy_production");
  _r PRODUCTION_APPROVAL_REQUIRED ROLLBACK_IN_PROGRESS "canary_breach"
    ["subject_digest"; "canary_id_digest"; "canary_status_digest"; "canary_attempt_digest";
     "canary_result_digest"; "canary_failure_digest"; "rollback_attempt_digest"; "resource_status_digest"]
    (_SAFETY ++ ["active_canary"])%list (Some "rollback");
  _r PRODUCTION_APPROVAL_REQUIRED ROLLBACK_IN_PROGRESS "production_mutation_indeterminate"
    ["production_attempt_digest"; "rollback_attempt_digest"] _SAFETY (Some "rollback");
  _r PRODUCTION_APPROVAL_REQUIRED STAGING_DEPLOYED "approval_reset_no_defect"
    ["approval_disposition_digest"; "canary_teardown_digest"; "zero_resource_digest";
     "staging_revalidation_digest"; "canary_teardown_observer_id"; "canary_teardown_observer_authority_digest";
     "canary_teardown_authentication_evidence_digest"]
    ["safety"; "mutation"; "canary_teardown"] (Some "teardown_canary");
  _r PRODUCTION_APPROVAL_REQUIRED STAGING_FAILED "approval_reset_cleanup"
    ["approval_disposition_digest"; "canary_teardown_digest"; "staging_cleanup_digest"; "zero_resource_digest"]
    ["safety"; "mutation"] (Some "cleanup_staging");
  _r PRODUCTION_DEPLOYED COMPLETED "observation_window_passed"
    ["subject_digest"; "release_sha"; "artifact_digest"; "configuration_digest"; "production_attempt_digest";
     "production_result_digest"; "reviewed_commit_sha"; "reviewed_candidate_digest"; "review_evidence_digest";
     "live_verification_digest"; "rollback_readiness_digest"; "observation_window_digest";
     "evidence_bundle_digest"]
    ["authority"; "completion"] None
]%string.

(** Rules from [PRODUCTION_DEPLOYED], [LIVE_VERIFICATION_FAILED], [ROLLBACK_IN_PROGRESS], [ROLLED_BACK],
    [BLOCKED]. *)
Definition _RULES_7 : list TransitionRule := [
  _r PRODUCTION_DEPLOYED LIVE_VERIFICATION_FAILED "live_gate_failed"
    ["subject_digest"; "release_sha"; "artifact_digest"; "configuration_digest"; "production_attempt_digest";
     "production_result_digest"; "live_failure_digest"; "telemetry_digest"; "live_failure_observer_id";
     "live_failure_observer_authority_digest"; "live_failure_authentication_evidence_digest"]
    ["live_failure"] None;
  _r PRODUCTION_DEPLOYED ROLLBACK_IN_PROGRESS "governance_stop"
    ["governance_stop_digest"; "rollback_attempt_digest"] _SAFETY (Some "rollback");
  _r LIVE_VERIFICATION_FAILED ROLLBACK_IN_PROGRESS "rollback_started"
    ["live_failure_digest"; "rollback_attempt_digest"] _SAFETY (Some "rollback");
  _r ROLLBACK_IN_PROGRESS ROLLED_BACK "rollback_verified"
    ["subject_digest"; "rollback_attempt_digest"; "rollback_result_digest"; "rollback_exposure_digest";
     "restoration_verification_digest"; "incident_digest"]
    ["mutation"; "zero_exposure"] (Some "rollback");
  _r ROLLBACK_IN_PROGRESS BLOCKED "rollback_indeterminate"
    ["rollback_attempt_digest"; "incident_digest"; "resource_status_digest"; "original_attempt_digest"]
    ["safety_block"] (Some "rollback");
  _r ROLLED_BACK STAGING_DEPLOYED "no_defect_readmission"
    ["rollback_bundle_digest"; "zero_exposure_digest"; "staging_revalidation_digest"] _FORWARD None;
  _r ROLLED_BACK STAGING_FAILED "staging_cleanup"
    ["rollback_bundle_digest"; "cleanup_attempt_digest"; "zero_resource_digest"]
    ["safety"; "mutation"] (Some "cleanup_staging");
  _r ROLLED_BACK PRODUCT_INPUT_REQUIRED "product_truth_missing"
    ["rollback_bundle_digest"; "zero_resource_digest"; "input_request_digest"] ["product_input"] None;
  _r ROLLED_BACK REPOSITORY_ANALYSED "candidate_remediation"
    ["rollback_bundle_digest"; "zero_resource_digest"; "snapshot_digest"; "governance_digest"] [] None;
  _r ROLLED_BACK BUDGET_EXCEEDED "delivery_budget_exhausted"
    ["rollback_bundle_digest"; "budget_ledger_digest"; "zero_resource_digest"; "resume_gate_digest"]
    ["budget_stop"] None;
  _r BLOCKED ROLLBACK_IN_PROGRESS "resume_safety_rollback"
    ["incident_digest"; "original_attempt_digest"; "restored_capability_digest"]
    ["safety_resume"] (Some "rollback");
  _r BLOCKED STAGING_FAILED "resume_safety_cleanup"
    ["incident_digest"; "original_attempt_digest"; "restored_capability_digest"]
    ["safety_resume"] (Some "cleanup_staging");
  _r BLOCKED CONTRACT_RECEIVED "superseding_contract"
    ["incident_closure_digest"; "intake_receipt_digest"; "correction_relation_digest"] ["safe_stop"] None;
  _r BLOCKED REPOSITORY_ANALYSED "repository_readmitted"
    ["incident_closure_digest"; "snapshot_digest"; "governance_digest"] ["safe_stop"] None
]%string.

(** Rules from [BUDGET_EXCEEDED], [COMPLETED]. *)
Definition _RULES_8 : list TransitionRule := [
  _r BUDGET_EXCEEDED BLOCKED "extension_unavailable"
    ["budget_ledger_digest"; "resume_gate_digest"] ["safe_stop"] None;
  _r COMPLETED LIVE_VERIFICATION_FAILED "completion_evidence_invalidated"
    ["completion_event_digest"; "invalidation_digest"; "incident_digest"] ["revoke_completion"] None;
  _r COMPLETED BLOCKED "completion_evidence_unavailable"
    ["completion_event_digest"; "invalidation_digest"; "safe_state_digest"]
    ["revoke_completion"; "safe_stop"] None
]%string.

Definition _RULES : list TransitionRule :=
  _RULES_1 ++ _RULES_2 ++ _RULES_3 ++ _RULES_4 ++ _RULES_5 ++ _RULES_6 ++ _RULES_7 ++ _RULES_8.

(** ** Phase zero *)

Definition _DRIFT_SOURCES : list LifecycleState :=
  [ARCHITECTURE_PROPOSED; ARCHITECTURE_APPROVED; TEST_PLAN_CREATED; TEST_PLAN_VALIDATED;
   IMPLEMENTATION_PLANNED; DRAFT_PR_OPEN; IMPLEMENTATION_IN_PROGRESS; VERIFICATION_FAILED;
   REPAIR_IN_PROGRESS; REVIEW_FAILED].
Definition _AUTHORITY_SOURCES : list LifecycleState :=
  [CONTRACT_APPROVED; REPOSITORY_ANALYSED; ARCHITECTURE_PROPOSED; ARCHITECTURE_APPROVED;
   TEST_PLAN_CREATED; TEST_PLAN_VALIDATED; IMPLEMENTATION_PLANNED; DRAFT_PR_OPEN;
   IMPLEMENTATION_IN_PROGRESS; VERIFICATION_FAILED; REPAIR_IN_PROGRESS; REVIEW_REQUIRED;
   REVIEW_FAILED; PR_READY; PR_MERGED; BUDGET_EXCEEDED].
Definition _ORDINARY_SAFE_RESUME_TARGETS : list LifecycleState :=
  [CONTRACT_RECEIVED; CONTRACT_APPROVED; REPOSITORY_ANALYSED; VERIFICATION_FAILED; PR_READY;
   PR_MERGED; PRODUCTION_DEPLOYED; BUDGET_EXCEEDED; DRAFT_PR_OPEN; IMPLEMENTATION_IN_PROGRESS;
   REPAIR_IN_PROGRESS; ROLLED_BACK].
Definition _BUDGET_SAFE_RESUME_TARGETS : list LifecycleState :=
  [DRAFT_PR_OPEN; IMPLEMENTATION_IN_PROGRESS; VERIFICATION_FAILED; REPAIR_IN_PROGRESS; PR_MERGED;
   ROLLED_BACK].
Definition _RECORDED_RESUME_EVIDENCE : list string :=
  ["subject_digest"; "incident_closure_digest"; "restored_capability_digest"; "unchanged_inputs_digest"]%string.

(** The sources for which [_RULES] has no rule of this target and reason. *)
Definition without_rule (sources : list LifecycleState) (to : LifecycleState) (why : string) : list LifecycleState :=
  List.filter (fun from => negb (existsb (matches_rule from to why) _RULES)) sources.

Definition phase_zero_rules : list TransitionRule :=
  _RULES
  ++ map (fun from => _r from REPOSITORY_ANALYSED "repository_drift"
            ["drift_digest"; "work_disposition_digest"; "snapshot_digest"; "governance_digest"] ["drift"] None)%string
       (without_rule _DRIFT_SOURCES REPOSITORY_ANALYSED "repository_drift")
  ++ map (fun from => _r from PRODUCT_INPUT_REQUIRED "authority_invalidated"
            ["authority_event_digest"; "work_disposition_digest"; "zero_resource_digest"] ["product_input"] None)%string
       (without_rule _AUTHORITY_SOURCES PRODUCT_INPUT_REQUIRED "authority_invalidated")
  ++ map (fun to => _r BLOCKED to "recorded_safe_resume" _RECORDED_RESUME_EVIDENCE ["authority"; "budget"] None)%string
       _ORDINARY_SAFE_RESUME_TARGETS
  ++ map (fun to => _r BUDGET_EXCEEDED to "recorded_safe_resume" _RECORDED_RESUME_EVIDENCE
            ["authority"; "budget"] None)%string
       _BUDGET_SAFE_RESUME_TARGETS.

Definition PHASE_ZERO_POLICY : res LifecyclePolicy :=
  new_policy "phase-zero-v2" phase_zero_rules _MUTATION_SUBJECT_FIELDS None.

(** ** Phase four *)

Definition _PHASE_FOUR_REVIEW_FIELDS : list string :=
  ["protected_base_sha"; "repository_rules_digest"; "architecture_policy_digest"; "toolchain_policy_digest";
   "environment_profile_digest"; "security_policy_digest"; "verification_policy_digest";
   "evidence_policy_digest"]%string.
Definition _PHASE_FOUR_MERGE_FIELDS : list string :=
  _PHASE_FOUR_REVIEW_FIELDS
  ++ ["merge_admission_bundle_digest"; "finding_high_watermark_digest"; "finding_source_set_digest";
      "finding_inventory_epochs_digest"; "authority_revalidation_digest"; "native_merge_gate_digest";
      "native_merge_gate_actor"; "native_merge_gate_authority_digest";
      "native_merge_gate_authentication_evidence_digest"]%string.
Definition _PHASE_FOUR_STAGING_FIELDS : list string := ["subject_digest"; "evidence_bundle_digest"]%string.
Definition _PHASE_FOUR_COMPLETION_FINDING_FIELDS : list string :=
  ["finding_high_watermark_digest"; "finding_source_set_digest"; "finding_inventory_epochs_digest"]%string.

Definition is_review_clear : TransitionRule -> bool :=
  matches_rule REVIEW_REQUIRED PR_READY "formal_review_clear".
Definition is_merge : TransitionRule -> bool := matches_rule PR_READY PR_MERGED "native_merge_linearized".
Definition is_staging : TransitionRule -> bool := matches_rule PR_MERGED STAGING_DEPLOYED "staging_admitted".
Definition is_completion : TransitionRule -> bool :=
  matches_rule PRODUCTION_DEPLOYED COMPLETED "observation_window_passed".

Definition phase_four_rule (r : TransitionRule) : TransitionRule := {|
  source := source r; target := target r;
  reason := if is_review_clear r then "advisory_readiness_clear" else reason r;
  required_evidence := dict_fromkeys (required_evidence r
    ++ (if is_review_clear r then _PHASE_FOUR_REVIEW_FIELDS else [])
    ++ (if is_merge r then _PHASE_FOUR_MERGE_FIELDS else [])
    ++ (if is_staging r then _PHASE_FOUR_STAGING_FIELDS else [])
    ++ (if is_completion r then _PHASE_FOUR_COMPLETION_FINDING_FIELDS else []));
  guards := sorted_set (guards r
    ++ (if is_merge r || is_completion r then ["no_blocking_finding"%string] else [])
    ++ (if is_staging r then ["staging_bundle"%string] else []));
  permission := permission r; mutation_action := mutation_action r
|}.
Definition phase_four_rules : list TransitionRule := map phase_four_rule phase_zero_rules.

Definition PHASE_FOUR_POLICY : res LifecyclePolicy :=
  new_policy "phase-four-v1" phase_four_rules _MUTATION_SUBJECT_FIELDS None.

(** ** Migration *)

Definition legacy_states_2 : list (string * LifecycleState) :=
  [("assessment", REPOSITORY_ANALYSED); ("architecture", ARCHITECTURE_PROPOSED);
   ("plan", IMPLEMENTATION_PLANNED); ("implement", IMPLEMENTATION_IN_PROGRESS);
   ("review", REVIEW_REQUIRED); ("retest", VERIFICATION_FAILED); ("draft_pr", DRAFT_PR_OPEN);
   ("deploy", PR_MERGED)]%string.
Definition legacy_states_3 : list (string * LifecycleState) :=
  [("contract", CONTRACT_APPROVED); ("assessment", REPOSITORY_ANALYSED);
   ("architecture", ARCHITECTURE_PROPOSED); ("plan", IMPLEMENTATION_PLANNED);
   ("implementation", IMPLEMENTATION_IN_PROGRESS); ("review", REVIEW_REQUIRED);
   ("draft_pr", DRAFT_PR_OPEN); ("deploy", PR_MERGED); ("verify", PRODUCTION_DEPLOYED)]%string.

Section Migration.
Context `{Unicode}.

(** A list or a dict is no key of a dict. *)
Definition hashable (v : json) : bool := match v with JArr _ | JObj _ => false | _ => true end.

Definition migrate_legacy_state (payload : list (string * json)) : res MigrationResult :=
  let version := jget "version" payload in
  let stage := py_str (default (JStr "") (assoc "stage"%string payload)) in
  if negb (hashable version) then Raise (TypeError "unhashable type")
  else
    let stages := if py_eq version (JInt 2) then Some legacy_states_2
                  else if py_eq version (JInt 3) then Some legacy_states_3 else None in
    match stages ≫= assoc stage with
    | None => Raise (ValueError ("unsupported legacy state version=" +:+ py_repr version
                                 +:+ " stage=" +:+ py_repr (JStr stage)))
    | Some state =>
        Ok {| migrated_state := state; source_version := version; source_stage := stage;
              migration_digest := _digest (JObj [("source_version", version); ("source_stage", JStr stage);
                                                 ("state", JStr (lifecycle_value state))])%string |}
    end.
End Migration.
