(* ===== verification/LifecycleTheorems.v ===== *)
(** * The lifecycle policies: theorems

    A policy's rules as a step relation on the states, exploration of the
    states it reaches, and what holds of the two policies of the program.

    ** Subjects of mutations: theorems

    The digest of a mutation's subject binds every field of its schema, and
    what [_malformed_evidence] and [migrate_legacy_state] return. *)
From Stdlib Require Import Ascii String.
From S2P Require Import Prelude Sha256 Json JsonText PyStr AcceptanceTheorems Lifecycle LifecycleRules.

(** ** Paths of a policy *)

(** A path along allowed rules; [visited] are the states it enters. *)
Inductive lifecycle_path (allowed : TransitionRule -> bool) (l : list TransitionRule)
    : LifecycleState -> list LifecycleState -> LifecycleState -> Prop :=
  | path_stay s : lifecycle_path allowed l s [] s
  | path_step r visited s' :
      r ∈ l -> allowed r = true -> lifecycle_path allowed l (target r) visited s' ->
      lifecycle_path allowed l (source r) (target r :: visited) s'.

Definition state_in (s : LifecycleState) (l : list LifecycleState) : bool := bool_decide (s ∈ l).

(** The states that one allowed rule adds to [seen], without entering [avoid]. *)
Definition explore_step (allowed : TransitionRule -> bool) (avoid : option LifecycleState)
    (l : list TransitionRule) (seen : list LifecycleState) : list LifecycleState :=
  foldr (fun r seen' =>
           if allowed r && state_in (source r) seen && negb (state_in (target r) seen')
              && negb (bool_decide (avoid = Some (target r)))
           then target r :: seen' else seen') seen l.
Fixpoint explore (rounds : nat) allowed avoid l (seen : list LifecycleState) : list LifecycleState :=
  match rounds with
  | O => seen
  | S n => explore n allowed avoid l (explore_step allowed avoid l seen)
  end.

(** No allowed rule leaves [seen], but into [avoid]. *)
Definition closed_under (allowed : TransitionRule -> bool) (avoid : option LifecycleState)
    (l : list TransitionRule) (seen : list LifecycleState) : bool :=
  forallb (fun r => negb (allowed r && state_in (source r) seen)
                    || state_in (target r) seen || bool_decide (avoid = Some (target r))) l.

Section Paths.
Context (allowed : TransitionRule -> bool) (l : list TransitionRule).

Lemma path_snoc s visited r :
  lifecycle_path allowed l s visited (source r) -> r ∈ l -> allowed r = true ->
  exists visited', lifecycle_path allowed l s visited' (target r).
Proof.
  intros Hp Hr Ha. remember (source r) as s' eqn:Es.
  induction Hp as [s|r0 visited s' Hr0 Ha0 Hp IH]; subst.
  - exists [target r]. by eapply path_step; [..|constructor].
  - destruct (IH eq_refl) as [v Hv]. exists (target r0 :: v). by constructor.
Qed.

Definition reached (from s : LifecycleState) : Prop := exists visited, lifecycle_path allowed l from visited s.

Lemma explore_sound rounds from seen :
  Forall (reached from) seen -> Forall (reached from) (explore rounds allowed None l seen).
Proof.
  revert seen. induction rounds as [|n IH]; intros seen Hs; simpl; [done|]. apply IH.
  assert (Hl : forall rs, (forall r, r ∈ rs -> r ∈ l) -> Forall (reached from) (explore_step allowed None rs seen)).
  { induction rs as [|r rs IHr]; intros Hin; simpl; [done|].
    match goal with |- Forall _ (if ?c then _ else _) => destruct c eqn:Ec end.
    - bool_simp. constructor; [|apply IHr; set_solver].
      match goal with Hsrc : state_in (source r) seen = true |- _ => apply bool_decide_eq_true in Hsrc as Hi end.
      rewrite Forall_forall in Hs. destruct (Hs _ Hi) as [v Hv].
      eapply path_snoc; [exact Hv|set_solver|done].
    - apply IHr. set_solver. }
  by apply Hl.
Qed.

(** A path from a closed set that avoids [m] stays in the set. *)
Lemma closed_avoids seen m from visited s :
  closed_under allowed (Some m) l seen = true -> from ∈ seen -> lifecycle_path allowed l from visited s ->
  m ∉ visited -> s ∈ seen.
Proof.
  intros Hc. unfold closed_under in Hc. rewrite forallb_forall in Hc.
  induction 2 as [s|r visited s' Hr Ha Hp IH]; [done|]. intros [Hm Hv]%not_elem_of_cons.
  apply IH; [|done]. specialize (Hc r (proj1 (list_elem_of_In _ _) Hr)). rewrite Ha in Hc.
  unfold state_in in Hc. rewrite (bool_decide_eq_true_2 (source r ∈ seen)) in Hc by done. simpl in Hc.
  apply orb_prop in Hc as [Hc|Hc]; apply bool_decide_eq_true in Hc; [done|congruence].
Qed.
End Paths.

(** [to] is reached from [from] only through [m]. *)
Definition dominates (allowed : TransitionRule -> bool) (l : list TransitionRule)
    (from m to : LifecycleState) : bool :=
  let seen := explore 30 allowed (Some m) l [from] in
  closed_under allowed (Some m) l seen && state_in from seen && negb (state_in to seen).

Lemma dominates_visits allowed l from m to visited :
  dominates allowed l from m to = true -> lifecycle_path allowed l from visited to -> m ∈ visited.
Proof.
  unfold dominates. intros Hd Hp. bool_simp. destruct (decide (m ∈ visited)) as [|Hm]; [done|exfalso].
  match goal with H1 : state_in from _ = true, H2 : state_in to _ = false |- _ =>
    apply bool_decide_eq_true in H1; apply bool_decide_eq_false in H2; apply H2 end.
  by eapply closed_avoids.
Qed.

Definition reaches allowed l (from to : LifecycleState) : bool := state_in to (explore 30 allowed None l [from]).

Lemma reaches_path allowed l from to : reaches allowed l from to = true -> reached allowed l from to.
Proof.
  unfold reaches. intros Hr%bool_decide_eq_true.
  assert (Hall : Forall (reached allowed l from) (explore 30 allowed None l [from])).
  { apply explore_sound. constructor; [|constructor]. exists []. constructor. }
  rewrite Forall_forall in Hall. by apply Hall.
Qed.

(** ** The policies *)

(** The stations of a delivery, in their order. *)
Definition stations : list LifecycleState :=
  [CONTRACT_APPROVED; REPOSITORY_ANALYSED; ARCHITECTURE_PROPOSED; ARCHITECTURE_APPROVED;
   TEST_PLAN_CREATED; TEST_PLAN_VALIDATED; IMPLEMENTATION_PLANNED; DRAFT_PR_OPEN;
   IMPLEMENTATION_IN_PROGRESS; REVIEW_REQUIRED; PR_READY; PR_MERGED; STAGING_DEPLOYED;
   CANARY_DEPLOYED; PRODUCTION_APPROVAL_REQUIRED; PRODUCTION_DEPLOYED; COMPLETED].

(** Every rule but those that leave a stop. *)
Definition uninterrupted (r : TransitionRule) : bool :=
  negb (bool_decide (source r = BLOCKED)) && negb (bool_decide (source r = BUDGET_EXCEEDED)).

Definition consecutive (l : list LifecycleState) : list (LifecycleState * LifecycleState) := zip l (tl l).

(** C30. No station of a delivery can be skipped.  Along the rules of the
    phase-four policy, a path from [CONTRACT_RECEIVED] that is never resumed
    from a stop enters a station only after it has entered the one before: no
    completion without production, approval, canary, staging, merge, review,
    implementation, a validated test plan, an approved architecture and an
    approved contract. *)
Theorem stations_in_order before station visited :
  (before, station) ∈ consecutive stations ->
  lifecycle_path uninterrupted phase_four_rules CONTRACT_RECEIVED visited station ->
  before ∈ visited.
Proof.
  intros Hc Hp. eapply dominates_visits; [|exact Hp].
  assert (Hall : forallb (fun p => dominates uninterrupted phase_four_rules CONTRACT_RECEIVED (fst p) (snd p))
                   (consecutive stations) = true) by (vm_compute; reflexivity).
  rewrite forallb_forall in Hall. by apply (Hall (before, station)), list_elem_of_In.
Qed.

Definition any_rule (_ : TransitionRule) : bool := true.

Lemma all_states_complete s : s ∈ all_states.
Proof. destruct s; decide_now. Qed.

(** No state is a dead end: under the phase-four policy every state can be
    reached from [CONTRACT_RECEIVED], and from every state a path leads on to
    [COMPLETED]. *)
Theorem no_dead_ends s :
  reached any_rule phase_four_rules CONTRACT_RECEIVED s /\ reached any_rule phase_four_rules s COMPLETED.
Proof.
  assert (Hall : forallb (fun s => reaches any_rule phase_four_rules CONTRACT_RECEIVED s
                                   && reaches any_rule phase_four_rules s COMPLETED) all_states = true)
    by (vm_compute; reflexivity).
  rewrite forallb_forall in Hall. specialize (Hall s (proj1 (list_elem_of_In _ _) (all_states_complete s))).
  apply andb_prop in Hall as [H1 H2]. split; by apply reaches_path.
Qed.

(** The states in which a rollout may be exposed. *)
Definition exposed_states : list LifecycleState :=
  [STAGING_DEPLOYED; CANARY_DEPLOYED; CANARY_FAILED; PRODUCTION_APPROVAL_REQUIRED; PRODUCTION_DEPLOYED;
   LIVE_VERIFICATION_FAILED; ROLLBACK_IN_PROGRESS; COMPLETED].

(** Rules that ask neither for current authority nor for budget. *)
Definition needs_no_authority (r : TransitionRule) : bool :=
  negb (has_guard "authority" (guards r)) && negb (has_guard "budget" (guards r)).

(** A rollback never waits for authority or budget: from every state in
    which a rollout may be exposed, rules without the guards [authority] and
    [budget] lead to [ROLLED_BACK]. *)
Theorem rollback_needs_no_authority s :
  s ∈ exposed_states -> reached needs_no_authority phase_four_rules s ROLLED_BACK.
Proof.
  intros Hs. apply reaches_path.
  assert (Hall : forallb (fun s => reaches needs_no_authority phase_four_rules s ROLLED_BACK) exposed_states = true)
    by (vm_compute; reflexivity).
  rewrite forallb_forall in Hall. by apply Hall, list_elem_of_In.
Qed.

(** ** Looking up a rule *)

Lemma matches_rule_spec from to why r : matches_rule from to why r = true <-> rule_key r = (from, to, why).
Proof.
  unfold matches_rule, rule_key. rewrite !andb_true_iff, !bool_decide_eq_true, String.eqb_eq. naive_solver.
Qed.

Lemma filter_unique {A K} (key : A -> K) (p : A -> bool) (k : K) l :
  NoDup (map key l) -> (forall x, p x = true <-> key x = k) ->
  forall x, List.filter p l = [x] <-> x ∈ l /\ key x = k.
Proof.
  intros Hnd Hp x. induction l as [|y l IH]; simpl; [set_solver|].
  apply NoDup_cons in Hnd as [Hy Hnd]. destruct (p y) eqn:Ey.
  - apply Hp in Ey. assert (List.filter p l = []) as Hl.
    { destruct (List.filter p l) as [|z zs] eqn:E; [done|]. assert (In z (z :: zs)) as Hz by by left.
      rewrite <- E in Hz. apply filter_In in Hz as [Hz Hpz]. apply Hp in Hpz. exfalso. apply Hy.
      rewrite Ey, <- Hpz. by apply list_elem_of_fmap_2, list_elem_of_In. }
    rewrite Hl. split; [intros [= ->]; split; [left|done]|]. intros [[->|Hx]%elem_of_cons Hk]; [done|].
    exfalso. apply Hy. rewrite Ey, <- Hk. by apply list_elem_of_fmap_2.
  - rewrite IH by done. rewrite elem_of_cons. split; [tauto|]. intros [[->|Hx] Hk]; [|done].
    apply Hp in Hk. congruence.
Qed.

(** A policy that was built decides every transition by exactly one rule:
    the lookup finds a rule exactly when it is the policy's rule for the source,
    the target and the reason, and otherwise denies the transition. *)
Theorem rule_lookup_exact version l fields variants p from to why :
  new_policy version l fields variants = Ok p ->
  (forall r, rule p from to why = Ok r <-> r ∈ l /\ source r = from /\ target r = to /\ reason r = why) /\
  ((forall r, r ∈ l -> ~ (source r = from /\ target r = to /\ reason r = why)) ->
   exists message, rule p from to why = Raise (TransitionDeniedError message)).
Proof.
  unfold new_policy. destruct (bool_decide (NoDup (map rule_key l))) eqn:Hn; cbn [negb]; [|done].
  apply bool_decide_eq_true in Hn. intros E. injection E as <-. unfold rule. cbn [rules].
  pose proof (filter_unique rule_key (matches_rule from to why) (from, to, why) l Hn
                (matches_rule_spec from to why)) as Hf.
  assert (Hk : forall r, rule_key r = (from, to, why) <-> source r = from /\ target r = to /\ reason r = why).
  { intros r. unfold rule_key. naive_solver. }
  split.
  - intros r. rewrite <- Hk, <- Hf. destruct (List.filter _ l) as [|x [|y ys]]; naive_solver.
  - intros Hno. destruct (List.filter (matches_rule from to why) l) as [|x [|y ys]] eqn:E; [eauto| |eauto].
    exfalso. destruct (proj1 (Hf x) eq_refl) as [Hx Hkx]. by eapply Hno; [exact Hx|apply Hk].
Qed.

(** ** Phase four over phase zero *)

Lemma phase_zero_distinct : NoDup (map rule_key phase_zero_rules).
Proof. decide_now. Qed.
Lemma phase_four_distinct : NoDup (map rule_key phase_four_rules).
Proof. decide_now. Qed.

Lemma new_policy_built version l fields variants :
  NoDup (map rule_key l) ->
  exists p, new_policy version l fields variants = Ok p /\ rules p = l /\ policy_version p = version.
Proof. intros Hn. unfold new_policy. rewrite bool_decide_eq_true_2 by done. eexists. by split. Qed.

(** Rule [strong] admits no transition that [weak] denies. *)
Record strengthens (strong weak : TransitionRule) : Prop := {
  st_source : source strong = source weak;
  st_target : target strong = target weak;
  st_mutation : mutation_action strong = mutation_action weak;
  st_permission : permission strong = permission weak;
  st_evidence : forall name, name ∈ required_evidence weak -> name ∈ required_evidence strong;
  st_guards : forall g, g ∈ guards weak -> g ∈ guards strong
}.

Lemma phase_four_rule_strengthens r : strengthens (phase_four_rule r) r.
Proof.
  split; try done.
  - intros name Hn. cbn [phase_four_rule required_evidence]. apply dict_fromkeys_elem. rewrite elem_of_app. by left.
  - intros g Hg. cbn [phase_four_rule guards]. apply sorted_set_elem. rewrite elem_of_app. by left.
Qed.

Lemma phase_four_rule_reason r :
  reason (phase_four_rule r) = reason r \/
  reason r = "formal_review_clear"%string /\ reason (phase_four_rule r) = "advisory_readiness_clear"%string.
Proof.
  cbn [phase_four_rule reason]. destruct (is_review_clear r) eqn:Er; [right|by left].
  apply matches_rule_spec in Er. unfold rule_key in Er. by injection Er as _ _ ->.
Qed.

(** Both policies of the program are built, and phase four only
    strengthens phase zero: its rules are, one for one, rules of phase zero with
    at least their evidence and guards, under the same reason but for the
    review, whose reason says that it is advisory. *)
Theorem phase_four_strengthens_phase_zero :
  exists p0 p4, PHASE_ZERO_POLICY = Ok p0 /\ PHASE_FOUR_POLICY = Ok p4 /\
    Forall2 strengthens (rules p4) (rules p0) /\
    Forall2 (fun r4 r0 => reason r4 = reason r0 \/
               reason r0 = "formal_review_clear"%string /\ reason r4 = "advisory_readiness_clear"%string)
      (rules p4) (rules p0).
Proof.
  destruct (new_policy_built "phase-zero-v2" phase_zero_rules _MUTATION_SUBJECT_FIELDS None phase_zero_distinct)
    as (p0 & E0 & R0 & _).
  destruct (new_policy_built "phase-four-v1" phase_four_rules _MUTATION_SUBJECT_FIELDS None phase_four_distinct)
    as (p4 & E4 & R4 & _).
  exists p0, p4. split; [exact E0|]. split; [exact E4|]. rewrite R0, R4. unfold phase_four_rules.
  generalize phase_zero_rules as l. intros l.
  split; [exact (Forall2_map_self strengthens phase_four_rule l phase_four_rule_strengthens)|].
  exact (Forall2_map_self _ phase_four_rule l phase_four_rule_reason).
Qed.

(** ** External effects *)

Definition stop_guards : list string :=
  ["safety"; "safety_block"; "safety_resume"; "safe_stop"; "budget_stop"; "product_input";
   "blocking_finding"; "zero_exposure"]%string.

(** The evidence that a promotion must bring covers the mutation's subject. *)
Definition effect_guarded (r : TransitionRule) : bool :=
  match mutation_action r with
  | None => negb (has_guard "mutation" (guards r))
  | Some action =>
      match assoc action _MUTATION_SUBJECT_FIELDS with
      | None => false
      | Some fields =>
          if has_guard "authority" (guards r)
          then has_guard "budget" (guards r) && has_guard "mutation" (guards r)
               && forallb (fun name => String.eqb name "subject_digest" || str_in name (required_evidence r)) fields
          else existsb (fun g => has_guard g (guards r)) stop_guards
      end
  end.

(** No external effect is unguarded.  A rule of phase four without a
    mutation has no guard that admits one; the mutation of any other rule has an
    exact-subject schema.  When the rule promotes, it asks for authority, budget
    and the mutation's admission, and its evidence covers the schema (the
    subject itself is the run's); otherwise it is a stop: of safety, of the
    budget, for the product's input or for a finding. *)
Theorem effects_are_guarded r :
  r ∈ phase_four_rules ->
  match mutation_action r with
  | None => "mutation"%string ∉ guards r
  | Some action =>
      exists fields, assoc action _MUTATION_SUBJECT_FIELDS = Some fields /\
        (("authority"%string ∈ guards r /\ "budget"%string ∈ guards r /\ "mutation"%string ∈ guards r /\
          (forall name, name ∈ fields -> name <> "subject_digest"%string -> name ∈ required_evidence r)) \/
         "authority"%string ∉ guards r /\ exists g, g ∈ stop_guards /\ g ∈ guards r)
  end.
Proof.
  intros Hr. assert (Hall : forallb effect_guarded phase_four_rules = true) by (vm_compute; reflexivity).
  rewrite forallb_forall in Hall. specialize (Hall r (proj1 (list_elem_of_In _ _) Hr)).
  unfold effect_guarded, has_guard in Hall. destruct (mutation_action r) as [action|].
  - destruct (assoc action _MUTATION_SUBJECT_FIELDS) as [fields|]; [|done]. exists fields. split; [done|].
    destruct (str_in "authority" (guards r)) eqn:Ea.
    + left. bool_simp. rewrite !str_in_elem in *. split; [done|]. split; [done|]. split; [done|].
      match goal with Hf : forallb _ fields = true |- _ => rewrite forallb_forall in Hf; rename Hf into Hfields end.
      intros name Hn Hne. specialize (Hfields name (proj1 (list_elem_of_In _ _) Hn)).
      apply orb_prop in Hfields as [Hs|Hs]; [by apply String.eqb_eq in Hs|by apply str_in_elem].
    + right. apply str_in_false in Ea. split; [done|]. apply existsb_exists in Hall as (g & Hg & Hgr).
      exists g. by rewrite list_elem_of_In, <- str_in_elem.
  - apply negb_true_iff in Hall. by apply str_in_false.
Qed.

(** ** Witnesses *)

Lemma first_rules :
  exists r1 r2, r1 ∈ phase_four_rules /\ r2 ∈ phase_four_rules /\
    uninterrupted r1 = true /\ uninterrupted r2 = true /\
    source r1 = CONTRACT_RECEIVED /\ target r1 = CONTRACT_APPROVED /\
    source r2 = CONTRACT_APPROVED /\ target r2 = REPOSITORY_ANALYSED.
Proof.
  assert (Hone : forall from to, existsb (fun r => uninterrupted r && bool_decide (source r = from)
                                           && bool_decide (target r = to)) phase_four_rules = true ->
    exists r, r ∈ phase_four_rules /\ uninterrupted r = true /\ source r = from /\ target r = to).
  { intros from to (r & Hr & Hc)%existsb_exists. apply andb_prop in Hc as [Hc Ht]. apply andb_prop in Hc as [Hu Hs].
    apply bool_decide_eq_true in Hs, Ht. exists r. by rewrite list_elem_of_In. }
  destruct (Hone CONTRACT_RECEIVED CONTRACT_APPROVED) as (r1 & ? & ? & ? & ?); [vm_compute; reflexivity|].
  destruct (Hone CONTRACT_APPROVED REPOSITORY_ANALYSED) as (r2 & ? & ? & ? & ?); [vm_compute; reflexivity|].
  by exists r1, r2.
Qed.

Lemma stations_in_order_witness :
  exists visited,
    lifecycle_path uninterrupted phase_four_rules CONTRACT_RECEIVED visited REPOSITORY_ANALYSED /\
    CONTRACT_APPROVED ∈ visited.
Proof.
  destruct first_rules as (r1 & r2 & Hin1 & Hin2 & Hu1 & Hu2 & Hs1 & Ht1 & Hs2 & Ht2).
  assert (Hp : lifecycle_path uninterrupted phase_four_rules CONTRACT_RECEIVED
                 [target r1; target r2] REPOSITORY_ANALYSED).
  { rewrite <- Hs1. apply path_step; [exact Hin1|exact Hu1|]. rewrite Ht1, <- Hs2.
    apply path_step; [exact Hin2|exact Hu2|]. rewrite Ht2. apply path_stay. }
  eexists. split; [exact Hp|].
  apply (stations_in_order CONTRACT_APPROVED REPOSITORY_ANALYSED _); [|exact Hp]. cbn. left.
Defined.

Lemma rollback_needs_no_authority_witness :
  reached needs_no_authority phase_four_rules CANARY_DEPLOYED ROLLED_BACK.
Proof. apply (rollback_needs_no_authority CANARY_DEPLOYED). do 1 right. left. Defined.

Definition two_rules : list TransitionRule := [
  _r CONTRACT_RECEIVED CONTRACT_APPROVED "contract_approved" default_evidence [] None;
  _r CONTRACT_APPROVED REPOSITORY_ANALYSED "repository_analysed" default_evidence [] None]%string.

Lemma rule_lookup_exact_witness :
  exists p, new_policy "demo" two_rules [] None = Ok p /\
    exists r, rule p CONTRACT_RECEIVED CONTRACT_APPROVED "contract_approved" = Ok r /\ target r = CONTRACT_APPROVED.
Proof.
  destruct (new_policy_built "demo" two_rules [] None) as (p & Hp & _); [decide_now|].
  exists p. split; [exact Hp|].
  exists (_r CONTRACT_RECEIVED CONTRACT_APPROVED "contract_approved" default_evidence [] None).
  split; [|reflexivity].
  refine (proj2 (proj1 (rule_lookup_exact _ _ _ _ _ CONTRACT_RECEIVED CONTRACT_APPROVED _ Hp) _) _).
  split; [left|]. split; [reflexivity|]. split; reflexivity.
Defined.

Lemma effects_are_guarded_witness :
  exists r, r ∈ phase_four_rules /\ mutation_action r = Some "deploy_production"%string /\
    "authority"%string ∈ guards r.
Proof.
  assert (He : exists r, r ∈ phase_four_rules /\ mutation_action r = Some "deploy_production"%string /\
                         str_in "authority" (guards r) = true).
  { assert (Hc : existsb (fun r => bool_decide (mutation_action r = Some "deploy_production"%string)
                                   && str_in "authority" (guards r)) phase_four_rules = true)
      by (vm_compute; reflexivity).
    apply existsb_exists in Hc as (r & Hr & Hc). apply andb_prop in Hc as [Hm Ha].
    exists r. rewrite list_elem_of_In. apply bool_decide_eq_true in Hm. by split. }
  destruct He as (r & Hr & Hm & Ha). exists r. split; [exact Hr|]. split; [exact Hm|].
  pose proof (effects_are_guarded r Hr) as Hg. rewrite Hm in Hg.
  destruct Hg as (fields & _ & [[Hauth _]|[Hn _]]); [exact Hauth|].
  exfalso. apply Hn, str_in_elem, Ha.
Defined.

(** * Subjects of mutations: theorems *)

(** ** The text of a flat object of plain strings *)

(** A character that [json.dumps] writes as it is. *)
Definition plain_char (c : ascii) : bool :=
  (byte_n c <? 128)%N && String.eqb (escape_ascii (byte_n c)) (String c "") && negb (Ascii.eqb c "034").
Definition plain (s : string) : bool := string_forallb plain_char s.

Lemma dump_str_plain s : plain s = true -> dump_str s = quote +:+ (s +:+ quote).
Proof.
  unfold dump_str, ords, plain. intros Hp. f_equal. induction s as [|c s IH]; [done|].
  cbn [string_forallb] in Hp. apply andb_prop in Hp as [Hc Hs]. unfold plain_char in Hc. bool_simp.
  cbn [String.length code_points]. match goal with H : (byte_n c <? 128)%N = true |- _ => rewrite H end.
  cbn [foldr]. rewrite IH by done. match goal with H : escape_ascii _ = _ |- _ => by rewrite H end.
Qed.

Lemma plain_ends_at_quote s1 s2 r1 r2 :
  plain s1 = true -> plain s2 = true ->
  s1 +:+ String "034" r1 = s2 +:+ String "034" r2 -> s1 = s2 /\ r1 = r2.
Proof.
  unfold plain. revert s2. induction s1 as [|c s1 IH]; intros [|d s2]; cbn [string_forallb]; intros H1 H2 E;
    cbn in E; injection E; intros; subst; try done.
  apply andb_prop in H1 as [_ H1], H2 as [_ H2]. by destruct (IH s2) as [-> ->].
Qed.

(** The members of [{name: value(name) for name in names}], in the order of the text. *)
Definition member_text (value : string -> string) (name : string) : string :=
  dump_str name +:+ ":" +:+ dump_str (value name).

Lemma member_text_inj v1 v2 name r1 r2 :
  plain (v1 name) = true -> plain (v2 name) = true ->
  member_text v1 name +:+ r1 = member_text v2 name +:+ r2 -> v1 name = v2 name /\ r1 = r2.
Proof.
  unfold member_text. intros P1 P2. rewrite (dump_str_plain (v1 name)), (dump_str_plain (v2 name)) by done. unfold quote. rewrite !sapp_assoc.
  intros E%sapp_inj_l. cbn in E. injection E as E. by apply plain_ends_at_quote in E.
Qed.

Lemma join_cons x y l r : join "," (x :: y :: l) +:+ r = x +:+ ("," +:+ (join "," (y :: l) +:+ r)).
Proof. unfold join. cbn [String.concat]. by rewrite !sapp_assoc. Qed.

Lemma join_members_inj v1 v2 names r1 r2 :
  Forall (fun name => plain (v1 name) = true /\ plain (v2 name) = true) names ->
  join "," (map (member_text v1) names) +:+ r1 = join "," (map (member_text v2) names) +:+ r2 ->
  Forall (fun name => v1 name = v2 name) names.
Proof.
  revert r1 r2. induction names as [|name names IH]; intros r1 r2 Hp; [constructor|].
  apply Forall_cons in Hp as [[P1 P2] Hp]. destruct names as [|name' names]; cbn [map].
  - intros [E _]%member_text_inj; [|done..]. by constructor.
  - rewrite !join_cons. intros [E Er]%member_text_inj; [|done..]. constructor; [done|].
    apply sapp_inj_l in Er. by eapply IH.
Qed.

(** ** Subjects *)

Definition value_of (evidence : evidence_map) (name : string) : string := got name evidence.
Definition ordered_names (names : list string) : list string :=
  map fst (sorted_items (map (fun name => (name, tt)) names)).

Lemma ordered_names_elem name names : name ∈ ordered_names names <-> name ∈ names.
Proof.
  unfold ordered_names. rewrite sorted_items_perm, map_map. cbn. by rewrite map_id.
Qed.

Lemma selected_text fields evidence :
  json_dumps (selected fields evidence)
  = "{" +:+ (join "," (map (member_text (value_of evidence)) (ordered_names (dict_fromkeys fields))) +:+ "}").
Proof.
  unfold selected, json_dumps, ordered_names. cbn [dumps_with]. do 3 f_equal. rewrite !map_map. cbn [fst snd dumps_with].
  pose proof (sorted_items_map (fun name (_ : unit) => dump_str (value_of evidence name))
                (map (fun name => (name, tt)) (dict_fromkeys fields))) as E.
  rewrite map_map in E. cbn [fst snd] in E. unfold value_of in E. rewrite E, map_map. reflexivity.
Qed.

(** Two subjects with different texts and one SHA-256 digest. *)
Definition subject_collision (fields : list string) (evidence1 evidence2 : evidence_map) : Prop :=
  let text evidence := json_dumps (selected fields evidence) in
  text evidence1 <> text evidence2 /\ sha256_digest (text evidence1) = sha256_digest (text evidence2).

Lemma is_hex_plain c : is_hex c = true -> plain_char c = true.
Proof. destruct c as [[] [] [] [] [] [] [] []]; vm_compute; congruence. Qed.

Lemma hex_plain s : string_forallb is_hex s = true -> plain s = true.
Proof.
  unfold plain. induction s as [|c s IH]; [done|]. cbn [string_forallb]. intros [Hc Hs]%andb_prop.
  by rewrite is_hex_plain, IH.
Qed.

Lemma is_sha256_plain s : is_sha256 s = true -> plain s = true.
Proof.
  unfold is_sha256. cbv zeta. intros Hs. apply andb_prop in Hs as [Hs Hh]. apply andb_prop in Hs as [Hp _].
  pose proof (startswith_split s "sha256:" Hp) as E. unfold removeprefix in E. rewrite Hp in E. rewrite E.
  change (plain (drop_str 7 s) = true). by apply hex_plain.
Qed.

Definition sealed_name (name : string) : bool := endswith name "_sha" || endswith name "_digest".

Lemma sealed_field_plain evidence name :
  sealed_name name = true -> malformed_field evidence name = false -> plain (value_of evidence name) = true.
Proof.
  unfold sealed_name, malformed_field. fold (value_of evidence name). destruct (endswith name "_sha").
  - intros _ Hg%negb_false_iff. unfold is_git_sha in Hg. apply andb_prop in Hg as [_ Hg]. by apply hex_plain.
  - cbn [orb]. intros -> Hs. apply negb_false_iff in Hs. by apply is_sha256_plain.
Qed.

Lemma malformed_none evidence names :
  _malformed_evidence evidence names = [] <-> forall name, name ∈ names -> malformed_field evidence name = false.
Proof.
  unfold _malformed_evidence. rewrite sorted_str_nil. split.
  - intros E name Hn. destruct (malformed_field evidence name) eqn:Em; [|done].
    assert (Hin : In name (List.filter (malformed_field evidence) names)).
    { apply filter_In. split; [by apply list_elem_of_In|done]. }
    by rewrite E in Hin.
  - intros Hall. destruct (List.filter _ names) as [|name l] eqn:E; [done|].
    assert (Hin : In name (name :: l)) by by left. rewrite <- E in Hin. apply filter_In in Hin as [Hin Hm].
    apply list_elem_of_In, Hall in Hin. congruence.
Qed.

Lemma subjects_sealed action fields :
  assoc action _MUTATION_SUBJECT_FIELDS = Some fields -> forall name, name ∈ fields -> sealed_name name = true.
Proof.
  intros Ha. assert (Hall : forallb (fun p => forallb sealed_name (snd p)) _MUTATION_SUBJECT_FIELDS = true)
    by (vm_compute; reflexivity).
  apply assoc_In, list_elem_of_In in Ha. rewrite forallb_forall in Hall. apply Hall in Ha. cbn [snd] in Ha.
  rewrite forallb_forall in Ha. intros name Hn. by apply Ha, list_elem_of_In.
Qed.

Section Subjects.
Context `{Unicode}.

(** The digest of a mutation's subject binds every field of its schema:
    two bundles of well-formed evidence with one subject agree on each of them,
    unless their texts are a SHA-256 collision. *)
Theorem mutation_subject_binds action fields evidence1 evidence2 digest :
  assoc action _MUTATION_SUBJECT_FIELDS = Some fields ->
  _malformed_evidence evidence1 fields = [] -> _malformed_evidence evidence2 fields = [] ->
  mutation_subject_digest action evidence1 _MUTATION_SUBJECT_FIELDS = Ok digest ->
  mutation_subject_digest action evidence2 _MUTATION_SUBJECT_FIELDS = Ok digest ->
  (forall name, name ∈ fields -> value_of evidence1 name = value_of evidence2 name) \/
  subject_collision fields evidence1 evidence2.
Proof.
  intros Ha M1 M2. unfold mutation_subject_digest, _digest. rewrite Ha. intros E1 E2.
  destruct (String.eqb_spec (json_dumps (selected fields evidence1)) (json_dumps (selected fields evidence2)))
    as [E|Hne]; [left|right; unfold subject_collision; cbv zeta; split; [done|apply (res_Ok_inj _ _ (eq_trans E1 (eq_sym E2)))]].
  rewrite !selected_text in E. apply sapp_inj_l in E. apply join_members_inj in E.
  - intros name Hn. rewrite Forall_forall in E. apply E, ordered_names_elem. by apply dict_fromkeys_elem.
  - apply Forall_forall. intros name Hn. rewrite ordered_names_elem, dict_fromkeys_elem in Hn.
    pose proof (subjects_sealed _ _ Ha _ Hn) as Hs. rewrite malformed_none in M1, M2.
    split; apply sealed_field_plain; auto.
Qed.
End Subjects.

#[local] Existing Instance ascii_unicode.

Section Witness.
Local Open Scope string_scope.

Definition zeros_digest : string := "sha256:" +:+ zeros 64.
Definition cleanup_evidence : evidence_map :=
  {[ "subject_digest" := zeros_digest; "zero_resource_digest" := zeros_digest ]}.

Lemma mutation_subject_binds_witness :
  exists digest, mutation_subject_digest "cleanup_staging" cleanup_evidence _MUTATION_SUBJECT_FIELDS = Ok digest /\
    ((forall name, name ∈ ["subject_digest"; "zero_resource_digest"] ->
        value_of cleanup_evidence name = value_of cleanup_evidence name) \/
     subject_collision ["subject_digest"; "zero_resource_digest"] cleanup_evidence cleanup_evidence).
Proof.
  eexists. split; [reflexivity|].
  eapply (mutation_subject_binds "cleanup_staging" _ cleanup_evidence cleanup_evidence); reflexivity.
Defined.
End Witness.
