(* ===== verification/ControlData.v ===== *)
(** * The lifecycle control plane: data ([orchestration/lifecycle.py])

    The dataclasses of the control plane, what their [__post_init__] refuse, and
    the payloads whose digests bind them.  A [Mapping] whose order the code
    never observes (it is compared, looked up, or written with sorted keys) is a
    [gmap]; a [frozenset] of strings is a [gset]. *)
From Stdlib Require Import Ascii String.
From S2P Require Import Prelude Sha256 Json JsonText PyStr Lifecycle.

(** ** Times *)

(** A [datetime]: whether it has a time zone, and its microseconds (of UTC, if it
    has one). *)
Record instant : Type := { tz_aware : bool; micros : Z }.

(** [datetime.fromisoformat] ([None]: a [ValueError]), whose grammar differs
    between the interpreters the project supports, and
    [datetime.isoformat] of a time of UTC. *)
Class Datetime : Type := { fromisoformat : string -> option instant; utc_isoformat : Z -> string }.

Section Times.
Context `{Datetime}.

(** [datetime.fromisoformat(value.replace("Z", "+00:00"))]. *)
Definition parse_time (value : string) : option instant := fromisoformat (replace_char "Z" "+00:00" value).

(** [a < b]: a [TypeError] when only one of them has a time zone. *)
Definition before (a b : instant) : res bool :=
  if Bool.eqb (tz_aware a) (tz_aware b) then Ok (micros a <? micros b)
  else Raise (TypeError "can't compare offset-naive and offset-aware datetimes").

(** [max(times, default=None)], each time parsed when [max] asks for it; [None]
    is a text that does not parse. *)
Fixpoint latest_from (best : option instant) (times : list (option instant)) : res (option (option instant)) :=
  match times with
  | [] => Ok (Some best)
  | None :: _ => Ok None
  | Some t :: rest =>
      match best with
      | None => latest_from (Some t) rest
      | Some b => later ← before b t; latest_from (Some (if later : bool then t else b)) rest
      end
  end.
Definition latest : list (option instant) -> res (option (option instant)) := latest_from None.

Definition _timestamp_between (value : string) (lower upper : instant) : bool :=
  match parse_time value with
  | None => false
  | Some observed =>
      tz_aware observed && tz_aware lower && tz_aware upper
      && (micros lower <? micros observed) && (micros observed <=? micros upper)
  end.

(** [_live_utc_now()], at a reading of the clock. *)
Definition _live_utc_now (now : Z) : string := replace_str "+00:00" "Z" (utc_isoformat now).
End Times.

Definition _MAX_MUTATION_AUTHORIZATION_LIFETIME : Z := 5 * 60 * 1000000.
Definition _MAX_FINDING_INVENTORY_LIFETIME : Z := 5 * 60 * 1000000.

(** ** Mappings *)

(** The items of a mapping as a [dict]: in the order in which [json.dumps] writes
    them, which is the only place where the code sees an order. *)
Definition items {V} (m : gmap string V) : list (string * V) := sorted_items (map_to_list m).
Definition str_dict (m : evidence_map) : json := strs (items m).
Definition int_dict (m : gmap string Z) : json := JObj (map (fun p => (fst p, JInt (snd p))) (items m)).
Definition sorted_names (s : gset string) : json := JArr (map JStr (sorted_str (elements s))).

(** ** Authority *)

Record AuthoritySnapshot : Type := {
  as_contract_version : string;
  as_publisher_version : string;
  as_contract_active : bool;
  as_publisher_active : bool;
  as_observed_at : string;
  as_valid_until : string;
  as_digest : string
}.

Definition digest_valid (a : AuthoritySnapshot) : bool :=
  String.eqb (as_digest a) (_digest (JObj
    [("contract_version", JStr (as_contract_version a)); ("publisher_version", JStr (as_publisher_version a));
     ("contract_active", JBool (as_contract_active a)); ("publisher_active", JBool (as_publisher_active a));
     ("observed_at", JStr (as_observed_at a)); ("valid_until", JStr (as_valid_until a))]%string)).

Definition current (a : AuthoritySnapshot) : bool :=
  as_contract_active a && as_publisher_active a && nonempty (as_contract_version a)
  && nonempty (as_publisher_version a) && nonempty (as_observed_at a) && nonempty (as_valid_until a)
  && nonempty (as_digest a).

Definition current_at `{Datetime} (a : AuthoritySnapshot) (transition_observed_at : string) : bool :=
  if negb (current a) || negb (digest_valid a) || negb (nonempty transition_observed_at) then false
  else
    match parse_time (as_observed_at a), parse_time (as_valid_until a), parse_time transition_observed_at with
    | Some authority_observed, Some valid_until, Some transition_observed =>
        tz_aware authority_observed && tz_aware valid_until && tz_aware transition_observed
        && (micros authority_observed =? micros transition_observed)
        && (micros transition_observed <? micros valid_until)
    | _, _, _ => false
    end.

(** ** Budgets *)

Definition _BUDGET_DIMENSIONS : gset string :=
  {[ "tokens"; "credits"; "elapsed_seconds"; "external_compute_seconds"; "spend_microunits" ]}%string.

Record BudgetPolicy : Type := {
  bp_version : string;
  bp_limits : gmap string Z;
  bp_repair_attempts_per_finding : Z;
  bp_repair_attempts_per_stage : Z;
  bp_reserved_safety_units : Z;
  bp_approved_by : string
}.

(** [BudgetPolicy.__post_init__]. *)
Definition new_budget_policy (p : BudgetPolicy) : res BudgetPolicy :=
  _ ← raise_if (negb (nonempty (bp_version p)) || negb (nonempty (bp_approved_by p)))
        (ValueError "budget policy must be versioned and approved");
  _ ← raise_if (negb (bool_decide (dom (bp_limits p) = _BUDGET_DIMENSIONS)))
        (ValueError "every delivery budget dimension must be configured");
  _ ← raise_if (existsb (fun q => snd q <=? 0) (map_to_list (bp_limits p)))
        (ValueError "budget limits must be positive");
  _ ← raise_if ((bp_repair_attempts_per_finding p <=? 0) || (bp_repair_attempts_per_stage p <=? 0))
        (ValueError "repair budgets must be positive");
  _ ← raise_if (bp_reserved_safety_units p <=? 0) (ValueError "reserved safety budget must be positive");
  Ok p.

Definition _budget_policy_payload (p : BudgetPolicy) : json := JObj
  [("version", JStr (bp_version p)); ("limits", int_dict (bp_limits p));
   ("repair_attempts_per_finding", JInt (bp_repair_attempts_per_finding p));
   ("repair_attempts_per_stage", JInt (bp_repair_attempts_per_stage p));
   ("reserved_safety_units", JInt (bp_reserved_safety_units p));
   ("approved_by", JStr (bp_approved_by p))]%string.

Record BudgetUsage : Type := {
  bu_counters : gmap string Z;
  bu_by_finding : gmap string Z;
  bu_by_stage : gmap string Z;
  bu_safety_units_used : Z
}.
#[export] Instance BudgetUsage_eq_dec : EqDecision BudgetUsage.
Proof. solve_decision. Defined.
Definition no_usage : BudgetUsage :=
  {| bu_counters := ∅; bu_by_finding := ∅; bu_by_stage := ∅; bu_safety_units_used := 0 |}.

Definition some_negative (m : gmap string Z) : bool := existsb (fun p => snd p <? 0) (map_to_list m).

(** [BudgetUsage.__post_init__]. *)
Definition new_budget_usage (u : BudgetUsage) : res BudgetUsage :=
  _ ← raise_if (some_negative (bu_counters u) || some_negative (bu_by_finding u)
                || some_negative (bu_by_stage u) || (bu_safety_units_used u <? 0))
        (ValueError "budget usage counters cannot be negative");
  Ok u.

Definition _budget_usage_payload (u : BudgetUsage) : json := JObj
  [("counters", int_dict (bu_counters u)); ("repair_attempts_by_finding", int_dict (bu_by_finding u));
   ("repair_attempts_by_stage", int_dict (bu_by_stage u));
   ("safety_units_used", JInt (bu_safety_units_used u))]%string.

(** [m.get(name, 0)]. *)
Definition count (name : string) (m : gmap string Z) : Z := default 0 (m !! name).

Definition exhausted_dimensions (u : BudgetUsage) (p : BudgetPolicy) : list string :=
  sorted_str (map fst (List.filter (fun q => snd q <=? count (fst q) (bu_counters u))
                         (map_to_list (bp_limits p)))).
Definition safety_available (u : BudgetUsage) (p : BudgetPolicy) : bool :=
  bu_safety_units_used u <? bp_reserved_safety_units p.

(** ** Trust roots *)

Record EvidenceTrustPolicy : Type := {
  adapter_authorities : evidence_map;
  budget_owner_authorities : evidence_map;
  repository_observers : evidence_map;
  work_controllers : evidence_map;
  production_approvers : evidence_map;
  budget_meters : evidence_map;
  formal_reviewers : evidence_map;
  native_merge_gates : evidence_map;
  finding_sources : evidence_map;
  mutation_authorizers : evidence_map;
  live_observers : evidence_map;
  authority_observers : evidence_map;
  integrity_monitors : evidence_map
}.

Definition no_trust : EvidenceTrustPolicy := {|
  adapter_authorities := ∅; budget_owner_authorities := ∅; repository_observers := ∅;
  work_controllers := ∅; production_approvers := ∅; budget_meters := ∅; formal_reviewers := ∅;
  native_merge_gates := ∅; finding_sources := ∅; mutation_authorizers := ∅; live_observers := ∅;
  authority_observers := ∅; integrity_monitors := ∅ |}.

(** The roots by their names. *)
Definition trust_roots (t : EvidenceTrustPolicy) : list (string * evidence_map) :=
  [("adapter_authorities", adapter_authorities t); ("budget_owner_authorities", budget_owner_authorities t);
   ("repository_observers", repository_observers t); ("work_controllers", work_controllers t);
   ("production_approvers", production_approvers t); ("budget_meters", budget_meters t);
   ("formal_reviewers", formal_reviewers t); ("native_merge_gates", native_merge_gates t);
   ("finding_sources", finding_sources t); ("mutation_authorizers", mutation_authorizers t);
   ("live_observers", live_observers t); ("authority_observers", authority_observers t);
   ("integrity_monitors", integrity_monitors t)]%string.

(** [EvidenceTrustPolicy.__post_init__]. *)
Definition new_trust_policy (t : EvidenceTrustPolicy) : res EvidenceTrustPolicy :=
  _ ← raise_if (existsb (fun root => existsb (fun p => negb (nonempty (fst p)) || negb (is_sha256 (snd p)))
                                       (map_to_list (snd root))) (trust_roots t))
        (ValueError "evidence trust roots require named canonical authorities");
  Ok t.

Definition _trust_policy_payload (t : EvidenceTrustPolicy) : json :=
  JObj (map (fun root => (fst root, str_dict (snd root))) (trust_roots t)).

(** ** Rollout and work *)

Record RolloutStatus : Type := { ro_staging : string; ro_canary : string; ro_changed_production : string }.

(** [RolloutStatus.__post_init__]. *)
Definition new_rollout_status (r : RolloutStatus) : res RolloutStatus :=
  let known s := str_in s ["NONE"; "ACTIVE"; "UNKNOWN"; "REMOVED"]%string in
  _ ← raise_if (negb (known (ro_staging r) && known (ro_canary r) && known (ro_changed_production r)))
        (ValueError "rollout status is not admitted");
  Ok r.

Definition present (status : string) : bool := str_in status ["ACTIVE"; "UNKNOWN"]%string.
Definition has_exposure (r : RolloutStatus) : bool := present (ro_canary r) || present (ro_changed_production r).
Definition has_resources (r : RolloutStatus) : bool := present (ro_staging r) || has_exposure r.

Definition rollout_dict (r : RolloutStatus) : json :=
  strs [("staging", ro_staging r); ("canary", ro_canary r); ("changed_production", ro_changed_production r)]%string.

Record WorkStatus : Type := {
  wk_leases_active : Z;
  wk_stopped : bool;
  wk_mutation_capability_active : bool;
  wk_partial_output_disposition : string
}.

(** [WorkStatus.__post_init__]. *)
Definition new_work_status (w : WorkStatus) : res WorkStatus :=
  _ ← raise_if (wk_leases_active w <? 0) (ValueError "worker lease count cannot be negative");
  Ok w.

Definition work_dict (w : WorkStatus) : json := JObj
  [("worker_leases_active", JInt (wk_leases_active w)); ("workers_stopped", JBool (wk_stopped w));
   ("mutation_capability_active", JBool (wk_mutation_capability_active w));
   ("partial_output_disposition", JStr (wk_partial_output_disposition w))]%string.

(** [work.worker_leases_active or not work.workers_stopped]. *)
Definition workers_busy (w : WorkStatus) : bool := negb (wk_leases_active w =? 0) || negb (wk_stopped w).

(** ** Approvals, actors and findings *)

Record Approval : Type := {
  ap_id : string;
  ap_actor : string;
  ap_subject_digest : string;
  ap_kind : string;
  ap_eligible : bool;
  ap_active : bool;
  ap_reviewed_commit_sha : string;
  ap_reviewed_candidate_digest : string;
  ap_review_evidence_digest : string;
  ap_authentication_evidence_digest : string;
  ap_submitted_at : string
}.

Definition approval_members (a : Approval) : list (string * json) :=
  [("approval_id", JStr (ap_id a)); ("actor", JStr (ap_actor a)); ("subject_digest", JStr (ap_subject_digest a));
   ("kind", JStr (ap_kind a)); ("eligible", JBool (ap_eligible a)); ("active", JBool (ap_active a));
   ("reviewed_commit_sha", JStr (ap_reviewed_commit_sha a));
   ("reviewed_candidate_digest", JStr (ap_reviewed_candidate_digest a));
   ("review_evidence_digest", JStr (ap_review_evidence_digest a));
   ("authentication_evidence_digest", JStr (ap_authentication_evidence_digest a));
   ("submitted_at", JStr (ap_submitted_at a))]%string.
Definition approval_dict (a : Approval) : json := JObj (approval_members a).
Definition _production_approval_payload (a : Approval) : json :=
  JObj (assoc_del "authentication_evidence_digest" (approval_members a)).

Record TransitionActor : Type := {
  ac_id : string;
  ac_role : string;
  ac_authenticated : bool;
  ac_capabilities : gset string;
  ac_subject_digest : string;
  ac_authority_digest : string;
  ac_authentication_evidence_digest : string
}.

Definition _actor_authentication_payload (a : TransitionActor) : json := JObj
  [("actor_id", JStr (ac_id a)); ("role", JStr (ac_role a)); ("authenticated", JBool (ac_authenticated a));
   ("capabilities", sorted_names (ac_capabilities a)); ("subject_digest", JStr (ac_subject_digest a));
   ("authority_digest", JStr (ac_authority_digest a))]%string.

Record FindingSignal : Type := {
  fs_id : string;
  fs_source : string;
  fs_exact_subject_digest : string;
  fs_severity : string;
  fs_credible : bool;
  fs_blocking : bool;
  fs_reviewer_eligible : bool;
  fs_category : string;
  fs_disposition : string;
  fs_affected_scope_digest : string
}.

Definition finding_dict (f : FindingSignal) : json := JObj
  [("finding_id", JStr (fs_id f)); ("source", JStr (fs_source f));
   ("exact_subject_digest", JStr (fs_exact_subject_digest f)); ("severity", JStr (fs_severity f));
   ("credible", JBool (fs_credible f)); ("blocking", JBool (fs_blocking f));
   ("reviewer_eligible", JBool (fs_reviewer_eligible f)); ("category", JStr (fs_category f));
   ("disposition", JStr (fs_disposition f)); ("affected_scope_digest", JStr (fs_affected_scope_digest f))]%string.

(** [_FINDING_ID] and [_FINDING_SOURCE], with [fullmatch]. *)
Definition id_with (first rest : ascii -> bool) (s : string) : bool :=
  match s with EmptyString => false | String c s' => first c && string_forallb rest s' end.
Definition is_finding_id : string -> bool := id_with is_alnum (fun c => is_alnum c || char_in "._:-" c).
Definition is_finding_source : string -> bool :=
  let lower_alnum c := is_lower c || is_digit c in id_with lower_alnum (fun c => lower_alnum c || char_in "._:-" c).

(** [s.upper() == word], for a word of ASCII capitals: besides the small letter,
    the dotless i (U+0131) has the capital I. *)
Fixpoint upper_is (word s : string) : bool :=
  match word, s with
  | EmptyString, EmptyString => true
  | String w word', String c s' =>
      (Ascii.eqb (upper_char c) w && upper_is word' s')
      || match s' with
         | String d s'' => Ascii.eqb w "I" && (byte_n c =? 196)%N && (byte_n d =? 177)%N && upper_is word' s''
         | EmptyString => false
         end
  | _, _ => false
  end.

Definition _normalized_engineering_finding (finding : option FindingSignal) (subject_digest : string)
    (accepted_for_repair : bool) : bool :=
  match finding with
  | None => false
  | Some f =>
      is_finding_id (fs_id f) && is_finding_source (fs_source f)
      && String.eqb (fs_exact_subject_digest f) subject_digest
      && existsb (fun word => upper_is word (fs_severity f)) ["CRITICAL"; "HIGH"; "MEDIUM"]%string
      && fs_credible f && fs_blocking f && String.eqb (fs_category f) "ENGINEERING"
      && str_in (fs_disposition f)
           (if accepted_for_repair then ["ACCEPTED_FOR_REPAIR"] else ["ACCEPTED"; "ACCEPTED_FOR_REPAIR"])%string
      && is_sha256 (fs_affected_scope_digest f)
  end.

(** ** Mutations *)

Record MutationAttempt : Type := {
  ma_id : string;
  ma_idempotency_key : string;
  ma_subject_digest : string;
  ma_action : string;
  ma_step_plan_digest : string;
  ma_status : string;
  ma_steps : list string
}.
#[export] Instance MutationAttempt_eq_dec : EqDecision MutationAttempt.
Proof. solve_decision. Defined.

(** [MutationAttempt.__post_init__]. *)
Definition new_mutation_attempt (a : MutationAttempt) : res MutationAttempt :=
  _ ← raise_if (negb (nonempty (ma_id a) && nonempty (ma_idempotency_key a) && nonempty (ma_subject_digest a)
                      && nonempty (ma_action a) && nonempty (ma_step_plan_digest a)))
        (ValueError "mutation attempt metadata is incomplete");
  _ ← raise_if (negb (String.eqb (ma_status a) "PLANNED"))
        (ValueError "a mutation attempt must be pre-journaled as PLANNED");
  Ok a.

Definition attempt_members (a : MutationAttempt) : list (string * json) :=
  [("attempt_id", JStr (ma_id a)); ("idempotency_key", JStr (ma_idempotency_key a));
   ("subject_digest", JStr (ma_subject_digest a)); ("action", JStr (ma_action a));
   ("step_plan_digest", JStr (ma_step_plan_digest a)); ("status", JStr (ma_status a));
   ("steps", JArr (map JStr (ma_steps a)))]%string.
Definition attempt_dict (a : MutationAttempt) : json := JObj (attempt_members a).

(** [_digest(asdict(attempt)) if attempt is not None else ""]. *)
Definition attempt_digest (attempt : option MutationAttempt) : string :=
  match attempt with Some a => _digest (attempt_dict a) | None => "" end.

Record MutationAuthorization : Type := {
  mz_authorizer_id : string;
  mz_authority_digest : string;
  mz_subject_digest : string;
  mz_source_state : LifecycleState;
  mz_action : string;
  mz_attempt_id : string;
  mz_idempotency_key : string;
  mz_step_plan_digest : string;
  mz_steps : list string;
  mz_observed_at : string;
  mz_expires_at : string;
  mz_authentication_evidence_digest : string
}.

Record MutationResult : Type := {
  mr_attempt_id : string;
  mr_idempotency_key : string;
  mr_status : string;
  mr_result_digest : option string
}.
#[export] Instance MutationResult_eq_dec : EqDecision MutationResult.
Proof. solve_decision. Defined.

Definition successful (r : MutationResult) : bool :=
  String.eqb (mr_status r) "SUCCEEDED" && bool_decide (mr_result_digest r <> None).

Definition opt_str (s : option string) : json := match s with Some x => JStr x | None => JNull end.

Record AdapterResultEvidence : Type := {
  ae_adapter_id : string;
  ae_role : string;
  ae_authenticated : bool;
  ae_capabilities : gset string;
  ae_subject_digest : string;
  ae_authority_digest : string;
  ae_attempt_id : string;
  ae_idempotency_key : string;
  ae_action : string;
  ae_step_plan_digest : string;
  ae_status : string;
  ae_result_digest : option string;
  ae_authentication_evidence_digest : string
}.

Definition _adapter_result_evidence_payload (e : AdapterResultEvidence) : json := JObj
  [("adapter_id", JStr (ae_adapter_id e)); ("role", JStr (ae_role e));
   ("authenticated", JBool (ae_authenticated e)); ("capabilities", sorted_names (ae_capabilities e));
   ("subject_digest", JStr (ae_subject_digest e)); ("authority_digest", JStr (ae_authority_digest e));
   ("attempt_id", JStr (ae_attempt_id e)); ("idempotency_key", JStr (ae_idempotency_key e));
   ("action", JStr (ae_action e)); ("step_plan_digest", JStr (ae_step_plan_digest e));
   ("status", JStr (ae_status e)); ("result_digest", opt_str (ae_result_digest e))]%string.

Record BudgetExtensionAuthorization : Type := {
  be_extension_id : string;
  be_owner_id : string;
  be_owner_role : string;
  be_authenticated : bool;
  be_capabilities : gset string;
  be_run_id : string;
  be_subject_digest : string;
  be_authority_digest : string;
  be_credential_digest : string;
  be_prior_policy_digest : string;
  be_proposed_policy_digest : string;
  be_amounts : gmap string Z;
  be_reason : string;
  be_valid_from : string;
  be_valid_until : string;
  be_authority_observer_id : string;
  be_authority_observer_authority_digest : string;
  be_authority_current_time : string;
  be_admission_challenge : string;
  be_authority_authentication_evidence_digest : string;
  be_evidence_digest : string
}.

Definition _budget_extension_authorization_payload (a : BudgetExtensionAuthorization) : json := JObj
  [("extension_id", JStr (be_extension_id a)); ("owner_id", JStr (be_owner_id a));
   ("owner_role", JStr (be_owner_role a)); ("authenticated", JBool (be_authenticated a));
   ("capabilities", sorted_names (be_capabilities a)); ("run_id", JStr (be_run_id a));
   ("subject_digest", JStr (be_subject_digest a)); ("authority_digest", JStr (be_authority_digest a));
   ("credential_digest", JStr (be_credential_digest a));
   ("prior_policy_digest", JStr (be_prior_policy_digest a));
   ("proposed_policy_digest", JStr (be_proposed_policy_digest a)); ("amounts", int_dict (be_amounts a));
   ("reason", JStr (be_reason a)); ("valid_from", JStr (be_valid_from a));
   ("valid_until", JStr (be_valid_until a));
   ("authority_observer_id", JStr (be_authority_observer_id a));
   ("authority_observer_authority_digest", JStr (be_authority_observer_authority_digest a));
   ("authority_current_time", JStr (be_authority_current_time a));
   ("admission_challenge", JStr (be_admission_challenge a))]%string.

(** ** Contexts and events *)

Record TransitionContext : Type := {
  tc_actor : TransitionActor;
  tc_evidence : evidence_map;
  tc_authority : AuthoritySnapshot;
  tc_budget_usage : BudgetUsage;
  tc_rollout : RolloutStatus;
  tc_work : WorkStatus;
  tc_approvals : list Approval;
  tc_finding : option FindingSignal;
  tc_mutation : option MutationAttempt;
  tc_observed_at : string
}.

Definition with_evidence (evidence : evidence_map) (c : TransitionContext) : TransitionContext := {|
  tc_actor := tc_actor c; tc_evidence := evidence; tc_authority := tc_authority c;
  tc_budget_usage := tc_budget_usage c; tc_rollout := tc_rollout c; tc_work := tc_work c;
  tc_approvals := tc_approvals c; tc_finding := tc_finding c; tc_mutation := tc_mutation c;
  tc_observed_at := tc_observed_at c |}.

Record LifecycleEvent : Type := {
  ev_sequence : Z;
  ev_kind : string;
  ev_outcome : string;
  ev_source : LifecycleState;
  ev_target : LifecycleState;
  ev_reason : string;
  ev_actor : string;
  ev_subject_digest : string;
  ev_policy_digest : string;
  ev_evidence_digest : string;
  ev_evidence_refs : evidence_map;
  ev_budget_usage : option (list (string * json));
  ev_observed_at : string;
  ev_resume_state : option LifecycleState;
  ev_previous_digest : string;
  ev_event_digest : string;
  ev_detail : string
}.

Definition applied (e : LifecycleEvent) : bool := String.eqb (ev_outcome e) "APPLIED".

(** [next((event for event in reversed(events) if p(event)), None)]. *)
Definition last_event (p : LifecycleEvent -> bool) (events : list LifecycleEvent) : option LifecycleEvent :=
  List.find p (rev events).

(** ** Payloads *)

Definition _NATIVE_MERGE_GATE_BINDING_FIELDS : list string :=
  ["subject_digest"; "queue_subject_digest"; "head_commit_sha"; "protected_base_sha"; "base_digest";
   "prospective_tree_digest"; "required_checks_digest"; "formal_review_digest";
   "verification_bundle_digest"; "merge_admission_bundle_digest"; "repository_rules_digest";
   "architecture_policy_digest"; "toolchain_policy_digest"; "environment_profile_digest";
   "security_policy_digest"; "verification_policy_digest"; "evidence_policy_digest";
   "authority_revalidation_digest"; "finding_high_watermark_digest"; "finding_source_set_digest";
   "finding_inventory_epochs_digest"; "merge_result_digest"; "merge_commit_sha"; "merge_tree_digest";
   "merge_method_digest"; "merge_actor_digest"]%string.

(** [{name: evidence.get(name, "") for name in names}], names distinct. *)
Definition selected_members (names : list string) (evidence : evidence_map) : list (string * string) :=
  map (fun name => (name, got name evidence)) names.

Definition _native_merge_gate_payload (evidence : evidence_map) : json := JObj
  [("decision", JObj [("admitted", JBool true); ("outcome", JStr "PR_MERGED"); ("rollout_allowed", JBool true)]);
   ("bindings", strs (selected_members _NATIVE_MERGE_GATE_BINDING_FIELDS evidence))]%string.
