(* ===== verification/ControlEvidence.v ===== *)
(** * The lifecycle control plane: trusted evidence ([orchestration/lifecycle.py])

    The state of a [LifecycleControlPlane], the services it calls, and the
    methods [_trusted_*_valid] that accept a claim only from a root of trust,
    bound to the subject of the run. *)
From Stdlib Require Import Ascii String.
From S2P Require Import Prelude Sha256 Json JsonText PyStr Lifecycle LifecycleRules ControlData.

(** ** The instance *)

Record plane : Type := {
  run_id : string;
  subject_digest : string;
  state : LifecycleState;
  budget_policy : BudgetPolicy;
  policy : LifecyclePolicy;
  trust_policy : EvidenceTrustPolicy;
  events : list LifecycleEvent;
  completion_claim_active : bool;
  mutation_attempts : gmap string MutationAttempt;
  mutation_results : gmap string MutationResult;
  verified_mutation_result_keys : gset string;
  consumed_mutation_result_keys : gset string;
  budget_extension_challenge : option (string * Z); (* with its deadline *)
  budget_usage : BudgetUsage
}.

(** ** The environment of one operation *)

(** The points at which an operation reads the clock, each at most once. *)
Inductive reading : Type :=
  | InventoryTime | ReadinessTime | MergeTime | StagingTime | CompletionTime | ReleaseTime
  | AuthorizationTime.

(** What [run_dir] is when the lock is taken. *)
Inductive directory : Type := SameDirectory | MissingDirectory | ReplacedDirectory.

Record control_env : Type := {
  (* [evidence_verifier(identity, authority, payload, proof)], [None] inside: it raises *)
  evidence_verifier : option (string -> string -> json -> string -> option bool);
  bundle_verifier : option (string -> json -> option bool);
  utc_now : reading -> Z;
  monotonic : Z;
  run_directory : directory;
  (* a write to the ledger or the journal that the system interrupts after so
     many characters, and one of the metadata *)
  interrupted_write : option nat;
  interrupted_metadata : bool;
  (* what the retention sweep over the other runs raises *)
  purge_error : option exn
}.

(** ** Claims and roots of trust *)

Section Evidence.
Context `{Datetime}.
Variable e : control_env.
Variable p : plane.

Definition _verify_external_evidence (identity authority_digest : string) (payload : json) (proof : string) : bool :=
  match evidence_verifier e with
  | None => false
  | Some verify => nonempty proof && default false (verify identity authority_digest payload proof)
  end.

(** [roots.get(identity) == authority_digest], and the proof verifies. *)
Definition rooted (roots : evidence_map) (identity authority_digest : string) : bool :=
  bool_decide (roots !! identity = Some authority_digest).
Definition attested (roots : evidence_map) (identity authority_digest : string) (payload : json)
    (proof : string) : bool :=
  rooted roots identity authority_digest && _verify_external_evidence identity authority_digest payload proof.

Section Context_.
Variable c : TransitionContext.

Definition ev (name : string) : string := got name (tc_evidence c).

(** [evidence.get(name) == value]. *)
Definition ev_is (name value : string) : bool := bool_decide (tc_evidence c !! name = Some value).

(** [{name: evidence.get(name, "") for name in names}]. *)
Definition claims (names : list string) : list (string * string) := selected_members names (tc_evidence c).

Definition _trusted_work_evidence_valid : bool :=
  let controller := ev "work_controller_id" in
  let authority_digest := ev "work_controller_authority_digest" in
  let observed_at := ev "work_control_observed_at" in
  let lease_epoch := ev "work_lease_epoch_digest" in
  let capability_epoch := ev "mutation_capability_epoch_digest" in
  let work_digest := _digest (work_dict (tc_work c)) in
  let quiescence := _digest (strs
    [("controller_id", controller); ("authority_digest", authority_digest);
     ("subject_digest", subject_digest p); ("work_digest", work_digest);
     ("lease_epoch_digest", lease_epoch); ("observed_at", observed_at); ("status", "QUIESCED")]%string) in
  let revocation := _digest (strs
    [("controller_id", controller); ("authority_digest", authority_digest);
     ("subject_digest", subject_digest p); ("work_digest", work_digest);
     ("capability_epoch_digest", capability_epoch); ("observed_at", observed_at); ("status", "REVOKED")]%string) in
  let authentication_payload := strs
    [("controller_id", controller); ("authority_digest", authority_digest);
     ("subject_digest", subject_digest p); ("quiescence_digest", quiescence);
     ("revocation_digest", revocation); ("observed_at", observed_at)]%string in
  nonempty controller && rooted (work_controllers (trust_policy p)) controller authority_digest
  && String.eqb observed_at (tc_observed_at c) && is_sha256 lease_epoch && is_sha256 capability_epoch
  && ev_is "worker_quiescence_digest" quiescence && ev_is "mutation_revocation_digest" revocation
  && _verify_external_evidence controller authority_digest authentication_payload
       (ev "work_control_authentication_evidence_digest").

Definition _trusted_repository_observation_valid (review_inputs : list (string * string)) : bool :=
  let observer := ev "repository_observer_id" in
  let authority_digest := ev "repository_observer_authority_digest" in
  let observed_at := ev "repository_observed_at" in
  let observation := _digest (JObj
    [("observer_id", JStr observer); ("authority_digest", JStr authority_digest);
     ("subject_digest", JStr (subject_digest p)); ("review_inputs", strs review_inputs);
     ("observed_at", JStr observed_at)]%string) in
  let authentication_payload := strs
    [("observer_id", observer); ("authority_digest", authority_digest); ("subject_digest", subject_digest p);
     ("observation_digest", observation); ("observed_at", observed_at)]%string in
  nonempty observer && rooted (repository_observers (trust_policy p)) observer authority_digest
  && String.eqb observed_at (tc_observed_at c) && ev_is "repository_observation_digest" observation
  && _verify_external_evidence observer authority_digest authentication_payload
       (ev "repository_observation_authentication_evidence_digest").

Definition _trusted_budget_usage_valid : bool :=
  let meter := ev "budget_meter_id" in
  let authority_digest := ev "budget_meter_authority_digest" in
  let usage_digest := _digest (_budget_usage_payload (tc_budget_usage c)) in
  let payload := strs
    [("meter_id", meter); ("authority_digest", authority_digest); ("subject_digest", subject_digest p);
     ("budget_policy_digest", _digest (_budget_policy_payload (budget_policy p)));
     ("budget_usage_digest", usage_digest); ("observed_at", tc_observed_at c)]%string in
  nonempty meter && rooted (budget_meters (trust_policy p)) meter authority_digest
  && ev_is "budget_usage_digest" usage_digest
  && _verify_external_evidence meter authority_digest payload (ev "budget_meter_authentication_evidence_digest").

(** The times of the transitions before, where one was given. *)
Definition prior_times : list (option instant) :=
  map (fun x => parse_time (ev_observed_at x))
    (List.filter (fun x => String.eqb (ev_kind x) "TRANSITION" && applied x && nonempty (ev_observed_at x))
       (events p)).

Definition _trusted_authority_snapshot_valid : res bool :=
  let observer := ev "authority_observer_id" in
  let authority_digest := ev "authority_observer_authority_digest" in
  let snapshot := tc_authority c in
  let payload := JObj
    [("observer_id", JStr observer); ("authority_digest", JStr authority_digest);
     ("subject_digest", JStr (subject_digest p)); ("contract_version", JStr (as_contract_version snapshot));
     ("publisher_version", JStr (as_publisher_version snapshot));
     ("contract_active", JBool (as_contract_active snapshot));
     ("publisher_active", JBool (as_publisher_active snapshot));
     ("authority_observed_at", JStr (as_observed_at snapshot));
     ("valid_until", JStr (as_valid_until snapshot)); ("transition_observed_at", JStr (tc_observed_at c));
     ("authority_current_time", JStr (ev "authority_current_time"))]%string in
  match parse_time (tc_observed_at c), parse_time (ev "authority_current_time"),
        parse_time (as_valid_until snapshot) with
  | Some transition_time, Some trusted_time, Some valid_until =>
      prior ← latest prior_times;
      match prior with
      | None => Ok false
      | Some prior_time =>
          let too_early := match prior_time with
                           | Some t => negb (tz_aware t) || (micros transition_time <? micros t)
                           | None => false
                           end in
          Ok (tz_aware transition_time && tz_aware trusted_time && tz_aware valid_until && negb too_early
              && (micros transition_time <=? micros trusted_time) && (micros trusted_time <? micros valid_until)
              && current_at snapshot (tc_observed_at c)
              && nonempty observer
              && attested (authority_observers (trust_policy p)) observer authority_digest payload
                   (ev "authority_authentication_evidence_digest"))
      end
  | _, _, _ => Ok false
  end.

(** ** Findings *)

Definition inventory_field (source field : string) : string := "finding_inventory_" +:+ source +:+ "_" +:+ field.

Definition inventory_valid (source authority_digest : string) : bool :=
  let inventory_digest := ev (inventory_field source "digest") in
  let observed_at := ev (inventory_field source "observed_at") in
  let expires_at := ev (inventory_field source "expires_at") in
  let payload := strs
    [("source_id", source); ("authority_digest", authority_digest); ("subject_digest", subject_digest p);
     ("inventory_digest", inventory_digest); ("status", "NO_BLOCKING"); ("observed_at", observed_at);
     ("expires_at", expires_at)]%string in
  match parse_time observed_at, parse_time expires_at with
  | Some observed, Some expires =>
      tz_aware observed && tz_aware expires && (micros observed <? micros expires)
      && (micros expires - micros observed <=? _MAX_FINDING_INVENTORY_LIFETIME)
      && is_sha256 inventory_digest
      && _verify_external_evidence source authority_digest payload
           (ev (inventory_field source "authentication_evidence_digest"))
      (* [observed <= decision_time <= expires], decided after every source *)
      && (micros observed <=? utc_now e InventoryTime) && (utc_now e InventoryTime <=? micros expires)
  | _, _ => false
  end.

Definition _trusted_finding_inventory_valid : bool :=
  let sources := items (finding_sources (trust_policy p)) in
  negb (match sources with [] => true | _ => false end)
  && ev_is "finding_source_set_digest" (_digest (strs sources))
  && forallb (fun s => inventory_valid (fst s) (snd s)) sources
  && ev_is "finding_inventory_epochs_digest"
       (_digest (strs (map (fun s => (fst s, ev (inventory_field (fst s) "digest"))) sources))).

Definition _trusted_finding_signal_valid (finding : FindingSignal) : bool :=
  let authority_digest := got (fs_source finding) (finding_sources (trust_policy p)) in
  let payload := JObj
    [("finding", finding_dict finding); ("subject_digest", JStr (subject_digest p));
     ("observed_at", JStr (tc_observed_at c))]%string in
  nonempty authority_digest
  && _verify_external_evidence (fs_source finding) authority_digest payload
       (ev "finding_authentication_evidence_digest").

(** ** Resumption *)

Definition _trusted_resume_gate_valid (stopped_event : LifecycleEvent) (target : LifecycleState) : bool :=
  let observer := ev "resume_observer_id" in
  let authority_digest := ev "resume_observer_authority_digest" in
  let payload := strs
    ([("observer_id", observer); ("authority_digest", authority_digest); ("subject_digest", subject_digest p);
      ("stopped_event_digest", ev_event_digest stopped_event); ("stopped_reason", ev_reason stopped_event);
      ("resume_target", lifecycle_value target)]
     ++ claims ["incident_closure_digest"; "restored_capability_digest"; "unchanged_inputs_digest"]
     ++ [("observed_at", tc_observed_at c)])%list%string in
  nonempty observer
  && attested (repository_observers (trust_policy p)) observer authority_digest payload
       (ev "resume_authentication_evidence_digest").

(** ** Observations of the rollout *)

(** The claims of an observer of the live system: its name and authority are in
    the evidence under [prefix], its proof under [proof]. *)
Definition live_claim (prefix proof : string) (names : list string) : bool :=
  let observer := ev (prefix +:+ "_id") in
  let authority_digest := ev (prefix +:+ "_authority_digest") in
  let payload := strs
    ([("observer_id", observer); ("authority_digest", authority_digest); ("subject_digest", subject_digest p)]
     ++ claims names ++ [("observed_at", tc_observed_at c)])%list%string in
  nonempty observer && attested (live_observers (trust_policy p)) observer authority_digest payload (ev proof).

Definition live_fields : list string :=
  ["release_sha"; "artifact_digest"; "configuration_digest"; "production_attempt_digest";
   "production_result_digest"; "live_verification_digest"; "rollback_readiness_digest";
   "observation_window_digest"]%string.
Definition _trusted_live_evidence_valid : bool :=
  is_sha256 (ev "live_observer_authority_digest") && is_sha256 (subject_digest p)
  && forallb (fun name => negb (endswith name "digest") || is_sha256 (ev name)) live_fields
  && live_claim "live_observer" "live_observation_authentication_evidence_digest" live_fields.

(** The event that deployed to production. *)
Definition production_event : option LifecycleEvent :=
  last_event (fun x => applied x && bool_decide (ev_target x = PRODUCTION_DEPLOYED)
                       && String.eqb (ev_reason x) "production_admitted") (events p).

(** [evidence.get(name) == event.evidence_refs.get(name)] for each of the names. *)
Definition same_refs (names : list string) (x : LifecycleEvent) : bool :=
  forallb (fun name => bool_decide (tc_evidence c !! name = ev_evidence_refs x !! name)) names.

Definition deployment_fields : list string :=
  ["release_sha"; "artifact_digest"; "configuration_digest"; "production_attempt_digest";
   "production_result_digest"]%string.
Definition _trusted_live_failure_valid : bool :=
  match production_event with
  | None => false
  | Some binding =>
      same_refs ("subject_digest"%string :: deployment_fields) binding
      && live_claim "live_failure_observer" "live_failure_authentication_evidence_digest"
           (deployment_fields ++ ["live_failure_digest"; "telemetry_digest"]%string)
  end.

Definition _trusted_canary_window_valid : bool :=
  live_claim "canary_window_observer" "canary_window_authentication_evidence_digest"
    ["canary_id_digest"; "canary_attempt_digest"; "canary_status_digest"; "slo_window_digest"]%string.
Definition _trusted_canary_breach_valid : bool :=
  live_claim "canary_breach_observer" "canary_breach_authentication_evidence_digest"
    ["canary_id_digest"; "canary_attempt_digest"; "canary_status_digest"; "canary_failure_digest"]%string.
Definition _trusted_canary_teardown_valid : bool :=
  str_in (ro_canary (tc_rollout c)) ["NONE"; "REMOVED"]%string
  && live_claim "canary_teardown_observer" "canary_teardown_authentication_evidence_digest"
       ["canary_teardown_digest"; "zero_resource_digest"]%string.

Definition _trusted_rollback_evidence_valid : bool :=
  let observer := ev "live_observer_id" in
  let authority_digest := ev "live_observer_authority_digest" in
  let payload := strs
    ([("observer_id", observer); ("authority_digest", authority_digest); ("subject_digest", subject_digest p);
      ("rollout_digest", _digest (rollout_dict (tc_rollout c)))]
     ++ claims ["rollback_exposure_digest"; "restoration_verification_digest"]
     ++ [("observed_at", tc_observed_at c)])%list%string in
  nonempty observer
  && attested (live_observers (trust_policy p)) observer authority_digest payload
       (ev "rollback_observation_authentication_evidence_digest").

(** [evidence.get("incident_digest", evidence.get("safe_state_digest", ""))]. *)
Definition trigger_digest : string := default (ev "safe_state_digest") (tc_evidence c !! "incident_digest"%string).

Definition _trusted_integrity_monitor_valid : bool :=
  let monitor := ev "integrity_monitor_id" in
  let authority_digest := ev "integrity_monitor_authority_digest" in
  let payload := strs
    [("monitor_id", monitor); ("authority_digest", authority_digest); ("subject_digest", subject_digest p);
     ("actor_id", ac_id (tc_actor c)); ("role", ac_role (tc_actor c)); ("trigger_digest", trigger_digest);
     ("observed_at", tc_observed_at c)]%string in
  nonempty monitor && String.eqb monitor (ac_id (tc_actor c))
  && attested (integrity_monitors (trust_policy p)) monitor authority_digest payload
       (ev "integrity_monitor_authentication_evidence_digest").
End Context_.

(** ** The release of a mutation *)

Definition _mutation_authorization_valid (attempt : MutationAttempt) (authorization : MutationAuthorization) : bool :=
  let a := authorization in
  let payload := JObj
    [("authorizer_id", JStr (mz_authorizer_id a)); ("authority_digest", JStr (mz_authority_digest a));
     ("subject_digest", JStr (mz_subject_digest a)); ("source_state", JStr (lifecycle_value (mz_source_state a)));
     ("action", JStr (mz_action a)); ("attempt_id", JStr (mz_attempt_id a));
     ("idempotency_key", JStr (mz_idempotency_key a)); ("step_plan_digest", JStr (mz_step_plan_digest a));
     ("steps", JStrs (mz_steps a)); ("observed_at", JStr (mz_observed_at a));
     ("expires_at", JStr (mz_expires_at a))]%string in
  let temporally_valid :=
    match parse_time (mz_observed_at a), parse_time (mz_expires_at a) with
    | Some observed_at, Some expires_at =>
        tz_aware observed_at && tz_aware expires_at
        && (micros observed_at <=? utc_now e AuthorizationTime) && (utc_now e AuthorizationTime <=? micros expires_at)
        && (micros expires_at - micros observed_at <=? _MAX_MUTATION_AUTHORIZATION_LIFETIME)
    | _, _ => false
    end in
  existsb (fun r => bool_decide (mutation_action r = Some (ma_action attempt))) (rules_from (policy p) (state p))
  && String.eqb (mz_subject_digest a) (subject_digest p) && String.eqb (subject_digest p) (ma_subject_digest attempt)
  && bool_decide (mz_source_state a = state p) && String.eqb (mz_action a) (ma_action attempt)
  && String.eqb (mz_attempt_id a) (ma_id attempt)
  && String.eqb (mz_idempotency_key a) (ma_idempotency_key attempt)
  && String.eqb (mz_step_plan_digest a) (ma_step_plan_digest attempt)
  && bool_decide (mz_steps a = ma_steps attempt) && temporally_valid
  && attested (mutation_authorizers (trust_policy p)) (mz_authorizer_id a) (mz_authority_digest a) payload
       (mz_authentication_evidence_digest a).

(** ** The events that bind later ones *)

Definition _latest_canary_binding : option LifecycleEvent :=
  last_event (fun x => String.eqb (ev_reason x) "canary_admitted"
                       && ((applied x && bool_decide (ev_target x = CANARY_DEPLOYED))
                           || String.eqb (ev_kind x) "CANARY_BINDING_ADMITTED")) (events p).
Definition _latest_review_binding : option LifecycleEvent :=
  last_event (fun x => str_in (ev_reason x) ["formal_review_clear"; "advisory_readiness_clear"]%string
                       && ((applied x && bool_decide (ev_target x = PR_READY))
                           || String.eqb (ev_kind x) "REVIEW_BINDING_ADMITTED")) (events p).
Definition _latest_merge_binding : option LifecycleEvent :=
  last_event (fun x => String.eqb (ev_reason x) "native_merge_linearized" && applied x
                       && bool_decide (ev_target x = PR_MERGED)) (events p).

(** ** Sealed bundles of evidence *)

Definition _sealed_bundle_valid (digest : string) (bindings : list (string * string)) : bool :=
  match bundle_verifier e with
  | None => false
  | Some verify => default false (verify digest (strs bindings))
  end.

Definition bundle_policies : list string :=
  ["repository_rules_digest"; "architecture_policy_digest"; "toolchain_policy_digest";
   "environment_profile_digest"; "security_policy_digest"; "verification_policy_digest";
   "evidence_policy_digest"]%string.

Definition merge_ref (name : string) : string :=
  match _latest_merge_binding with Some x => got name (ev_evidence_refs x) | None => "" end.
Definition _staging_bundle_bindings (evidence : evidence_map) (as_of : string) : list (string * string) :=
  ([("profile", "staging"); ("as_of", as_of); ("subject_digest", got "subject_digest" evidence);
    ("observed_merge_sha", merge_ref "merge_commit_sha");
    ("observed_merge_tree_digest", merge_ref "merge_tree_digest")]
   ++ selected_members ["artifact_digest"; "configuration_digest"; "finding_source_set_digest";
                        "finding_inventory_epochs_digest"; "authority_fence_digest";
                        "staging_authorization_digest"] evidence)%list%string.
Definition _readiness_bundle_bindings (evidence : evidence_map) (as_of : string) : list (string * string) :=
  ([("profile", "candidate_review"); ("as_of", as_of)]
   ++ selected_members (["subject_digest"; "protected_base_sha"; "reviewed_commit_sha"; "prospective_tree_digest";
                         "review_digest"] ++ bundle_policies) evidence)%list%string.
Definition _merge_admission_bundle_bindings (evidence : evidence_map) (as_of : string) : list (string * string) :=
  ([("profile", "merge_admission"); ("as_of", as_of)]
   ++ map (fun q => (fst q, got (snd q) evidence))
        [("subject_digest", "subject_digest"); ("protected_base_sha", "protected_base_sha");
         ("pr_head_sha", "head_commit_sha"); ("prospective_merge_tree_digest", "prospective_tree_digest");
         ("candidate_review_bundle_digest", "verification_bundle_digest");
         ("required_checks_digest", "required_checks_digest"); ("formal_review_digest", "formal_review_digest");
         ("finding_high_watermark_digest", "finding_high_watermark_digest");
         ("finding_source_set_digest", "finding_source_set_digest");
         ("finding_inventory_epochs_digest", "finding_inventory_epochs_digest");
         ("authority_revalidation_digest", "authority_revalidation_digest")]
   ++ selected_members bundle_policies evidence)%list%string.

Definition _staging_bundle_valid (evidence : evidence_map) (as_of : string) : bool :=
  _sealed_bundle_valid (got "evidence_bundle_digest" evidence) (_staging_bundle_bindings evidence as_of).
Definition _readiness_bundle_valid (evidence : evidence_map) (as_of : string) : bool :=
  _sealed_bundle_valid (got "verification_bundle_digest" evidence) (_readiness_bundle_bindings evidence as_of).
Definition _merge_admission_bundle_valid (evidence : evidence_map) (as_of : string) : bool :=
  _sealed_bundle_valid (got "merge_admission_bundle_digest" evidence)
    (_merge_admission_bundle_bindings evidence as_of).

(** [evidence.get(name) == event.evidence_refs.get(other)]. *)
Definition bound (evidence : evidence_map) (x : LifecycleEvent) (name other : string) : bool :=
  bool_decide (evidence !! name = ev_evidence_refs x !! other).

Definition _merge_admission_readiness_binding_valid (evidence : evidence_map) : bool :=
  match _latest_review_binding with
  | None => false
  | Some review =>
      bool_decide (evidence !! "subject_digest"%string = Some (subject_digest p))
      && bound evidence review "head_commit_sha" "reviewed_commit_sha"
      && bound evidence review "prospective_tree_digest" "prospective_tree_digest"
      && bound evidence review "verification_bundle_digest" "verification_bundle_digest"
      && forallb (fun name => bound evidence review name name) _PHASE_FOUR_REVIEW_FIELDS
  end.
Definition _staging_merge_binding_valid (evidence : evidence_map) : bool :=
  match _latest_merge_binding with
  | None => false
  | Some merge => bound evidence merge "merge_digest" "merge_result_digest"
  end.
End Evidence.
