(* ===== verification/ControlLedger.v ===== *)
(** * The lifecycle control plane: its files ([orchestration/lifecycle.py])

    The event ledger and the mutation journal of a run, the compare-and-swap
    append, the refusal that is itself an event, and the merge of budget usage. *)
From Stdlib Require Import Ascii String.
From S2P Require Import Prelude Sha256 Json JsonText PyStr PyConv Lifecycle LifecycleRules ControlData ControlEvidence.

(** ** The state: an instance and the files of the run directory *)

Record run_files : Type := {
  ledger_file : option string;
  metadata_file : option string;
  journal_file : option string
}.
Definition set_ledger_file (s : string) (f : run_files) : run_files :=
  {| ledger_file := Some s; metadata_file := metadata_file f; journal_file := journal_file f |}.
Definition set_metadata_file (s : string) (f : run_files) : run_files :=
  {| ledger_file := ledger_file f; metadata_file := Some s; journal_file := journal_file f |}.
Definition set_journal_file (s : string) (f : run_files) : run_files :=
  {| ledger_file := ledger_file f; metadata_file := metadata_file f; journal_file := Some s |}.

Record control : Type := { files : run_files; cp : plane }.
Abbreviation op := (st control).

Definition set_files (f : run_files -> run_files) : op unit :=
  modify_st (fun s => {| files := f (files s); cp := cp s |}).
Definition set_cp (f : plane -> plane) : op unit :=
  modify_st (fun s => {| files := files s; cp := f (cp s) |}).

Definition set_events (l : list LifecycleEvent) (p : plane) : plane := {|
  run_id := run_id p; subject_digest := subject_digest p; state := state p; budget_policy := budget_policy p;
  policy := policy p; trust_policy := trust_policy p; events := l;
  completion_claim_active := completion_claim_active p; mutation_attempts := mutation_attempts p;
  mutation_results := mutation_results p; verified_mutation_result_keys := verified_mutation_result_keys p;
  consumed_mutation_result_keys := consumed_mutation_result_keys p;
  budget_extension_challenge := budget_extension_challenge p; budget_usage := budget_usage p |}.
Definition set_budget_policy (b : BudgetPolicy) (p : plane) : plane := {|
  run_id := run_id p; subject_digest := subject_digest p; state := state p; budget_policy := b;
  policy := policy p; trust_policy := trust_policy p; events := events p;
  completion_claim_active := completion_claim_active p; mutation_attempts := mutation_attempts p;
  mutation_results := mutation_results p; verified_mutation_result_keys := verified_mutation_result_keys p;
  consumed_mutation_result_keys := consumed_mutation_result_keys p;
  budget_extension_challenge := budget_extension_challenge p; budget_usage := budget_usage p |}.
Definition set_budget_usage (u : BudgetUsage) (p : plane) : plane := {|
  run_id := run_id p; subject_digest := subject_digest p; state := state p; budget_policy := budget_policy p;
  policy := policy p; trust_policy := trust_policy p; events := events p;
  completion_claim_active := completion_claim_active p; mutation_attempts := mutation_attempts p;
  mutation_results := mutation_results p; verified_mutation_result_keys := verified_mutation_result_keys p;
  consumed_mutation_result_keys := consumed_mutation_result_keys p;
  budget_extension_challenge := budget_extension_challenge p; budget_usage := u |}.
Definition set_state (s : LifecycleState) (p : plane) : plane := {|
  run_id := run_id p; subject_digest := subject_digest p; state := s; budget_policy := budget_policy p;
  policy := policy p; trust_policy := trust_policy p; events := events p;
  completion_claim_active := completion_claim_active p; mutation_attempts := mutation_attempts p;
  mutation_results := mutation_results p; verified_mutation_result_keys := verified_mutation_result_keys p;
  consumed_mutation_result_keys := consumed_mutation_result_keys p;
  budget_extension_challenge := budget_extension_challenge p; budget_usage := budget_usage p |}.
Definition set_claim (active : bool) (p : plane) : plane := {|
  run_id := run_id p; subject_digest := subject_digest p; state := state p; budget_policy := budget_policy p;
  policy := policy p; trust_policy := trust_policy p; events := events p;
  completion_claim_active := active; mutation_attempts := mutation_attempts p;
  mutation_results := mutation_results p; verified_mutation_result_keys := verified_mutation_result_keys p;
  consumed_mutation_result_keys := consumed_mutation_result_keys p;
  budget_extension_challenge := budget_extension_challenge p; budget_usage := budget_usage p |}.
Definition add_attempt (a : MutationAttempt) (p : plane) : plane := {|
  run_id := run_id p; subject_digest := subject_digest p; state := state p; budget_policy := budget_policy p;
  policy := policy p; trust_policy := trust_policy p; events := events p;
  completion_claim_active := completion_claim_active p;
  mutation_attempts := <[ma_idempotency_key a := a]> (mutation_attempts p);
  mutation_results := mutation_results p; verified_mutation_result_keys := verified_mutation_result_keys p;
  consumed_mutation_result_keys := consumed_mutation_result_keys p;
  budget_extension_challenge := budget_extension_challenge p; budget_usage := budget_usage p |}.
Definition add_result (key : string) (r : MutationResult) (p : plane) : plane := {|
  run_id := run_id p; subject_digest := subject_digest p; state := state p; budget_policy := budget_policy p;
  policy := policy p; trust_policy := trust_policy p; events := events p;
  completion_claim_active := completion_claim_active p; mutation_attempts := mutation_attempts p;
  mutation_results := <[key := r]> (mutation_results p);
  verified_mutation_result_keys := {[key]} ∪ verified_mutation_result_keys p;
  consumed_mutation_result_keys := consumed_mutation_result_keys p;
  budget_extension_challenge := budget_extension_challenge p; budget_usage := budget_usage p |}.
Definition add_consumed (key : string) (p : plane) : plane := {|
  run_id := run_id p; subject_digest := subject_digest p; state := state p; budget_policy := budget_policy p;
  policy := policy p; trust_policy := trust_policy p; events := events p;
  completion_claim_active := completion_claim_active p; mutation_attempts := mutation_attempts p;
  mutation_results := mutation_results p; verified_mutation_result_keys := verified_mutation_result_keys p;
  consumed_mutation_result_keys := {[key]} ∪ consumed_mutation_result_keys p;
  budget_extension_challenge := budget_extension_challenge p; budget_usage := budget_usage p |}.
Definition set_challenge (ch : option (string * Z)) (p : plane) : plane := {|
  run_id := run_id p; subject_digest := subject_digest p; state := state p; budget_policy := budget_policy p;
  policy := policy p; trust_policy := trust_policy p; events := events p;
  completion_claim_active := completion_claim_active p; mutation_attempts := mutation_attempts p;
  mutation_results := mutation_results p; verified_mutation_result_keys := verified_mutation_result_keys p;
  consumed_mutation_result_keys := consumed_mutation_result_keys p;
  budget_extension_challenge := ch; budget_usage := budget_usage p |}.

Definition denied {A} (detail : string) : op A := raise_st (TransitionDeniedError detail).

(** ** Reading *)

Section Files.
Context `{Unicode}.
Variable e : control_env.

(** [with self._exclusive_lock()]: an operation that holds the lock takes it again. *)
Definition _exclusive_lock {A} (m : op A) : op A :=
  match run_directory e with
  | SameDirectory => m
  | MissingDirectory => denied "lifecycle run directory is missing"
  | ReplacedDirectory => denied "lifecycle run directory was replaced"
  end.

(** [path.exists()], and its text. *)
Definition on_disk (file : option string) : option string :=
  match run_directory e with MissingDirectory => None | _ => file end.

(** [[json.loads(line) for line in path.read_text().splitlines() if line.strip()]]. *)
Definition nonblank (line : string) : bool := nonempty (strip line).
Definition json_lines (file : option string) : res (list json) :=
  match file with
  | None => Ok []
  | Some payload =>
      text ← read_text payload;
      res_mapM (json_loads default_hooks) (List.filter nonblank (str_splitlines text))
  end.

(** [str(persisted[-1].get("event_digest", "")) if persisted else ""]. *)
Definition head_digest (persisted : list json) : res string :=
  match last persisted with
  | None => Ok ""%string
  | Some (JObj m) => Ok (py_str (default (JStr "") (assoc "event_digest" m)))
  | Some _ => Raise (AttributeError "object has no attribute 'get'")
  end.

Definition current_head (p : plane) : string :=
  match last (events p) with Some x => ev_event_digest x | None => "" end.

(** ** Events *)

(** [S(str(value))]. *)
Definition state_of (text : string) : res LifecycleState :=
  from_option_res (List.find (fun s => String.eqb (lifecycle_value s) text) all_states)
    (ValueError (py_repr (JStr text) +:+ " is not a valid LifecycleState")).

(** [{str(key): str(value) for key, value in d.items()}]. *)
Definition str_map (d : list (json * json)) : evidence_map :=
  foldl (fun m q => <[py_str (fst q) := py_str (snd q)]> m) ∅ d.

(** [raw["name"]]. *)
Definition item (name : string) (raw : list (string * json)) : res json :=
  from_option_res (assoc name raw) (KeyError name).
Definition str_item (name : string) (raw : list (string * json)) : res string :=
  v ← item name raw; Ok (py_str v).

Definition _event_from_dict (raw : list (string * json)) : res LifecycleEvent :=
  sequence ← item "sequence" raw ≫= as_int;
  kind ← str_item "kind" raw;
  outcome ← str_item "outcome" raw;
  source ← str_item "source" raw ≫= state_of;
  target ← str_item "target" raw ≫= state_of;
  reason ← str_item "reason" raw;
  actor ← str_item "actor" raw;
  subject_digest ← str_item "subject_digest" raw;
  policy_digest ← str_item "policy_digest" raw;
  evidence_digest ← str_item "evidence_digest" raw;
  evidence_refs ← py_dict (default (JObj []) (assoc "evidence_refs" raw));
  budget_usage ← match jget "budget_usage" raw with
                 | JNull => Ok None
                 | v => d ← py_dict v; Ok (Some (named_entries d))
                 end;
  observed_at ← str_item "observed_at" raw;
  resume_state ← (if truthy (jget "resume_state" raw)
                  then (s ← state_of (py_str (jget "resume_state" raw)); Ok (Some s)) else Ok None);
  previous_digest ← str_item "previous_digest" raw;
  event_digest ← str_item "event_digest" raw;
  Ok {| ev_sequence := sequence; ev_kind := kind; ev_outcome := outcome; ev_source := source;
        ev_target := target; ev_reason := reason; ev_actor := actor; ev_subject_digest := subject_digest;
        ev_policy_digest := policy_digest; ev_evidence_digest := evidence_digest;
        ev_evidence_refs := str_map evidence_refs; ev_budget_usage := budget_usage;
        ev_observed_at := observed_at; ev_resume_state := resume_state;
        ev_previous_digest := previous_digest; ev_event_digest := event_digest;
        ev_detail := py_str (default (JStr "") (assoc "detail" raw)) |}.

(** ** Writing *)

(** The keyword arguments of [_append]. *)
Record entry : Type := {
  en_kind : string;
  en_outcome : string;
  en_source : LifecycleState;
  en_target : LifecycleState;
  en_reason : string;
  en_actor : string;
  en_evidence_refs : evidence_map;
  en_observed_at : string;
  en_budget_usage : option BudgetUsage;
  en_resume_state : option LifecycleState;
  en_detail : string
}.

Definition event_members (p : plane) (x : entry) : list (string * json) :=
  [("sequence", JInt (Z.of_nat (length (events p)) + 1)); ("kind", JStr (en_kind x));
   ("outcome", JStr (en_outcome x)); ("source", JStr (lifecycle_value (en_source x)));
   ("target", JStr (lifecycle_value (en_target x))); ("reason", JStr (en_reason x));
   ("actor", JStr (en_actor x)); ("subject_digest", JStr (subject_digest p));
   ("policy_digest", JStr (policy_digest (policy p)));
   ("evidence_digest", JStr (_digest (str_dict (en_evidence_refs x))));
   ("evidence_refs", str_dict (en_evidence_refs x));
   ("budget_usage", match en_budget_usage x with Some u => _budget_usage_payload u | None => JNull end);
   ("observed_at", JStr (en_observed_at x));
   ("resume_state", match en_resume_state x with Some s => JStr (lifecycle_value s) | None => JNull end);
   ("previous_digest", JStr (current_head p)); ("detail", JStr (en_detail x))]%string.
Definition event_body (p : plane) (x : entry) : list (string * json) :=
  let body := event_members p x in body ++ [("event_digest"%string, JStr (_digest (JObj body)))].

Definition new_line : string := String (chr_n 10) "".

(** [path.open("a")], [write]: the text is at the end of the file, or a part of
    it when the system interrupts the write. *)
Definition append_text (file : run_files -> option string) (set : string -> run_files -> run_files)
    (text : string) : op unit :=
  before ← get_st (fun s => default ""%string (file (files s)));
  match interrupted_write e with
  | None => set_files (set (before +:+ text))
  | Some n => _ ← set_files (set (before +:+ take_str n text)); raise_st (OSError "interrupted write")
  end.

(** A temporary file that takes the place of [path] when it is complete. *)
Definition replace_text (set : string -> run_files -> run_files) (text : string) : op unit :=
  match interrupted_write e with
  | None => set_files (set text)
  | Some _ => raise_st (OSError "interrupted write")
  end.

Definition _append_locked (x : entry) (expected_budget_policy_digest : option string)
    (admitted_budget_policy : option BudgetPolicy) : op LifecycleEvent :=
  p ← get_st cp;
  file ← get_st (fun s => ledger_file (files s));
  persisted ← lift_res (json_lines file);
  persisted_previous ← lift_res (head_digest persisted);
  _ ← (if negb (bool_decide (length persisted = length (events p)))
          || negb (String.eqb persisted_previous (current_head p))
       then denied "stale lifecycle writer lost the append compare-and-swap" else mret tt);
  _ ← match expected_budget_policy_digest with
      | Some expected =>
          if negb (String.eqb (_digest (_budget_policy_payload (budget_policy p))) expected)
          then denied "stale budget policy admission lost compare-and-swap" else mret tt
      | None => mret tt
      end;
  let body := event_body p x in
  event ← lift_res (_event_from_dict body);
  let serialized := json_dumps (JObj body) +:+ new_line in
  _ ← (if bool_decide (length persisted = 0%nat) && bool_decide (length (events p) = 0%nat)
       then replace_text set_ledger_file serialized
       else append_text ledger_file set_ledger_file serialized);
  _ ← set_cp (set_events (events p ++ [event]));
  _ ← match admitted_budget_policy with Some b => set_cp (set_budget_policy b) | None => mret tt end;
  mret event.

Definition _append (x : entry) (expected : option string) (admitted_policy : option BudgetPolicy)
    : op LifecycleEvent := _exclusive_lock (_append_locked x expected admitted_policy).

(** ** The mutation journal *)

Definition attempt_of (raw : list (string * json)) : res MutationAttempt :=
  attempt_id ← str_item "attempt_id" raw;
  idempotency_key ← str_item "idempotency_key" raw;
  subject ← str_item "subject_digest" raw;
  action ← str_item "action" raw;
  step_plan ← str_item "step_plan_digest" raw;
  status ← str_item "status" raw;
  steps ← iterate (default (JArr []) (assoc "steps" raw));
  new_mutation_attempt
    {| ma_id := attempt_id; ma_idempotency_key := idempotency_key; ma_subject_digest := subject;
       ma_action := action; ma_step_plan_digest := step_plan; ma_status := status;
       ma_steps := map py_str steps |}.

Definition read_attempt (attempts : gmap string MutationAttempt) (line : string)
    : res (gmap string MutationAttempt) :=
  v ← json_loads default_hooks line;
  match v with
  | JObj members =>
      let supplied := py_str (default (JStr "") (assoc "record_digest" members)) in
      let raw := assoc_del "record_digest" members in
      _ ← raise_if (negb (String.eqb (_digest (JObj raw)) supplied))
            (ValueError "lifecycle mutation journal digest is invalid");
      attempt ← attempt_of raw;
      match attempts !! ma_idempotency_key attempt with
      | Some prior =>
          if bool_decide (prior = attempt) then Ok (<[ma_idempotency_key attempt := attempt]> attempts)
          else Raise (ValueError "lifecycle mutation journal reuses an idempotency key")
      | None => Ok (<[ma_idempotency_key attempt := attempt]> attempts)
      end
  | JArr _ => Raise (TypeError "'str' object cannot be interpreted as an integer")
  | _ => Raise (AttributeError "object has no attribute 'pop'")
  end.

Definition _read_mutation_attempts (file : option string) : res (gmap string MutationAttempt) :=
  match file with
  | None => Ok ∅
  | Some payload =>
      text ← read_text payload;
      res_foldM read_attempt ∅ (List.filter nonblank (str_splitlines text))
  end.

Definition key_bound_elsewhere : exn :=
  TransitionDeniedError "idempotency key is already bound to a different complete mutation plan".

Definition _require_prejournaled (attempts : res (gmap string MutationAttempt)) (attempt : MutationAttempt)
    : res unit :=
  m ← attempts;
  match m !! ma_idempotency_key attempt with
  | None => Raise (TransitionDeniedError "mutation attempt is not durably pre-journaled")
  | Some persisted => raise_if (negb (bool_decide (persisted = attempt))) key_bound_elsewhere
  end.

Definition journal_line (a : MutationAttempt) : string :=
  json_dumps (JObj (attempt_members a ++ [("record_digest"%string, JStr (_digest (attempt_dict a)))]))
  +:+ new_line.

Definition _register_mutation_locked (attempt : MutationAttempt) : op unit :=
  file ← get_st (fun s => journal_file (files s));
  attempts ← lift_res (_read_mutation_attempts file);
  _ ← match attempts !! ma_idempotency_key attempt with
      | Some prior => if bool_decide (prior = attempt) then mret tt else raise_st key_bound_elsewhere
      | None => append_text journal_file set_journal_file (journal_line attempt)
      end;
  set_cp (add_attempt attempt).

(** ** Budget usage *)

Definition merge_max : gmap string Z -> gmap string Z -> gmap string Z :=
  union_with (fun a b => Some (Z.max a b)).

(** The names whose supplied count is below the prior one, a missing count being zero. *)
Definition regressed (prefix : string) (prior supplied : gmap string Z) : list string :=
  map (fun n => prefix +:+ n)
    (List.filter (fun n => count n supplied <? count n prior) (elements (dom prior ∪ dom supplied))).

Definition budget_regressions (prior supplied : BudgetUsage) : list string :=
  regressed "" (bu_counters prior) (bu_counters supplied)
  ++ regressed "finding:" (bu_by_finding prior) (bu_by_finding supplied)
  ++ regressed "stage:" (bu_by_stage prior) (bu_by_stage supplied)
  ++ (if bu_safety_units_used supplied <? bu_safety_units_used prior
      then ["reserved_safety_units"%string] else []).

(** A count that is present in only one of the two is compared with zero. *)
Definition merged_counts (prior supplied : gmap string Z) : gmap string Z :=
  merge_max (Z.max 0 <$> prior) (Z.max 0 <$> supplied).

Definition _merge_budget_usage (prior supplied : BudgetUsage) (reject_lower : bool) : res BudgetUsage :=
  let regressions := budget_regressions prior supplied in
  _ ← raise_if (reject_lower && negb (bool_decide (regressions = [])))
        (TransitionDeniedError ("budget usage cannot decrease: " +:+ join ", " (sorted_str regressions)));
  new_budget_usage
    {| bu_counters := merged_counts (bu_counters prior) (bu_counters supplied);
       bu_by_finding := merged_counts (bu_by_finding prior) (bu_by_finding supplied);
       bu_by_stage := merged_counts (bu_by_stage prior) (bu_by_stage supplied);
       bu_safety_units_used := Z.max (bu_safety_units_used prior) (bu_safety_units_used supplied) |}.

Definition with_safety_units (n : Z) (u : BudgetUsage) : BudgetUsage := {|
  bu_counters := bu_counters u; bu_by_finding := bu_by_finding u; bu_by_stage := bu_by_stage u;
  bu_safety_units_used := n |}.

(** ** Refusal *)

(** The usage that a refusal records. *)
Definition persisted_usage (p : plane) (c : TransitionContext) : res BudgetUsage :=
  if _trusted_budget_usage_valid e p c
  then _merge_budget_usage (budget_usage p)
         (with_safety_units (bu_safety_units_used (budget_usage p)) (tc_budget_usage c)) false
  else Ok (budget_usage p).

Definition denial (p : plane) (target : LifecycleState) (c : TransitionContext) (reason detail : string)
    (usage : BudgetUsage) : entry := {|
  en_kind := "TRANSITION"; en_outcome := "DENIED"; en_source := state p; en_target := target;
  en_reason := reason; en_actor := ac_id (tc_actor c); en_evidence_refs := tc_evidence c;
  en_observed_at := tc_observed_at c; en_budget_usage := Some usage; en_resume_state := None;
  en_detail := detail |}.

Definition _deny {A} (target : LifecycleState) (c : TransitionContext) (reason detail : string) : op A :=
  p ← get_st cp;
  usage ← lift_res (persisted_usage p c);
  _ ← _append (denial p target c reason detail usage) None None;
  _ ← set_cp (set_budget_usage usage);
  denied detail.
End Files.
