(* ===== verification/PolicySnapshots.v ===== *)
(** * Policy snapshots ([orchestration/lifecycle.py])

    A run records the policy it began under.  Reading the record back accepts
    only guards and mutations that this version knows, and, for a run of the
    first version, only the mutation schemas that were released under the
    recorded digest. *)
From Stdlib Require Import Ascii String.
From S2P Require Import Prelude Sha256 Json JsonText PyStr PyConv Lifecycle LifecycleRules ControlData.
From S2P Require Import ControlEvidence ControlLedger.

(** ** The schemas of the first version *)

(** [{**base, **changes}]. *)
Definition merged (base changes : schema) : schema :=
  foldl (fun m q => assoc_set (fst q) (snd q) m) base changes.
(** [{name: base[name] for name in names}]. *)
Definition restricted (names : list string) (base : schema) : schema :=
  map (fun name => (name, fields_of base (Some name))) names.
Definition same_as (base : schema) (name : string) : string * list string :=
  (name, fields_of base (Some name)).

Definition _PHASE_ZERO_V1_FINAL_MUTATION_SUBJECT_FIELDS : schema :=
  [("open_draft_pr",
    ["subject_digest"; "issue_digest"; "branch_digest"; "red_commit_digest"; "draft_pr_digest"]);
   ("mark_pr_ready",
    ["subject_digest"; "reviewed_commit_sha"; "prospective_tree_digest"; "verification_bundle_digest";
     "review_digest"]);
   ("enqueue_merge",
    ["subject_digest"; "queue_subject_digest"; "head_commit_sha"; "head_digest"; "base_digest";
     "prospective_tree_digest"; "required_checks_digest"; "formal_review_digest";
     "verification_bundle_digest"]);
   ("deploy_staging",
    ["subject_digest"; "merge_digest"; "artifact_digest"; "configuration_digest"; "deployment_target_digest";
     "staging_authorization_digest"; "finding_source_set_digest"; "finding_inventory_epochs_digest";
     "authority_fence_digest"]);
   ("deploy_canary",
    ["subject_digest"; "merge_commit_sha"; "merge_digest"; "artifact_digest"; "configuration_digest";
     "migration_plan_digest"; "deployment_target_digest"; "rollout_plan_digest"; "staging_digest";
     "canary_authorization_digest"; "canary_id_digest"; "authority_fence_digest"]);
   ("deploy_production",
    ["subject_digest"; "merge_commit_sha"; "merge_digest"; "artifact_digest"; "configuration_digest";
     "migration_plan_digest"; "deployment_target_digest"; "rollout_plan_digest"; "staging_digest";
     "canary_id_digest"; "canary_attempt_digest"; "canary_status_digest"; "authority_fence_digest";
     "production_approval_digest"]);
   ("convert_pr_to_draft", ["subject_digest"; "finding_digest"; "ready_revocation_observation_digest"]);
   ("cleanup_staging", ["subject_digest"; "zero_resource_digest"]);
   ("rollback",
    ["subject_digest"; "failed_deployment_digest"; "restoration_target_digest"; "migration_plan_digest"]);
   ("teardown_canary", ["subject_digest"; "canary_teardown_digest"; "zero_resource_digest"])]%string.

Definition canary_unfenced : list string :=
  ["subject_digest"; "merge_commit_sha"; "merge_digest"; "artifact_digest"; "configuration_digest";
   "migration_plan_digest"; "deployment_target_digest"; "rollout_plan_digest"; "staging_digest";
   "canary_authorization_digest"; "canary_id_digest"]%string.
Definition production_unfenced : list string :=
  ["subject_digest"; "merge_commit_sha"; "merge_digest"; "artifact_digest"; "configuration_digest";
   "migration_plan_digest"; "deployment_target_digest"; "rollout_plan_digest"; "staging_digest";
   "canary_id_digest"; "canary_attempt_digest"; "canary_status_digest"; "production_approval_digest"]%string.
Definition old_conversion : list string :=
  ["subject_digest"; "ready_revocation_attempt_digest"; "ready_revocation_observation_digest"]%string.

Definition _PHASE_ZERO_V1_MUTATION_SUBJECT_FIELDS : schema :=
  [("open_draft_pr",
    ["subject_digest"; "governance_attempt_digest"; "issue_digest"; "branch_digest"; "red_commit_digest";
     "draft_pr_digest"]);
   same_as _PHASE_ZERO_V1_FINAL_MUTATION_SUBJECT_FIELDS "enqueue_merge";
   ("deploy_staging", ["subject_digest"; "merge_digest"; "artifact_digest"]);
   ("deploy_canary", canary_unfenced);
   ("deploy_production", production_unfenced);
   ("convert_pr_to_draft", old_conversion);
   ("cleanup_staging", ["subject_digest"; "cleanup_attempt_digest"; "zero_resource_digest"]);
   ("rollback", ["subject_digest"]);
   ("teardown_canary", ["subject_digest"; "canary_teardown_digest"; "zero_resource_digest"])]%string.

Definition _PHASE_ZERO_V1_PROMOTION_MUTATION_SUBJECT_FIELDS : schema :=
  merged _PHASE_ZERO_V1_FINAL_MUTATION_SUBJECT_FIELDS
    [("deploy_staging",
      ["subject_digest"; "merge_digest"; "artifact_digest"; "configuration_digest"; "deployment_target_digest";
       "staging_authorization_digest"; "finding_inventory_digest"; "authority_fence_digest"]);
     ("convert_pr_to_draft", old_conversion);
     ("rollback", ["subject_digest"])]%string.

Definition _PHASE_ZERO_V1_CCC_LATER_MUTATION_SUBJECT_FIELDS : schema :=
  merged _PHASE_ZERO_V1_MUTATION_SUBJECT_FIELDS
    [same_as _PHASE_ZERO_V1_FINAL_MUTATION_SUBJECT_FIELDS "open_draft_pr";
     same_as _PHASE_ZERO_V1_FINAL_MUTATION_SUBJECT_FIELDS "cleanup_staging"]%string.
Definition _PHASE_ZERO_V1_EARLY_FENCED_MUTATION_SUBJECT_FIELDS : schema :=
  merged _PHASE_ZERO_V1_CCC_LATER_MUTATION_SUBJECT_FIELDS
    [same_as _PHASE_ZERO_V1_FINAL_MUTATION_SUBJECT_FIELDS "deploy_canary";
     same_as _PHASE_ZERO_V1_FINAL_MUTATION_SUBJECT_FIELDS "deploy_production"]%string.
Definition _PHASE_ZERO_V1_OLD_CONVERSION_MUTATION_SUBJECT_FIELDS : schema :=
  merged _PHASE_ZERO_V1_FINAL_MUTATION_SUBJECT_FIELDS
    [same_as _PHASE_ZERO_V1_MUTATION_SUBJECT_FIELDS "convert_pr_to_draft"]%string.
Definition _PHASE_ZERO_V1_786_MUTATION_SUBJECT_FIELDS : schema :=
  merged _PHASE_ZERO_V1_OLD_CONVERSION_MUTATION_SUBJECT_FIELDS [("rollback", ["subject_digest"])]%string.
Definition _PHASE_ZERO_V1_B9_MUTATION_SUBJECT_FIELDS : schema :=
  merged _PHASE_ZERO_V1_CCC_LATER_MUTATION_SUBJECT_FIELDS [("deploy_production"%string, production_unfenced)].
Definition _PHASE_ZERO_V1_B9_FENCED_MUTATION_SUBJECT_FIELDS : schema :=
  merged _PHASE_ZERO_V1_B9_MUTATION_SUBJECT_FIELDS
    [same_as _PHASE_ZERO_V1_FINAL_MUTATION_SUBJECT_FIELDS "deploy_production"]%string.

(** ** The digests of the released policies *)

Definition _V1_B9_POLICY_DIGEST : string :=
  "sha256:b9b0a01fdc591c2a4ed83a3eada2d1691982f782a8bd4f35c60ad90e28768998".
Definition _V1_786_POLICY_DIGEST : string :=
  "sha256:786af079fc52c6a97a39eee8684c958b274ec42ef1437057f050c39914b9d9ee".
Definition _V1_2A_POLICY_DIGEST : string :=
  "sha256:2a352ede852d24d16210cdd381538319b74da2ecbfca37dafe78501ad95a4dcc".
Definition _V1_GUARDED_POLICY_DIGEST : string :=
  "sha256:5455211581bb487a20d699e14b46b485b65c0969dacfb232db4f4c89fdc5b12b".
Definition _V1_PRE_PROMOTION_POLICY_DIGEST : string :=
  "sha256:ccc6b1477544f4e5ddd2ef5deb5c1445601728a498a70b8477a535e70637d1df".
Definition _V1_READY_POLICY_DIGEST : string :=
  "sha256:bc8b76adab20fe65f5372d582d2464ae1270e6fd1ba3ccd12546f1b9457e2b7a".
Definition _V1_PROMOTION_POLICY_DIGEST : string :=
  "sha256:669d05c91ee4cfac61c2271bc3c0ec995ad16532cc7d1f2237548655d228e3fb".
Definition _V1_FINAL_POLICY_DIGEST : string :=
  "sha256:a54b89ccd2e9658902fcc880b8659dd703f369a582a2e364220360e6e4f25702".
Definition _V1_EARLY_FENCED_POLICY_DIGESTS : list string :=
  ["sha256:a7d9ac97d9e4113e3d0e2a9d41980461c5a9f24840cc4e67057a02e3108c35b3";
   "sha256:cc2cb14f65561d195ee717d3f76caab4727467f4c4ba21f3c3b3a1df247077cc";
   "sha256:f2ac84ef999f83654007443a21a9e8a05dcfe00b9181a3db20d5336bbe000c86"]%string.

Definition promotion_actions : list string :=
  ["enqueue_merge"; "deploy_staging"; "deploy_canary"; "deploy_production"]%string.

Definition _PHASE_ZERO_V1_SCHEMA_BY_POLICY_DIGEST : list (string * schema) :=
  [(_V1_GUARDED_POLICY_DIGEST, restricted promotion_actions _PHASE_ZERO_V1_MUTATION_SUBJECT_FIELDS);
   (_V1_PRE_PROMOTION_POLICY_DIGEST, _PHASE_ZERO_V1_MUTATION_SUBJECT_FIELDS);
   (_V1_READY_POLICY_DIGEST, _PHASE_ZERO_V1_FINAL_MUTATION_SUBJECT_FIELDS);
   (_V1_PROMOTION_POLICY_DIGEST, _PHASE_ZERO_V1_PROMOTION_MUTATION_SUBJECT_FIELDS);
   (_V1_FINAL_POLICY_DIGEST, _PHASE_ZERO_V1_FINAL_MUTATION_SUBJECT_FIELDS)]
  ++ map (fun d => (d, _PHASE_ZERO_V1_EARLY_FENCED_MUTATION_SUBJECT_FIELDS)) _V1_EARLY_FENCED_POLICY_DIGESTS
  ++ [(_V1_B9_POLICY_DIGEST, _PHASE_ZERO_V1_B9_MUTATION_SUBJECT_FIELDS);
      (_V1_786_POLICY_DIGEST, _PHASE_ZERO_V1_786_MUTATION_SUBJECT_FIELDS);
      (_V1_2A_POLICY_DIGEST, _PHASE_ZERO_V1_OLD_CONVERSION_MUTATION_SUBJECT_FIELDS)].

Definition _PHASE_ZERO_V1_RELEASED_POLICY_DIGESTS : list string :=
  [_V1_GUARDED_POLICY_DIGEST; _V1_PRE_PROMOTION_POLICY_DIGEST; _V1_READY_POLICY_DIGEST;
   _V1_PROMOTION_POLICY_DIGEST; _V1_FINAL_POLICY_DIGEST;
   "sha256:2a352ede852d24d16210cdd381538319b74da2ecbfca37dafe78501ad95a4dcc";
   "sha256:2bf32a5f67c8491c67794295e4a45e3e57a9bc467218caf196516214b81dbb5d";
   "sha256:6f0ae1ba8337e1d31e051d6f4672d0b5119b8ec48e48ea66541a4dbe46ac857c";
   "sha256:786af079fc52c6a97a39eee8684c958b274ec42ef1437057f050c39914b9d9ee";
   "sha256:8303d190b21922c7c2ae9680165741799016af5f078eb5af4d85a620298df0cb";
   "sha256:9a80daedaf0327e975a4ac705c83b0d03d1d031c5a5f024a53056c2d05d41505";
   "sha256:a7d9ac97d9e4113e3d0e2a9d41980461c5a9f24840cc4e67057a02e3108c35b3";
   "sha256:b9b0a01fdc591c2a4ed83a3eada2d1691982f782a8bd4f35c60ad90e28768998";
   "sha256:ba3b41b492113d0b6cb1fa433b27d95c9e1a1a48e636fa128620e266a8a15065";
   "sha256:c4d953f0a2d88518a8317177c87b7cb5ecf83243702854b9ddafa93556d1f3f4";
   "sha256:cc2cb14f65561d195ee717d3f76caab4727467f4c4ba21f3c3b3a1df247077cc";
   "sha256:f2ac84ef999f83654007443a21a9e8a05dcfe00b9181a3db20d5336bbe000c86"]%string.

Definition _v1_schema_variants_for_policy (policy_digest : string) : res (list schema) :=
  match assoc policy_digest _PHASE_ZERO_V1_SCHEMA_BY_POLICY_DIGEST with
  | Some primary =>
      Ok (if String.eqb policy_digest _V1_PRE_PROMOTION_POLICY_DIGEST
          then [primary; _PHASE_ZERO_V1_CCC_LATER_MUTATION_SUBJECT_FIELDS;
                List.filter (fun q => str_in (fst q) promotion_actions)
                  _PHASE_ZERO_V1_CCC_LATER_MUTATION_SUBJECT_FIELDS]
          else if String.eqb policy_digest _V1_B9_POLICY_DIGEST
          then [primary; _PHASE_ZERO_V1_B9_FENCED_MUTATION_SUBJECT_FIELDS]
          else [primary])
  | None =>
      if str_in policy_digest _PHASE_ZERO_V1_RELEASED_POLICY_DIGESTS then Ok [[]]
      else Raise (ValueError "lifecycle policy snapshot has an unknown v1 mutation schema")
  end.

(** ** Reading a snapshot *)

Section Snapshots.
Context `{Unicode}.

Definition strings_from (v : json) : res (list string) := l ← iterate v; Ok (map py_str l).

Definition rule_from (raw : json) : res TransitionRule :=
  match raw with
  | JObj m =>
      source ← str_item "source" m ≫= state_of;
      target ← str_item "target" m ≫= state_of;
      reason ← str_item "reason" m;
      required ← item "required_evidence" m ≫= strings_from;
      guard_names ← strings_from (default (JArr []) (assoc "guards" m));
      permission ← str_item "permission" m;
      Ok {| source := source; target := target; reason := reason; required_evidence := required;
            guards := sorted_set guard_names; permission := permission;
            mutation_action := match jget "mutation_action" m with JNull => None | v => Some (py_str v) end |}
  | _ => Raise (TypeError "string indices must be integers")
  end.

Definition supported_guards : list string := flat_map guards phase_zero_rules ++ ["staging_bundle"%string].

(** [{action: tuple(schema[action] for schema in selected if action in schema) for action in ...}]. *)
Definition variants_of (selected : list schema) : list (string * list (list string)) :=
  map (fun action => (action, omap (assoc action) selected))
    (dict_fromkeys (flat_map (map fst) selected)).

(** Whether a recorded rule names the fields that its schema has. *)
Definition schema_differs (version : string) (expected_schemas : schema) (raw : json) : res bool :=
  match raw with
  | JObj m =>
      if has_key "mutation_subject_fields" m || negb (String.eqb version "phase-zero-v1") then
        fields ← strings_from (default (JArr []) (assoc "mutation_subject_fields" m));
        Ok (negb (bool_decide (fields = fields_of expected_schemas (Some (py_str (jget "mutation_action" m))))))
      else Ok false
  | _ => Ok false
  end.

(** [any(...)], which stops at the first true one. *)
Fixpoint res_any {A} (f : A -> res bool) (l : list A) : res bool :=
  match l with
  | [] => Ok false
  | x :: l' => b ← f x; if (b : bool) then Ok true else res_any f l'
  end.

Definition read_snapshot (payload : list (string * json)) (policy_digest : string) : res LifecyclePolicy :=
  version ← str_item "version" payload;
  raw_rules ← item "rules" payload ≫= iterate;
  rules ← res_mapM rule_from raw_rules;
  _ ← raise_if (existsb (fun r => negb (forallb (fun g => str_in g supported_guards) (guards r))) rules)
        (ValueError "lifecycle policy snapshot contains unsupported guards");
  _ ← raise_if (existsb (fun r => match mutation_action r with
                                  | Some action => negb (has_key action _MUTATION_SUBJECT_FIELDS)
                                  | None => false
                                  end) rules)
        (ValueError "lifecycle policy snapshot contains unsupported mutation action");
  '(expected_schemas, variants) ←
    (if String.eqb version "phase-zero-v1" then
       selected ← _v1_schema_variants_for_policy
                    (if nonempty policy_digest then policy_digest else _V1_PRE_PROMOTION_POLICY_DIGEST);
       Ok (default [] (head selected), Some (variants_of selected))
     else Ok (_MUTATION_SUBJECT_FIELDS, None));
  differs ← res_any (schema_differs version expected_schemas) raw_rules;
  _ ← raise_if differs (ValueError "lifecycle policy snapshot mutation schema is unsupported");
  new_policy version rules expected_schemas variants.

Definition is_snapshot_error (e : exn) : bool :=
  is_ValueError e || match e with KeyError _ | TypeError _ => true | _ => false end.

Definition _policy_from_payload (payload : list (string * json)) (policy_digest : string) : res LifecyclePolicy :=
  try_except (read_snapshot payload policy_digest) is_snapshot_error
    (fun _ => Raise (ValueError "lifecycle policy snapshot is invalid")).
End Snapshots.
