(* ===== verification/ControlGuards.v ===== *)
(** * The lifecycle control plane: what a transition must show ([orchestration/lifecycle.py])

    The guards of [_transition_locked], in its order.  A guard looks at the
    instance, the caller's context and the rule, and decides: go on, record a
    refusal, or raise. *)
From Stdlib Require Import Ascii String.
From S2P Require Import Prelude Sha256 Json JsonText PyStr PyConv Lifecycle LifecycleRules ControlData.
From S2P Require Import ControlEvidence ControlLedger.

(** ** Verdicts *)

Inductive verdict (A : Type) : Type :=
  | Proceed (a : A)
  | Denied (target : LifecycleState) (context : TransitionContext) (detail : string)
  | Failed (error : exn).
Arguments Proceed {A} a.
Arguments Denied {A} target context detail.
Arguments Failed {A} error.

#[export] Instance verdict_ret : MRet verdict := fun A a => Proceed a.
#[export] Instance verdict_bind : MBind verdict := fun A B k m =>
  match m with Proceed a => k a | Denied t c d => Denied t c d | Failed x => Failed x end.

Definition of_res {A} (m : res A) : verdict A := match m with Ok a => Proceed a | Raise x => Failed x end.

(** [self._policy.version == PHASE_FOUR_POLICY.version]. *)
Definition phase_four (p : plane) : bool := String.eqb (policy_version (policy p)) "phase-four-v1".

Section Guards.
Context `{Datetime} `{Unicode}.
Variable e : control_env.
Variable p : plane.
(** The target of the transition, what [_read_mutation_attempts] gives. *)
Variable target : LifecycleState.
Variable attempts : res (gmap string MutationAttempt).

Section Context_.
Variable c : TransitionContext.
Abbreviation evidence := (tc_evidence c).

Definition deny_if (b : bool) (detail : string) : verdict unit :=
  if b then Denied target c detail else Proceed tt.

(** [try: ... except TransitionDeniedError as exc: self._deny(..., str(exc))]. *)
Definition of_denial {A} (m : res A) : verdict A :=
  match m with
  | Ok a => Proceed a
  | Raise (TransitionDeniedError detail) => Denied target c detail
  | Raise x => Failed x
  end.

(** [evidence.get(name) != value]. *)
Definition ev_differs (name value : string) : bool := negb (ev_is c name value).

(** ** Who asks *)

Definition actor_valid : bool :=
  let a := tc_actor c in
  nonempty (ac_id a) && nonempty (ac_role a) && ac_authenticated a
  && String.eqb (ac_subject_digest a) (subject_digest p)
  && String.eqb (ac_authority_digest a) (as_digest (tc_authority c))
  && digest_valid (tc_authority c) && is_sha256 (ac_authority_digest a)
  && _verify_external_evidence e (ac_id a) (ac_authority_digest a) (_actor_authentication_payload a)
       (ac_authentication_evidence_digest a).

Definition capable (capability : string) : bool := bool_decide (capability ∈ ac_capabilities (tc_actor c)).

(** The usage that an applied transition starts from. *)
Definition supplied_usage : verdict BudgetUsage :=
  if _trusted_budget_usage_valid e p c
  then of_denial (_merge_budget_usage (budget_usage p) (tc_budget_usage c) true)
  else Proceed (budget_usage p).

Definition exposure_preserving_block (why : string) : bool :=
  bool_decide (target = BLOCKED)
  && ((bool_decide (state p = ROLLBACK_IN_PROGRESS) && String.eqb why "rollback_indeterminate")
      || (bool_decide (state p = CONTRACT_RECEIVED) && String.eqb why "quarantine_disposition_indeterminate")).
Definition is_stop : bool :=
  bool_decide (target = BLOCKED) || bool_decide (target = PRODUCT_INPUT_REQUIRED)
  || bool_decide (target = BUDGET_EXCEEDED).

Definition missing_evidence (r : TransitionRule) : list string :=
  List.filter (fun name => negb (nonempty (ev c name))) (required_evidence r).

Definition required_evidence_given (r : TransitionRule) : verdict unit :=
  let missing := missing_evidence r in
  _ ← deny_if (negb (bool_decide (missing = [])))
        ("required evidence is missing: " +:+ join ", " (sorted_str missing));
  let malformed := _malformed_evidence evidence (required_evidence r) in
  _ ← deny_if (negb (bool_decide (malformed = [])))
        ("required evidence is not a canonical digest: " +:+ join ", " malformed);
  deny_if (bool_decide ("subject_digest"%string ∈ dom evidence) && ev_differs "subject_digest" (subject_digest p))
    "subject evidence does not match the lifecycle subject".

(** ** Findings *)

Definition no_blocking_finding : verdict unit :=
  _ ← deny_if (negb (_trusted_finding_inventory_valid e p c))
        "current trusted finding inventory is required for promotion";
  match tc_finding c with
  | Some f =>
      if fs_credible f && fs_blocking f then
        _ ← deny_if (negb (String.eqb (fs_exact_subject_digest f) (subject_digest p)))
              "blocking finding subject does not match the lifecycle subject";
        deny_if true "a pending blocking finding prohibits staging"
      else Proceed tt
  | None => Proceed tt
  end.

Definition finding_disposition : verdict unit :=
  let source_id := ev c "finding_disposition_source_id" in
  let authority_digest := ev c "finding_disposition_authority_digest" in
  let payload := strs
    [("source_id", source_id); ("authority_digest", authority_digest); ("subject_digest", subject_digest p);
     ("finding_digest", ev c "finding_digest"); ("finding_disposition_digest", ev c "finding_disposition_digest");
     ("observed_at", tc_observed_at c)]%string in
  deny_if (negb (attested e (finding_sources (trust_policy p)) source_id authority_digest payload
                   (ev c "finding_disposition_authentication_evidence_digest")))
    "finding disposition is not independently authenticated".

(** ** Quiescence *)

Definition frozen_dispositions : list string :=
  ["frozen-unverified-non-admissible"; "disposed-unverified-non-admissible"]%string.
Definition candidate_states : list LifecycleState :=
  [DRAFT_PR_OPEN; IMPLEMENTATION_IN_PROGRESS; VERIFICATION_FAILED; REPAIR_IN_PROGRESS; REVIEW_REQUIRED;
   REVIEW_FAILED; PR_READY].
Definition work_bound : bool :=
  ev_is c "work_disposition_digest" (_digest (work_dict (tc_work c))) && _trusted_work_evidence_valid e p c.

Definition drift : verdict unit :=
  let admitted_dispositions :=
    if bool_decide (state p ∈ candidate_states) then frozen_dispositions else "none"%string :: frozen_dispositions in
  _ ← deny_if (has_resources (tc_rollout c)) "repository drift requires zero rollout resources";
  _ ← deny_if (workers_busy (tc_work c)) "repository drift workers are not quiescent";
  _ ← deny_if (wk_mutation_capability_active (tc_work c)) "repository drift mutation capability remains active";
  _ ← deny_if (negb (str_in (wk_partial_output_disposition (tc_work c)) admitted_dispositions))
        "repository drift partial work has no safe disposition";
  deny_if (negb work_bound) "repository drift work evidence is not bound to the quiesced state".

Definition security_incident_block : verdict unit :=
  let artifact_digest := ev c "affected_artifact_digest" in
  let disposition_status := ev c "quarantine_disposition_status" in
  let expected_disposition := _digest (strs
    [("affected_artifact_digest", artifact_digest); ("subject_digest", subject_digest p);
     ("status", disposition_status)]%string) in
  let expected_exposure := _digest (JObj
    [("affected_artifact_digest", JStr artifact_digest); ("subject_digest", JStr (subject_digest p));
     ("rollout", rollout_dict (tc_rollout c))]%string) in
  let expected_retry_gate := _digest (strs
    [("affected_artifact_digest", artifact_digest); ("gate", "AUTHORITATIVE_DISPOSITION_REQUIRED");
     ("subject_digest", subject_digest p)]%string) in
  _ ← deny_if (negb (str_in disposition_status ["FAILED"; "UNKNOWN"]%string))
        "quarantine disposition failure must be failed or indeterminate";
  _ ← deny_if (workers_busy (tc_work c)) "security-incident workers must be quiescent";
  _ ← deny_if (wk_mutation_capability_active (tc_work c)) "security-incident mutation capability remains active";
  _ ← deny_if (negb (String.eqb (wk_partial_output_disposition (tc_work c)) "quarantined-unresolved"))
        "affected artifact must remain truthfully quarantined and unresolved";
  _ ← deny_if (ev_differs "quarantine_disposition_digest" expected_disposition
               || ev_differs "exposure_digest" expected_exposure
               || ev_differs "retry_gate_digest" expected_retry_gate)
        "security incident evidence is not bound to its artifact and exposure";
  deny_if (negb (_trusted_work_evidence_valid e p c))
    "security incident requires trusted worker quiescence and revocation evidence".

Definition safe_stop : verdict unit :=
  _ ← deny_if (has_resources (tc_rollout c)) "safe stop requires zero rollout-owned resources";
  _ ← deny_if (workers_busy (tc_work c)) "safe-stop workers must be quiescent";
  _ ← deny_if (wk_mutation_capability_active (tc_work c)) "safe-stop candidate mutation capability remains active";
  deny_if (negb (_trusted_work_evidence_valid e p c)) "safe-stop quiescence evidence is missing or inconsistent".

(** The last event that entered a state with a recorded gate. *)
Definition last_stop (stopped : LifecycleState) : option LifecycleEvent :=
  last_event (fun x => applied x && bool_decide (ev_target x = stopped)
                       && bool_decide (ev_resume_state x <> None)) (events p).

(** The gate that a safe stop records when it blocks. *)
Definition blocked_gate (why : string) : option LifecycleState :=
  let interrupted :=
    if bool_decide (state p = PR_MERGED) && String.eqb why "post_merge_blocking_finding" then REPOSITORY_ANALYSED
    else if bool_decide (state p = STAGING_DEPLOYED) && String.eqb why "canary_authorization_missing" then PR_MERGED
    else if bool_decide (state p = COMPLETED) && String.eqb why "completion_evidence_unavailable"
    then PRODUCTION_DEPLOYED
    else state p in
  if bool_decide (state p = BUDGET_EXCEEDED) && String.eqb why "extension_unavailable" then
    match last_stop BUDGET_EXCEEDED with
    | Some prior_budget_stop => ev_resume_state prior_budget_stop
    | None => Some interrupted
    end
  else Some interrupted.

Definition product_input : verdict unit :=
  _ ← deny_if (has_resources (tc_rollout c)) "product input requires cleanup or rollback";
  _ ← deny_if (workers_busy (tc_work c)) "product input requires stopped workers";
  _ ← deny_if (wk_mutation_capability_active (tc_work c))
        "product input requires revoked candidate mutation capability";
  deny_if (negb work_bound) "product input work evidence is not bound to worker quiescence".

(** The gate that a budget stop records. *)
Definition budget_gate : option LifecycleState :=
  match state p with
  | DRAFT_PR_OPEN => Some DRAFT_PR_OPEN
  | IMPLEMENTATION_IN_PROGRESS => Some IMPLEMENTATION_IN_PROGRESS
  | VERIFICATION_FAILED => Some VERIFICATION_FAILED
  | REPAIR_IN_PROGRESS => Some REPAIR_IN_PROGRESS
  | STAGING_DEPLOYED => Some PR_MERGED
  | ROLLED_BACK => Some ROLLED_BACK
  | _ => None
  end.

Definition budget_stop (exhausted : list string) : verdict LifecycleState :=
  _ ← deny_if (negb (_trusted_budget_usage_valid e p c)) "budget stop requires trusted complete budget telemetry";
  _ ← deny_if (bool_decide (exhausted = [])) "budget stop requires proven exhaustion";
  _ ← deny_if (workers_busy (tc_work c)) "budget-stop workers must be quiescent";
  _ ← deny_if (wk_mutation_capability_active (tc_work c)) "budget-stop mutation capability remains active";
  _ ← deny_if (negb work_bound) "budget-stop work evidence is not bound to worker quiescence";
  _ ← deny_if (bool_decide (state p ∈ [IMPLEMENTATION_IN_PROGRESS; REPAIR_IN_PROGRESS])
               && negb (str_in (wk_partial_output_disposition (tc_work c)) frozen_dispositions))
        "partial work has no safe disposition";
  _ ← deny_if (has_resources (tc_rollout c)) "budget stop requires zero rollout resources";
  match budget_gate with
  | None => Denied target c "budget stop has no admitted interrupted safe gate"
  | Some gate => Proceed gate
  end.

(** ** Repairs and blockers *)

Definition finding_bound (accepted_for_repair : bool) (incomplete unauthenticated mismatch : string)
    : verdict FindingSignal :=
  _ ← deny_if (negb (_normalized_engineering_finding (tc_finding c) (subject_digest p) accepted_for_repair)) incomplete;
  match tc_finding c with
  | None => Failed (AssertionError "")
  | Some f =>
      _ ← deny_if (negb (_trusted_finding_signal_valid e p c f)) unauthenticated;
      _ ← deny_if (ev_differs "finding_digest" (_digest (finding_dict f))) mismatch;
      Proceed f
  end.

Definition repair (usage : BudgetUsage) : verdict unit :=
  f ← finding_bound true "repair requires a complete accepted engineering finding"
        "repair finding source is not authenticated"
        "repair finding evidence does not match the normalized finding";
  deny_if ((bp_repair_attempts_per_finding (budget_policy p) <=? count (fs_id f) (bu_by_finding usage))
           || (bp_repair_attempts_per_stage (budget_policy p)
               <=? count (lifecycle_value (state p)) (bu_by_stage usage)))
    "repair attempt limit is exhausted".

Definition set_default (name value : string) (m : evidence_map) : evidence_map :=
  match m !! name with Some _ => m | None => <[name := value]> m end.
Definition finding_source_fields : list string :=
  ["finding_source_id"; "finding_source_authority_digest"; "finding_source_authentication_evidence_digest"]%string.

(** The evidence of the context once a blocker is accepted. *)
Definition blocker_evidence (f : FindingSignal) : evidence_map :=
  let m1 := set_default "finding_source_id" (fs_source f) evidence in
  let m2 := set_default "finding_source_authority_digest" (got (fs_source f) (finding_sources (trust_policy p))) m1 in
  set_default "finding_source_authentication_evidence_digest" (got "finding_authentication_evidence_digest" m2) m2.

Definition blocking_finding : verdict evidence_map :=
  f ← finding_bound false "no normalized exact-subject blocker" "blocking finding source is not authenticated"
        "blocking finding evidence does not match the normalized finding";
  Proceed (blocker_evidence f).

(** ** Reviews and merges *)

Definition approval_eligible (kind : string) (a : Approval) : bool :=
  nonempty (ap_id a) && nonempty (ap_actor a) && String.eqb (ap_kind a) kind && ap_eligible a && ap_active a
  && String.eqb (ap_subject_digest a) (subject_digest p).
Definition approver_attests (roots : evidence_map) (a : Approval) : bool :=
  match roots !! ap_actor a with
  | None => false
  | Some authority_digest =>
      nonempty authority_digest
      && _verify_external_evidence e (ap_actor a) authority_digest (_production_approval_payload a)
           (ap_authentication_evidence_digest a)
  end.
Definition approval_canonical (a : Approval) : bool :=
  is_git_sha (ap_reviewed_commit_sha a) && is_sha256 (ap_reviewed_candidate_digest a)
  && is_sha256 (ap_review_evidence_digest a).

Definition candidate_review (a : Approval) : bool :=
  approval_eligible "FORMAL_REVIEW" a && approval_canonical a
  && ev_is c "reviewed_commit_sha" (ap_reviewed_commit_sha a)
  && ev_is c "prospective_tree_digest" (ap_reviewed_candidate_digest a)
  && ev_is c "verification_bundle_digest" (ap_review_evidence_digest a)
  && ev_is c "review_digest" (_digest (approval_dict a))
  && approver_attests (formal_reviewers (trust_policy p)) a.

Definition review_clear : verdict unit :=
  if phase_four p then
    deny_if (negb (_readiness_bundle_valid e evidence (_live_utc_now (utc_now e ReadinessTime))))
      "a sealed exact-candidate advisory EvidenceBundle is required"
  else
    deny_if (negb (existsb candidate_review (tc_approvals c)))
      "eligible formal review bound to the exact candidate is required".

(** [event.evidence_refs.get(name) == value]. *)
Definition ref_is (x : LifecycleEvent) (name value : string) : bool :=
  bool_decide (ev_evidence_refs x !! name = Some value).

Definition fresh_review (binding : LifecycleEvent) (a : Approval) : bool :=
  match parse_time (ev_observed_at binding), parse_time (tc_observed_at c) with
  | Some readiness_boundary, Some merge_observed_at =>
      approval_eligible "FORMAL_REVIEW" a
      && ref_is binding "reviewed_commit_sha" (ap_reviewed_commit_sha a)
      && ref_is binding "prospective_tree_digest" (ap_reviewed_candidate_digest a)
      && ref_is binding "verification_bundle_digest" (ap_review_evidence_digest a)
      && _timestamp_between (ap_submitted_at a) readiness_boundary merge_observed_at
      && ev_is c "formal_review_digest" (_digest (approval_dict a))
      && approver_attests (formal_reviewers (trust_policy p)) a
  | _, _ => false
  end.

Definition native_gate_valid : bool :=
  let actor := ev c "native_merge_gate_actor" in
  let authority_digest := got actor (native_merge_gates (trust_policy p)) in
  let payload := _native_merge_gate_payload evidence in
  nonempty actor && nonempty authority_digest && ev_is c "native_merge_gate_authority_digest" authority_digest
  && ev_is c "native_merge_gate_digest" (_digest payload)
  && _verify_external_evidence e actor authority_digest payload
       (ev c "native_merge_gate_authentication_evidence_digest").

(** [self._mutation_results.get(attempt.idempotency_key) if attempt is not None else None]. *)
Definition result_of (attempt : option MutationAttempt) : option MutationResult :=
  a ← attempt; mutation_results p !! ma_idempotency_key a.

Definition merge_fields : list string :=
  ["head_commit_sha"; "merge_commit_sha"; "merge_tree_digest"; "merge_method_digest"; "merge_actor_digest"]%string.

Definition merge_matches : bool :=
  match _latest_review_binding p, tc_mutation c, result_of (tc_mutation c) with
  | Some review, Some attempt, Some result =>
      ev_is c "queue_subject_digest" (subject_digest p)
      && bound evidence review "head_commit_sha" "reviewed_commit_sha"
      && ev_is c "head_digest" (_digest (JStr (ev c "head_commit_sha")))
      && bound evidence review "prospective_tree_digest" "prospective_tree_digest"
      && bound evidence review "verification_bundle_digest" "verification_bundle_digest"
      && (if phase_four p then same_refs c _PHASE_FOUR_REVIEW_FIELDS review
          else bound evidence review "formal_review_digest" "review_digest")
      && ev_is c "merge_attempt_digest" (_digest (attempt_dict attempt))
      && successful result
      && bool_decide (evidence !! "merge_result_digest"%string = mr_result_digest result)
      && bool_decide (mr_result_digest result = Some (_digest (strs (claims c merge_fields))))
      && bool_decide (evidence !! "merge_tree_digest"%string = evidence !! "prospective_tree_digest"%string)
  | _, _, _ => false
  end.

Definition merge_binding : verdict unit :=
  _ ← match _latest_review_binding p with
      | Some review =>
          if phase_four p then
            _ ← deny_if (negb (_merge_admission_bundle_valid e evidence (_live_utc_now (utc_now e MergeTime))))
                  "a fresh sealed exact-subject merge-admission EvidenceBundle is required";
            _ ← deny_if (negb (existsb (fresh_review review) (tc_approvals c)))
                  "a fresh eligible formal review after readiness is required for merge";
            deny_if (negb native_gate_valid)
              "an authenticated successful native merge-gate decision is required"
          else Proceed tt
      | None => Proceed tt
      end;
  deny_if (negb merge_matches) "native merge does not match the persisted exact-candidate review binding".

Definition integrated_merge : verdict unit :=
  deny_if (negb (match _latest_merge_binding p with
                 | None => false
                 | Some merge => bound evidence merge "merge_digest" "merge_result_digest"
                 end))
    "staging is not bound to the adapter-attested integrated merge result".

Definition staging_bundle : verdict unit :=
  deny_if (negb (_staging_bundle_valid e p evidence (_live_utc_now (utc_now e StagingTime))))
    "a valid sealed exact-subject staging EvidenceBundle is required".

(** ** Canaries *)

Definition canary_binding : verdict unit :=
  let attempt := attempt_digest (tc_mutation c) in
  let expected_status := _digest (JObj
    [("canary_id_digest", JStr (ev c "canary_id_digest")); ("deployment_attempt_digest", JStr attempt);
     ("deployment_result_digest",
      match result_of (tc_mutation c) with Some r => opt_str (mr_result_digest r) | None => JNull end);
     ("subject_digest", JStr (subject_digest p)); ("status", JStr "ACTIVE")]%string) in
  deny_if (negb (String.eqb (ro_canary (tc_rollout c)) "ACTIVE")
           || existsb (fun name => negb (nonempty (ev c name))) _CANARY_ROLLOUT_SUBJECT_FIELDS
           || ev_differs "canary_attempt_digest" attempt || ev_differs "canary_status_digest" expected_status)
    "canary admission requires exact active canary proof".

Definition canary_fields : list string :=
  ["subject_digest"; "canary_id_digest"; "canary_attempt_digest"; "canary_status_digest"]%string.
Definition active_canary : verdict unit :=
  let rollout_subject_fields :=
    if bool_decide (target ∈ [PRODUCTION_APPROVAL_REQUIRED; PRODUCTION_DEPLOYED])
    then _CANARY_ROLLOUT_SUBJECT_FIELDS else [] in
  let allowed_observed_status :=
    (if bool_decide (target = ROLLBACK_IN_PROGRESS) then ["ACTIVE"; "UNKNOWN"] else ["ACTIVE"])%string in
  deny_if (negb (match _latest_canary_binding p with
                 | None => false
                 | Some binding =>
                     str_in (ro_canary (tc_rollout c)) allowed_observed_status
                     && same_refs c (canary_fields ++ rollout_subject_fields) binding
                 end))
    "transition requires replayable exact-subject canary artifact proof".

Definition approves_production (a : Approval) : bool :=
  approval_eligible "PRODUCTION" a && approval_canonical a
  && ev_is c "merge_commit_sha" (ap_reviewed_commit_sha a)
  && ev_is c "artifact_digest" (ap_reviewed_candidate_digest a)
  && String.eqb (ap_review_evidence_digest a) (_production_approval_scope_digest evidence)
  && ev_is c "production_approval_digest" (_digest (approval_dict a))
  && approver_attests (production_approvers (trust_policy p)) a.
Definition production_approval : verdict unit :=
  deny_if (negb (existsb approves_production (tc_approvals c)))
    "a live production approval bound to the exact rollout is required".

(** ** Mutations *)

Definition result_evidence_names : list (string * string) :=
  [("enqueue_merge", "merge_result_digest"); ("mark_pr_ready", "ready_result_digest");
   ("deploy_staging", "staging_result_digest"); ("deploy_canary", "canary_result_digest");
   ("deploy_production", "production_result_digest"); ("convert_pr_to_draft", "ready_revocation_result_digest");
   ("cleanup_staging", "cleanup_result_digest"); ("rollback", "rollback_result_digest");
   ("teardown_canary", "canary_teardown_digest")]%string.
Definition attempt_evidence_names : list (string * string) :=
  [("open_draft_pr", "governance_attempt_digest"); ("mark_pr_ready", "ready_attempt_digest");
   ("convert_pr_to_draft", "ready_revocation_attempt_digest"); ("enqueue_merge", "merge_attempt_digest");
   ("deploy_staging", "staging_attempt_digest"); ("deploy_canary", "canary_attempt_digest");
   ("deploy_production", "production_attempt_digest"); ("cleanup_staging", "cleanup_attempt_digest");
   ("rollback", "rollback_attempt_digest")]%string.

(** [names.get(action) in rule.required_evidence and evidence.get(...) != value]. *)
Definition required_differs (names : list (string * string)) (action : string) (r : TransitionRule)
    (value : option string) : bool :=
  match assoc action names with
  | None => false
  | Some name => str_in name (required_evidence r) && negb (bool_decide (evidence !! name = value))
  end.

(** The evidence that the plan of a mutation is bound to. *)
Definition plan_evidence (action : string) : evidence_map :=
  if String.eqb action "rollback"
  then <["subject_digest"%string := default (subject_digest p) (evidence !! "subject_digest"%string)]> evidence
  else evidence.
Definition plan_bound (attempt : MutationAttempt) : bool :=
  let action := ma_action attempt in
  existsb (fun fields =>
             match mutation_subject_digest action (plan_evidence action) [(action, fields)] with
             | Ok digest => String.eqb (ma_step_plan_digest attempt) digest
             | Raise _ => false
             end)
    (default [] (assoc action (mutation_subject_field_variants (policy p)))).

(** A result that was recorded for the attempt and that no transition used. *)
Definition result_usable (attempt : MutationAttempt) : bool :=
  match mutation_results p !! ma_idempotency_key attempt with
  | None => false
  | Some result =>
      successful result && bool_decide (ma_idempotency_key attempt ∈ verified_mutation_result_keys p)
      && negb (bool_decide (ma_idempotency_key attempt ∈ consumed_mutation_result_keys p))
  end.

Definition draft_pr_steps : list string := ["issue"; "branch"; "red_commit"; "draft_pr"]%string.

Definition mutation (r : TransitionRule) : verdict unit :=
  match tc_mutation c with
  | None => Denied target c "pre-journaled mutation attempt is required"
  | Some attempt =>
      let starts_safety_action := bool_decide (target = ROLLBACK_IN_PROGRESS) in
      let result := mutation_results p !! ma_idempotency_key attempt in
      _ ← deny_if (negb (String.eqb (ma_status attempt) "PLANNED")) "pre-journaled mutation attempt is required";
      _ ← deny_if (negb (String.eqb (ma_subject_digest attempt) (subject_digest p)))
            "mutation attempt subject does not match";
      _ ← deny_if (match mutation_action r with
                   | Some action => nonempty action && negb (String.eqb (ma_action attempt) action)
                   | None => false
                   end) "mutation attempt action does not match";
      _ ← deny_if (bool_decide (mutation_action r = Some "open_draft_pr"%string)
                   && negb (bool_decide (ma_steps attempt = draft_pr_steps)))
            "draft PR mutation steps must be issue, branch, red commit, draft PR";
      _ ← deny_if (has_key (ma_action attempt) _MUTATION_SUBJECT_FIELDS && negb (plan_bound attempt))
            "mutation step plan is not bound to the exact external-effect subject";
      _ ← of_denial (_require_prejournaled attempts attempt);
      _ ← deny_if (negb starts_safety_action && negb (result_usable attempt))
            "a successful exact-attempt mutation result is required";
      _ ← deny_if (match result with
                   | Some x => negb (String.eqb (mr_attempt_id x) (ma_id attempt))
                   | None => false
                   end) "mutation result attempt does not match";
      _ ← deny_if (negb starts_safety_action
                   && match result with
                      | Some x => successful x
                                  && required_differs result_evidence_names (ma_action attempt) r (mr_result_digest x)
                      | None => false
                      end) "transition evidence does not match the persisted mutation result";
      deny_if (required_differs attempt_evidence_names (ma_action attempt) r (Some (_digest (attempt_dict attempt))))
        "transition mutation attempt evidence does not match"
  end.

(** ** Safety *)

Definition safety_block (r : TransitionRule) : verdict LifecycleState :=
  match tc_mutation c with
  | None => Denied target c "blocked safety action is not attributable"
  | Some attempt =>
      _ ← deny_if (negb (bool_decide (mutation_action r = Some (ma_action attempt))))
            "blocked safety action is not attributable";
      _ ← deny_if (ev_differs "original_attempt_digest" (_digest (attempt_dict attempt)))
            "blocked safety attempt digest does not match";
      _ ← of_denial (_require_prejournaled attempts attempt);
      if String.eqb (ma_action attempt) "rollback" then Proceed ROLLBACK_IN_PROGRESS
      else if String.eqb (ma_action attempt) "cleanup_staging" then Proceed STAGING_FAILED
      else Failed (KeyError (ma_action attempt))
  end.

Definition safety_resume (r : TransitionRule) : verdict unit :=
  let stopped := last_event (fun x => applied x && bool_decide (ev_target x = BLOCKED)) (events p) in
  match stopped, tc_mutation c with
  | Some event, Some attempt =>
      _ ← deny_if (negb (bool_decide (ev_resume_state event = Some target))
                   || negb (bool_decide (mutation_action r = Some (ma_action attempt)))
                   || ev_differs "original_attempt_digest" (_digest (attempt_dict attempt))
                   || negb (same_refs c ["original_attempt_digest"%string] event))
            "safety resume is not bound to the original blocked action";
      of_denial (_require_prejournaled attempts attempt)
  | _, _ => Denied target c "safety resume is not bound to the original blocked action"
  end.

Definition zero_exposure : verdict unit :=
  let clear s := str_in s ["NONE"; "REMOVED"]%string in
  let expected_exposure := _digest (JObj
    [("subject_digest", JStr (subject_digest p)); ("rollback_attempt_digest", JStr (attempt_digest (tc_mutation c)));
     ("rollback_result_digest",
      match result_of (tc_mutation c) with Some x => opt_str (mr_result_digest x) | None => JNull end);
     ("canary", JStr (ro_canary (tc_rollout c)));
     ("changed_production", JStr (ro_changed_production (tc_rollout c)))]%string) in
  _ ← deny_if (negb (_trusted_rollback_evidence_valid e p c)) "trusted rollback exposure evidence is required";
  _ ← deny_if (negb (clear (ro_canary (tc_rollout c)) && clear (ro_changed_production (tc_rollout c))))
        "rollback has unresolved exposure";
  deny_if (ev_differs "rollback_exposure_digest" expected_exposure)
    "rollback exposure evidence is not bound to the exact attempt and subject".

(** ** Completion *)

Definition completion_bundle_fields : list string :=
  ["subject_digest"; "release_sha"; "artifact_digest"; "configuration_digest"; "production_attempt_digest";
   "production_result_digest"; "reviewed_commit_sha"; "reviewed_candidate_digest"; "review_evidence_digest";
   "live_verification_digest"; "rollback_readiness_digest"; "observation_window_digest";
   "finding_high_watermark_digest"; "finding_source_set_digest"; "finding_inventory_epochs_digest"]%string.
Definition completion_bundle_valid : bool :=
  _sealed_bundle_valid e (ev c "evidence_bundle_digest")
    ([("profile", "completion"); ("as_of", _live_utc_now (utc_now e CompletionTime))]%string
     ++ claims c completion_bundle_fields).

Definition invalidating (review x : LifecycleEvent) : bool :=
  (ev_sequence review <? ev_sequence x) && applied x
  && str_in (ev_reason x) ["blocking_finding"; "check_stale"; "head_changed"]%string.

(** The commit that production runs: the merged one, else the reviewed one. *)
Definition release_ref (review : LifecycleEvent) : option string :=
  match _latest_merge_binding p with
  | Some merge => ev_evidence_refs merge !! "merge_commit_sha"%string
  | None => ev_evidence_refs review !! "reviewed_commit_sha"%string
  end.

Definition completion_matches : bool :=
  match _latest_review_binding p with
  | None => false
  | Some review =>
      negb (existsb (invalidating review) (events p))
      && bool_decide (evidence !! "release_sha"%string = release_ref review)
      && match production_event p with
         | Some production => same_refs c deployment_fields production
         | None => true
         end
      && bound evidence review "reviewed_commit_sha" "reviewed_commit_sha"
      && bound evidence review "reviewed_candidate_digest" "prospective_tree_digest"
      && bound evidence review "review_evidence_digest" "verification_bundle_digest"
      && (phase_four p || bound evidence review "evidence_bundle_digest" "verification_bundle_digest")
      && ref_is review "subject_digest" (subject_digest p)
  end.

Definition completion : verdict unit :=
  _ ← deny_if (completion_claim_active p) "completion claim is already active";
  _ ← deny_if (negb (_trusted_live_evidence_valid e p c))
        "trusted live observation evidence is required for completion";
  _ ← deny_if (phase_four p && negb completion_bundle_valid)
        "a valid sealed exact-subject EvidenceBundle is required for completion";
  deny_if (negb completion_matches) "completion is not bound to the exact reviewed candidate and evidence".

Definition completion_event : option LifecycleEvent :=
  last_event (fun x => String.eqb (ev_kind x) "COMPLETION_CLAIMED" && applied x) (events p).

Definition revocation_valid : bool :=
  let a := tc_actor c in
  let monitor_identity := _digest (strs
    [("actor_id", ac_id a); ("role", ac_role a); ("subject_digest", ac_subject_digest a)]%string) in
  match completion_event with
  | None => false
  | Some claimed =>
      let expected_invalidation := _digest (strs
        [("completion_event_digest", ev_event_digest claimed);
         ("monitor_authentication_evidence_digest", ac_authentication_evidence_digest a);
         ("monitor_identity_digest", monitor_identity); ("subject_digest", subject_digest p);
         ("trigger_digest", trigger_digest c)]%string) in
      completion_claim_active p && capable "lifecycle.completion.revoke"
      && _trusted_integrity_monitor_valid e p c
      && ev_is c "completion_event_digest" (ev_event_digest claimed)
      && ev_is c "monitor_identity_digest" monitor_identity
      && ev_is c "monitor_authentication_evidence_digest" (ac_authentication_evidence_digest a)
      && ev_is c "invalidation_digest" expected_invalidation
  end.
Definition revoke_completion : verdict unit :=
  deny_if (negb revocation_valid)
    "completion revocation lacks an active claim and attributable monitor evidence".

(** What a stop in front of the merge records, for [resume]. *)
Definition review_input_fields : list string :=
  ["reviewed_commit_sha"; "prospective_tree_digest"; "verification_bundle_digest"; "review_digest"]%string.
Definition bound_review_inputs : verdict (list (string * string)) :=
  match _latest_review_binding p with
  | None => Denied target c "PR_READY stop has no persisted review inputs to bind for resume"
  | Some review =>
      let review_inputs := selected_members review_input_fields (ev_evidence_refs review) in
      Proceed (review_inputs ++ [("resume_binding_digest"%string, _digest (strs review_inputs))])
  end.
End Context_.
End Guards.
