(* ===== verification/Control.v ===== *)
(** * The lifecycle control plane: its operations ([orchestration/lifecycle.py])

    [transition], [resume], [prejournal_mutation], [record_mutation_result],
    [record_observation], [issue_budget_extension_challenge] and
    [admit_budget_policy].  [transition] and [resume] decide first and write
    after: the decision is a function of the instance and of the context. *)
From Stdlib Require Import Ascii String.
From S2P Require Import Prelude Sha256 Json JsonText PyStr PyConv Lifecycle LifecycleRules ControlData.
From S2P Require Import ControlEvidence ControlLedger ControlGuards.

(** ** [transition] *)

(** What an applied transition writes. *)
Record decision : Type := {
  de_kind : string;
  de_evidence : evidence_map;
  de_usage : BudgetUsage;
  de_resume : option LifecycleState
}.

Definition consumed_key_name : string := "consumed_mutation_result_key".

Section Control.
Context `{Datetime} `{Unicode}.
Variable e : control_env.

Section Transition.
Variable p : plane.
Variable attempts : res (gmap string MutationAttempt).
Variable target : LifecycleState.
Variable why : string.

Abbreviation no c := (deny_if target c).

(** Up to the evidence that the rule requires: the rule, and the usage. *)
Definition admission (c : TransitionContext) : verdict (TransitionRule * BudgetUsage) :=
  _ ← no c (negb (actor_valid e p c)) "actor authority is invalid for this subject";
  _ ← no c (negb (bu_safety_units_used (tc_budget_usage c) =? bu_safety_units_used (budget_usage p)))
        "reserved safety usage is controlled only by the lifecycle authority";
  usage ← supplied_usage e p target c;
  _ ← no c (has_exposure (tc_rollout c) && is_stop target && negb (exposure_preserving_block p target why))
        "active rollout exposure requires rollback";
  r ← of_denial target c (rule (policy p) (state p) target why);
  _ ← no c (negb (capable c (permission r))) "actor authority lacks the required capability";
  _ ← required_evidence_given p target c r;
  Proceed (r, usage).

(** [if guard in guards: ...]. *)
Definition when_guard (r : TransitionRule) (guard : string) (m : verdict unit) : verdict unit :=
  if has_guard guard (guards r) then m else Proceed tt.
Definition gate_when (r : TransitionRule) (guard : string) (gate : option LifecycleState)
    (m : verdict (option LifecycleState)) : verdict (option LifecycleState) :=
  if has_guard guard (guards r) then m else Proceed gate.

(** Rollout status, authority, budget and promotion. *)
Definition exposure_and_budget (c : TransitionContext) (r : TransitionRule) (exhausted : list string)
    : verdict unit :=
  let canary := ro_canary (tc_rollout c) in
  _ ← no c (bool_decide (target = STAGING_FAILED) && has_resources (tc_rollout c))
        "staging failure requires zero rollout-owned resources";
  _ ← when_guard r "budget"
        (no c (negb (_trusted_budget_usage_valid e p c)) "trusted complete budget telemetry is required");
  _ ← no c (bool_decide (state p = CANARY_DEPLOYED) && negb (present canary))
        "canary exposure is not evidenced; zero exposure cannot be inferred";
  _ ← no c (String.eqb why "canary_mutation_indeterminate" && negb (String.eqb canary "UNKNOWN"))
        "indeterminate canary mutation requires unknown canary exposure";
  _ ← no c (String.eqb why "canary_breach" && negb (present canary))
        "canary breach requires evidenced exposure";
  _ ← when_guard r "authority"
        (current ← of_res (_trusted_authority_snapshot_valid e p c);
         no c (negb current) "contract or publisher authority is not current");
  _ ← when_guard r "budget" (no c (negb (bool_decide (exhausted = []))) "delivery budget is exhausted");
  _ ← when_guard r "no_blocking_finding" (no_blocking_finding e p target c);
  _ ← when_guard r "finding_disposition" (finding_disposition e p target c);
  _ ← when_guard r "canary_window"
        (no c (negb (_trusted_canary_window_valid e p c))
           "trusted exact-canary window evidence is required for promotion");
  when_guard r "canary_breach"
    (no c (negb (_trusted_canary_breach_valid e p c)) "trusted exact-canary breach evidence is required").

(** The stops: each records the gate that [resume] returns to. *)
Definition stops (c : TransitionContext) (r : TransitionRule) (exhausted : list string)
    : verdict (option LifecycleState) :=
  _ ← when_guard r "drift" (drift e p target c);
  gate1 ← gate_when r "security_incident_block" None
            (_ ← security_incident_block e p target c; Proceed (Some CONTRACT_RECEIVED));
  gate2 ← gate_when r "safe_stop" gate1
            (_ ← safe_stop e p target c;
             Proceed (if bool_decide (target = BLOCKED) then blocked_gate p why else gate1));
  _ ← when_guard r "product_input" (product_input e p target c);
  gate_when r "budget_stop" gate2 (gate ← budget_stop e p target c exhausted; Proceed (Some gate)).

(** Findings; the blocker's source is added to the evidence. *)
Definition findings (c : TransitionContext) (r : TransitionRule) (usage : BudgetUsage) : verdict evidence_map :=
  _ ← when_guard r "repair" (repair e p target c usage);
  if has_guard "blocking_finding" (guards r) then blocking_finding e p target c else Proceed (tc_evidence c).

(** Reviews, merges, canaries and approvals. *)
Definition bindings (c : TransitionContext) (r : TransitionRule) : verdict unit :=
  _ ← when_guard r "review_clear" (review_clear e p target c);
  _ ← when_guard r "merge_binding" (merge_binding e p target c);
  _ ← when_guard r "integrated_merge" (integrated_merge p target c);
  _ ← when_guard r "staging_bundle" (staging_bundle e p target c);
  _ ← when_guard r "canary_binding" (canary_binding p target c);
  _ ← when_guard r "active_canary" (active_canary p target c);
  when_guard r "production_approval" (production_approval e p target c).

(** Mutations and the reserve for safety. *)
Definition effects (c : TransitionContext) (r : TransitionRule) (usage : BudgetUsage)
    (gate : option LifecycleState) : verdict (option LifecycleState) :=
  _ ← when_guard r "mutation" (mutation p target attempts c r);
  gate' ← gate_when r "safety_block" gate (g ← safety_block target attempts c r; Proceed (Some g));
  _ ← when_guard r "safety"
        (no c (negb (safety_available usage (budget_policy p))) "reserved safety budget is exhausted");
  _ ← when_guard r "safety_resume" (safety_resume p target attempts c r);
  Proceed gate'.

(** The live system and completion. *)
Definition live (c : TransitionContext) (r : TransitionRule) : verdict unit :=
  _ ← when_guard r "live_failure"
        (no c (negb (_trusted_live_failure_valid e p c))
           "trusted live failure evidence bound to the admitted deployment is required");
  _ ← when_guard r "canary_teardown"
        (no c (negb (_trusted_canary_teardown_valid e p c))
           "trusted zero-exposure canary teardown evidence is required");
  _ ← when_guard r "zero_exposure" (zero_exposure e p target c);
  _ ← when_guard r "completion" (completion e p target c);
  when_guard r "revoke_completion" (revoke_completion e p target c).

Definition kind_of : string :=
  if bool_decide (target = COMPLETED) then "COMPLETION_CLAIMED"
  else if bool_decide (state p = COMPLETED) then "COMPLETION_REVOKED" else "TRANSITION".

Definition bump (name : string) (m : gmap string Z) : gmap string Z := <[name := count name m + 1]> m.

Definition used (c : TransitionContext) (r : TransitionRule) (usage : BudgetUsage) : BudgetUsage :=
  let after_repair :=
    match tc_finding c with
    | Some f =>
        if has_guard "repair" (guards r)
        then {| bu_counters := bu_counters usage; bu_by_finding := bump (fs_id f) (bu_by_finding usage);
                bu_by_stage := bump (lifecycle_value (state p)) (bu_by_stage usage);
                bu_safety_units_used := bu_safety_units_used usage |}
        else usage
    | None => usage
    end in
  if has_guard "safety" (guards r)
  then with_safety_units (bu_safety_units_used after_repair + 1) after_repair else after_repair.

(** The evidence of the event: the caller's, the source of a blocker, what a stop
    before the merge binds, and the result that the transition uses up. *)
Definition event_evidence (c : TransitionContext) (r : TransitionRule) (blocker : evidence_map)
    (inputs : list (string * string)) : evidence_map :=
  let m1 := foldl (fun m q => <[fst q := snd q]> m) blocker inputs in
  match tc_mutation c, result_of p (tc_mutation c) with
  | Some attempt, Some result =>
      if has_guard "mutation" (guards r) && successful result
      then <[consumed_key_name := ma_idempotency_key attempt]> m1 else m1
  | _, _ => m1
  end.

Definition decide_transition (c : TransitionContext) : verdict decision :=
  if String.eqb why "recorded_safe_resume"
  then Failed (TransitionDeniedError "recorded-safe resumes require resume() admission")
  else
    '(r, usage) ← admission c;
    let exhausted := exhausted_dimensions usage (budget_policy p) in
    _ ← exposure_and_budget c r exhausted;
    stopped ← stops c r exhausted;
    blocker ← findings c r usage;
    let c := with_evidence blocker c in
    _ ← bindings c r;
    gate ← effects c r usage stopped;
    _ ← live c r;
    inputs ← (if has_guard "safe_stop" (guards r) && bool_decide (state p = PR_READY)
                 && bool_decide (target = BLOCKED)
              then bound_review_inputs p target c else Proceed []);
    usage' ← of_res (new_budget_usage (used c r usage));
    Proceed {| de_kind := kind_of; de_evidence := event_evidence c r blocker inputs;
               de_usage := usage'; de_resume := gate |}.
End Transition.

Definition applied_entry (p : plane) (target : LifecycleState) (c : TransitionContext) (why : string)
    (d : decision) : entry := {|
  en_kind := de_kind d; en_outcome := "APPLIED"; en_source := state p; en_target := target;
  en_reason := why; en_actor := ac_id (tc_actor c); en_evidence_refs := de_evidence d;
  en_observed_at := tc_observed_at c; en_budget_usage := Some (de_usage d); en_resume_state := de_resume d;
  en_detail := "" |}.

(** Writing what was decided: a refusal is an event too. *)
Definition carry_out {A} (why : string) (v : verdict A) (k : A -> op LifecycleEvent) : op LifecycleEvent :=
  match v with
  | Proceed a => k a
  | Denied target c detail => _deny e target c why detail
  | Failed x => raise_st x
  end.

(** What a transition leaves in the instance after its event is written. *)
Definition adopt (target : LifecycleState) (d : decision) (p : plane) : plane :=
  let p1 := set_budget_usage (de_usage d) (set_state target p) in
  let p2 := if nonempty (got consumed_key_name (de_evidence d))
            then add_consumed (got consumed_key_name (de_evidence d)) p1 else p1 in
  if String.eqb (de_kind d) "COMPLETION_CLAIMED" then set_claim true p2
  else if String.eqb (de_kind d) "COMPLETION_REVOKED" then set_claim false p2 else p2.

Definition _transition_locked (target : LifecycleState) (c : TransitionContext) (why : string)
    : op LifecycleEvent :=
  p ← get_st cp;
  attempts ← get_st (fun s => _read_mutation_attempts (journal_file (files s)));
  carry_out why (decide_transition p attempts target why c) (fun d =>
    event ← _append e (applied_entry p target c why d) None None;
    _ ← set_cp (adopt target d);
    if String.eqb (de_kind d) "COMPLETION_CLAIMED"
    then match purge_error e with Some x => raise_st x | None => mret event end
    else mret event).

Definition transition (target : LifecycleState) (c : TransitionContext) (why : string) : op LifecycleEvent :=
  _exclusive_lock e (_transition_locked target c why).

(** ** [resume] *)

Section Resume.
Variable p : plane.

Definition authenticated_payload (c : TransitionContext) (members : list (string * string)) : json :=
  strs (members ++ [("observed_at"%string, tc_observed_at c)]).

(** A resume in front of the merge: the inputs of the review are unchanged. *)
Definition review_unchanged (c : TransitionContext) (stopped : LifecycleEvent) : bool :=
  let review_inputs := claims c review_input_fields in
  is_git_sha (ev c "reviewed_commit_sha")
  && forallb (fun name => is_sha256 (ev c name))
       ["prospective_tree_digest"; "verification_bundle_digest"; "review_digest"]%string
  && ref_is stopped "resume_binding_digest" (_digest (strs review_inputs))
  && bound (tc_evidence c) stopped "unchanged_inputs_digest" "resume_binding_digest"
  && _trusted_repository_observation_valid e p c review_inputs.

(** A resume after a blocking finding: its source disposed of it. *)
Definition finding_disposed (c : TransitionContext) (stopped : LifecycleEvent) : bool :=
  let refs := ev_evidence_refs stopped in
  let source_id := got "finding_source_id" refs in
  let authority_digest := got "finding_source_authority_digest" refs in
  let finding_digest := got "finding_digest" refs in
  let disposed := ["finding_disposition_digest"; "remediation_issue_digest"; "repository_snapshot_digest"]%string in
  forallb (fun name => is_sha256 (ev c name)) disposed
  && ev_is c "finding_digest" finding_digest
  && attested e (finding_sources (trust_policy p)) source_id authority_digest
       (authenticated_payload c
          ([("source_id", source_id); ("authority_digest", authority_digest);
            ("subject_digest", subject_digest p); ("finding_digest", finding_digest)]%string
           ++ claims c disposed))
       (ev c "finding_disposition_authentication_evidence_digest").

(** A resume after a quarantine: the artifact was disposed of. *)
Definition quarantine_disposed (c : TransitionContext) (stopped : LifecycleEvent) : bool :=
  let affected_artifact := got "affected_artifact_digest" (ev_evidence_refs stopped) in
  let observer := ev c "quarantine_disposition_observer_id" in
  let authority_digest := ev c "quarantine_disposition_observer_authority_digest" in
  capable c "lifecycle.quarantine.disposition"
  && ev_is c "affected_artifact_digest" affected_artifact
  && ev_is c "quarantine_disposition_status" "AUTHORITATIVELY_DISPOSED"
  && attested e (repository_observers (trust_policy p)) observer authority_digest
       (authenticated_payload c
          [("observer_id", observer); ("authority_digest", authority_digest);
           ("affected_artifact_digest", affected_artifact); ("subject_digest", subject_digest p);
           ("status", "AUTHORITATIVELY_DISPOSED")]%string)
       (ev c "quarantine_disposition_authentication_evidence_digest").

Definition is_blocker_stop (x : LifecycleEvent) : bool := String.eqb (ev_reason x) "post_merge_blocking_finding".
Definition is_quarantine_stop (x : LifecycleEvent) : bool :=
  String.eqb (ev_reason x) "quarantine_disposition_indeterminate".

Definition resume_rule (c : TransitionContext) (recorded : LifecycleState) : verdict unit :=
  r ← of_denial recorded c (rule (policy p) (state p) recorded "recorded_safe_resume");
  _ ← deny_if recorded c (negb (capable c (permission r))) "resume authority lacks required capability";
  let missing := missing_evidence c r in
  _ ← deny_if recorded c (negb (bool_decide (missing = [])))
        ("required resume evidence is missing: " +:+ join ", " (sorted_str missing));
  let malformed := _malformed_evidence (tc_evidence c) (required_evidence r) in
  _ ← deny_if recorded c (negb (bool_decide (malformed = [])))
        ("resume evidence is not canonical: " +:+ join ", " malformed);
  deny_if recorded c (ev_differs c "subject_digest" (subject_digest p)) "resume subject evidence does not match".

Definition resume_evidence (c : TransitionContext) (stopped : LifecycleEvent) (recorded : LifecycleState)
    : verdict unit :=
  let at_review := bool_decide (recorded = PR_READY) in
  _ ← deny_if recorded c (at_review && negb (review_unchanged c stopped))
        "PR_READY resume lacks a fresh trusted repository observation";
  _ ← deny_if recorded c (is_blocker_stop stopped && negb (finding_disposed c stopped))
        "authenticated exact-finding disposition and fresh remediation admission are required before resume";
  _ ← deny_if recorded c (is_quarantine_stop stopped && negb (quarantine_disposed c stopped))
        "authoritative exact-artifact quarantine disposition evidence is required";
  let specialized_resume := is_blocker_stop stopped || is_quarantine_stop stopped || at_review in
  deny_if recorded c (negb specialized_resume && negb (_trusted_resume_gate_valid e p c stopped recorded))
    "trusted exact-stop resume evidence is required".

Definition resume_safety (c : TransitionContext) (recorded : LifecycleState) : verdict BudgetUsage :=
  _ ← deny_if recorded c (has_resources (tc_rollout c)) "ordinary resume requires zero rollout resources";
  _ ← deny_if recorded c (workers_busy (tc_work c)) "ordinary resume requires stopped workers";
  _ ← deny_if recorded c (wk_mutation_capability_active (tc_work c))
        "ordinary resume requires revoked candidate mutation capability";
  current ← of_res (_trusted_authority_snapshot_valid e p c);
  _ ← deny_if recorded c (negb current) "authority must be current before resume";
  _ ← deny_if recorded c (negb (bu_safety_units_used (tc_budget_usage c) =? bu_safety_units_used (budget_usage p)))
        "reserved safety usage is controlled only by the lifecycle authority";
  _ ← deny_if recorded c (negb (_trusted_budget_usage_valid e p c))
        "trusted complete budget telemetry is required before resume";
  usage ← of_denial recorded c (_merge_budget_usage (budget_usage p) (tc_budget_usage c) true);
  _ ← deny_if recorded c (negb (bool_decide (exhausted_dimensions usage (budget_policy p) = [])))
        "approved budget extension is not effective";
  Proceed usage.

Definition decide_resume (c : TransitionContext) : verdict (LifecycleState * BudgetUsage) :=
  _ ← deny_if (state p) c (negb (actor_valid e p c && capable c "lifecycle.transition"))
        "actor authority is invalid for this subject";
  _ ← deny_if (state p) c (negb (bool_decide (state p ∈ [BLOCKED; BUDGET_EXCEEDED])))
        "only a stopped lifecycle can resume";
  match x ← last_stop p (state p); recorded ← ev_resume_state x; Some (x, recorded) with
  | None => Denied (state p) c "the stopped lifecycle has no recorded safe state"
  | Some (stopped, recorded) =>
      _ ← resume_rule c recorded;
      _ ← resume_evidence c stopped recorded;
      usage ← resume_safety c recorded;
      Proceed (recorded, usage)
  end.
End Resume.

Definition resumed_entry (p : plane) (c : TransitionContext) (recorded : LifecycleState) (usage : BudgetUsage)
    : entry := {|
  en_kind := "TRANSITION"; en_outcome := "APPLIED"; en_source := state p; en_target := recorded;
  en_reason := "recorded_safe_resume"; en_actor := ac_id (tc_actor c); en_evidence_refs := tc_evidence c;
  en_observed_at := tc_observed_at c; en_budget_usage := Some usage; en_resume_state := Some recorded;
  en_detail := "" |}.

Definition resume (c : TransitionContext) : op LifecycleEvent :=
  p ← get_st cp;
  carry_out "resume" (decide_resume p c) (fun q =>
    let '(recorded, usage) := q in
    event ← _append e (resumed_entry p c recorded usage) None None;
    _ ← set_cp (fun p => set_budget_usage usage (set_state recorded p));
    mret event).

(** ** [prejournal_mutation] *)

(** Whether the run is under the first policy and its schema for the action is
    unknown, or was not the only one. *)
Definition historical_schema_unavailable_or_ambiguous (p : plane) (action : string) : bool :=
  let variants := mutation_subject_field_variants (policy p) in
  String.eqb (policy_version (policy p)) "phase-zero-v1"
  && (bool_decide (default [] (assoc action variants) = [])
      || existsb (fun v => bool_decide (1 < length (remove_dups (snd v)))%nat) variants).

(** The sealed bundles that the release of three of the mutations needs. *)
Definition release_valid (p : plane) (attempt : MutationAttempt) (evidence : option evidence_map) : res unit :=
  let release_as_of := _live_utc_now (utc_now e ReleaseTime) in
  let action := ma_action attempt in
  exact_plan ← match evidence with
               | None => Ok false
               | Some m =>
                   digest ← mutation_subject_digest action m (mutation_subject_fields (policy p));
                   Ok (String.eqb (ma_step_plan_digest attempt) digest)
               end;
  let m := default ∅ evidence in
  _ ← raise_if (String.eqb action "mark_pr_ready"
                && negb (exact_plan && bool_decide (m !! "subject_digest"%string = Some (subject_digest p))
                         && _readiness_bundle_valid e m release_as_of))
        (TransitionDeniedError "ready mutation release requires a fresh sealed exact-candidate bundle");
  _ ← raise_if (String.eqb action "enqueue_merge"
                && negb (exact_plan && _merge_admission_readiness_binding_valid p m
                         && _merge_admission_bundle_valid e m release_as_of))
        (TransitionDeniedError "merge mutation release requires the exact ready candidate and a fresh sealed merge-admission bundle");
  raise_if (String.eqb action "deploy_staging"
            && negb (exact_plan && _staging_merge_binding_valid p m && _staging_bundle_valid e p m release_as_of))
    (TransitionDeniedError "staging mutation release requires the exact integrated merge and a valid sealed exact-subject bundle").

Definition prejournal_mutation (attempt : MutationAttempt) (authorization : MutationAuthorization)
    (evidence : option evidence_map) : op MutationAttempt :=
  _exclusive_lock e (
    p ← get_st cp;
    ledger ← get_st (fun s => ledger_file (files s));
    persisted ← lift_res (json_lines ledger);
    persisted_head ← lift_res (head_digest persisted);
    _ ← lift_res (raise_if (negb (String.eqb persisted_head (current_head p)))
          (TransitionDeniedError "lifecycle state changed; reload before mutation release"));
    _ ← lift_res (raise_if (negb (String.eqb (ma_subject_digest attempt) (subject_digest p)))
          (TransitionDeniedError "mutation attempt subject does not match"));
    journal ← get_st (fun s => journal_file (files s));
    persisted_attempts ← lift_res (_read_mutation_attempts journal);
    _ ← lift_res (raise_if (historical_schema_unavailable_or_ambiguous p (ma_action attempt)
                            && negb (bool_decide (ma_idempotency_key attempt ∈ dom persisted_attempts)))
          (TransitionDeniedError "unavailable or ambiguous historical schema may replay only an existing mutation attempt"));
    _ ← lift_res (raise_if (negb (_mutation_authorization_valid e p attempt authorization))
          (TransitionDeniedError "mutation attempt lacks current external lifecycle authority"));
    _ ← (if phase_four p then lift_res (release_valid p attempt evidence) else mret tt);
    _ ← _register_mutation_locked e attempt;
    mret attempt).

(** ** [record_mutation_result] *)

Definition adapter_valid (p : plane) (attempt : MutationAttempt) (status : string) (result_digest : option string)
    (a : AdapterResultEvidence) : bool :=
  nonempty (ae_adapter_id a) && nonempty (ae_role a) && ae_authenticated a
  && bool_decide ("lifecycle.mutation.result.record"%string ∈ ae_capabilities a)
  && String.eqb (ae_subject_digest a) (subject_digest p)
  && String.eqb (ae_subject_digest a) (ma_subject_digest attempt)
  && String.eqb (ae_attempt_id a) (ma_id attempt)
  && String.eqb (ae_idempotency_key a) (ma_idempotency_key attempt)
  && String.eqb (ae_action a) (ma_action attempt)
  && String.eqb (ae_step_plan_digest a) (ma_step_plan_digest attempt)
  && String.eqb (ae_status a) status && bool_decide (ae_result_digest a = result_digest)
  && attested e (adapter_authorities (trust_policy p)) (ae_adapter_id a) (ae_authority_digest a)
       (_adapter_result_evidence_payload a) (ae_authentication_evidence_digest a).

(** What a result that was sealed before leaves: the same one again, or an
    unknown one that becomes known. *)
Definition sealed_before (prior : option MutationResult) (attempt : MutationAttempt) (status : string)
    (result_digest : option string) : res (option MutationResult) :=
  match prior with
  | None => Ok None
  | Some r =>
      if negb (String.eqb (mr_attempt_id r) (ma_id attempt))
      then Raise (TransitionDeniedError "mutation result attempt does not match")
      else if String.eqb (mr_status r) "UNKNOWN" && str_in status ["SUCCEEDED"; "FAILED"]%string then Ok None
      else if String.eqb (mr_status r) status && bool_decide (mr_result_digest r = result_digest) then Ok (Some r)
      else Raise (TransitionDeniedError "mutation result is already sealed")
  end.

(** [result_digest or "UNKNOWN"]. *)
Definition or_unknown (result_digest : option string) : string :=
  match result_digest with Some d => if nonempty d then d else "UNKNOWN" | None => "UNKNOWN" end.

Definition result_entry (p : plane) (attempt : MutationAttempt) (status : string) (result_digest : option string)
    (a : AdapterResultEvidence) : entry := {|
  en_kind := "MUTATION_RESULT"; en_outcome := "RECORDED"; en_source := state p; en_target := state p;
  en_reason := ma_action attempt; en_actor := ae_adapter_id a;
  en_evidence_refs := list_to_map
    [("attempt_id", ma_id attempt); ("idempotency_key", ma_idempotency_key attempt);
     ("result_digest", or_unknown result_digest); ("adapter_id", ae_adapter_id a); ("adapter_role", ae_role a);
     ("adapter_capabilities_json", json_dumps (sorted_names (ae_capabilities a)));
     ("adapter_authority_digest", ae_authority_digest a); ("adapter_step_plan_digest", ae_step_plan_digest a);
     ("adapter_authentication_evidence_digest", ae_authentication_evidence_digest a)]%string;
  en_observed_at := ""; en_budget_usage := None; en_resume_state := None; en_detail := status |}.

Definition record_mutation_result (attempt : MutationAttempt) (status : string) (result_digest : option string)
    (adapter_evidence : option AdapterResultEvidence) : op MutationResult :=
  p ← get_st cp;
  let key := ma_idempotency_key attempt in
  _ ← lift_res (raise_if (negb (str_in status ["SUCCEEDED"; "FAILED"; "UNKNOWN"]%string))
        (TransitionDeniedError "mutation result status is not admitted"));
  _ ← lift_res (raise_if (negb (String.eqb (ma_subject_digest attempt) (subject_digest p)))
        (TransitionDeniedError "mutation attempt subject does not match"));
  _ ← lift_res (raise_if (String.eqb status "SUCCEEDED"
                          && negb (match result_digest with Some d => is_sha256 d | None => false end))
        (TransitionDeniedError "successful mutation requires a canonical result digest"));
  attempts ← get_st (fun s => _read_mutation_attempts (on_disk e (journal_file (files s))));
  _ ← lift_res (_require_prejournaled attempts attempt);
  a ← lift_res (from_option_res
        (a ← adapter_evidence; if adapter_valid p attempt status result_digest a then Some a else None)
        (TransitionDeniedError "trusted adapter authority for the authenticated exact attempt is required"));
  prior ← lift_res (sealed_before (mutation_results p !! key) attempt status result_digest);
  match prior with
  | Some r => mret r
  | None =>
      let result := {| mr_attempt_id := ma_id attempt; mr_idempotency_key := key; mr_status := status;
                       mr_result_digest := result_digest |} in
      _ ← _append e (result_entry p attempt status result_digest a) None None;
      _ ← set_cp (add_result key result);
      mret result
  end.

(** ** [record_observation] *)

Definition observation_entry (p : plane) (source payload_digest signature authority_digest observed_at : string)
    : entry := {|
  en_kind := "OBSERVATION"; en_outcome := "RECORDED"; en_source := state p; en_target := state p;
  en_reason := source; en_actor := source;
  en_evidence_refs := list_to_map
    [("subject_digest", subject_digest p); ("payload_digest", payload_digest); ("signature", signature);
     ("observer_authority_digest", authority_digest)]%string;
  en_observed_at := observed_at; en_budget_usage := None; en_resume_state := None; en_detail := "" |}.

Definition record_observation (source subject payload_digest signature observed_at : string)
    : op LifecycleEvent :=
  _exclusive_lock e (
    p ← get_st cp;
    _ ← lift_res (raise_if (negb (String.eqb subject (subject_digest p)))
          (TransitionDeniedError "observation subject does not match the lifecycle subject"));
    _ ← lift_res (raise_if (negb (forallb nonempty [source; payload_digest; signature; observed_at]))
          (TransitionDeniedError "observation is not digest-bound and attributable"));
    let authority_digest := got source (live_observers (trust_policy p)) in
    let payload := strs
      [("source", source); ("subject_digest", subject); ("payload_digest", payload_digest);
       ("observed_at", observed_at)]%string in
    _ ← lift_res (raise_if (negb (nonempty authority_digest
                                  && _verify_external_evidence e source authority_digest payload signature))
          (TransitionDeniedError "observation source is not authenticated"));
    _append_locked e (observation_entry p source payload_digest signature authority_digest observed_at) None None).

(** ** Budget extensions *)

(** [issue_budget_extension_challenge], with [secrets.token_urlsafe(32)]. *)
Definition issue_budget_extension_challenge (token : string) : op string :=
  _ ← set_cp (set_challenge (Some (token, monotonic e + 300 * 1000000)));
  mret token.

Definition budget_values (b : BudgetPolicy) : gmap string Z :=
  <["reserved_safety_units" := bp_reserved_safety_units b]>
    (<["repair_attempts_per_stage" := bp_repair_attempts_per_stage b]>
       (<["repair_attempts_per_finding" := bp_repair_attempts_per_finding b]> (bp_limits b)))%string.
Definition _budget_extension_amounts (current proposed : BudgetPolicy) : gmap string Z :=
  map_imap (fun name value =>
              let proposed_value := count name (budget_values proposed) in
              if proposed_value =? value then None else Some (proposed_value - value))
    (budget_values current).

Definition malformed_validity : exn := TransitionDeniedError "budget extension validity is malformed".

(** The times at which the extensions before were authorised. *)
Definition prior_authority_times (p : plane) : list string :=
  List.filter nonempty
    (map (fun x => got "authority_current_time" (ev_evidence_refs x))
       (List.filter (fun x => String.eqb (ev_kind x) "BUDGET_POLICY_ADMITTED"
                              && String.eqb (ev_outcome x) "RECORDED") (events p))).

(** The owner: who signs the extension, and for what. *)
Definition extension_owner_valid (p : plane) (proposed : BudgetPolicy) (a : BudgetExtensionAuthorization)
    (authority : AuthoritySnapshot) (observed_at : string) : res unit :=
  _ ← raise_if (negb (nonempty (be_owner_id a) && nonempty (be_owner_role a) && be_authenticated a
                      && bool_decide ("lifecycle.budget.extend"%string ∈ be_capabilities a)))
        (TransitionDeniedError "authenticated budget owner authority is required");
  _ ← raise_if (negb (String.eqb (be_run_id a) (run_id p) && String.eqb (be_subject_digest a) (subject_digest p)))
        (TransitionDeniedError "budget extension run or subject does not match");
  _ ← raise_if (negb (current_at authority observed_at && String.eqb (be_authority_digest a) (as_digest authority)
                      && String.eqb (be_owner_id a) (bp_approved_by proposed)))
        (TransitionDeniedError "budget extension owner authority is not current");
  _ ← raise_if (negb (nonempty (be_extension_id a) && nonempty (be_reason a)))
        (TransitionDeniedError "budget extension identity and reason are required");
  _ ← raise_if (negb (is_sha256 (be_credential_digest a) && is_sha256 (be_evidence_digest a)))
        (TransitionDeniedError "budget extension evidence digest is not canonical");
  _ ← raise_if (negb (attested e (budget_owner_authorities (trust_policy p)) (be_owner_id a)
                        (be_credential_digest a) (_budget_extension_authorization_payload a)
                        (be_evidence_digest a)))
        (TransitionDeniedError "trusted budget-owner authority is required");
  raise_if (negb (match budget_extension_challenge p with
                  | None => false
                  | Some (token, deadline) =>
                      String.eqb (be_admission_challenge a) token && (monotonic e <=? deadline)
                  end))
    (TransitionDeniedError "budget extension requires a fresh admission challenge").

Definition extension_authority_payload (p : plane) (a : BudgetExtensionAuthorization)
    (authority : AuthoritySnapshot) : json := JObj
  [("observer_id", JStr (be_authority_observer_id a));
   ("authority_digest", JStr (be_authority_observer_authority_digest a));
   ("subject_digest", JStr (subject_digest p)); ("contract_version", JStr (as_contract_version authority));
   ("publisher_version", JStr (as_publisher_version authority));
   ("contract_active", JBool (as_contract_active authority));
   ("publisher_active", JBool (as_publisher_active authority));
   ("authority_observed_at", JStr (as_observed_at authority)); ("valid_until", JStr (as_valid_until authority));
   ("authority_current_time", JStr (be_authority_current_time a));
   ("admission_challenge", JStr (be_admission_challenge a))]%string.

(** The times: now is after the observation, after every extension before, and
    inside the validity of the authority and of the extension. *)
Definition extension_times_valid (p : plane) (a : BudgetExtensionAuthorization) (authority : AuthoritySnapshot)
    (observed_at : string) : res unit :=
  let time text error := from_option_res (parse_time text) (TransitionDeniedError error) in
  valid_from ← time (be_valid_from a) "budget extension validity is malformed";
  valid_until ← time (be_valid_until a) "budget extension validity is malformed";
  observed ← time observed_at "budget extension validity is malformed";
  _ ← raise_if (negb (tz_aware valid_from && tz_aware valid_until && tz_aware observed))
        (TransitionDeniedError "budget extension validity must include a timezone");
  trusted_now ← time (be_authority_current_time a) "budget extension trusted time is malformed";
  prior ← res_mapM (fun text => time text "budget extension authority chronology is malformed")
            (prior_authority_times p);
  latest_time ← latest (map Some prior);
  let now := micros trusted_now in
  authority_until ← from_option_res (parse_time (as_valid_until authority)) (ValueError "Invalid isoformat string");
  _ ← raise_if (negb (tz_aware trusted_now && (micros observed <=? now)
                      && match default None latest_time with
                         | Some t => tz_aware t && (micros t <? now)
                         | None => true
                         end
                      && (now <? micros authority_until)
                      && attested e (authority_observers (trust_policy p)) (be_authority_observer_id a)
                           (be_authority_observer_authority_digest a) (extension_authority_payload p a authority)
                           (be_authority_authentication_evidence_digest a)))
        (TransitionDeniedError "budget extension authority requires trusted current time");
  raise_if ((now <? micros valid_from) || (micros valid_until <=? now))
    (TransitionDeniedError "budget extension is outside its validity window").

Definition policy_digest_of (b : BudgetPolicy) : string := _digest (_budget_policy_payload b).

(** The amounts: the policies are the ones that were signed, and no limit falls. *)
Definition extension_amounts_valid (p : plane) (proposed : BudgetPolicy) (a : BudgetExtensionAuthorization)
    : res unit :=
  let old := budget_policy p in
  let amounts := _budget_extension_amounts old proposed in
  _ ← raise_if (negb (String.eqb (be_prior_policy_digest a) (policy_digest_of old)
                      && String.eqb (be_proposed_policy_digest a) (policy_digest_of proposed)))
        (TransitionDeniedError "budget extension is not bound to the exact policies");
  _ ← raise_if (String.eqb (bp_version proposed) (bp_version old))
        (TransitionDeniedError "budget extension must have a new version");
  _ ← raise_if (existsb (fun q => count (fst q) (bp_limits proposed) <? snd q) (map_to_list (bp_limits old)))
        (TransitionDeniedError "budget extension cannot reduce an existing limit");
  _ ← raise_if (bp_repair_attempts_per_finding proposed <? bp_repair_attempts_per_finding old)
        (TransitionDeniedError "budget extension cannot reduce the finding repair limit");
  _ ← raise_if (bp_repair_attempts_per_stage proposed <? bp_repair_attempts_per_stage old)
        (TransitionDeniedError "budget extension cannot reduce the stage repair limit");
  _ ← raise_if (bp_reserved_safety_units proposed <? bp_reserved_safety_units old)
        (TransitionDeniedError "budget extension cannot reduce reserved safety");
  _ ← raise_if (bool_decide (amounts = ∅) || existsb (fun q => snd q <=? 0) (map_to_list amounts))
        (TransitionDeniedError "budget extension amounts must be positive and bounded");
  raise_if (negb (bool_decide (be_amounts a = amounts)))
    (TransitionDeniedError "budget extension amount does not match the proposed policy").

Definition extension_entry (p : plane) (proposed : BudgetPolicy) (a : BudgetExtensionAuthorization)
    (observed_at : string) : entry := {|
  en_kind := "BUDGET_POLICY_ADMITTED"; en_outcome := "RECORDED"; en_source := state p; en_target := state p;
  en_reason := be_reason a; en_actor := be_owner_id a;
  en_evidence_refs := list_to_map
    [("extension_id", be_extension_id a); ("run_id", be_run_id a); ("subject_digest", be_subject_digest a);
     ("authority_digest", be_authority_digest a); ("credential_digest", be_credential_digest a);
     ("prior_policy_digest", policy_digest_of (budget_policy p));
     ("proposed_policy_digest", policy_digest_of proposed); ("budget_policy_digest", policy_digest_of proposed);
     ("budget_policy_json", json_dumps (_budget_policy_payload proposed));
     ("amounts_digest", _digest (int_dict (_budget_extension_amounts (budget_policy p) proposed)));
     ("authorization_evidence_digest", be_evidence_digest a);
     ("authority_observer_id", be_authority_observer_id a);
     ("authority_observer_authority_digest", be_authority_observer_authority_digest a);
     ("authority_current_time", be_authority_current_time a);
     ("admission_challenge_digest", _digest (JStr (be_admission_challenge a)));
     ("valid_from", be_valid_from a); ("valid_until", be_valid_until a)]%string;
  en_observed_at := observed_at; en_budget_usage := None; en_resume_state := None; en_detail := "" |}.

Definition admit_budget_policy (proposed : BudgetPolicy) (authorization : option BudgetExtensionAuthorization)
    (authority : option AuthoritySnapshot) (observed_at : string) : op unit :=
  match authorization, authority with
  | Some a, Some snapshot =>
      p ← get_st cp;
      _ ← lift_res (extension_owner_valid p proposed a snapshot observed_at);
      _ ← lift_res (extension_times_valid p a snapshot observed_at);
      _ ← lift_res (extension_amounts_valid p proposed a);
      _ ← set_cp (set_challenge None);
      _ ← _append e (extension_entry p proposed a observed_at) (Some (policy_digest_of (budget_policy p)))
            (Some proposed);
      mret tt
  | _, _ => denied "authenticated budget owner authority is required"
  end.
End Control.
