(* ===== verification/ControlDenials.v ===== *)
(** * The lifecycle control plane: refusals

    A guard refuses with the context that it was given, and what [findings] adds
    to a context is about the source of a finding only. *)
From Stdlib Require Import Ascii String.
From S2P Require Import Prelude Sha256 Json JsonText PyStr PyConv Lifecycle LifecycleRules ControlData.
From S2P Require Import ControlEvidence ControlLedger ControlGuards Control.

#[local] Opaque _digest.

(** A verdict that refuses only with the context [c]. *)
Definition within {A} (c : TransitionContext) (v : verdict A) : Prop :=
  match v with Denied _ c' _ => c' = c | _ => True end.

Lemma within_bind {A B} c (m : verdict A) (k : A -> verdict B) :
  within c m -> (forall a, within c (k a)) -> within c (m ≫= k).
Proof. destruct m; cbn; auto. Qed.
Lemma within_deny_if target c b detail : within c (deny_if target c b detail).
Proof. by destruct b. Qed.
Lemma within_of_res {A} c (m : res A) : within c (of_res m).
Proof. by destruct m. Qed.
Lemma within_of_denial {A} target c (m : res A) : within c (of_denial target c m).
Proof. by destruct m as [|[]]. Qed.
Create HintDb verdicts.
#[export] Hint Resolve within_deny_if within_of_res within_of_denial : verdicts.

Ltac all_within :=
  cbv zeta;
  lazymatch goal with
  | |- within _ (_ ≫= _) => apply within_bind; [all_within|intros ?; all_within]
  | |- within _ (match ?x with _ => _ end) => destruct x; all_within
  | |- _ => auto with verdicts; try done
  end.

Section Denials.
Context `{Datetime} `{Unicode}.
Variable e : control_env.
Variables (p : plane) (target : LifecycleState) (attempts : res (gmap string MutationAttempt)) (why : string).
Variable c : TransitionContext.

Lemma within_finding_bound b m1 m2 m3 : within c (finding_bound e p target c b m1 m2 m3).
Proof. unfold finding_bound. all_within. Qed.
#[local] Hint Resolve within_finding_bound : verdicts.

Lemma within_admission : within c (admission e p target why c).
Proof. unfold admission, supplied_usage, required_evidence_given. all_within. Qed.
Lemma within_exposure r exhausted : within c (exposure_and_budget e p target why c r exhausted).
Proof. unfold exposure_and_budget, when_guard, no_blocking_finding, finding_disposition. all_within. Qed.
Lemma within_stops r exhausted : within c (stops e p target why c r exhausted).
Proof.
  unfold stops, when_guard, gate_when, drift, security_incident_block, safe_stop, product_input, budget_stop. all_within.
Qed.
Lemma within_findings r u : within c (findings e p target c r u).
Proof. unfold findings, when_guard, repair, blocking_finding. all_within. Qed.
Lemma within_bindings r : within c (bindings e p target c r).
Proof.
  unfold bindings, when_guard, review_clear, merge_binding, integrated_merge, staging_bundle, canary_binding,
    active_canary, production_approval. all_within.
Qed.
Lemma within_effects r u gate : within c (effects p attempts target c r u gate).
Proof. unfold effects, when_guard, gate_when, mutation, safety_block, safety_resume. all_within. Qed.
Lemma within_live r : within c (live e p target c r).
Proof. unfold live, when_guard, zero_exposure, completion, revoke_completion. all_within. Qed.
Lemma within_inputs : within c (bound_review_inputs p target c).
Proof. unfold bound_review_inputs. all_within. Qed.

Lemma within_resume : within c (decide_resume e p c).
Proof. unfold decide_resume, resume_rule, resume_evidence, resume_safety. all_within. Qed.
End Denials.
#[export] Hint Resolve within_admission within_exposure within_stops within_findings within_bindings within_effects
  within_live within_inputs : verdicts.

(** ** The context of a refusal of a transition *)

Section Transition.
Context `{Datetime} `{Unicode}.
Variable e : control_env.

Definition is_finding_source (name : string) : bool := str_in name finding_source_fields.

Lemma blocker_lookup p c f name :
  is_finding_source name = false -> blocker_evidence p c f !! name = tc_evidence c !! name.
Proof.
  unfold is_finding_source, finding_source_fields, blocker_evidence, set_default. intros Hn.
  repeat match goal with |- context [match ?m !! ?k with _ => _ end] => destruct (m !! k) eqn:? end;
    rewrite ?lookup_insert_ne by (intros <-; cbn in Hn; discriminate); done.
Qed.

Lemma findings_lookup p target c r u blocker name :
  findings e p target c r u = Proceed blocker -> is_finding_source name = false ->
  blocker !! name = tc_evidence c !! name.
Proof.
  intros E Hn. unfold findings in E. destruct (when_guard _ _ _) as [[]| |]; try discriminate. cbn in E.
  destruct (has_guard "blocking_finding" (guards r)); [|by injection E as <-].
  unfold blocking_finding in E. destruct (finding_bound _ _ _ _ _ _ _ _) as [f| |]; try discriminate.
  injection E as <-. by apply blocker_lookup.
Qed.

(** A refusal is recorded with the evidence of the caller, up to the source of
    the finding that blocks. *)
Definition same_but_source (c c' : TransitionContext) : Prop :=
  ac_id (tc_actor c') = ac_id (tc_actor c) /\ tc_observed_at c' = tc_observed_at c /\
  forall name, is_finding_source name = false -> tc_evidence c' !! name = tc_evidence c !! name.

Lemma denied_context p attempts target why c t c' detail :
  decide_transition e p attempts target why c = Denied t c' detail -> same_but_source c c'.
Proof.
  assert (Hrefl : same_but_source c c) by done.
  assert (Hw : forall A B (v : verdict A) (k : A -> verdict B),
    within c v -> (v ≫= k) = Denied t c' detail ->
    same_but_source c c' \/ exists a, v = Proceed a /\ k a = Denied t c' detail).
  { intros A B v k Hv E. destruct v; cbn in *; [eauto|injection E as <- <- <-; subst; auto|discriminate]. }
  unfold decide_transition. destruct (String.eqb why "recorded_safe_resume"); [discriminate|]. intros E.
  apply Hw in E as [?|([r u] & _ & E)]; [done| |auto with verdicts].
  apply Hw in E as [?|(? & _ & E)]; [done| |auto with verdicts].
  apply Hw in E as [?|(stopped & _ & E)]; [done| |auto with verdicts].
  apply Hw in E as [?|(blocker & Ef & E)]; [done| |auto with verdicts].
  assert (Hlater : forall v : verdict decision, within (with_evidence blocker c) v -> v = Denied t c' detail -> same_but_source c c').
  { intros v Hv ->. cbn in Hv. subst c'. split_and!; [done..|]. intros name Hn. by eapply findings_lookup. }
  eapply Hlater; [|exact E]. all_within.
Qed.
End Transition.
