(* ===== verification/ControlLoad.v ===== *)
(** * The lifecycle control plane: creation and replay ([orchestration/lifecycle.py])

    [create] and [admit_legacy_migration], which begin a run, and [load], which
    rebuilds an instance from the files alone.  The counts of a usage and the
    limits of a policy are integers. *)
From Stdlib Require Import Ascii String.
From S2P Require Import Prelude Sha256 Json JsonText JsonIndent PyStr PyConv Lifecycle LifecycleRules ControlData.
From S2P Require Import ControlEvidence ControlLedger PolicySnapshots Control.

(** ** Creation *)

Definition fresh_plane (run subject : string) (initial : LifecycleState) (budget : BudgetPolicy)
    (lifecycle_policy : LifecyclePolicy) (trust : EvidenceTrustPolicy) (l : list LifecycleEvent) : plane := {|
  run_id := run; subject_digest := subject; state := initial; budget_policy := budget;
  policy := lifecycle_policy; trust_policy := trust; events := l; completion_claim_active := false;
  mutation_attempts := ∅; mutation_results := ∅; verified_mutation_result_keys := ∅;
  consumed_mutation_result_keys := ∅; budget_extension_challenge := None; budget_usage := no_usage |}.

Definition DEFAULT_RETENTION_DAYS : Z := 30.
Definition MAX_RETENTION_DAYS : Z := 365000.
Definition validate_retention_days (days : Z) : res unit :=
  _ ← raise_if (days <? 0) (ValueError "retention days cannot be negative");
  raise_if (MAX_RETENTION_DAYS <? days) (ValueError ("retention days cannot exceed " +:+ str_of_Z MAX_RETENTION_DAYS)).
Definition validate_retention_run_directory (name : string) : res unit :=
  raise_if (startswith name ".retention-delete-")
    (ValueError "run directory uses the reserved retention tombstone prefix").

Definition metadata_members (p : plane) (retention_days : Z) : list (string * json) :=
  let policy_payload := _budget_policy_payload (budget_policy p) in
  let trust_payload := _trust_policy_payload (trust_policy p) in
  [("run_id", JStr (run_id p)); ("subject_digest", JStr (subject_digest p));
   ("lifecycle_policy_digest", JStr (policy_digest (policy p)));
   ("lifecycle_policy", _policy_payload (policy p)); ("budget_policy", policy_payload);
   ("budget_policy_digest", JStr (_digest policy_payload)); ("trust_policy", trust_payload);
   ("trust_policy_digest", JStr (_digest trust_payload)); ("retention_days", JInt retention_days)]%string.

Definition created_entry (p : plane) (metadata : json) : entry := {|
  en_kind := "STATE_CREATED"; en_outcome := "APPLIED"; en_source := state p; en_target := state p;
  en_reason := "create"; en_actor := "control-plane";
  en_evidence_refs := list_to_map
    [("budget_policy_digest", _digest (_budget_policy_payload (budget_policy p)));
     ("run_id_digest", _digest (JStr (run_id p))); ("metadata_digest", _digest metadata);
     ("trust_policy_digest", _digest (_trust_policy_payload (trust_policy p)))]%string;
  en_observed_at := ""; en_budget_usage := None; en_resume_state := None; en_detail := "" |}.

(** ** Replay *)

Section Load.
Context `{Datetime} `{Unicode}.
Variable e : control_env.

(** A [dict] with texts for keys. *)
Definition str_dict_of (v : json) : res (list (string * json)) :=
  d ← py_dict v;
  res_mapM (fun q => match fst q with
                     | JStr k => Ok (k, snd q)
                     | _ => Raise (TypeError "'<' not supported between the keys")
                     end) d.

Definition read_event (previous : string) (raw : json) : res LifecycleEvent :=
  match raw with
  | JObj m =>
      let supplied := py_str (default (JStr "") (assoc "event_digest" m)) in
      let body := assoc_del "event_digest" m in
      _ ← raise_if (negb (py_eq (default (JStr "") (assoc "previous_digest" m)) (JStr previous))
                    || negb (String.eqb (_digest (JObj body)) supplied))
            (ValueError "lifecycle event digest chain is invalid");
      _event_from_dict m
  | _ => Raise (AttributeError "object has no attribute 'get'")
  end.
Fixpoint read_events (previous : string) (raws : list json) : res (list LifecycleEvent) :=
  match raws with
  | [] => Ok []
  | raw :: rest =>
      event ← read_event previous raw;
      events ← read_events (ev_event_digest event) rest;
      Ok (event :: events)
  end.

Definition _budget_policy_from_dict (raw : list (string * json)) : res BudgetPolicy :=
  version ← str_item "version" raw;
  limits ← item "limits" raw ≫= py_dict;
  counts ← res_mapM (fun q => n ← as_int (snd q); Ok (py_str (fst q), n)) limits;
  per_finding ← item "repair_attempts_per_finding" raw ≫= as_int;
  per_stage ← item "repair_attempts_per_stage" raw ≫= as_int;
  reserved ← item "reserved_safety_units" raw ≫= as_int;
  approved_by ← str_item "approved_by" raw;
  new_budget_policy
    {| bp_version := version; bp_limits := list_to_map (reverse counts);
       bp_repair_attempts_per_finding := per_finding; bp_repair_attempts_per_stage := per_stage;
       bp_reserved_safety_units := reserved; bp_approved_by := approved_by |}.

(** A root of trust: [_SHA256.fullmatch] takes texts only. *)
Definition root_from (raw_trust : list (string * json)) (name : string) : res evidence_map :=
  d ← str_dict_of (default (JObj []) (assoc name raw_trust));
  l ← res_mapM (fun q => match snd q with
                         | JStr digest => Ok (fst q, digest)
                         | _ => if nonempty (fst q) then Raise (TypeError "expected string or bytes-like object")
                                else Raise (ValueError "evidence trust roots require named canonical authorities")
                         end) d;
  Ok (list_to_map (reverse l)).
Definition trust_from (raw : list (string * json)) : res EvidenceTrustPolicy :=
  adapters ← root_from raw "adapter_authorities";
  owners ← root_from raw "budget_owner_authorities";
  repository ← root_from raw "repository_observers";
  work ← root_from raw "work_controllers";
  approvers ← root_from raw "production_approvers";
  meters ← root_from raw "budget_meters";
  reviewers ← root_from raw "formal_reviewers";
  gates ← root_from raw "native_merge_gates";
  sources ← root_from raw "finding_sources";
  authorizers ← root_from raw "mutation_authorizers";
  live ← root_from raw "live_observers";
  authority ← root_from raw "authority_observers";
  monitors ← root_from raw "integrity_monitors";
  new_trust_policy
    {| adapter_authorities := adapters; budget_owner_authorities := owners; repository_observers := repository;
       work_controllers := work; production_approvers := approvers; budget_meters := meters;
       formal_reviewers := reviewers; native_merge_gates := gates; finding_sources := sources;
       mutation_authorizers := authorizers; live_observers := live; authority_observers := authority;
       integrity_monitors := monitors |}.

(** [event.evidence_refs.get(name) == metadata.get(other)]. *)
Definition ref_matches (x : LifecycleEvent) (name : string) (value : json) : bool :=
  py_eq (opt_str (ev_evidence_refs x !! name)) value.

(** The instance before the replay: what the metadata records, bound to the
    first event. *)
Definition load_metadata (metadata : list (string * json)) (l : list LifecycleEvent) (initial : LifecycleEvent)
    : res plane :=
  raw_policy ← item "budget_policy" metadata ≫= str_dict_of;
  _ ← raise_if (negb (py_eq (JStr (_digest (JObj raw_policy))) (jget "budget_policy_digest" metadata)))
        (ValueError "lifecycle budget policy digest is invalid");
  _ ← raise_if (negb (String.eqb (ev_kind initial) "STATE_CREATED")
                || negb (py_eq (JStr (ev_subject_digest initial)) (jget "subject_digest" metadata))
                || negb (ref_matches initial "budget_policy_digest" (jget "budget_policy_digest" metadata))
                || negb (ref_matches initial "run_id_digest"
                           (JStr (_digest (JStr (py_str (default (JStr "") (assoc "run_id" metadata)))))))
                || negb (ref_matches initial "metadata_digest" (JStr (_digest (JObj metadata)))))
        (ValueError "lifecycle metadata is not bound to the initial event");
  budget ← _budget_policy_from_dict raw_policy;
  raw_trust ← str_dict_of (default (JObj []) (assoc "trust_policy" metadata));
  let has_trust := negb (bool_decide (length raw_trust = 0%nat)) in
  _ ← raise_if (has_trust
                && negb (py_eq (JStr (_digest (JObj raw_trust))) (jget "trust_policy_digest" metadata)))
        (ValueError "lifecycle evidence trust policy digest is invalid");
  trust ← trust_from raw_trust;
  snapshot ← from_option_res (as_obj (jget "lifecycle_policy" metadata))
               (ValueError "lifecycle ledger policy snapshot is missing");
  let recorded_digest := py_str (default (JStr "") (assoc "lifecycle_policy_digest" metadata)) in
  recorded ← _policy_from_payload snapshot recorded_digest;
  _ ← raise_if (negb (String.eqb recorded_digest (policy_digest recorded))
                || existsb (fun x => negb (String.eqb (ev_policy_digest x) (policy_digest recorded))) l)
        (ValueError "lifecycle ledger policy version is not internally consistent");
  _ ← raise_if (has_trust && negb (ref_matches initial "trust_policy_digest" (JStr (_digest (JObj raw_trust)))))
        (ValueError "lifecycle evidence trust policy is not bound to the initial event");
  run ← str_item "run_id" metadata;
  subject ← str_item "subject_digest" metadata;
  Ok (fresh_plane run subject (ev_target initial) budget recorded trust l).

(** [BudgetUsage], given the members of [event.budget_usage] as its keywords. *)
Definition count_of (v : json) : res Z :=
  match v with
  | JInt z => Ok z
  | JBool b => Ok (if b then 1 else 0)
  | _ => Raise (TypeError "'<' not supported between instances")
  end.
Definition counts_from (v : json) : res (gmap string Z) :=
  d ← py_dict v;
  l ← res_mapM (fun q => n ← count_of (snd q); Ok (fst q, n)) (named_entries d);
  Ok (list_to_map (reverse l)).
Definition usage_fields : list string :=
  ["counters"; "repair_attempts_by_finding"; "repair_attempts_by_stage"; "safety_units_used"]%string.
Definition usage_from (d : list (string * json)) : res BudgetUsage :=
  _ ← raise_if (existsb (fun q => negb (str_in (fst q) usage_fields)) d)
        (TypeError "BudgetUsage.__init__() got an unexpected keyword argument");
  counters ← counts_from (default (JObj []) (assoc "counters" d));
  by_finding ← counts_from (default (JObj []) (assoc "repair_attempts_by_finding" d));
  by_stage ← counts_from (default (JObj []) (assoc "repair_attempts_by_stage" d));
  safety ← count_of (default (JInt 0) (assoc "safety_units_used" d));
  new_budget_usage
    {| bu_counters := counters; bu_by_finding := by_finding; bu_by_stage := by_stage;
       bu_safety_units_used := safety |}.

Definition replay_state (x : LifecycleEvent) (p : plane) : res plane :=
  _ ← raise_if (negb (bool_decide (ev_source x = state p)))
        (ValueError "lifecycle event source does not match replay state");
  if applied x then Ok (set_state (ev_target x) p)
  else
    _ ← raise_if (String.eqb (ev_outcome x) "RECORDED" && negb (bool_decide (ev_target x = state p)))
          (ValueError "recorded lifecycle event cannot change replay state");
    Ok p.

Definition replay_usage (x : LifecycleEvent) (p : plane) : res plane :=
  match ev_budget_usage x with
  | None => Ok p
  | Some d => supplied ← usage_from d;
              usage ← _merge_budget_usage (budget_usage p) supplied true;
              Ok (set_budget_usage usage p)
  end.

(** The adapter that a recorded result names. *)
Definition is_capabilities_error (x : exn) : bool :=
  match x with JSONDecodeError _ | TypeError _ => true | _ => false end.
Definition replayed_capabilities (x : LifecycleEvent) : res (gset string) :=
  try_except
    (v ← json_loads default_hooks (got "adapter_capabilities_json" (ev_evidence_refs x));
     l ← iterate v; Ok (list_to_set (map py_str l)))
    is_capabilities_error (fun _ => Raise (ValueError "mutation result adapter evidence is malformed")).
Definition replayed_digest (x : LifecycleEvent) : option string :=
  match ev_evidence_refs x !! "result_digest"%string with
  | Some d => if String.eqb d "UNKNOWN" then None else Some d
  | None => None
  end.
Definition replayed_adapter (x : LifecycleEvent) (capabilities : gset string) : AdapterResultEvidence :=
  let ref name := got name (ev_evidence_refs x) in {|
  ae_adapter_id := ref "adapter_id"%string; ae_role := ref "adapter_role"%string; ae_authenticated := true;
  ae_capabilities := capabilities; ae_subject_digest := ev_subject_digest x;
  ae_authority_digest := ref "adapter_authority_digest"%string; ae_attempt_id := ref "attempt_id"%string;
  ae_idempotency_key := ref "idempotency_key"%string; ae_action := ev_reason x;
  ae_step_plan_digest := ref "adapter_step_plan_digest"%string; ae_status := ev_detail x;
  ae_result_digest := replayed_digest x;
  ae_authentication_evidence_digest := ref "adapter_authentication_evidence_digest"%string |}.
Definition replayed_adapter_valid (p : plane) (a : AdapterResultEvidence) : bool :=
  bool_decide ("lifecycle.mutation.result.record"%string ∈ ae_capabilities a)
  && rooted (adapter_authorities (trust_policy p)) (ae_adapter_id a) (ae_authority_digest a)
  && match mutation_attempts p !! ae_idempotency_key a with
     | None => false
     | Some attempt => String.eqb (ae_attempt_id a) (ma_id attempt) && String.eqb (ae_action a) (ma_action attempt)
                       && String.eqb (ae_step_plan_digest a) (ma_step_plan_digest attempt)
     end
  && nonempty (ae_authentication_evidence_digest a)
  && match evidence_verifier e with
     | None => true
     | Some _ => _verify_external_evidence e (ae_adapter_id a) (ae_authority_digest a)
                   (_adapter_result_evidence_payload a) (ae_authentication_evidence_digest a)
     end.

(** A result, verified only when there is a verifier. *)
Definition set_result (key : string) (r : MutationResult) (p : plane) : plane :=
  match evidence_verifier e with
  | Some _ => add_result key r p
  | None => {|
      run_id := run_id p; subject_digest := subject_digest p; state := state p;
      budget_policy := budget_policy p; policy := policy p; trust_policy := trust_policy p; events := events p;
      completion_claim_active := completion_claim_active p; mutation_attempts := mutation_attempts p;
      mutation_results := <[key := r]> (mutation_results p);
      verified_mutation_result_keys := verified_mutation_result_keys p;
      consumed_mutation_result_keys := consumed_mutation_result_keys p;
      budget_extension_challenge := budget_extension_challenge p; budget_usage := budget_usage p |}
  end.

Definition replay_result (x : LifecycleEvent) (p : plane) : res plane :=
  let attempt_id := got "attempt_id" (ev_evidence_refs x) in
  let key := got "idempotency_key" (ev_evidence_refs x) in
  if String.eqb (ev_kind x) "MUTATION_RESULT" && nonempty attempt_id && nonempty key then
    capabilities ← replayed_capabilities x;
    _ ← raise_if (negb (replayed_adapter_valid p (replayed_adapter x capabilities)))
          (ValueError "mutation result adapter evidence is invalid");
    Ok (set_result key {| mr_attempt_id := attempt_id; mr_idempotency_key := key; mr_status := ev_detail x;
                          mr_result_digest := replayed_digest x |} p)
  else Ok p.

Definition replay_consumed (x : LifecycleEvent) (p : plane) : plane :=
  let consume key q := if nonempty key then add_consumed key q else q in
  let p1 := if String.eqb (ev_kind x) "MUTATION_RESULT_CONSUMED"
            then consume (got "idempotency_key" (ev_evidence_refs x)) p else p in
  consume (got consumed_key_name (ev_evidence_refs x)) p1.

Definition replay_budget_policy (x : LifecycleEvent) (p : plane) : res plane :=
  let policy_json := got "budget_policy_json" (ev_evidence_refs x) in
  if String.eqb (ev_kind x) "BUDGET_POLICY_ADMITTED" && nonempty policy_json then
    raw ← try_except (json_loads default_hooks policy_json)
            (fun x => match x with JSONDecodeError _ => true | _ => false end)
            (fun _ => Raise (ValueError "admitted budget policy is not valid JSON"));
    admitted_raw ← from_option_res
                     (m ← as_obj raw; if String.eqb (json_dumps raw) policy_json then Some m else None)
                     (ValueError "admitted budget policy is not canonical");
    proposed ← _budget_policy_from_dict admitted_raw;
    _ ← raise_if (negb (ref_matches x "prior_policy_digest" (JStr (policy_digest_of (budget_policy p))))
                  || negb (ref_matches x "proposed_policy_digest" (JStr (policy_digest_of proposed)))
                  || negb (ref_matches x "budget_policy_digest" (JStr (policy_digest_of proposed)))
                  || negb (is_sha256 (got "authorization_evidence_digest" (ev_evidence_refs x))))
          (ValueError "admitted budget policy evidence is inconsistent");
    Ok (set_budget_policy proposed p)
  else Ok p.

Definition replay_claim (x : LifecycleEvent) (p : plane) : plane :=
  if String.eqb (ev_kind x) "COMPLETION_CLAIMED" then set_claim true p
  else if String.eqb (ev_kind x) "COMPLETION_REVOKED" then set_claim false p else p.

Definition replay_event (p : plane) (x : LifecycleEvent) : res plane :=
  p1 ← replay_state x p;
  p2 ← replay_usage x p1;
  p3 ← replay_result x p2;
  p4 ← replay_budget_policy x (replay_consumed x p3);
  Ok (replay_claim x p4).

(** [path.read_text()]. *)
Definition read_file (file : option string) : res string :=
  payload ← from_option_res file (OSError "No such file or directory"); read_text payload.

Definition load (f : run_files) : res plane :=
  _ ← read_file (ledger_file f);
  raw_events ← json_lines (ledger_file f);
  _ ← raise_if (bool_decide (length raw_events = 0%nat)) (ValueError "lifecycle ledger is empty");
  l ← read_events "" raw_events;
  document ← read_file (metadata_file f) ≫= json_loads default_hooks;
  metadata ← from_option_res (as_obj document) (TypeError "list indices must be integers or slices");
  match l with
  | [] => Raise (ValueError "lifecycle ledger is empty")
  | initial :: later =>
      p ← load_metadata metadata l initial;
      attempts ← _read_mutation_attempts (journal_file f);
      res_foldM replay_event (foldl (fun p q => add_attempt (snd q) p) p (map_to_list attempts)) later
  end.

(** ** [create] and [admit_legacy_migration] *)

(** An operation on the files that makes an instance: inside, the operations of
    the instance. *)
Definition creating (p : plane) (m : op plane) : st run_files plane := fun f =>
  let '(r, s) := m {| files := f; cp := p |} in (r, files s).

Definition write_metadata (metadata : json) : op unit :=
  if interrupted_metadata e then raise_st (OSError "interrupted write")
  else set_files (set_metadata_file (json_document metadata)).

(** The retry of a run that was created before runs recorded their retention. *)
Definition legacy_retry (retention_days : Z) (persisted : json) (metadata : list (string * json)) : bool :=
  (retention_days =? DEFAULT_RETENTION_DAYS) && py_eq persisted (JObj (assoc_del "retention_days" metadata)).

Definition create_locked (p : plane) (retention_days : Z) : op plane :=
  let members := metadata_members p retention_days in
  let metadata := JObj members in
  f ← get_st files;
  existing ← match metadata_file f with
             | Some _ =>
                 persisted ← lift_res (read_file (metadata_file f) ≫= json_loads default_hooks);
                 let retry := legacy_retry retention_days persisted members in
                 _ ← lift_res (raise_if (negb (py_eq persisted metadata) && negb retry)
                       (ValueError "lifecycle run already exists with different metadata"));
                 match ledger_file f with
                 | Some _ => q ← lift_res (load f); mret (Some q)
                 | None => _ ← (if retry then write_metadata metadata else mret tt); mret None
                 end
             | None =>
                 _ ← lift_res (raise_if (match ledger_file f with Some _ => true | None => false end)
                       (ValueError "lifecycle ledger exists without bound metadata"));
                 _ ← write_metadata metadata; mret None
             end;
  match existing with
  | Some q => mret q
  | None => _ ← _append_locked e (created_entry p metadata) None None; get_st cp
  end.

Definition create (directory_name run subject : string) (initial_state : LifecycleState)
    (budget : BudgetPolicy) (lifecycle_policy : LifecyclePolicy) (trust : option EvidenceTrustPolicy)
    (retention_days : Z) : st run_files plane :=
  _ ← lift_res (raise_if (negb (bool_decide (initial_state = CONTRACT_RECEIVED)))
        (ValueError "new lifecycle runs must start at CONTRACT_RECEIVED; use the explicit migration admission path"));
  _ ← lift_res (validate_retention_run_directory directory_name);
  _ ← lift_res (validate_retention_days retention_days);
  _ ← lift_res (match purge_error e with Some x => Raise x | None => Ok tt end);
  let p := fresh_plane run subject initial_state budget lifecycle_policy (default no_trust trust) [] in
  creating p (_exclusive_lock e (create_locked p retention_days)).

Definition migration_evidence (subject : string) (migration : MigrationResult) : evidence_map := list_to_map
  [("subject_digest", subject); ("legacy_source_version_digest", _digest (source_version migration));
   ("legacy_source_stage_digest", _digest (JStr (source_stage migration)));
   ("legacy_mapped_state_digest", _digest (JStr (lifecycle_value (migrated_state migration))));
   ("legacy_migration_digest", migration_digest migration);
   ("migration_disposition_digest",
    _digest (JStr "historical-only; phase-zero re-admission required"))]%string.

Definition migration_entry (subject : string) (migration : MigrationResult) : entry := {|
  en_kind := "MIGRATION_ADMITTED"; en_outcome := "APPLIED"; en_source := CONTRACT_RECEIVED;
  en_target := PRODUCT_INPUT_REQUIRED; en_reason := "legacy_evidence_unavailable";
  en_actor := "migration-adapter"; en_evidence_refs := migration_evidence subject migration;
  en_observed_at := ""; en_budget_usage := None; en_resume_state := None; en_detail := "" |}.

Definition migrate_locked (subject : string) (migration : MigrationResult) : op plane :=
  p ← get_st cp;
  if bool_decide (length (events p) = 1%nat) then
    _ ← _append_locked e (migration_entry subject migration) None None;
    _ ← set_cp (set_state PRODUCT_INPUT_REQUIRED);
    get_st cp
  else
    _ ← lift_res (raise_if (negb (bool_decide (state p = PRODUCT_INPUT_REQUIRED)
                                  && bool_decide (length (events p) = 2%nat)
                                  && match last (events p) with
                                     | Some x => String.eqb (ev_kind x) "MIGRATION_ADMITTED"
                                                 && bool_decide (ev_evidence_refs x = migration_evidence subject migration)
                                     | None => false
                                     end))
          (ValueError "lifecycle run already exists with a different migration admission"));
    mret p.

Definition admit_legacy_migration (directory_name run subject : string) (budget : BudgetPolicy)
    (migration : MigrationResult) (trust : option EvidenceTrustPolicy) : st run_files plane :=
  lifecycle_policy ← lift_res PHASE_FOUR_POLICY;
  p ← create directory_name run subject CONTRACT_RECEIVED budget lifecycle_policy trust DEFAULT_RETENTION_DAYS;
  creating p (_exclusive_lock e (migrate_locked subject migration)).
End Load.
