(* ===== verification/ControlFacts.v ===== *)
(** * The lifecycle control plane: what the ledger holds

    The text of an event reads back as the event, an append adds one line to a
    chain of digests, and anything else leaves the files as they are. *)
From Stdlib Require Import Ascii String.
From S2P Require Import Prelude Sha256 Json JsonText JsonFacts JsonAscii PyStr PyConv TextFacts Lifecycle.
From S2P Require Import LifecycleRules ControlData ControlEvidence ControlLedger.

#[local] Opaque _digest.

(** ** Events as objects *)

Definition usage_json (u : option (list (string * json))) : json :=
  match u with Some m => JObj m | None => JNull end.
Definition state_json (s : option LifecycleState) : json :=
  match s with Some x => JStr (lifecycle_value x) | None => JNull end.

(** The members that the digest of an event covers, and all of them. *)
Definition event_core (x : LifecycleEvent) : list (string * json) :=
  [("sequence", JInt (ev_sequence x)); ("kind", JStr (ev_kind x)); ("outcome", JStr (ev_outcome x));
   ("source", JStr (lifecycle_value (ev_source x))); ("target", JStr (lifecycle_value (ev_target x)));
   ("reason", JStr (ev_reason x)); ("actor", JStr (ev_actor x)); ("subject_digest", JStr (ev_subject_digest x));
   ("policy_digest", JStr (ev_policy_digest x)); ("evidence_digest", JStr (ev_evidence_digest x));
   ("evidence_refs", str_dict (ev_evidence_refs x)); ("budget_usage", usage_json (ev_budget_usage x));
   ("observed_at", JStr (ev_observed_at x)); ("resume_state", state_json (ev_resume_state x));
   ("previous_digest", JStr (ev_previous_digest x)); ("detail", JStr (ev_detail x))]%string.
Definition event_object (x : LifecycleEvent) : list (string * json) :=
  event_core x ++ [("event_digest"%string, JStr (ev_event_digest x))].

Definition event_text (x : LifecycleEvent) : string := json_dumps (JObj (event_object x)).

(** The members of the payload of a usage. *)
Definition usage_members (u : BudgetUsage) : list (string * json) :=
  [("counters", int_dict (bu_counters u)); ("repair_attempts_by_finding", int_dict (bu_by_finding u));
   ("repair_attempts_by_stage", int_dict (bu_by_stage u));
   ("safety_units_used", JInt (bu_safety_units_used u))]%string.

(** The event that [_append_locked] makes. *)
Definition event_of (p : plane) (x : entry) : LifecycleEvent := {|
  ev_sequence := Z.of_nat (length (events p)) + 1; ev_kind := en_kind x; ev_outcome := en_outcome x;
  ev_source := en_source x; ev_target := en_target x; ev_reason := en_reason x; ev_actor := en_actor x;
  ev_subject_digest := subject_digest p; ev_policy_digest := policy_digest (policy p);
  ev_evidence_digest := _digest (str_dict (en_evidence_refs x)); ev_evidence_refs := en_evidence_refs x;
  ev_budget_usage := usage_members <$> en_budget_usage x; ev_observed_at := en_observed_at x;
  ev_resume_state := en_resume_state x; ev_previous_digest := current_head p;
  ev_event_digest := _digest (JObj (event_members p x)); ev_detail := en_detail x |}.

Lemma event_core_of (p : plane) (x : entry) : event_core (event_of p x) = event_members p x.
Proof. unfold event_core, event_members. cbn. by destruct (en_budget_usage x). Qed.

Lemma event_object_of (p : plane) (x : entry) : event_object (event_of p x) = event_body p x.
Proof. unfold event_object, event_body. by rewrite event_core_of. Qed.

(** ** Mappings *)

Lemma items_perm {V} (m : gmap string V) : items m ≡ₚ map_to_list m.
Proof. apply sorted_items_perm. Qed.

Lemma items_NoDup {V} (m : gmap string V) : NoDup (map fst (items m)).
Proof. unfold items. rewrite sorted_items_perm. apply NoDup_fst_map_to_list. Qed.

Lemma list_to_map_items {V} (m : gmap string V) (l : list (string * V)) :
  l ≡ₚ items m -> list_to_map l = m.
Proof.
  intros E. rewrite <- (list_to_map_to_list m). rewrite items_perm in E.
  apply list_to_map_proper; [|done]. rewrite E. apply NoDup_fst_map_to_list.
Qed.

Lemma lookup_list {V} (k : string) (l : list (string * V)) :
  (list_to_map l : gmap string V) !! k = assoc k l.
Proof.
  induction l as [|[k' v] l IH]; cbn [assoc list_to_map foldr]; [apply lookup_empty|].
  destruct (String.eqb_spec k k') as [->|Hne]; cbn; [by rewrite lookup_insert_eq|].
  by rewrite lookup_insert_ne.
Qed.
Lemma got_list (k : string) (l : list (string * string)) :
  got k (list_to_map l) = default ""%string (assoc k l).
Proof. unfold got. by rewrite lookup_list. Qed.

Lemma foldl_insert_map {V W} (k : W -> string) (v : W -> V) (l : list W) :
  foldl (fun m q => <[k q := v q]> m) (∅ : gmap string V) l
  = list_to_map (reverse (map (fun q => (k q, v q)) l)).
Proof.
  induction l as [|q l IH] using rev_ind; [done|].
  rewrite foldl_snoc, map_app, reverse_app, IH. cbn. done.
Qed.

Section Reading.
Context `{Unicode}.

Lemma state_of_value (s : LifecycleState) : state_of (lifecycle_value s) = Ok s.
Proof. by destruct s. Qed.

Lemma str_map_items (m : evidence_map) :
  str_map (map (fun p => (JStr (fst p), snd p)) (map (fun p => (fst p, JStr (snd p))) (items m))) = m.
Proof.
  unfold str_map. rewrite (foldl_insert_map (fun q => py_str (fst q)) (fun q => py_str (snd q))).
  rewrite !map_map. cbn [fst snd py_str]. apply list_to_map_items.
  rewrite (map_ext _ id) by (by intros []). by rewrite map_id, reverse_Permutation.
Qed.

Lemma named_entries_of (m : list (string * json)) :
  named_entries (map (fun p => (JStr (fst p), snd p)) m) = m.
Proof. unfold named_entries. induction m as [|[k v] m IH]; [done|]. cbn. by rewrite IH. Qed.

(** ** Reading an event *)

(** Two objects with the same members, whatever their order. *)
Definition same_members (m m' : list (string * json)) : Prop := forall k, assoc k m = assoc k m'.

Lemma same_members_perm (m m' : list (string * json)) :
  NoDup (map fst m) -> m ≡ₚ m' -> same_members m m'.
Proof.
  intros Hn E k. assert (Hn' : NoDup (map fst m')) by (by rewrite <- E).
  destruct (assoc k m) as [v|] eqn:Ev.
  - symmetry. apply assoc_NoDup; [done|]. rewrite <- E. by apply assoc_In.
  - symmetry. apply assoc_None. rewrite <- E. by apply assoc_None.
Qed.

Lemma event_from_same (m m' : list (string * json)) :
  same_members m m' -> _event_from_dict m = _event_from_dict m'.
Proof.
  intros E. unfold _event_from_dict, str_item, item, jget. by rewrite !E.
Qed.

Lemma event_from_object (x : LifecycleEvent) : _event_from_dict (event_object x) = Ok x.
Proof.
  destruct x as [sq kd oc src tgt rs ac sd pd ed refs bu oa rst pv dg dt].
  unfold _event_from_dict, str_item, item, jget, event_object, event_core. cbn [app].
  repeat match goal with
  | |- context [assoc ?k ?l] =>
      let v := eval cbn [assoc String.eqb Ascii.eqb Bool.eqb fst snd] in (assoc k l) in
      change (assoc k l) with v
  end. cbn -[str_dict lifecycle_value state_of str_map named_entries].
  rewrite !state_of_value. cbn -[str_dict lifecycle_value state_of str_map named_entries].
  unfold str_dict, strs. cbn -[items lifecycle_value state_of str_map named_entries].
  rewrite str_map_items.
  destruct bu as [bu|]; cbn -[items lifecycle_value state_of str_map named_entries].
  - rewrite named_entries_of. destruct rst as [s|]; cbn; [|done].
    destruct s; done.
  - destruct rst as [s|]; cbn; [|done]. destruct s; done.
Qed.

Lemma event_from_body (p : plane) (x : entry) : _event_from_dict (event_body p x) = Ok (event_of p x).
Proof. rewrite <- event_object_of. apply event_from_object. Qed.
End Reading.

(** ** The text of an event *)

(** An event that JSON can carry: its texts are texts, its integers convert. *)
Definition event_ok (x : LifecycleEvent) : Prop :=
  readable (JObj (event_object x)) = true /\ sort_json (usage_json (ev_budget_usage x)) = usage_json (ev_budget_usage x).

Lemma sort_items_dict {V} (f : V -> json) (m : gmap string V) :
  (forall v, sort_json (f v) = f v) ->
  sort_json (JObj (map (fun p => (fst p, f (snd p))) (items m))) = JObj (map (fun p => (fst p, f (snd p))) (items m)).
Proof.
  intros Hf. cbn [sort_json]. f_equal. rewrite map_map. cbn [fst snd].
  rewrite (map_ext _ (fun p => (fst p, f (snd p)))) by (intros; by rewrite Hf).
  rewrite (sorted_items_map (fun _ v => f v)). unfold items at 1. by rewrite sorted_items_idem.
Qed.

Lemma sort_str_dict (m : evidence_map) : sort_json (str_dict m) = str_dict m.
Proof. by apply sort_items_dict. Qed.
Lemma sort_int_dict (m : gmap string Z) : sort_json (int_dict m) = int_dict m.
Proof. by apply sort_items_dict. Qed.

Lemma sort_usage_members (u : BudgetUsage) : sort_json (JObj (usage_members u)) = JObj (usage_members u).
Proof.
  unfold usage_members. cbn -[int_dict sort_json]. cbn [sort_json map fst snd].
  rewrite !sort_int_dict. done.
Qed.

Lemma sort_event (x : LifecycleEvent) :
  event_ok x -> sort_json (JObj (event_object x)) = JObj (sorted_items (event_object x)).
Proof.
  intros [_ Hu]. unfold event_object, event_core. cbn [app].
  change (sort_json (JObj ?m)) with (JObj (sorted_items (map (fun p => (fst p, sort_json (snd p))) m))).
  cbn [map fst snd]. rewrite sort_str_dict, Hu. by destruct (ev_resume_state x).
Qed.

Lemma loads_event (x : LifecycleEvent) :
  event_ok x -> json_loads default_hooks (event_text x) = Ok (JObj (sorted_items (event_object x))).
Proof. intros Hx. unfold event_text. rewrite loads_dumps by apply Hx. by rewrite sort_event. Qed.

Lemma event_text_printable (x : LifecycleEvent) : event_ok x -> printable (event_text x) = true.
Proof. intros [Hx _]. by apply dumps_printable. Qed.

Lemma object_nonblank (m : list (string * json)) : printable (json_dumps (JObj m)) = true -> nonblank (json_dumps (JObj m)) = true.
Proof.
  intros Hp. unfold nonblank, nonempty.
  assert (strip (json_dumps (JObj m)) <> ""%string); [|by apply negb_true_iff, String.eqb_neq].
  unfold json_dumps in *. cbn [dumps_with] in *. apply (strip_nonempty _ 123%N (bytes (drop_str 1 (json_dumps (JObj m))))).
  - rewrite ascii_ords by (by apply printable_ascii). done.
  - done.
Qed.

Lemma event_keys (x : LifecycleEvent) : NoDup (map fst (event_object x)).
Proof. cbn. decide_now. Qed.

Lemma sorted_same (m : list (string * json)) : NoDup (map fst m) -> same_members m (sorted_items m).
Proof. intros Hn. apply same_members_perm; [done|]. by rewrite sorted_items_perm. Qed.

Section Lines.
Context `{Unicode}.

Lemma event_from_sorted (x : LifecycleEvent) : _event_from_dict (sorted_items (event_object x)) = Ok x.
Proof.
  rewrite <- (event_from_same (event_object x)); [apply event_from_object|apply sorted_same, event_keys].
Qed.

(** The lines of objects read back as the objects. *)
Lemma json_lines_text (file : option string) (texts : list string) (values : list json) :
  default ""%string file = text_of_lines texts ->
  Forall2 (fun t v => printable t = true /\ nonblank t = true /\ json_loads default_hooks t = Ok v) texts values ->
  json_lines file = Ok values.
Proof.
  intros Ef Hall.
  assert (Hp : Forall (fun t => printable t = true) texts).
  { clear Ef. induction Hall as [|t v ts vs (Ht & _) Hts IH]; constructor; done. }
  assert (Hlines : json_lines (Some (text_of_lines texts)) = Ok values).
  { unfold json_lines. rewrite read_lines by done. cbn. rewrite splitlines_lines by done. clear Ef Hp.
    induction Hall as [|t v ts vs (Ht & Hb & Hl) Hts IH]; [done|]. cbn [List.filter]. rewrite Hb.
    cbn [res_mapM]. rewrite Hl. cbn -[res_mapM]. by rewrite IH. }
  destruct file as [t|]; cbn in Ef; [by rewrite Ef|]. rewrite <- Ef in Hlines. cbn in Hlines.
  by destruct values.
Qed.

Definition persisted_values (l : list LifecycleEvent) : list json :=
  map (fun x => JObj (sorted_items (event_object x))) l.

Lemma events_lines (file : option string) (l : list LifecycleEvent) :
  default ""%string file = text_of_lines (map event_text l) -> Forall event_ok l ->
  json_lines file = Ok (persisted_values l).
Proof.
  intros Ef Hl. apply (json_lines_text _ _ _ Ef). clear Ef. unfold persisted_values.
  induction Hl as [|x l Hx Hl IH]; cbn [map]; [constructor|]. apply List.Forall2_cons; [|done].
  pose proof (event_text_printable x Hx). split_and!; [done| |by apply loads_event].
  by apply object_nonblank.
Qed.

(** ** The chain *)

Definition head_of (l : list LifecycleEvent) : string :=
  match last l with Some x => ev_event_digest x | None => "" end.

Fixpoint chained (n : Z) (previous : string) (l : list LifecycleEvent) : Prop :=
  match l with
  | [] => True
  | x :: l' => ev_sequence x = n + 1 /\ ev_previous_digest x = previous
               /\ ev_event_digest x = _digest (JObj (event_core x)) /\ chained (n + 1) (ev_event_digest x) l'
  end.

Lemma chained_snoc (l : list LifecycleEvent) (x : LifecycleEvent) n previous :
  chained n previous l -> ev_sequence x = n + Z.of_nat (length l) + 1 ->
  ev_previous_digest x = match last l with Some y => ev_event_digest y | None => previous end ->
  ev_event_digest x = _digest (JObj (event_core x)) -> chained n previous (l ++ [x]).
Proof.
  revert n previous. induction l as [|y l IH]; intros n previous; cbn [chained app length].
  - intros _ Hs Hp Hd. cbn in Hs, Hp. split_and!; (done || lia).
  - intros (Hy & Hpy & Hdy & Hl) Hs Hp Hd. split_and!; try done.
    apply IH; [done|lia| |done]. rewrite Hp, last_cons. by destruct (last l).
Qed.

Lemma last_persisted (l : list LifecycleEvent) :
  head_digest (persisted_values l) = Ok (head_of l).
Proof.
  unfold head_digest, head_of, persisted_values.
  change (map ?f l) with (f <$> l). rewrite fmap_last. destruct (last l) as [x|]; [|done].
  cbn [fmap option_fmap option_map]. rewrite <- (sorted_same _ (event_keys x)). unfold event_object. rewrite assoc_app.
  replace (assoc "event_digest" (event_core x)) with (@None json) by done. done.
Qed.

(** The ledger of a run: a line for each of the events, in a chain. *)
Record sound_ledger (l : list LifecycleEvent) (f : run_files) : Prop := {
  ledger_text : default ""%string (ledger_file f) = text_of_lines (map event_text l);
  ledger_events : Forall event_ok l;
  ledger_chain : chained 0 "" l
}.

Lemma sound_lines l f : sound_ledger l f -> json_lines (ledger_file f) = Ok (persisted_values l).
Proof. intros [Ht Hl _]. by apply events_lines. Qed.

Lemma sound_snoc (p : plane) (x : entry) (l : list LifecycleEvent) (f f' : run_files) :
  sound_ledger l f -> event_ok (event_of p x) -> length (events p) = length l -> current_head p = head_of l ->
  default ""%string (ledger_file f') = default ""%string (ledger_file f) +:+ (event_text (event_of p x) +:+ lf) ->
  sound_ledger (l ++ [event_of p x]) f'.
Proof.
  intros [Ht Hl Hc] Hx Hlen Hh Hf. split.
  - rewrite Hf, Ht, map_app, text_of_lines_app. cbn [map text_of_lines]. by rewrite sapp_nil_r.
  - by apply Forall_app; split; [|constructor].
  - apply chained_snoc; cbn; [done| | |].
    + by rewrite Hlen.
    + by rewrite Hh.
    + by rewrite event_core_of.
Qed.
End Lines.

(** ** Appending *)

(** The instance after an append. *)
Definition appended (x : LifecycleEvent) (extension : option BudgetPolicy) (p : plane) : plane :=
  let p1 := set_events (events p ++ [x]) p in
  match extension with Some b => set_budget_policy b p1 | None => p1 end.

(** The compare-and-swap: what the ledger must end with for the append to write. *)
Definition fresh_writer (p : plane) (l : list LifecycleEvent) (expected : option string) : Prop :=
  length (events p) = length l /\ current_head p = head_of l /\
  match expected with Some d => _digest (_budget_policy_payload (budget_policy p)) = d | None => True end.

#[export] Instance fresh_writer_dec p l expected : Decision (fresh_writer p l expected).
Proof. unfold fresh_writer. destruct expected; apply _. Defined.

Section Append.
Context `{Unicode}.
Variable e : control_env.

(** The files after an append: one line more. *)
Definition with_line (x : LifecycleEvent) (f : run_files) : run_files :=
  set_ledger_file (default ""%string (ledger_file f) +:+ (event_text x +:+ lf)) f.

Theorem append_locked_spec x expected extension s l :
  interrupted_write e = None -> sound_ledger l (files s) ->
  let event := event_of (cp s) x in
  if decide (fresh_writer (cp s) l expected)
  then _append_locked e x expected extension s
       = (Ok event, {| files := with_line event (files s); cp := appended event extension (cp s) |})
  else exists detail, _append_locked e x expected extension s = (Raise (TransitionDeniedError detail), s).
Proof.
  intros Hw Hs event. unfold _append_locked.
  rewrite !get_bind, (sound_lines l) by done. rewrite lift_Ok_bind, last_persisted, lift_Ok_bind.
  assert (Hlen : length (persisted_values l) = length l) by apply length_map.
  rewrite Hlen. unfold fresh_writer.
  destruct (decide (length (events (cp s)) = length l)) as [El|Hl].
  2: { rewrite decide_False by tauto.
       rewrite (bool_decide_false (length l = length (events (cp s)))) by congruence. cbn. eauto. }
  destruct (String.eqb_spec (head_of l) (current_head (cp s))) as [Eh|Hh].
  2: { rewrite decide_False by (intros (_ & E & _); congruence). rewrite orb_true_r. cbn. eauto. }
  rewrite (bool_decide_true (length l = length (events (cp s)))) by done. cbn [negb orb]. rewrite ret_bind.
  destruct expected as [d|].
  1: destruct (String.eqb_spec (_digest (_budget_policy_payload (budget_policy (cp s)))) d) as [Ed|Hd].
  2: { rewrite decide_False by tauto. cbn. eauto. }
  all: rewrite decide_True by (split_and!; done); cbn [negb]; rewrite ret_bind.
  all: rewrite event_from_body, lift_Ok_bind; fold event; unfold replace_text, append_text; rewrite Hw.
  all: unfold with_line, event_text, event; rewrite event_object_of, El.
  all: destruct (decide (length l = 0%nat)) as [E0|];
    [apply nil_length_inv in E0 as ->; destruct Hs as [-> _ _]|rewrite (bool_decide_false (length l = 0%nat)) by done];
    by destruct extension.
Qed.

Lemma append_sound x s l expected :
  sound_ledger l (files s) -> fresh_writer (cp s) l expected -> event_ok (event_of (cp s) x) ->
  sound_ledger (l ++ [event_of (cp s) x]) (with_line (event_of (cp s) x) (files s)).
Proof. intros Hs (Hl & Hh & _) Hx. by eapply sound_snoc. Qed.
End Append.
