(* ===== verification/ControlReplay.v ===== *)
(** * The lifecycle control plane: budget usage

    Usage only grows: the merge of what was recorded and what is supplied is at
    least both, and a usage that dominates the one before is merged to itself,
    which is what makes a replay of the recorded usages exact.

    ** The lifecycle control plane: replay

    Each event, replayed on the instance before the operation that wrote it,
    gives the instance after: what [load] computes from the files is what the
    operations left in memory. *)
From Stdlib Require Import Ascii String.
From S2P Require Import Prelude Sha256 Json JsonText JsonFacts JsonAscii PyStr PyConv TextFacts Lifecycle LifecycleRules.
From S2P Require Import ControlData ControlEvidence ControlLedger PolicySnapshots ControlGuards Control ControlLoad.
From S2P Require Import ControlFacts.

#[local] Opaque _digest.

(** ** Counts *)

Definition nonneg (m : gmap string Z) : Prop := map_Forall (fun _ n => 0 <= n) m.
Definition counts_le (a b : gmap string Z) : Prop := forall k x, a !! k = Some x -> exists y, b !! k = Some y /\ x <= y.

#[export] Instance counts_le_refl : Reflexive counts_le.
Proof. intros m k x. eauto with lia. Qed.
#[export] Instance counts_le_trans : Transitive counts_le.
Proof.
  intros a b c Hab Hbc k x Hx. destruct (Hab k x Hx) as (y & Hy & Hxy).
  destruct (Hbc k y Hy) as (z & Hz & Hyz). exists z. split; [done|lia].
Qed.

Lemma some_negative_spec (m : gmap string Z) : some_negative m = false <-> nonneg m.
Proof.
  unfold some_negative, nonneg. split.
  - intros He k x Hx. apply elem_of_map_to_list, list_elem_of_In in Hx.
    pose proof (existsb_none _ _ _ He Hx) as H. cbn in H. lia.
  - intros Hm. apply not_true_iff_false. intros (p & Hp & Hn)%existsb_exists.
    destruct p as [k x]. apply list_elem_of_In, elem_of_map_to_list in Hp. pose proof (Hm k x Hp). cbn in *. lia.
Qed.

Lemma lookup_merged (a b : gmap string Z) k :
  merged_counts a b !! k
  = match a !! k, b !! k with
    | Some x, Some y => Some (Z.max (Z.max 0 x) (Z.max 0 y))
    | Some x, None | None, Some x => Some (Z.max 0 x)
    | None, None => None
    end.
Proof.
  unfold merged_counts, merge_max. rewrite lookup_union_with, !lookup_fmap.
  by destruct (a !! k), (b !! k).
Qed.

Lemma merged_nonneg a b : nonneg (merged_counts a b).
Proof.
  intros k x. rewrite lookup_merged. destruct (a !! k), (b !! k); intros [= <-]; lia.
Qed.

Lemma merged_le a b : counts_le a (merged_counts a b).
Proof.
  intros k x Hx. rewrite lookup_merged, Hx. destruct (b !! k); eexists; (split; [done|lia]).
Qed.

Lemma merged_absorbs a b : counts_le a b -> nonneg b -> merged_counts a b = b.
Proof.
  intros Hab Hb. apply map_eq. intros k. rewrite lookup_merged.
  destruct (a !! k) as [x|] eqn:Ea.
  - destruct (Hab k x Ea) as (y & Ey & Hxy). rewrite Ey. pose proof (Hb k y Ey). cbn in *. f_equal. lia.
  - destruct (b !! k) as [y|] eqn:Eb; [|done]. pose proof (Hb k y Eb). cbn in *. f_equal. lia.
Qed.

Lemma count_le (a b : gmap string Z) k : counts_le a b -> nonneg b -> count k a <= count k b.
Proof.
  intros Hab Hb. unfold count. destruct (a !! k) as [x|] eqn:Ea; cbn.
  - destruct (Hab k x Ea) as (y & -> & Hxy). done.
  - destruct (b !! k) as [y|] eqn:Eb; cbn; [|lia]. exact (Hb k y Eb).
Qed.

Lemma regressed_none prefix a b : counts_le a b -> nonneg b -> regressed prefix a b = [].
Proof.
  intros Hab Hb. unfold regressed. induction (elements (dom a ∪ dom b)) as [|k l IH]; [done|].
  cbn [List.filter]. pose proof (count_le a b k Hab Hb). destruct (Z.ltb_spec (count k b) (count k a)); [lia|done].
Qed.

(** ** Usage *)

Record usage_le (u v : BudgetUsage) : Prop := {
  le_counters : counts_le (bu_counters u) (bu_counters v);
  le_findings : counts_le (bu_by_finding u) (bu_by_finding v);
  le_stages : counts_le (bu_by_stage u) (bu_by_stage v);
  le_safety : bu_safety_units_used u <= bu_safety_units_used v
}.
#[export] Instance usage_le_refl : Reflexive usage_le.
Proof. intros u. split; reflexivity. Qed.
#[export] Instance usage_le_trans : Transitive usage_le.
Proof. intros a b c [] []. split; etrans; eauto. Qed.

Definition usage_ok (u : BudgetUsage) : Prop := new_budget_usage u = Ok u.

Lemma usage_ok_spec u :
  usage_ok u <-> nonneg (bu_counters u) /\ nonneg (bu_by_finding u) /\ nonneg (bu_by_stage u)
                 /\ 0 <= bu_safety_units_used u.
Proof.
  unfold usage_ok, new_budget_usage. rewrite <- !some_negative_spec. split.
  - intros H. destruct (some_negative _), (some_negative _), (some_negative _); try done.
    cbn in H. destruct (Z.ltb_spec (bu_safety_units_used u) 0); [done|]. auto.
  - intros (-> & -> & -> & Hs). cbn. by rewrite (proj2 (Z.ltb_ge _ _) Hs).
Qed.

Lemma new_usage_Ok u v : new_budget_usage u = Ok v -> v = u /\ usage_ok u.
Proof. unfold usage_ok. intros E. assert (v = u) as ->; [|done]. unfold new_budget_usage in E. by simp_res. Qed.

Lemma no_usage_ok : usage_ok no_usage.
Proof. reflexivity. Qed.

Lemma merge_le prior supplied lower u :
  _merge_budget_usage prior supplied lower = Ok u -> usage_le prior u /\ usage_ok u.
Proof.
  unfold _merge_budget_usage. intros E. simp_res. apply new_usage_Ok in E as [-> Hu]. split; [|done].
  split; cbn; [apply merged_le..|lia].
Qed.

(** What was recorded is merged to itself. *)
Lemma merge_absorbs u v : usage_le u v -> usage_ok v -> _merge_budget_usage u v true = Ok v.
Proof.
  intros [Hc Hf Hs Hn] Hv. pose proof Hv as (Hvc & Hvf & Hvs & Hvn)%usage_ok_spec.
  unfold _merge_budget_usage, budget_regressions.
  rewrite !regressed_none, !merged_absorbs by done.
  destruct (Z.ltb_spec (bu_safety_units_used v) (bu_safety_units_used u)); [lia|]. cbn.
  rewrite Z.max_r by lia. by destruct v.
Qed.

Lemma bump_le k m : counts_le m (bump k m).
Proof.
  intros j x Hx. unfold bump. destruct (decide (j = k)) as [->|Hne].
  - rewrite lookup_insert_eq. unfold count. rewrite Hx. cbn. eexists. split; [done|lia].
  - rewrite lookup_insert_ne by done. eauto with lia.
Qed.
Lemma bump_nonneg k m : nonneg m -> nonneg (bump k m).
Proof.
  intros Hm j x. unfold bump. destruct (decide (j = k)) as [->|Hne].
  - rewrite lookup_insert_eq. intros [= <-]. unfold count. destruct (m !! k) as [y|] eqn:E; cbn; [|lia].
    pose proof (Hm k y E). cbn in *. lia.
  - rewrite lookup_insert_ne by done. apply Hm.
Qed.

(** A transition adds to its usage. *)
Lemma used_le p c r u : usage_le u (used p c r u).
Proof.
  unfold used. destruct (tc_finding c), (has_guard "repair" (guards r)), (has_guard "safety" (guards r));
    split; cbn; first [reflexivity | apply bump_le | lia].
Qed.

(** ** Usage as an object *)

Section Reading.
Context `{Unicode}.

Lemma counts_from_items (m : gmap string Z) : counts_from (int_dict m) = Ok m.
Proof.
  unfold counts_from, int_dict. cbn [py_dict mbind res_bind]. rewrite named_entries_of.
  assert (forall l : list (string * Z),
    res_mapM (fun q : string * json => n ← count_of (snd q); Ok (fst q, n)) (map (fun p => (fst p, JInt (snd p))) l) = Ok l) as ->.
  { induction l as [|[k n] l IH]; [done|]. cbn [map res_mapM]. cbn -[res_mapM]. by rewrite IH. }
  cbn. by rewrite (list_to_map_items m) by (by rewrite reverse_Permutation).
Qed.

Lemma usage_from_members u : usage_ok u -> usage_from (usage_members u) = Ok u.
Proof.
  intros Hu. unfold usage_from, usage_members. cbn -[counts_from int_dict].
  rewrite !counts_from_items. cbn. destruct u. exact Hu.
Qed.
End Reading.

(** * The lifecycle control plane: replay *)

#[local] Opaque _digest.

(** ** Verdicts *)

Lemma verdict_bind_Proceed {A B} (m : verdict A) (k : A -> verdict B) b :
  (m ≫= k) = Proceed b -> exists a, m = Proceed a /\ k a = Proceed b.
Proof. destruct m; cbn; [eauto|discriminate..]. Qed.
Ltac open_verdict H :=
  let a := fresh "a" in let E := fresh "E" in
  apply verdict_bind_Proceed in H as (a & E & H).

Lemma deny_if_Proceed target c b detail u : deny_if target c b detail = Proceed u -> b = false.
Proof. unfold deny_if. by destruct b. Qed.
Lemma of_res_Proceed {A} (m : res A) a : of_res m = Proceed a -> m = Ok a.
Proof. destruct m; cbn; congruence. Qed.
Lemma of_denial_Proceed {A} target c (m : res A) a : of_denial target c m = Proceed a -> m = Ok a.
Proof. destruct m as [|[]]; cbn; congruence. Qed.

(** ** The instance as a replay sees it *)

(** All the events and attempts of the run are known from the start; a challenge
    does not survive the process. *)
Definition seen (l : list LifecycleEvent) (m : gmap string MutationAttempt) (p : plane) : plane := {|
  run_id := run_id p; subject_digest := subject_digest p; state := state p; budget_policy := budget_policy p;
  policy := policy p; trust_policy := trust_policy p; events := l;
  completion_claim_active := completion_claim_active p; mutation_attempts := m;
  mutation_results := mutation_results p; verified_mutation_result_keys := verified_mutation_result_keys p;
  consumed_mutation_result_keys := consumed_mutation_result_keys p;
  budget_extension_challenge := None; budget_usage := budget_usage p |}.

Section Replay.
Context `{Datetime} `{Unicode}.

(** ** Usages of decisions *)

Lemma supplied_usage_le e p target c u :
  supplied_usage e p target c = Proceed u -> usage_ok (budget_usage p) ->
  usage_le (budget_usage p) u /\ usage_ok u.
Proof.
  unfold supplied_usage. intros E Hp. destruct (_trusted_budget_usage_valid e p c).
  - apply of_denial_Proceed, merge_le in E. done.
  - injection E as <-. split; [reflexivity|done].
Qed.

Lemma decide_transition_parts e p attempts target why c d :
  decide_transition e p attempts target why c = Proceed d ->
  exists r u stopped blocker inputs,
    admission e p target why c = Proceed (r, u) /\
    exposure_and_budget e p target why c r (exhausted_dimensions u (budget_policy p)) = Proceed tt /\
    stops e p target why c r (exhausted_dimensions u (budget_policy p)) = Proceed stopped /\
    findings e p target c r u = Proceed blocker /\
    bindings e p target (with_evidence blocker c) r = Proceed tt /\
    effects p attempts target (with_evidence blocker c) r u stopped = Proceed (de_resume d) /\
    live e p target (with_evidence blocker c) r = Proceed tt /\
    (if has_guard "safe_stop" (guards r) && bool_decide (state p = PR_READY) && bool_decide (target = BLOCKED)
     then bound_review_inputs p target (with_evidence blocker c) else Proceed []) = Proceed inputs /\
    de_usage d = used p (with_evidence blocker c) r u /\ usage_ok (de_usage d) /\
    de_kind d = kind_of p target /\ de_evidence d = event_evidence p (with_evidence blocker c) r blocker inputs.
Proof.
  unfold decide_transition. destruct (String.eqb why "recorded_safe_resume"); [discriminate|]. intros E.
  open_verdict E. destruct a as [r u].
  open_verdict E. destruct a. open_verdict E. open_verdict E. open_verdict E. destruct a1.
  open_verdict E. open_verdict E. destruct a2. open_verdict E. open_verdict E.
  apply of_res_Proceed, new_usage_Ok in E8 as [-> Hu]. injection E as <-. cbn.
  eexists r, u, _, _, _. split_and!; done.
Qed.

Lemma decided_usage e p attempts target why c d :
  decide_transition e p attempts target why c = Proceed d -> usage_ok (budget_usage p) ->
  usage_le (budget_usage p) (de_usage d) /\ usage_ok (de_usage d).
Proof.
  intros (r & u & stopped & blocker & inputs & Ha & _ & _ & _ & _ & _ & _ & _ & -> & Hok & _)%decide_transition_parts Hp.
  split; [|done]. etrans; [|apply used_le].
  unfold admission in Ha. do 2 open_verdict Ha. open_verdict Ha. do 4 open_verdict Ha.
  injection Ha as <- <-. by eapply supplied_usage_le.
Qed.

Lemma resumed_usage e p c recorded u :
  decide_resume e p c = Proceed (recorded, u) -> usage_le (budget_usage p) u /\ usage_ok u.
Proof.
  unfold decide_resume. intros E. do 2 open_verdict E.
  destruct (x ← last_stop p (state p); recorded ← ev_resume_state x; Some (x, recorded)) as [[x rec]|]; [|done].
  do 3 open_verdict E. injection E as <- <-. unfold resume_safety in E4.
  repeat open_verdict E4. injection E4 as <-. by eapply merge_le, of_denial_Proceed.
Qed.

Lemma persisted_usage_le e p c u :
  persisted_usage e p c = Ok u -> usage_ok (budget_usage p) -> usage_le (budget_usage p) u /\ usage_ok u.
Proof.
  unfold persisted_usage. intros E Hp. destruct (_trusted_budget_usage_valid e p c).
  - by eapply merge_le.
  - injection E as <-. split; [reflexivity|done].
Qed.

(** ** Replaying one event *)

Variable e : control_env.
Variable l : list LifecycleEvent.
Variable m : gmap string MutationAttempt.
Abbreviation seen := (seen l m).

Lemma replay_usage_of p q x u :
  en_budget_usage x = Some u -> usage_le (budget_usage q) u -> usage_ok u ->
  replay_usage (event_of p x) q = Ok (set_budget_usage u q).
Proof.
  intros Ex Hle Hu. unfold replay_usage, event_of. cbn [ev_budget_usage]. rewrite Ex.
  cbn [fmap option_fmap option_map]. rewrite usage_from_members by done. cbn -[_merge_budget_usage].
  by rewrite merge_absorbs.
Qed.

Definition plain_kind (kind : string) : bool :=
  negb (str_in kind ["MUTATION_RESULT"; "MUTATION_RESULT_CONSUMED"; "BUDGET_POLICY_ADMITTED"]%string).

Lemma replay_plain x q :
  plain_kind (ev_kind x) = true ->
  replay_event e q x
  = (p1 ← replay_state x q; p2 ← replay_usage x p1;
     Ok (replay_claim x (if nonempty (got consumed_key_name (ev_evidence_refs x))
                         then add_consumed (got consumed_key_name (ev_evidence_refs x)) p2 else p2))).
Proof.
  unfold plain_kind, str_in. cbn [existsb]. intros Hk. apply negb_true_iff in Hk.
  apply orb_false_iff in Hk as [H1 Hk]. apply orb_false_iff in Hk as [H2 Hk]. apply orb_false_iff in Hk as [H3 _].
  unfold replay_event, replay_result, replay_consumed, replay_budget_policy. rewrite H1, H2, H3. cbn [andb].
  destruct (replay_state x q) as [p1|]; [|done]. cbn. by destruct (replay_usage x p1).
Qed.

Lemma replay_state_from x q :
  ev_source x = state q -> (applied x = true \/ ev_target x = state q \/ ev_outcome x <> "RECORDED"%string) ->
  replay_state x q = Ok (if applied x then set_state (ev_target x) q else q).
Proof.
  intros Hs Hx. unfold replay_state. rewrite (bool_decide_true (ev_source x = state q)) by done. cbn.
  destruct (applied x) eqn:Ea; [done|]. destruct Hx as [Hx|[Hx|Hx]]; [done| |].
  - rewrite (bool_decide_true (ev_target x = state q)) by done. by rewrite andb_false_r.
  - by apply String.eqb_neq in Hx as ->.
Qed.

Lemma kind_of_plain p target : plain_kind (kind_of p target) = true.
Proof. unfold kind_of. by repeat case_bool_decide. Qed.

Theorem transition_replays e' p attempts target why c d :
  decide_transition e' p attempts target why c = Proceed d -> usage_ok (budget_usage p) ->
  replay_event e (seen p) (event_of p (applied_entry p target c why d)) = Ok (seen (adopt target d p)).
Proof.
  intros Hd Hp. destruct (decided_usage _ _ _ _ _ _ _ Hd Hp) as [Hle Hu].
  assert (de_kind d = kind_of p target) as Hk by (apply decide_transition_parts in Hd; naive_solver).
  rewrite replay_plain by (cbn; rewrite Hk; apply kind_of_plain).
  rewrite replay_state_from by (cbn; auto). cbn -[replay_usage replay_claim event_of applied_entry].
  rewrite (replay_usage_of p _ (applied_entry p target c why d) (de_usage d)) by done.
  unfold adopt. cbn. unfold replay_claim. cbn.
  destruct (nonempty _), (String.eqb (de_kind d) "COMPLETION_CLAIMED"), (String.eqb (de_kind d) "COMPLETION_REVOKED"); done.
Qed.

Theorem denial_replays e' p target c why detail u :
  persisted_usage e' p c = Ok u -> usage_ok (budget_usage p) -> got consumed_key_name (tc_evidence c) = ""%string ->
  replay_event e (seen p) (event_of p (denial p target c why detail u)) = Ok (seen (set_budget_usage u p)).
Proof.
  intros Hd Hp Hc. destruct (persisted_usage_le _ _ _ _ Hd Hp) as [Hle Hu].
  rewrite replay_plain by done. rewrite replay_state_from by (cbn; auto). cbn -[replay_usage replay_claim event_of denial].
  rewrite (replay_usage_of p _ (denial p target c why detail u) u) by done.
  cbn. rewrite Hc. done.
Qed.

Theorem resume_replays e' p c recorded u :
  decide_resume e' p c = Proceed (recorded, u) -> got consumed_key_name (tc_evidence c) = ""%string ->
  replay_event e (seen p) (event_of p (resumed_entry p c recorded u))
  = Ok (seen (set_budget_usage u (set_state recorded p))).
Proof.
  intros Hd Hc. destruct (resumed_usage _ _ _ _ _ Hd) as [Hle Hu].
  rewrite replay_plain by done. rewrite replay_state_from by (cbn; auto). cbn -[replay_usage replay_claim event_of resumed_entry].
  rewrite (replay_usage_of p _ (resumed_entry p c recorded u) u) by done.
  cbn. rewrite Hc. done.
Qed.

Theorem observation_replays p source payload_digest signature authority_digest observed_at :
  replay_event e (seen p) (event_of p (observation_entry p source payload_digest signature authority_digest observed_at))
  = Ok (seen p).
Proof.
  rewrite replay_plain by done. by rewrite replay_state_from by (cbn; auto).
Qed.

(** ** Results *)

Lemma sorted_names_read (caps : gset string) :
  readable (sorted_names caps) = true ->
  exists l, json_loads default_hooks (json_dumps (sorted_names caps)) = Ok (JArr l) /\ list_to_set (map py_str l) = caps.
Proof.
  intros Hr. rewrite loads_dumps by done. unfold sorted_names. cbn [sort_json]. rewrite !map_map.
  eexists. split; [done|]. rewrite map_map. cbn [sort_json py_str].
  rewrite map_id. apply set_eq. intros x. rewrite elem_of_list_to_set, sorted_str_perm. apply elem_of_elements.
Qed.

(** A digest that the ledger can tell from a missing one. *)
Definition told_apart (result_digest : option string) : bool :=
  match result_digest with
  | Some d => nonempty d && negb (String.eqb d "UNKNOWN")
  | None => true
  end.

Lemma replayed_digest_of (result_digest : option string) (x : LifecycleEvent) :
  told_apart result_digest = true -> ev_evidence_refs x !! "result_digest"%string = Some (or_unknown result_digest) ->
  replayed_digest x = result_digest.
Proof.
  intros Ht Ex. unfold replayed_digest. rewrite Ex. destruct result_digest as [d|]; cbn in *; [|done].
  apply andb_prop in Ht as [-> Hu]. apply negb_true_iff in Hu. by rewrite Hu.
Qed.

Lemma adapter_replayed p attempt status result_digest (a : AdapterResultEvidence) e' :
  adapter_valid e' p attempt status result_digest a = true -> told_apart result_digest = true ->
  replayed_adapter (event_of p (result_entry p attempt status result_digest a)) (ae_capabilities a) = a.
Proof.
  unfold adapter_valid, attested. intros Hv Ht. unfold replayed_adapter.
  rewrite (replayed_digest_of result_digest) by (done || (cbn; by rewrite lookup_list)).
  cbn [event_of ev_evidence_refs result_entry en_evidence_refs]. rewrite !got_list. bool_simp.
  repeat match goal with H : bool_decide _ = true |- _ => apply bool_decide_eq_true in H end.
  destruct a. cbn in *. subst. done.
Qed.

(** The evidence of a recorded result. *)
Abbreviation result_members attempt result_digest a := (
  [("attempt_id", ma_id attempt); ("idempotency_key", ma_idempotency_key attempt);
   ("result_digest", or_unknown result_digest); ("adapter_id", ae_adapter_id a);
   ("adapter_role", ae_role a);
   ("adapter_capabilities_json", json_dumps (sorted_names (ae_capabilities a)));
   ("adapter_authority_digest", ae_authority_digest a);
   ("adapter_step_plan_digest", ae_step_plan_digest a);
   ("adapter_authentication_evidence_digest", ae_authentication_evidence_digest a)]%string).
Lemma result_refs p attempt status result_digest a name :
  got name (ev_evidence_refs (event_of p (result_entry p attempt status result_digest a)))
  = default ""%string (assoc name (result_members attempt result_digest a)).
Proof. cbn [event_of ev_evidence_refs result_entry en_evidence_refs]. apply got_list. Qed.

Theorem result_replays e' p attempt status result_digest a :
  adapter_valid e' p attempt status result_digest a = true ->
  evidence_verifier e = evidence_verifier e' -> told_apart result_digest = true ->
  readable (sorted_names (ae_capabilities a)) = true ->
  m !! ma_idempotency_key attempt = Some attempt ->
  nonempty (ma_id attempt) = true -> nonempty (ma_idempotency_key attempt) = true ->
  let result := {| mr_attempt_id := ma_id attempt; mr_idempotency_key := ma_idempotency_key attempt;
                   mr_status := status; mr_result_digest := result_digest |} in
  replay_event e (seen p) (event_of p (result_entry p attempt status result_digest a))
  = Ok (seen (add_result (ma_idempotency_key attempt) result p)).
Proof.
  intros Hv He Ht Hc Hm Hid Hkey result. pose proof (adapter_replayed _ _ _ _ _ _ Hv Ht) as Ea.
  unfold replay_event. rewrite replay_state_from by (cbn; auto).
  change (applied (event_of p (result_entry p attempt status result_digest a))) with false.
  cbn -[event_of result_entry]. unfold replay_usage. cbn [event_of ev_budget_usage result_entry en_budget_usage fmap option_fmap option_map].
  unfold replay_result. cbn [mbind res_bind].
  pose proof (result_refs p attempt status result_digest a) as Eg.
  assert (Ecaps : replayed_capabilities (event_of p (result_entry p attempt status result_digest a))
                  = Ok (ae_capabilities a)).
  { unfold replayed_capabilities. rewrite Eg. cbn -[json_loads json_dumps].
    destruct (sorted_names_read _ Hc) as (vs & -> & Evs). cbn. by rewrite Evs. }
  rewrite Ecaps, !Eg. cbn -[event_of result_entry replayed_adapter replayed_adapter_valid replay_consumed].
  rewrite Hid, Hkey.
  change (ev_kind (event_of p (result_entry p attempt status result_digest a))) with "MUTATION_RESULT"%string.
  cbn -[event_of result_entry replayed_adapter replayed_adapter_valid replay_consumed]. rewrite Ea.
  assert (replayed_adapter_valid e (seen p) a = true) as ->.
  { unfold adapter_valid, attested in Hv. unfold replayed_adapter_valid. bool_simp.
    repeat match goal with H : (_ =? _)%string = true |- _ => apply String.eqb_eq in H end.
    unfold _verify_external_evidence in *. rewrite He.
    destruct (evidence_verifier e') as [verify|]; [|done]. bool_simp.
    cbn [seen mutation_attempts trust_policy].
    repeat match goal with H : ae_idempotency_key a = _ |- _ => rewrite H end. rewrite Hm.
    repeat match goal with H : ae_attempt_id a = _ |- _ => rewrite H
                         | H : ae_action a = _ |- _ => rewrite H
                         | H : ae_step_plan_digest a = _ |- _ => rewrite H
                         | H : ?b = true |- context [?b] => rewrite H end.
    by rewrite !String.eqb_refl. }
  cbn -[event_of result_entry replay_consumed].
  rewrite (replayed_digest_of result_digest) by (done || (cbn; by rewrite lookup_list)).
  unfold replay_consumed. rewrite !Eg. cbn. unfold set_result.
  assert (exists verify, evidence_verifier e = Some verify) as (verify & ->).
  { unfold adapter_valid, attested, _verify_external_evidence in Hv. rewrite He. bool_simp.
    destruct (evidence_verifier e'); [eauto|done]. }
  done.
Qed.

(** The evidence of the adapter as [load] reads it back when the digest cannot be
    told from a missing one. *)
Definition without_digest (a : AdapterResultEvidence) : AdapterResultEvidence := {|
  ae_adapter_id := ae_adapter_id a; ae_role := ae_role a; ae_authenticated := ae_authenticated a;
  ae_capabilities := ae_capabilities a; ae_subject_digest := ae_subject_digest a;
  ae_authority_digest := ae_authority_digest a; ae_attempt_id := ae_attempt_id a;
  ae_idempotency_key := ae_idempotency_key a; ae_action := ae_action a; ae_step_plan_digest := ae_step_plan_digest a;
  ae_status := ae_status a; ae_result_digest := None;
  ae_authentication_evidence_digest := ae_authentication_evidence_digest a |}.

Theorem result_refused e' p attempt status d a :
  adapter_valid e' p attempt status (Some d) a = true ->
  evidence_verifier e = evidence_verifier e' -> told_apart (Some d) = false ->
  readable (sorted_names (ae_capabilities a)) = true ->
  nonempty (ma_id attempt) = true -> nonempty (ma_idempotency_key attempt) = true ->
  _verify_external_evidence e (ae_adapter_id a) (ae_authority_digest a)
    (_adapter_result_evidence_payload (without_digest a)) (ae_authentication_evidence_digest a) = false ->
  replay_event e (seen p) (event_of p (result_entry p attempt status (Some d) a))
  = Raise (ValueError "mutation result adapter evidence is invalid").
Proof.
  intros Hv He Ht Hc Hid Hkey Hsig.
  set (x := event_of p (result_entry p attempt status (Some d) a)).
  assert (Eg : forall name, got name (ev_evidence_refs x) = default ""%string (assoc name (result_members attempt (Some d) a)))
    by apply result_refs.
  assert (Ed : replayed_digest x = None).
  { unfold replayed_digest.
    assert (ev_evidence_refs x !! "result_digest"%string = Some (or_unknown (Some d))) as ->
      by (subst x; cbn [event_of ev_evidence_refs result_entry en_evidence_refs]; by rewrite lookup_list).
    cbn in Ht |- *. destruct (nonempty d); [|done]. apply negb_false_iff in Ht. by rewrite Ht. }
  assert (Ea : replayed_adapter x (ae_capabilities a) = without_digest a).
  { unfold replayed_adapter, without_digest. rewrite Ed, !Eg. clear Eg Ed. unfold adapter_valid in Hv. bool_simp.
    repeat match goal with H : bool_decide _ = true |- _ => apply bool_decide_eq_true in H end.
    cbn. f_equal; congruence. }
  assert (Ecaps : replayed_capabilities x = Ok (ae_capabilities a)).
  { unfold replayed_capabilities. rewrite Eg. cbn -[json_loads json_dumps].
    destruct (sorted_names_read _ Hc) as (vs & -> & Evs). cbn. by rewrite Evs. }
  unfold replay_event. rewrite replay_state_from by (cbn; auto).
  change (applied x) with false. cbn [mbind res_bind]. unfold replay_usage.
  change (ev_budget_usage x) with (@None (list (string * json))). cbn [mbind res_bind]. unfold replay_result.
  change (ev_kind x) with "MUTATION_RESULT"%string. rewrite !Eg, Ecaps. cbn [assoc String.eqb Ascii.eqb Bool.eqb default from_option id].
  rewrite Hid, Hkey. cbn [andb mbind res_bind]. rewrite Ea.
  assert (replayed_adapter_valid e (seen p) (without_digest a) = false) as ->; [|done].
  unfold replayed_adapter_valid. cbn [without_digest ae_adapter_id ae_authority_digest ae_authentication_evidence_digest].
  unfold adapter_valid, attested, _verify_external_evidence in Hv. unfold _verify_external_evidence in Hsig |- *. rewrite He in Hsig |- *.
  destruct (evidence_verifier e') as [verify|]; [|by rewrite !andb_false_r in Hv].
  rewrite Hsig. by rewrite andb_false_r.
Qed.

(** ** Budget extensions *)

Definition budget_members (b : BudgetPolicy) : list (string * json) :=
  [("version", JStr (bp_version b)); ("limits", int_dict (bp_limits b));
   ("repair_attempts_per_finding", JInt (bp_repair_attempts_per_finding b));
   ("repair_attempts_per_stage", JInt (bp_repair_attempts_per_stage b));
   ("reserved_safety_units", JInt (bp_reserved_safety_units b)); ("approved_by", JStr (bp_approved_by b))]%string.

Lemma sort_budget (b : BudgetPolicy) :
  sort_json (_budget_policy_payload b) = JObj (sorted_items (budget_members b)).
Proof. cbn [sort_json _budget_policy_payload map fst snd]. by rewrite sort_int_dict. Qed.

Lemma budget_from_same b b' : same_members b b' -> _budget_policy_from_dict b = _budget_policy_from_dict b'.
Proof. intros E. unfold _budget_policy_from_dict, str_item, item. by rewrite !E. Qed.

Lemma budget_from_members (b : BudgetPolicy) :
  new_budget_policy b = Ok b -> _budget_policy_from_dict (sorted_items (budget_members b)) = Ok b.
Proof.
  intros Hb. rewrite <- (budget_from_same (budget_members b)).
  2: { apply sorted_same. cbn. decide_now. }
  unfold _budget_policy_from_dict, str_item, item, budget_members. cbn -[int_dict new_budget_policy res_mapM].
  unfold int_dict. cbn -[items new_budget_policy res_mapM].
  assert (forall l : list (string * Z),
    res_mapM (fun q : json * json => n ← as_int (snd q); Ok (py_str (fst q), n))
      (map (fun p => (JStr (fst p), snd p)) (map (fun p => (fst p, JInt (snd p))) l)) = Ok l) as ->.
  { intros k. induction k as [|[k n] k' IH]; [done|]. cbn [map res_mapM]. cbn -[res_mapM]. by rewrite IH. }
  cbn -[items new_budget_policy]. rewrite (list_to_map_items (bp_limits b)) by (by rewrite reverse_Permutation).
  by destruct b.
Qed.

Lemma replay_extension q x proposed :
  ev_kind x = "BUDGET_POLICY_ADMITTED"%string -> ev_outcome x = "RECORDED"%string ->
  ev_source x = state q -> ev_target x = state q -> ev_budget_usage x = None ->
  got consumed_key_name (ev_evidence_refs x) = ""%string ->
  got "budget_policy_json" (ev_evidence_refs x) = json_dumps (_budget_policy_payload proposed) ->
  ev_evidence_refs x !! "prior_policy_digest"%string = Some (policy_digest_of (budget_policy q)) ->
  ev_evidence_refs x !! "proposed_policy_digest"%string = Some (policy_digest_of proposed) ->
  ev_evidence_refs x !! "budget_policy_digest"%string = Some (policy_digest_of proposed) ->
  is_sha256 (got "authorization_evidence_digest" (ev_evidence_refs x)) = true ->
  new_budget_policy proposed = Ok proposed -> readable (_budget_policy_payload proposed) = true ->
  replay_event e q x = Ok (set_budget_policy proposed q).
Proof.
  intros Hk Ho Hs Ht Hu Hkey Hj H1 H2 H3 Hd Hb Hr. unfold replay_event. rewrite replay_state_from by auto.
  assert (applied x = false) as -> by (unfold applied; by rewrite Ho). cbn [mbind res_bind].
  unfold replay_usage. rewrite Hu. cbn [mbind res_bind].
  unfold replay_result. rewrite Hk. cbn [String.eqb Ascii.eqb Bool.eqb andb mbind res_bind].
  unfold replay_consumed. rewrite Hk, Hkey. cbn [String.eqb Ascii.eqb Bool.eqb nonempty negb].
  unfold replay_budget_policy. rewrite Hk, Hj. cbn [String.eqb Ascii.eqb Bool.eqb andb].
  rewrite loads_dumps by done.
  assert (nonempty (json_dumps (_budget_policy_payload proposed)) = true) as -> by done.
  cbn [try_except mbind res_bind]. rewrite dumps_sort, String.eqb_refl, sort_budget.
  cbn [as_obj mbind option_bind from_option_res res_bind].
  rewrite budget_from_members by done. cbn [mbind res_bind].
  unfold ref_matches. rewrite H1, H2, H3, Hd. unfold opt_str. cbn [py_eq]. rewrite !String.eqb_refl.
  cbn [negb orb raise_if mbind res_bind]. unfold replay_claim. rewrite Hk. done.
Qed.

Theorem extension_replays p proposed a observed_at :
  new_budget_policy proposed = Ok proposed -> readable (_budget_policy_payload proposed) = true ->
  is_sha256 (be_evidence_digest a) = true ->
  replay_event e (seen p) (event_of p (extension_entry p proposed a observed_at))
  = Ok (seen (set_budget_policy proposed p)).
Proof.
  intros Hb Hr Hd. rewrite (replay_extension _ _ proposed); [done|..]; try done;
    cbn [event_of ev_evidence_refs extension_entry en_evidence_refs]; rewrite ?got_list, ?lookup_list; done.
Qed.
End Replay.
