(* ===== verification/ControlLoadFacts.v ===== *)
(** * The lifecycle control plane: reading the files of a run

    What [load] reads from a ledger, a journal and the metadata that the
    operations wrote.

    ** Snapshots of lifecycle policies

    The payload of a policy of the current versions reads back as the policy. *)
From stdpp Require Import sorting.
From Stdlib Require Import Ascii String.
From S2P Require Import Prelude Sha256 Json JsonText JsonFacts JsonAscii PyStr PyConv TextFacts JsonIndent.
From S2P Require Import AcceptanceTheorems Lifecycle LifecycleRules LifecycleTheorems ControlData ControlEvidence.
From S2P Require Import ControlLedger PolicySnapshots ControlGuards Control ControlLoad ControlFacts ControlReplay.

#[local] Opaque _digest.

(** ** The order of members does not change the text *)

Lemma sorted_items_unique {V} (m m' : list (string * V)) :
  NoDup (map fst m) -> m ≡ₚ m' -> sorted_items m = sorted_items m'.
Proof.
  intros Hn E. apply (StronglySorted_unique_strong item_leb); [|apply sorted_items_sorted..|by rewrite !sorted_items_perm].
  intros [k v] [k' v'] Hx Hy. unfold item_leb, str_leb. cbn [fst].
  destruct (String.compare k k') eqn:E1; [|rewrite (proj2 (compare_gt_lt k' k)) by done; done|done].
  intros _ _. apply compare_eq in E1 as ->.
  rewrite sorted_items_perm in Hx. rewrite sorted_items_perm, <- E in Hy.
  f_equal. apply (f_equal (default v)) with (x := Some v) (y := Some v').
  rewrite <- (assoc_NoDup _ _ _ Hn Hx). by apply assoc_NoDup.
Qed.

Lemma dumps_perm (m m' : list (string * json)) :
  NoDup (map fst m) -> m ≡ₚ m' -> json_dumps (JObj m) = json_dumps (JObj m').
Proof.
  intros Hn E. unfold json_dumps. cbn [dumps_with]. do 2 f_equal. f_equal. f_equal.
  apply sorted_items_unique; [by rewrite map_fst_map|]. by rewrite E.
Qed.

Lemma digest_perm (m m' : list (string * json)) :
  NoDup (map fst m) -> m ≡ₚ m' -> _digest (JObj m) = _digest (JObj m').
Proof. intros Hn E. Transparent _digest. unfold _digest. Opaque _digest. by rewrite (dumps_perm m m'). Qed.
Lemma digest_sort (v : json) : _digest (sort_json v) = _digest v.
Proof. Transparent _digest. unfold _digest. Opaque _digest. by rewrite dumps_sort. Qed.

(** A member that is taken out of a sorted object. *)
Lemma digest_without (k : string) (v : json) (m : list (string * json)) :
  NoDup (map fst (m ++ [(k, v)])) ->
  _digest (JObj (assoc_del k (sorted_items (m ++ [(k, v)])))) = _digest (JObj m).
Proof.
  intros Hn. assert (Hk : k ∉ map fst m).
  { rewrite map_app in Hn. apply NoDup_app in Hn as (_ & Hd & _). intros Hk. apply (Hd k Hk). simpl. left. }
  symmetry. apply digest_perm.
  - rewrite map_app in Hn. by apply NoDup_app in Hn as (? & _).
  - rewrite <- (assoc_del_snoc k v m Hk) at 1. unfold assoc_del.
    assert (Hf : forall a b : list (string * json), a ≡ₚ b ->
      List.filter (fun p => negb (String.eqb (fst p) k)) a ≡ₚ List.filter (fun p => negb (String.eqb (fst p) k)) b).
    { intros a b E. induction E; cbn [List.filter]; repeat (destruct (negb _)); try done;
        try (by constructor); by etrans. }
    apply Hf. by rewrite sorted_items_perm.
Qed.

Section Reading.
Context `{Unicode}.

(** ** Events *)

Lemma digest_core (x : LifecycleEvent) :
  _digest (JObj (assoc_del "event_digest" (sorted_items (event_object x)))) = _digest (JObj (event_core x)).
Proof. apply digest_without, event_keys. Qed.

Lemma read_event_of (x : LifecycleEvent) :
  ev_event_digest x = _digest (JObj (event_core x)) ->
  read_event (ev_previous_digest x) (JObj (sorted_items (event_object x))) = Ok x.
Proof.
  intros Hd. unfold read_event. rewrite <- !(sorted_same _ (event_keys x)).
  assert (assoc "event_digest" (event_object x) = Some (JStr (ev_event_digest x))) as -> by done.
  assert (assoc "previous_digest" (event_object x) = Some (JStr (ev_previous_digest x))) as -> by done.
  cbn [from_option id py_str py_eq]. rewrite digest_core, Hd, !String.eqb_refl.
  cbn [negb orb raise_if mbind res_bind]. apply event_from_sorted.
Qed.

Lemma read_events_of (l : list LifecycleEvent) n previous :
  chained n previous l -> read_events previous (persisted_values l) = Ok l.
Proof.
  revert n previous. induction l as [|x l IH]; intros n previous; [done|].
  cbn [chained persisted_values map read_events]. intros (_ & <- & Hd & Hl).
  rewrite read_event_of by done. cbn [mbind res_bind]. fold (persisted_values l). by rewrite (IH _ _ Hl).
Qed.

(** ** The journal *)

Definition attempt_object (a : MutationAttempt) : list (string * json) :=
  attempt_members a ++ [("record_digest"%string, JStr (_digest (attempt_dict a)))].
Definition attempt_text (a : MutationAttempt) : string := json_dumps (JObj (attempt_object a)).
Definition attempt_ok (a : MutationAttempt) : Prop :=
  new_mutation_attempt a = Ok a /\ readable (JObj (attempt_object a)) = true.

Lemma attempt_keys (a : MutationAttempt) : NoDup (map fst (attempt_object a)).
Proof. cbn. decide_now. Qed.

Lemma digest_attempt (a : MutationAttempt) :
  _digest (JObj (assoc_del "record_digest" (sorted_items (attempt_object a)))) = _digest (attempt_dict a).
Proof. apply digest_without, attempt_keys. Qed.

Lemma sort_attempt (a : MutationAttempt) :
  sort_json (JObj (attempt_object a)) = JObj (sorted_items (attempt_object a)).
Proof.
  change (sort_json (JObj ?m)) with (JObj (sorted_items (map (fun p => (fst p, sort_json (snd p))) m))).
  do 2 f_equal. unfold attempt_object, attempt_members. cbn [app map fst snd]. cbn [sort_json]. by rewrite map_map.
Qed.

Lemma attempt_from_same (m m' : list (string * json)) : same_members m m' -> attempt_of m = attempt_of m'.
Proof. intros E. unfold attempt_of, str_item, item. by rewrite !E. Qed.

Lemma attempt_of_members (a : MutationAttempt) :
  new_mutation_attempt a = Ok a ->
  attempt_of (assoc_del "record_digest" (sorted_items (attempt_object a))) = Ok a.
Proof.
  intros Ha. rewrite (attempt_from_same _ (attempt_members a)).
  - unfold attempt_of, str_item, item, attempt_members. cbn -[new_mutation_attempt]. rewrite map_map. cbn [py_str].
    rewrite map_id. by destruct a.
  - intros k. destruct (decide ("record_digest"%string = k)) as [<-|Hne].
    + transitivity (@None json); [|done]. apply assoc_None. unfold assoc_del.
      rewrite list_elem_of_In, in_map_iff. intros ([k v] & E & [_ Hn]%filter_In).
      cbn in E, Hn. by rewrite E in Hn.
    + rewrite assoc_del_ne by done. rewrite <- (sorted_same _ (attempt_keys a)). unfold attempt_object.
      rewrite assoc_app. destruct (assoc k (attempt_members a)); [done|]. cbn [assoc].
      destruct (String.eqb_spec k "record_digest"); [by subst|done].
Qed.

Lemma read_attempt_text acc (a : MutationAttempt) :
  attempt_ok a -> acc !! ma_idempotency_key a = None ->
  read_attempt acc (attempt_text a) = Ok (<[ma_idempotency_key a := a]> acc).
Proof.
  intros [Ha Hr] Hk. unfold read_attempt, attempt_text. rewrite loads_dumps, sort_attempt by done. cbn [mbind res_bind].
  rewrite <- (sorted_same _ (attempt_keys a)).
  assert (assoc "record_digest" (attempt_object a) = Some (JStr (_digest (attempt_dict a)))) as -> by done.
  rewrite digest_attempt. cbn [from_option id py_str].
  rewrite String.eqb_refl. cbn [negb raise_if mbind res_bind].
  rewrite attempt_of_members by done. cbn [mbind res_bind]. by rewrite Hk.
Qed.

Definition attempt_map (l : list MutationAttempt) : gmap string MutationAttempt :=
  foldl (fun m a => <[ma_idempotency_key a := a]> m) ∅ l.

Record sound_journal (l : list MutationAttempt) (f : run_files) : Prop := {
  journal_text : default ""%string (journal_file f) = text_of_lines (map attempt_text l);
  journal_attempts : Forall attempt_ok l;
  journal_keys : NoDup (map ma_idempotency_key l)
}.

Lemma attempt_map_snoc l a : attempt_map (l ++ [a]) = <[ma_idempotency_key a := a]> (attempt_map l).
Proof. unfold attempt_map. by rewrite foldl_app. Qed.

Lemma attempt_map_dom l k : attempt_map l !! k = None <-> k ∉ map ma_idempotency_key l.
Proof.
  induction l as [|a l IH] using rev_ind; [by split; [intros _; apply not_elem_of_nil|]|].
  rewrite attempt_map_snoc, lookup_insert_None, IH, map_app. cbn [map].
  rewrite elem_of_app, list_elem_of_singleton. naive_solver.
Qed.

Lemma res_foldM_snoc {A B} (f : B -> A -> res B) (acc b : B) (l : list A) (x : A) :
  res_foldM f acc l = Ok b -> res_foldM f acc (l ++ [x]) = f b x.
Proof.
  revert acc. induction l as [|y l IH]; intros acc; cbn.
  - intros [= ->]. by destruct (f b x).
  - destruct (f acc y); [apply IH|discriminate].
Qed.
Lemma map_snoc {A B} (f : A -> B) (l : list A) (x : A) : map f (l ++ [x]) = map f l ++ [f x].
Proof. apply map_app. Qed.

Lemma read_attempts_text l :
  Forall attempt_ok l -> NoDup (map ma_idempotency_key l) ->
  res_foldM read_attempt ∅ (map attempt_text l) = Ok (attempt_map l).
Proof.
  induction l as [|a l IH] using rev_ind; [done|]. intros [Hl Ha]%Forall_app.
  rewrite !map_snoc. intros (Hn & Hd & _)%NoDup_app.
  rewrite (res_foldM_snoc _ _ _ _ _ (IH Hl Hn)). rewrite Forall_singleton in Ha.
  rewrite read_attempt_text; [by rewrite attempt_map_snoc|done|].
  apply attempt_map_dom. intros Hk. apply (Hd _ Hk), list_elem_of_singleton. done.
Qed.

Lemma filter_nonblank (l : list string) : Forall (fun t => nonblank t = true) l -> List.filter nonblank l = l.
Proof. induction 1 as [|t l Ht Hl IH]; [done|]. cbn. by rewrite Ht, IH. Qed.

Lemma read_journal l f :
  sound_journal l f -> _read_mutation_attempts (journal_file f) = Ok (attempt_map l).
Proof.
  intros [Ht Hl Hk].
  assert (Hp : Forall (fun t => printable t = true) (map attempt_text l)).
  { apply List.Forall_map. eapply Forall_impl; [exact Hl|]. intros a [_ Hr]. by apply dumps_printable. }
  assert (E : _read_mutation_attempts (Some (text_of_lines (map attempt_text l))) = Ok (attempt_map l)).
  { unfold _read_mutation_attempts. rewrite read_lines by done. cbn [mbind res_bind].
    rewrite splitlines_lines by done. rewrite filter_nonblank; [by apply read_attempts_text|].
    apply List.Forall_map. rewrite List.Forall_map in Hp. eapply Forall_impl; [exact Hp|].
    intros a Ha. by apply object_nonblank. }
  destruct (journal_file f) as [t|]; cbn in Ht; [by rewrite Ht|].
  rewrite <- Ht in E. cbn in E. by destruct l; [|apply (f_equal String.length) in Ht; cbn in Ht].
Qed.
(** ** The metadata *)

Lemma read_json_document (v : json) :
  readable v = true -> read_file (Some (json_document v)) ≫= json_loads default_hooks = Ok (sort_json v).
Proof. exact (read_back_document true v). Qed.

(** ** The instance before the replay *)

Lemma str_dict_of_object (m : list (string * json)) : str_dict_of (JObj m) = Ok m.
Proof.
  unfold str_dict_of. cbn [py_dict mbind res_bind].
  induction m as [|[k v] m IH]; [done|]. cbn [map res_mapM fst snd mbind res_bind] in *. by rewrite IH.
Qed.

Lemma root_from_dict (raw : list (string * json)) (name : string) (root : evidence_map) :
  assoc name raw = Some (str_dict root) -> root_from raw name = Ok root.
Proof.
  intros E. unfold root_from. rewrite E. cbn [from_option id]. unfold str_dict, strs. rewrite str_dict_of_object.
  cbn [mbind res_bind].
  assert (forall l : list (string * string),
    res_mapM (fun q : string * json => match snd q with
                                       | JStr digest => Ok (fst q, digest)
                                       | _ => if nonempty (fst q)
                                              then Raise (TypeError "expected string or bytes-like object")
                                              else Raise (ValueError "evidence trust roots require named canonical authorities")
                                       end) (map (fun p => (fst p, JStr (snd p))) l) = Ok l) as ->.
  { induction l as [|[k v] l IH]; [done|]. cbn [map res_mapM fst snd mbind res_bind] in *. by rewrite IH. }
  cbn [mbind res_bind]. by rewrite (list_to_map_items root) by (by rewrite reverse_Permutation).
Qed.

Definition trust_members (t : EvidenceTrustPolicy) : list (string * json) :=
  map (fun root => (fst root, str_dict (snd root))) (trust_roots t).

Lemma trust_keys t : NoDup (map fst (trust_members t)).
Proof. cbn. decide_now. Qed.

Lemma sort_trust t : sort_json (_trust_policy_payload t) = JObj (sorted_items (trust_members t)).
Proof.
  unfold _trust_policy_payload. fold (trust_members t).
  change (sort_json (JObj ?m)) with (JObj (sorted_items (map (fun p => (fst p, sort_json (snd p))) m))).
  do 2 f_equal. unfold trust_members. rewrite map_map. apply map_ext. intros root. cbn [fst snd].
  by rewrite sort_str_dict.
Qed.

Lemma trust_from_members (t : EvidenceTrustPolicy) :
  new_trust_policy t = Ok t -> trust_from (sorted_items (trust_members t)) = Ok t.
Proof.
  intros Ht. pose proof (sorted_same _ (trust_keys t)) as Es. unfold trust_from.
  rewrite (root_from_dict _ "adapter_authorities" (adapter_authorities t)), (root_from_dict _ "budget_owner_authorities" (budget_owner_authorities t)),
    (root_from_dict _ "repository_observers" (repository_observers t)), (root_from_dict _ "work_controllers" (work_controllers t)),
    (root_from_dict _ "production_approvers" (production_approvers t)), (root_from_dict _ "budget_meters" (budget_meters t)),
    (root_from_dict _ "formal_reviewers" (formal_reviewers t)), (root_from_dict _ "native_merge_gates" (native_merge_gates t)),
    (root_from_dict _ "finding_sources" (finding_sources t)), (root_from_dict _ "mutation_authorizers" (mutation_authorizers t)),
    (root_from_dict _ "live_observers" (live_observers t)), (root_from_dict _ "authority_observers" (authority_observers t)),
    (root_from_dict _ "integrity_monitors" (integrity_monitors t)) by (by rewrite <- Es).
  cbn [mbind res_bind]. by destruct t.
Qed.

Lemma load_metadata_reads metadata l initial run subject budget rp lp snapshot trust rt :
  assoc "run_id" metadata = Some (JStr run) -> assoc "subject_digest" metadata = Some (JStr subject) ->
  assoc "lifecycle_policy_digest" metadata = Some (JStr (policy_digest lp)) ->
  assoc "lifecycle_policy" metadata = Some (JObj snapshot) ->
  assoc "budget_policy" metadata = Some (JObj rp) ->
  assoc "budget_policy_digest" metadata = Some (JStr (_digest (JObj rp))) ->
  assoc "trust_policy" metadata = Some (JObj rt) -> rt <> [] ->
  assoc "trust_policy_digest" metadata = Some (JStr (_digest (JObj rt))) ->
  _budget_policy_from_dict rp = Ok budget -> trust_from rt = Ok trust ->
  _policy_from_payload snapshot (policy_digest lp) = Ok lp ->
  Forall (fun x => ev_policy_digest x = policy_digest lp) l ->
  ev_kind initial = "STATE_CREATED"%string -> ev_subject_digest initial = subject ->
  ev_evidence_refs initial !! "budget_policy_digest"%string = Some (_digest (JObj rp)) ->
  ev_evidence_refs initial !! "run_id_digest"%string = Some (_digest (JStr run)) ->
  ev_evidence_refs initial !! "metadata_digest"%string = Some (_digest (JObj metadata)) ->
  ev_evidence_refs initial !! "trust_policy_digest"%string = Some (_digest (JObj rt)) ->
  load_metadata metadata l initial = Ok (fresh_plane run subject (ev_target initial) budget lp trust l).
Proof.
  intros Hrun Hsub Hpd Hsnap Hbp Hbd Htp Hne Htd Hb Ht Hlp Hall Hk Hs R1 R2 R3 R4.
  assert (Heq : forall d, py_eq (JStr d) (JStr d) = true) by (intros; apply String.eqb_refl).
  unfold load_metadata, item, jget, str_item, item, ref_matches.
  rewrite Hbp. cbn [from_option_res mbind res_bind]. rewrite str_dict_of_object. cbn [mbind res_bind].
  rewrite Hbd, Heq, Hk, Hsub, Hs, Heq, R1, R2, Hrun, R3. cbn [opt_str from_option id py_str]. rewrite !Heq.
  cbn [String.eqb Ascii.eqb Bool.eqb negb orb raise_if mbind res_bind]. rewrite Hb, Htp.
  cbn [mbind res_bind from_option id]. rewrite str_dict_of_object. cbn [mbind res_bind].
  rewrite bool_decide_false by (by destruct rt).
  rewrite Htd, Heq, Ht. cbn [negb andb raise_if mbind res_bind]. rewrite Hsnap. cbn [as_obj from_option_res mbind res_bind].
  rewrite Hpd. cbn [from_option id py_str]. rewrite Hlp. cbn [mbind res_bind]. rewrite String.eqb_refl.
  assert (existsb (fun x => negb (String.eqb (ev_policy_digest x) (policy_digest lp))) l = false) as ->.
  { induction Hall as [|x l Hx Hl IH]; [done|]. cbn [existsb]. by rewrite Hx, String.eqb_refl. }
  cbn [negb orb raise_if mbind res_bind]. rewrite R4. cbn [opt_str]. by rewrite Heq.
Qed.

(** What the metadata of a run needs to be read back. *)
Definition snapshot_reads (lp : LifecyclePolicy) : Prop :=
  exists snapshot, sort_json (_policy_payload lp) = JObj snapshot /\
                   _policy_from_payload snapshot (policy_digest lp) = Ok lp.
Record run_ok (p : plane) (retention_days : Z) : Prop := {
  run_readable : readable (JObj (metadata_members p retention_days)) = true;
  run_budget : new_budget_policy (budget_policy p) = Ok (budget_policy p);
  run_trust : new_trust_policy (trust_policy p) = Ok (trust_policy p);
  run_policy : snapshot_reads (policy p)
}.

Definition sorted_metadata (p : plane) (retention_days : Z) (snapshot : list (string * json)) : list (string * json) :=
  [("run_id", JStr (run_id p)); ("subject_digest", JStr (subject_digest p));
   ("lifecycle_policy_digest", JStr (policy_digest (policy p))); ("lifecycle_policy", JObj snapshot);
   ("budget_policy", JObj (sorted_items (budget_members (budget_policy p))));
   ("budget_policy_digest", JStr (_digest (_budget_policy_payload (budget_policy p))));
   ("trust_policy", JObj (sorted_items (trust_members (trust_policy p))));
   ("trust_policy_digest", JStr (_digest (_trust_policy_payload (trust_policy p))));
   ("retention_days", JInt retention_days)]%string.

Lemma sort_metadata p days snapshot :
  sort_json (_policy_payload (policy p)) = JObj snapshot ->
  sort_json (JObj (metadata_members p days)) = JObj (sorted_items (sorted_metadata p days snapshot)).
Proof.
  intros Es. change (sort_json (JObj ?m)) with (JObj (sorted_items (map (fun p => (fst p, sort_json (snd p))) m))).
  unfold metadata_members. cbn [map fst snd]. rewrite Es, sort_budget, sort_trust. done.
Qed.

Lemma metadata_keys p days snapshot : NoDup (map fst (sorted_metadata p days snapshot)).
Proof. cbn. decide_now. Qed.

Lemma budget_digest_sorted b : _digest (JObj (sorted_items (budget_members b))) = _digest (_budget_policy_payload b).
Proof. rewrite <- sort_budget. apply digest_sort. Qed.
Lemma trust_digest_sorted t : _digest (JObj (sorted_items (trust_members t))) = _digest (_trust_policy_payload t).
Proof. rewrite <- sort_trust. apply digest_sort. Qed.

(** The first event of a run, on the instance that [create] begins with. *)
Definition created_event (p : plane) (retention_days : Z) : LifecycleEvent :=
  event_of p (created_entry p (JObj (metadata_members p retention_days))).

Lemma load_metadata_of p days snapshot l :
  run_ok p days -> sort_json (_policy_payload (policy p)) = JObj snapshot ->
  Forall (fun x => ev_policy_digest x = policy_digest (policy p)) l ->
  load_metadata (sorted_items (sorted_metadata p days snapshot)) l (created_event p days)
  = Ok (fresh_plane (run_id p) (subject_digest p) (state p) (budget_policy p) (policy p) (trust_policy p) l).
Proof.
  intros [Hr Hb Ht (snapshot' & Es' & Hp)] Es Hl. rewrite Es in Es'. injection Es' as <-.
  pose proof (sorted_same _ (metadata_keys p days snapshot)) as Em.
  assert (Hrefs : forall k, ev_evidence_refs (created_event p days) !! k = assoc k
    [("budget_policy_digest", _digest (_budget_policy_payload (budget_policy p)));
     ("run_id_digest", _digest (JStr (run_id p))); ("metadata_digest", _digest (JObj (metadata_members p days)));
     ("trust_policy_digest", _digest (_trust_policy_payload (trust_policy p)))]%string) by (intros; apply lookup_list).
  refine (load_metadata_reads _ l _ (run_id p) (subject_digest p) (budget_policy p)
            (sorted_items (budget_members (budget_policy p))) (policy p) snapshot (trust_policy p)
            (sorted_items (trust_members (trust_policy p))) _ _ _ _ _ _ _ _ _ _ _ Hp Hl _ _ _ _ _ _);
    try (rewrite <- Em); try (rewrite Hrefs).
  1-5: reflexivity.
  - by rewrite budget_digest_sorted.
  - reflexivity.
  - intros E. by apply sorted_items_nil in E.
  - by rewrite trust_digest_sorted.
  - by apply budget_from_members.
  - by apply trust_from_members.
  - reflexivity.
  - reflexivity.
  - by rewrite budget_digest_sorted.
  - reflexivity.
  - rewrite <- (sort_metadata p days snapshot Es), digest_sort. reflexivity.
  - by rewrite trust_digest_sorted.
Qed.

End Reading.

(** * Snapshots of lifecycle policies *)

#[local] Opaque _digest.

Section Snapshots.
Context `{Unicode}.

Lemma strings_from_strs (l : list string) : strings_from (JStrs l) = Ok l.
Proof. unfold strings_from, JStrs. cbn. rewrite map_map. cbn. by rewrite map_id. Qed.

(** A rule of a current policy: its guards are a set that the code supports, and
    its action is one of the mutations. *)
Definition rule_supported (r : TransitionRule) : bool :=
  bool_decide (sorted_set (guards r) = guards r) && forallb (fun g => str_in g supported_guards) (guards r)
  && match mutation_action r with Some action => has_key action _MUTATION_SUBJECT_FIELDS | None => true end.

Section Version.
Variable version : string.
Hypothesis current : String.eqb version "phase-zero-v1" = false.

Definition rule_members (r : TransitionRule) : list (string * json) :=
  [("source", JStr (lifecycle_value (source r))); ("target", JStr (lifecycle_value (target r)));
   ("reason", JStr (reason r)); ("required_evidence", JStrs (required_evidence r));
   ("guards", JStrs (guards r)); ("permission", JStr (permission r));
   ("mutation_action", match mutation_action r with Some m => JStr m | None => JNull end);
   ("mutation_subject_fields", JStrs (fields_of _MUTATION_SUBJECT_FIELDS (mutation_action r)))]%string.

Lemma rule_members_payload r : rule_payload version _MUTATION_SUBJECT_FIELDS r = JObj (rule_members r).
Proof. unfold rule_payload. by rewrite current. Qed.

Lemma rule_keys r : NoDup (map fst (rule_members r)).
Proof. cbn. decide_now. Qed.

Lemma sort_strs l : sort_json (JStrs l) = JStrs l.
Proof. unfold JStrs. cbn [sort_json]. by rewrite map_map. Qed.

Lemma sort_rule r : sort_json (JObj (rule_members r)) = JObj (sorted_items (rule_members r)).
Proof.
  change (sort_json (JObj ?m)) with (JObj (sorted_items (map (fun p => (fst p, sort_json (snd p))) m))).
  unfold rule_members. cbn [map fst snd]. rewrite !sort_strs. by destruct (mutation_action r).
Qed.

Lemma rule_from_members r :
  rule_supported r = true -> rule_from (JObj (sorted_items (rule_members r))) = Ok r.
Proof.
  unfold rule_supported. intros [[Hg%bool_decide_eq_true _]%andb_prop _]%andb_prop.
  pose proof (sorted_same _ (rule_keys r)) as Es. unfold rule_from, str_item, item, jget. rewrite <- !Es.
  unfold rule_members. cbn -[strings_from JStrs lifecycle_value state_of].
  rewrite !state_of_value, !strings_from_strs. cbn -[strings_from JStrs lifecycle_value state_of]. rewrite Hg.
  destruct r as [? ? ? ? ? ? []]; done.
Qed.

Lemma schema_same r :
  rule_supported r = true ->
  schema_differs version _MUTATION_SUBJECT_FIELDS (JObj (sorted_items (rule_members r))) = Ok false.
Proof.
  intros Hr. unfold schema_differs. rewrite current. cbn [negb]. rewrite orb_true_r. unfold jget.
  rewrite <- !(sorted_same _ (rule_keys r)). unfold rule_members. cbn -[strings_from JStrs fields_of].
  rewrite strings_from_strs. cbn -[fields_of]. destruct (mutation_action r); cbn -[fields_of]; by rewrite bool_decide_true.
Qed.

(** The snapshot of a current policy. *)
Definition snapshot (l : list TransitionRule) : list (string * json) :=
  sorted_items [("version", JStr version); ("rules", JArr (map (fun r => JObj (sorted_items (rule_members r))) l))]%string.

Lemma sort_payload l : sort_json (policy_payload version _MUTATION_SUBJECT_FIELDS l) = JObj (snapshot l).
Proof.
  unfold policy_payload, snapshot. cbn [sort_json map fst snd]. do 4 f_equal. do 2 f_equal. rewrite map_map.
  apply map_ext. intros r. by rewrite rule_members_payload, sort_rule.
Qed.

Lemma mapM_rules l :
  forallb rule_supported l = true -> res_mapM rule_from (map (fun r => JObj (sorted_items (rule_members r))) l) = Ok l.
Proof.
  induction l as [|r l IH]; [done|]. cbn [forallb map res_mapM]. intros [Hr Hl]%andb_prop.
  by rewrite rule_from_members, IH.
Qed.

Lemma any_schema l :
  forallb rule_supported l = true ->
  res_any (schema_differs version _MUTATION_SUBJECT_FIELDS) (map (fun r => JObj (sorted_items (rule_members r))) l) = Ok false.
Proof.
  induction l as [|r l IH]; [done|]. cbn [forallb map res_any]. intros [Hr Hl]%andb_prop.
  rewrite schema_same by done. cbn [mbind res_bind]. by apply IH.
Qed.

Lemma none_unsupported (f : TransitionRule -> bool) l :
  forallb rule_supported l = true -> (forall r, rule_supported r = true -> f r = false) -> existsb f l = false.
Proof.
  intros Hl Hf. induction l as [|r l IH]; [done|]. cbn in *. apply andb_prop in Hl as [Hr Hl].
  by rewrite Hf, IH.
Qed.

Theorem read_snapshot_of l d :
  forallb rule_supported l = true ->
  read_snapshot (snapshot l) d = new_policy version l _MUTATION_SUBJECT_FIELDS None.
Proof.
  intros Hl. assert (Hk : same_members [("version", JStr version); ("rules", JArr (map (fun r => JObj (sorted_items (rule_members r))) l))]%string (snapshot l)).
  { apply sorted_same. cbn. decide_now. }
  unfold read_snapshot, str_item, item. rewrite <- !Hk. cbn [assoc String.eqb Ascii.eqb Bool.eqb from_option_res mbind res_bind py_str iterate].
  rewrite mapM_rules by done. cbn [mbind res_bind].
  rewrite (none_unsupported (fun r => negb (forallb _ _)) l Hl), (none_unsupported _ l Hl).
  - rewrite current. cbn [raise_if mbind res_bind]. rewrite any_schema by done. done.
  - unfold rule_supported. intros r [_ Hr]%andb_prop. destruct (mutation_action r); [by rewrite Hr|done].
  - unfold rule_supported. intros r [[_ Hr]%andb_prop _]%andb_prop. by rewrite Hr.
Qed.
End Version.

(** The policies of the current versions. *)
Theorem snapshot_reads_policy version l lp :
  String.eqb version "phase-zero-v1" = false -> forallb rule_supported l = true ->
  new_policy version l _MUTATION_SUBJECT_FIELDS None = Ok lp -> snapshot_reads lp.
Proof.
  intros Hv Hl Hp. exists (snapshot version l). unfold _policy_payload, _policy_from_payload.
  rewrite read_snapshot_of, Hp by done. split; [|done].
  unfold new_policy in Hp. destruct (negb _); [done|]. injection Hp as <-. cbn [policy_version rules].
  by apply sort_payload.
Qed.

Lemma phase_four_supported : forallb rule_supported phase_four_rules = true.
Proof. decide_now. Qed.
Lemma phase_zero_supported : forallb rule_supported phase_zero_rules = true.
Proof. decide_now. Qed.

Lemma phase_four_readable : readable (policy_payload "phase-four-v1" _MUTATION_SUBJECT_FIELDS phase_four_rules) = true.
Proof. vm_compute. reflexivity. Qed.
Lemma phase_zero_readable : readable (policy_payload "phase-zero-v2" _MUTATION_SUBJECT_FIELDS phase_zero_rules) = true.
Proof. vm_compute. reflexivity. Qed.

Lemma phase_four_snapshot lp : PHASE_FOUR_POLICY = Ok lp -> snapshot_reads lp.
Proof. exact (snapshot_reads_policy "phase-four-v1" phase_four_rules lp eq_refl phase_four_supported). Qed.
Lemma phase_zero_snapshot lp : PHASE_ZERO_POLICY = Ok lp -> snapshot_reads lp.
Proof. exact (snapshot_reads_policy "phase-zero-v2" phase_zero_rules lp eq_refl phase_zero_supported). Qed.

(** The policies of the program survive the metadata of a run: the text of
    the payload reads back, and what is read is taken for the same policy, with
    its rules, its schemas and its digest. *)
Theorem current_policies_read_back lp :
  PHASE_FOUR_POLICY = Ok lp \/ PHASE_ZERO_POLICY = Ok lp ->
  exists snapshot, json_loads default_hooks (json_dumps (_policy_payload lp)) = Ok (JObj snapshot) /\
                   _policy_from_payload snapshot (policy_digest lp) = Ok lp.
Proof.
  intros Hlp. assert (Hs : snapshot_reads lp /\ readable (_policy_payload lp) = true).
  { destruct Hlp as [Hlp|Hlp].
    - split; [by apply phase_four_snapshot|]. unfold PHASE_FOUR_POLICY, new_policy in Hlp.
      destruct (negb _); [discriminate|]. injection Hlp as <-. exact phase_four_readable.
    - split; [by apply phase_zero_snapshot|]. unfold PHASE_ZERO_POLICY, new_policy in Hlp.
      destruct (negb _); [discriminate|]. injection Hlp as <-. exact phase_zero_readable. }
  destruct Hs as [(snapshot & Es & Hp) Hr]. exists snapshot. by rewrite loads_dumps, Es.
Qed.
End Snapshots.

#[local] Existing Instance ascii_unicode.

Lemma current_policies_read_back_witness :
  exists lp snapshot, PHASE_FOUR_POLICY = Ok lp /\ _policy_from_payload snapshot (policy_digest lp) = Ok lp.
Proof.
  assert (Hlp : exists lp, PHASE_FOUR_POLICY = Ok lp).
  { destruct (new_policy_built "phase-four-v1" phase_four_rules _MUTATION_SUBJECT_FIELDS None phase_four_distinct)
      as (lp & E & _). exists lp. exact E. }
  destruct Hlp as [lp Hlp]. destruct (current_policies_read_back lp (or_introl Hlp)) as (snapshot & _ & Hs).
  exists lp, snapshot. split; [exact Hlp|exact Hs].
Defined.
