(* ===== verification/ControlRun.v ===== *)
(** * The lifecycle control plane: runs

    The operations of an instance as calls, and what ties the instances of a run
    to the files that they share: every operation leaves both sound, and the
    files only grow. *)
From Stdlib Require Import Ascii String.
From S2P Require Import Prelude Sha256 Json JsonText JsonIndent JsonFacts JsonAscii PyStr PyConv TextFacts Lifecycle.
From S2P Require Import LifecycleRules ControlData ControlEvidence ControlLedger PolicySnapshots.
From S2P Require Import ControlGuards Control ControlLoad ControlFacts ControlReplay.
From S2P Require Import ControlDenials ControlLoadFacts.

#[local] Opaque _digest.

(** ** Calls *)

Inductive call : Type :=
  | Transition (target : LifecycleState) (context : TransitionContext) (why : string)
  | Resume (context : TransitionContext)
  | Prejournal (attempt : MutationAttempt) (authorization : MutationAuthorization) (evidence : option evidence_map)
  | RecordResult (attempt : MutationAttempt) (status : string) (result_digest : option string)
      (adapter_evidence : option AdapterResultEvidence)
  | RecordObservation (source subject payload_digest signature observed_at : string)
  | IssueChallenge (token : string)
  | ExtendBudget (proposed : BudgetPolicy) (authorization : option BudgetExtensionAuthorization)
      (authority : option AuthoritySnapshot) (observed_at : string).

Section Runs.
Context `{Datetime} `{Unicode}.

Definition quietly {A} (m : op A) : op unit := _ ← m; mret tt.

Definition perform (e : control_env) (k : call) : op unit :=
  match k with
  | Transition target c why => quietly (transition e target c why)
  | Resume c => quietly (resume e c)
  | Prejournal attempt authorization evidence => quietly (prejournal_mutation e attempt authorization evidence)
  | RecordResult attempt status result_digest a => quietly (record_mutation_result e attempt status result_digest a)
  | RecordObservation source subject payload_digest signature observed_at =>
      quietly (record_observation e source subject payload_digest signature observed_at)
  | IssueChallenge token => quietly (issue_budget_extension_challenge e token)
  | ExtendBudget proposed authorization authority observed_at =>
      admit_budget_policy e proposed authorization authority observed_at
  end.

(** What the arguments are: dataclasses that their [__post_init__] let pass,
    values that JSON can carry, and no evidence under the name that [load] takes
    for the mark of a used result. *)
Definition call_ok (k : call) : Prop :=
  match k with
  | Transition _ c _ | Resume c => got consumed_key_name (tc_evidence c) = ""%string
  | Prejournal attempt _ _ => attempt_ok attempt
  | RecordResult _ _ result_digest a =>
      told_apart result_digest = true /\
      match a with Some x => readable (sorted_names (ae_capabilities x)) = true | None => True end
  | RecordObservation _ _ _ _ _ | IssueChallenge _ => True
  | ExtendBudget proposed _ _ _ =>
      new_budget_policy proposed = Ok proposed /\ readable (_budget_policy_payload proposed) = true
  end.

(** ** What an operation writes *)

(** The entries that the operations of an instance append, each with the checks
    that it passed, and the instance after it but for its list of events. *)
Inductive written (e : control_env) (journal : gmap string MutationAttempt) (p : plane) : entry -> plane -> Prop :=
  | Applied target c why d :
      decide_transition e p (Ok journal) target why c = Proceed d -> got consumed_key_name (tc_evidence c) = ""%string ->
      written e journal p (applied_entry p target c why d) (adopt target d p)
  | Refused target c why detail u :
      persisted_usage e p c = Ok u -> got consumed_key_name (tc_evidence c) = ""%string ->
      written e journal p (denial p target c why detail u) (set_budget_usage u p)
  | Resumed c recorded u :
      decide_resume e p c = Proceed (recorded, u) -> got consumed_key_name (tc_evidence c) = ""%string ->
      written e journal p (resumed_entry p c recorded u) (set_budget_usage u (set_state recorded p))
  | Recorded attempt status result_digest a :
      journal !! ma_idempotency_key attempt = Some attempt -> attempt_ok attempt ->
      adapter_valid e p attempt status result_digest a = true ->
      sealed_before (mutation_results p !! ma_idempotency_key attempt) attempt status result_digest = Ok None ->
      call_ok (RecordResult attempt status result_digest (Some a)) ->
      written e journal p (result_entry p attempt status result_digest a)
        (add_result (ma_idempotency_key attempt)
           {| mr_attempt_id := ma_id attempt; mr_idempotency_key := ma_idempotency_key attempt;
              mr_status := status; mr_result_digest := result_digest |} p)
  | Observed source payload_digest signature observed_at :
      let authority_digest := got source (live_observers (trust_policy p)) in
      nonempty authority_digest = true ->
      _verify_external_evidence e source authority_digest
        (strs [("source", source); ("subject_digest", subject_digest p); ("payload_digest", payload_digest);
               ("observed_at", observed_at)]%string) signature = true ->
      written e journal p (observation_entry p source payload_digest signature authority_digest observed_at) p
  | Extended proposed a authority observed_at :
      extension_owner_valid e p proposed a authority observed_at = Ok tt ->
      extension_times_valid e p a authority observed_at = Ok tt ->
      extension_amounts_valid p proposed a = Ok tt ->
      call_ok (ExtendBudget proposed (Some a) (Some authority) observed_at) ->
      written e journal p (extension_entry p proposed a observed_at) (set_challenge None (set_budget_policy proposed p)).

Lemma adopt_keeps target d p :
  events (adopt target d p) = events p /\ mutation_attempts (adopt target d p) = mutation_attempts p /\
  policy (adopt target d p) = policy p /\ trust_policy (adopt target d p) = trust_policy p /\
  subject_digest (adopt target d p) = subject_digest p /\ run_id (adopt target d p) = run_id p /\
  budget_usage (adopt target d p) = de_usage d.
Proof. unfold adopt. cbn. by repeat case_match. Qed.

(** What no operation changes. *)
Lemma written_keeps e journal p x q :
  written e journal p x q -> usage_ok (budget_usage p) ->
  events q = events p /\ mutation_attempts q = mutation_attempts p /\ policy q = policy p /\
  trust_policy q = trust_policy p /\ subject_digest q = subject_digest p /\ run_id q = run_id p /\
  usage_le (budget_usage p) (budget_usage q) /\ usage_ok (budget_usage q).
Proof.
  intros Hx Hu. destruct Hx as [target c why d E _|target c why detail u E _|c recorded u E _| | |];
    cbn [set_budget_usage set_state add_result set_challenge set_budget_policy events mutation_attempts policy
         trust_policy subject_digest run_id budget_usage].
  - destruct (adopt_keeps target d p) as (-> & -> & -> & -> & -> & -> & ->).
    destruct (decided_usage _ _ _ _ _ _ _ E Hu). by split_and!.
  - destruct (persisted_usage_le _ _ _ _ E Hu). by split_and!.
  - destruct (resumed_usage _ _ _ _ _ E). by split_and!.
  - by split_and!.
  - by split_and!.
  - by split_and!.
Qed.

Lemma attempt_named a : attempt_ok a -> nonempty (ma_id a) = true /\ nonempty (ma_idempotency_key a) = true.
Proof. intros [Ha _]. unfold new_mutation_attempt in Ha. simp_res. by bool_simp. Qed.

(** Replaying what an operation wrote does what the operation did. *)
Theorem written_replays e journal p x q e' l m :
  written e journal p x q -> usage_ok (budget_usage p) -> evidence_verifier e' = evidence_verifier e -> journal ⊆ m ->
  replay_event e' (seen l m p) (event_of p x) = Ok (seen l m q).
Proof.
  intros Hx Hu He Hj.
  destruct Hx as [target c why d E _|target c why detail u E Hc|c recorded u E Hc
                 |attempt status result_digest a Hk Ha Hv _ [Ht Hcaps]
                 |source payload_digest signature observed_at authority_digest _ _
                 |proposed a authority observed_at Ho _ _ [Hb Hr]].
  - by eapply transition_replays.
  - by eapply denial_replays.
  - by eapply resume_replays.
  - destruct (attempt_named attempt Ha) as [Hid Hkey].
    refine (result_replays e' l m e p attempt status result_digest a Hv He Ht Hcaps _ Hid Hkey).
    by eapply lookup_weaken.
  - apply observation_replays.
  - refine (extension_replays e' l m p proposed a observed_at Hb Hr _).
    unfold extension_owner_valid in Ho. simp_res. by bool_simp.
Qed.

(** ** Sound files and instances *)

(** A run begins with an instance, and every instance of the run has the same
    verifier of evidence. *)
Variable verifier : option (string -> string -> json -> string -> option bool).
Variable p0 : plane.
Variable retention_days : Z.

(** The events, replayed from the first instance on, give the instance: for any
    journal that holds at least [journal]. *)
Definition replayed (journal : gmap string MutationAttempt) (evs : list LifecycleEvent) (p : plane) : Prop :=
  forall e l m, evidence_verifier e = verifier -> journal ⊆ m ->
    res_foldM (replay_event e) (seen l m p0) (tail evs) = Ok (seen l m p).

(** An instance of the run: it knows the events up to some point, and is what
    they make of it. *)
Record follows (l : list LifecycleEvent) (journal : gmap string MutationAttempt) (p : plane) : Prop := {
  fo_events : events p `prefix_of` l;
  fo_created : head (events p) = Some (created_event p0 retention_days);
  fo_attempts : mutation_attempts p ⊆ journal;
  fo_usage : usage_ok (budget_usage p);
  fo_run : policy p = policy p0 /\ trust_policy p = trust_policy p0
           /\ subject_digest p = subject_digest p0 /\ run_id p = run_id p0;
  fo_replay : replayed journal (events p) p
}.

(** Every event after the first is one that an operation wrote, on an instance
    that knew exactly the events before it. *)
Definition lawful (l : list LifecycleEvent) (journal : gmap string MutationAttempt) : Prop :=
  forall l1 x l2, l = l1 ++ x :: l2 -> l1 <> [] ->
    exists e known p y q, evidence_verifier e = verifier /\ known ⊆ journal /\ follows l1 known p /\ events p = l1 /\
                          written e known p y q /\ x = event_of p y.

(** The files of a run with the events [l] and the attempts [attempts]; the events
    make an instance. *)
Record shared (l : list LifecycleEvent) (attempts : list MutationAttempt) (f : run_files) : Prop := {
  sh_ledger : sound_ledger l f;
  sh_created : head l = Some (created_event p0 retention_days);
  sh_metadata : metadata_file f = Some (json_document (JObj (metadata_members p0 retention_days)));
  sh_journal : sound_journal attempts f;
  sh_digests : Forall (fun x => ev_policy_digest x = policy_digest (policy p0)) l;
  sh_lawful : lawful l (attempt_map attempts);
  sh_current : exists p, follows l (attempt_map attempts) p /\ events p = l
}.

Lemma lawful_mono l journal journal' : journal ⊆ journal' -> lawful l journal -> lawful l journal'.
Proof.
  intros Hj Hl l1 x l2 E Hne. destruct (Hl l1 x l2 E Hne) as (e & known & p & y & q & Hv & Hk & H').
  exists e, known, p, y, q. split; [done|]. split; [by etrans|done].
Qed.

Lemma lawful_snoc l journal e p y q :
  lawful l journal -> evidence_verifier e = verifier -> follows l journal p -> events p = l ->
  written e journal p y q -> lawful (l ++ [event_of p y]) journal.
Proof.
  intros Hl Hv Hp He Hw l1 x l2 E Hne. destruct l2 as [|z l2 _] using rev_ind.
  - apply app_inj_tail in E as [<- <-]. exists e, journal, p, y, q. by split_and!.
  - change (l1 ++ x :: l2 ++ [z]) with (l1 ++ (x :: l2) ++ [z]) in E. rewrite app_assoc in E.
    apply app_inj_tail in E as [-> _]. by apply (Hl l1 x l2).
Qed.

Lemma replayed_mono journal journal' evs p : journal ⊆ journal' -> replayed journal evs p -> replayed journal' evs p.
Proof. intros Hj Hp e l m Hv Hm. apply Hp; [done|]. by etrans. Qed.

Lemma follows_mono l l' journal journal' p :
  l `prefix_of` l' -> journal ⊆ journal' -> follows l journal p -> follows l' journal' p.
Proof. intros Hl Hj [He Hc Ha Hu Hr Hp]. split; try done; [by etrans..|by eapply replayed_mono]. Qed.

(** ** What an operation does *)

(** After an operation: the files and the instance are sound again, and the
    files have only grown, by an event of an instance that knew all of them. *)
Definition good (l : list LifecycleEvent) (attempts : list MutationAttempt) (s : control) : Prop :=
  shared l attempts (files s) /\ follows l (attempt_map attempts) (cp s).
Definition grown (l l' : list LifecycleEvent) (s s' : control) : Prop :=
  l' = l \/ (events (cp s) = l /\ events (cp s') = l' /\ exists x, l' = l ++ [x]).
Definition better (l : list LifecycleEvent) (attempts : list MutationAttempt) (s s' : control) : Prop :=
  exists l' attempts', good l' attempts' s' /\ grown l l' s s' /\ attempt_map attempts ⊆ attempt_map attempts'.

Lemma good_better l attempts s s' : good l attempts s' -> better l attempts s s'.
Proof. exists l, attempts. split_and!; [done|by left|done]. Qed.
#[local] Hint Resolve good_better : core.

(** An instance that writes knows all the events. *)
Lemma fresh_current l p expected : events p `prefix_of` l -> fresh_writer p l expected -> events p = l.
Proof.
  intros [k ->] (Hlen & _). rewrite length_app in Hlen. destruct k as [|x k]; [by rewrite app_nil_r|].
  cbn in Hlen. lia.
Qed.

(** An operation that wrote one event. *)
Lemma good_event e l attempts s x q p' :
  good l attempts s -> fresh_writer (cp s) l None -> event_ok (event_of (cp s) x) ->
  evidence_verifier e = verifier -> written e (attempt_map attempts) (cp s) x q ->
  p' = set_events (events (cp s) ++ [event_of (cp s) x]) q ->
  better l attempts s {| files := with_line (event_of (cp s) x) (files s); cp := p' |}.
Proof.
  intros [Hs Hp] Hf Hx Hv Hw ->. pose proof (fresh_current _ _ _ (fo_events _ _ _ Hp) Hf) as El.
  pose proof Hs as [Hl Hc Hm [Hjt Hja Hjk] Hd Hlaw _]. pose proof Hp as [_ Hc' Ha Hu Hr Hrep].
  destruct (written_keeps _ _ _ _ _ Hw Hu) as (_ & Ema & Ep & Et & Es & Er & _ & Hu').
  assert (Hfo : follows (l ++ [event_of (cp s) x]) (attempt_map attempts) (set_events (events (cp s) ++ [event_of (cp s) x]) q)).
  { split; cbn [set_events events mutation_attempts budget_usage policy trust_policy subject_digest run_id];
      rewrite ?Ema, ?Ep, ?Et, ?Es, ?Er, ?El; try done.
    - by destruct l.
    - intros e' l' m Hv' Hsub. destruct l as [|y ys] eqn:E; [done|]. cbn [app tail].
      rewrite (res_foldM_snoc _ _ (seen l' m (cp s))); [|rewrite El in Hrep; by apply (Hrep e' l' m)].
      refine (written_replays e (attempt_map attempts) (cp s) x q e' l' m Hw Hu _ Hsub). congruence. }
  exists (l ++ [event_of (cp s) x]), attempts. split; [split|]; [|done|].
  - split; try done.
    + by apply (append_sound x s l None).
    + by destruct l.
    + apply Forall_app. split; [done|]. constructor; [|done]. cbn. by destruct Hr as (-> & _).
    + by eapply lawful_snoc.
    + eexists. split; [exact Hfo|]. cbn. by rewrite El.
  - split; [|done]. right. split_and!; [done| |eauto]. cbn. by rewrite El.
Qed.

(** What an append leaves: nothing, or a line and its event. *)
Lemma append_locked_then {B} e x expected extension (k : LifecycleEvent -> op B) l attempts s r s' :
  interrupted_write e = None -> good l attempts s -> (_append_locked e x expected extension ≫= k) s = (r, s') ->
  s' = s \/
  (fresh_writer (cp s) l expected /\
   k (event_of (cp s) x)
     {| files := with_line (event_of (cp s) x) (files s); cp := appended (event_of (cp s) x) extension (cp s) |}
   = (r, s')).
Proof.
  intros Hw [Hi _] E.
  pose proof (append_locked_spec e x expected extension s l Hw (sh_ledger _ _ _ Hi)) as Hs. cbv zeta in Hs.
  destruct (decide (fresh_writer (cp s) l expected)) as [Hf|].
  - open_bind E; rewrite Hs in E0; [|done]. injection E0 as <- <-. by right.
  - destruct Hs as [detail Hs]. left. by open_bind E; rewrite Hs in E0; injection E0.
Qed.

Lemma append_then {B} e x expected extension (k : LifecycleEvent -> op B) l attempts s r s' :
  interrupted_write e = None -> good l attempts s -> (_append e x expected extension ≫= k) s = (r, s') ->
  s' = s \/
  (fresh_writer (cp s) l expected /\
   k (event_of (cp s) x)
     {| files := with_line (event_of (cp s) x) (files s); cp := appended (event_of (cp s) x) extension (cp s) |}
   = (r, s')).
Proof.
  intros Hw Hi E. unfold _append, _exclusive_lock in E. destruct (run_directory e).
  - by eapply append_locked_then.
  - left. by injection E.
  - left. by injection E.
Qed.

Lemma fresh_plain p l expected : fresh_writer p l expected -> fresh_writer p l None.
Proof. intros (? & ? & _). by split_and!. Qed.

(** The event that was just written is one that JSON carries. *)
Lemma last_ok p x : Forall event_ok (events p ++ [x]) -> event_ok x.
Proof. intros [_ Hx]%Forall_app. by inversion Hx. Qed.

Lemma deny_good {A} e target c why detail l attempts s (r : res A) s' :
  evidence_verifier e = verifier -> interrupted_write e = None -> good l attempts s -> got consumed_key_name (tc_evidence c) = ""%string ->
  _deny e target c why detail s = (r, s') -> Forall event_ok (events (cp s')) -> better l attempts s s'.
Proof.
  intros Hv Hw Hi Hc E Hok. unfold _deny in E. rewrite get_bind in E.
  destruct (persisted_usage e (cp s) c) as [u|err] eqn:Eu; cbn [lift_res] in E;
    [rewrite lift_Ok_bind in E|injection E as _ <-; auto].
  eapply append_then in E as [->|[Hf E]]; [auto| |done..].
  injection E as _ <-. cbn in Hok. apply last_ok in Hok.
  by apply (good_event e l attempts s _ (set_budget_usage u (cp s))); try done; apply Refused.
Qed.

Lemma got_same c c' : same_but_source c c' -> got consumed_key_name (tc_evidence c') = got consumed_key_name (tc_evidence c).
Proof. intros (_ & _ & Hl). unfold got. by rewrite Hl. Qed.

Lemma transition_good e target c why l attempts s r s' :
  evidence_verifier e = verifier -> interrupted_write e = None -> good l attempts s -> got consumed_key_name (tc_evidence c) = ""%string ->
  transition e target c why s = (r, s') -> Forall event_ok (events (cp s')) -> better l attempts s s'.
Proof.
  intros Hv Hw Hi Hc E Hok. unfold transition, _exclusive_lock in E.
  destruct (run_directory e); [|injection E as _ <-; auto..].
  unfold _transition_locked in E. rewrite !get_bind in E.
  destruct (decide_transition e (cp s) _ target why c) as [d|t c' detail|x] eqn:Ed; cbn [carry_out] in E.
  - eapply append_then in E as [->|[Hf E]]; [auto| |done..].
    set (event := event_of (cp s) (applied_entry (cp s) target c why d)) in *.
    assert (s' = {| files := with_line event (files s);
                    cp := set_events (events (cp s) ++ [event]) (adopt target d (cp s)) |}) as ->.
    { transitivity {| files := with_line event (files s); cp := adopt target d (appended event None (cp s)) |}.
      - cbn in E. destruct (String.eqb (de_kind d) "COMPLETION_CLAIMED"), (purge_error e); injection E as _ <-; done.
      - f_equal. unfold adopt. cbn. by repeat case_match. }
    cbn [cp set_events events] in Hok. apply last_ok in Hok.
    apply (good_event e l attempts s _ (adopt target d (cp s))); try done. apply Applied; [|done].
    by rewrite <- (read_journal attempts (files s)) by apply Hi.
  - eapply deny_good in E; [exact E|done..| |done]. rewrite (got_same c); [done|]. by eapply denied_context.
  - injection E as _ <-. auto.
Qed.

Lemma resume_good e c l attempts s r s' :
  evidence_verifier e = verifier -> interrupted_write e = None -> good l attempts s -> got consumed_key_name (tc_evidence c) = ""%string ->
  resume e c s = (r, s') -> Forall event_ok (events (cp s')) -> better l attempts s s'.
Proof.
  intros Hv Hw Hi Hc E Hok. unfold resume in E. rewrite get_bind in E.
  pose proof (within_resume e (cp s) c) as Hwithin.
  destruct (decide_resume e (cp s) c) as [[recorded u]|t c' detail|x] eqn:Ed; cbn [carry_out] in E.
  - eapply append_then in E as [->|[Hf E]]; [auto| |done..].
    injection E as _ <-. cbn in Hok. apply last_ok in Hok.
    apply (good_event e l attempts s _ (set_budget_usage u (set_state recorded (cp s)))); try done. by apply Resumed.
  - cbn in Hwithin. subst c'. by eapply deny_good in E.
  - injection E as _ <-. auto.
Qed.
(** A computation without a write. *)
Lemma lift_then {A B} (m : res A) (k : A -> op B) s r s' :
  (lift_res m ≫= k) s = (r, s') -> s' = s \/ exists a, m = Ok a /\ k a s = (r, s').
Proof. destruct m; cbn; [eauto|]. intros [= _ <-]. auto. Qed.
Ltac open_lift H :=
  let a := fresh "a" in let E := fresh "E" in
  apply lift_then in H as [->|(a & E & H)]; [auto|].

(** An operation that leaves the files alone. *)
Lemma good_quiet l attempts s p' :
  good l attempts s -> events p' = events (cp s) -> mutation_attempts p' = mutation_attempts (cp s) ->
  policy p' = policy (cp s) -> trust_policy p' = trust_policy (cp s) -> subject_digest p' = subject_digest (cp s) ->
  run_id p' = run_id (cp s) -> budget_usage p' = budget_usage (cp s) ->
  (forall l m, seen l m p' = seen l m (cp s)) -> good l attempts {| files := files s; cp := p' |}.
Proof.
  intros [Hs [He Hc Ha Hu Hr Hp]] E1 E2 E3 E4 E5 E6 E7 E8. split; [done|].
  split; cbn [cp]; rewrite ?E1, ?E2, ?E3, ?E4, ?E5, ?E6, ?E7; try done.
  intros e l' m Hv Hm. rewrite E8. by apply Hp.
Qed.

(** An attempt that joins the journal. *)
Lemma good_attempt l attempts s f' a attempts' :
  good l attempts s -> ledger_file f' = ledger_file (files s) -> metadata_file f' = metadata_file (files s) ->
  sound_journal attempts' f' -> attempt_map attempts ⊆ attempt_map attempts' ->
  attempt_map attempts' !! ma_idempotency_key a = Some a ->
  better l attempts s {| files := f'; cp := add_attempt a (cp s) |}.
Proof.
  intros [[[Ht Hok Hch] Hc Hm _ Hd Hlaw [q Hq]] [He Hc' Ha Hu Hr Hp]] E1 E2 Hj Hsub Hk.
  exists l, attempts'. split; [|by split; [left|]]. split; split; cbn [files cp]; try done.
  - split; [|done..]. by rewrite E1.
  - by rewrite E2.
  - by eapply lawful_mono.
  - destruct Hq as [Hfo Hev]. exists q. split; [|done]. by eapply follows_mono; [|exact Hsub|exact Hfo].
  - apply insert_subseteq_l; [done|]. by etrans.
  - by eapply replayed_mono.
Qed.

Lemma journal_snoc attempts f a :
  sound_journal attempts f -> attempt_ok a -> attempt_map attempts !! ma_idempotency_key a = None ->
  sound_journal (attempts ++ [a]) (set_journal_file (default ""%string (journal_file f) +:+ journal_line a) f).
Proof.
  intros [Ht Hok Hk] Ha Hn. split; cbn [set_journal_file journal_file default].
  - rewrite Ht, map_app, text_of_lines_app. cbn [map text_of_lines]. by rewrite sapp_nil_r.
  - apply Forall_app. by split; [|constructor].
  - rewrite map_app. apply NoDup_app. split_and!; [done| |apply NoDup_singleton].
    intros k Hin Hk'. apply list_elem_of_singleton in Hk' as ->. by apply attempt_map_dom in Hn.
Qed.

Lemma register_good e a l attempts s r s' :
  interrupted_write e = None -> good l attempts s -> attempt_ok a ->
  _register_mutation_locked e a s = (r, s') -> better l attempts s s'.
Proof.
  intros Hw Hi Ha E. pose proof (sh_journal _ _ _ (proj1 Hi)) as Hj.
  unfold _register_mutation_locked in E. rewrite get_bind, (read_journal attempts), lift_Ok_bind in E by done.
  destruct (attempt_map attempts !! ma_idempotency_key a) as [prior|] eqn:Ea.
  - destruct (bool_decide_reflect (prior = a)) as [->|Hne]; [|injection E as _ <-; auto].
    injection E as _ <-. by eapply good_attempt.
  - unfold append_text in E. rewrite Hw in E. injection E as _ <-.
    eapply (good_attempt _ _ _ _ _ (attempts ++ [a])); try done; [by apply journal_snoc|..];
      rewrite attempt_map_snoc; [by apply insert_subseteq|apply lookup_insert_eq].
Qed.

Lemma prejournal_good e attempt authorization evidence l attempts s r s' :
  interrupted_write e = None -> good l attempts s -> attempt_ok attempt ->
  prejournal_mutation e attempt authorization evidence s = (r, s') -> better l attempts s s'.
Proof.
  intros Hw Hi Ha E. unfold prejournal_mutation, _exclusive_lock in E.
  destruct (run_directory e); [|injection E as _ <-; auto..].
  rewrite !get_bind in E. do 4 open_lift E. rewrite get_bind in E. do 3 open_lift E.
  assert (Hrelease : forall (b : bool) (m : res unit) (k : op MutationAttempt),
    ((if b then lift_res m else (mret tt : op unit)) ≫= fun _ : unit => k) s = (r, s') -> s' = s \/ k s = (r, s')).
  { intros [] m k; [intros [->|(? & _ & ?)]%lift_then; auto|auto]. }
  apply Hrelease in E as [->|E]; [auto|].
  open_bind E; [injection E as _ <-|]; by eapply register_good.
Qed.

Lemma attempt_map_ok l k a : Forall attempt_ok l -> attempt_map l !! k = Some a -> attempt_ok a.
Proof.
  induction l as [|b l IH] using rev_ind; [done|]. rewrite attempt_map_snoc. intros [Hl Hb]%Forall_app.
  rewrite lookup_insert_Some. intros [[_ <-]|[_ Hk]]; [by inversion Hb|auto].
Qed.

(** A mutation that [_require_prejournaled] finds is one of the journal. *)
Lemma prejournaled e attempts f attempt u :
  sound_journal attempts f ->
  _require_prejournaled (_read_mutation_attempts (on_disk e (journal_file f))) attempt = Ok u ->
  attempt_map attempts !! ma_idempotency_key attempt = Some attempt.
Proof.
  intros Hj (m & Em & E)%bind_Ok.
  assert (m !! ma_idempotency_key attempt = Some attempt) as Hm.
  { destruct (m !! ma_idempotency_key attempt) as [a|]; [|done].
    destruct (bool_decide_reflect (a = attempt)) as [Ea|]; [by rewrite Ea|done]. }
  unfold on_disk in Em. destruct (run_directory e); rewrite ?(read_journal attempts) in Em by done; by injection Em as <-.
Qed.

(** Recording a result leaves the run as it was, or writes the result. *)
Lemma record_then e attempt status result_digest adapter l attempts s r s' :
  interrupted_write e = None -> good l attempts s ->
  record_mutation_result e attempt status result_digest adapter s = (r, s') ->
  s' = s \/
  exists a, adapter = Some a /\ fresh_writer (cp s) l None /\
    attempt_map attempts !! ma_idempotency_key attempt = Some attempt /\ adapter_valid e (cp s) attempt status result_digest a = true /\
    sealed_before (mutation_results (cp s) !! ma_idempotency_key attempt) attempt status result_digest = Ok None /\
    let result := {| mr_attempt_id := ma_id attempt; mr_idempotency_key := ma_idempotency_key attempt;
                     mr_status := status; mr_result_digest := result_digest |} in
    let x := event_of (cp s) (result_entry (cp s) attempt status result_digest a) in
    r = Ok result /\
    s' = {| files := with_line x (files s); cp := add_result (ma_idempotency_key attempt) result (appended x None (cp s)) |}.
Proof.
  intros Hw Hi E. pose proof (sh_journal _ _ _ (proj1 Hi)) as Hj.
  unfold record_mutation_result in E. rewrite get_bind in E. do 3 open_lift E. rewrite get_bind in E.
  open_lift E. apply (prejournaled _ attempts) in E3; [|done].
  open_lift E. open_lift E. destruct a4 as [sealed|]; [injection E as _ <-; auto|].
  assert (exists x, adapter = Some x /\ adapter_valid e (cp s) attempt status result_digest x = true) as (x & -> & Hx).
  { destruct adapter as [x|]; [|done]. cbn in E4. destruct (adapter_valid _ _ _ _ _ _) eqn:Ex; [eauto|done]. }
  cbn in E4. rewrite Hx in E4. injection E4 as <-.
  eapply append_then in E as [->|[Hf E]]; [auto| |done..]. right. exists x. injection E as <- <-. done.
Qed.

Lemma record_good e attempt status result_digest adapter l attempts s r s' :
  evidence_verifier e = verifier -> interrupted_write e = None -> good l attempts s ->
  call_ok (RecordResult attempt status result_digest adapter) ->
  record_mutation_result e attempt status result_digest adapter s = (r, s') ->
  Forall event_ok (events (cp s')) -> better l attempts s s'.
Proof.
  intros Hv Hw Hi [Ht Hcaps] E Hok. pose proof (sh_journal _ _ _ (proj1 Hi)) as Hj.
  destruct (record_then _ _ _ _ _ _ _ _ _ _ Hw Hi E) as [->|(a & -> & Hf & Hm & Ha & Hsb & _ & ->)]; [auto|].
  cbn in Hok. apply last_ok in Hok. destruct Hj as [_ Hall _]. pose proof (attempt_map_ok _ _ _ Hall Hm).
  eapply (good_event e l attempts s); [done..| |by apply Recorded|done]. done.
Qed.

Lemma observation_good e source subject payload_digest signature observed_at l attempts s r s' :
  evidence_verifier e = verifier -> interrupted_write e = None -> good l attempts s ->
  record_observation e source subject payload_digest signature observed_at s = (r, s') ->
  Forall event_ok (events (cp s')) -> better l attempts s s'.
Proof.
  intros Hv Hw Hi E Hok. unfold record_observation, _exclusive_lock in E.
  destruct (run_directory e); [|injection E as _ <-; auto..]. rewrite get_bind in E. do 3 open_lift E.
  assert (Eb : (_append_locked e (observation_entry (cp s) source payload_digest signature
                   (got source (live_observers (trust_policy (cp s)))) observed_at) None None ≫= fun x => mret x) s = (r, s')).
  { unfold mbind, st_bind. rewrite E. by destruct r. }
  eapply append_locked_then in Eb as [->|[Hf Eb]]; [auto| |done..]. injection Eb as _ <-. cbn in Hok. apply last_ok in Hok.
  apply (good_event e l attempts s _ (cp s)); try done.
  apply raise_if_Ok, negb_false_iff in E2 as [? ?]%andb_prop. apply Observed; [done|].
  apply raise_if_Ok, negb_false_iff, String.eqb_eq in E0. by subst subject.
Qed.

Lemma challenge_good e token l attempts s r s' :
  good l attempts s -> issue_budget_extension_challenge e token s = (r, s') -> better l attempts s s'.
Proof. intros Hi E. injection E as _ <-. by apply good_better, good_quiet. Qed.

Lemma extension_good e proposed authorization authority observed_at l attempts s r s' :
  evidence_verifier e = verifier -> interrupted_write e = None -> good l attempts s -> call_ok (ExtendBudget proposed authorization authority observed_at) ->
  admit_budget_policy e proposed authorization authority observed_at s = (r, s') ->
  Forall event_ok (events (cp s')) -> better l attempts s s'.
Proof.
  intros Hv Hw Hi [Hb Hr] E Hok. unfold admit_budget_policy in E.
  destruct authorization as [a|]; [|injection E as _ <-; auto]. destruct authority as [snapshot|]; [|injection E as _ <-; auto].
  rewrite get_bind in E. do 3 open_lift E.
  set (s1 := {| files := files s; cp := set_challenge None (cp s) |}).
  assert (Hi1 : good l attempts s1) by by apply good_quiet.
  change ((_append e (extension_entry (cp s1) proposed a observed_at) (Some (policy_digest_of (budget_policy (cp s))))
             (Some proposed) ≫= fun _ => mret tt) s1 = (r, s')) in E.
  eapply append_then in E as [->|[Hf E]]; [auto| |done..]. injection E as _ <-. cbn in Hok. apply last_ok in Hok.
  apply fresh_plain in Hf.
  destruct a0, a1, a2.
  refine (good_event e l attempts s (extension_entry (cp s) proposed a observed_at) _ _ Hi Hf Hok Hv
            (Extended e (attempt_map attempts) (cp s) proposed a snapshot observed_at E0 E1 E2 _) _); done.
Qed.

Lemma quietly_inv {A} (m : op A) s r s' : quietly m s = (r, s') -> exists r', m s = (r', s').
Proof. unfold quietly. intros E. open_bind E; [injection E as _ <-|]; eauto. Qed.

(** A call whose environment has the verifier of the run, whose writes are not
    interrupted, and that records what JSON can carry. *)
Definition calls (e : control_env) (k : call) (s s' : control) : Prop :=
  evidence_verifier e = verifier /\ interrupted_write e = None /\ call_ok k /\
  (exists r, perform e k s = (r, s')) /\ Forall event_ok (events (cp s')).

Theorem call_good e k l attempts s s' : calls e k s s' -> good l attempts s -> better l attempts s s'.
Proof.
  intros (Hv & Hw & Hk & [r E] & Hok) Hi. destruct k; cbn [perform call_ok] in *;
    try (apply quietly_inv in E as [r' E]).
  - by eapply transition_good.
  - by eapply resume_good.
  - by eapply prejournal_good.
  - by eapply record_good.
  - by eapply observation_good.
  - by eapply challenge_good.
  - by eapply extension_good.
Qed.

(** ** Reading a run back *)

Lemma foldl_attempts (l : list (string * MutationAttempt)) p :
  budget_extension_challenge p = None ->
  foldl (fun p q => add_attempt (snd q) p) p l
  = seen (events p) (foldl (fun m q => <[ma_idempotency_key (snd q) := snd q]> m) (mutation_attempts p) l) p.
Proof.
  revert p. induction l as [|q l IH]; intros p Hp; [by destruct p; cbn in *; subst|].
  cbn [foldl]. by rewrite IH.
Qed.

Lemma attempt_map_keyed l : map_Forall (fun k a => k = ma_idempotency_key a) (attempt_map l).
Proof.
  induction l as [|a l IH] using rev_ind; [apply map_Forall_empty|]. rewrite attempt_map_snoc.
  by apply map_Forall_insert_2.
Qed.

Lemma attempts_from_list (m : gmap string MutationAttempt) :
  map_Forall (fun k a => k = ma_idempotency_key a) m ->
  foldl (fun m' q => <[ma_idempotency_key (snd q) := snd q]> m') ∅ (map_to_list m) = m.
Proof.
  intros Hm. rewrite (foldl_insert_map (fun q => ma_idempotency_key (snd q)) snd).
  rewrite (map_ext_in _ id).
  - rewrite map_id. rewrite <- (list_to_map_to_list m) at 2. apply list_to_map_proper; [|apply reverse_Permutation].
    rewrite reverse_Permutation. apply NoDup_fst_map_to_list.
  - intros [k a] Hin. apply list_elem_of_In, elem_of_map_to_list in Hin. cbn. by rewrite (Hm k a Hin).
Qed.

(** The instance that a run begins with. *)
Definition is_fresh (p : plane) : Prop :=
  p = fresh_plane (run_id p) (subject_digest p) (state p) (budget_policy p) (policy p) (trust_policy p) [].

Lemma seen_fresh p l m :
  is_fresh p -> map_Forall (fun k a => k = ma_idempotency_key a) m ->
  foldl (fun p q => add_attempt (snd q) p)
    (fresh_plane (run_id p) (subject_digest p) (state p) (budget_policy p) (policy p) (trust_policy p) l) (map_to_list m)
  = seen l m p.
Proof.
  intros Hp Hm. rewrite foldl_attempts by done. cbn [fresh_plane mutation_attempts events].
  rewrite attempts_from_list by done. by rewrite Hp.
Qed.

Lemma ledger_written l x f : sound_ledger (x :: l) f -> exists text, read_file (ledger_file f) = Ok text.
Proof.
  intros [Ht Hall _]. destruct (ledger_file f) as [payload|] eqn:Ef; cbn [from_option] in Ht.
  - eexists. unfold read_file. unfold id in Ht. rewrite Ht. apply read_lines. apply List.Forall_map.
    eapply Forall_impl; [exact Hall|]. intros y Hy. by apply event_text_printable.
  - by apply (f_equal String.length) in Ht.
Qed.

(** [load] replays the ledger on the first instance. *)
Lemma loads_ledger e l attempts f :
  sound_ledger l f -> head l = Some (created_event p0 retention_days) ->
  metadata_file f = Some (json_document (JObj (metadata_members p0 retention_days))) -> sound_journal attempts f ->
  Forall (fun x => ev_policy_digest x = policy_digest (policy p0)) l -> is_fresh p0 -> run_ok p0 retention_days ->
  load e f = res_foldM (replay_event e) (seen l (attempt_map attempts) p0) (tail l).
Proof.
  intros Hl Hc Hm Hj Hd Hfresh Hok. destruct l as [|initial later]; [done|]. injection Hc as ->.
  destruct (ledger_written _ _ _ Hl) as (text & Er).
  unfold load. rewrite Er. cbn [mbind res_bind]. rewrite (sound_lines (created_event p0 retention_days :: later)) by done.
  cbn [mbind res_bind].
  change (length (persisted_values (created_event p0 retention_days :: later))) with (S (length (persisted_values later))).
  cbn [mbind res_bind raise_if].
  rewrite (read_events_of _ 0) by apply Hl. cbn [mbind res_bind]. rewrite Hm, read_json_document by apply Hok.
  destruct (run_policy _ _ Hok) as (snapshot & Es & _).
  rewrite (sort_metadata _ _ snapshot) by done. cbn [as_obj from_option_res mbind res_bind].
  rewrite load_metadata_of by done. cbn [mbind res_bind].
  rewrite (read_journal attempts) by done. cbn [mbind res_bind].
  by rewrite seen_fresh; [|done|apply attempt_map_keyed].
Qed.

Lemma loads_current e l attempts f p :
  shared l attempts f -> is_fresh p0 -> run_ok p0 retention_days -> evidence_verifier e = verifier ->
  follows l (attempt_map attempts) p -> events p = l -> load e f = Ok (seen l (attempt_map attempts) p).
Proof.
  intros [Hl Hc Hm Hj Hd _ _] Hfresh Hok Hv Hp El. pose proof (fo_replay _ _ _ Hp) as Hrep. rewrite El in Hrep.
  rewrite (loads_ledger e l attempts) by done. by apply Hrep.
Qed.

(** The next event of a current instance, as [load] meets it. *)
Lemma loads_next e l attempts f p x :
  shared l attempts f -> is_fresh p0 -> run_ok p0 retention_days -> evidence_verifier e = verifier ->
  follows l (attempt_map attempts) p -> fresh_writer p l None -> event_ok (event_of p x) ->
  load e (with_line (event_of p x) f)
  = replay_event e (seen (l ++ [event_of p x]) (attempt_map attempts) p) (event_of p x).
Proof.
  intros [Hl Hc Hm [Hjt Hja Hjk] Hd _ _] Hfresh Hok Hv Hp Hf Hx.
  pose proof (fresh_current _ _ _ (fo_events _ _ _ Hp) Hf) as El. pose proof (fo_replay _ _ _ Hp) as Hrep. rewrite El in Hrep.
  rewrite (loads_ledger e (l ++ [event_of p x]) attempts); try done.
  - destruct l as [|y ys]; [done|]. cbn [tail]. apply res_foldM_snoc. by apply (Hrep e).
  - by apply (append_sound x {| files := f; cp := p |} l None).
  - by destruct l.
  - apply Forall_app. split; [done|]. constructor; [|done]. cbn. by destruct (fo_run _ _ _ Hp) as (-> & _).
Qed.

(** What [load] returns is an instance of the run that knows everything. *)
Lemma seen_follows l attempts p :
  follows l (attempt_map attempts) p -> events p = l -> follows l (attempt_map attempts) (seen l (attempt_map attempts) p).
Proof. intros [He Hc Ha Hu Hr Hp] El. rewrite El in *. by split. Qed.
End Runs.
