(* ===== verification/ControlHistory.v ===== *)
(** * The lifecycle control plane: histories

    A principle of induction over the events of a run, and what it shows of every
    instance: its state, the results that were used, the reserve for safety, the
    claim of completion. *)
From Stdlib Require Import Ascii String.
From S2P Require Import Prelude Sha256 Json JsonText JsonFacts JsonAscii PyStr PyConv TextFacts Lifecycle.
From S2P Require Import LifecycleRules LifecycleTheorems ControlData ControlEvidence ControlLedger.
From S2P Require Import PolicySnapshots ControlGuards Control ControlLoad ControlFacts ControlReplay.
From S2P Require Import ControlReplay ControlDenials ControlLoadFacts ControlRun.

#[local] Opaque _digest.

Section History.
Context `{Datetime} `{Unicode}.
Variable verifier : option (string -> string -> json -> string -> option bool).
Variable p0 : plane.
Variable retention_days : Z.
Abbreviation follows := (follows verifier p0 retention_days).
Abbreviation lawful := (lawful verifier p0 retention_days).

(** ** What the events make of an instance *)

(** An instance that is what the events that it knows make of it. *)
Definition knows (journal : gmap string MutationAttempt) (p : plane) : Prop := follows (events p) journal p.

Lemma follows_knows l journal p : follows l journal p -> knows journal p.
Proof. intros [? ? ? ? ? ?]. by split. Qed.

Lemma knows_head journal p : knows journal p -> events p <> [].
Proof. intros Hp E. pose proof (fo_created _ _ _ _ _ _ Hp) as Hh. by rewrite E in Hh. Qed.

(** What the instances of the same events share: all but what they know of the
    journal, and the challenge that they issued. *)
Definition core (p : plane) : plane := seen [] ∅ p.

Lemma seen_core l m p q : core p = core q -> seen l m p = seen l m q.
Proof. unfold core, seen. intros [=]. congruence. Qed.

Lemma core_seen l m p q : seen l m p = seen l m q -> core p = core q.
Proof. intros E. unfold core, seen in *. injection E. intros. by f_equal. Qed.

Lemma knows_core e journal p q :
  evidence_verifier e = verifier -> knows journal p -> knows journal q -> events p = events q -> core p = core q.
Proof.
  intros Hv Hp Hq E. pose proof (fo_replay _ _ _ _ _ _ Hp e [] journal Hv (reflexivity _)) as H1.
  pose proof (fo_replay _ _ _ _ _ _ Hq e [] journal Hv (reflexivity _)) as H2. rewrite E, H2 in H1.
  symmetry. eapply core_seen, res_Ok_inj, H1.
Qed.

(** After an event. *)
Lemma written_core e e' journal known p y q p' :
  evidence_verifier e = verifier -> evidence_verifier e' = verifier -> known ⊆ journal ->
  knows journal p -> written e' known p y q -> knows journal p' -> events p' = events p ++ [event_of p y] -> core p' = core q.
Proof.
  intros Hv Hv' Hk Hp Hw Hp' E. pose proof (fo_replay _ _ _ _ _ _ Hp' e [] journal Hv (reflexivity _)) as H1.
  pose proof (fo_replay _ _ _ _ _ _ Hp e [] journal Hv (reflexivity _)) as H2. rewrite E in H1.
  pose proof (knows_head _ _ Hp) as Hne. destruct (events p) as [|x l]; [done|]. cbn [app tail] in *.
  rewrite (res_foldM_snoc _ _ _ _ _ H2) in H1.
  rewrite (written_replays e' known p y q e [] journal Hw (fo_usage _ _ _ _ _ _ Hp)) in H1 by (done || congruence).
  symmetry. eapply core_seen, res_Ok_inj, H1.
Qed.

(** Induction over the events of a run, from an instance on. *)
Theorem history (P : list LifecycleEvent -> plane -> Prop) e l journal p1 :
  evidence_verifier e = verifier -> lawful l journal ->
  (forall evs p q, core p = core q -> P evs p -> P evs q) ->
  (forall e' known p y q,
     evidence_verifier e' = verifier -> known ⊆ journal -> knows journal p -> events p1 `prefix_of` events p ->
     written e' known p y q -> P (events p) p -> P (events p ++ [event_of p y]) q) ->
  knows journal p1 -> P (events p1) p1 ->
  forall p2, knows journal p2 -> events p1 `prefix_of` events p2 -> events p2 `prefix_of` l -> P (events p2) p2.
Proof.
  intros Hv Hlaw Hcore Hstep Hp1 H1 p2 Hp2 [k Ek] Hl. revert p2 Hp2 Ek Hl.
  induction k as [|x k IH] using rev_ind; intros p2 Hp2 Ek [rest El].
  - rewrite app_nil_r in Ek. rewrite Ek. eapply Hcore; [|exact H1]. by eapply knows_core.
  - rewrite app_assoc in Ek. rewrite Ek, <- app_assoc in El. cbn in El.
    assert (Hne : events p1 ++ k <> []).
    { intros E. apply app_eq_nil in E as [E _]. by apply knows_head in Hp1. }
    destruct (Hlaw _ _ _ El Hne) as (e' & known & p & y & q & Hv' & Hk & Hp & Ep & Hw & ->).
    assert (Hp' : knows journal p). { apply follows_knows in Hp. by eapply follows_mono; [|exact Hk|exact Hp]. }
    rewrite Ek, <- Ep. eapply Hcore; [symmetry; eapply (written_core e e'); try done; by rewrite Ep|].
    eapply Hstep; try done; [rewrite Ep; by apply prefix_app_r|].
    apply IH; [done..|]. exists (event_of p y :: rest). by rewrite Ep, El.
Qed.

(** ** The first instance *)

Lemma knows_first e journal p :
  evidence_verifier e = verifier -> knows journal p -> events p = [created_event p0 retention_days] -> core p = core p0.
Proof.
  intros Hv Hp E. pose proof (fo_replay _ _ _ _ _ _ Hp e [] journal Hv (reflexivity _)) as H1. rewrite E in H1.
  symmetry. eapply core_seen, res_Ok_inj, H1.
Qed.

(** Induction from the first event on. *)
Theorem history_from_start (P : list LifecycleEvent -> plane -> Prop) e l journal :
  evidence_verifier e = verifier -> lawful l journal ->
  (forall evs p q, core p = core q -> P evs p -> P evs q) ->
  P [created_event p0 retention_days] p0 ->
  (forall e' known p y q,
     evidence_verifier e' = verifier -> known ⊆ journal -> knows journal p ->
     written e' known p y q -> P (events p) p -> P (events p ++ [event_of p y]) q) ->
  forall p, knows journal p -> events p `prefix_of` l -> P (events p) p.
Proof.
  intros Hv Hlaw Hcore Hinit Hstep p Hp [rest El].
  remember (events p) as evs eqn:E. revert p Hp E rest El.
  induction evs as [|x evs IH] using rev_ind; intros p Hp E rest El; [by symmetry in E; apply knows_head in Hp|].
  destruct (decide (evs = [])) as [->|Hne].
  - pose proof (fo_created _ _ _ _ _ _ Hp) as Hh. rewrite <- E in Hh. injection Hh as ->.
    eapply Hcore; [|exact Hinit]. symmetry. by eapply knows_first.
  - rewrite <- app_assoc in El. destruct (Hlaw _ _ _ El Hne) as (e' & known & p1 & y & q & Hv' & Hk & Hp1 & Ep & Hw & ->).
    assert (Hp1' : knows journal p1). { apply follows_knows in Hp1. by eapply follows_mono; [|exact Hk|exact Hp1]. }
    rewrite <- Ep. eapply Hcore; [symmetry; eapply (written_core e e'); try done; by rewrite Ep, <- E|].
    eapply Hstep; try done. rewrite Ep. by eapply IH.
Qed.

(** ** What a transition passed *)

Record admitted (e : control_env) (p : plane) (target : LifecycleState) (why : string) (c : TransitionContext)
    (r : TransitionRule) (u : BudgetUsage) : Prop := {
  ad_actor : actor_valid e p c = true;
  ad_rule : rule (policy p) (state p) target why = Ok r;
  ad_capable : capable c (permission r) = true;
  ad_present : missing_evidence c r = [];
  ad_canonical : _malformed_evidence (tc_evidence c) (required_evidence r) = [];
  ad_safety : bu_safety_units_used (tc_budget_usage c) = bu_safety_units_used (budget_usage p);
  ad_usage : supplied_usage e p target c = Proceed u
}.

Lemma admission_admitted e p target why c r u :
  admission e p target why c = Proceed (r, u) -> admitted e p target why c r u.
Proof.
  unfold admission, required_evidence_given. intros E.
  do 7 (let a := fresh "a" in let E' := fresh "E" in apply verdict_bind_Proceed in E as (a & E' & E)).
  injection E as <- <-. do 2 (let a := fresh "a" in let E' := fresh "E" in apply verdict_bind_Proceed in E6 as (a & E' & E6)).
  apply deny_if_Proceed, negb_false_iff in E0, E5. apply deny_if_Proceed, negb_false_iff, Z.eqb_eq in E1.
  apply of_denial_Proceed in E4. apply deny_if_Proceed, negb_false_iff, bool_decide_eq_true in E, E7.
  by split.
Qed.

Lemma decided_admitted e p attempts target why c d :
  decide_transition e p attempts target why c = Proceed d ->
  exists r u, admitted e p target why c r u.
Proof. intros (r & u & ? & ? & ? & Ha & _)%decide_transition_parts. exists r, u. by apply admission_admitted. Qed.

Lemma rule_found lp from to why r :
  rule lp from to why = Ok r -> r ∈ rules lp /\ source r = from /\ target r = to /\ reason r = why.
Proof.
  unfold rule. destruct (List.filter _ _) as [|x [|y ys]] eqn:E; try done. intros [= <-].
  assert (In x [x]) as Hx by by left. rewrite <- E in Hx. apply filter_In in Hx as [Hx Hm].
  apply matches_rule_spec in Hm. unfold rule_key in Hm. injection Hm as ? ? ?.
  by rewrite list_elem_of_In.
Qed.

(** ** The states *)

(** Where the applied events lead from [CONTRACT_RECEIVED]. *)
Definition state_after (evs : list LifecycleEvent) : LifecycleState :=
  foldl (fun s x => if applied x then ev_target x else s) CONTRACT_RECEIVED evs.

Lemma state_after_snoc evs x :
  state_after (evs ++ [x]) = if applied x then ev_target x else state_after evs.
Proof. unfold state_after. by rewrite foldl_app. Qed.

Lemma adopt_state target d p : state (adopt target d p) = target.
Proof. unfold adopt. cbn. by repeat case_match. Qed.

Lemma written_state e known p y q :
  written e known p y q -> state q = if applied (event_of p y) then ev_target (event_of p y) else state p.
Proof. intros []; cbn; try done. by rewrite adopt_state. Qed.

Lemma written_source e known p y q : written e known p y q -> ev_source (event_of p y) = state p.
Proof. by intros []. Qed.

Lemma state_history e l journal p :
  state p0 = CONTRACT_RECEIVED -> evidence_verifier e = verifier -> lawful l journal -> knows journal p ->
  events p `prefix_of` l -> state p = state_after (events p).
Proof.
  intros Hs Hv Hlaw. apply (history_from_start (fun evs p => state p = state_after evs) e l journal Hv Hlaw).
  - intros evs p' q E. by injection E as _ _ -> _.
  - rewrite Hs. cbn. by rewrite Hs.
  - intros e' known p' y q _ _ _ Hw E. rewrite (written_state _ _ _ _ _ Hw), state_after_snoc. by rewrite E.
Qed.

(** ** The results that were used *)

Definition used_key (x : LifecycleEvent) : string := got consumed_key_name (ev_evidence_refs x).

Lemma written_consumed e known p y q :
  written e known p y q ->
  consumed_mutation_result_keys p ⊆ consumed_mutation_result_keys q /\
  (nonempty (used_key (event_of p y)) = true -> used_key (event_of p y) ∈ consumed_mutation_result_keys q).
Proof.
  unfold used_key. intros [target c why d _ _|target c why detail u _ Hc|c recorded u _ Hc| | |].
  - unfold adopt. cbn. destruct (nonempty _); repeat case_match; cbn; split; try done; set_solver.
  - cbn. by rewrite Hc.
  - cbn. by rewrite Hc.
  - done.
  - done.
  - done.
Qed.

Lemma consumed_history e l journal p x :
  evidence_verifier e = verifier -> lawful l journal -> knows journal p -> events p `prefix_of` l ->
  x ∈ events p -> nonempty (used_key x) = true -> used_key x ∈ consumed_mutation_result_keys p.
Proof.
  intros Hv Hlaw Hp Hl Hx Hk.
  refine (history_from_start (fun evs p => forall x, x ∈ evs -> nonempty (used_key x) = true ->
            used_key x ∈ consumed_mutation_result_keys p) e l journal Hv Hlaw _ _ _ p Hp Hl x Hx Hk); clear.
  - intros evs p q E. by injection E as _ _ _ _ _ _ _ _ _ -> _.
  - intros x ->%list_elem_of_singleton. done.
  - intros e' known p y q _ _ _ Hw IH x [Hx|Hx]%elem_of_app Hk;
      destruct (written_consumed _ _ _ _ _ Hw) as [Hsub Hnew]; [by apply Hsub, IH|].
    apply list_elem_of_singleton in Hx as ->. by apply Hnew.
Qed.

(** ** The reserve for safety *)

Definition within_reserve (p : plane) : Prop :=
  bu_safety_units_used (budget_usage p) <= bp_reserved_safety_units (budget_policy p).

Lemma merge_safety prior supplied lower u :
  _merge_budget_usage prior supplied lower = Ok u ->
  bu_safety_units_used u = Z.max (bu_safety_units_used prior) (bu_safety_units_used supplied).
Proof.
  unfold _merge_budget_usage. intros E. simp_res. by apply new_usage_Ok in E as [-> _].
Qed.

Lemma effects_safety p attempts target c r u gate gate' :
  effects p attempts target c r u gate = Proceed gate' -> has_guard "safety" (guards r) = true ->
  safety_available u (budget_policy p) = true.
Proof.
  unfold effects, when_guard. intros E Hg. do 3 open_verdict E. rewrite Hg in E2.
  by apply deny_if_Proceed, negb_false_iff in E2.
Qed.

Lemma decided_reserve e p attempts target why c d :
  decide_transition e p attempts target why c = Proceed d -> within_reserve p ->
  bu_safety_units_used (de_usage d) <= bp_reserved_safety_units (budget_policy p).
Proof.
  intros (r & u & stopped & blocker & inputs & Ha & _ & _ & _ & _ & He & _ & _ & -> & _)%decide_transition_parts Hp.
  apply admission_admitted in Ha. pose proof (ad_usage _ _ _ _ _ _ _ Ha) as Hu.
  assert (bu_safety_units_used u = bu_safety_units_used (budget_usage p)) as Es.
  { unfold supplied_usage in Hu. destruct (_trusted_budget_usage_valid e p c); [|by injection Hu as <-].
    apply of_denial_Proceed, merge_safety in Hu. rewrite (ad_safety _ _ _ _ _ _ _ Ha) in Hu. lia. }
  pose proof (effects_safety _ _ _ _ _ _ _ _ He) as Hs. unfold used, safety_available, within_reserve in *.
  destruct (tc_finding (with_evidence blocker c)), (has_guard "repair" (guards r)), (has_guard "safety" (guards r)); cbn;
    try specialize (Hs eq_refl); lia.
Qed.

Lemma written_reserve e known p y q : written e known p y q -> within_reserve p -> within_reserve q.
Proof.
  unfold within_reserve. intros [target c why d E _|target c why detail u E _|c recorded u E _| | |proposed a authority t _ _ E _];
    cbn; try done; intros Hp.
  - unfold adopt. cbn. pose proof (decided_reserve _ _ _ _ _ _ _ E Hp). by repeat case_match.
  - unfold persisted_usage in E. destruct (_trusted_budget_usage_valid e p c); [|by injection E as <-].
    apply merge_safety in E. cbn in E. lia.
  - unfold decide_resume in E. do 2 open_verdict E.
    destruct (x ← last_stop p (state p); recorded ← ev_resume_state x; Some (x, recorded)) as [[x rec]|]; [|done].
    do 3 open_verdict E. injection E as <- <-. unfold resume_safety in E4. do 9 open_verdict E4. injection E4 as <-.
    apply deny_if_Proceed, negb_false_iff, Z.eqb_eq in E9. apply of_denial_Proceed, merge_safety in E11. lia.
  - unfold extension_amounts_valid in E. simp_res. bool_simp. lia.
Qed.

Lemma reserve_history e l journal p :
  0 <= bp_reserved_safety_units (budget_policy p0) -> bu_safety_units_used (budget_usage p0) = 0 ->
  evidence_verifier e = verifier -> lawful l journal -> knows journal p ->
  events p `prefix_of` l -> within_reserve p.
Proof.
  intros Hr Hu Hv Hlaw. apply (history_from_start (fun _ => within_reserve) e l journal Hv Hlaw).
  - unfold within_reserve. intros _ p' q E. by injection E as _ _ _ -> _ _ _ _ _ _ ->.
  - unfold within_reserve. lia.
  - intros e' known p' y q _ _ _. apply written_reserve.
Qed.

(** ** The claim of completion *)

Record readmitted (e : control_env) (p : plane) (c : TransitionContext) (recorded : LifecycleState)
    (r : TransitionRule) : Prop := {
  re_stopped : bool_decide (state p ∈ [BLOCKED; BUDGET_EXCEEDED]) = true;
  re_gate : exists x, last_stop p (state p) = Some x /\ ev_resume_state x = Some recorded;
  re_actor : actor_valid e p c = true;
  re_rule : rule (policy p) (state p) recorded "recorded_safe_resume" = Ok r;
  re_capable : capable c (permission r) = true;
  re_present : missing_evidence c r = [];
  re_canonical : _malformed_evidence (tc_evidence c) (required_evidence r) = []
}.

Lemma resumed_readmitted e p c recorded u :
  decide_resume e p c = Proceed (recorded, u) -> exists r, readmitted e p c recorded r.
Proof.
  unfold decide_resume. intros E. do 2 open_verdict E. apply deny_if_Proceed, negb_false_iff in E0, E1.
  apply andb_prop in E0 as [E0 _]. destruct (last_stop p (state p)) as [x|] eqn:Ex; [|done]. cbn in E.
  destruct (ev_resume_state x) as [rec|] eqn:Er; [|done].
  cbn in E. do 3 open_verdict E. injection E as -> ->. unfold resume_rule in E2.
  do 4 open_verdict E2. apply of_denial_Proceed in E. apply deny_if_Proceed, negb_false_iff in E5, E6, E7.
  apply bool_decide_eq_true in E6, E7. eexists. split; eauto.
Qed.

Definition claim_right (p : plane) : Prop := completion_claim_active p = bool_decide (state p = COMPLETED).
(** A policy whose resumes do not complete. *)
Definition resumes_short (lp : LifecyclePolicy) : Prop :=
  forall r, r ∈ rules lp -> reason r = "recorded_safe_resume"%string -> target r <> COMPLETED.

Definition resumes_shortb (l : list TransitionRule) : bool :=
  forallb (fun r => negb (String.eqb (reason r) "recorded_safe_resume") || negb (bool_decide (target r = COMPLETED))) l.
Lemma phase_four_shortb : resumes_shortb phase_four_rules = true.
Proof. vm_compute. reflexivity. Qed.

Lemma resumes_shortb_spec lp : resumes_shortb (rules lp) = true -> resumes_short lp.
Proof.
  intros Hl r Hr Hw Ht. unfold resumes_shortb in Hl. rewrite forallb_forall in Hl.
  apply list_elem_of_In, Hl in Hr. by rewrite Hw, Ht in Hr.
Qed.

Lemma phase_four_resumes lp : PHASE_FOUR_POLICY = Ok lp -> resumes_short lp.
Proof.
  unfold PHASE_FOUR_POLICY, new_policy. intros E. destruct (negb _); [discriminate|]. apply resumes_shortb_spec.
  injection E as <-. exact phase_four_shortb.
Qed.

Lemma written_claim e known p y q :
  resumes_short (policy p) -> written e known p y q -> claim_right p -> claim_right q.
Proof.
  unfold claim_right. intros Hs [target c why d E _| |c recorded u E _| | |]; cbn; try done; intros Hp.
  - rewrite adopt_state. unfold adopt. apply decide_transition_parts in E as (?&?&?&?&?&_&_&_&_&_&_&_&_&_&_&->&_).
    unfold kind_of. case_bool_decide; [by repeat case_match|]. case_bool_decide; [by repeat case_match|].
    cbn. destruct (nonempty _); cbn; rewrite Hp; by repeat case_bool_decide.
  - destruct (resumed_readmitted _ _ _ _ _ E) as [r [Hstop _ _ Hr _ _ _]].
    apply rule_found in Hr as (Hin & _ & Ht & Hw). specialize (Hs r Hin Hw). rewrite Hp.
    rewrite !bool_decide_false; [done|congruence|]. intros Ec. by rewrite Ec in Hstop.
Qed.

Lemma claim_history e l journal p :
  resumes_short (policy p0) -> claim_right p0 -> evidence_verifier e = verifier -> lawful l journal -> knows journal p ->
  events p `prefix_of` l -> claim_right p.
Proof.
  intros Hs Hc Hv Hlaw. apply (history_from_start (fun _ => claim_right) e l journal Hv Hlaw); [|done|].
  - unfold claim_right. intros _ p' q E. by injection E as _ _ -> _ _ _ -> _.
  - intros e' known p' y q _ _ Hp'. apply written_claim. by destruct (fo_run _ _ _ _ _ _ Hp') as (-> & _).
Qed.

(** ** Results *)

(** A known result stays as it was recorded; one that was unknown may become known. *)
Definition results_kept (p q : plane) : Prop :=
  forall k r, mutation_results p !! k = Some r -> mr_status r <> "UNKNOWN"%string -> mutation_results q !! k = Some r.

Lemma adopt_results target d p : mutation_results (adopt target d p) = mutation_results p.
Proof. unfold adopt. cbn. by repeat case_match. Qed.

Lemma written_results e known p y q : written e known p y q -> results_kept p q.
Proof.
  intros [target c why d _ _| | |attempt status result_digest a _ _ _ E _| |] k r Hk Hs; cbn; try done.
  - by rewrite adopt_results.
  - apply lookup_insert_Some. right. split; [|done]. intros <-. rewrite Hk in E. unfold sealed_before in E.
    destruct (negb _); [done|]. apply String.eqb_neq in Hs. rewrite Hs in E. cbn in E. by destruct (_ && _).
Qed.

(** ** Budgets *)

Record budget_le (b b' : BudgetPolicy) : Prop := {
  le_limits : forall k, k ∈ _BUDGET_DIMENSIONS -> count k (bp_limits b) <= count k (bp_limits b');
  le_finding : bp_repair_attempts_per_finding b <= bp_repair_attempts_per_finding b';
  le_stage : bp_repair_attempts_per_stage b <= bp_repair_attempts_per_stage b';
  le_reserve : bp_reserved_safety_units b <= bp_reserved_safety_units b'
}.
#[export] Instance budget_le_refl : Reflexive budget_le.
Proof. intros b. split; done. Qed.
#[export] Instance budget_le_trans : Transitive budget_le.
Proof. intros a b c [] []. split; [intros k Hk|..]; etrans; eauto. Qed.

Lemma new_budget_dimensions b b' : new_budget_policy b = Ok b' -> dom (bp_limits b) = _BUDGET_DIMENSIONS.
Proof. unfold new_budget_policy. intros E. simp_res. bool_simp. by eapply bool_decide_eq_true_1. Qed.

Lemma extension_grows p proposed a :
  dom (bp_limits (budget_policy p)) = _BUDGET_DIMENSIONS -> extension_amounts_valid p proposed a = Ok tt ->
  budget_le (budget_policy p) proposed.
Proof.
  intros Hd E. unfold extension_amounts_valid in E. simp_res. split; [|lia..].
  intros k Hk. rewrite <- Hd in Hk. apply elem_of_dom in Hk as [n Hn]. unfold count at 1. rewrite Hn. cbn.
  match goal with H : existsb (fun q => _ <? _) _ = false |- _ =>
    pose proof (existsb_none _ _ (k, n) H) as Hx end.
  cbn in Hx. apply Z.ltb_ge, Hx. by apply list_elem_of_In, elem_of_map_to_list.
Qed.

(** From an instance to a later one. *)
Record later (p q : plane) : Prop := {
  la_dimensions : dom (bp_limits (budget_policy q)) = _BUDGET_DIMENSIONS;
  la_budget : budget_le (budget_policy p) (budget_policy q);
  la_usage : usage_le (budget_usage p) (budget_usage q);
  la_results : results_kept p q;
  la_consumed : consumed_mutation_result_keys p ⊆ consumed_mutation_result_keys q
}.

Lemma adopt_budget target d p : budget_policy (adopt target d p) = budget_policy p.
Proof. unfold adopt. cbn. by repeat case_match. Qed.

Lemma written_later e known p1 p y q :
  usage_ok (budget_usage p) -> written e known p y q -> later p1 p -> later p1 q.
Proof.
  intros Hu Hw [Hd Hb Hus Hr Hc]. pose proof (written_keeps _ _ _ _ _ Hw Hu) as (_ & _ & _ & _ & _ & _ & Hle & _).
  assert (Hdb : dom (bp_limits (budget_policy q)) = _BUDGET_DIMENSIONS /\ budget_le (budget_policy p) (budget_policy q)).
  { destruct Hw as [| | | | |proposed a authority t _ _ E [Hok _]]; cbn; rewrite ?adopt_budget; try done.
    split; [by eapply new_budget_dimensions|by eapply extension_grows]. }
  split; [apply Hdb|etrans; [done|apply Hdb]|by etrans| |].
  - intros k r Hk Hs. eapply written_results; [done| |done]. by apply Hr.
  - etrans; [done|]. by destruct (written_consumed _ _ _ _ _ Hw).
Qed.

Lemma later_core p1 p q : core p = core q -> later p1 p -> later p1 q.
Proof.
  intros E [Hd Hb Hu Hr Hc]. injection E as _ _ _ E1 _ _ _ E2 _ E3 E4. split; rewrite <- ?E1, <- ?E3, <- ?E4; try done.
  intros k r. unfold results_kept in Hr. rewrite <- E2. apply Hr.
Qed.

Lemma later_refl p : dom (bp_limits (budget_policy p)) = _BUDGET_DIMENSIONS -> later p p.
Proof. intros Hd. split; [done|reflexivity..|by intros k r|done]. Qed.

Lemma later_history e l journal p1 p2 :
  dom (bp_limits (budget_policy p0)) = _BUDGET_DIMENSIONS ->
  evidence_verifier e = verifier -> lawful l journal -> knows journal p1 -> knows journal p2 ->
  events p1 `prefix_of` events p2 -> events p2 `prefix_of` l -> later p1 p2.
Proof.
  intros Hd Hv Hlaw Hp1 Hp2 Hpre Hl.
  assert (Hd1 : later p0 p1).
  { apply (history_from_start (fun _ => later p0) e l journal Hv Hlaw); [|by apply later_refl| |done|by etrans].
    - intros _. apply later_core.
    - intros e' known p y q _ _ Hp. apply written_later, (fo_usage _ _ _ _ _ _ Hp). }
  apply (history (fun _ => later p1) e l journal p1 Hv Hlaw); [| |done|apply later_refl, Hd1|done..].
  - intros _. apply later_core.
  - intros e' known p y q _ _ Hp _. apply written_later, (fo_usage _ _ _ _ _ _ Hp).
Qed.

(** ** The evidence of applied events *)

(** The stop in front of the merge records the inputs of the latest review in the
    place of what the caller gave under their names; no other rule does. *)
Definition overwrites (r : TransitionRule) (name : string) : bool :=
  has_guard "safe_stop" (guards r) && bool_decide (source r = PR_READY) && bool_decide (target r = BLOCKED)
  && str_in name ("resume_binding_digest"%string :: review_input_fields).

Lemma set_default_keeps k w (m : evidence_map) name v : m !! name = Some v -> set_default k w m !! name = Some v.
Proof.
  unfold set_default. intros Hv. destruct (m !! k) eqn:E; [done|]. rewrite lookup_insert_ne; [done|]. by intros ->; congruence.
Qed.

Lemma findings_keeps e p target c r u blocker name v :
  findings e p target c r u = Proceed blocker -> tc_evidence c !! name = Some v -> blocker !! name = Some v.
Proof.
  unfold findings. intros E Hv. open_verdict E. destruct (has_guard "blocking_finding" (guards r)); [|by injection E as <-].
  unfold blocking_finding in E. open_verdict E. injection E as <-. by repeat apply set_default_keeps.
Qed.

Lemma foldl_insert_other (l : list (string * string)) (m : evidence_map) name :
  name ∉ map fst l -> foldl (fun m q => <[fst q := snd q]> m) m l !! name = m !! name.
Proof.
  revert m. induction l as [|q l IH]; intros m Hn; [done|]. cbn [foldl]. rewrite IH.
  - apply lookup_insert_ne. intros <-. apply Hn. cbn. left.
  - intros Hl. apply Hn. cbn. by right.
Qed.

Lemma inputs_names p target c inputs :
  bound_review_inputs p target c = Proceed inputs ->
  map fst inputs = review_input_fields ++ ["resume_binding_digest"%string].
Proof.
  unfold bound_review_inputs. destruct (_latest_review_binding p); [|done]. intros [= <-]. reflexivity.
Qed.

Lemma decided_evidence e p attempts target why c d :
  decide_transition e p attempts target why c = Proceed d ->
  exists r u, admitted e p target why c r u /\
    forall name v, name <> consumed_key_name -> overwrites r name = false ->
      tc_evidence c !! name = Some v -> de_evidence d !! name = Some v.
Proof.
  intros (r & u & stopped & blocker & inputs & Ha & _ & _ & Hf & _ & _ & _ & Hi & _ & _ & _ & ->)%decide_transition_parts.
  apply admission_admitted in Ha. exists r, u. split; [done|]. intros name v Hn Ho Hv.
  assert (Hin : name ∉ map fst inputs).
  { apply ad_rule, rule_found in Ha as (_ & Es & Et & _). unfold overwrites in Ho. rewrite Es, Et in Ho.
    destruct (has_guard _ _ && _ && _); [|by injection Hi as <-; apply not_elem_of_nil]. apply str_in_false in Ho.
    apply inputs_names in Hi as ->. apply not_elem_of_cons in Ho as [Hb Ho]. rewrite elem_of_app, list_elem_of_singleton. tauto. }
  assert (Hm : foldl (fun m q => <[fst q := snd q]> m) blocker inputs !! name = Some v).
  { rewrite foldl_insert_other by done. by eapply findings_keeps. }
  unfold event_evidence. destruct (tc_mutation (with_evidence blocker c)) as [attempt|]; [|exact Hm].
  destruct (result_of p (Some attempt)) as [result|]; [|exact Hm].
  destruct (has_guard "mutation" (guards r) && successful result); [by rewrite lookup_insert_ne|exact Hm].
Qed.

Lemma missing_none c r name :
  missing_evidence c r = [] -> name ∈ required_evidence r -> nonempty (got name (tc_evidence c)) = true.
Proof.
  unfold missing_evidence. intros E Hn. destruct (nonempty (ev c name)) eqn:Ev; [done|].
  assert (In name (List.filter (fun name => negb (nonempty (ev c name))) (required_evidence r))) as Hin.
  { apply filter_In. split; [by apply list_elem_of_In|]. by rewrite Ev. }
  by rewrite E in Hin.
Qed.

Lemma canonical_none evidence names name :
  _malformed_evidence evidence names = [] -> name ∈ names -> malformed_field evidence name = false.
Proof.
  unfold _malformed_evidence. intros E Hn. destruct (malformed_field evidence name) eqn:Em; [|done].
  assert (Hin : name ∈ sorted_str (List.filter (malformed_field evidence) names)).
  { rewrite sorted_str_perm. apply list_elem_of_In, filter_In. split; [by apply list_elem_of_In|done]. }
  rewrite E in Hin. by apply not_elem_of_nil in Hin.
Qed.

(** A name under which a value is present and of the form that the name says. *)
Definition given (evidence : evidence_map) (name : string) : Prop :=
  nonempty (got name evidence) = true /\ malformed_field evidence name = false.

Lemma given_same evidence evidence' name :
  (forall v, evidence !! name = Some v -> evidence' !! name = Some v) -> given evidence name -> given evidence' name.
Proof.
  unfold given, malformed_field, got. intros Hs. destruct (evidence !! name) as [v|] eqn:E; [|by intros []].
  by rewrite (Hs v eq_refl).
Qed.

(** What an applied event shows: who asked, under which rule, on what evidence. *)
Record by_the_rules (e : control_env) (p : plane) (x : LifecycleEvent) (r : TransitionRule) (c : TransitionContext) : Prop := {
  br_rule : r ∈ rules (policy p) /\ source r = ev_source x /\ target r = ev_target x /\ reason r = ev_reason x;
  br_actor : actor_valid e p c = true /\ ac_id (tc_actor c) = ev_actor x /\ capable c (permission r) = true;
  br_evidence : forall name, name ∈ required_evidence r -> overwrites r name = false -> given (ev_evidence_refs x) name
}.

Lemma written_by_the_rules e known p y q :
  written e known p y q -> applied (event_of p y) = true -> exists r c, by_the_rules e p (event_of p y) r c.
Proof.
  intros [target c why d E Hc0| |c recorded u E _| | |] Ha; try done.
  - destruct (decided_evidence _ _ _ _ _ _ _ E) as (r & u & Hr & He). exists r, c. destruct Hr as [Hact Hr Hc Hp Hm _ _].
    apply rule_found in Hr. split; [done|done|]. intros name Hn Hw.
    assert (Hg : given (tc_evidence c) name) by (split; [by eapply missing_none|by eapply canonical_none]).
    eapply given_same; [|exact Hg]. intros v Hv. apply He; [|done|done]. intros ->. destruct Hg as [Hg _]. by rewrite Hc0 in Hg.
  - destruct (resumed_readmitted _ _ _ _ _ E) as [r [_ _ Hact Hr Hc Hp Hm]]. exists r, c. apply rule_found in Hr.
    split; [done|done|]. intros name Hn _. split; [by eapply missing_none|by eapply canonical_none].
Qed.

(** The policies of the program overwrite no evidence that a rule requires. *)
Lemma current_policies_overwrite_nothing lp r name :
  PHASE_ZERO_POLICY = Ok lp \/ PHASE_FOUR_POLICY = Ok lp -> r ∈ rules lp -> name ∈ required_evidence r -> overwrites r name = false.
Proof.
  intros Hlp Hr Hn.
  assert (Hl : rules lp = phase_zero_rules \/ rules lp = phase_four_rules).
  { destruct Hlp as [E|E]; unfold PHASE_ZERO_POLICY, PHASE_FOUR_POLICY, new_policy in E; destruct (negb _) in E; try done;
      injection E as <-; [by left|by right]. }
  assert (Hall : forallb (fun r => forallb (fun name => negb (overwrites r name)) (required_evidence r)) (rules lp) = true)
    by (destruct Hl as [->| ->]; vm_compute; reflexivity).
  rewrite forallb_forall in Hall. apply list_elem_of_In in Hr. specialize (Hall r Hr).
  rewrite forallb_forall in Hall. apply list_elem_of_In in Hn. by apply negb_true_iff, Hall.
Qed.

(** ** A result is used once *)

Lemma mutation_usable p target attempts c r u :
  mutation p target attempts c r = Proceed u -> target <> ROLLBACK_IN_PROGRESS ->
  exists attempt, tc_mutation c = Some attempt /\ result_usable p attempt = true.
Proof.
  unfold mutation. destruct (tc_mutation c) as [attempt|]; [|done]. intros E Ht. exists attempt. split; [done|].
  do 7 open_verdict E. apply deny_if_Proceed in E6. rewrite bool_decide_false in E6 by done. cbn in E6.
  by apply negb_false_iff in E6.
Qed.

Lemma inputs_keep_key p target c r inputs (blocker : evidence_map) :
  (if has_guard "safe_stop" (guards r) && bool_decide (state p = PR_READY) && bool_decide (target = BLOCKED)
   then bound_review_inputs p target c else Proceed []) = Proceed inputs ->
  foldl (fun m q => <[fst q := snd q]> m) blocker inputs !! consumed_key_name = blocker !! consumed_key_name.
Proof.
  intros Hi. apply foldl_insert_other. destruct (_ && _ && _); [|by injection Hi as <-; apply not_elem_of_nil].
  apply inputs_names in Hi as ->. decide_now.
Qed.

Lemma decided_key e p attempts target why c d :
  decide_transition e p attempts target why c = Proceed d -> got consumed_key_name (tc_evidence c) = ""%string ->
  target <> ROLLBACK_IN_PROGRESS -> nonempty (got consumed_key_name (de_evidence d)) = true ->
  got consumed_key_name (de_evidence d) ∉ consumed_mutation_result_keys p.
Proof.
  intros (r & u & stopped & blocker & inputs & _ & _ & _ & Hf & _ & He & _ & Hi & _ & _ & _ & ->)%decide_transition_parts
    Hc Ht Hk.
  assert (Hm : got consumed_key_name (foldl (fun m q => <[fst q := snd q]> m) blocker inputs) = ""%string).
  { unfold got in *. erewrite inputs_keep_key by done. erewrite findings_lookup by done. done. }
  unfold event_evidence in *. destruct (tc_mutation (with_evidence blocker c)) as [attempt|] eqn:Ea;
    [|by rewrite Hm in Hk].
  destruct (result_of p (Some attempt)) as [result|] eqn:Er; [|by rewrite Hm in Hk].
  destruct (has_guard "mutation" (guards r) && successful result) eqn:Eg; [|by rewrite Hm in Hk].
  apply andb_prop in Eg as [Eg Es]. unfold got. rewrite lookup_insert_eq. cbn.
  unfold effects, when_guard in He. open_verdict He. rewrite Eg in E.
  apply mutation_usable in E as (a' & Ea' & Hu); [|done]. assert (a' = attempt) as -> by congruence.
  unfold result_usable in Hu. destruct (mutation_results p !! _); [|done]. bool_simp.
  by eapply bool_decide_eq_false_1.
Qed.

Lemma used_once e e' l journal known p y q x :
  evidence_verifier e = verifier -> lawful l journal -> knows journal p -> events p `prefix_of` l ->
  written e' known p y q -> ev_target (event_of p y) <> ROLLBACK_IN_PROGRESS ->
  nonempty (used_key (event_of p y)) = true -> x ∈ events p -> used_key x <> used_key (event_of p y).
Proof.
  intros Hv Hlaw Hp Hl Hw Ht Hk Hx E.
  assert (Hin : used_key (event_of p y) ∈ consumed_mutation_result_keys p).
  { rewrite <- E. eapply consumed_history; try done. by rewrite E. }
  unfold used_key in *. destruct Hw as [target c why d Hd Hc|target c why detail u _ Hc|c recorded u _ Hc| | |]; cbn in *.
  - by apply (decided_key _ _ _ _ _ _ _ Hd) in Hk.
  - by rewrite Hc in Hk.
  - by rewrite Hc in Hk.
  - done.
  - done.
  - done.
Qed.
End History.
