(* ===== verification/ControlTheorems.v ===== *)
(** * The lifecycle control plane: theorems

    A run that [create] begins, its operations, and [load]. *)
From Stdlib Require Import Ascii String.
From S2P Require Import Prelude Sha256 Json JsonText JsonIndent JsonFacts JsonAscii PyStr PyConv TextFacts Lifecycle.
From S2P Require Import LifecycleRules ControlData ControlEvidence ControlLedger PolicySnapshots.
From S2P Require Import ControlGuards Control ControlLoad ControlFacts ControlReplay.
From S2P Require Import ControlDenials ControlLoadFacts ControlRun ControlHistory.

#[local] Opaque _digest.

Definition no_files : run_files := {| ledger_file := None; metadata_file := None; journal_file := None |}.

Section Theorems.
Context `{Datetime} `{Unicode}.

(** ** Beginning a run *)

Lemma create_locked_fresh e p days :
  interrupted_write e = None -> interrupted_metadata e = false -> events p = [] ->
  let s := {| files := with_line (created_event p days)
                         (set_metadata_file (json_document (JObj (metadata_members p days))) no_files);
              cp := appended (created_event p days) None p |} in
  create_locked e p days {| files := no_files; cp := p |} = (Ok (cp s), s).
Proof.
  intros Hw Hm He s. unfold create_locked. rewrite get_bind. cbn [files no_files metadata_file ledger_file].
  unfold write_metadata. rewrite Hm. cbn [raise_if lift_res].
  set (s1 := {| files := set_metadata_file (json_document (JObj (metadata_members p days))) no_files; cp := p |}).
  change ((_ ← _append_locked e (created_entry p (JObj (metadata_members p days))) None None; get_st cp) s1 = (Ok (cp s), s)).
  assert (Hs : sound_ledger [] (files s1)) by by split.
  pose proof (append_locked_spec e (created_entry p (JObj (metadata_members p days))) None None s1 [] Hw Hs) as Ha.
  cbv zeta in Ha. rewrite decide_True in Ha.
  - unfold mbind, st_bind. rewrite Ha. done.
  - unfold fresh_writer, current_head. cbn [cp s1]. by rewrite He.
Qed.

(** A run begins when nothing is in its way. *)
Lemma create_fresh e directory p days :
  interrupted_write e = None -> interrupted_metadata e = false -> run_directory e = SameDirectory ->
  purge_error e = None -> is_fresh p -> state p = CONTRACT_RECEIVED ->
  validate_retention_run_directory directory = Ok tt -> validate_retention_days days = Ok tt ->
  create e directory (run_id p) (subject_digest p) CONTRACT_RECEIVED (budget_policy p) (policy p) (Some (trust_policy p))
    days no_files
  = (Ok (appended (created_event p days) None p),
     with_line (created_event p days) (set_metadata_file (json_document (JObj (metadata_members p days))) no_files)).
Proof.
  intros Hw Hm Hd Hpe Hp Hs Hv1 Hv2. unfold create. rewrite Hv1, Hv2, Hpe. cbn [lift_res].
  assert (E : fresh_plane (run_id p) (subject_digest p) CONTRACT_RECEIVED (budget_policy p) (policy p)
                (default no_trust (Some (trust_policy p))) [] = p) by (rewrite <- Hs; symmetry; exact Hp).
  rewrite E. change (creating p (_exclusive_lock e (create_locked e p days)) no_files
    = (Ok (appended (created_event p days) None p),
       with_line (created_event p days) (set_metadata_file (json_document (JObj (metadata_members p days))) no_files))).
  unfold creating, _exclusive_lock. rewrite Hd, create_locked_fresh by (done || by rewrite Hp). done.
Qed.

Lemma created_good verifier p days :
  is_fresh p -> event_ok (created_event p days) ->
  good verifier p days [created_event p days] []
    {| files := with_line (created_event p days)
                  (set_metadata_file (json_document (JObj (metadata_members p days))) no_files);
       cp := appended (created_event p days) None p |}.
Proof.
  intros Hp Hok. assert (He : events p = []) by by rewrite Hp.
  assert (Hfo : follows verifier p days [created_event p days] (attempt_map []) (appended (created_event p days) None p)).
  { split; cbn [appended set_events events mutation_attempts policy trust_policy subject_digest run_id budget_usage];
      rewrite ?He; try done; rewrite Hp; done. }
  split; [|done]. split; cbn [files]; try done.
  - refine (append_sound (created_entry p (JObj (metadata_members p days)))
              {| files := set_metadata_file (json_document (JObj (metadata_members p days))) no_files; cp := p |} [] None _ _ _).
    + by split.
    + unfold fresh_writer, current_head. cbn [cp]. by rewrite He.
    + done.
  - split; [done|constructor|constructor].
  - constructor; [done|constructor].
  - intros l1 x l2 E Hne. destruct l1 as [|y [|z l1]]; [done|discriminate|discriminate].
  - eexists. split; [exact Hfo|]. cbn. by rewrite He.
Qed.

Lemma create_good e directory run subject budget lp trust days p f verifier :
  interrupted_write e = None ->
  create e directory run subject CONTRACT_RECEIVED budget lp trust days no_files = (Ok p, f) ->
  let p0 := fresh_plane run subject CONTRACT_RECEIVED budget lp (default no_trust trust) [] in
  event_ok (created_event p0 days) ->
  good verifier p0 days [created_event p0 days] [] {| files := f; cp := p |}.
Proof.
  intros Hw E p0 Hok. unfold create in E. cbn [bool_decide] in E.
  do 4 (apply st_bind_Ok in E as (? & ? & E0 & E); injection E0 as _ <-).
  unfold creating, _exclusive_lock in E. destruct (run_directory e); [|done..].
  destruct (interrupted_metadata e) eqn:Em.
  - unfold create_locked in E. rewrite get_bind in E. cbn [files no_files metadata_file ledger_file] in E.
    unfold write_metadata in E. rewrite Em in E. done.
  - rewrite create_locked_fresh in E by done. injection E as <- <-. by apply created_good.
Qed.

(** ** Instances that share a run *)

(** The run directory, and the instances of the processes that use it. *)
Record system : Type := { disk : run_files; instances : list plane }.

Section System.
Variable verifier : option (string -> string -> json -> string -> option bool).

(** An instance makes a call, which the lock of the run makes one step, a process
    reads the files, or a process ends. *)
Inductive system_step (s : system) : system -> Prop :=
  | CallStep i p e k disk' p' :
      instances s !! i = Some p ->
      calls verifier e k {| files := disk s; cp := p |} {| files := disk'; cp := p' |} ->
      system_step s {| disk := disk'; instances := <[i := p']> (instances s) |}
  | LoadStep e p :
      evidence_verifier e = verifier -> load e (disk s) = Ok p ->
      system_step s {| disk := disk s; instances := instances s ++ [p] |}
  | ExitStep i : system_step s {| disk := disk s; instances := delete i (instances s) |}.
Definition system_runs : system -> system -> Prop := rtc system_step.

Variable p0 : plane.
Variable retention_days : Z.
Hypothesis fresh : is_fresh p0.
Hypothesis valid : run_ok p0 retention_days.

Definition sound (l : list LifecycleEvent) (attempts : list MutationAttempt) (s : system) : Prop :=
  shared verifier p0 retention_days l attempts (disk s) /\
  Forall (follows verifier p0 retention_days l (attempt_map attempts)) (instances s).

Lemma sound_loads e l attempts s :
  sound l attempts s -> evidence_verifier e = verifier ->
  exists p, load e (disk s) = Ok p /\ follows verifier p0 retention_days l (attempt_map attempts) p /\
            events p = l /\ mutation_attempts p = attempt_map attempts.
Proof.
  intros [Hs _] Hv. destruct (sh_current _ _ _ _ _ _ Hs) as (q & Hq & El).
  eexists. split; [by eapply loads_current|]. split_and!; [by apply seen_follows|done..].
Qed.

Lemma grown_prefix l l' s s' : grown l l' s s' -> l `prefix_of` l'.
Proof. intros [->|(_ & _ & x & ->)]; [done|by apply prefix_app_r]. Qed.

Lemma step_sound l attempts s s' :
  system_step s s' -> sound l attempts s ->
  exists l' attempts', sound l' attempts' s' /\ l `prefix_of` l' /\ attempt_map attempts ⊆ attempt_map attempts'.
Proof.
  intros Hstep [Hs Hi]. destruct Hstep as [i p e k disk' p' Hp Hk|e p Hv Hload|i].
  - apply (call_good verifier p0 retention_days _ _ l attempts) in Hk.
    + destruct Hk as (l' & attempts' & [Hs' Hp'] & Hg & Hj). apply grown_prefix in Hg.
      exists l', attempts'. split; [|done]. split; [done|]. apply Forall_insert; [|done].
      eapply Forall_impl; [exact Hi|]. intros q Hq. by eapply follows_mono.
    + split; [done|]. by eapply Forall_lookup_1 in Hi.
  - exists l, attempts. split; [|done]. split; [done|]. apply Forall_app. split; [done|]. constructor; [|done].
    destruct (sound_loads e l attempts s) as (q & Eq & Hq & _); [done..|]. rewrite Hload in Eq. by injection Eq as ->.
  - exists l, attempts. split; [|done]. split; [done|]. by apply Forall_delete.
Qed.

Lemma runs_sound l attempts s s' :
  system_runs s s' -> sound l attempts s ->
  exists l' attempts', sound l' attempts' s' /\ l `prefix_of` l' /\ attempt_map attempts ⊆ attempt_map attempts'.
Proof.
  intros Hr. revert l attempts. induction Hr as [s|s s1 s' Hs _ IH]; intros l attempts Hl; [by exists l, attempts|].
  apply (step_sound l attempts) in Hs as (l1 & a1 & H1 & P1 & J1); [|done].
  destruct (IH l1 a1 H1) as (l2 & a2 & H2 & P2 & J2). exists l2, a2. split_and!; [done|by etrans..].
Qed.

(** A run that [create] began: its metadata can be written and read back. *)
Definition begins (s : system) : Prop :=
  exists e directory p f,
    interrupted_write e = None /\ event_ok (created_event p0 retention_days) /\
    create e directory (run_id p0) (subject_digest p0) CONTRACT_RECEIVED (budget_policy p0) (policy p0)
      (Some (trust_policy p0)) retention_days no_files = (Ok p, f) /\
    s = {| disk := f; instances := [p] |}.

Hypothesis received : state p0 = CONTRACT_RECEIVED.

Lemma begins_sound s : begins s -> sound [created_event p0 retention_days] [] s.
Proof.
  intros (e & directory & p & f & Hw & Hok & E & ->).
  assert (Ep : p0 = fresh_plane (run_id p0) (subject_digest p0) CONTRACT_RECEIVED (budget_policy p0) (policy p0)
                      (trust_policy p0) []) by (rewrite <- received; exact fresh).
  pose proof (create_good e directory _ _ _ _ _ _ p f verifier Hw E) as Hc. cbn [from_option id] in Hc.
  rewrite <- Ep in Hc. destruct (Hc Hok) as [Hs Hp]. split; [done|]. by constructor.
Qed.

Lemma reached_sound s0 s :
  begins s0 -> system_runs s0 s -> exists l attempts, sound l attempts s.
Proof.
  intros Hb Hr. destruct (runs_sound _ _ _ _ Hr (begins_sound _ Hb)) as (l & attempts & Hs & _). eauto.
Qed.

(** What [load] returns, with what it knows. *)
Lemma reached_loads s0 s e q :
  begins s0 -> system_runs s0 s -> evidence_verifier e = verifier -> load e (disk s) = Ok q ->
  exists l attempts, sound l attempts s /\ events q = l /\ mutation_attempts q = attempt_map attempts /\
    lawful verifier p0 retention_days l (attempt_map attempts) /\
    knows verifier p0 retention_days (attempt_map attempts) q.
Proof.
  intros Hb Hr Hv Hq. destruct (reached_sound _ _ Hb Hr) as (l & attempts & Hs).
  destruct (sound_loads e l attempts s Hs Hv) as (q' & E & Hf & El & Em). rewrite Hq in E. injection E as <-.
  exists l, attempts. split_and!; try done; [by destruct Hs as [[]]|by eapply follows_knows].
Qed.

(** ** What [load] returns *)

(** C2. The files are the run: however the operations of however many instances
    interleave, [load] rebuilds from the files alone an instance that knows
    everything, and an instance that was up to date is that instance, but for
    the attempts that others journaled and for the challenge that it issued.  The
    operations of a run are those of [calls]: the instances share one verifier, no
    write is interrupted, the events that are written can be carried by JSON, and
    the arguments are those of [call_ok], which leave out two shapes: a recorded
    result whose digest is the text [UNKNOWN] or empty, and evidence under the
    name [consumed_mutation_result_key].  With the first [load] may fail
    ([recorded_result_locks_the_run]), with the second it may give another instance
    ([ControlDemo.refusal_uses_up_a_result]). *)
Theorem load_rebuilds_the_run s0 s e :
  begins s0 -> system_runs s0 s -> evidence_verifier e = verifier ->
  exists q, load e (disk s) = Ok q /\
    forall p, p ∈ instances s ->
      events p `prefix_of` events q /\ mutation_attempts p ⊆ mutation_attempts q /\
      (length (events p) = length (events q) -> q = seen (events q) (mutation_attempts q) p).
Proof.
  intros Hb Hr Hv. destruct (reached_sound _ _ Hb Hr) as (l & attempts & Hs).
  destruct (sound_loads e l attempts s Hs Hv) as (q & Eq & Hq & El & Em). exists q. split; [done|].
  intros p Hp. pose proof (proj2 Hs) as Hi. rewrite Forall_forall in Hi. specialize (Hi p Hp). rewrite El, Em.
  split_and!; [apply Hi|apply Hi|]. intros Hlen.
  assert (Ep : events p = l) by (apply prefix_length_eq; [apply Hi|lia]).
  pose proof (loads_current _ _ _ e l attempts (disk s) p (proj1 Hs) fresh valid Hv Hi Ep) as Ep'.
  rewrite Eq in Ep'. by injection Ep'.
Qed.

(** C5. The ledger is append-only, and only an instance that knows all of it
    writes: a step adds nothing, or one event of an instance whose history was
    the whole ledger, which the others must read before they write again. *)
Theorem only_current_instances_write s0 s s' e q q' :
  begins s0 -> system_runs s0 s -> system_step s s' -> evidence_verifier e = verifier ->
  load e (disk s) = Ok q -> load e (disk s') = Ok q' ->
  events q' = events q \/
  exists i p p' x, instances s !! i = Some p /\ instances s' !! i = Some p' /\
                   events p = events q /\ events p' = events q' /\ events q' = events q ++ [x].
Proof.
  intros Hb Hr Hstep Hv Eq Eq'. destruct (reached_loads _ _ _ _ Hb Hr Hv Eq) as (l & attempts & Hs & El & _).
  assert (Hl' : forall l' attempts', shared verifier p0 retention_days l' attempts' (disk s') -> events q' = l').
  { intros l' attempts' Hs'. destruct (sound_loads e l' attempts' {| disk := disk s'; instances := [] |}) as (q2 & E2 & _ & E3 & _);
      [by split; [|constructor]|done|]. cbn in E2. rewrite Eq' in E2. by injection E2 as <-. }
  destruct Hstep as [i p e' k disk' p' Hp Hk|e' p Hv' Hload|i]; cbn [disk instances] in *.
  - apply (call_good verifier p0 retention_days _ _ l attempts) in Hk.
    + destruct Hk as (l' & attempts' & [Hs' _] & Hg & _). rewrite (Hl' _ _ Hs'), El.
      destruct Hg as [->|(Ep & Ep' & x & ->)]; [by left|right]. exists i, p, p', x. split_and!; try done.
      apply list_lookup_insert_eq. by eapply lookup_lt_Some.
    + split; [apply Hs|]. cbn [cp]. destruct Hs as [_ Hi]. by eapply Forall_lookup_1 in Hi.
  - left. rewrite (Hl' _ _ (proj1 Hs)). done.
  - left. rewrite (Hl' _ _ (proj1 Hs)). done.
Qed.

(** C4. Every applied event of a run follows the policy: it starts in the state
    that the events before it lead to, there is a rule of the policy for it, the
    actor it names was authentic and held the permission of the rule, and each
    name of evidence that the rule requires has a canonical value in it.  Under a
    policy of the program this is so for every required name; a foreign policy
    could require, for the stop in front of the merge, the names that this stop
    replaces by the inputs of the review ([overwrites]). *)
Theorem ledger_follows_policy s0 s e q l1 x l2 :
  begins s0 -> system_runs s0 s -> evidence_verifier e = verifier -> load e (disk s) = Ok q ->
  events q = l1 ++ x :: l2 -> l1 <> [] -> applied x = true ->
  ev_source x = state_after l1 /\
  exists e' p r c, evidence_verifier e' = verifier /\ events p = l1 /\ policy p = policy p0 /\
                   by_the_rules e' p x r c /\
                   (PHASE_ZERO_POLICY = Ok (policy p0) \/ PHASE_FOUR_POLICY = Ok (policy p0) ->
                    forall name, name ∈ required_evidence r -> given (ev_evidence_refs x) name).
Proof.
  intros Hb Hr Hv Eq El Hne Ha. destruct (reached_loads _ _ _ _ Hb Hr Hv Eq) as (l & attempts & Hs & <- & _ & Hlaw & _).
  destruct (Hlaw _ _ _ El Hne) as (e' & known & p & y & q' & Hv' & Hk & Hp & Ep & Hw & ->).
  rewrite (written_source _ _ _ _ _ Hw). split.
  - rewrite <- Ep. eapply (state_history _ _ _ _ _ (attempt_map attempts)); try done.
    + apply follows_knows in Hp. by eapply follows_mono; [|exact Hk|exact Hp].
    + rewrite Ep, El. by apply prefix_app_r.
  - destruct (written_by_the_rules _ _ _ _ _ Hw Ha) as (r & c & Hrc).
    assert (Epol : policy p = policy p0) by by destruct (fo_run _ _ _ _ _ _ Hp). exists e', p, r, c. split_and!; try done.
    rewrite <- Epol. intros Hlp name Hn. apply (br_evidence _ _ _ _ _ Hrc); [done|].
    eapply current_policies_overwrite_nothing; [exact Hlp| |done]. apply (br_rule _ _ _ _ _ Hrc).
Qed.

(** C36. A recorded result can lock the run.  When the call of an instance returned
    a result whose digest is the text [UNKNOWN] or empty (which only the [FAILED]
    and [UNKNOWN] status allow) and added its event, [load] returned on the files
    before the call, and refuses them after it in every environment.  It reads the
    digest as a missing one, which the adapter did not sign: the verifier is
    assumed to tell the two payloads apart. *)
Theorem recorded_result_locks_the_run s0 s e i p attempt status d a result s' :
  begins s0 -> system_runs s0 s -> evidence_verifier e = verifier -> interrupted_write e = None ->
  instances s !! i = Some p -> told_apart (Some d) = false -> readable (sorted_names (ae_capabilities a)) = true ->
  _verify_external_evidence e (ae_adapter_id a) (ae_authority_digest a)
    (_adapter_result_evidence_payload (without_digest a)) (ae_authentication_evidence_digest a) = false ->
  record_mutation_result e attempt status (Some d) (Some a) {| files := disk s; cp := p |} = (Ok result, s') ->
  events (cp s') <> events p -> Forall event_ok (events (cp s')) ->
  (forall e', evidence_verifier e' = verifier -> exists q, load e' (disk s) = Ok q) /\
  mr_result_digest result = Some d /\
  (forall e', evidence_verifier e' = verifier ->
    load e' (files s') = Raise (ValueError "mutation result adapter evidence is invalid")).
Proof.
  intros Hb Hr Hv Hw Hi Ht Hc Hsig E Hne Hok. destruct (reached_sound _ _ Hb Hr) as (l & attempts & Hs).
  pose proof (Forall_lookup_1 _ _ _ _ (proj2 Hs) Hi) as Hp.
  assert (Hg : good verifier p0 retention_days l attempts {| files := disk s; cp := p |}) by (split; [apply Hs|done]).
  split. { intros e' Hv'. destruct (sound_loads e' l attempts s Hs Hv') as (q & Eq & _). eauto. }
  destruct (record_then _ _ _ _ _ _ _ _ _ _ _ _ _ Hw Hg E) as [->|(a' & [= <-] & Hf & Hj & Ha & _ & [= ->] & ->)]; [done|].
  split; [done|]. intros e' Hv'. cbn [files cp] in *. 
  rewrite (loads_next verifier p0 retention_days e' l attempts); try done; [|by apply Hs|by apply last_ok in Hok].
  destruct (attempt_named attempt) as [Hid Hkey].
  { eapply attempt_map_ok; [|exact Hj]. apply (sh_journal _ _ _ _ _ _ (proj1 Hs)). }
  eapply (result_refused e' _ _ e); [exact Ha|congruence|done..|]. unfold _verify_external_evidence in Hsig |- *.
  rewrite Hv'. by rewrite Hv in Hsig.
Qed.

(** C6. The result of a mutation is used once: a transition that needs the
    result of its mutation (all but the one that begins a rollback) never names
    one that an event before it used. *)
Theorem results_are_used_once s0 s e q l1 x l2 x' :
  begins s0 -> system_runs s0 s -> evidence_verifier e = verifier -> load e (disk s) = Ok q ->
  events q = l1 ++ x :: l2 -> x' ∈ l1 -> ev_target x <> ROLLBACK_IN_PROGRESS ->
  nonempty (used_key x) = true -> used_key x' <> used_key x.
Proof.
  intros Hb Hr Hv Eq El Hx Ht Hk. destruct (reached_loads _ _ _ _ Hb Hr Hv Eq) as (l & attempts & Hs & <- & _ & Hlaw & _).
  assert (Hne : l1 <> []) by (intros ->; by apply not_elem_of_nil in Hx).
  destruct (Hlaw _ _ _ El Hne) as (e' & known & p & y & q' & Hv' & Hkn & Hp & Ep & Hw & ->). subst l1.
  eapply (used_once verifier p0 retention_days e e'); try done.
  - apply follows_knows in Hp. by eapply follows_mono; [|exact Hkn|exact Hp].
  - rewrite El. by apply prefix_app_r.
Qed.

(** C11. What a run has, it keeps: from one moment to a later one the ledger is
    extended, no use of the budget and no limit of the budget falls, the results
    that are used stay used, and a known result stays as it was recorded. *)
Theorem runs_only_grow s0 s s' e q q' :
  begins s0 -> system_runs s0 s -> system_runs s s' -> evidence_verifier e = verifier ->
  load e (disk s) = Ok q -> load e (disk s') = Ok q' ->
  events q `prefix_of` events q' /\ mutation_attempts q ⊆ mutation_attempts q' /\ later q q'.
Proof.
  intros Hb Hr Hr' Hv Eq Eq'. destruct (reached_loads _ _ _ _ Hb Hr Hv Eq) as (l & attempts & Hs & El & Em & _ & Hq).
  destruct (runs_sound _ _ _ _ Hr' Hs) as (l' & attempts' & Hs' & Hpre & Hj).
  destruct (sound_loads e l' attempts' s' Hs' Hv) as (q2 & E2 & Hq2 & El2 & Em2). rewrite Eq' in E2. injection E2 as <-.
  rewrite El, El2, Em, Em2. split_and!; [done..|].
  eapply (later_history verifier p0 retention_days e l' (attempt_map attempts')); try done.
  - eapply new_budget_dimensions, (run_budget _ _ valid).
  - by destruct Hs' as [[]].
  - by eapply follows_mono; [|exact Hj|exact Hq].
  - by eapply follows_knows.
  - by rewrite El, El2.
  - by rewrite El2.
Qed.

(** C13. Under the current policy, in every instance of every run: the state is
    where its events lead, the reserve for safety is not overspent, no use is
    negative, and the claim of completion is active exactly in [COMPLETED]. *)
Theorem instances_are_well_formed s0 s e p :
  begins s0 -> system_runs s0 s -> evidence_verifier e = verifier -> PHASE_FOUR_POLICY = Ok (policy p0) ->
  p ∈ instances s ->
  state p = state_after (events p) /\ within_reserve p /\ usage_ok (budget_usage p) /\ claim_right p.
Proof.
  intros Hb Hr Hv Hpol Hp. apply phase_four_resumes in Hpol as Hshort. clear Hpol. destruct (reached_sound _ _ Hb Hr) as (l & attempts & [Hs Hi]).
  rewrite Forall_forall in Hi. specialize (Hi p Hp). pose proof (follows_knows _ _ _ _ _ _ Hi) as Hk.
  pose proof (sh_lawful _ _ _ _ _ _ Hs) as Hlaw. pose proof (fo_events _ _ _ _ _ _ Hi) as Hpre.
  assert (Hbudget : 0 <= bp_reserved_safety_units (budget_policy p0)).
  { pose proof (run_budget _ _ valid) as E. unfold new_budget_policy in E. simp_res. lia. }
  split_and!.
  - by eapply state_history.
  - eapply reserve_history; try done. by rewrite fresh.
  - by eapply fo_usage.
  - eapply claim_history; [exact Hshort| |done..]. by rewrite fresh, received.
Qed.
End System.

(** ** One transition *)

Lemma merge_returns prior supplied :
  usage_ok prior -> exists u, _merge_budget_usage prior supplied false = Ok u.
Proof.
  intros (_ & _ & _ & Hs)%usage_ok_spec. unfold _merge_budget_usage. cbn [andb raise_if mbind res_bind].
  eexists. apply usage_ok_spec. split_and!; try apply merged_nonneg. cbn. lia.
Qed.

Lemma refusal_returns e p c : usage_ok (budget_usage p) -> exists u, persisted_usage e p c = Ok u.
Proof.
  intros Hu. unfold persisted_usage. destruct (_trusted_budget_usage_valid e p c); [by apply merge_returns|eauto].
Qed.

Lemma known_all verifier p0 days l journal p :
  follows verifier p0 days l journal p -> length (events p) = length l -> events p = l.
Proof. intros Hp Hl. apply prefix_length_eq; [apply Hp|lia]. Qed.

(** What [_append] does on sound files: an event, or a refusal without effect. *)
Lemma append_returns {B} e x extension (k : LifecycleEvent -> op B) l attempts verifier p0 days s :
  interrupted_write e = None -> run_directory e = SameDirectory -> good verifier p0 days l attempts s ->
  if decide (length (events (cp s)) = length l)
  then (_append e x None extension ≫= k) s
       = k (event_of (cp s) x) {| files := with_line (event_of (cp s) x) (files s);
                                  cp := appended (event_of (cp s) x) extension (cp s) |}
  else exists detail, (_append e x None extension ≫= k) s = (Raise (TransitionDeniedError detail), s).
Proof.
  intros Hw Hd [Hs Hp]. unfold _append, _exclusive_lock. rewrite Hd.
  pose proof (append_locked_spec e x None extension s l Hw (sh_ledger _ _ _ _ _ _ Hs)) as Ha. cbv zeta in Ha.
  destruct (decide (length (events (cp s)) = length l)) as [El|Hne].
  - apply (known_all _ _ _ _ _ _ Hp) in El.
    rewrite decide_True in Ha by (split_and!; [by rewrite El|unfold current_head, head_of; by rewrite El|done]).
    unfold mbind at 1, st_bind. by rewrite Ha.
  - rewrite decide_False in Ha.
    + destruct Ha as [detail Ha]. exists detail. unfold mbind, st_bind. by rewrite Ha.
    + intros (Hf & _). by apply Hne.
Qed.

(** What [transition] leaves, for each decision of its guards. *)
Definition transition_leaves (l : list LifecycleEvent) (target : LifecycleState) (c : TransitionContext) (why : string)
    (v : verdict decision) (s : control) (r : res LifecycleEvent) (s' : control) : Prop :=
  match v with
  | Proceed d =>
      if decide (length (events (cp s)) = length l)
      then let event := event_of (cp s) (applied_entry (cp s) target c why d) in
           r = Ok event /\ files s' = with_line event (files s) /\ events (cp s') = l ++ [event] /\
           state (cp s') = target
      else (exists detail, r = Raise (TransitionDeniedError detail)) /\ s' = s
  | Denied t c' detail =>
      if decide (length (events (cp s)) = length l)
      then exists u, let event := event_of (cp s) (denial (cp s) t c' why detail u) in
           r = Raise (TransitionDeniedError detail) /\ files s' = with_line event (files s) /\
           cp s' = set_budget_usage u (set_events (l ++ [event]) (cp s)) /\ usage_le (budget_usage (cp s)) u
      else (exists detail, r = Raise (TransitionDeniedError detail)) /\ s' = s
  | Failed x => r = Raise x /\ s' = s
  end.

(** C12. [transition] returns what its guards decide, and writes exactly that: an
    admitted transition moves the state and adds its event; a refusal adds a
    [DENIED] event and leaves the instance as it was but for the use of the
    budget, which did not fall; an instance that has not read the whole ledger
    writes nothing; and nothing else is written, whatever the evidence. *)
Theorem transition_writes_its_decision e target c why l attempts verifier p0 days s r s' :
  interrupted_write e = None -> run_directory e = SameDirectory -> purge_error e = None ->
  good verifier p0 days l attempts s -> transition e target c why s = (r, s') ->
  transition_leaves l target c why (decide_transition e (cp s) (Ok (attempt_map attempts)) target why c) s r s'.
Proof.
  intros Hw Hd Hpe Hg Et. assert (Hr : r = fst (transition e target c why s) /\ s' = snd (transition e target c why s)).
  { by rewrite Et. }
  destruct Hr as [-> ->]. clear Et. unfold transition, _exclusive_lock. rewrite Hd. unfold _transition_locked.
  rewrite !get_bind. rewrite (read_journal attempts (files s)) by apply (proj1 Hg).
  destruct (decide_transition e (cp s) (Ok (attempt_map attempts)) target why c) as [d|t c' detail|x]; cbn [carry_out].
  - pose proof (append_returns e (applied_entry (cp s) target c why d) None
      (fun event => _ ← set_cp (adopt target d);
                    if String.eqb (de_kind d) "COMPLETION_CLAIMED"
                    then match purge_error e with Some x => raise_st x | None => mret event end
                    else mret event) l attempts verifier p0 days s Hw Hd Hg) as Ha.
    unfold transition_leaves. destruct (decide (length (events (cp s)) = length l)) as [El%(known_all _ _ _ _ _ _ (proj2 Hg))|].
    + rewrite Ha, Hpe. cbn -[event_of adopt].
      destruct (String.eqb (de_kind d) "COMPLETION_CLAIMED"); cbn -[event_of adopt];
        (split_and!; [done..| |apply adopt_state]);
        rewrite <- El; by destruct (adopt_keeps target d (appended (event_of (cp s) (applied_entry (cp s) target c why d)) None (cp s))).
    + destruct Ha as [detail' Ha]. rewrite Ha. eauto.
  - unfold _deny. rewrite get_bind. destruct (refusal_returns e (cp s) c') as [u Eu]; [apply (proj2 Hg)|].
    rewrite Eu, lift_Ok_bind.
    pose proof (append_returns e (denial (cp s) t c' why detail u) None
      (fun _ => _ ← set_cp (set_budget_usage u); denied detail : op LifecycleEvent) l attempts verifier p0 days s Hw Hd Hg) as Ha.
    unfold transition_leaves. destruct (decide (length (events (cp s)) = length l)) as [El%(known_all _ _ _ _ _ _ (proj2 Hg))|].
    + rewrite Ha. exists u. cbn -[event_of]. split_and!; [done..|by rewrite El|].
      eapply persisted_usage_le; [exact Eu|apply (proj2 Hg)].
    + destruct Ha as [detail' Ha]. rewrite Ha. eauto.
  - done.
Qed.
End Theorems.
