(* ===== verification/ControlDemo.v ===== *)
(** * The lifecycle control plane: a concrete run

    A policy of one rule, a mutation that is journaled, reported and used, and
    the theorems at that run. *)
From Stdlib Require Import Ascii String.
From S2P Require Import Prelude Sha256 Json JsonText JsonIndent JsonFacts JsonAscii PyStr PyConv TextFacts.
From S2P Require Import AcceptanceTheorems Lifecycle LifecycleRules LifecycleTheorems ControlData.
From S2P Require Import ControlEvidence ControlLedger PolicySnapshots ControlGuards Control ControlLoad.
From S2P Require Import ControlFacts ControlReplay ControlDenials ControlLoadFacts.
From S2P Require Import ControlRun ControlHistory ControlTheorems.

#[local] Existing Instance ascii_unicode.

(** [fromisoformat] of the whole minutes of one hour. *)
Definition hour : string := "2026-01-01T00:".
#[local] Instance minute_times : Datetime := {|
  fromisoformat text :=
    if startswith text hour && endswith text ":00+00:00" && Nat.eqb (String.length text) 25
       && string_forallb is_digit (take_str 2 (drop_str 14 text))
    then Some {| tz_aware := true;
                 micros := 1767225600000000 + int_of_token (take_str 2 (drop_str 14 text)) * 60000000 |}
    else None;
  utc_isoformat now := hour +:+ "00:00+00:00" |}.

Section Demo.
Local Open Scope string_scope.

Definition seal (c : ascii) : string := "sha256:" +:+ string_of_list_ascii (repeat c 64).
Definition demo_subject : string := seal "a".
Definition demo_authority : string := seal "b".

(** ** The run *)

(** Whether a payload has a result digest that is missing ([null]). *)
Definition undigested (payload : json) : bool :=
  match payload with
  | JObj fields => existsb (fun '(k, v) => String.eqb k "result_digest" && match v with JNull => true | _ => false end) fields
  | _ => false
  end.
(** Everything signed is accepted, except that no adapter signs a result without
    a digest. *)
Definition demo_verifier : option (string -> string -> json -> string -> option bool) :=
  Some (fun _ _ payload proof => Some (String.eqb proof "signed" && negb (undigested payload))).
Definition demo_env : control_env := {|
  evidence_verifier := demo_verifier; bundle_verifier := None; utc_now _ := 1767225600000000; monotonic := 0;
  run_directory := SameDirectory; interrupted_write := None; interrupted_metadata := false; purge_error := None |}.

Definition demo_rule : TransitionRule :=
  _r CONTRACT_RECEIVED CONTRACT_APPROVED "cleaned_up" ["subject_digest"; "zero_resource_digest"]%string
    ["mutation"]%string (Some "cleanup_staging").
Definition demo_policy : LifecyclePolicy := {|
  policy_version := "demo"; rules := [demo_rule]; mutation_subject_fields := _MUTATION_SUBJECT_FIELDS;
  mutation_subject_field_variants := map (fun p => (fst p, [snd p])) _MUTATION_SUBJECT_FIELDS;
  policy_digest := _digest (policy_payload "demo" _MUTATION_SUBJECT_FIELDS [demo_rule]) |}.
Definition demo_budget : BudgetPolicy := {|
  bp_version := "1"; bp_limits := gset_to_gmap 10 _BUDGET_DIMENSIONS; bp_repair_attempts_per_finding := 1;
  bp_repair_attempts_per_stage := 1; bp_reserved_safety_units := 2; bp_approved_by := "owner" |}.
Definition demo_trust : EvidenceTrustPolicy := {|
  adapter_authorities := {[ "adapter" := demo_authority ]}; budget_owner_authorities := ∅; repository_observers := ∅;
  work_controllers := ∅; production_approvers := ∅; budget_meters := ∅; formal_reviewers := ∅; native_merge_gates := ∅;
  finding_sources := ∅; mutation_authorizers := {[ "authorizer" := demo_authority ]}; live_observers := ∅;
  authority_observers := ∅; integrity_monitors := ∅ |}.
Definition demo_plane : plane :=
  fresh_plane "run" demo_subject CONTRACT_RECEIVED demo_budget demo_policy demo_trust [].

Definition demo_evidence : evidence_map := list_to_map
  [("subject_digest", demo_subject); ("zero_resource_digest", seal "c")]%string.
Definition demo_attempt : MutationAttempt := {|
  ma_id := "attempt"; ma_idempotency_key := "key"; ma_subject_digest := demo_subject; ma_action := "cleanup_staging";
  ma_step_plan_digest := _digest (selected (fields_of _MUTATION_SUBJECT_FIELDS (Some "cleanup_staging")) demo_evidence);
  ma_status := "PLANNED"; ma_steps := ["clean"] |}%list.
Definition demo_authorization : MutationAuthorization := {|
  mz_authorizer_id := "authorizer"; mz_authority_digest := demo_authority; mz_subject_digest := demo_subject;
  mz_source_state := CONTRACT_RECEIVED; mz_action := "cleanup_staging"; mz_attempt_id := "attempt";
  mz_idempotency_key := "key"; mz_step_plan_digest := ma_step_plan_digest demo_attempt; mz_steps := ["clean"];
  mz_observed_at := hour +:+ "00:00+00:00"; mz_expires_at := hour +:+ "05:00+00:00";
  mz_authentication_evidence_digest := "signed" |}%list.
Definition demo_adapter : AdapterResultEvidence := {|
  ae_adapter_id := "adapter"; ae_role := "worker"; ae_authenticated := true;
  ae_capabilities := {[ "lifecycle.mutation.result.record" ]}; ae_subject_digest := demo_subject;
  ae_authority_digest := demo_authority; ae_attempt_id := "attempt"; ae_idempotency_key := "key";
  ae_action := "cleanup_staging"; ae_step_plan_digest := ma_step_plan_digest demo_attempt; ae_status := "SUCCEEDED";
  ae_result_digest := Some (seal "d"); ae_authentication_evidence_digest := "signed" |}.
Definition demo_snapshot : AuthoritySnapshot :=
  let unsealed := {| as_contract_version := "1"; as_publisher_version := "1"; as_contract_active := true;
                     as_publisher_active := true; as_observed_at := hour +:+ "00:00+00:00";
                     as_valid_until := hour +:+ "30:00+00:00"; as_digest := "" |} in
  {| as_contract_version := "1"; as_publisher_version := "1"; as_contract_active := true; as_publisher_active := true;
     as_observed_at := as_observed_at unsealed; as_valid_until := as_valid_until unsealed;
     as_digest := _digest (JObj
       [("contract_version", JStr "1"); ("publisher_version", JStr "1"); ("contract_active", JBool true);
        ("publisher_active", JBool true); ("observed_at", JStr (as_observed_at unsealed));
        ("valid_until", JStr (as_valid_until unsealed))]%string) |}.
Definition demo_context : TransitionContext := {|
  tc_actor := {| ac_id := "agent"; ac_role := "controller"; ac_authenticated := true;
                 ac_capabilities := {[ "lifecycle.transition" ]}; ac_subject_digest := demo_subject;
                 ac_authority_digest := as_digest demo_snapshot; ac_authentication_evidence_digest := "signed" |};
  tc_evidence := demo_evidence; tc_authority := demo_snapshot; tc_budget_usage := no_usage;
  tc_rollout := {| ro_staging := "NONE"; ro_canary := "NONE"; ro_changed_production := "NONE" |};
  tc_work := {| wk_leases_active := 0; wk_stopped := true; wk_mutation_capability_active := false;
                wk_partial_output_disposition := "none" |};
  tc_approvals := []; tc_finding := None; tc_mutation := Some demo_attempt;
  tc_observed_at := hour +:+ "01:00+00:00" |}.

Definition demo_created : res plane * run_files :=
  create demo_env "run" "run" demo_subject CONTRACT_RECEIVED demo_budget demo_policy (Some demo_trust) 30 no_files.
Definition control_of (r : res plane * run_files) : control :=
  {| files := snd r; cp := match fst r with Ok p => p | Raise _ => demo_plane end |}.
Definition after (k : call) (s : control) : control := snd (perform demo_env k s).
Definition demo_0 : control := control_of demo_created.
Definition demo_1 : control := after (Prejournal demo_attempt demo_authorization None) demo_0.
Definition demo_2 : control :=
  after (RecordResult demo_attempt "SUCCEEDED" (Some (seal "d")) (Some demo_adapter)) demo_1.
Definition demo_3 : control := after (Transition CONTRACT_APPROVED demo_context "cleaned_up") demo_2.
(** ** Its steps *)

Lemma events_ok_by (l : list LifecycleEvent) (usages : list (option BudgetUsage)) :
  map ev_budget_usage l = map (fmap usage_members) usages ->
  forallb (fun x => readable (JObj (event_object x))) l = true -> Forall event_ok l.
Proof.
  revert usages. induction l as [|x l IH]; intros [|u us]; cbn [map forallb]; try done; intros [= Eu El] [Hx Hl]%andb_prop.
  constructor; [|by eapply IH]. split; [done|]. rewrite Eu. destruct u as [u|]; [apply sort_usage_members|done].
Qed.

(** What evaluation shows of the run. *)
Definition event_texts_read (s : control) : bool := forallb (fun x => readable (JObj (event_object x))) (events (cp s)).
Definition usages_are (usages : list (option BudgetUsage)) (s : control) : Prop :=
  map ev_budget_usage (events (cp s)) = map (fmap usage_members) usages.
Lemma demo_events_ok usages s : usages_are usages s -> event_texts_read s = true -> Forall event_ok (events (cp s)).
Proof. apply events_ok_by. Qed.
Definition shows_use (q : plane) : bool :=
  match events q with
  | [a; b; x] => applied x && bool_decide (ev_target x = CONTRACT_APPROVED) && String.eqb (used_key x) "key"
  | _ => false
  end.
Definition loaded (check : plane -> bool) (s : control) : bool :=
  match load demo_env (files s) with Ok q => check q | Raise _ => false end.

Lemma loaded_spec check s : loaded check s = true -> exists q, load demo_env (files s) = Ok q /\ check q = true.
Proof. unfold loaded. destruct (load demo_env (files s)) as [q|]; [by exists q|discriminate]. Qed.
Lemma shows_use_spec q :
  shows_use q = true -> exists l1 x, events q = (l1 ++ [x])%list /\ length l1 = 2%nat /\ applied x = true /\
    ev_target x = CONTRACT_APPROVED /\ used_key x = "key".
Proof.
  unfold shows_use. destruct (events q) as [|a [|b [|x [|y l]]]]; try discriminate. intros [[Ha Ht]%andb_prop Hk]%andb_prop.
  exists [a; b], x. split_and!; try done; [by eapply bool_decide_eq_true_1|by apply String.eqb_eq].
Qed.

(** One evaluation, in which the steps are shared. *)
Lemma demo_facts :
  is_ok (fst demo_created) = true /\ readable (JObj (event_object (created_event demo_plane 30))) = true
  /\ (attempt_ok demo_attempt /\ usages_are [None] demo_1 /\ event_texts_read demo_1 = true)
  /\ (usages_are [None; None] demo_2 /\ event_texts_read demo_2 = true)
  /\ (usages_are [None; None; Some no_usage] demo_3 /\ event_texts_read demo_3 = true)
  /\ (loaded (fun _ => true) demo_2 = true /\ loaded shows_use demo_3 = true /\ state (cp demo_3) = CONTRACT_APPROVED).
Proof. vm_compute. repeat split; reflexivity. Qed.

Definition system_of (s : control) : system := {| disk := files s; instances := [cp s] |}.

Lemma control_eta s : {| files := disk (system_of s); cp := cp s |} = s.
Proof. by destruct s. Qed.

Lemma disk_of s : disk (system_of s) = files s.
Proof. done. Qed.

Lemma demo_fresh : is_fresh demo_plane.
Proof. reflexivity. Qed.
Lemma demo_run_ok : run_ok demo_plane 30.
Proof.
  split; [vm_compute; reflexivity..|].
  apply (snapshot_reads_policy "demo" [demo_rule]); [reflexivity|vm_compute; reflexivity|vm_compute; reflexivity].
Qed.

Lemma demo_begins : begins demo_plane 30 (system_of demo_0).
Proof.
  destruct demo_facts as (Hok & Hr & _). exists demo_env, "run", (cp demo_0), (files demo_0). split_and!; [done| | |done].
  { split; [exact Hr|done]. }
  change (demo_created = (Ok (cp demo_0), files demo_0)). unfold demo_0, control_of.
  destruct demo_created as [[p|x] f]; [done|discriminate Hok].
Qed.

Lemma demo_step k s s' :
  s' = after k s -> call_ok k -> Forall event_ok (events (cp s')) ->
  system_step demo_verifier (system_of s) (system_of s').
Proof.
  intros -> Hk Hok. refine (CallStep _ (system_of s) 0 (cp s) demo_env k (files (after k s)) (cp (after k s)) eq_refl _).
  split_and!; try done. exists (fst (perform demo_env k s)). cbn [system_of disk]. unfold after.
  destruct s as [f p]. cbn [files cp]. by destruct (perform demo_env k _) as [r []].
Qed.

Lemma demo_step_1 : system_step demo_verifier (system_of demo_0) (system_of demo_1).
Proof.
  destruct demo_facts as (_ & _ & (Ha & Hu & Hr) & _).
  apply (demo_step (Prejournal demo_attempt demo_authorization None) demo_0 demo_1); [reflexivity|exact Ha|].
  exact (demo_events_ok [None] demo_1 Hu Hr).
Qed.
Lemma demo_step_2 : system_step demo_verifier (system_of demo_1) (system_of demo_2).
Proof.
  destruct demo_facts as (_ & _ & _ & (Hu & Hr) & _).
  apply (demo_step (RecordResult demo_attempt "SUCCEEDED" (Some (seal "d")) (Some demo_adapter)) demo_1 demo_2).
  - reflexivity.
  - split; vm_compute; reflexivity.
  - exact (demo_events_ok [None; None] demo_2 Hu Hr).
Qed.
Lemma demo_step_3 : system_step demo_verifier (system_of demo_2) (system_of demo_3).
Proof.
  destruct demo_facts as (_ & _ & _ & _ & (Hu & Hr) & _).
  apply (demo_step (Transition CONTRACT_APPROVED demo_context "cleaned_up") demo_2 demo_3).
  - reflexivity.
  - vm_compute; reflexivity.
  - exact (demo_events_ok [None; None; Some no_usage] demo_3 Hu Hr).
Qed.

Lemma demo_runs : system_runs demo_verifier (system_of demo_0) (system_of demo_3).
Proof.
  refine (rtc_l _ _ _ _ demo_step_1 (rtc_l _ _ _ _ demo_step_2 (rtc_l _ _ _ _ demo_step_3 (rtc_refl _ _)))).
Qed.

(** ** The theorems at this run *)

Local Close Scope string_scope.

Definition demo_end : system := system_of demo_3.

Lemma demo_runs_2 : system_runs demo_verifier (system_of demo_0) (system_of demo_2).
Proof. exact (rtc_l _ _ _ _ demo_step_1 (rtc_l _ _ _ _ demo_step_2 (rtc_refl _ _))). Qed.

(** What [load] returns at the end: the events by what they show. *)
Lemma demo_loads_2 : exists q, load demo_env (files demo_2) = Ok q.
Proof. destruct demo_facts as (_ & _ & _ & _ & _ & (q & Eq & _)%loaded_spec & _). by exists q. Qed.
Lemma demo_loads_3 :
  exists q l1 x, load demo_env (files demo_3) = Ok q /\ events q = l1 ++ [x] /\ length l1 = 2%nat /\
    applied x = true /\ ev_target x = CONTRACT_APPROVED /\ used_key x = "key"%string.
Proof.
  destruct demo_facts as (_ & _ & _ & _ & _ & _ & (q & Eq & (l1 & x & Hx)%shows_use_spec)%loaded_spec & _).
  exists q, l1, x. split; [exact Eq|exact Hx].
Qed.

Lemma load_rebuilds_the_run_witness :
  exists q, load demo_env (disk demo_end) = Ok q /\ state (cp demo_3) = CONTRACT_APPROVED /\
            events (cp demo_3) `prefix_of` events q.
Proof.
  destruct (load_rebuilds_the_run demo_verifier demo_plane 30 demo_fresh demo_run_ok eq_refl _ _ demo_env
              demo_begins demo_runs eq_refl) as (q & Eq & Hq).
  exists q. split; [exact Eq|]. split; [apply demo_facts|].
  exact (proj1 (Hq (cp demo_3) (list_elem_of_here _ _))).
Defined.

Lemma only_current_instances_write_witness :
  exists q q', load demo_env (files demo_2) = Ok q /\ load demo_env (files demo_3) = Ok q' /\
    (events q' = events q \/ exists x, events q' = events q ++ [x]).
Proof.
  destruct demo_loads_2 as [q Eq], demo_loads_3 as (q' & l1 & x & Eq' & _). exists q, q'.
  split; [exact Eq|]. split; [exact Eq'|].
  destruct (only_current_instances_write demo_verifier demo_plane 30 demo_fresh demo_run_ok eq_refl _ _ _ demo_env q q'
              demo_begins demo_runs_2 demo_step_3 eq_refl Eq Eq') as [E|(i & p & p' & y & _ & _ & _ & _ & E)];
    [left; exact E|right; exists y; exact E].
Defined.

Lemma ledger_follows_policy_witness :
  exists x l1, ev_source x = state_after l1 /\ ev_target x = CONTRACT_APPROVED /\
    given (ev_evidence_refs x) "subject_digest"%string /\ given (ev_evidence_refs x) "zero_resource_digest"%string.
Proof.
  destruct demo_loads_3 as (q & l1 & x & Eq & El & Hlen & Ha & Ht & _).
  destruct (ledger_follows_policy demo_verifier demo_plane 30 demo_fresh demo_run_ok eq_refl _ _ demo_env q l1 x []
              demo_begins demo_runs eq_refl Eq El) as (Hs & e & p & r & c & _ & _ & Ep & [(Hr & _) _ Hgiven] & _).
  - intros ->. discriminate.
  - exact Ha.
  - rewrite Ep in Hr. apply list_elem_of_singleton in Hr as ->. exists x, l1.
    split; [exact Hs|]. split; [exact Ht|].
    split; apply Hgiven; [apply list_elem_of_here|reflexivity|apply list_elem_of_further, list_elem_of_here|reflexivity].
Defined.

Lemma results_are_used_once_witness :
  exists x x' l1, x' ∈ l1 /\ length l1 = 2%nat /\ used_key x = "key"%string /\ used_key x' <> used_key x.
Proof.
  destruct demo_loads_3 as (q & l1 & x & Eq & El & Hlen & Ha & Ht & Hk). destruct l1 as [|x' l1]; [discriminate|].
  exists x, x', (x' :: l1). split; [apply list_elem_of_here|]. split; [exact Hlen|]. split; [exact Hk|].
  refine (results_are_used_once demo_verifier demo_plane 30 demo_fresh demo_run_ok eq_refl _ _ demo_env q (x' :: l1) x [] x'
            demo_begins demo_runs eq_refl Eq El (list_elem_of_here _ _) _ _).
  - rewrite Ht. discriminate.
  - rewrite Hk. reflexivity.
Defined.

Lemma runs_only_grow_witness :
  exists q q', load demo_env (files demo_2) = Ok q /\ load demo_env (files demo_3) = Ok q' /\ later q q'.
Proof.
  destruct demo_loads_2 as [q Eq], demo_loads_3 as (q' & l1 & x & Eq' & _). exists q, q'.
  split; [exact Eq|]. split; [exact Eq'|].
  exact (proj2 (proj2 (runs_only_grow demo_verifier demo_plane 30 demo_fresh demo_run_ok eq_refl _ _ _ demo_env q q'
              demo_begins demo_runs_2 (rtc_once _ _ demo_step_3) eq_refl Eq Eq'))).
Defined.

Lemma sound_good l attempts s :
  sound demo_verifier demo_plane 30 l attempts (system_of s) -> good demo_verifier demo_plane 30 l attempts s.
Proof. intros [Hs Hi]. split; [exact Hs|]. by inversion Hi. Qed.

Lemma transition_writes_its_decision_witness :
  exists l attempts r s',
    transition demo_env CONTRACT_APPROVED demo_context "cleaned_up" demo_2 = (r, s') /\
    transition_leaves l CONTRACT_APPROVED demo_context "cleaned_up"
      (decide_transition demo_env (cp demo_2) (Ok (attempt_map attempts)) CONTRACT_APPROVED "cleaned_up" demo_context)
      demo_2 r s'.
Proof.
  destruct (reached_sound demo_verifier demo_plane 30 demo_fresh demo_run_ok eq_refl _ _ demo_begins demo_runs_2)
    as (l & attempts & Hs).
  destruct (transition demo_env CONTRACT_APPROVED demo_context "cleaned_up" demo_2) as [r s'] eqn:E.
  exists l, attempts, r, s'. split; [reflexivity|].
  refine (transition_writes_its_decision demo_env CONTRACT_APPROVED demo_context "cleaned_up" l attempts demo_verifier
            demo_plane 30 demo_2 r s' eq_refl eq_refl eq_refl (sound_good l attempts demo_2 Hs) E).
Defined.

(** ** Two runs that the replay does not follow *)

(** A request that no rule admits, and that names the result in its evidence. *)
Definition greedy_context : TransitionContext :=
  with_evidence (<[consumed_key_name := "key"%string]> demo_evidence) demo_context.
Definition demo_denied : control := after (Transition COMPLETED greedy_context "no such rule") demo_2.

(** Whether the result under a key counts as used. *)
Definition counts_used (key : string) (p : plane) : bool := bool_decide (key ∈ consumed_mutation_result_keys p).
Definition same_state (p q : plane) : bool := bool_decide (state p = state q).

(** A refused request can use up a result that it does not own: the
    instance that refuses keeps the result of the mutation usable, but the
    refusal that it records makes every later [load] take the result for used,
    since the replay reads the mark of a used result from refusals too. *)
Theorem refusal_uses_up_a_result :
  counts_used "key" (cp demo_denied) = false /\ result_usable (cp demo_denied) demo_attempt = true /\
  exists q, load demo_env (files demo_denied) = Ok q /\ same_state q (cp demo_denied) = true /\
            counts_used "key" q = true /\ result_usable q demo_attempt = false.
Proof.
  assert (H3 : counts_used "key" (cp demo_denied) = false /\ result_usable (cp demo_denied) demo_attempt = true /\
               loaded (fun q => same_state q (cp demo_denied) && counts_used "key" q
                                && negb (result_usable q demo_attempt)) demo_denied = true)
    by (vm_compute; repeat split; reflexivity).
  destruct H3 as (H1 & H2 & (q & Eq & Hq)%loaded_spec). split; [exact H1|]. split; [exact H2|]. exists q.
  apply andb_prop in Hq as [[H3 H4]%andb_prop H5]. split; [exact Eq|]. split; [exact H3|]. split; [exact H4|].
  by apply negb_true_iff.
Qed.

(** A failure whose result digest is the text [UNKNOWN], signed by the adapter. *)
Definition failed_adapter : AdapterResultEvidence := {|
  ae_adapter_id := "adapter"; ae_role := "worker"; ae_authenticated := true;
  ae_capabilities := {[ "lifecycle.mutation.result.record" ]}; ae_subject_digest := demo_subject;
  ae_authority_digest := demo_authority; ae_attempt_id := "attempt"; ae_idempotency_key := "key";
  ae_action := "cleanup_staging"; ae_step_plan_digest := ma_step_plan_digest demo_attempt; ae_status := "FAILED";
  ae_result_digest := Some "UNKNOWN"; ae_authentication_evidence_digest := "signed" |}%string.
Abbreviation failed_record :=
  (record_mutation_result demo_env demo_attempt "FAILED" (Some "UNKNOWN"%string) (Some failed_adapter) demo_1).

Lemma failure_facts :
  is_ok (fst failed_record) = true
  /\ Nat.ltb (length (events (cp demo_1))) (length (events (cp (snd failed_record)))) = true
  /\ _verify_external_evidence demo_env (ae_adapter_id failed_adapter) (ae_authority_digest failed_adapter)
       (_adapter_result_evidence_payload (without_digest failed_adapter))
       (ae_authentication_evidence_digest failed_adapter) = false
  /\ readable (sorted_names (ae_capabilities failed_adapter)) = true
  /\ usages_are [None; None] (snd failed_record) /\ event_texts_read (snd failed_record) = true.
Proof. vm_compute. repeat split; reflexivity. Qed.

Lemma ok_pair {A B} (r : res A * B) : is_ok (fst r) = true -> exists a, r = (Ok a, snd r).
Proof. destruct r as [[a|x] b]; [by exists a|discriminate]. Qed.
Lemma longer_differs (p q : plane) : Nat.ltb (length (events p)) (length (events q)) = true -> events q <> events p.
Proof. intros H E. rewrite E, Nat.ltb_irrefl in H. discriminate H. Qed.

(** After the first step of the run: the failure is recorded, and the run that
    loaded before it never loads again. *)
Lemma recorded_result_locks_the_run_witness :
  exists result s', failed_record = (Ok result, s') /\ mr_result_digest result = Some "UNKNOWN"%string /\
    (exists q, load demo_env (files demo_1) = Ok q) /\
    load demo_env (files s') = Raise (ValueError "mutation result adapter evidence is invalid").
Proof.
  destruct failure_facts as (Hok & Hlen & Hsig & Hcaps & Husage & Hread).
  destruct (ok_pair _ Hok) as [result E]. exists result, (snd failed_record). split; [exact E|].
  destruct (recorded_result_locks_the_run demo_verifier demo_plane 30 demo_fresh demo_run_ok eq_refl
              (system_of demo_0) (system_of demo_1) demo_env 0 (cp demo_1) demo_attempt "FAILED" "UNKNOWN" failed_adapter
              result (snd failed_record) demo_begins (rtc_once _ _ demo_step_1) eq_refl eq_refl eq_refl eq_refl Hcaps Hsig)
    as (Hload & Hres & Hlock).
  - rewrite control_eta. exact E.
  - exact (longer_differs _ _ Hlen).
  - exact (demo_events_ok [None; None] _ Husage Hread).
  - rewrite disk_of in Hload. split; [exact Hres|]. split; [exact (Hload demo_env eq_refl)|exact (Hlock demo_env eq_refl)].
Defined.

(** ** A run under the current policy *)

#[local] Opaque _digest.

Lemma digest_text v : is_text (_digest v) = true.
Proof. Transparent _digest. unfold _digest. apply sha256_digest_text. Qed.
#[local] Opaque _digest.

Lemma readable_str_dict (m : evidence_map) :
  map_Forall (fun k v => is_text k = true /\ is_text v = true) m -> readable (str_dict m) = true.
Proof.
  intros Hm. unfold str_dict, strs. apply readable_members.
  - rewrite map_map. cbn [fst]. apply items_NoDup.
  - apply List.Forall_map, Forall_forall. intros [k v] Hkv. rewrite items_perm in Hkv.
    apply elem_of_map_to_list in Hkv. exact (Hm k v Hkv).
Qed.

(** The texts of an event. *)
Definition event_texts (x : LifecycleEvent) : list string :=
  [ev_kind x; ev_outcome x; ev_reason x; ev_actor x; ev_subject_digest x; ev_policy_digest x; ev_evidence_digest x;
   ev_observed_at x; ev_previous_digest x; ev_detail x; ev_event_digest x].

Lemma event_readable (x : LifecycleEvent) :
  short_int (ev_sequence x) = true -> forallb is_text (event_texts x) = true ->
  readable (str_dict (ev_evidence_refs x)) = true -> readable (usage_json (ev_budget_usage x)) = true ->
  readable (JObj (event_object x)) = true.
Proof.
  intros Hq Ht Hr Hu. unfold event_texts in Ht. cbn [forallb] in Ht. bool_simp.
  assert (Hname : forall s, is_text (lifecycle_value s) = true) by by intros [].
  apply readable_members; [apply event_keys|]. unfold event_object, event_core. cbn [app].
  repeat apply List.Forall_cons; try apply List.Forall_nil; (split; [vm_compute; reflexivity|cbn [fst snd]]);
    try assumption; [apply Hname|apply Hname|]. destruct (ev_resume_state x); [apply Hname|done].
Qed.

Lemma created_ok (p : plane) (days : Z) :
  is_text (subject_digest p) = true -> is_text (policy_digest (policy p)) = true -> events p = [] ->
  event_ok (created_event p days).
Proof.
  intros Hs Hp He. split; [|done]. apply event_readable.
  - cbn [created_event event_of ev_sequence]. rewrite He. vm_compute. reflexivity.
  - unfold event_texts, created_event, event_of, current_head.
    cbn [ev_kind ev_outcome ev_reason ev_actor ev_subject_digest ev_policy_digest ev_evidence_digest ev_observed_at
         ev_previous_digest ev_detail ev_event_digest created_entry en_kind en_outcome en_reason en_actor en_observed_at
         en_detail forallb]. rewrite He, Hs, Hp, !digest_text. vm_compute. reflexivity.
  - apply readable_str_dict. cbn [created_event event_of ev_evidence_refs created_entry en_evidence_refs list_to_map foldr fst snd].
    repeat apply map_Forall_insert_2; try apply map_Forall_empty; (split; [vm_compute; reflexivity|apply digest_text]).
  - done.
Qed.

Definition current_plane (lp : LifecyclePolicy) : plane :=
  fresh_plane "run" demo_subject CONTRACT_RECEIVED demo_budget lp demo_trust [].

Lemma current_run_ok lp : PHASE_FOUR_POLICY = Ok lp -> run_ok (current_plane lp) 30 /\ is_text (policy_digest lp) = true.
Proof.
  intros Hlp. pose proof (phase_four_snapshot lp Hlp) as Hs.
  assert (_policy_payload lp = policy_payload "phase-four-v1" _MUTATION_SUBJECT_FIELDS phase_four_rules
          /\ policy_digest lp = _digest (policy_payload "phase-four-v1" _MUTATION_SUBJECT_FIELDS phase_four_rules)) as [Ep Ed].
  { unfold PHASE_FOUR_POLICY, new_policy in Hlp. destruct (negb _); [discriminate|]. by injection Hlp as <-. }
  split; [|rewrite Ed; apply digest_text]. split; [|vm_compute; reflexivity|vm_compute; reflexivity|exact Hs].
  unfold metadata_members, current_plane.
  cbn [fresh_plane run_id subject_digest policy budget_policy trust_policy]. rewrite Ep, Ed.
  apply readable_members; [cbn [map fst]; decide_now|].
  repeat apply List.Forall_cons; try apply List.Forall_nil; cbn [fst snd]; (split; [vm_compute; reflexivity|]).
  - vm_compute; reflexivity.
  - vm_compute; reflexivity.
  - apply digest_text.
  - exact phase_four_readable.
  - vm_compute; reflexivity.
  - apply digest_text.
  - vm_compute; reflexivity.
  - apply digest_text.
  - vm_compute; reflexivity.
Qed.

Definition current_start (lp : LifecyclePolicy) : control := {|
  files := with_line (created_event (current_plane lp) 30)
             (set_metadata_file (json_document (JObj (metadata_members (current_plane lp) 30))) no_files);
  cp := appended (created_event (current_plane lp) 30) None (current_plane lp) |}.

Lemma current_begins lp : PHASE_FOUR_POLICY = Ok lp -> begins (current_plane lp) 30 (system_of (current_start lp)).
Proof.
  intros [_ Ht]%current_run_ok.
  exists demo_env, "run"%string, (cp (current_start lp)), (files (current_start lp)).
  split_and!; [done|by apply created_ok| |done].
  by apply (create_fresh demo_env "run" (current_plane lp) 30).
Qed.

Lemma instances_are_well_formed_witness :
  exists lp p, PHASE_FOUR_POLICY = Ok lp /\ policy p = lp /\ claim_right p /\ within_reserve p.
Proof.
  assert (Hlp : exists lp, PHASE_FOUR_POLICY = Ok lp).
  { destruct (new_policy_built "phase-four-v1" phase_four_rules _MUTATION_SUBJECT_FIELDS None phase_four_distinct)
      as (lp & E & _). exists lp. exact E. }
  destruct Hlp as [lp Hlp]. exists lp, (cp (current_start lp)). split; [exact Hlp|]. split; [reflexivity|].
  destruct (instances_are_well_formed demo_verifier (current_plane lp) 30 eq_refl (proj1 (current_run_ok lp Hlp)) eq_refl
              _ _ demo_env (cp (current_start lp)) (current_begins lp Hlp) (rtc_refl _ _) eq_refl Hlp
              (list_elem_of_here _ _)) as (_ & Hres & _ & Hclaim).
  split; [exact Hclaim|exact Hres].
Defined.
End Demo.
