(* ===== verification/MergeAdmission.v ===== *)
(** * Native merge admission ([engineering/merge_admission.py])

    [enqueue] admits a reviewed snapshot to the native merge queue and signs a
    token for it; [linearize_merge] decides, once the queue has merged, whether
    the merge is the one that was admitted; [resolve_external_race] orders a
    merge and an external event.  A snapshot is judged by [_validate_snapshot],
    which collects the reasons against it. *)
From Stdlib Require Import SpecFloat Ascii String.
From S2P Require Import Prelude Sha256 Json JsonText PyStr PyConv Canonical Lifecycle ControlData.

(** ** Data *)

Record RequiredCheck : Type := {
  rc_name : string;
  rc_subject_sha : string;
  rc_input_digest : string;
  rc_status : string;
  rc_observed_at : string;
  rc_event : string;
  rc_enqueue_digest : string
}.

Record FormalReview : Type := {
  fr_review_id : string;
  fr_actor : string;
  fr_subject_sha : string;
  fr_state : string;
  fr_submitted_at : string;
  fr_eligible : bool
}.

Record BlockingFinding : Type := {
  bf_finding_id : string;
  bf_source : string;
  bf_subject_sha : string;
  bf_severity : string;
  bf_credible : bool;
  bf_blocking : bool;
  bf_normalized_at : string;
  bf_source_authority_digest : string;
  bf_authentication_evidence_digest : string;
  bf_disposition : string;
  bf_resolution_digest : string;
  bf_resolution_actor : string;
  bf_resolution_authority_digest : string;
  bf_resolution_authentication_evidence_digest : string
}.

Record FindingInventoryAttestation : Type := {
  fi_source : string;
  fi_subject_sha : string;
  fi_finding_digests : list string;
  fi_high_watermark_digest : string;
  fi_observed_at : string;
  fi_expires_at : string;
  fi_source_authority_digest : string;
  fi_authentication_evidence_digest : string
}.

Record GovernedMergePolicy : Type := {
  gp_repository_rules_digest : string;
  gp_required_check_names : list string
}.

Record MergeSnapshot : Type := {
  ms_pr_head_sha : string;
  ms_protected_base_sha : string;
  ms_prospective_merge_tree_digest : string;
  ms_repository_rules_digest : string;
  ms_architecture_policy_digest : string;
  ms_toolchain_policy_digest : string;
  ms_environment_profile_digest : string;
  ms_security_policy_digest : string;
  ms_verification_policy_digest : string;
  ms_evidence_policy_digest : string;
  ms_authority_digest : string;
  ms_finding_high_watermark_digest : string;
  ms_pending_unclassified_findings : Z;
  ms_required_check_names : list string;
  ms_checks : list RequiredCheck;
  ms_reviews : list FormalReview;
  ms_findings : list BlockingFinding;
  ms_finding_inventories : list FindingInventoryAttestation;
  ms_merge_queue_enforced : bool;
  ms_bypass_used : bool
}.

Record EnqueueToken : Type := {
  et_snapshot_digest : string;
  et_exact_input_digest : string;
  et_authority_digest : string;
  et_finding_high_watermark_digest : string;
  et_merge_group_check_names : list string;
  et_issuer_id : string;
  et_issuer_authority_digest : string;
  et_authentication_evidence_digest : string;
  et_enqueued_at : string;
  et_expires_at : string;
  et_invalidation_boundary : string;
  et_enqueue_digest : string
}.

Record MergeDecision : Type := {
  md_admitted : bool;
  md_outcome : string;
  md_rollout_allowed : bool;
  md_reasons : list string;
  md_incident : bool
}.

#[export] Instance check_eq_dec : EqDecision RequiredCheck.
Proof. solve_decision. Defined.

(** ** The services that a decision calls *)

(** A function that may raise ([None]). *)
Definition authenticator : Type := string -> string -> json -> string -> option bool.

Record merge_env : Type := {
  trusted_finding_sources : list (string * string); (* a dict, in its order *)
  trusted_finding_authorities : gmap string string;
  finding_authenticator : option authenticator;
  finding_inventory_authenticator : option authenticator;
  resolution_authenticator : option authenticator;
  trusted_clock : option instant (* [None]: it raises *)
}.

(** [authenticator is not None and authenticator(...)], under [except Exception]. *)
Definition authenticates (a : option authenticator) (identity authority : string) (payload : json) (proof : string)
    : bool :=
  match a with
  | Some f => default false (f identity authority payload proof)
  | None => false
  end.

(** [(datetime.fromisoformat(value) + timedelta(seconds=n)).isoformat()], which
    keeps the offset of [value]: it raises [OverflowError] past the year 9999. *)
Class DatetimeText : Type := { isoformat_after : string -> Z -> res string }.

(** [timedelta(seconds=n)]: at most 999999999 days. *)
Definition timedelta_seconds (n : Z) : res Z :=
  _ ← raise_if ((n <? -86399999913600) || (86399999999999 <? n)) (OverflowError "days out of range for timedelta");
  Ok (n * 1000000).

(** [int(delta.total_seconds())]: the quotient is a float, and is truncated. *)
Definition int_total_seconds (delta : Z) : res Z :=
  truncate (float_of_decimal (delta <? 0) (Z.to_N (Z.abs delta)) (-6)).

(** ** The governed policy *)

(** [GovernedMergePolicy(...)], after its [__post_init__]. *)
Definition new_governed_policy (p : GovernedMergePolicy) : res GovernedMergePolicy :=
  _ ← raise_if (negb (is_sha256 (gp_repository_rules_digest p)))
        (ValueError "governed repository-rules digest is malformed");
  _ ← raise_if (bool_decide (gp_required_check_names p = []))
        (ValueError "governed merge policy must name required checks");
  _ ← raise_if (existsb (fun name => negb (nonempty (strip name))) (gp_required_check_names p))
        (ValueError "governed required-check names cannot be empty");
  _ ← raise_if (negb (bool_decide (NoDup (gp_required_check_names p))))
        (ValueError "governed required-check names are duplicated");
  Ok p.

(** The names listed under [required_checks:], up to the next entry of the file. *)
Fixpoint required_checks_from (in_required_checks : bool) (lines : list string) : list string :=
  match lines with
  | [] => []
  | line :: rest =>
      if String.eqb line "required_checks:" then required_checks_from true rest
      else if in_required_checks && startswith line "  - "
      then strip (removeprefix line "  - ") :: required_checks_from in_required_checks rest
      else if in_required_checks && nonempty line && negb (startswith line " " || startswith line "#") then []
      else required_checks_from in_required_checks rest
  end.

Section Merge.
Context `{Rfc8785} `{Datetime} `{DatetimeText} `{Unicode}.

(** [load_governed_merge_policy], on the bytes of the file. *)
Definition load_governed_merge_policy (payload : string) : res GovernedMergePolicy :=
  text ← read_text payload;
  digest ← canonical_digest (JObj [("content"%string, JStr text)]);
  new_governed_policy {| gp_repository_rules_digest := digest;
                         gp_required_check_names := required_checks_from false (str_splitlines text) |}.

(** ** Payloads *)

Definition exact_inputs (s : MergeSnapshot) : list (string * string) :=
  [("pr_head_sha", ms_pr_head_sha s); ("protected_base_sha", ms_protected_base_sha s);
   ("prospective_merge_tree_digest", ms_prospective_merge_tree_digest s);
   ("repository_rules_digest", ms_repository_rules_digest s);
   ("architecture_policy_digest", ms_architecture_policy_digest s);
   ("toolchain_policy_digest", ms_toolchain_policy_digest s);
   ("environment_profile_digest", ms_environment_profile_digest s);
   ("security_policy_digest", ms_security_policy_digest s);
   ("verification_policy_digest", ms_verification_policy_digest s);
   ("evidence_policy_digest", ms_evidence_policy_digest s)]%string.
Definition exact_input_digest (s : MergeSnapshot) : res string := canonical_digest (strs (exact_inputs s)).

Definition names_json (l : list string) : json := JArr (map JStr l).

Definition check_dict (c : RequiredCheck) : json := strs
  [("name", rc_name c); ("subject_sha", rc_subject_sha c); ("input_digest", rc_input_digest c);
   ("status", rc_status c); ("observed_at", rc_observed_at c); ("event", rc_event c);
   ("enqueue_digest", rc_enqueue_digest c)]%string.
Definition review_dict (r : FormalReview) : json := JObj
  [("review_id", JStr (fr_review_id r)); ("actor", JStr (fr_actor r)); ("subject_sha", JStr (fr_subject_sha r));
   ("state", JStr (fr_state r)); ("submitted_at", JStr (fr_submitted_at r));
   ("eligible", JBool (fr_eligible r))]%string.

(** What the source of a finding signs. *)
Definition finding_authentication_payload (f : BlockingFinding) : json := JObj
  [("finding_id", JStr (bf_finding_id f)); ("source", JStr (bf_source f));
   ("subject_sha", JStr (bf_subject_sha f)); ("severity", JStr (bf_severity f));
   ("credible", JBool (bf_credible f)); ("blocking", JBool (bf_blocking f));
   ("normalized_at", JStr (bf_normalized_at f));
   ("source_authority_digest", JStr (bf_source_authority_digest f))]%string.
Definition finding_members (f : BlockingFinding) : list (string * json) :=
  [("finding_id", JStr (bf_finding_id f)); ("source", JStr (bf_source f));
   ("subject_sha", JStr (bf_subject_sha f)); ("severity", JStr (bf_severity f));
   ("credible", JBool (bf_credible f)); ("blocking", JBool (bf_blocking f));
   ("normalized_at", JStr (bf_normalized_at f));
   ("source_authority_digest", JStr (bf_source_authority_digest f));
   ("authentication_evidence_digest", JStr (bf_authentication_evidence_digest f));
   ("disposition", JStr (bf_disposition f)); ("resolution_digest", JStr (bf_resolution_digest f));
   ("resolution_actor", JStr (bf_resolution_actor f));
   ("resolution_authority_digest", JStr (bf_resolution_authority_digest f));
   ("resolution_authentication_evidence_digest", JStr (bf_resolution_authentication_evidence_digest f))]%string.
Definition finding_resolution_authentication_payload (f : BlockingFinding) : json :=
  JObj (assoc_del "resolution_authentication_evidence_digest" (finding_members f)).
Definition inventory_members (i : FindingInventoryAttestation) : list (string * json) :=
  [("source", JStr (fi_source i)); ("subject_sha", JStr (fi_subject_sha i));
   ("finding_digests", names_json (fi_finding_digests i));
   ("high_watermark_digest", JStr (fi_high_watermark_digest i)); ("observed_at", JStr (fi_observed_at i));
   ("expires_at", JStr (fi_expires_at i)); ("source_authority_digest", JStr (fi_source_authority_digest i));
   ("authentication_evidence_digest", JStr (fi_authentication_evidence_digest i))]%string.
Definition finding_inventory_authentication_payload (i : FindingInventoryAttestation) : json :=
  JObj (assoc_del "authentication_evidence_digest" (inventory_members i)).
Definition token_members (t : EnqueueToken) : list (string * json) :=
  [("snapshot_digest", JStr (et_snapshot_digest t)); ("exact_input_digest", JStr (et_exact_input_digest t));
   ("authority_digest", JStr (et_authority_digest t));
   ("finding_high_watermark_digest", JStr (et_finding_high_watermark_digest t));
   ("merge_group_check_names", names_json (et_merge_group_check_names t));
   ("issuer_id", JStr (et_issuer_id t)); ("issuer_authority_digest", JStr (et_issuer_authority_digest t));
   ("authentication_evidence_digest", JStr (et_authentication_evidence_digest t));
   ("enqueued_at", JStr (et_enqueued_at t)); ("expires_at", JStr (et_expires_at t));
   ("invalidation_boundary", JStr (et_invalidation_boundary t));
   ("enqueue_digest", JStr (et_enqueue_digest t))]%string.
Definition enqueue_token_authentication_payload (t : EnqueueToken) : json :=
  JObj (assoc_del "authentication_evidence_digest" (token_members t)).

(** [asdict] of a snapshot. *)
Definition snapshot_dict (s : MergeSnapshot) : json := JObj
  [("pr_head_sha", JStr (ms_pr_head_sha s)); ("protected_base_sha", JStr (ms_protected_base_sha s));
   ("prospective_merge_tree_digest", JStr (ms_prospective_merge_tree_digest s));
   ("repository_rules_digest", JStr (ms_repository_rules_digest s));
   ("architecture_policy_digest", JStr (ms_architecture_policy_digest s));
   ("toolchain_policy_digest", JStr (ms_toolchain_policy_digest s));
   ("environment_profile_digest", JStr (ms_environment_profile_digest s));
   ("security_policy_digest", JStr (ms_security_policy_digest s));
   ("verification_policy_digest", JStr (ms_verification_policy_digest s));
   ("evidence_policy_digest", JStr (ms_evidence_policy_digest s));
   ("authority_digest", JStr (ms_authority_digest s));
   ("finding_high_watermark_digest", JStr (ms_finding_high_watermark_digest s));
   ("pending_unclassified_findings", JInt (ms_pending_unclassified_findings s));
   ("required_check_names", names_json (ms_required_check_names s));
   ("checks", JArr (map check_dict (ms_checks s))); ("reviews", JArr (map review_dict (ms_reviews s)));
   ("findings", JArr (map (fun f => JObj (finding_members f)) (ms_findings s)));
   ("finding_inventories", JArr (map (fun i => JObj (inventory_members i)) (ms_finding_inventories s)));
   ("merge_queue_enforced", JBool (ms_merge_queue_enforced s)); ("bypass_used", JBool (ms_bypass_used s))]%string.
Definition _snapshot_digest (s : MergeSnapshot) : res string := canonical_digest (snapshot_dict s).

(** ** Times: instants, in microseconds *)

Definition _time (value : string) : res Z :=
  parsed ← from_option_res (parse_time value) (ValueError "Invalid isoformat string");
  _ ← raise_if (negb (tz_aware parsed)) (ValueError "timestamps must carry a timezone");
  Ok (micros parsed).

(** ** Findings *)

Variable e : merge_env.

Definition _finding_authenticated (f : BlockingFinding) : bool :=
  let trusted_authority := default ""%string (assoc (bf_source f) (trusted_finding_sources e)) in
  nonempty (bf_source f) && nonempty trusted_authority
  && String.eqb (bf_source_authority_digest f) trusted_authority
  && is_sha256 (bf_authentication_evidence_digest f)
  && authenticates (finding_authenticator e) (bf_source f) trusted_authority
       (finding_authentication_payload f) (bf_authentication_evidence_digest f).

Definition resolved (f : BlockingFinding) : bool :=
  let trusted_resolution_authority := got (bf_resolution_actor f) (trusted_finding_authorities e) in
  str_in (bf_disposition f) ["RESOLVED"; "REJECTED_WITH_EVIDENCE"]%string
  && is_sha256 (bf_resolution_digest f) && nonempty (bf_resolution_actor f)
  && nonempty trusted_resolution_authority
  && String.eqb (bf_resolution_authority_digest f) trusted_resolution_authority
  && is_sha256 (bf_resolution_authentication_evidence_digest f)
  && authenticates (resolution_authenticator e) (bf_resolution_actor f) trusted_resolution_authority
       (finding_resolution_authentication_payload f) (bf_resolution_authentication_evidence_digest f).

Definition _blocking_finding (f : BlockingFinding) : bool :=
  bf_credible f && bf_blocking f && is_sha256 (bf_source_authority_digest f)
  && is_sha256 (bf_authentication_evidence_digest f)
  && existsb (fun word => upper_is word (bf_severity f)) ["CRITICAL"; "HIGH"; "MEDIUM"]%string
  && negb (resolved f).

(** ** The reasons against a snapshot *)

(** What the caller of [_validate_snapshot] fixes. *)
Record judgement : Type := {
  ju_policy : GovernedMergePolicy;
  ju_invalidation_boundary : string;
  ju_as_of : string;
  ju_queue_timeout_seconds : Z;
  (* linearizing: the digest and the time of the enqueue *)
  ju_enqueue : option (string * string)
}.
Variable j : judgement.
Variable s : MergeSnapshot.

(** [if b: reasons.append(reason)]. *)
Definition reason_if (b : bool) (reason : string) : list string := if b then [reason] else [].

Definition digest_fields : list string :=
  [ms_prospective_merge_tree_digest s; ms_repository_rules_digest s; ms_architecture_policy_digest s;
   ms_toolchain_policy_digest s; ms_environment_profile_digest s; ms_security_policy_digest s;
   ms_verification_policy_digest s; ms_evidence_policy_digest s; ms_authority_digest s;
   ms_finding_high_watermark_digest s].

(** The source of an inventory: a dict keeps the last one. *)
Definition inventory_by_source (source : string) : option FindingInventoryAttestation :=
  last (List.filter (fun i => String.eqb (fi_source i) source) (ms_finding_inventories s)).

Definition form_reasons : list string :=
  let sources := map fi_source (ms_finding_inventories s) in
  let trusted := map fst (trusted_finding_sources e) in
  reason_if (negb (is_git_sha (ms_pr_head_sha s) && is_git_sha (ms_protected_base_sha s)))
    "merge snapshot has a malformed head or protected-base SHA"
  ++ reason_if (existsb (fun d => negb (is_sha256 d)) digest_fields)
       "merge snapshot has a malformed content or policy digest"
  ++ reason_if (negb (String.eqb (ms_repository_rules_digest s) (gp_repository_rules_digest (ju_policy j))))
       "snapshot repository rules differ from the governed merge policy"
  ++ reason_if (negb (bool_decide (ms_required_check_names s = gp_required_check_names (ju_policy j))))
       "snapshot required checks differ from the governed merge policy"
  ++ reason_if (negb (ms_merge_queue_enforced s)) "native merge queue or equivalent CAS gate is unavailable"
  ++ reason_if (ms_bypass_used s) "merge bypass was used"
  ++ reason_if (negb (ms_pending_unclassified_findings s =? 0)) "finding normalization is incomplete"
  ++ reason_if (bool_decide (trusted = []) || negb (bool_decide (NoDup sources))
                || negb (forallb (fun x => str_in x trusted) sources && forallb (fun x => str_in x sources) trusted))
       "finding inventory source coverage is incomplete".

(** The digests of the findings of a source on the exact head. *)
Definition exact_findings (source : string) : list BlockingFinding :=
  List.filter (fun f => String.eqb (bf_source f) source && String.eqb (bf_subject_sha f) (ms_pr_head_sha s))
    (ms_findings s).
Definition expected_finding_digests (source : string) : res (list string) :=
  digests ← res_mapM (fun f => canonical_digest (finding_authentication_payload f)) (exact_findings source);
  Ok (sorted_str digests).

(** When an inventory is authentic and current, the window of its freshness. *)
Definition authentic_inventory (source trusted_authority : string) (expected : list string)
    (i : FindingInventoryAttestation) : option (Z * Z) :=
  match _time (ju_invalidation_boundary j), _time (fi_observed_at i), _time (ju_as_of j), _time (fi_expires_at i) with
  | Ok boundary, Ok observed, Ok now, Ok expires =>
      if String.eqb (fi_subject_sha i) (ms_pr_head_sha s) && bool_decide (fi_finding_digests i = expected)
         && String.eqb (fi_high_watermark_digest i) (ms_finding_high_watermark_digest s)
         && String.eqb (fi_source_authority_digest i) trusted_authority
         && is_sha256 (fi_high_watermark_digest i) && is_sha256 (fi_authentication_evidence_digest i)
         && (boundary <? observed) && (observed <=? now) && (now <=? expires)
         && (expires - observed <=? 5 * 60 * 1000000)
         && authenticates (finding_inventory_authenticator e) source trusted_authority
              (finding_inventory_authentication_payload i) (fi_authentication_evidence_digest i)
      then Some (observed, expires) else None
  | _, _, _, _ => None
  end.

Definition inventory_window (source trusted_authority : string) : res (option (Z * Z)) :=
  expected ← expected_finding_digests source;
  Ok (i ← inventory_by_source source; authentic_inventory source trusted_authority expected i).

Definition unattested (source : string) : string :=
  "finding inventory for " +:+ source +:+ " is incomplete, stale, or unauthenticated".

(** Each trusted source, with the window of its inventory. *)
Definition inventory_windows : res (list (string * option (Z * Z))) :=
  res_mapM (fun q => window ← inventory_window (fst q) (snd q); Ok (fst q, window)) (trusted_finding_sources e).

Definition inventory_reasons (windows : list (string * option (Z * Z))) : list string :=
  flat_map (fun q => reason_if (negb (bool_decide (is_Some (snd q)))) (unattested (fst q))) windows
  ++ match trusted_clock e with
     | Some now =>
         if tz_aware now then
           flat_map (fun q => match snd q with
                              | Some (observed, expires) =>
                                  reason_if (negb ((observed <=? micros now) && (micros now <=? expires)))
                                    (unattested (fst q))
                              | None => []
                              end) windows
         else ["trusted decision clock is unavailable"%string]
     | None => ["trusted decision clock is unavailable"%string]
     end.

Definition finding_reasons : list string :=
  reason_if (existsb (fun f => negb (_finding_authenticated f)) (ms_findings s))
    "finding source attestation is not independently authenticated"
  ++ reason_if (existsb (fun f => _finding_authenticated f && String.eqb (bf_subject_sha f) (ms_pr_head_sha s)
                                  && _blocking_finding f) (ms_findings s))
       "an exact-subject blocking finding is unresolved".

Definition counts (state : string) (r : FormalReview) : bool :=
  nonempty (fr_review_id r) && nonempty (fr_actor r) && fr_eligible r
  && String.eqb (fr_subject_sha r) (ms_pr_head_sha s) && String.eqb (fr_state r) state.

(** Whether a review is an approval after the boundary: its time is read when the
    rest of it counts. *)
Definition valid_approval (boundary : Z) (r : FormalReview) : res bool :=
  if counts "APPROVED" r then
    submitted ← _time (fr_submitted_at r);
    if boundary <? submitted then now ← _time (ju_as_of j); Ok (submitted <=? now) else Ok false
  else Ok false.

Definition review_reasons : res (list string) :=
  let changes := existsb (counts "CHANGES_REQUESTED") (ms_reviews s) in
  boundary ← _time (ju_invalidation_boundary j);
  valid_approvals ← res_mapM (valid_approval boundary) (ms_reviews s);
  Ok (reason_if changes "formal changes are requested for the exact head"
      ++ reason_if (negb (existsb id valid_approvals))
           "no fresh eligible formal approval after the invalidation boundary").

(** The last check of a name: a dict keeps it. *)
Definition check_by_name (name : string) : option RequiredCheck :=
  last (List.filter (fun c => String.eqb (rc_name c) name) (ms_checks s)).

(** A check of the merge group: it belongs to this enqueue and is fresh. *)
Definition merge_group_reasons (now observed : Z) (c : RequiredCheck) : res (list string) :=
  let name := rc_name c in
  r1 ← match ju_enqueue j with
       | Some (enqueue_digest, enqueued_at) =>
           enqueued ← _time enqueued_at;
           Ok (reason_if (negb (String.eqb (rc_enqueue_digest c) enqueue_digest))
                 ("merge-group check " +:+ name +:+ " is from another enqueue")
               ++ reason_if (observed <? enqueued)
                    ("merge-group check " +:+ name +:+ " predates its authenticated enqueue"))
       | None => Ok []
       end;
  let allowed_statuses :=
    match ju_enqueue j with Some _ => ["SUCCESS"] | None => ["PENDING"; "IN_PROGRESS"; "SUCCESS"] end%string in
  window ← timedelta_seconds (ju_queue_timeout_seconds j);
  Ok (r1 ++ reason_if (negb (str_in (rc_status c) allowed_statuses))
              ("merge-group check " +:+ name +:+ " ended as " +:+ rc_status c)
         ++ reason_if (window <? now - observed) ("merge-group check " +:+ name +:+ " exceeded its freshness window")).

Definition check_reasons (now : Z) (exact_input : res string) (name : string) : res (list string) :=
  match check_by_name name with
  | None => Ok ["required check " +:+ name +:+ " is missing"]
  | Some c =>
      if negb (str_in (rc_event c) ["pull_request"; "merge_group"]%string)
      then Ok ["required check " +:+ name +:+ " has unsupported event " +:+ repr_str (rc_event c)]
      else
        exact ← exact_input;
        let bound :=
          reason_if (negb (String.eqb (rc_subject_sha c) (ms_pr_head_sha s)))
            ("required check " +:+ name +:+ " is bound to the wrong subject")
          ++ reason_if (negb (String.eqb (rc_input_digest c) exact))
               ("required check " +:+ name +:+ " has stale policy/toolchain inputs") in
        match _time (rc_observed_at c) with
        | Raise _ => Ok (bound ++ ["required check " +:+ name +:+ " has a malformed observation time"])
        | Ok observed =>
            let future := reason_if (now <? observed) ("required check " +:+ name +:+ " is from the future") in
            rest ← (if String.eqb (rc_event c) "merge_group" then merge_group_reasons now observed c
                    else Ok (reason_if (negb (String.eqb (rc_status c) "SUCCESS"))
                               ("required check " +:+ name +:+ " is " +:+ rc_status c)));
            Ok (bound ++ future ++ rest)
        end
  end.

Definition _validate_snapshot : res (list string) :=
  windows ← inventory_windows;
  reviews ← review_reasons;
  now ← _time (ju_as_of j);
  checks ← res_mapM (check_reasons now (exact_input_digest s)) (gp_required_check_names (ju_policy j));
  Ok (form_reasons ++ inventory_reasons windows ++ finding_reasons ++ reviews
      ++ reason_if (negb (bool_decide (NoDup (map rc_name (ms_checks s))))) "required check names are duplicated"
      ++ concat checks).
End Merge.

(** ** [enqueue] *)

Section Queue.
Context `{Rfc8785} `{Datetime} `{DatetimeText} `{Unicode}.
Variable e : merge_env.
Variable policy : GovernedMergePolicy.

Definition merge_group_check_names (s : MergeSnapshot) : list string :=
  sorted_str (map rc_name (List.filter (fun c => String.eqb (rc_event c) "merge_group") (ms_checks s))).

Definition enqueue_payload (snapshot_digest exact_input expires_at enqueued_at invalidation_boundary : string)
    (names : list string) : json := JObj
  [("snapshot_digest", JStr snapshot_digest); ("exact_input_digest", JStr exact_input);
   ("merge_group_check_names", names_json names); ("enqueued_at", JStr enqueued_at);
   ("expires_at", JStr expires_at); ("invalidation_boundary", JStr invalidation_boundary)]%string.

Definition with_proof (proof : string) (t : EnqueueToken) : EnqueueToken := {|
  et_snapshot_digest := et_snapshot_digest t; et_exact_input_digest := et_exact_input_digest t;
  et_authority_digest := et_authority_digest t;
  et_finding_high_watermark_digest := et_finding_high_watermark_digest t;
  et_merge_group_check_names := et_merge_group_check_names t; et_issuer_id := et_issuer_id t;
  et_issuer_authority_digest := et_issuer_authority_digest t; et_authentication_evidence_digest := proof;
  et_enqueued_at := et_enqueued_at t; et_expires_at := et_expires_at t;
  et_invalidation_boundary := et_invalidation_boundary t; et_enqueue_digest := et_enqueue_digest t |}.

(** [token_signer] may raise. *)
Definition enqueue (s : MergeSnapshot) (token_issuer token_authority_digest : string)
    (token_signer : string -> string -> json -> res string)
    (enqueued_at invalidation_boundary : string) (queue_timeout_seconds : Z) : res EnqueueToken :=
  _ ← raise_if (queue_timeout_seconds <=? 0) (ValueError "merge queue timeout must be positive");
  reasons ← _validate_snapshot e
              {| ju_policy := policy; ju_invalidation_boundary := invalidation_boundary; ju_as_of := enqueued_at;
                 ju_queue_timeout_seconds := queue_timeout_seconds; ju_enqueue := None |} s;
  _ ← raise_if (negb (bool_decide (reasons = []))) (ValueError (join "; " reasons));
  snapshot_digest ← _snapshot_digest s;
  _ ← _time enqueued_at;
  _ ← timedelta_seconds queue_timeout_seconds;
  expires ← isoformat_after (replace_char "Z" "+00:00" enqueued_at) queue_timeout_seconds;
  let expires_at := replace_str "+00:00" "Z" expires in
  exact_input ← exact_input_digest s;
  enqueue_digest ← canonical_digest (enqueue_payload snapshot_digest exact_input expires_at enqueued_at
                                       invalidation_boundary (merge_group_check_names s));
  _ ← raise_if (negb (nonempty token_issuer && is_sha256 token_authority_digest))
        (ValueError "enqueue-token issuer identity or authority is malformed");
  let token := {|
    et_snapshot_digest := snapshot_digest; et_exact_input_digest := exact_input;
    et_authority_digest := ms_authority_digest s;
    et_finding_high_watermark_digest := ms_finding_high_watermark_digest s;
    et_merge_group_check_names := merge_group_check_names s; et_issuer_id := token_issuer;
    et_issuer_authority_digest := token_authority_digest; et_authentication_evidence_digest := "";
    et_enqueued_at := enqueued_at; et_expires_at := expires_at;
    et_invalidation_boundary := invalidation_boundary; et_enqueue_digest := enqueue_digest |} in
  proof ← token_signer token_issuer token_authority_digest (enqueue_token_authentication_payload token);
  _ ← raise_if (negb (is_sha256 proof)) (ValueError "enqueue-token authentication evidence is malformed");
  Ok (with_proof proof token).

(** ** [linearize_merge] *)

(** What the native queue reports of the merge. *)
Record native_merge : Type := {
  nm_observed_merge_sha : string;
  nm_observed_merge_tree_digest : string;
  nm_merged_at : string;
  nm_native_gate_authorized : bool
}.

Variable trusted_token_issuers : gmap string string.
Variable token_authenticator : authenticator.

Definition token_authenticated (t : EnqueueToken) : bool :=
  let trusted_token_authority := got (et_issuer_id t) trusted_token_issuers in
  nonempty trusted_token_authority && String.eqb trusted_token_authority (et_issuer_authority_digest t)
  && is_sha256 (et_authentication_evidence_digest t)
  && authenticates (Some token_authenticator) (et_issuer_id t) trusted_token_authority
       (enqueue_token_authentication_payload t) (et_authentication_evidence_digest t).

Definition authenticated_queue_timeout (t : EnqueueToken) : res Z :=
  expires ← _time (et_expires_at t);
  enqueued ← _time (et_enqueued_at t);
  timeout ← int_total_seconds (expires - enqueued);
  _ ← raise_if (timeout <=? 0) (ValueError "enqueue-token expiry must follow enqueue time");
  Ok timeout.

Definition current_reasons (t : EnqueueToken) (current : MergeSnapshot) (m : native_merge) : res (list string) :=
  try_except
    (timeout ← authenticated_queue_timeout t;
     _validate_snapshot e
       {| ju_policy := policy; ju_invalidation_boundary := et_invalidation_boundary t; ju_as_of := nm_merged_at m;
          ju_queue_timeout_seconds := timeout;
          ju_enqueue := Some (et_enqueue_digest t, et_enqueued_at t) |} current)
    is_ValueError
    (fun _ => Ok ["merge snapshot contains a malformed timestamp"%string]).

Definition window_reasons (t : EnqueueToken) (m : native_merge) : list string :=
  let malformed := ["enqueue token contains a malformed timestamp"%string] in
  match _time (nm_merged_at m), _time (et_enqueued_at t) with
  | Ok merge_time, Ok enqueued =>
      if merge_time <? enqueued then ["merge linearization predates the authenticated enqueue token"%string]
      else match _time (et_expires_at t) with
           | Ok expires =>
               reason_if (expires <? merge_time) "authenticated enqueue token exceeded its freshness window"
           | Raise _ => malformed
           end
  | _, _ => malformed
  end.

Definition linearize_merge (t : EnqueueToken) (current : MergeSnapshot) (m : native_merge) : res MergeDecision :=
  reasons ← current_reasons t current m;
  exact_input ← exact_input_digest current;
  let all :=
    reasons
    ++ reason_if (negb (token_authenticated t)) "enqueue token authentication or trusted state lookup failed"
    ++ window_reasons t m
    ++ reason_if (negb (String.eqb exact_input (et_exact_input_digest t)))
         "reviewed head/base/tree or repository policy changed after enqueue"
    ++ reason_if (negb (String.eqb (ms_authority_digest current) (et_authority_digest t)))
         "external contract or publisher authority changed after enqueue"
    ++ reason_if (negb (String.eqb (ms_finding_high_watermark_digest current) (et_finding_high_watermark_digest t)))
         "finding high-watermark changed after enqueue"
    ++ reason_if (negb (bool_decide (merge_group_check_names current = et_merge_group_check_names t)))
         "merge-group check identity changed after enqueue"
    ++ reason_if (negb (nm_native_gate_authorized m)) "native gate integrity or authorization failed"
    ++ reason_if (negb (is_git_sha (nm_observed_merge_sha m))) "observed merge SHA is absent or malformed"
    ++ reason_if (negb (String.eqb (nm_observed_merge_tree_digest m) (ms_prospective_merge_tree_digest current)))
         "observed merge tree differs from the reviewed prospective tree" in
  Ok (match all with
      | [] => {| md_admitted := true; md_outcome := "PR_MERGED"; md_rollout_allowed := true; md_reasons := [];
                 md_incident := false |}
      | _ => {| md_admitted := false; md_outcome := "MERGE_INCIDENT"; md_rollout_allowed := false; md_reasons := all;
                md_incident := true |}
      end).

(** ** [resolve_external_race] *)

Inductive ExternalRaceKind : Type := AUTHORITY_REVOKED | BLOCKING_FINDING.

(** [_time(text) if text else None]. *)
Definition optional_time (text : option string) : res (option Z) :=
  match text with
  | Some v => if nonempty v then t ← _time v; Ok (Some t) else Ok None
  | None => Ok None
  end.

Definition resolve_external_race (kind : ExternalRaceKind) (external_event_at : string)
    (native_merge_at dequeue_completed_at : option string) : res MergeDecision :=
  event_time ← _time external_event_at;
  merge_time ← optional_time native_merge_at;
  dequeue_time ← optional_time dequeue_completed_at;
  _ ← raise_if (match dequeue_time with Some d => d <? event_time | None => false end)
        (ValueError "dequeue cannot complete before its triggering external event");
  let dequeued :=
    {| md_admitted := false;
       md_outcome := match kind with AUTHORITY_REVOKED => "PRODUCT_INPUT_REQUIRED" | BLOCKING_FINDING => "REVIEW_FAILED" end;
       md_rollout_allowed := false; md_reasons := ["native admission was dequeued"%string]; md_incident := false |} in
  Ok (match merge_time with
      | None => dequeued
      | Some merged =>
          if match dequeue_time with Some d => d <=? merged | None => false end then dequeued
          else
            let ordering := if event_time <=? merged then "before"%string else "after"%string in
            {| md_admitted := true;
               md_outcome := match kind with
                             | AUTHORITY_REVOKED => "PR_MERGED_PRODUCT_INPUT_BLOCKED"
                             | BLOCKING_FINDING => "PR_MERGED_REMEDIATION_REQUIRED"
                             end;
               md_rollout_allowed := false;
               md_reasons := ["external event was observed " +:+ ordering +:+
                              " native merge; integration is retained, rollout forbidden"];
               md_incident := false |}
      end).
End Queue.
