(* ===== verification/MergeTheorems.v ===== *)
(** * Native merge admission: theorems

    [_validate_snapshot] collects no reason exactly for the snapshots that the
    declarative [snapshot_ok] describes; a merge is admitted exactly when it is
    [merge_ok]; what is admitted is what was enqueued; and a race with an external
    event has one outcome.

    ** Native merge admission: a concrete merge

    A snapshot that is enqueued and, two minutes later, merged, with the theorems
    of [MergeTheorems] at that merge. *)
From Stdlib Require Import SpecFloat Ascii String.
From Stdlib Require Import Ascii String.
From S2P Require Import Prelude Sha256 Json JsonText Canonical JsonSpec JsonFacts CanonicalFacts PyStr PyConv TextFacts.
From S2P Require Import AcceptanceTheorems CheckTheorems Lifecycle ControlData ControlDemo MergeAdmission.

(** ** Lists of reasons *)

Lemma reason_if_nil b reason : reason_if b reason = [] <-> b = false.
Proof. by destruct b. Qed.

(** ** What a good snapshot is *)

Section Merge.
Context `{Rfc8785} `{Datetime} `{DatetimeText} `{Unicode}.
Variable e : merge_env.

Section Judged.
Variable j : judgement.
Variable s : MergeSnapshot.
Implicit Types (now boundary observed : Z) (exact : string).

(** A check of the merge group, seen from the queue or from the merge. *)
Definition group_check_ok now observed (c : RequiredCheck) : Prop :=
  match ju_enqueue j with
  | Some (enqueue_digest, enqueued_at) =>
      rc_enqueue_digest c = enqueue_digest /\ rc_status c = "SUCCESS"%string /\
      exists enqueued, _time enqueued_at = Ok enqueued /\ enqueued <= observed
  | None => rc_status c ∈ ["PENDING"; "IN_PROGRESS"; "SUCCESS"]%string
  end /\
  exists window, timedelta_seconds (ju_queue_timeout_seconds j) = Ok window /\ now - observed <= window.

(** A required check: on the exact head and inputs, observed by now, and green. *)
Definition check_ok now exact (c : RequiredCheck) : Prop :=
  rc_subject_sha c = ms_pr_head_sha s /\ rc_input_digest c = exact /\
  exists observed, _time (rc_observed_at c) = Ok observed /\ observed <= now /\
    (rc_event c = "pull_request"%string /\ rc_status c = "SUCCESS"%string
     \/ rc_event c = "merge_group"%string /\ group_check_ok now observed c).

(** A trusted source attests all of its findings, recently, and until now. *)
Definition inventory_ok boundary now (source authority : string) : Prop :=
  exists digests i observed expires clock,
    Forall2 (fun f d => canonical_digest (finding_authentication_payload f) = Ok d) (exact_findings s source) digests /\
    i ∈ ms_finding_inventories s /\ fi_source i = source /\ fi_subject_sha i = ms_pr_head_sha s /\
    fi_finding_digests i = sorted_str digests /\
    fi_high_watermark_digest i = ms_finding_high_watermark_digest s /\ is_sha256 (fi_high_watermark_digest i) = true /\
    fi_source_authority_digest i = authority /\
    is_sha256 (fi_authentication_evidence_digest i) = true /\
    authenticates (finding_inventory_authenticator e) source authority (finding_inventory_authentication_payload i)
      (fi_authentication_evidence_digest i) = true /\
    _time (fi_observed_at i) = Ok observed /\ _time (fi_expires_at i) = Ok expires /\
    boundary < observed /\ observed <= now <= expires /\ expires - observed <= 5 * 60 * 1000000 /\
    trusted_clock e = Some {| tz_aware := true; micros := clock |} /\ observed <= clock <= expires.

(** A formal approval of the exact head, after the boundary and by now. *)
Definition approval_ok boundary now (r : FormalReview) : Prop :=
  counts s "APPROVED" r = true /\ exists submitted, _time (fr_submitted_at r) = Ok submitted /\ boundary < submitted <= now.

Record snapshot_ok boundary now exact : Prop := {
  so_head : is_git_sha (ms_pr_head_sha s) = true /\ is_git_sha (ms_protected_base_sha s) = true;
  so_digests : forall d, d ∈ digest_fields s -> is_sha256 d = true;
  so_rules : ms_repository_rules_digest s = gp_repository_rules_digest (ju_policy j);
  so_required : ms_required_check_names s = gp_required_check_names (ju_policy j);
  so_queue : ms_merge_queue_enforced s = true /\ ms_bypass_used s = false;
  so_classified : ms_pending_unclassified_findings s = 0;
  so_sources : trusted_finding_sources e <> [] /\ NoDup (map fi_source (ms_finding_inventories s)) /\
    forall source, source ∈ map fi_source (ms_finding_inventories s) <-> source ∈ map fst (trusted_finding_sources e);
  so_inventories : forall source authority, (source, authority) ∈ trusted_finding_sources e ->
    inventory_ok boundary now source authority;
  so_findings : forall f, f ∈ ms_findings s -> _finding_authenticated e f = true /\
    (bf_subject_sha f = ms_pr_head_sha s -> _blocking_finding e f = false);
  so_no_changes : forall r, r ∈ ms_reviews s -> counts s "CHANGES_REQUESTED" r = false;
  so_times : forall r, r ∈ ms_reviews s -> counts s "APPROVED" r = true -> is_ok (_time (fr_submitted_at r)) = true;
  so_approval : exists r, r ∈ ms_reviews s /\ approval_ok boundary now r;
  so_names : NoDup (map rc_name (ms_checks s));
  so_checks : forall name, name ∈ gp_required_check_names (ju_policy j) ->
    exists c, c ∈ ms_checks s /\ rc_name c = name /\ check_ok now exact c
}.

(** ** The reasons, one by one *)

Lemma form_reasons_nil :
  form_reasons e j s = [] <->
  (is_git_sha (ms_pr_head_sha s) = true /\ is_git_sha (ms_protected_base_sha s) = true) /\
  (forall d, d ∈ digest_fields s -> is_sha256 d = true) /\
  ms_repository_rules_digest s = gp_repository_rules_digest (ju_policy j) /\
  ms_required_check_names s = gp_required_check_names (ju_policy j) /\
  (ms_merge_queue_enforced s = true /\ ms_bypass_used s = false) /\
  ms_pending_unclassified_findings s = 0 /\
  (trusted_finding_sources e <> [] /\ NoDup (map fi_source (ms_finding_inventories s)) /\
   forall source, source ∈ map fi_source (ms_finding_inventories s) <-> source ∈ map fst (trusted_finding_sources e)).
Proof.
  unfold form_reasons. rewrite !app_nil, !reason_if_nil, !orb_false_iff, !negb_false_iff, !andb_true_iff.
  rewrite !existsb_false, !forallb_true, !bool_decide_eq_true, bool_decide_eq_false, String.eqb_eq, Z.eqb_eq.
  setoid_rewrite negb_false_iff. setoid_rewrite str_in_elem.
  assert (map fst (trusted_finding_sources e) = [] <-> trusted_finding_sources e = []) as -> by (by destruct (trusted_finding_sources e)).
  naive_solver.
Qed.

Lemma authentic_iff source authority expected i boundary now observed expires :
  _time (ju_invalidation_boundary j) = Ok boundary -> _time (ju_as_of j) = Ok now ->
  authentic_inventory e j s source authority expected i = Some (observed, expires) <->
  _time (fi_observed_at i) = Ok observed /\ _time (fi_expires_at i) = Ok expires /\
  fi_subject_sha i = ms_pr_head_sha s /\ fi_finding_digests i = expected /\
  fi_high_watermark_digest i = ms_finding_high_watermark_digest s /\ fi_source_authority_digest i = authority /\
  is_sha256 (fi_high_watermark_digest i) = true /\ is_sha256 (fi_authentication_evidence_digest i) = true /\
  (boundary < observed /\ observed <= now /\ now <= expires /\ expires - observed <= 5 * 60 * 1000000) /\
  authenticates (finding_inventory_authenticator e) source authority (finding_inventory_authentication_payload i)
    (fi_authentication_evidence_digest i) = true.
Proof.
  intros Hb Hn. unfold authentic_inventory. rewrite Hb, Hn.
  destruct (_time (fi_observed_at i)) as [o|]; [|naive_solver]. destruct (_time (fi_expires_at i)) as [x|]; [|naive_solver].
  match goal with |- context [if ?b then _ else _] => destruct b eqn:E end.
  - bool_simp. rewrite bool_decide_eq_true in *. rewrite Z.ltb_lt, !Z.leb_le in *.
    split; [intros [= <- <-]; done|]. intros ([= <-] & [= <-] & _). done.
  - split; [discriminate|]. intros ([= ->] & [= ->] & A1 & A2 & A3 & A4 & A5 & A6 & (A7 & A8 & A9 & A10) & A11).
    apply String.eqb_eq in A1, A3, A4. apply Z.ltb_lt in A7. apply Z.leb_le in A8, A9, A10.
    apply (bool_decide_eq_true_2 _) in A2. by rewrite A1, A2, A3, A4, A5, A6, A7, A8, A9, A10, A11 in E.
Qed.

Lemma inventory_reasons_nil (windows : list (string * option (Z * Z))) :
  inventory_reasons e windows = [] <->
  (forall q, q ∈ windows -> is_Some (snd q)) /\
  exists clock, trusted_clock e = Some {| tz_aware := true; micros := clock |} /\
    forall q observed expires, q ∈ windows -> snd q = Some (observed, expires) -> observed <= clock <= expires.
Proof.
  unfold inventory_reasons. rewrite app_nil, flat_map_nil. setoid_rewrite reason_if_nil.
  setoid_rewrite negb_false_iff. setoid_rewrite bool_decide_eq_true. apply and_iff_compat_l.
  destruct (trusted_clock e) as [[[] clock]|]; cbn [tz_aware micros]; [|naive_solver..].
  rewrite flat_map_nil. split.
  - intros Hw. exists clock. split; [done|]. intros q o x Hq Eq. specialize (Hw q Hq). rewrite Eq in Hw.
    apply reason_if_nil, negb_false_iff, andb_true_iff in Hw as [??]. lia.
  - intros (clock' & [= <-] & Hw) q Hq. destruct (snd q) as [[o x]|] eqn:Eq; [|done].
    apply reason_if_nil, negb_false_iff, andb_true_iff. specialize (Hw q o x Hq Eq). lia.
Qed.

Lemma expected_Ok source expected :
  expected_finding_digests s source = Ok expected <->
  exists digests, Forall2 (fun f d => canonical_digest (finding_authentication_payload f) = Ok d) (exact_findings s source) digests
                  /\ expected = sorted_str digests.
Proof.
  unfold expected_finding_digests. setoid_rewrite <- mapM_Ok. split.
  - intros E. simp_res. subst. eauto.
  - intros (digests & E & ->). by rewrite E.
Qed.

Lemma inventory_window_iff source authority boundary now clock :
  NoDup (map fi_source (ms_finding_inventories s)) ->
  _time (ju_invalidation_boundary j) = Ok boundary -> _time (ju_as_of j) = Ok now ->
  trusted_clock e = Some {| tz_aware := true; micros := clock |} ->
  (exists observed expires, inventory_window e j s source authority = Ok (Some (observed, expires)) /\
                            observed <= clock <= expires)
  <-> inventory_ok boundary now source authority.
Proof.
  intros Hd Hb Hn Hc. unfold inventory_window, inventory_ok, inventory_by_source. split.
  - intros (o & x & E & Hclock). simp_res.
    match goal with E : expected_finding_digests _ _ = _ |- _ => apply expected_Ok in E as (digests & Hdig & ->) end.
    destruct (last _) as [i|] eqn:El; [|done]. apply last_named in El as [Hi Hs]; [|done].
    cbn in *. match goal with E : authentic_inventory _ _ _ _ _ _ _ = Some _ |- _ =>
      apply (authentic_iff _ _ _ _ boundary now) in E; [|done..] end. exists digests, i, o, x, clock. naive_solver.
  - intros (digests & i & o & x & clock' & Hdig & Hi & Hs & A1 & A2 & A3 & A4 & A5 & A6 & A7 & A8 & A9 & A10 & A11 & A12 & Hc' & A13).
    rewrite Hc in Hc'. injection Hc' as <-. exists o, x. split; [|done].
    rewrite (proj2 (expected_Ok source (sorted_str digests))) by eauto. cbn.
    rewrite (proj2 (last_named _ _ source i Hd)) by done. cbn. f_equal.
    apply (authentic_iff _ _ _ _ boundary now); [done..|]. naive_solver.
Qed.

Lemma inventories_nil boundary now :
  NoDup (map fi_source (ms_finding_inventories s)) -> trusted_finding_sources e <> [] ->
  _time (ju_invalidation_boundary j) = Ok boundary -> _time (ju_as_of j) = Ok now ->
  (exists windows, inventory_windows e j s = Ok windows /\ inventory_reasons e windows = []) <->
  forall source authority, (source, authority) ∈ trusted_finding_sources e -> inventory_ok boundary now source authority.
Proof.
  intros Hd Hne Hb Hn. unfold inventory_windows. setoid_rewrite mapM_Ok. split.
  - intros (ws & Hws & (Hall & clock & Hc & Hw)%inventory_reasons_nil) source authority Hin.
    apply list_elem_of_lookup_1 in Hin as [k Hk]. destruct (Forall2_lookup_l _ _ _ _ _ Hws Hk) as ([name w] & Hk' & E).
    cbn [fst snd] in E. simp_res. apply list_elem_of_lookup_2 in Hk'. destruct (Hall _ Hk') as [[o x] Eo]. cbn in *. subst.
    apply (inventory_window_iff _ _ _ _ clock); [done..|]. exists o, x. split; [congruence|]. by eapply (Hw (name, Some (o, x))).
  - intros Hall. destruct (trusted_finding_sources e) as [|[source0 authority0] l0] eqn:El; [done|].
    destruct (Hall source0 authority0) as (ds & i & o & x & clock & A); [apply list_elem_of_here|].
    assert (Hc : trusted_clock e = Some {| tz_aware := true; micros := clock |}) by naive_solver. clear A ds i o x.
    rewrite <- El in *. clear El Hne.
    assert (Hex : forall q, q ∈ trusted_finding_sources e -> exists o x,
              inventory_window e j s (fst q) (snd q) = Ok (Some (o, x)) /\ o <= clock <= x).
    { intros [source authority] Hq. by apply (inventory_window_iff _ _ boundary now), Hall. }
    clear Hall. induction (trusted_finding_sources e) as [|q l IH].
    { exists []. split; [constructor|]. apply inventory_reasons_nil. split; [by intros ? []%not_elem_of_nil|].
      exists clock. split; [done|]. by intros ? ? ? []%not_elem_of_nil. }
    destruct IH as (ws & Hws & (Hall & clock' & Hc' & Hw)%inventory_reasons_nil).
    { intros q' Hq'. by apply Hex, list_elem_of_further. }
    rewrite Hc in Hc'. injection Hc' as <-. destruct (Hex q (list_elem_of_here _ _)) as (o & x & E & Hox).
    exists ((fst q, Some (o, x)) :: ws). split; [by constructor; [rewrite E|]|]. apply inventory_reasons_nil. split.
    + intros q' [->|Hq']%elem_of_cons; [done|by apply Hall].
    + exists clock. split; [done|]. intros q' o' x' [->|Hq']%elem_of_cons; [by intros [= <- <-]|by apply Hw].
Qed.

Lemma finding_reasons_nil :
  finding_reasons e s = [] <->
  forall f, f ∈ ms_findings s -> _finding_authenticated e f = true /\
    (bf_subject_sha f = ms_pr_head_sha s -> _blocking_finding e f = false).
Proof.
  unfold finding_reasons. rewrite app_nil, !reason_if_nil, !existsb_false. setoid_rewrite negb_false_iff. split.
  - intros [Ha Hb] f Hf. split; [by apply Ha|]. intros Es. specialize (Hb f Hf). rewrite (Ha f Hf), Es, String.eqb_refl in Hb. done.
  - intros Hall. split; intros f Hf; destruct (Hall f Hf) as [Ha Hb]; [done|]. rewrite Ha. cbn.
    destruct (String.eqb_spec (bf_subject_sha f) (ms_pr_head_sha s)); [by apply Hb|done].
Qed.

Lemma valid_approval_Ok boundary now r b :
  _time (ju_as_of j) = Ok now ->
  valid_approval j s boundary r = Ok b <->
  (counts s "APPROVED" r = true -> is_ok (_time (fr_submitted_at r)) = true) /\ (b = true <-> approval_ok boundary now r).
Proof.
  intros Hn. unfold valid_approval, approval_ok. destruct (counts s "APPROVED" r);
    [|split; [intros [= <-]; naive_solver|intros [_ Hb]; f_equal; destruct b; naive_solver]].
  destruct (_time (fr_submitted_at r)) as [t|]; cbn; [|naive_solver]. rewrite Hn.
  destruct (Z.ltb_spec boundary t); cbn; (split; [intros [= <-]|intros [_ Hb]; f_equal]).
  - split; [done|]. rewrite Z.leb_le. naive_solver.
  - apply eq_true_iff_eq. rewrite Z.leb_le, Hb. naive_solver.
  - split; [done|]. naive_solver lia.
  - destruct b; [|done]. destruct (proj1 Hb eq_refl) as (_ & t' & [= <-] & ?). lia.
Qed.

(** The approvals are read when the times of those that count are. *)
Lemma approvals_read boundary now rs :
  _time (ju_as_of j) = Ok now ->
  (forall r, r ∈ rs -> counts s "APPROVED" r = true -> is_ok (_time (fr_submitted_at r)) = true) ->
  exists bs, Forall2 (fun r b => valid_approval j s boundary r = Ok b) rs bs.
Proof.
  intros Hn Ht. induction rs as [|r rs IH]; [by exists []|].
  destruct IH as [bs Ebs]; [intros r' Hr'; by apply Ht, list_elem_of_further|].
  specialize (Ht r (list_elem_of_here _ _)).
  assert (exists b, valid_approval j s boundary r = Ok b) as [b Eb]; [|by exists (b :: bs); constructor].
  unfold valid_approval. destruct (counts s "APPROVED" r); [|by eexists].
  destruct (_time (fr_submitted_at r)) as [t|]; cbn; [|by specialize (Ht eq_refl)].
  rewrite Hn. destruct (boundary <? t); by eexists.
Qed.

Lemma review_reasons_nil boundary now :
  _time (ju_invalidation_boundary j) = Ok boundary -> _time (ju_as_of j) = Ok now ->
  review_reasons j s = Ok [] <->
  (forall r, r ∈ ms_reviews s -> counts s "CHANGES_REQUESTED" r = false) /\
  (forall r, r ∈ ms_reviews s -> counts s "APPROVED" r = true -> is_ok (_time (fr_submitted_at r)) = true) /\
  exists r, r ∈ ms_reviews s /\ approval_ok boundary now r.
Proof.
  intros Hb Hn. unfold review_reasons. rewrite Hb. cbn [mbind res_bind].
  assert (Hnil : forall bs, Ok (reason_if (existsb (counts s "CHANGES_REQUESTED") (ms_reviews s)) "formal changes are requested for the exact head"
            ++ reason_if (negb (existsb id bs)) "no fresh eligible formal approval after the invalidation boundary") = Ok []
          <-> (forall r, r ∈ ms_reviews s -> counts s "CHANGES_REQUESTED" r = false) /\ true ∈ bs).
  { intros bs. rewrite <- existsb_false, <- (reason_if_nil _ "formal changes are requested for the exact head").
    rewrite Ok_iff, app_nil, (reason_if_nil (negb _)), negb_false_iff, existsb_true. naive_solver. }
  split.
  - intros E. apply bind_Ok in E as (bs & Ebs & E). apply Hnil in E as [Hc Ht]. split; [done|].
    apply mapM_Ok in Ebs. clear Hnil Hc. split.
    + intros r Hr. apply list_elem_of_lookup_1 in Hr as [k Hk]. destruct (Forall2_lookup_l _ _ _ _ _ Ebs Hk) as (b & _ & E).
      by apply (valid_approval_Ok _ now) in E as [? _].
    + apply list_elem_of_lookup_1 in Ht as [k Hk]. destruct (Forall2_lookup_r _ _ _ _ _ Ebs Hk) as (r & Hr & E).
      apply (valid_approval_Ok _ now) in E as [_ E]; [|done]. exists r. split; [by eapply list_elem_of_lookup_2|by apply E].
  - intros (Hc & Ht & r & Hr & Ha).
    destruct (approvals_read boundary now (ms_reviews s) Hn Ht) as (bs & Ebs).
    apply bind_Ok_iff. exists bs. split; [by apply mapM_Ok|]. apply Hnil. split; [done|].
    apply list_elem_of_lookup_1 in Hr as [k Hk]. destruct (Forall2_lookup_l _ _ _ _ _ Ebs Hk) as (b & Hb' & E).
    apply (valid_approval_Ok _ now) in E as [_ E]; [|done]. apply E in Ha. subst b. by eapply list_elem_of_lookup_2.
Qed.

#[local] Opaque timedelta_seconds.
Lemma merge_group_reasons_nil now observed c :
  merge_group_reasons j now observed c = Ok [] <-> group_check_ok now observed c.
Proof.
  unfold merge_group_reasons, group_check_ok. rewrite bind_Ok_iff. setoid_rewrite bind_Ok_iff.
  setoid_rewrite Ok_iff. setoid_rewrite app_nil. setoid_rewrite app_nil. setoid_rewrite reason_if_nil.
  setoid_rewrite negb_false_iff. setoid_rewrite str_in_elem. setoid_rewrite Z.ltb_ge.
  destruct (ju_enqueue j) as [[digest at_]|]; [|naive_solver].
  setoid_rewrite list_elem_of_singleton. split.
  - intros (r1 & (enqueued & Ee & [= <-])%bind_Ok & window & Ew & [Hd Ho]%app_nil & Hs & Hw).
    apply reason_if_nil, negb_false_iff, String.eqb_eq in Hd. apply reason_if_nil, Z.ltb_ge in Ho. naive_solver.
  - intros ((Hd & Hs & enqueued & Ee & Ho) & window & Ew & Hw). exists []. rewrite Ee, Hd, String.eqb_refl. cbn.
    rewrite (proj2 (Z.ltb_ge _ _) Ho). naive_solver.
Qed.

Lemma check_reasons_nil now exact name :
  NoDup (map rc_name (ms_checks s)) ->
  check_reasons j s now (Ok exact) name = Ok [] <->
  exists c, c ∈ ms_checks s /\ rc_name c = name /\ check_ok now exact c.
Proof.
  intros Hd. unfold check_reasons, check_by_name. split.
  - destruct (last _) as [c|] eqn:El; [|done]. apply last_named in El as [Hc <-]; [|done].
    destruct (str_in (rc_event c) _) eqn:Ee; [|done]. apply str_in_elem in Ee. cbn [negb mbind res_bind].
    destruct (_time (rc_observed_at c)) as [observed|] eqn:Et; [|by intros [= []%app_nil]].
    intros (rest & Er & [[Hs Hi]%app_nil [Hf ->]%app_nil]%Ok_iff%app_nil)%bind_Ok. exists c. split_and!; [done..|].
    apply reason_if_nil, negb_false_iff, String.eqb_eq in Hs, Hi. apply reason_if_nil, Z.ltb_ge in Hf.
    split_and!; [done..|]. exists observed. split_and!; [done..|]. destruct (String.eqb_spec (rc_event c) "merge_group").
    + right. split; [done|]. by apply merge_group_reasons_nil.
    + left. apply Ok_iff, reason_if_nil, negb_false_iff, String.eqb_eq in Er. set_solver.
  - intros (c & Hc & <- & Hs & Hi & observed & Et & Hf & Hev).
    rewrite (proj2 (last_named rc_name _ (rc_name c) c Hd) (conj Hc eq_refl)), Hs, Hi, Et, !String.eqb_refl.
    rewrite (proj2 (Z.ltb_ge _ _) Hf). destruct Hev as [[-> ->]|[-> Hg%merge_group_reasons_nil]]; cbn;
      rewrite String.eqb_refl; [done|]. by rewrite Hg.
Qed.

(** A snapshot has no reason against it exactly when it is good. *)
Lemma validate_nil exact :
  exact_input_digest s = Ok exact ->
  _validate_snapshot e j s = Ok [] <->
  exists boundary now, _time (ju_invalidation_boundary j) = Ok boundary /\ _time (ju_as_of j) = Ok now /\
    snapshot_ok boundary now exact.
Proof.
  intros Ex. unfold _validate_snapshot. rewrite Ex. split.
  - intros (windows & Ew & E1)%bind_Ok. apply bind_Ok in E1 as (reviews & Er & E1). apply bind_Ok in E1 as (now & En & E1).
    apply bind_Ok in E1 as (checks & Ec & E).
    injection E as E. apply app_nil in E as [Ef E]. apply app_nil in E as [Ei E]. apply app_nil in E as [Eg E].
    apply app_nil in E as [-> E]. apply app_nil in E as [Ed Ech].
    apply form_reasons_nil in Ef as (A1 & A2 & A3 & A4 & A5 & A6 & A7). pose proof A7 as (Hne & Hd & _).
    pose proof Er as (boundary & Eb & _)%bind_Ok. pose proof (proj1 (review_reasons_nil boundary now Eb En) Er) as (R1 & R2 & R3).
    apply reason_if_nil, negb_false_iff, bool_decide_eq_true in Ed.
    exists boundary, now. split_and!; [done..|]. constructor; try done.
    + apply inventories_nil; eauto.
    + by apply finding_reasons_nil.
    + intros name Hn. apply check_reasons_nil; [done|]. revert name Hn. apply mapM_nils. eauto.
  - intros (boundary & now & Eb & En & []).
    pose proof so_sources0 as (Hne & Hd & _).
    apply bind_Ok_iff. destruct (proj2 (inventories_nil boundary now Hd Hne Eb En) so_inventories0) as (ws & Ew & Ei).
    exists ws. split; [done|]. apply bind_Ok_iff. exists []. split; [by apply (review_reasons_nil boundary now)|].
    rewrite En. cbn [mbind res_bind]. apply bind_Ok_iff.
    destruct (proj2 (mapM_nils (check_reasons j s now (Ok exact)) (gp_required_check_names (ju_policy j)))) as (cs & Ec & Ecn).
    { intros name Hn. by apply check_reasons_nil, so_checks0. }
    exists cs. split; [done|]. f_equal. rewrite !app_nil, reason_if_nil, negb_false_iff, bool_decide_eq_true.
    rewrite form_reasons_nil, finding_reasons_nil. done.
Qed.
End Judged.

(** ** [linearize_merge] *)

Variable policy : GovernedMergePolicy.
Variable trusted_token_issuers : gmap string string.
Variable token_authenticator : authenticator.

Definition pr_merged : MergeDecision :=
  {| md_admitted := true; md_outcome := "PR_MERGED"; md_rollout_allowed := true; md_reasons := []; md_incident := false |}.
Definition merge_incident (reasons : list string) : MergeDecision :=
  {| md_admitted := false; md_outcome := "MERGE_INCIDENT"; md_rollout_allowed := false; md_reasons := reasons;
     md_incident := true |}.

(** The token is signed by a trusted issuer, under the authority it is trusted for. *)
Definition token_ok (t : EnqueueToken) : Prop :=
  exists authority, trusted_token_issuers !! et_issuer_id t = Some authority /\ authority <> ""%string /\
    et_issuer_authority_digest t = authority /\ is_sha256 (et_authentication_evidence_digest t) = true /\
    token_authenticator (et_issuer_id t) authority (enqueue_token_authentication_payload t)
      (et_authentication_evidence_digest t) = Some true.

(** The merge is the one that was admitted: a good snapshot at the time of the
    merge, within the life of an authentic token, with the inputs of the token,
    through the native gate, to the reviewed tree. *)
Record merge_ok (t : EnqueueToken) (current : MergeSnapshot) (m : native_merge) : Prop := {
  mo_snapshot : exists boundary now enqueued expires timeout,
    _time (et_invalidation_boundary t) = Ok boundary /\ _time (nm_merged_at m) = Ok now /\
    _time (et_enqueued_at t) = Ok enqueued /\ _time (et_expires_at t) = Ok expires /\
    int_total_seconds (expires - enqueued) = Ok timeout /\ 0 < timeout /\ enqueued <= now <= expires /\
    snapshot_ok {| ju_policy := policy; ju_invalidation_boundary := et_invalidation_boundary t;
                   ju_as_of := nm_merged_at m; ju_queue_timeout_seconds := timeout;
                   ju_enqueue := Some (et_enqueue_digest t, et_enqueued_at t) |}
      current boundary now (et_exact_input_digest t);
  mo_token : token_ok t;
  mo_inputs : exact_input_digest current = Ok (et_exact_input_digest t);
  mo_authority : ms_authority_digest current = et_authority_digest t;
  mo_watermark : ms_finding_high_watermark_digest current = et_finding_high_watermark_digest t;
  mo_checks : merge_group_check_names current = et_merge_group_check_names t;
  mo_gate : nm_native_gate_authorized m = true;
  mo_sha : is_git_sha (nm_observed_merge_sha m) = true;
  mo_tree : nm_observed_merge_tree_digest m = ms_prospective_merge_tree_digest current
}.

Lemma token_authenticated_iff t : token_authenticated trusted_token_issuers token_authenticator t = true <-> token_ok t.
Proof.
  unfold token_authenticated, token_ok, got. cbn. rewrite !andb_true_iff, String.eqb_eq.
  destruct (trusted_token_issuers !! et_issuer_id t) as [authority|]; cbn; [|naive_solver].
  destruct (token_authenticator _ _ _ _) as [[]|] eqn:E; cbn; split; try naive_solver.
  - intros (((Hn & <-) & Hs) & _). exists authority. split_and!; try done. by intros ->.
  - intros (a & [= <-] & Hn & Ha & Hs & _). split_and!; try done. by destruct authority.
Qed.

Lemma window_reasons_nil t m :
  window_reasons t m = [] <->
  exists now enqueued expires, _time (nm_merged_at m) = Ok now /\ _time (et_enqueued_at t) = Ok enqueued /\
    _time (et_expires_at t) = Ok expires /\ enqueued <= now <= expires.
Proof.
  unfold window_reasons. destruct (_time (nm_merged_at m)) as [now|]; [|naive_solver].
  destruct (_time (et_enqueued_at t)) as [enqueued|]; [|naive_solver].
  destruct (Z.ltb_spec now enqueued); [naive_solver lia|].
  destruct (_time (et_expires_at t)) as [expires|]; [|naive_solver]. rewrite reason_if_nil, Z.ltb_ge. naive_solver.
Qed.

Lemma current_reasons_nil t current m exact :
  exact_input_digest current = Ok exact ->
  current_reasons e policy t current m = Ok [] <->
  exists boundary now enqueued expires timeout,
    _time (et_invalidation_boundary t) = Ok boundary /\ _time (nm_merged_at m) = Ok now /\
    _time (et_enqueued_at t) = Ok enqueued /\ _time (et_expires_at t) = Ok expires /\
    int_total_seconds (expires - enqueued) = Ok timeout /\ 0 < timeout /\
    snapshot_ok {| ju_policy := policy; ju_invalidation_boundary := et_invalidation_boundary t;
                   ju_as_of := nm_merged_at m; ju_queue_timeout_seconds := timeout;
                   ju_enqueue := Some (et_enqueue_digest t, et_enqueued_at t) |} current boundary now exact.
Proof.
  intros Ex. unfold current_reasons. split.
  - intros E. assert (E' : (timeout ← authenticated_queue_timeout t;
       _validate_snapshot e
         {| ju_policy := policy; ju_invalidation_boundary := et_invalidation_boundary t; ju_as_of := nm_merged_at m;
            ju_queue_timeout_seconds := timeout;
            ju_enqueue := Some (et_enqueue_digest t, et_enqueued_at t) |} current) = Ok []).
    { destruct (_ ≫= _) as [r|ex]; cbn in E; [done|]. by destruct (is_ValueError ex). }
    clear E. apply bind_Ok in E' as (timeout & Et & E). apply (validate_nil _ _ exact) in E as (boundary & now & Eb & En & Hs); [|done].
    unfold authenticated_queue_timeout in Et. simp_res. subst. rewrite Z.leb_gt in *. naive_solver.
  - intros (boundary & now & enqueued & expires & timeout & Eb & En & Ee & Ex' & Et & Hp & Hs).
    unfold authenticated_queue_timeout. rewrite Ex', Ee. cbn [mbind res_bind]. rewrite Et. cbn [mbind res_bind].
    rewrite (proj2 (Z.leb_gt _ _) Hp). cbn [raise_if mbind res_bind].
    rewrite (proj2 (validate_nil _ _ exact Ex)); [done|]. by exists boundary, now.
Qed.

Lemma linearize_merged t current m :
  linearize_merge e policy trusted_token_issuers token_authenticator t current m = Ok pr_merged <->
  merge_ok t current m.
Proof.
  unfold linearize_merge. split.
  - intros (reasons & Er & (exact & Ex & E)%bind_Ok)%bind_Ok. cbn zeta in E.
    match type of E with Ok (match ?l with _ => _ end) = _ => destruct l eqn:El; [|discriminate E] end. clear E.
    rewrite !app_nil, !reason_if_nil, !negb_false_iff, !String.eqb_eq, bool_decide_eq_true in El.
    destruct El as (-> & Ht%token_authenticated_iff & (now & en & x & En & Ee & Exp & Hw)%window_reasons_nil
                    & -> & A1 & A2 & A3 & A4 & A5 & A6).
    apply (current_reasons_nil _ _ _ _ Ex) in Er as (boundary & now' & en' & x' & timeout & Er).
    assert (now' = now /\ en' = en /\ x' = x) as (-> & -> & ->) by (split_and!; naive_solver congruence).
    constructor; try done. exists boundary, now, en, x, timeout. naive_solver.
  - intros [(boundary & now & en & x & timeout & Hs) ????????].
    assert (Er : current_reasons e policy t current m = Ok []).
    { apply (current_reasons_nil _ _ _ _ mo_inputs0). exists boundary, now, en, x, timeout. naive_solver. }
    rewrite Er, mo_inputs0. cbn [mbind res_bind app]. apply token_authenticated_iff in mo_token0.
    rewrite mo_token0, mo_authority0, mo_watermark0, mo_checks0, mo_gate0, mo_sha0, mo_tree0, !String.eqb_refl.
    rewrite bool_decide_eq_true_2 by done.
    rewrite (proj2 (window_reasons_nil t m)) by (exists now, en, x; naive_solver). done.
Qed.

(** C15. A merge is admitted exactly when it is the admitted one: it happened
    within the life of an authentic token of a trusted issuer, through the native
    gate and to the reviewed tree, from a snapshot that is good at the time of the
    merge and has the inputs, the authority, the finding watermark and the
    merge-group checks of the token.  Any other merge is an incident, which states
    its reasons and forbids the rollout. *)
Theorem merge_admitted_iff t current m :
  let linearized := linearize_merge e policy trusted_token_issuers token_authenticator t current m in
  (linearized = Ok pr_merged <-> merge_ok t current m) /\
  (forall d, linearized = Ok d -> d = pr_merged \/ exists reasons, reasons <> [] /\ d = merge_incident reasons).
Proof.
  split; [apply linearize_merged|]. unfold linearize_merge.
  intros d (reasons & _ & (exact & _ & E)%bind_Ok)%bind_Ok. cbn zeta in E.
  match type of E with Ok (match ?l with _ => _ end) = _ => destruct l as [|r rs]; injection E as <- end; [by left|].
  right. by exists (r :: rs).
Qed.

(** ** [resolve_external_race] *)

Definition race_dequeued (kind : ExternalRaceKind) : MergeDecision :=
  {| md_admitted := false;
     md_outcome := match kind with AUTHORITY_REVOKED => "PRODUCT_INPUT_REQUIRED" | BLOCKING_FINDING => "REVIEW_FAILED" end;
     md_rollout_allowed := false; md_reasons := ["native admission was dequeued"%string]; md_incident := false |}.

(** A race of an external event with the queue has one outcome: the merge is
    dequeued when it did not happen, or happened no earlier than the dequeue; a
    merge that happened before any dequeue is kept.  A rollout is never allowed
    and no incident is opened, and a dequeue before the event that causes it is an
    error. *)
Theorem race_outcomes kind event merge dequeue event_at merge_at dequeue_at :
  _time event = Ok event_at -> optional_time merge = Ok merge_at -> optional_time dequeue = Ok dequeue_at ->
  (exists d, dequeue_at = Some d /\ d < event_at /\
     resolve_external_race kind event merge dequeue
     = Raise (ValueError "dequeue cannot complete before its triggering external event")) \/
  (forall d, dequeue_at = Some d -> event_at <= d) /\
  exists decision, resolve_external_race kind event merge dequeue = Ok decision /\
    md_rollout_allowed decision = false /\ md_incident decision = false /\
    ((merge_at = None \/ exists d m, dequeue_at = Some d /\ merge_at = Some m /\ d <= m) -> decision = race_dequeued kind) /\
    (forall m, merge_at = Some m -> (forall d, dequeue_at = Some d -> m < d) ->
       md_admitted decision = true /\
       md_outcome decision = match kind with
                             | AUTHORITY_REVOKED => "PR_MERGED_PRODUCT_INPUT_BLOCKED"
                             | BLOCKING_FINDING => "PR_MERGED_REMEDIATION_REQUIRED"
                             end%string).
Proof.
  intros He Hm Hd. unfold resolve_external_race. rewrite He, Hm, Hd. cbn [mbind res_bind].
  destruct dequeue_at as [d|]; [destruct (Z.ltb_spec d event_at)|]; cbn [raise_if mbind res_bind].
  - left. by exists d.
  - right. split; [by intros ? [= <-]|]. destruct merge_at as [merged|]; [destruct (Z.leb_spec d merged)|];
      eexists; (split; [reflexivity|]); cbn; naive_solver lia.
  - right. split; [done|]. destruct merge_at as [merged|]; eexists; (split; [reflexivity|]); cbn; naive_solver.
Qed.
End Merge.

(** ** [enqueue] *)

Section Enqueued.
Context `{Rfc8785} `{Datetime} `{DatetimeText} `{Unicode}.

Lemma enqueue_Ok e0 policy0 s issuer authority signer at_ boundary timeout t :
  enqueue e0 policy0 s issuer authority signer at_ boundary timeout = Ok t ->
  0 < timeout /\ exact_input_digest s = Ok (et_exact_input_digest t) /\ et_authority_digest t = ms_authority_digest s /\
  et_finding_high_watermark_digest t = ms_finding_high_watermark_digest s /\
  et_merge_group_check_names t = merge_group_check_names s /\ et_issuer_id t = issuer /\
  et_invalidation_boundary t = boundary /\ et_enqueued_at t = at_ /\
  _validate_snapshot e0 {| ju_policy := policy0; ju_invalidation_boundary := boundary; ju_as_of := at_;
                           ju_queue_timeout_seconds := timeout; ju_enqueue := None |} s = Ok [].
Proof.
  unfold enqueue. intros E. simp_res. subst. cbn.
  repeat match goal with E : negb (bool_decide _) = false |- _ => apply negb_false_iff, bool_decide_eq_true in E; subst end.
  rewrite Z.leb_gt in *. split_and!; done.
Qed.

Lemma exact_inputs_norm s1 s2 :
  json_norm (strs (exact_inputs s1)) = json_norm (strs (exact_inputs s2)) -> exact_inputs s1 = exact_inputs s2.
Proof. intros E. destruct s1, s2. vm_compute in E. injection E as -> -> -> -> -> -> -> -> -> ->. done. Qed.

Context `{!Rfc8785Laws}.

(** What is merged is what was enqueued: when a merge is admitted under a
    token that [enqueue] issued for a snapshot, its head, base and prospective tree
    and its policies are those of the snapshot, unless the texts of the two
    collide under SHA-256; its authority, its finding watermark and its merge-group
    checks are those of the snapshot; the snapshot was good when it was enqueued;
    and the queue merged it before the token expired. *)
Theorem merged_is_enqueued e0 policy0 e policy trusted_token_issuers token_authenticator
    s issuer authority signer at_ boundary timeout t current m :
  enqueue e0 policy0 s issuer authority signer at_ boundary timeout = Ok t ->
  linearize_merge e policy trusted_token_issuers token_authenticator t current m = Ok pr_merged ->
  (exact_inputs current = exact_inputs s \/ text_collision (strs (exact_inputs current)) (strs (exact_inputs s))) /\
  ms_authority_digest current = ms_authority_digest s /\
  ms_finding_high_watermark_digest current = ms_finding_high_watermark_digest s /\
  merge_group_check_names current = merge_group_check_names s /\
  nm_observed_merge_tree_digest m = ms_prospective_merge_tree_digest current /\
  (exists from now, _time boundary = Ok from /\ _time at_ = Ok now /\
     snapshot_ok e0 {| ju_policy := policy0; ju_invalidation_boundary := boundary; ju_as_of := at_;
                       ju_queue_timeout_seconds := timeout; ju_enqueue := None |} s from now (et_exact_input_digest t)) /\
  exists enqueued merged expires, _time at_ = Ok enqueued /\ _time (nm_merged_at m) = Ok merged /\
    _time (et_expires_at t) = Ok expires /\ enqueued <= merged <= expires.
Proof.
  intros (Hp & Ed & A1 & A2 & A3 & _ & _ & At & Hv)%enqueue_Ok Hm. apply linearize_merged in Hm as [].
  split_and!; try congruence.
  - destruct (same_digest_value _ _ _ mo_inputs0 Ed) as [Hn|Hc]; [left; by apply exact_inputs_norm|by right].
  - by apply (validate_nil _ _ _ _ Ed) in Hv.
  - destruct mo_snapshot0 as (? & now & en & x & ? & _ & En & Ee & Ex & _ & _ & Hw & _). rewrite At in Ee. eauto 10.
Qed.
End Enqueued.

(** * Native merge admission: a concrete merge *)

#[local] Existing Instance ascii_unicode.
#[local] Existing Instance minute_times.

Definition minute_text (n : Z) : string := hour +:+ (if (n <? 10)%Z then "0" else "")%string +:+ str_of_Z n +:+ ":00+00:00".
#[local] Instance minutes_after : DatetimeText := {|
  isoformat_after text seconds :=
    match fromisoformat text with
    | Some i => Ok (minute_text ((micros i - 1767225600000000 + seconds * 1000000) / 60000000))
    | None => Raise (ValueError "Invalid isoformat string")
    end |}.

Section Demo.
Local Open Scope string_scope.

Definition sha_of (c : ascii) : string := string_of_list_ascii (repeat c 40).
Definition minute (n : Z) : string := minute_text n.

Definition signed_by_anyone : authenticator := fun _ _ _ proof => Some (String.eqb proof (seal "9")).
Definition demo_merge_env (now : Z) : merge_env := {|
  trusted_finding_sources := [("codex", seal "e")]; trusted_finding_authorities := ∅;
  finding_authenticator := Some signed_by_anyone; finding_inventory_authenticator := Some signed_by_anyone;
  resolution_authenticator := None;
  trusted_clock := Some {| tz_aware := true; micros := 1767225600000000 + now * 60000000 |} |}.
Definition demo_merge_policy : GovernedMergePolicy :=
  {| gp_repository_rules_digest := seal "c"; gp_required_check_names := ["unit"; "queue"] |}.

(** A medium finding of the source, which is not blocking. *)
Definition demo_finding : BlockingFinding := {|
  bf_finding_id := "F1"; bf_source := "codex"; bf_subject_sha := sha_of "a"; bf_severity := "Medium";
  bf_credible := true; bf_blocking := false; bf_normalized_at := minute 2; bf_source_authority_digest := seal "e";
  bf_authentication_evidence_digest := seal "9"; bf_disposition := ""; bf_resolution_digest := "";
  bf_resolution_actor := ""; bf_resolution_authority_digest := ""; bf_resolution_authentication_evidence_digest := "" |}.
Definition text_of (r : res string) : string := match r with Ok d => d | Raise _ => "" end.
Definition demo_inventory : FindingInventoryAttestation := {|
  fi_source := "codex"; fi_subject_sha := sha_of "a";
  fi_finding_digests := [text_of (canonical_digest (finding_authentication_payload demo_finding))];
  fi_high_watermark_digest := seal "8"; fi_observed_at := minute 3; fi_expires_at := minute 8;
  fi_source_authority_digest := seal "e"; fi_authentication_evidence_digest := seal "9" |}.
Definition demo_merge_snapshot (checks : list RequiredCheck) : MergeSnapshot := {|
  ms_pr_head_sha := sha_of "a"; ms_protected_base_sha := sha_of "b"; ms_prospective_merge_tree_digest := seal "1";
  ms_repository_rules_digest := seal "c"; ms_architecture_policy_digest := seal "2";
  ms_toolchain_policy_digest := seal "3"; ms_environment_profile_digest := seal "4";
  ms_security_policy_digest := seal "5"; ms_verification_policy_digest := seal "6";
  ms_evidence_policy_digest := seal "7"; ms_authority_digest := seal "d";
  ms_finding_high_watermark_digest := seal "8"; ms_pending_unclassified_findings := 0;
  ms_required_check_names := ["unit"; "queue"]; ms_checks := checks;
  ms_reviews := [{| fr_review_id := "R1"; fr_actor := "ann"; fr_subject_sha := sha_of "a"; fr_state := "APPROVED";
                    fr_submitted_at := minute 2; fr_eligible := true |}];
  ms_findings := [demo_finding]; ms_finding_inventories := [demo_inventory];
  ms_merge_queue_enforced := true; ms_bypass_used := false |}.
Definition demo_inputs : string := text_of (exact_input_digest (demo_merge_snapshot [])).
Definition demo_check (name status at_ event enqueued : string) : RequiredCheck := {|
  rc_name := name; rc_subject_sha := sha_of "a"; rc_input_digest := demo_inputs; rc_status := status;
  rc_observed_at := at_; rc_event := event; rc_enqueue_digest := enqueued |}.
Definition demo_enqueued : MergeSnapshot :=
  demo_merge_snapshot [demo_check "unit" "SUCCESS" (minute 3) "pull_request" "";
                       demo_check "queue" "PENDING" (minute 3) "merge_group" ""].
#[local] Abbreviation demo_token :=
  (enqueue (demo_merge_env 4) demo_merge_policy demo_enqueued "queue" (seal "f") (fun _ _ _ => Ok (seal "9"))
     (minute 4) (minute 1) 1800).
Definition demo_issued : EnqueueToken := Eval vm_compute in
  match demo_token with Ok t => t | Raise _ =>
    Build_EnqueueToken "" "" "" "" [] "" "" "" "" "" "" "" end.
Definition demo_merged : MergeSnapshot :=
  demo_merge_snapshot [demo_check "unit" "SUCCESS" (minute 3) "pull_request" "";
                       demo_check "queue" "SUCCESS" (minute 5) "merge_group" (et_enqueue_digest demo_issued)].
Definition demo_native (gate : bool) (at_ : Z) : native_merge := {|
  nm_observed_merge_sha := sha_of "0"; nm_observed_merge_tree_digest := seal "1"; nm_merged_at := minute at_;
  nm_native_gate_authorized := gate |}.
Definition demo_issuers : gmap string string := {[ "queue" := seal "f" ]}.

#[local] Abbreviation demo_linearize gate at_ :=
  (linearize_merge (demo_merge_env 6) demo_merge_policy demo_issuers signed_by_anyone demo_issued demo_merged
     (demo_native gate at_)).

Lemma demo_merge :
  demo_token = Ok demo_issued /\ demo_linearize true 6 = Ok pr_merged /\
  demo_linearize false 6 = Ok (merge_incident ["native gate integrity or authorization failed"]) /\
  demo_linearize true 40
  = Ok (merge_incident ["finding inventory for codex is incomplete, stale, or unauthenticated";
                        "merge-group check queue exceeded its freshness window";
                        "authenticated enqueue token exceeded its freshness window"]).
Proof. vm_compute. repeat split; reflexivity. Qed.

Lemma merge_admitted_iff_witness :
  merge_ok (demo_merge_env 6) demo_merge_policy demo_issuers signed_by_anyone demo_issued demo_merged (demo_native true 6).
Proof. apply merge_admitted_iff. exact (proj1 (proj2 demo_merge)). Defined.

Lemma merged_is_enqueued_witness :
  exact_inputs demo_merged = exact_inputs demo_enqueued
  \/ text_collision (strs (exact_inputs demo_merged)) (strs (exact_inputs demo_enqueued)).
Proof.
  exact (proj1 (merged_is_enqueued _ _ _ _ _ _ _ _ _ _ _ _ _ _ _ _ (proj1 demo_merge) (proj1 (proj2 demo_merge)))).
Defined.

Lemma race_outcomes_witness :
  exists decision, resolve_external_race BLOCKING_FINDING (minute 3) (Some (minute 6)) (Some (minute 5)) = Ok decision /\
    decision = race_dequeued BLOCKING_FINDING.
Proof.
  set (t n := 1767225600000000 + n * 60000000).
  destruct (race_outcomes BLOCKING_FINDING (minute 3) (Some (minute 6)) (Some (minute 5)) (t 3) (Some (t 6)) (Some (t 5)))
    as [(d & [= <-] & Hlt & _)|(_ & decision & E & _ & _ & Hd & _)]; [vm_compute; reflexivity..|vm_compute in Hlt; discriminate|].
  exists decision. split; [exact E|]. apply Hd. right. exists (t 5), (t 6). split; [reflexivity|]. split; [reflexivity|].
  unfold t. lia.
Defined.
End Demo.
