(* ===== verification/Support.v ===== *)
(** * Visible support cases and their decisions

    [workflows/support.py]: the facts, policies and cases of a visible corpus,
    and the loader that admits them from JSON.  [workflows/decision.py]: the
    decision contract.  [workflows/support_discovery.py]: the contract that the
    visible policies of a case authorize. *)
From Stdlib Require Import Ascii String.
From S2P Require Import Prelude Sha256 Json JsonText PyStr PyConv Canonical.

(** ** Bounded values *)

Section Bounded.
Context `{Unicode}.

Definition identifier_char (cp : N) : bool := isalnum cp || existsb (N.eqb cp) (ords "-_.:").

Definition bounded_identifier (s : string) : bool :=
  match ords s with
  | first :: _ => (Z.of_nat (length (ords s)) <=? 128) && isalnum first && forallb identifier_char (ords s)
  | [] => false
  end.
Definition _bounded_identifier (value : json) : bool :=
  match value with JStr s => bounded_identifier s | _ => false end.

(** The text has no NUL, encodes as UTF-8 and takes at most [maximum] bytes. *)
Definition bounded_text (maximum : Z) (s : string) : bool :=
  negb (existsb (N.eqb 0) (ords s)) && negb (existsb is_surrogate (ords s))
  && (0 <? Z.of_nat (String.length s)) && (Z.of_nat (String.length s) <=? maximum).
Definition _bounded_text (maximum : Z) (value : json) : bool :=
  match value with JStr s => bounded_text maximum s | _ => false end.
End Bounded.

(** [sha256:] and 64 lower-case hexadecimal digits. *)
Definition _valid_digest (s : string) : bool :=
  Nat.eqb (String.length s) 71 && startswith s "sha256:" && string_forallb is_hex (drop_str 7 s).

(** ** Facts and policies *)

Record VisibleFact : Type := { vf_fact_id : string; vf_text : string; vf_source_id : string }.

Record PolicyRule : Type := {
  pr_rule_id : string;
  pr_text : string;
  pr_priority : Z;
  pr_action : string;
  pr_required_fact_id : string;
  pr_required_fact_digest : string;
  pr_human_question : string;
  pr_semantic_digest : string
}.

Record SupportCase : Type := {
  sc_case_id : string;
  sc_split : string;
  sc_ticket_text : string;
  sc_facts : list VisibleFact;
  sc_policies : list PolicyRule;
  sc_product_constraints : list string
}.

Definition fact_dict (f : VisibleFact) : json :=
  strs [("fact_id", vf_fact_id f); ("text", vf_text f); ("source_id", vf_source_id f)]%string.
Definition policy_dict (p : PolicyRule) : json := JObj
  [("rule_id", JStr (pr_rule_id p)); ("text", JStr (pr_text p)); ("priority", JInt (pr_priority p));
   ("action", JStr (pr_action p)); ("required_fact_id", JStr (pr_required_fact_id p));
   ("required_fact_digest", JStr (pr_required_fact_digest p)); ("human_question", JStr (pr_human_question p));
   ("semantic_digest", JStr (pr_semantic_digest p))]%string.
Definition case_dict (c : SupportCase) : json := JObj
  [("case_id", JStr (sc_case_id c)); ("split", JStr (sc_split c)); ("ticket_text", JStr (sc_ticket_text c));
   ("facts", JArr (map fact_dict (sc_facts c))); ("policies", JArr (map policy_dict (sc_policies c)));
   ("product_constraints", JArr (map JStr (sc_product_constraints c)))]%string.

Definition actions : list string := ["escalate"; "refund"; "reject"; "replacement"; "request_evidence"]%string.

(** [value in {...}], a set of texts. *)
Definition in_set (value : json) (names : list string) : res bool :=
  if hashable value then Ok (match value with JStr s => str_in s names | _ => false end)
  else Raise (TypeError "unhashable type").

Section Support.
Context `{Rfc8785} `{Unicode}.

Definition new_visible_fact (fact_id text source_id : json) : res VisibleFact :=
  match fact_id, text, source_id with
  | JStr i, JStr t, JStr s =>
      if bounded_identifier i && bounded_identifier s && bounded_text 4096 t
      then Ok {| vf_fact_id := i; vf_text := t; vf_source_id := s |}
      else Raise (VisibleCorpusError "visible fact is malformed")
  | _, _, _ => Raise (VisibleCorpusError "visible fact is malformed")
  end.

Definition semantic_payload (p : PolicyRule) : json := JObj
  [("action", JStr (pr_action p)); ("human_question", JStr (pr_human_question p));
   ("priority", JInt (pr_priority p)); ("required_fact_id", JStr (pr_required_fact_id p));
   ("required_fact_digest", JStr (pr_required_fact_digest p)); ("rule_id", JStr (pr_rule_id p));
   ("text", JStr (pr_text p))]%string.

Definition question_ok (question : string) : bool :=
  negb (nonempty question) || nonempty (strip question) && bounded_text 1024 question.

(** [PolicyRule(...)]: the conditions of its [__post_init__], in their order. *)
Definition new_policy_rule (rule_id text priority action required_fact_id required_fact_digest human_question
    semantic_digest : json) : res PolicyRule :=
  let malformed : res PolicyRule := Raise (VisibleCorpusError "policy rule is malformed") in
  if negb (_bounded_identifier rule_id && _bounded_text 4096 text
           && match priority with JInt z => (0 <=? z) && (z <=? 100) | _ => false end)
  then malformed
  else
    known ← in_set action actions;
    if negb known then malformed else
    match rule_id, text, priority, action, required_fact_id, required_fact_digest, human_question with
    | JStr i, JStr t, JInt z, JStr a, JStr f, JStr d, JStr q =>
        if bounded_identifier f && _valid_digest d && question_ok q
           && (negb (String.eqb a "escalate") || nonempty (strip q))
        then
          let rule digest := {| pr_rule_id := i; pr_text := t; pr_priority := z; pr_action := a;
                                pr_required_fact_id := f; pr_required_fact_digest := d; pr_human_question := q;
                                pr_semantic_digest := digest |} in
          semantic ← canonical_digest (semantic_payload (rule ""%string));
          match semantic_digest with
          | JStr claimed => if String.eqb claimed semantic then Ok (rule claimed) else malformed
          | _ => malformed
          end
        else malformed
    | _, _, _, _, _, _, _ => malformed
    end.

Definition create_policy_rule (rule_id text : string) (priority : Z) (action : string) (required_fact : VisibleFact)
    (human_question : string) : res PolicyRule :=
  digest ← canonical_digest (fact_dict required_fact);
  semantic ← canonical_digest (semantic_payload
    {| pr_rule_id := rule_id; pr_text := text; pr_priority := priority; pr_action := action;
       pr_required_fact_id := vf_fact_id required_fact; pr_required_fact_digest := digest;
       pr_human_question := human_question; pr_semantic_digest := "" |});
  new_policy_rule (JStr rule_id) (JStr text) (JInt priority) (JStr action) (JStr (vf_fact_id required_fact)) (JStr digest)
    (JStr human_question) (JStr semantic).

(** ** Cases *)

(** The last fact with the identifier: a dict keeps it. *)
Definition fact_of (facts : list VisibleFact) (fact_id : string) : option VisibleFact :=
  last (List.filter (fun f => String.eqb (vf_fact_id f) fact_id) facts).

(** Whether every policy is bound to the text of a visible fact: [all] stops at
    the first that is not. *)
Fixpoint policies_bound (facts : list VisibleFact) (policies : list PolicyRule) : res bool :=
  match policies with
  | [] => Ok true
  | p :: rest =>
      match fact_of facts (pr_required_fact_id p) with
      | Some f =>
          digest ← canonical_digest (fact_dict f);
          if String.eqb (pr_required_fact_digest p) digest then policies_bound facts rest else Ok false
      | None => Ok false
      end
  end.

Definition texts (values : list json) : list string := omap as_str values.

(** [SupportCase(...)] and its [__post_init__]. *)
Definition new_support_case (case_id split ticket_text : json) (facts : list VisibleFact) (policies : list PolicyRule)
    (product_constraints : list json) : res SupportCase :=
  let malformed : res SupportCase := Raise (VisibleCorpusError "support case is malformed or duplicate") in
  if negb (_bounded_identifier case_id) then malformed else
  known ← in_set split ["development"; "held_out"]%string;
  if negb known then malformed else
  match case_id, split, ticket_text with
  | JStr i, JStr s, JStr t =>
      if bounded_text 4096 t && negb (bool_decide (length facts = 0%nat)) && negb (bool_decide (length policies = 0%nat))
         && forallb (_bounded_text 512) product_constraints
         && bool_decide (NoDup (map vf_fact_id facts)) && bool_decide (NoDup (map pr_rule_id policies))
      then
        bound ← policies_bound facts policies;
        if (bound : bool) then
          Ok {| sc_case_id := i; sc_split := s; sc_ticket_text := t; sc_facts := facts; sc_policies := policies;
                sc_product_constraints := texts product_constraints |}
        else malformed
      else malformed
  | _, _, _ => malformed
  end.

(** ** [load_visible_cases] *)

Definition _FORBIDDEN_ORACLE_FIELDS : list string :=
  ["expected_outcome"; "hidden_oracles"; "oracle"; "rationale_code"; "required_fact_ids"; "required_rule_ids"]%string.

Definition leaks (m : list (string * json)) : bool := existsb (fun p => str_in (fst p) _FORBIDDEN_ORACLE_FIELDS) m.

(** The children of a value, at the next depth, as they are pushed. *)
Definition children (depth : Z) (v : json) : list (json * Z) :=
  match v with
  | JObj m => map (fun p => (snd p, depth + 1)) m
  | JArr l => map (fun x => (x, depth + 1)) l
  | _ => []
  end.

(** The loop over the stack, whose top is the head here: [budget] more values may
    be visited. *)
Fixpoint reject_loop (budget : nat) (stack : list (json * Z)) : res unit :=
  match stack with
  | [] => Ok tt
  | (current, depth) :: rest =>
      match budget with
      | O => Raise (VisibleCorpusError "visible corpus nesting or size exceeds limits")
      | S budget' =>
          _ ← raise_if (64 <? depth) (VisibleCorpusError "visible corpus nesting or size exceeds limits");
          _ ← raise_if (match current with JObj m => leaks m | _ => false end)
                (VisibleCorpusError "visible corpus contains hidden oracle field");
          reject_loop budget' (rev (children depth current) ++ rest)
      end
  end.
Definition _reject_oracle_fields (value : json) : res unit := reject_loop (Z.to_nat 100000) [(value, 0)].

(** The values of keyword arguments: all of them, and no other. *)
Definition keyword_values (names : list string) (v : json) : res (list json) :=
  match v with
  | JObj m =>
      if forallb (fun p => str_in (fst p) names) m
      then from_option_res (mapM (fun name => assoc name m) names) (TypeError "missing required argument")
      else Raise (TypeError "unexpected keyword argument")
  | _ => Raise (TypeError "argument after ** must be a mapping")
  end.

Definition fact_from (v : json) : res VisibleFact :=
  values ← keyword_values ["fact_id"; "text"; "source_id"]%string v;
  match values with
  | [fact_id; text; source_id] => new_visible_fact fact_id text source_id
  | _ => Raise (TypeError "missing required argument")
  end.
Definition rule_from (v : json) : res PolicyRule :=
  values ← keyword_values ["rule_id"; "text"; "priority"; "action"; "required_fact_id"; "required_fact_digest";
                           "human_question"; "semantic_digest"]%string v;
  match values with
  | [rule_id; text; priority; action; required_fact_id; required_fact_digest; human_question; semantic_digest] =>
      new_policy_rule rule_id text priority action required_fact_id required_fact_digest human_question semantic_digest
  | _ => Raise (TypeError "missing required argument")
  end.

(** [item[key]]. *)
Definition get_item (key : string) (m : list (string * json)) : res json := from_option_res (assoc key m) (KeyError key).

Definition case_from (v : json) : res SupportCase :=
  match v with
  | JObj m =>
      case_id ← get_item "case_id" m;
      split ← get_item "split" m;
      ticket_text ← get_item "ticket_text" m;
      raw_facts ← get_item "facts" m;
      facts ← (l ← iterate raw_facts; res_mapM fact_from l);
      raw_policies ← get_item "policies" m;
      policies ← (l ← iterate raw_policies; res_mapM rule_from l);
      raw_constraints ← get_item "product_constraints" m;
      constraints ← iterate raw_constraints;
      new_support_case case_id split ticket_text facts policies constraints
  | _ => Raise (TypeError "indices must be integers")
  end.

Definition is_malformed_case (x : exn) : bool :=
  match x with KeyError _ | TypeError _ | VisibleCorpusError _ => true | _ => false end.
Definition is_unreadable (x : exn) : bool :=
  match x with
  | UnicodeDecodeError _ | JSONDecodeError _ | RecursionError => true
  | _ => is_OSError x
  end.

(** An item of [cases] that can be made into a case at all. *)
Definition has_constraints (v : json) : bool :=
  match v with JObj m => is_list (jget "product_constraints" m) | _ => false end.

(** [load_visible_cases], on what reading the file gives. *)
Definition load_visible_cases (file : res string) : res (list SupportCase) :=
  payload ← try_except (bytes ← file; text ← read_text bytes; json_loads default_hooks text) is_unreadable
              (fun _ => Raise (VisibleCorpusError "visible corpus is unreadable"));
  _ ← _reject_oracle_fields payload;
  members ← (match payload with
             | JObj m => if py_eq (jget "schema_version" m) (JStr "1.0.0") then Ok m
                         else Raise (VisibleCorpusError "visible corpus schema is unsupported")
             | _ => Raise (VisibleCorpusError "visible corpus schema is unsupported")
             end);
  raw_cases ← (match jget "cases" members with
               | JArr l => Ok l
               | _ => Raise (VisibleCorpusError "visible corpus cases are missing")
               end);
  _ ← raise_if (existsb (fun item => negb (has_constraints item)) raw_cases)
        (VisibleCorpusError "visible corpus product constraints must be an array");
  cases ← try_except (res_mapM case_from raw_cases) is_malformed_case
            (fun _ => Raise (VisibleCorpusError "visible corpus case is malformed"));
  _ ← raise_if (bool_decide (length cases = 0%nat) || negb (bool_decide (NoDup (map sc_case_id cases))))
        (VisibleCorpusError "visible corpus contains duplicate case");
  Ok cases.

(** ** Decision contracts *)

Record DecisionContract : Type := {
  dc_schema_version : string;
  dc_vertical : string;
  dc_case_id : string;
  dc_input_digest : string;
  dc_selected_action : string;
  dc_status : string;
  dc_action_fact_refs : list string;
  dc_action_rule_refs : list string;
  dc_unresolved_questions : list string;
  dc_contract_digest : string
}.

#[export] Instance contract_eq_dec : EqDecision DecisionContract.
Proof. solve_decision. Defined.

Definition texts_json (l : list string) : json := JArr (map JStr l).

(** [asdict], without and with [contract_digest]. *)
Definition contract_payload (c : DecisionContract) : list (string * json) :=
  [("schema_version", JStr (dc_schema_version c)); ("vertical", JStr (dc_vertical c));
   ("case_id", JStr (dc_case_id c)); ("input_digest", JStr (dc_input_digest c));
   ("selected_action", JStr (dc_selected_action c)); ("status", JStr (dc_status c));
   ("action_fact_refs", texts_json (dc_action_fact_refs c)); ("action_rule_refs", texts_json (dc_action_rule_refs c));
   ("unresolved_questions", texts_json (dc_unresolved_questions c))]%string.
Definition contract_dict (c : DecisionContract) : json :=
  JObj (contract_payload c ++ [("contract_digest"%string, JStr (dc_contract_digest c))]).

Definition digest_is_valid (c : DecisionContract) : res bool :=
  digest ← canonical_digest (JObj (contract_payload c)); Ok (String.eqb (dc_contract_digest c) digest).

Definition contract_form (c : DecisionContract) : bool :=
  String.eqb (dc_schema_version c) "1.0.0" && nonempty (dc_vertical c) && nonempty (dc_case_id c)
  && _valid_digest (dc_input_digest c) && nonempty (dc_selected_action c)
  && str_in (dc_status c) ["ADMITTED"; "NEEDS_HUMAN_DECISION"]%string
  && negb (bool_decide (dc_action_fact_refs c = [])) && negb (bool_decide (dc_action_rule_refs c = []))
  && (String.eqb (dc_status c) "ADMITTED" && bool_decide (dc_unresolved_questions c = [])
      || String.eqb (dc_status c) "NEEDS_HUMAN_DECISION" && negb (bool_decide (dc_unresolved_questions c = [])))
  && _valid_digest (dc_contract_digest c).

(** [DecisionContract(...)] and its [__post_init__]. *)
Definition new_decision_contract (c : DecisionContract) : res DecisionContract :=
  let malformed : res DecisionContract := Raise (DecisionContractError "decision contract is malformed or incomplete") in
  if contract_form c then
    valid ← digest_is_valid c;
    if (valid : bool) then Ok c else malformed
  else malformed.

Definition create_decision_contract (vertical case_id input_digest selected_action status : string)
    (action_fact_refs action_rule_refs unresolved_questions : list string) : res DecisionContract :=
  digest ← canonical_digest (JObj
    [("action_fact_refs", texts_json action_fact_refs); ("action_rule_refs", texts_json action_rule_refs);
     ("case_id", JStr case_id); ("input_digest", JStr input_digest); ("schema_version", JStr "1.0.0");
     ("selected_action", JStr selected_action); ("status", JStr status);
     ("unresolved_questions", texts_json unresolved_questions); ("vertical", JStr vertical)]%string);
  new_decision_contract
    {| dc_schema_version := "1.0.0"; dc_vertical := vertical; dc_case_id := case_id; dc_input_digest := input_digest;
       dc_selected_action := selected_action; dc_status := status; dc_action_fact_refs := action_fact_refs;
       dc_action_rule_refs := action_rule_refs; dc_unresolved_questions := unresolved_questions;
       dc_contract_digest := digest |}.

(** ** [CustomerSupportDiscoveryAdapter] *)

Definition vertical : string := "customer_support".

Definition contradiction_question : string :=
  "Equal-priority visible policies authorize contradictory actions; choose precedence.".

(** The digests of the facts, and each policy compared with its fact. *)
Definition fact_digests (c : SupportCase) : res (list (string * string)) :=
  res_mapM (fun f => digest ← canonical_digest (fact_dict f); Ok (vf_fact_id f, digest)) (sc_facts c).

Definition check_policy (facts : list (string * string)) (p : PolicyRule) : res PolicyRule :=
  if bool_decide (snd <$> last (List.filter (fun q => String.eqb (fst q) (pr_required_fact_id p)) facts)
                  = Some (pr_required_fact_digest p))
  then Ok p
  else Raise (DecisionContractError ("policy " +:+ pr_rule_id p +:+ " lacks bound visible fact " +:+ pr_required_fact_id p)).

(** [max] of the priorities. *)
Definition highest (candidates : list PolicyRule) : Z :=
  match candidates with
  | [] => 0
  | p :: rest => foldl (fun m q => Z.max m (pr_priority q)) (pr_priority p) rest
  end.
Definition selected_policies (candidates : list PolicyRule) : list PolicyRule :=
  List.filter (fun p => pr_priority p =? highest candidates) candidates.

Definition questions_of (selected : list PolicyRule) : list string :=
  sorted_str (List.filter nonempty (map pr_human_question selected)).

(** The action, the status and the open questions of the selected policies. *)
Definition resolution (selected : list PolicyRule) : res (string * string * list string) :=
  let authorized := sorted_set (map pr_action selected) in
  let questions := questions_of selected in
  if bool_decide (1 < length authorized)%nat then
    Ok ("escalate"%string, "NEEDS_HUMAN_DECISION"%string, sorted_set (questions ++ [contradiction_question]))
  else
    match authorized with
    | action :: _ =>
        let open := String.eqb action "escalate" || negb (bool_decide (questions = [])) in
        Ok (action, if open then "NEEDS_HUMAN_DECISION" else "ADMITTED", questions)%string
    | [] => Raise (RuntimeError "StopIteration")
    end.

Definition discover (c : SupportCase) : res DecisionContract :=
  facts ← fact_digests c;
  candidates ← res_mapM (check_policy facts) (sc_policies c);
  _ ← raise_if (bool_decide (candidates = [])) (DecisionContractError "no visible policy can authorize a decision");
  let selected := selected_policies candidates in
  r ← resolution selected;
  let '(action, status, questions) := r in
  input_digest ← canonical_digest (case_dict c);
  create_decision_contract vertical (sc_case_id c) input_digest action status
    (sorted_set (map pr_required_fact_id selected)) (sorted_str (map pr_rule_id selected)) questions.

Definition is_DecisionContractError (x : exn) : bool := match x with DecisionContractError _ => true | _ => false end.

(** [contract == expected and contract.canonical_bytes() == expected.canonical_bytes()]. *)
Definition verify (c : SupportCase) (contract : DecisionContract) : res bool :=
  try_except
    (expected ← discover c;
     Ok (Some expected)) is_DecisionContractError (fun _ => Ok None)
  ≫= fun expected =>
  match expected with
  | None => Ok false
  | Some expected =>
      if bool_decide (contract = expected) then
        bytes ← canonical_json_bytes (contract_dict contract);
        bytes' ← canonical_json_bytes (contract_dict expected);
        Ok (String.eqb bytes bytes')
      else Ok false
  end.
End Support.
