(* ===== verification/Workflow.v ===== *)
(** * The workflow kernel ([workflows/runtime.py], [cli/support_cmd.py])

    A decision contract is compiled to a plan of three nodes, the plan is
    executed on the case it was discovered from, and the report is published
    under its digest. *)
From Stdlib Require Import Ascii String.
From S2P Require Import Prelude Sha256 Json JsonText PyStr PyConv Canonical Support.

(** ** Plans and reports *)

Record WorkflowNode : Type := { wn_node_id : string; wn_operation : string; wn_evidence_refs : list string }.

Record ExecutableWorkflowPlan : Type := {
  wp_schema_version : string;
  wp_contract_digest : string;
  wp_input_digest : string;
  wp_nodes : list WorkflowNode;
  wp_plan_digest : string
}.

Record StepEvidence : Type := {
  se_node_id : string;
  se_operation : string;
  se_input_digest : string;
  se_output_digest : string
}.

Record WorkflowReport : Type := {
  wr_schema_version : string;
  wr_case_id : string;
  wr_selected_action : string;
  wr_status : string;
  wr_input_digest : string;
  wr_contract_digest : string;
  wr_plan_digest : string;
  wr_execution_digest : string;
  wr_step_evidence : list StepEvidence;
  wr_unresolved_questions : list string;
  wr_evidence_complete : bool;
  wr_report_digest : string
}.

#[export] Instance node_eq_dec : EqDecision WorkflowNode.
Proof. solve_decision. Defined.
#[export] Instance plan_eq_dec : EqDecision ExecutableWorkflowPlan.
Proof. solve_decision. Defined.
#[export] Instance step_eq_dec : EqDecision StepEvidence.
Proof. solve_decision. Defined.
#[export] Instance report_eq_dec : EqDecision WorkflowReport.
Proof. solve_decision. Defined.

Definition node_dict (n : WorkflowNode) : json := JObj
  [("node_id", JStr (wn_node_id n)); ("operation", JStr (wn_operation n));
   ("evidence_refs", texts_json (wn_evidence_refs n))]%string.
Definition plan_payload (p : ExecutableWorkflowPlan) : json := JObj
  [("schema_version", JStr (wp_schema_version p)); ("contract_digest", JStr (wp_contract_digest p));
   ("input_digest", JStr (wp_input_digest p)); ("nodes", JArr (map node_dict (wp_nodes p)))]%string.
Definition step_dict (s : StepEvidence) : json := strs
  [("node_id", se_node_id s); ("operation", se_operation s); ("input_digest", se_input_digest s);
   ("output_digest", se_output_digest s)]%string.
Definition report_dict (r : WorkflowReport) : json := JObj
  [("schema_version", JStr (wr_schema_version r)); ("case_id", JStr (wr_case_id r));
   ("selected_action", JStr (wr_selected_action r)); ("status", JStr (wr_status r));
   ("input_digest", JStr (wr_input_digest r)); ("contract_digest", JStr (wr_contract_digest r));
   ("plan_digest", JStr (wr_plan_digest r)); ("execution_digest", JStr (wr_execution_digest r));
   ("step_evidence", JArr (map step_dict (wr_step_evidence r)));
   ("unresolved_questions", texts_json (wr_unresolved_questions r));
   ("evidence_complete", JBool (wr_evidence_complete r)); ("report_digest", JStr (wr_report_digest r))]%string.

Section Workflow.
Context `{Rfc8785} `{Unicode}.

Definition _trusted_contract (c : SupportCase) (contract : DecisionContract) : res bool :=
  if String.eqb (dc_vertical contract) "customer_support" then verify c contract else Ok false.

Definition plan_digest_is_valid (p : ExecutableWorkflowPlan) : res bool :=
  digest ← canonical_digest (plan_payload p); Ok (String.eqb (wp_plan_digest p) digest).

(** ** [compile_workflow] *)

Definition workflow_nodes (contract : DecisionContract) : list WorkflowNode :=
  [{| wn_node_id := "WF-001"; wn_operation := "bind_visible_facts"; wn_evidence_refs := dc_action_fact_refs contract |};
   {| wn_node_id := "WF-002"; wn_operation := "apply_named_rules"; wn_evidence_refs := dc_action_rule_refs contract |};
   {| wn_node_id := "WF-003"; wn_operation := "emit_bounded_decision";
      wn_evidence_refs := [dc_selected_action contract] |}]%string.

Definition compile_workflow (contract : DecisionContract) : res ExecutableWorkflowPlan :=
  valid ← digest_is_valid contract;
  _ ← raise_if (negb valid) (WorkflowEvidenceError "decision contract digest is invalid");
  let nodes := workflow_nodes contract in
  digest ← canonical_digest (JObj
    [("contract_digest", JStr (dc_contract_digest contract)); ("input_digest", JStr (dc_input_digest contract));
     ("nodes", JArr (map node_dict nodes)); ("schema_version", JStr "1.0.0")]%string);
  Ok {| wp_schema_version := "1.0.0"; wp_contract_digest := dc_contract_digest contract;
        wp_input_digest := dc_input_digest contract; wp_nodes := nodes; wp_plan_digest := digest |}.

(** ** [execute_workflow] *)

Definition step_payload (contract : DecisionContract) (previous : string) (n : WorkflowNode) : json := JObj
  [("contract_digest", JStr (dc_contract_digest contract)); ("evidence_refs", texts_json (wn_evidence_refs n));
   ("input_digest", JStr previous); ("node_id", JStr (wn_node_id n)); ("operation", JStr (wn_operation n))]%string.

(** Each step takes the digest of the one before. *)
Fixpoint steps_from (contract : DecisionContract) (previous : string) (nodes : list WorkflowNode)
    : res (list StepEvidence) :=
  match nodes with
  | [] => Ok []
  | n :: rest =>
      output ← canonical_digest (step_payload contract previous n);
      steps ← steps_from contract output rest;
      Ok ({| se_node_id := wn_node_id n; se_operation := wn_operation n; se_input_digest := previous;
             se_output_digest := output |} :: steps)
  end.
Definition _execution_steps (contract : DecisionContract) (plan : ExecutableWorkflowPlan) : res (list StepEvidence) :=
  steps_from contract (wp_input_digest plan) (wp_nodes plan).

Definition execution_payload (contract : DecisionContract) (plan : ExecutableWorkflowPlan) (steps : list StepEvidence)
    : json := JObj
  [("contract_digest", JStr (dc_contract_digest contract)); ("plan_digest", JStr (wp_plan_digest plan));
   ("selected_action", JStr (dc_selected_action contract)); ("steps", JArr (map step_dict steps))]%string.

Definition report_status (contract : DecisionContract) : string :=
  if String.eqb (dc_status contract) "NEEDS_HUMAN_DECISION" then "NEEDS_HUMAN_DECISION" else "COMPLETED".

Definition report_payload (c : SupportCase) (contract : DecisionContract) (plan : ExecutableWorkflowPlan)
    (steps : list StepEvidence) (execution_digest input_digest : string) : json := JObj
  [("case_id", JStr (sc_case_id c)); ("contract_digest", JStr (dc_contract_digest contract));
   ("evidence_complete", JBool true); ("execution_digest", JStr execution_digest);
   ("input_digest", JStr input_digest); ("plan_digest", JStr (wp_plan_digest plan)); ("schema_version", JStr "1.0.0");
   ("selected_action", JStr (dc_selected_action contract)); ("status", JStr (report_status contract));
   ("step_evidence", JArr (map step_dict steps));
   ("unresolved_questions", texts_json (dc_unresolved_questions contract))]%string.

(** What is reported once every check has passed. *)
Definition report_of (c : SupportCase) (contract : DecisionContract) (plan : ExecutableWorkflowPlan)
    (input_digest : string) : res WorkflowReport :=
  steps ← _execution_steps contract plan;
  execution_digest ← canonical_digest (execution_payload contract plan steps);
  report_digest ← canonical_digest (report_payload c contract plan steps execution_digest input_digest);
  Ok {| wr_schema_version := "1.0.0"; wr_case_id := sc_case_id c; wr_selected_action := dc_selected_action contract;
        wr_status := report_status contract; wr_input_digest := input_digest;
        wr_contract_digest := dc_contract_digest contract; wr_plan_digest := wp_plan_digest plan;
        wr_execution_digest := execution_digest; wr_step_evidence := steps;
        wr_unresolved_questions := dc_unresolved_questions contract; wr_evidence_complete := true;
        wr_report_digest := report_digest |}.

Definition execute_workflow (c : SupportCase) (contract : DecisionContract) (plan : ExecutableWorkflowPlan)
    : res WorkflowReport :=
  input_digest ← canonical_digest (case_dict c);
  _ ← raise_if (negb (String.eqb input_digest (dc_input_digest contract))
                || negb (String.eqb input_digest (wp_input_digest plan)))
        (WorkflowEvidenceError "input digest does not match visible case");
  _ ← raise_if (negb (String.eqb (sc_case_id c) (dc_case_id contract)))
        (WorkflowEvidenceError "contract case identity does not match visible case");
  contract_valid ← digest_is_valid contract;
  _ ← raise_if (negb contract_valid || negb (String.eqb (dc_contract_digest contract) (wp_contract_digest plan)))
        (WorkflowEvidenceError "contract digest does not match executable plan");
  trusted ← _trusted_contract c contract;
  _ ← raise_if (negb trusted) (WorkflowEvidenceError "decision contract is not independently authorized");
  plan_valid ← plan_digest_is_valid plan;
  _ ← raise_if (negb plan_valid) (WorkflowEvidenceError "plan digest is invalid");
  compiled ← compile_workflow contract;
  _ ← raise_if (negb (bool_decide (plan = compiled)))
        (WorkflowEvidenceError "plan contents differ from deterministic compilation");
  report_of c contract plan input_digest.

Definition is_WorkflowEvidenceError (x : exn) : bool := match x with WorkflowEvidenceError _ => true | _ => false end.

Definition verify_workflow_report (c : SupportCase) (contract : DecisionContract) (plan : ExecutableWorkflowPlan)
    (report : WorkflowReport) : res bool :=
  try_except
    (expected ← execute_workflow c contract plan;
     Ok (Some expected)) is_WorkflowEvidenceError (fun _ => Ok None)
  ≫= fun expected =>
  match expected with
  | None => Ok false
  | Some expected =>
      if bool_decide (report = expected) then
        bytes ← canonical_json_bytes (report_dict report);
        bytes' ← canonical_json_bytes (report_dict expected);
        Ok (String.eqb bytes bytes')
      else Ok false
  end.

(** ** The published files *)

(** [html.escape]. *)
Definition escape_html_char (c : ascii) : string :=
  if Ascii.eqb c "&" then "&amp;"
  else if Ascii.eqb c "<" then "&lt;"
  else if Ascii.eqb c ">" then "&gt;"
  else if Ascii.eqb c "034" then "&quot;"
  else if Ascii.eqb c "'" then "&#x27;"
  else String c "".
Fixpoint html_escape (s : string) : string :=
  match s with EmptyString => "" | String c s' => escape_html_char c +:+ html_escape s' end.

Definition carriage_return : string := String (chr_n 13) "".
Definition newline : string := String (chr_n 10) "".
Definition escaped_question (question : string) : string :=
  replace_str newline "&#10;" (replace_str carriage_return "&#10;" (replace_str (carriage_return +:+ newline) "&#10;" (html_escape question))).

Definition markdown (r : WorkflowReport) : string :=
  let questions := join newline (map (fun q => "  - <code>" +:+ escaped_question q +:+ "</code>")%string
                              (wr_unresolved_questions r)) in
  ("# Workflow result: " +:+ wr_case_id r +:+ newline +:+ newline +:+
   "- Status: " +:+ wr_status r +:+ newline +:+
   "- Selected action: " +:+ wr_selected_action r +:+ newline +:+
   "- Evidence complete: " +:+ (if wr_evidence_complete r then "yes" else "no") +:+ newline +:+
   "- Unresolved questions:" +:+ newline +:+ (if nonempty questions then questions else "  - none") +:+ newline +:+
   "- Input: `" +:+ wr_input_digest r +:+ "`" +:+ newline +:+
   "- Contract: `" +:+ wr_contract_digest r +:+ "`" +:+ newline +:+
   "- Plan: `" +:+ wr_plan_digest r +:+ "`" +:+ newline +:+
   "- Execution: `" +:+ wr_execution_digest r +:+ "`" +:+ newline +:+
   "- Report: `" +:+ wr_report_digest r +:+ "`" +:+ newline)%string.
End Workflow.
