(* ===== verification/Publish.v ===== *)
(** * Publishing workflow reports ([workflows/runtime.py], [cli/support_cmd.py])

    [write_workflow_report] keeps the two files of a report in a directory that
    is named by the report's digest.  It works on the directories under
    [reports]; every call to the file system may raise. *)
From Stdlib Require Import Ascii String.
From S2P Require Import Prelude Sha256 Json JsonText PyStr PyConv Canonical Support Workflow.

(** ** The directory of reports *)

(** The files of each directory under [reports], by name. *)
Abbreviation files := (gmap string string).
Abbreviation directories := (gmap string files).

(** The calls that may raise. *)
Inductive io_call : Type :=
  | ReadJson | ReadMarkdown | MakeQuarantine | RemoveQuarantine | MoveToQuarantine | MakeStaged
  | MakeTemporary (name : string) | WriteTemporary (name : string) | ReplaceTemporary (name : string)
  | UnlinkTemporary (name : string) | MoveToVersion | RemoveStaged.

Record publish_env : Type := {
  fault : io_call -> option exn; (* what the call raises, if it does *)
  fresh_name : string -> gset string -> string; (* the names of [tempfile] *)
  written_before_fault : string (* what a failing write leaves in the file *)
}.

Section Publish.
Variable e : publish_env.

Definition call (c : io_call) : st directories unit :=
  match fault e c with Some x => raise_st x | None => mret tt end.

Definition no_such_file {A} : st directories A := raise_st (OSError "No such file or directory").

Definition read_file (c : io_call) (dir name : string) : st directories string :=
  _ ← call c;
  content ← get_st (fun s => d ← s !! dir; d !! name);
  match content with Some text => mret text | None => no_such_file end.

Definition mkdtemp (c : io_call) (prefix : string) : st directories string :=
  _ ← call c;
  name ← get_st (fun s => fresh_name e prefix (dom s));
  _ ← modify_st (<[name := ∅]>);
  mret name.

Definition put_file (dir name content : string) : st directories unit :=
  modify_st (alter (<[name := content]>) dir).
Definition delete_file (dir name : string) : st directories unit := modify_st (alter (delete name) dir).

(** [os.replace] of a directory: the target may only be an empty directory. *)
Definition move_dir (c : io_call) (from to : string) : st directories unit :=
  _ ← call c;
  source ← get_st (fun s : directories => s !! from : option files);
  target ← get_st (fun s : directories => s !! to : option files);
  match source, target with
  | None, _ => no_such_file
  | Some d, None => _ ← modify_st (delete from); modify_st (<[to := d]>)
  | Some d, Some d' =>
      if bool_decide (d' = ∅) then _ ← modify_st (delete from); modify_st (<[to := d]>)
      else raise_st (OSError "Directory not empty")
  end.

(** [try: m finally: f]. *)
Definition finally_st {A} (m : st directories A) (f : st directories unit) : st directories A := fun s =>
  let (r, s1) := m s in
  match f s1 with
  | (Ok _, s2) => (r, s2)
  | (Raise x, s2) => (Raise x, s2)
  end.

(** [_write_atomic(dir / name, payload)]: a temporary file that is renamed. *)
Definition _write_atomic (dir name payload : string) : st directories unit :=
  _ ← call (MakeTemporary name);
  temporary ← get_st (fun s => fresh_name e ("." +:+ name +:+ ".") (dom (default ∅ (s !! dir))));
  _ ← put_file dir temporary "";
  try_st
    (_ ← put_file dir temporary (written_before_fault e);
     _ ← call (WriteTemporary name);
     _ ← put_file dir temporary payload;
     _ ← call (ReplaceTemporary name);
     _ ← delete_file dir temporary;
     put_file dir name payload)
    (fun _ => true)
    (fun x => _ ← call (UnlinkTemporary name); _ ← delete_file dir temporary; raise_st x).

(** ** [write_workflow_report] *)

Definition json_name : string := "workflow-report.json".
Definition markdown_name : string := "workflow-report.md".

(** Whether a version already holds both files. *)
Definition published_already (version json_bytes md_bytes : string) : st directories bool :=
  json ← read_file ReadJson version json_name;
  if String.eqb json json_bytes then
    md ← read_file ReadMarkdown version markdown_name; mret (String.eqb md md_bytes)
  else mret false.

Definition quarantine (version : string) : st directories unit :=
  name ← mkdtemp MakeQuarantine ".invalid-";
  _ ← call RemoveQuarantine;
  _ ← modify_st (delete name);
  move_dir MoveToQuarantine version name.

Definition stage (version json_bytes md_bytes : string) : st directories unit :=
  staged ← mkdtemp MakeStaged ".report-";
  finally_st
    (_ ← _write_atomic staged json_name json_bytes;
     _ ← _write_atomic staged markdown_name md_bytes;
     try_st (move_dir MoveToVersion staged version) is_OSError
       (fun x =>
          same ← published_already version json_bytes md_bytes;
          if (same : bool) then mret tt else raise_st x))
    (left ← get_st (fun s => bool_decide (is_Some (s !! staged)));
     if (left : bool) then _ ← call RemoveStaged; modify_st (delete staged) else mret tt).

(** Under the lock of the directory. *)
Definition publish (version json_bytes md_bytes : string) : st directories unit :=
  there ← get_st (fun s => bool_decide (is_Some (s !! version)));
  if (there : bool) then
    same ← try_st (published_already version json_bytes md_bytes) is_OSError (fun _ => mret false);
    if (same : bool) then mret tt
    else _ ← quarantine version; stage version json_bytes md_bytes
  else stage version json_bytes md_bytes.

Context `{Rfc8785} `{Unicode}.

(** The name of the directory of a report. *)
Definition version_of (r : WorkflowReport) : string := removeprefix (wr_report_digest r) "sha256:".

Definition write_workflow_report (c : SupportCase) (contract : DecisionContract) (plan : ExecutableWorkflowPlan)
    (report : WorkflowReport) : st directories (string * string) :=
  verified ← lift_res (verify_workflow_report c contract plan report);
  _ ← lift_res (raise_if (negb verified)
                  (WorkflowEvidenceError "unverified report cannot be persisted as complete"));
  bytes ← lift_res (canonical_json_bytes (report_dict report));
  _ ← publish (version_of report) (bytes +:+ newline) (markdown report);
  mret (version_of report +:+ "/" +:+ json_name, version_of report +:+ "/" +:+ markdown_name).

(** ** [pmpe support-demo run] *)

(** [sorted(cases)[0]]. *)
Definition first_case (cases : list SupportCase) : string := default "" (head (sorted_str (map sc_case_id cases))).

(** [_cmd_run]: the exit code, and the report that was published.  A refusal of
    the corpus is reported as [SpecError]. *)
Definition _cmd_run (file : res string) (case_id : option string) : st directories (Z * WorkflowReport) :=
  cases ← lift_res (try_except (load_visible_cases file)
                      (fun x => match x with VisibleCorpusError _ => true | _ => false end)
                      (fun x => Raise (SpecError (match x with VisibleCorpusError m => m | _ => "" end))));
  let selected_id := match case_id with Some i => if nonempty i then i else first_case cases | None => first_case cases end in
  c ← lift_res (from_option_res (last (List.filter (fun c => String.eqb (sc_case_id c) selected_id) cases))
                  (SpecError ("unknown visible case: " +:+ selected_id)));
  contract ← lift_res (discover c);
  plan ← lift_res (compile_workflow contract);
  report ← lift_res (execute_workflow c contract plan);
  _ ← write_workflow_report c contract plan report;
  mret (if String.eqb (wr_status report) "NEEDS_HUMAN_DECISION" then 3 else 0, report).

(** ** [pmpe support-demo evaluate] *)

(** The held-out cases, each with its contract and its report. *)
Definition evaluate_cases (cases : list SupportCase) : res (list (SupportCase * DecisionContract * WorkflowReport)) :=
  res_mapM (fun c =>
    contract ← discover c;
    plan ← compile_workflow contract;
    report ← execute_workflow c contract plan;
    Ok (c, contract, report)) cases.

(** A case that completed with an action which no policy it cites authorizes. *)
Definition unsupported (q : SupportCase * DecisionContract * WorkflowReport) : bool :=
  let '(c, contract, report) := q in
  String.eqb (wr_status report) "COMPLETED"
  && negb (str_in (wr_selected_action report)
             (map pr_action (List.filter (fun p => str_in (pr_rule_id p) (dc_action_rule_refs contract)
                                                   && str_in (pr_required_fact_id p) (dc_action_fact_refs contract))
                               (sc_policies c)))).
(** [unsupported_autonomous_actions] of the evaluation. *)
Definition unsafe (evaluated : list (SupportCase * DecisionContract * WorkflowReport)) : nat :=
  length (List.filter unsupported evaluated).
End Publish.
