(* ===== verification/SupportTheorems.v ===== *)
(** * Visible support cases and their decisions: theorems

    The corpus that is admitted carries no oracle and only well-formed cases;
    discovery decides every well-formed case, by its policies of the highest
    priority. *)
From Stdlib Require Import Ascii String.
From S2P Require Import Prelude Sha256 Json JsonText PyStr PyConv Canonical JsonSpec JsonFacts CanonicalFacts.
From S2P Require Import Ledger LedgerFacts Support.

(** ** No oracle in a visible corpus *)

(** No object of the value has a field of the oracle, and no value is deeper than 64. *)
Fixpoint visible (depth : Z) (v : json) : bool :=
  (depth <=? 64) &&
  match v with
  | JObj m => negb (leaks m) && forallb (fun p => visible (depth + 1) (snd p)) m
  | JArr l => forallb (visible (depth + 1)) l
  | _ => true
  end.

Fixpoint nodes (v : json) : nat :=
  S match v with
    | JObj m => list_sum (map (fun p => nodes (snd p)) m)
    | JArr l => list_sum (map nodes l)
    | _ => 0%nat
    end.

Definition stack_nodes (stack : list (json * Z)) : nat := list_sum (map (fun q => nodes (fst q)) stack).

Lemma nodes_children depth v : nodes v = S (stack_nodes (children depth v)).
Proof. destruct v; cbn; unfold stack_nodes; rewrite ?map_map; done. Qed.

Lemma visible_children depth v :
  visible depth v = true <->
  depth <= 64 /\ (match v with JObj m => leaks m | _ => false end) = false /\
  Forall (fun q => visible (snd q) (fst q) = true) (children depth v).
Proof.
  destruct v; cbn [visible children]; rewrite andb_true_iff, Z.leb_le; try (split; [by intros [? _]|by intros (? & _)]).
  - rewrite Forall_map, Forall_forall, forallb_forall. setoid_rewrite list_elem_of_In. naive_solver.
  - rewrite andb_true_iff, negb_true_iff, Forall_map, Forall_forall, forallb_forall.
    setoid_rewrite list_elem_of_In. naive_solver.
Qed.

Lemma stack_nodes_cons v depth rest : stack_nodes ((v, depth) :: rest) = (nodes v + stack_nodes rest)%nat.
Proof. done. Qed.
Lemma stack_nodes_app a b : stack_nodes (a ++ b) = (stack_nodes a + stack_nodes b)%nat.
Proof. unfold stack_nodes. by rewrite map_app, list_sum_app. Qed.
Lemma stack_nodes_rev a : stack_nodes (rev a) = stack_nodes a.
Proof.
  induction a as [|x a IH]; [done|]. cbn [rev]. rewrite stack_nodes_app, IH. change (x :: a) with ([x] ++ a).
  rewrite stack_nodes_app. lia.
Qed.

Lemma reject_loop_iff budget stack :
  reject_loop budget stack = Ok tt <->
  Forall (fun q => visible (snd q) (fst q) = true) stack /\ (stack_nodes stack <= budget)%nat.
Proof.
  revert stack. induction budget as [|b IH]; intros [|[v depth] rest]; cbn [reject_loop].
  - split; [intros _; split; [constructor|unfold stack_nodes; cbn; lia]|done].
  - split; [done|]. intros [_ Hn]. rewrite stack_nodes_cons, (nodes_children 0) in Hn. lia.
  - split; [intros _; split; [constructor|unfold stack_nodes; cbn; lia]|done].
  - assert (Hs : stack_nodes ((v, depth) :: rest) = S (stack_nodes (children depth v) + stack_nodes rest)).
    { rewrite stack_nodes_cons, (nodes_children depth). lia. }
    rewrite Hs, Forall_cons. cbn [fst snd]. rewrite visible_children. split.
    + intros E. simp_res. rewrite Z.ltb_ge in *. apply IH in E as [Hf Hn].
      rewrite stack_nodes_app, stack_nodes_rev in Hn. apply Forall_app in Hf as [Hc Hr].
      rewrite Forall_forall in Hc. split; [|lia]. split_and!; try done. apply Forall_forall. intros q Hq. apply Hc.
      by apply list_elem_of_In, in_rev; rewrite rev_involutive; apply list_elem_of_In.
    + intros [[(Hd & Hl & Hc) Hr] Hn]. rewrite (proj2 (Z.ltb_ge _ _) Hd), Hl. cbn [raise_if mbind res_bind]. apply IH.
      rewrite stack_nodes_app, stack_nodes_rev. split; [|lia]. apply Forall_app. split; [|done].
      rewrite Forall_forall in *. intros q Hq. apply Hc. apply list_elem_of_In, in_rev. by apply list_elem_of_In.
Qed.

(** A corpus is rejected for leaking exactly when some object of it, at any
    depth, has a field of the hidden oracle, or when it is deeper than 64 or has
    more than 100000 values: the loop over the stack visits every value. *)
Theorem oracle_fields_rejected v :
  _reject_oracle_fields v = Ok tt <-> visible 0 v = true /\ Z.of_nat (nodes v) <= 100000.
Proof.
  unfold _reject_oracle_fields. rewrite reject_loop_iff, Forall_singleton, stack_nodes_cons. cbn [fst snd].
  change (stack_nodes []) with 0%nat. apply and_iff_compat_l. lia.
Qed.

(** ** Well-formed cases *)

Section Cases.
Context `{Rfc8785} `{Unicode}.

(** What [__post_init__] leaves true of a policy. *)
Record rule_ok (p : PolicyRule) : Prop := {
  ro_id : bounded_identifier (pr_rule_id p) = true;
  ro_text : bounded_text 4096 (pr_text p) = true;
  ro_priority : 0 <= pr_priority p <= 100;
  ro_action : pr_action p ∈ actions;
  ro_question : question_ok (pr_human_question p) = true;
  ro_escalate : pr_action p = "escalate"%string -> strip (pr_human_question p) <> ""%string;
  ro_semantic : canonical_digest (semantic_payload p) = Ok (pr_semantic_digest p)
}.

(** Every policy of a case is bound to the text of one of its facts. *)
Definition bound_in (facts : list VisibleFact) (p : PolicyRule) : Prop :=
  exists f, f ∈ facts /\ vf_fact_id f = pr_required_fact_id p /\
            canonical_digest (fact_dict f) = Ok (pr_required_fact_digest p).

Record case_ok (c : SupportCase) : Prop := {
  co_id : bounded_identifier (sc_case_id c) = true;
  co_policies : sc_policies c <> [];
  co_rules : Forall rule_ok (sc_policies c);
  co_bound : Forall (bound_in (sc_facts c)) (sc_policies c);
  co_facts_nodup : NoDup (map vf_fact_id (sc_facts c));
  co_rules_nodup : NoDup (map pr_rule_id (sc_policies c))
}.

Lemma new_policy_rule_ok a1 a2 a3 a4 a5 a6 a7 a8 p : new_policy_rule a1 a2 a3 a4 a5 a6 a7 a8 = Ok p -> rule_ok p.
Proof.
  unfold new_policy_rule. destruct (negb _) eqn:E1; [done|]. apply negb_false_iff in E1.
  intros (known & Ek & E)%bind_Ok. destruct known; [|done]. cbn [negb] in E.
  destruct a1 as [| | | |i| |]; try done. destruct a2 as [| | | |t| |]; try done. destruct a3 as [| |z| | | |]; try done.
  destruct a4 as [| | | |a| |]; try done. destruct a5 as [| | | |f| |]; try done. destruct a6 as [| | | |d| |]; try done.
  destruct a7 as [| | | |q| |]; try done. cbn in E1. assert (Ha : str_in a actions = true) by (unfold in_set in Ek; cbn [hashable] in Ek; congruence).
  apply str_in_elem in Ha.
  destruct (_ && _ && _ && _) eqn:E2; [|done]. apply bind_Ok in E as (semantic & Es & E).
  destruct a8 as [| | | |claimed| |]; try done. destruct (String.eqb_spec claimed semantic) as [->|]; [|done].
  injection E as <-. bool_simp. constructor; cbn; try done; [lia|].
  intros ->. match goal with H : (_ || _)%bool = true |- _ => cbn in H; unfold nonempty in H end. by bool_simp.
Qed.

Lemma policies_bound_Ok facts policies : policies_bound facts policies = Ok true -> Forall (bound_in facts) policies.
Proof.
  induction policies as [|p ps IH]; cbn; [constructor|]. destruct (fact_of _ _) as [f|] eqn:Ef; [|done].
  intros (digest & Ed & E)%bind_Ok. destruct (String.eqb_spec (pr_required_fact_digest p) digest) as [<-|]; [|done].
  constructor; [|by apply IH]. exists f. unfold fact_of in Ef. apply last_Some_elem_of in Ef.
  apply list_elem_of_In, filter_In in Ef as [Hin Hid]. apply String.eqb_eq in Hid. by apply list_elem_of_In in Hin.
Qed.

Lemma new_support_case_ok i s t facts policies constraints c :
  Forall rule_ok policies -> new_support_case i s t facts policies constraints = Ok c -> case_ok c.
Proof.
  intros Hr. unfold new_support_case. destruct (negb _) eqn:E1; [done|]. intros (known & Ek & E)%bind_Ok.
  destruct known; [|done]. cbn [negb] in E. destruct i as [| | | |i| |]; try done. destruct s as [| | | |s| |]; try done.
  destruct t as [| | | |t| |]; try done. destruct (_ && _) eqn:E2; [|done]. apply bind_Ok in E as (bound & Eb & E).
  destruct bound; [|done]. injection E as <-. bool_simp. constructor; cbn; try done.
  - intros ->. done.
  - by apply policies_bound_Ok.
  - by eapply bool_decide_eq_true.
  - by eapply bool_decide_eq_true.
Qed.

Lemma rule_from_ok v p : rule_from v = Ok p -> rule_ok p.
Proof.
  unfold rule_from. intros (values & _ & E)%bind_Ok.
  destruct values as [|a1 [|a2 [|a3 [|a4 [|a5 [|a6 [|a7 [|a8 []]]]]]]]]; try done. by eapply new_policy_rule_ok.
Qed.

Lemma case_from_ok v c : case_from v = Ok c -> case_ok c.
Proof.
  unfold case_from. destruct v as [| | | | | |m]; try done. intros E. simp_res.
  eapply new_support_case_ok; [|done]. eapply mapM_Forall; [|done]. intros x y Hy. by eapply rule_from_ok.
Qed.

(** The cases of a corpus that is loaded: visible, well-formed, and named apart. *)
Lemma load_ok file cases :
  load_visible_cases file = Ok cases -> cases <> [] /\ Forall case_ok cases /\ NoDup (map sc_case_id cases).
Proof.
  unfold load_visible_cases. intros E. simp_res. subst.
  match goal with H : try_except (res_mapM case_from _) _ _ = Ok _ |- _ => apply try_except_Ok in H as [H|(? & _ & _ & [=])];
    rename H into Hc end.
  match goal with H : (_ || _)%bool = false |- _ => apply orb_false_iff in H as [Hn Hd] end.
  apply negb_false_iff, bool_decide_eq_true in Hd. split_and!; [by intros ->| |done].
  eapply mapM_Forall; [|done]. intros x y Hy. by eapply case_from_ok.
Qed.

(** ** Discovery *)

(** The policies that decide: none of the case has a higher priority. *)
Definition decides (c : SupportCase) (p : PolicyRule) : Prop :=
  p ∈ sc_policies c /\ forall q, q ∈ sc_policies c -> pr_priority q <= pr_priority p.

Lemma fold_max_spec l m :
  (foldl (fun m q => Z.max m (pr_priority q)) m l = m \/
   exists p, p ∈ l /\ pr_priority p = foldl (fun m q => Z.max m (pr_priority q)) m l) /\
  m <= foldl (fun m q => Z.max m (pr_priority q)) m l /\
  forall q, q ∈ l -> pr_priority q <= foldl (fun m q => Z.max m (pr_priority q)) m l.
Proof.
  revert m. induction l as [|p l IH]; intros m; cbn [foldl].
  - split_and!; [by left|lia|]. by intros q []%not_elem_of_nil.
  - destruct (IH (Z.max m (pr_priority p))) as (Hm & Hle & Hall). split_and!; [|lia|].
    + destruct Hm as [Hm|(p' & Hp' & Em)]; [|right; exists p'; split; [by apply list_elem_of_further|done]].
      destruct (Z.max_spec m (pr_priority p)) as [[? E]|[? E]]; rewrite Hm, E; [right|by left].
      exists p. split; [apply list_elem_of_here|done].
    + intros q [->|Hq]%elem_of_cons; [lia|by apply Hall].
Qed.

Lemma highest_spec l :
  l <> [] -> (exists p, p ∈ l /\ pr_priority p = highest l) /\ forall q, q ∈ l -> pr_priority q <= highest l.
Proof.
  destruct l as [|p l]; [done|]. intros _. cbn [highest]. destruct (fold_max_spec l (pr_priority p)) as (Hm & Hle & Hall).
  split.
  - destruct Hm as [Hm|(p' & Hp' & Em)]; [exists p|exists p']; (split; [|done]); [apply list_elem_of_here|by apply list_elem_of_further].
  - intros q [->|Hq]%elem_of_cons; [done|by apply Hall].
Qed.

Lemma selected_spec c p : case_ok c -> p ∈ selected_policies (sc_policies c) <-> decides c p.
Proof.
  intros Hc. destruct (highest_spec _ (co_policies _ Hc)) as [(p0 & Hp0 & E0) Hall].
  unfold selected_policies, decides. rewrite <- list_elem_of_In, filter_In || rewrite list_elem_of_In, filter_In.
  rewrite <- list_elem_of_In, Z.eqb_eq. split.
  - intros [Hp E]. split; [done|]. intros q Hq. rewrite E. by apply Hall.
  - intros [Hp Hmax]. split; [done|]. specialize (Hmax _ Hp0). specialize (Hall _ Hp). lia.
Qed.

Lemma selected_nonempty c : case_ok c -> exists p, p ∈ selected_policies (sc_policies c).
Proof.
  intros Hc. destruct (highest_spec _ (co_policies _ Hc)) as [(p0 & Hp0 & E0) Hall]. exists p0.
  apply selected_spec; [done|]. split; [done|]. intros q Hq. rewrite E0. by apply Hall.
Qed.

(** The facts and the policies of a well-formed case check. *)
Lemma fact_digests_Ok c digests :
  fact_digests c = Ok digests ->
  map fst digests = map vf_fact_id (sc_facts c) /\
  forall f, f ∈ sc_facts c -> exists d, canonical_digest (fact_dict f) = Ok d /\ (vf_fact_id f, d) ∈ digests.
Proof.
  unfold fact_digests. generalize (sc_facts c) as l. intros l. revert digests.
  induction l as [|f l IH]; intros digests E; cbn in E; simp_res; subst; [split; [done|by intros ? []%not_elem_of_nil]|].
  match goal with H : res_mapM _ l = Ok _ |- _ => apply IH in H as [Hk Hall] end.
  cbn. split; [by rewrite Hk|]. intros f' [->|Hf']%elem_of_cons.
  - eexists. split; [done|]. apply list_elem_of_here.
  - destruct (Hall f' Hf') as (d & Hd & Hin). exists d. split; [done|]. by apply list_elem_of_further.
Qed.

Lemma check_policies c digests :
  case_ok c -> fact_digests c = Ok digests -> res_mapM (check_policy digests) (sc_policies c) = Ok (sc_policies c).
Proof.
  intros Hc [Hk Hall]%fact_digests_Ok. apply res_mapM_id. apply Forall_forall. intros p Hp.
  pose proof (co_bound _ Hc) as Hb. rewrite Forall_forall in Hb. destruct (Hb p Hp) as (f & Hf & Hid & Hd).
  destruct (Hall f Hf) as (d & Hd' & Hin). unfold check_policy. rewrite bool_decide_eq_true_2; [done|].
  assert (d = pr_required_fact_digest p) as -> by congruence.
  assert (last (List.filter (fun q => String.eqb (fst q) (pr_required_fact_id p)) digests)
          = Some (pr_required_fact_id p, pr_required_fact_digest p)) as ->; [|done].
  rewrite <- Hid. apply (last_named fst); [|done]. rewrite Hk. apply Hc.
Qed.

(** The authorized actions: one, or a contradiction. *)
Lemma authorized_cases selected :
  (exists p, p ∈ selected) ->
  (exists a, sorted_set (map pr_action selected) = [a] /\ forall p, p ∈ selected -> pr_action p = a) \/
  ((1 < length (sorted_set (map pr_action selected)))%nat /\
   exists p q, p ∈ selected /\ q ∈ selected /\ pr_action p <> pr_action q).
Proof.
  intros [p0 Hp0].
  assert (Hin : forall a, a ∈ sorted_set (map pr_action selected) <-> exists p, p ∈ selected /\ pr_action p = a).
  { intros a. rewrite sorted_set_elem, list_elem_of_In, in_map_iff. setoid_rewrite <- list_elem_of_In. naive_solver. }
  pose proof (strictly_sorted_NoDup _ (sorted_set_sorted (map pr_action selected))) as Hd.
  destruct (sorted_set (map pr_action selected)) as [|a [|b l]].
  - exfalso. apply (not_elem_of_nil (pr_action p0)), Hin. eauto.
  - left. exists a. split; [done|]. intros p Hp. apply list_elem_of_singleton, Hin. eauto.
  - right. split; [cbn; lia|]. destruct (proj1 (Hin a)) as (p & Hp & Ep); [apply list_elem_of_here|].
    destruct (proj1 (Hin b)) as (q & Hq & Eq); [apply list_elem_of_further, list_elem_of_here|].
    exists p, q. split_and!; [done..|]. rewrite Ep, Eq. intros ->. apply NoDup_cons in Hd as [Hd _].
    apply Hd, list_elem_of_here.
Qed.

Lemma questions_elem selected x : x ∈ questions_of selected <-> x <> ""%string /\ exists p, p ∈ selected /\ pr_human_question p = x.
Proof.
  unfold questions_of. rewrite sorted_str_perm, list_elem_of_In, filter_In, in_map_iff.
  setoid_rewrite <- list_elem_of_In. unfold nonempty. rewrite negb_true_iff, String.eqb_neq. naive_solver.
Qed.
Lemma questions_nil selected : questions_of selected = [] <-> forall p, p ∈ selected -> pr_human_question p = ""%string.
Proof.
  split.
  - intros E p Hp. destruct (decide (pr_human_question p = ""%string)) as [|Hne]; [done|]. exfalso.
    apply (not_elem_of_nil (pr_human_question p)). rewrite <- E. apply questions_elem. eauto.
  - intros Hall. destruct (questions_of selected) as [|x l] eqn:E; [done|]. exfalso.
    destruct (proj1 (questions_elem selected x)) as [Hx (p & Hp & Ep)]; [rewrite E; apply list_elem_of_here|].
    apply Hx. by rewrite <- Ep, Hall.
Qed.

(** What the selected policies resolve to. *)
Lemma resolution_spec selected :
  (exists p, p ∈ selected) ->
  (exists p q, p ∈ selected /\ q ∈ selected /\ pr_action p <> pr_action q /\
     resolution selected = Ok ("escalate"%string, "NEEDS_HUMAN_DECISION"%string,
                               sorted_set (questions_of selected ++ [contradiction_question]))) \/
  (exists a, (forall p, p ∈ selected -> pr_action p = a) /\
     resolution selected = Ok (a, if String.eqb a "escalate" || negb (bool_decide (questions_of selected = []))
                                  then "NEEDS_HUMAN_DECISION" else "ADMITTED", questions_of selected)%string).
Proof.
  intros Hs. unfold resolution. destruct (authorized_cases selected Hs) as [(a & E & Hall)|(Hl & p & q & Hp & Hq & Hne)].
  - right. exists a. split; [done|]. by rewrite E.
  - left. exists p, q. split_and!; [done..|]. by rewrite bool_decide_eq_true_2.
Qed.

Lemma discover_Ok c d :
  case_ok c -> discover c = Ok d ->
  exists action status questions, resolution (selected_policies (sc_policies c)) = Ok (action, status, questions) /\
    canonical_digest (case_dict c) = Ok (dc_input_digest d) /\
    create_decision_contract vertical (sc_case_id c) (dc_input_digest d) action status
      (sorted_set (map pr_required_fact_id (selected_policies (sc_policies c))))
      (sorted_str (map pr_rule_id (selected_policies (sc_policies c)))) questions = Ok d.
Proof.
  intros Hc. unfold discover. intros (digests & Ed & E)%bind_Ok. rewrite (check_policies c digests Hc Ed) in E.
  cbn [mbind res_bind] in E. apply bind_Ok in E as (u & _ & E). apply bind_Ok in E as ([[action status] questions] & Er & E).
  apply bind_Ok in E as (input & Ei & E). exists action, status, questions. split; [done|].
  assert (dc_input_digest d = input) as ->; [|done].
  unfold create_decision_contract, new_decision_contract in E. apply bind_Ok in E as (digest & _ & E).
  destruct (contract_form _); [|done]. apply bind_Ok in E as ([] & _ & E); [|done]. by injection E as <-.
Qed.

Lemma create_Ok v i input action status facts rules questions d :
  create_decision_contract v i input action status facts rules questions = Ok d ->
  dc_vertical d = v /\ dc_case_id d = i /\ dc_selected_action d = action /\ dc_status d = status /\
  dc_action_fact_refs d = facts /\ dc_action_rule_refs d = rules /\ dc_unresolved_questions d = questions /\
  contract_form d = true /\ digest_is_valid d = Ok true.
Proof.
  unfold create_decision_contract, new_decision_contract. intros (digest & _ & E)%bind_Ok.
  destruct (contract_form _) eqn:Ef; [|done]. apply bind_Ok in E as ([] & Ev & E); [|done]. injection E as <-. done.
Qed.

(** The decision is autonomous, and every policy that decides agrees, or it is
    left to a human, with a question. *)
Lemma discovery_cases c d :
  case_ok c -> discover c = Ok d ->
  (dc_status d = "ADMITTED"%string /\ dc_unresolved_questions d = [] /\
   forall p, decides c p -> pr_action p = dc_selected_action d /\ pr_human_question p = ""%string) \/
  (dc_status d = "NEEDS_HUMAN_DECISION"%string /\ dc_unresolved_questions d <> []).
Proof.
  intros Hc (action & status & questions & Er & _ & Ed)%discover_Ok; [|done].
  apply create_Ok in Ed as (_ & _ & Ea & Es & _ & _ & Eq & Hf & _). rewrite Ea, Es, Eq.
  assert (Hform : status = "ADMITTED"%string /\ questions = [] \/ status = "NEEDS_HUMAN_DECISION"%string /\ questions <> []).
  { unfold contract_form in Hf. rewrite Es, Eq in Hf. bool_simp.
    match goal with H : (_ || _)%bool = true |- _ => apply orb_true_iff in H as [H|H] end; bool_simp.
    - left. split; [done|]. by eapply bool_decide_eq_true.
    - right. split; [done|]. by eapply bool_decide_eq_false. }
  destruct Hform as [[-> ->]|?]; [left|by right]. split_and!; [done..|]. intros p Hp%selected_spec; [|done].
  destruct (resolution_spec _ (selected_nonempty c Hc)) as [(p1 & q1 & _ & _ & _ & E)|(a & Hag & E)]; rewrite E in Er; [done|].
  injection Er as <- _ Hq. split; [by apply Hag|]. by apply (proj1 (questions_nil _) Hq).
Qed.

(** The contract cites the policies that decide, and their facts. *)
Lemma discovery_refs c d :
  case_ok c -> discover c = Ok d ->
  (forall r, r ∈ dc_action_rule_refs d <-> exists p, decides c p /\ pr_rule_id p = r) /\
  (forall f, f ∈ dc_action_fact_refs d <-> exists p, decides c p /\ pr_required_fact_id p = f).
Proof.
  intros Hc (action & status & questions & _ & _ & Ed)%discover_Ok; [|done].
  apply create_Ok in Ed as (_ & _ & _ & _ & -> & -> & _). setoid_rewrite <- (fun p => selected_spec c p Hc). split.
  - intros r. rewrite sorted_str_perm, list_elem_of_In, in_map_iff. setoid_rewrite <- list_elem_of_In. naive_solver.
  - intros f. rewrite sorted_set_elem, list_elem_of_In, in_map_iff. setoid_rewrite <- list_elem_of_In. naive_solver.
Qed.

(** C24. Discovery follows the visible policies of the highest priority.  The
    contract cites exactly them and the facts they rest on.  When they agree on an
    action it is selected; when they contradict each other the contract escalates
    and asks for precedence.  The decision is autonomous ([ADMITTED]) exactly when
    they agree on an action other than to escalate and none of them has a question
    for a human, and otherwise it states an open question. *)
Theorem discovery_follows_policies c d :
  case_ok c -> discover c = Ok d ->
  (forall r, r ∈ dc_action_rule_refs d <-> exists p, decides c p /\ pr_rule_id p = r) /\
  (forall f, f ∈ dc_action_fact_refs d <-> exists p, decides c p /\ pr_required_fact_id p = f) /\
  (forall p, decides c p -> (forall q, decides c q -> pr_action q = pr_action p) -> dc_selected_action d = pr_action p) /\
  (forall p q, decides c p -> decides c q -> pr_action p <> pr_action q ->
     dc_selected_action d = "escalate"%string /\ contradiction_question ∈ dc_unresolved_questions d) /\
  (dc_status d = "ADMITTED"%string <->
   exists a, a <> "escalate"%string /\ forall p, decides c p -> pr_action p = a /\ pr_human_question p = ""%string) /\
  (dc_status d <> "ADMITTED"%string -> dc_status d = "NEEDS_HUMAN_DECISION"%string /\ dc_unresolved_questions d <> []).
Proof.
  intros Hc E. destruct (discovery_refs c d Hc E) as [Hr Hf]. pose proof (discovery_cases c d Hc E) as Hcases.
  apply discover_Ok in E as (action & status & questions & Er & _ & Ed); [|done].
  apply create_Ok in Ed as (_ & _ & Ea & Es & _ & _ & Eq & _ & _). rewrite Ea, Es, Eq in *.
  pose proof (selected_nonempty c Hc) as Hn. split_and!; [done..| | | |naive_solver];
    setoid_rewrite <- (fun p => selected_spec c p Hc);
    destruct (resolution_spec _ Hn) as [(p1 & q1 & H1 & H2 & Hne & E)|(a & Hag & E)]; rewrite E in Er; injection Er as <- <- <-.
  - intros p Hp Hall. exfalso. apply Hne. by rewrite (Hall p1), (Hall q1).
  - intros p Hp _. symmetry. by apply Hag.
  - intros p q _ _ _. split; [done|]. rewrite sorted_set_elem. apply elem_of_app. right. apply list_elem_of_here.
  - intros p q Hp Hq Hne. exfalso. apply Hne. by rewrite (Hag p), (Hag q).
  - split; [done|]. intros (a & _ & Hall). exfalso. apply Hne. by rewrite (proj1 (Hall p1 H1)), (proj1 (Hall q1 H2)).
  - destruct Hn as [p0 Hp0]. destruct (String.eqb_spec a "escalate") as [->|Hne]; cbn [orb].
    + split; [done|]. intros (a & Ha & Hall). exfalso. apply Ha. rewrite <- (proj1 (Hall p0 Hp0)). by apply Hag.
    + destruct (bool_decide _) eqn:Eb; cbn [negb].
      * apply bool_decide_eq_true in Eb. split; [intros _; exists a; split; [done|]|done].
        intros p Hp. split; [by apply Hag|]. by apply (proj1 (questions_nil _) Eb).
      * apply bool_decide_eq_false in Eb. split; [done|]. intros (a' & _ & Hall). exfalso. apply Eb, questions_nil.
        intros p Hp. apply Hall. done.
Qed.

(** ** Discovery decides every case *)

Lemma sha256_valid payload : _valid_digest (sha256_digest payload) = true.
Proof.
  pose proof (sha256_digest_name payload) as E. pose proof (DIGEST_spec _ _ E) as E'.
  unfold _valid_digest. unfold _DIGEST in E. destruct (_ && _) eqn:Eb; [|done]. bool_simp.
  rewrite andb_true_iff. split; [|done]. rewrite andb_true_iff. split; [|done].
  rewrite E', sapp_length. destruct (sha256_hexdigest_shape payload) as [-> _]. done.
Qed.

Lemma canonical_digest_valid v d : canonical_digest v = Ok d -> _valid_digest d = true.
Proof. unfold canonical_digest. intros E. simp_res. subst. apply sha256_valid. Qed.

Lemma fact_digests_Raise c x : fact_digests c = Raise x -> exists v, canonical_digest v = Raise x.
Proof.
  unfold fact_digests. induction (sc_facts c) as [|f l IH]; cbn; [done|].
  intros [E|(y & _ & E)]%bind_Raise; [|by apply bind_Raise in E as [E|(? & _ & [=])]; apply IH].
  apply bind_Raise in E as [E|(? & _ & [=])]. eauto.
Qed.

Context `{!Rfc8785Laws}.

(** The order of the members of an object does not matter to its digest. *)
Lemma canonical_order a b : jcanon a = jcanon b -> canonical_digest a = canonical_digest b.
Proof.
  intros E. unfold canonical_digest, canonical_json_bytes. by rewrite <- (dumps_canonical a), <- (dumps_canonical b), E.
Qed.

Lemma payload_digest schema v i input action status facts rules questions digest :
  canonical_digest (JObj
    [("action_fact_refs", texts_json facts); ("action_rule_refs", texts_json rules);
     ("case_id", JStr i); ("input_digest", JStr input); ("schema_version", JStr schema);
     ("selected_action", JStr action); ("status", JStr status);
     ("unresolved_questions", texts_json questions); ("vertical", JStr v)]%string)
  = canonical_digest (JObj (contract_payload
      {| dc_schema_version := schema; dc_vertical := v; dc_case_id := i; dc_input_digest := input;
         dc_selected_action := action; dc_status := status; dc_action_fact_refs := facts;
         dc_action_rule_refs := rules; dc_unresolved_questions := questions; dc_contract_digest := digest |})).
Proof.
  apply canonical_order. clear. unfold contract_payload.
  cbn [jcanon map fst snd dc_schema_version dc_vertical dc_case_id dc_input_digest
       dc_selected_action dc_status dc_action_fact_refs dc_action_rule_refs dc_unresolved_questions].
  generalize (jcanon (texts_json facts)) (jcanon (texts_json rules)) (jcanon (texts_json questions)).
  vm_compute. reflexivity.
Qed.

(** The resolution of a well-formed case has the form that a contract needs. *)
Lemma resolution_form c :
  case_ok c ->
  exists action status questions,
    resolution (selected_policies (sc_policies c)) = Ok (action, status, questions) /\ action <> ""%string /\
    (status = "ADMITTED"%string /\ questions = [] \/ status = "NEEDS_HUMAN_DECISION"%string /\ questions <> []).
Proof.
  intros Hc. pose proof (selected_nonempty c Hc) as Hn.
  destruct (resolution_spec _ Hn) as [(p & q & _ & _ & _ & Er)|(a & Hag & Er)]; rewrite Er; do 3 eexists.
  - split; [done|]. split; [done|]. right. split; [done|]. intros E'. apply (not_elem_of_nil contradiction_question).
    rewrite <- E', sorted_set_elem. apply elem_of_app. right. apply list_elem_of_here.
  - split; [done|]. destruct Hn as [p0 Hp0]. pose proof (proj1 (selected_spec c p0 Hc) Hp0) as [Hin _].
    pose proof (co_rules _ Hc) as Hrules. rewrite Forall_forall in Hrules. specialize (Hrules _ Hin).
    pose proof (ro_action _ Hrules) as Ha. rewrite (Hag p0 Hp0) in Ha. split; [intros ->; by apply str_in_elem in Ha|].
    destruct (String.eqb_spec a "escalate") as [->|]; cbn [orb].
    + right. split; [done|]. intros Hq. pose proof (proj1 (questions_nil _) Hq p0 Hp0) as Hq0.
      apply (ro_escalate _ Hrules); [by apply Hag|by rewrite Hq0].
    + destruct (bool_decide (questions_of _ = [])) eqn:Eb; cbn [negb].
      * left. by apply bool_decide_eq_true in Eb.
      * right. by apply bool_decide_eq_false in Eb.
Qed.

Lemma form_holds v i input action status facts rules questions digest :
  v <> ""%string -> i <> ""%string -> _valid_digest input = true -> action <> ""%string -> facts <> [] -> rules <> [] ->
  _valid_digest digest = true ->
  (status = "ADMITTED"%string /\ questions = [] \/ status = "NEEDS_HUMAN_DECISION"%string /\ questions <> []) ->
  contract_form
    {| dc_schema_version := "1.0.0"; dc_vertical := v; dc_case_id := i; dc_input_digest := input;
       dc_selected_action := action; dc_status := status; dc_action_fact_refs := facts;
       dc_action_rule_refs := rules; dc_unresolved_questions := questions; dc_contract_digest := digest |} = true.
Proof.
  intros Hv Hi Hin Ha Hf Hr Hd Hs. unfold contract_form, nonempty. cbn.
  rewrite Hin, Hd, (bool_decide_eq_false_2 _ Hf), (bool_decide_eq_false_2 _ Hr).
  apply String.eqb_neq in Hv, Hi, Ha. rewrite Hv, Hi, Ha.
  destruct Hs as [[-> ->]|[-> Hq]]; cbn; [done|]. by rewrite (bool_decide_eq_false_2 _ Hq).
Qed.

Lemma bounded_nonempty i : bounded_identifier i = true -> i <> ""%string.
Proof. by intros Hi ->. Qed.

Lemma create_Raise v i input action status facts rules questions x :
  v <> ""%string -> i <> ""%string -> _valid_digest input = true -> action <> ""%string -> facts <> [] -> rules <> [] ->
  (status = "ADMITTED"%string /\ questions = [] \/ status = "NEEDS_HUMAN_DECISION"%string /\ questions <> []) ->
  create_decision_contract v i input action status facts rules questions = Raise x -> exists w, canonical_digest w = Raise x.
Proof.
  intros Hv Hi Hin Ha Hf Hr Hs. unfold create_decision_contract, new_decision_contract.
  intros [E|(digest & Ed & E)]%bind_Raise; [eauto|]. rewrite form_holds in E; try done; [|by eapply canonical_digest_valid].
  unfold digest_is_valid in E. apply bind_Raise in E as [E|(valid & Ev & E)].
  - apply bind_Raise in E as [E|(? & _ & [=])]. eauto.
  - apply bind_Ok in Ev as (digest' & Ed' & [= <-]). rewrite (payload_digest _ _ _ _ _ _ _ _ _ digest), Ed' in Ed.
    injection Ed as ->. cbn [dc_contract_digest] in E. by rewrite String.eqb_refl in E.
Qed.

Lemma discover_Raise c x : case_ok c -> discover c = Raise x -> exists v, canonical_digest v = Raise x.
Proof.
  intros Hc. unfold discover. intros [E|(digests & Ed & E)]%bind_Raise; [by apply fact_digests_Raise in E|].
  rewrite (check_policies c digests Hc Ed) in E. cbn [mbind res_bind] in E.
  rewrite bool_decide_eq_false_2 in E by apply Hc. cbn [raise_if mbind res_bind] in E.
  destruct (resolution_form c Hc) as (action & status & questions & Er & Ha & Hs). rewrite Er in E. cbn [mbind res_bind] in E.
  apply bind_Raise in E as [E|(input & Ei & E)]; [eauto|].
  destruct (selected_nonempty c Hc) as [p0 Hp0].
  eapply create_Raise; [..|exact E]; try done; [apply bounded_nonempty, Hc|by eapply canonical_digest_valid|..];
    intros Hnil; apply (list_elem_of_fmap_2 pr_required_fact_id) in Hp0 as Hf; apply (list_elem_of_fmap_2 pr_rule_id) in Hp0 as Hr'.
  - apply (not_elem_of_nil (pr_required_fact_id p0)). rewrite <- Hnil, sorted_set_elem. done.
  - apply (not_elem_of_nil (pr_rule_id p0)). rewrite <- Hnil, sorted_str_perm. done.
Qed.

(** A well-formed case is always decided: discovery gives a contract, unless
    the canonical serializer itself raises on a value it is asked to write.  It
    never finds a policy without its fact, never runs out of policies, and never
    compiles a malformed contract. *)
Theorem discovery_decides c :
  case_ok c -> (exists d, discover c = Ok d) \/ exists v x, canonical_digest v = Raise x /\ discover c = Raise x.
Proof. intros Hc. destruct (discover c) as [d|x] eqn:E; [eauto|]. destruct (discover_Raise c x Hc E). eauto. Qed.
End Cases.
