(* ===== verification/PublishTheorems.v ===== *)
(** * The workflow kernel: theorems

    A case is executed under exactly the contract that it discovers and the plan
    that the contract compiles to, and the report that is published is the one
    that execution gives.

    ** Publishing workflow reports: theorems

    Whatever call to the file system fails, the directory of a version is the one
    that was there, or absent, or complete; what was there before is kept; and the
    result of a run of [support-demo] is authorized by the policies of its case. *)
From Stdlib Require Import Ascii String.
From S2P Require Import Prelude Sha256 Json JsonText Canonical JsonSpec JsonFacts CanonicalFacts PyStr PyConv.
From S2P Require Import CheckTheorems Support Workflow Publish SupportTheorems.

Section Workflow.
Context `{Rfc8785} `{Unicode} `{!Rfc8785Laws}.

(** ** Verified contracts and plans *)

Lemma verify_true c contract :
  verify c contract = Ok true <-> discover c = Ok contract /\ is_ok (canonical_json_bytes (contract_dict contract)) = true.
Proof.
  unfold verify. split.
  - intros (expected & E & Ev)%bind_Ok. destruct expected as [expected|]; [|done].
    apply try_except_Ok in E as [E|(? & _ & _ & [=])]. apply bind_Ok in E as (d & Ed & [= ->]).
    destruct (bool_decide _) eqn:Eb; [|done]. apply bool_decide_eq_true in Eb as ->.
    apply bind_Ok in Ev as (b & -> & _). done.
  - intros [-> Hb]. cbn. rewrite bool_decide_eq_true_2 by done.
    destruct (canonical_json_bytes _) as [b|]; [|done]. cbn. by rewrite String.eqb_refl.
Qed.

Lemma plan_payload_digest contract_digest input nodes digest :
  canonical_digest (JObj
    [("contract_digest", JStr contract_digest); ("input_digest", JStr input);
     ("nodes", JArr (map node_dict nodes)); ("schema_version", JStr "1.0.0")]%string)
  = canonical_digest (plan_payload
      {| wp_schema_version := "1.0.0"; wp_contract_digest := contract_digest; wp_input_digest := input;
         wp_nodes := nodes; wp_plan_digest := digest |}).
Proof.
  apply canonical_order. clear. unfold plan_payload.
  cbn [jcanon map fst snd wp_schema_version wp_contract_digest wp_input_digest wp_nodes].
  generalize (map jcanon (map node_dict nodes)). vm_compute. reflexivity.
Qed.

(** A compiled plan is valid, and binds its contract. *)
Lemma compile_Ok contract plan :
  compile_workflow contract = Ok plan ->
  plan_digest_is_valid plan = Ok true /\ wp_contract_digest plan = dc_contract_digest contract /\
  wp_input_digest plan = dc_input_digest contract /\ wp_nodes plan = workflow_nodes contract.
Proof.
  unfold compile_workflow. intros (valid & _ & (u & _ & (digest & Ed & [= <-])%bind_Ok)%bind_Ok)%bind_Ok.
  split; [|done]. unfold plan_digest_is_valid. rewrite (plan_payload_digest _ _ _ digest) in Ed. rewrite Ed. cbn.
  by rewrite String.eqb_refl.
Qed.

Lemma execute_Ok c contract plan report :
  case_ok c ->
  execute_workflow c contract plan = Ok report <->
  discover c = Ok contract /\ compile_workflow contract = Ok plan /\
  is_ok (canonical_json_bytes (contract_dict contract)) = true /\
  report_of c contract plan (dc_input_digest contract) = Ok report.
Proof.
  intros Hc. unfold execute_workflow. split.
  - intros E. simp_res. bool_simp. subst.
    match goal with H : bool_decide _ = true |- _ => apply bool_decide_eq_true in H as -> end.
    match goal with H : _trusted_contract _ _ = Ok _ |- _ => unfold _trusted_contract in H; destruct (String.eqb _ _); [|done] end.
    match goal with H : verify _ _ = Ok _ |- _ => apply verify_true in H as [Hd Hb] end. done.
  - intros (Hd & Hp & Hb & Hr). pose proof Hd as Hd'. apply discover_Ok in Hd' as (a & st & q & _ & Ei & Ec); [|done].
    apply create_Ok in Ec as (Hv & Hid & _ & _ & _ & _ & _ & _ & Hvalid). pose proof Hp as (Hpv & Hpc & Hpi & _)%compile_Ok.
    rewrite Ei. cbn [mbind res_bind]. rewrite Hpi, Hid, !String.eqb_refl. cbn [negb orb raise_if mbind res_bind].
    rewrite Hvalid. cbn [mbind res_bind]. rewrite Hpc, String.eqb_refl. cbn [negb orb raise_if mbind res_bind].
    unfold _trusted_contract. rewrite Hv. change (String.eqb vertical "customer_support") with true. cbn iota.
    rewrite (proj2 (verify_true c contract)) by done. cbn [negb raise_if mbind res_bind].
    rewrite Hpv. cbn [negb raise_if mbind res_bind]. rewrite Hp. cbn [mbind res_bind].
    by rewrite bool_decide_eq_true_2.
Qed.

(** A case is executed exactly under the contract that its visible policies
    discover and the plan which that contract compiles to: execution of any other
    contract or plan is refused, whatever digests they claim, and execution of the
    right ones gives the report of the three steps. *)
Theorem execution_iff c contract plan report :
  case_ok c ->
  execute_workflow c contract plan = Ok report <->
  discover c = Ok contract /\ compile_workflow contract = Ok plan /\
  is_ok (canonical_json_bytes (contract_dict contract)) = true /\
  report_of c contract plan (dc_input_digest contract) = Ok report.
Proof. apply execute_Ok. Qed.

Lemma verify_report_true c contract plan report :
  verify_workflow_report c contract plan report = Ok true <->
  execute_workflow c contract plan = Ok report /\ is_ok (canonical_json_bytes (report_dict report)) = true.
Proof.
  unfold verify_workflow_report. split.
  - intros (expected & E & Ev)%bind_Ok. destruct expected as [expected|]; [|done].
    apply try_except_Ok in E as [E|(? & _ & _ & [=])]. apply bind_Ok in E as (r & Er & [= ->]).
    destruct (bool_decide _) eqn:Eb; [|done]. apply bool_decide_eq_true in Eb as ->.
    apply bind_Ok in Ev as (b & -> & _). done.
  - intros [-> Hb]. cbn. rewrite bool_decide_eq_true_2 by done.
    destruct (canonical_json_bytes _) as [b|]; [|done]. cbn. by rewrite String.eqb_refl.
Qed.

(** ** Reports are named by their content *)

(** The payload of a report is the report without its digest, in another order. *)
Definition report_body (r : WorkflowReport) : json := JObj
  [("case_id", JStr (wr_case_id r)); ("contract_digest", JStr (wr_contract_digest r));
   ("evidence_complete", JBool (wr_evidence_complete r)); ("execution_digest", JStr (wr_execution_digest r));
   ("input_digest", JStr (wr_input_digest r)); ("plan_digest", JStr (wr_plan_digest r));
   ("schema_version", JStr (wr_schema_version r)); ("selected_action", JStr (wr_selected_action r));
   ("status", JStr (wr_status r)); ("step_evidence", JArr (map step_dict (wr_step_evidence r)));
   ("unresolved_questions", texts_json (wr_unresolved_questions r))]%string.

Lemma report_of_body c contract plan input r :
  report_of c contract plan input = Ok r -> canonical_digest (report_body r) = Ok (wr_report_digest r).
Proof. unfold report_of. intros E. simp_res. subst. done. Qed.

Lemma execute_body c contract plan r :
  execute_workflow c contract plan = Ok r -> canonical_digest (report_body r) = Ok (wr_report_digest r).
Proof. unfold execute_workflow. intros E. simp_res. by eapply report_of_body. Qed.

Lemma texts_norm l1 l2 : json_norm (texts_json l1) = json_norm (texts_json l2) -> l1 = l2.
Proof.
  cbn [json_norm texts_json]. intros [= E]. revert l2 E. induction l1 as [|x l1 IH]; intros [|y l2] E; try done.
  cbn in E. injection E as -> E. f_equal. by apply IH.
Qed.
Lemma step_norm s1 s2 : json_norm (step_dict s1) = json_norm (step_dict s2) -> s1 = s2.
Proof. destruct s1, s2. intros E. vm_compute in E. injection E as -> -> -> ->. done. Qed.
Lemma steps_norm l1 l2 : json_norm (JArr (map step_dict l1)) = json_norm (JArr (map step_dict l2)) -> l1 = l2.
Proof.
  cbn [json_norm]. intros [= E]. revert l2 E. induction l1 as [|x l1 IH]; intros [|y l2] E; try done.
  cbn [map] in E. pose proof (f_equal (hd JNull) E) as Es. pose proof (f_equal (@tl json) E) as Et. cbn [hd tl] in Es, Et.
  f_equal; [by apply step_norm|by apply IH].
Qed.

Lemma body_norm r1 r2 :
  wr_report_digest r1 = wr_report_digest r2 -> json_norm (report_body r1) = json_norm (report_body r2) -> r1 = r2.
Proof.
  destruct r1 as [a1 b1 c1 d1 e1 f1 g1 h1 steps1 questions1 i1 j1], r2 as [a2 b2 c2 d2 e2 f2 g2 h2 steps2 questions2 i2 j2].
  unfold report_body. cbn [wr_report_digest wr_case_id wr_contract_digest wr_evidence_complete wr_execution_digest
    wr_input_digest wr_plan_digest wr_schema_version wr_selected_action wr_status wr_step_evidence wr_unresolved_questions].
  intros <- E.
  assert (Hq : json_norm (texts_json questions1) = json_norm (texts_json questions2) /\
               json_norm (JArr (map step_dict steps1)) = json_norm (JArr (map step_dict steps2)) /\
               [a1; b1; c1; d1; e1; f1; g1; h1] = [a2; b2; c2; d2; e2; f2; g2; h2] /\ i1 = i2).
  { revert E. generalize (texts_json questions1) (texts_json questions2) (JArr (map step_dict steps1)) (JArr (map step_dict steps2)).
    clear. intros q1 q2 s1 s2. cbn [json_norm map fst snd].
    generalize (json_norm q1) (json_norm q2) (json_norm s1) (json_norm s2). intros n1 n2 n3 n4 E. vm_compute in E.
    by injection E as -> -> -> -> -> -> -> -> -> -> ->. }
  destruct Hq as (->%texts_norm & ->%steps_norm & E' & ->). by injection E' as -> -> -> -> -> -> -> ->.
Qed.

(** A published version names one report: two reports that execution gives,
    of whatever cases, contracts and plans, and that have the same report digest
    are the same report, unless the texts of their contents collide under SHA-256. *)
Theorem report_digest_names_report c1 k1 p1 r1 c2 k2 p2 r2 :
  execute_workflow c1 k1 p1 = Ok r1 -> execute_workflow c2 k2 p2 = Ok r2 ->
  wr_report_digest r1 = wr_report_digest r2 ->
  r1 = r2 \/ text_collision (report_body r1) (report_body r2).
Proof.
  intros E1%execute_body E2%execute_body Hd. rewrite <- Hd in E2. destruct (same_digest_value _ _ _ E1 E2) as [Hn|Hc]; [left|by right].
  by apply body_norm.
Qed.
End Workflow.

(** * Publishing workflow reports: theorems *)

Section Publish.
Variable e : publish_env.

(** What [tempfile] promises of its names. *)
Hypothesis fresh : forall prefix used, fresh_name e prefix used ∉ used /\ startswith (fresh_name e prefix used) prefix = true.

(** ** Only one directory changes *)

Definition only {A} (dir : string) (m : st directories A) : Prop :=
  forall s r s', m s = (r, s') -> forall n, n <> dir -> s' !! n = s !! n.

Lemma only_bind {A B} dir (m : st directories A) (k : A -> st directories B) :
  only dir m -> (forall a, only dir (k a)) -> only dir (m ≫= k).
Proof.
  intros Hm Hk s r s' E n Hn. apply st_bind_inv in E as [(a & s1 & E1 & E2)|(x & E1 & ->)].
  - rewrite (Hk a _ _ _ E2 n Hn). by apply (Hm _ _ _ E1).
  - by apply (Hm _ _ _ E1).
Qed.
Lemma only_call dir c : only dir (call e c).
Proof. intros s r s' E n _. unfold call in E. destruct (fault e c); by injection E as <- <-. Qed.
Lemma only_get {A} dir (f : directories -> A) : only dir (get_st f).
Proof. intros s r s' [= <- <-]. done. Qed.
Lemma only_raise {A} dir x : only dir (@raise_st directories A x).
Proof. intros s r s' [= <- <-]. done. Qed.
Lemma only_put dir name content : only dir (put_file dir name content).
Proof. intros s r s' [= <- <-] n Hn. by rewrite lookup_alter_ne. Qed.
Lemma only_delete dir name : only dir (delete_file dir name).
Proof. intros s r s' [= <- <-] n Hn. by rewrite lookup_alter_ne. Qed.
Lemma only_try {A} dir (m : st directories A) c h : only dir m -> (forall x, only dir (h x)) -> only dir (try_st m c h).
Proof.
  intros Hm Hh s r s' E n Hn. unfold try_st in E. destruct (m s) as [[a|x] s1] eqn:Em.
  - injection E as <- <-. by apply (Hm _ _ _ Em).
  - destruct (c x); [|injection E as <- <-; by apply (Hm _ _ _ Em)].
    rewrite (Hh x _ _ _ E n Hn). by apply (Hm _ _ _ Em).
Qed.

Create HintDb only.
Hint Resolve only_bind only_call only_get only_raise only_put only_delete only_try : only.

Lemma only_write_atomic dir name payload : only dir (_write_atomic e dir name payload).
Proof. unfold _write_atomic. auto 20 with only. Qed.

(** ** Writing a file *)

Lemma call_inv {A} c (k : st directories A) s r s' :
  (call e c ≫= fun _ => k) s = (r, s') -> k s = (r, s') \/ (s' = s /\ exists x, r = Raise x).
Proof.
  intros [(u & s1 & E1 & E2)|(x & E1 & ->)]%st_bind_inv; unfold call in E1; destruct (fault e c); try discriminate;
    injection E1 as <- <-; eauto.
Qed.

Lemma write_atomic_Ok dir name payload s s' d :
  s !! dir = Some d -> startswith name "." = false -> _write_atomic e dir name payload s = (Ok tt, s') ->
  exists d', s' !! dir = Some d' /\ d' !! name = Some payload /\
    forall n, startswith n "." = false -> n <> name -> d' !! n = d !! n.
Proof.
  intros Hd Hn. unfold _write_atomic. intros (u1 & s1 & E1 & E)%st_bind_Ok.
  unfold call in E1. destruct (fault e _); [discriminate|]. injection E1 as _ <-.
  apply st_bind_Ok in E as (temporary & s1 & E1 & E). injection E1 as <- <-. rewrite Hd in E. cbn [default] in E.
  destruct (fresh ("." +:+ name +:+ ".") (dom d)) as [_ Ht]. set (temporary := fresh_name _ _ _) in *.
  assert (Hdot : startswith temporary "." = true).
  { apply startswith_split in Ht as ->. rewrite sapp_assoc. apply startswith_app. }
  clearbody temporary. apply st_bind_Ok in E as (u2 & s1 & [= _ <-] & E). unfold try_st in E.
  match type of E with (match ?m with _ => _ end) = _ => destruct m as [[u|x] s2] eqn:Em end.
  - injection E as _ <-. do 5 (apply st_bind_Ok in Em as (? & ? & ? & Em)).
    unfold put_file, delete_file, modify_st, call, mret, st_ret in *.
    destruct (fault e (WriteTemporary _)); [discriminate|]. destruct (fault e (ReplaceTemporary _)); [discriminate|].
    assert (Es : s2 = alter <[name:=payload]> dir (alter (delete temporary) dir (alter <[temporary:=payload]> dir
              (alter <[temporary:=written_before_fault e]> dir (alter <[temporary:=""%string]> dir s)))))
      by congruence.
    exists (<[name:=payload]> (delete temporary (<[temporary:=payload]> (<[temporary:=written_before_fault e]>
              (<[temporary:=""%string]> d))))).
    rewrite Es. split; [by rewrite !lookup_alter_eq, Hd|]. split; [apply lookup_insert_eq|].
    intros n Hdn Hne. assert (n <> temporary) by congruence.
    by rewrite lookup_insert_ne, lookup_delete_ne, !lookup_insert_ne.
  - apply st_bind_Ok in E as (? & ? & _ & E). by apply st_bind_Ok in E as (? & ? & _ & [=]).
Qed.

(** ** Publishing *)

Definition complete (json_bytes md_bytes : string) (d : files) : Prop :=
  d !! json_name = Some json_bytes /\ d !! markdown_name = Some md_bytes.

Lemma read_file_Ok c dir name s text s' :
  read_file e c dir name s = (Ok text, s') -> s' = s /\ exists d, s !! dir = Some d /\ d !! name = Some text.
Proof.
  unfold read_file. intros (u & s1 & E1 & E)%st_bind_Ok. unfold call in E1. destruct (fault e c); [discriminate|].
  injection E1 as _ <-. apply st_bind_Ok in E as (content & s1 & E1 & E). injection E1 as <- <-.
  destruct (s !! dir) as [d|]; [|discriminate]. cbn in E. destruct (d !! name) as [t|] eqn:Et; [|discriminate].
  injection E as <- <-. eauto.
Qed.
Lemma read_file_state c dir name s r s' : read_file e c dir name s = (r, s') -> s' = s.
Proof.
  unfold read_file. intros [(u & s1 & E1 & E)|(x & E1 & ->)]%st_bind_inv; unfold call in E1; destruct (fault e c);
    try discriminate; injection E1 as _ <-; [|done].
  apply st_bind_inv in E as [(content & s1 & E1 & E)|(x & [=] & _)]. injection E1 as <- <-.
  destruct (_ ≫= _); by injection E as _ <-.
Qed.

Lemma already_Ok version jb mb s b s' :
  published_already e version jb mb s = (Ok b, s') ->
  s' = s /\ (b = true <-> exists d, s !! version = Some d /\ complete jb mb d).
Proof.
  unfold published_already. intros (j & s1 & (-> & d & Hd & Hj)%read_file_Ok & E)%st_bind_Ok.
  destruct (String.eqb_spec j jb) as [->|Hne].
  - apply st_bind_Ok in E as (m & s1 & (-> & d' & Hd' & Hm)%read_file_Ok & E). injection E as <- <-. split; [done|].
    rewrite Hd in Hd'. injection Hd' as <-. rewrite String.eqb_eq. unfold complete. split; [intros ->; eauto|].
    intros (d' & Hd' & _ & Hm'). congruence.
  - injection E as <- <-. split; [done|]. split; [done|]. intros (d' & Hd' & Hj' & _). congruence.
Qed.
Lemma already_state version jb mb s r s' : published_already e version jb mb s = (r, s') -> s' = s.
Proof.
  unfold published_already. intros [(j & s1 & ->%read_file_state & E)|(x & ->%read_file_state & ->)]%st_bind_inv; [|done].
  destruct (String.eqb j jb); [|by injection E as _ <-].
  apply st_bind_inv in E as [(m & s1 & ->%read_file_state & E)|(x & ->%read_file_state & ->)]; [|done]. by injection E as _ <-.
Qed.

(** The move of the staged directory: done, or nothing. *)
Lemma move_dir_inv c from to s r s' :
  from <> to -> move_dir e c from to s = (r, s') ->
  (s' = s /\ exists x, r = Raise x) \/
  (exists d, r = Ok tt /\ s !! from = Some d /\ (s !! to = None \/ s !! to = Some ∅) /\ s' = <[to := d]> (delete from s)).
Proof.
  intros Hne. unfold move_dir. intros [E|(-> & x & ->)]%call_inv; [|left; eauto].
  apply st_bind_inv in E as [(source & s1 & E1 & E)|(x & [=] & _)]. injection E1 as <- <-.
  apply st_bind_inv in E as [(target & s1 & E1 & E)|(x & [=] & _)]. injection E1 as <- <-.
  destruct (s !! from) as [d|] eqn:Ed; [|left; injection E as <- <-; eauto].
  destruct (s !! to) as [d'|] eqn:Et.
  - destruct (bool_decide (d' = ∅)) eqn:Eb; [|left; injection E as <- <-; eauto]. apply bool_decide_eq_true in Eb as ->.
    injection E as <- <-. right. exists d. eauto.
  - injection E as <- <-. right. exists d. eauto.
Qed.

Lemma mkdtemp_inv c prefix (k : string -> st directories unit) s r s' :
  (mkdtemp e c prefix ≫= k) s = (r, s') ->
  (s' = s /\ exists x, r = Raise x) \/
  exists name, s !! name = None /\ startswith name prefix = true /\ k name (<[name := ∅]> s) = (r, s').
Proof.
  intros [(name & s1 & E1 & E)|(x & E1 & ->)]%st_bind_inv; unfold mkdtemp in E1.
  - right. apply st_bind_Ok in E1 as (u & s2 & E2 & E1). unfold call in E2. destruct (fault e c); [discriminate|].
    injection E2 as _ <-. destruct (fresh prefix (dom s)) as [Hf Hp]. exists (fresh_name e prefix (dom s)).
    injection E1 as <- <-. split; [by apply not_elem_of_dom|]. done.
  - left. apply call_inv in E1 as [E1|(-> & _)]; [discriminate|]. eauto.
Qed.

(** The two files are written to the staged directory, which becomes the version. *)
Definition staging (version staged jb mb : string) : st directories unit :=
  _ ← _write_atomic e staged json_name jb;
  _ ← _write_atomic e staged markdown_name mb;
  try_st (move_dir e MoveToVersion staged version) is_OSError
    (fun x =>
       same ← published_already e version jb mb;
       if (same : bool) then mret tt else raise_st x).

Lemma staging_inv version staged jb mb s r s' :
  startswith staged "." = true -> staged <> version -> s !! version = None ->
  staging version staged jb mb (<[staged := ∅]> s) = (r, s') ->
  (forall n, n <> version -> n <> staged -> s' !! n = s !! n) /\
  (s' !! version = None /\ r <> Ok tt \/
   r = Ok tt /\ s' !! staged = None /\ exists d, s' !! version = Some d /\ complete jb mb d).
Proof.
  intros Hdot Hne Hv. assert (Hne' : version <> staged) by done. unfold staging.
  assert (Hw : forall name payload s1 r1 s2, _write_atomic e staged name payload s1 = (r1, s2) ->
            forall n, n <> staged -> s2 !! n = s1 !! n) by (intros; by eapply only_write_atomic).
  intros [(u1 & s1 & E1 & E)|(x & E1 & ->)]%st_bind_inv.
  2: { pose proof (Hw _ _ _ _ _ E1) as Hw1. split; [intros n _ Hn; by rewrite Hw1, lookup_insert_ne|]. left.
       split; [by rewrite Hw1, lookup_insert_ne|done]. }
  pose proof (Hw _ _ _ _ _ E1) as Hw1. destruct u1.
  apply (write_atomic_Ok _ _ _ _ _ ∅) in E1 as (d1 & Hd1 & Hj1 & _); [|apply lookup_insert_eq|done].
  apply st_bind_inv in E as [(u2 & s2 & E2 & E)|(x & E2 & ->)]; pose proof (Hw _ _ _ _ _ E2) as Hw2.
  2: { split; [intros n _ Hn; by rewrite Hw2, Hw1, lookup_insert_ne|]. left.
       split; [by rewrite Hw2, Hw1, lookup_insert_ne|done]. }
  destruct u2. apply (write_atomic_Ok _ _ _ _ _ d1) in E2 as (d2 & Hd2 & Hm2 & Ho2); [|done..].
  assert (Hkeep : forall n, n <> staged -> s2 !! n = s !! n) by (intros n Hn; by rewrite Hw2, Hw1, lookup_insert_ne).
  unfold try_st in E. destruct (move_dir _ _ _ _ s2) as [r3 s3] eqn:Em. apply move_dir_inv in Em as [(-> & x & ->)|(d & -> & Hd & _ & ->)]; [| |done].
  - assert (s' = s2 /\ r <> Ok tt) as [-> Hr].
    { destruct (is_OSError x); [|by injection E as <- <-]. apply st_bind_inv in E as [(same & s3 & Es & E)|(y & Es & ->)].
      - pose proof (already_Ok _ _ _ _ _ _ Es) as [-> Hs]. destruct same; [|by injection E as <- <-].
        destruct (proj1 Hs eq_refl) as (d & Hd & _). rewrite Hkeep, Hv in Hd by done. discriminate.
      - apply already_state in Es as ->. done. }
    split; [intros n _ Hn; by apply Hkeep|]. left. split; [by rewrite Hkeep|done].
  - injection E as <- <-. split; [intros n Hnv Hn; by rewrite lookup_insert_ne, lookup_delete_ne, Hkeep|]. right.
    split; [done|]. split; [by rewrite lookup_insert_ne, lookup_delete_eq by done|]. exists d. split; [apply lookup_insert_eq|].
    rewrite Hd2 in Hd. injection Hd as <-. split; [|done]. by rewrite Ho2.
Qed.

(** Staging: the version is absent before, and absent or complete after. *)
Lemma stage_inv version jb mb s r s' :
  startswith version "." = false -> s !! version = None -> stage e version jb mb s = (r, s') ->
  (s' = s \/ exists staged, s !! staged = None /\ startswith staged "." = true /\
     forall n, n <> version -> n <> staged -> s' !! n = s !! n) /\
  (s' !! version = None \/ exists d, s' !! version = Some d /\ complete jb mb d) /\
  (r = Ok tt -> exists d, s' !! version = Some d /\ complete jb mb d).
Proof.
  intros Hv Hn. unfold stage. intros [(-> & x & ->)|(staged & Hs & Hp & E)]%mkdtemp_inv; [split_and!; auto; done|].
  assert (Hdot : startswith staged "." = true).
  { apply startswith_split in Hp as ->. change ".report-"%string with ("." +:+ "report-")%string. rewrite sapp_assoc. apply startswith_app. }
  assert (Hne : staged <> version) by congruence. unfold finally_st in E. fold (staging version staged jb mb) in E.
  destruct (staging version staged jb mb _) as [r1 s1] eqn:E1. apply staging_inv in E1 as [Hk Hc]; [|done..].
  assert (Hf : (forall n, n <> staged -> s' !! n = s1 !! n) /\ (r = r1 \/ exists x, r = Raise x)).
  { cbn in E. unfold mbind, st_bind, get_st in E. destruct (s1 !! staged) as [d|] eqn:Ed.
    - rewrite bool_decide_eq_true_2 in E by done. unfold call in E. destruct (fault e RemoveStaged); injection E as <- <-; [eauto|].
      split; [intros n Hn'; by rewrite lookup_delete_ne|auto].
    - rewrite bool_decide_eq_false_2 in E by (by intros []). injection E as <- <-. auto. }
  destruct Hf as [Hf Hr]. split_and!.
  - right. exists staged. split_and!; [done..|]. intros n Hnv Hns. by rewrite Hf, Hk.
  - rewrite Hf by done. destruct Hc as [[Hc _]|(_ & _ & Hc)]; auto.
  - intros ->. rewrite Hf by done. destruct Hc as [[_ Hc]|(_ & _ & Hc)]; [|done]. destruct Hr as [<-|[x [=]]]. done.
Qed.

Lemma hidden_name q prefix n : startswith q ("." +:+ prefix) = true -> startswith n "." = false -> q <> n.
Proof. intros Hp Hn ->. apply startswith_split in Hp. rewrite Hp in Hn. by rewrite sapp_assoc, startswith_app in Hn. Qed.

(** A complete version is found, when its files can be read. *)
Lemma already_complete version jb mb s d :
  s !! version = Some d -> complete jb mb d -> fault e ReadJson = None -> fault e ReadMarkdown = None ->
  published_already e version jb mb s = (Ok true, s).
Proof.
  intros Hd [Hj Hm] Hf1 Hf2. unfold published_already, read_file, call, mbind, st_bind, get_st.
  rewrite Hf1. cbn. rewrite Hd. cbn. rewrite Hj. cbn. rewrite String.eqb_refl, Hf2. cbn. rewrite Hd. cbn. rewrite Hm. cbn.
  by rewrite String.eqb_refl.
Qed.

(** Quarantine moves the version away, or nothing but an empty directory that was
    made for it is left. *)
Lemma quarantine_inv version s r s' :
  startswith version "." = false -> quarantine e version s = (r, s') ->
  ((exists x, r = Raise x) /\
   (s' = s \/ exists name, s !! name = None /\ startswith name ".invalid-" = true /\ s' = <[name := ∅]> s)) \/
  exists name d, r = Ok tt /\ s !! name = None /\ startswith name ".invalid-" = true /\ s !! version = Some d /\
    s' = <[name := d]> (delete version s).
Proof.
  intros Hv. unfold quarantine. intros [(-> & Hr)|(name & Hn & Hp & E)]%mkdtemp_inv; [left; auto|].
  pose proof (hidden_name _ "invalid-" _ Hp Hv).
  apply call_inv in E as [E|(-> & Hr)]; [|left; split; [done|]; right; by exists name].
  apply st_bind_inv in E as [(u' & s1 & E1 & E)|(x & [=] & _)]. injection E1 as _ <-.
  rewrite delete_insert_id in E by done.
  apply move_dir_inv in E as [[-> Hr]|(d & -> & Hd & _ & ->)]; [left; auto|right|by apply not_eq_sym]. by exists name, d.
Qed.

(** The version is kept, absent, or complete; what it held is not lost. *)
Record published (version jb mb : string) (s s' : directories) (r : res unit) : Prop := {
  pb_version : s' !! version = s !! version \/ s' !! version = None \/
               exists d, s' !! version = Some d /\ complete jb mb d;
  pb_done : r = Ok tt -> exists d, s' !! version = Some d /\ complete jb mb d;
  pb_others : forall n, n <> version -> startswith n "." = false -> s' !! n = s !! n;
  pb_kept : forall d, s !! version = Some d -> s' !! version = Some d \/
              exists q, startswith q ".invalid-" = true /\ s' !! q = Some d
}.

Lemma stage_published version jb mb s0 s r s' :
  startswith version "." = false -> s !! version = None -> stage e version jb mb s = (r, s') ->
  (forall n, n <> version -> startswith n "." = false -> s !! n = s0 !! n) ->
  (forall d, s0 !! version = Some d -> exists q, startswith q ".invalid-" = true /\ s !! q = Some d) ->
  published version jb mb s0 s' r.
Proof.
  intros Hv Hn (Hk & Hver & Hok)%stage_inv Ho Hq; [|done..]. constructor; [by right|done|..].
  - intros n Hne Hd. rewrite <- Ho by done. destruct Hk as [->|(staged & _ & Hdot & Hk)]; [done|]. apply Hk; [done|congruence].
  - intros d Hd. right. destruct (Hq d Hd) as (q & Hp & Hqd). exists q. split; [done|].
    destruct Hk as [->|(staged & Hs & _ & Hk)]; [done|]. rewrite Hk; [done|congruence..].
Qed.

(** Whether the version is found complete: an [OSError] is taken for a no. *)
Lemma found_inv version jb mb s d0 r s' :
  s !! version = Some d0 -> try_st (published_already e version jb mb) is_OSError (fun _ => mret false) s = (r, s') ->
  s' = s /\ (r = Ok true -> complete jb mb d0) /\
  (complete jb mb d0 -> fault e ReadJson = None -> fault e ReadMarkdown = None -> r = Ok true).
Proof.
  intros Hd. unfold try_st. destruct (published_already e version jb mb s) as [[b|x] s2] eqn:Ep.
  - intros [= <- <-]. pose proof (already_Ok _ _ _ _ _ _ Ep) as [-> Hb]. split_and!; [done|..].
    + intros [= ->]. destruct (proj1 Hb eq_refl) as (d & Hd' & Hc). rewrite Hd in Hd'. by injection Hd' as <-.
    + intros Hc _ _. f_equal. apply Hb. eauto.
  - pose proof (already_state _ _ _ _ _ _ Ep) as ->. intros E. assert (s' = s /\ r <> Ok true) as [-> Hr].
    { destruct (is_OSError x); by injection E as <- <-. }
    split_and!; [done..|]. intros Hc Hf1 Hf2. rewrite (already_complete _ _ _ _ _ Hd Hc Hf1 Hf2) in Ep. discriminate.
Qed.

Lemma publish_inv version jb mb s r s' :
  startswith version "." = false -> publish e version jb mb s = (r, s') ->
  published version jb mb s s' r /\
  ((exists d, s !! version = Some d /\ complete jb mb d) -> fault e ReadJson = None -> fault e ReadMarkdown = None ->
   r = Ok tt /\ s' = s).
Proof.
  intros Hv. unfold publish. intros [(there & s1 & E1 & E)|(x & [=] & _)]%st_bind_inv. injection E1 as <- <-.
  destruct (s !! version) as [d0|] eqn:Ed0.
  2: { rewrite bool_decide_eq_false_2 in E by (by intros []). split; [|by intros (d & [=] & _)].
       eapply stage_published; eauto. intros d Hd. congruence. }
  rewrite bool_decide_eq_true_2 in E by done.
  assert (Hsame : forall r0, (r0 = Ok tt -> complete jb mb d0) -> published version jb mb s s r0).
  { intros r0 Hr0. constructor; [by left|intros ->; exists d0; by split; [|apply Hr0]|done|intros d ->; by left]. }
  apply st_bind_inv in E as [(same & s1 & E1 & E)|(x & E1 & ->)]; apply (found_inv _ _ _ _ _ _ _ Ed0) in E1 as (-> & Ht & Hf).
  2: { split; [by apply Hsame|]. intros (d & [= <-] & Hc) Hf1 Hf2. by specialize (Hf Hc Hf1 Hf2). }
  destruct same; [injection E as <- <-; split; [|done]; apply Hsame; auto|].
  split; [|intros (d & [= <-] & Hc) Hf1 Hf2; by specialize (Hf Hc Hf1 Hf2)].
  apply st_bind_inv in E as [(u & s1 & E2 & E)|(x & E2 & ->)].
  - apply quarantine_inv in E2 as [((y & [=]) & _)|(q & d & _ & Hq & Hp & Hd & ->)]; [|done].
    pose proof (hidden_name _ "invalid-" _ Hp Hv) as Hqv.
    eapply stage_published; [done| |exact E|..].
    + by rewrite lookup_insert_ne, lookup_delete_eq.
    + intros n Hn Hdot. pose proof (hidden_name _ "invalid-" _ Hp Hdot) as Hqn. by rewrite lookup_insert_ne, lookup_delete_ne.
    + intros d' Hd'. exists q. split; [done|]. rewrite lookup_insert_eq. congruence.
  - apply quarantine_inv in E2 as [(_ & [->|(q & _ & Hp & ->)])|(q & d & [=] & _)]; [by apply Hsame| |done].
    pose proof (hidden_name _ "invalid-" _ Hp Hv). constructor; [|done|..].
    + left. by rewrite lookup_insert_ne.
    + intros n Hn Hdot. pose proof (hidden_name _ "invalid-" _ Hp Hdot). by rewrite lookup_insert_ne.
    + intros d Hd. left. rewrite lookup_insert_ne by done. congruence.
Qed.

(** C23. Publication is atomic, whatever calls to the file system fail: the
    directory of the version is what it was, or absent, or it holds exactly the two
    files of the report, and it does when publication returns.  No other version is
    touched, and a directory that was in the way is kept in quarantine.  A version
    that is already complete, and can be read, is left as it is. *)
Theorem publication_is_atomic version jb mb s r s' :
  startswith version "." = false -> publish e version jb mb s = (r, s') ->
  published version jb mb s s' r /\
  ((exists d, s !! version = Some d /\ complete jb mb d) -> fault e ReadJson = None -> fault e ReadMarkdown = None ->
   r = Ok tt /\ s' = s).
Proof. apply publish_inv. Qed.
End Publish.

(** ** [support-demo evaluate] *)

Section Supported.
Context `{Rfc8785} `{Unicode} `{!Rfc8785Laws}.

Lemma version_visible r : canonical_digest (report_body r) = Ok (wr_report_digest r) -> startswith (version_of r) "." = false.
Proof.
  unfold canonical_digest, version_of. intros (b & _ & E)%bind_Ok.
  assert (wr_report_digest r = "sha256:" +:+ sha256_hexdigest b) as -> by (unfold sha256_digest in E; congruence).
  rewrite removeprefix_app.
  destruct (sha256_hexdigest_shape b) as [_ Hh]. destruct (sha256_hexdigest b) as [|c h]; [done|]. cbn in Hh. bool_simp.
  assert (c <> "."%char) by (intros ->; done). unfold startswith. cbn [String.prefix]. by destruct (ascii_dec "." c).
Qed.

(** What an executed case reports: an autonomous action has the authority of every
    policy that decides, and none of them asks a human. *)
Lemma execution_authorized c contract plan report :
  case_ok c -> discover c = Ok contract -> execute_workflow c contract plan = Ok report ->
  (wr_status report = "COMPLETED"%string -> wr_unresolved_questions report = [] /\
     forall p, decides c p -> pr_action p = wr_selected_action report /\ pr_human_question p = ""%string) /\
  (wr_status report <> "COMPLETED"%string ->
     wr_status report = "NEEDS_HUMAN_DECISION"%string /\ wr_unresolved_questions report <> []).
Proof.
  intros Hc Hd He. apply (execute_Ok c contract plan report Hc) in He as (_ & _ & _ & Hr).
  assert (wr_status report = report_status contract /\ wr_selected_action report = dc_selected_action contract /\
          wr_unresolved_questions report = dc_unresolved_questions contract) as (-> & -> & ->).
  { unfold report_of in Hr. simp_res. by subst. }
  pose proof (discovery_cases c contract Hc Hd) as Hcases. unfold report_status.
  destruct Hcases as [(Hs & Hq & Hp)|(Hs & Hq)]; rewrite Hs; cbn; [split; [|done]|split; [done|]]; auto.
Qed.

(** No case completes with an action that its policies do not authorize: over
    any cases of a visible corpus that loads, such as the held-out ones, the
    evaluation's count of unsupported autonomous actions is zero. *)
Theorem no_unsupported_action file cases held_out evaluated :
  load_visible_cases file = Ok cases -> (forall c, c ∈ held_out -> c ∈ cases) ->
  evaluate_cases held_out = Ok evaluated -> unsafe evaluated = 0%nat.
Proof.
  intros (_ & Hall & _)%load_ok Hin E. assert (Hc : Forall case_ok held_out).
  { rewrite Forall_forall in *. auto. }
  clear Hall Hin. unfold unsafe. rewrite (proj2 (filter_nil_iff unsupported evaluated)); [done|].
  unfold evaluate_cases in E. apply mapM_Ok in E. revert Hc. induction E as [|c q held_out qs Eq _ IH]; [by constructor|].
  intros [Hc Hcs]%Forall_cons. constructor; [|by apply IH]. apply bind_Ok in Eq as (contract & Ed & Eq).
  apply bind_Ok in Eq as (plan & Ep & Eq). apply bind_Ok in Eq as (report & Ee & [= <-]). cbn.
  destruct (String.eqb_spec (wr_status report) "COMPLETED") as [Es|]; [|done]. cbn. apply negb_false_iff, str_in_elem.
  destruct (proj1 (execution_authorized _ _ _ _ Hc Ed Ee) Es) as [_ Hall].
  destruct (selected_nonempty c Hc) as [p Hp%selected_spec]; [|done]. destruct (Hall p Hp) as [<- _].
  destruct (discovery_refs c contract Hc Ed) as [Hr Hf].
  apply list_elem_of_fmap_2. apply list_elem_of_In, filter_In. split; [by apply list_elem_of_In, Hp|].
  rewrite andb_true_iff, !str_in_elem. split; [apply Hr|apply Hf]; eauto.
Qed.
End Supported.

(** ** [support-demo run] *)

Section Runs.
Context `{Rfc8785} `{Unicode} `{!Rfc8785Laws}.
Variable e : publish_env.
Hypothesis fresh : forall prefix used, fresh_name e prefix used ∉ used /\ startswith (fresh_name e prefix used) prefix = true.

Lemma lift_bind_Ok {A B} (m : res A) (k : A -> st directories B) s r s' :
  (lift_res m ≫= k) s = (Ok r, s') -> exists a, m = Ok a /\ k a s = (Ok r, s').
Proof. intros (a & s1 & [= -> ->] & E)%st_bind_Ok. eauto. Qed.

Lemma write_report_Ok c contract plan report s paths s' :
  write_workflow_report e c contract plan report s = (Ok paths, s') ->
  execute_workflow c contract plan = Ok report /\
  exists bytes d, canonical_json_bytes (report_dict report) = Ok bytes /\ s' !! version_of report = Some d /\
    complete (bytes +:+ newline) (markdown report) d /\
    forall n, n <> version_of report -> startswith n "." = false -> s' !! n = s !! n.
Proof.
  unfold write_workflow_report. intros (verified & Ev & E)%lift_bind_Ok. apply lift_bind_Ok in E as (u & Eu & E).
  destruct verified; [|discriminate]. apply verify_report_true in Ev as [He _].
  apply lift_bind_Ok in E as (bytes & Eb & E). apply st_bind_Ok in E as ([] & s1 & Ep & E). injection E as _ <-.
  split; [done|]. apply (publish_inv e fresh) in Ep as [[_ Hd Ho _] _].
  - destruct (Hd eq_refl) as (d & Hd' & Hc). eauto 10.
  - apply version_visible. by eapply execute_body.
Qed.

(** The parts of a run that returns. *)
Lemma run_Ok file case_id s code report s' :
  _cmd_run e file case_id s = (Ok (code, report), s') ->
  exists cases c contract plan s1 paths, load_visible_cases file = Ok cases /\ c ∈ cases /\
    (forall i, case_id = Some i -> i <> ""%string -> sc_case_id c = i) /\
    discover c = Ok contract /\ compile_workflow contract = Ok plan /\ execute_workflow c contract plan = Ok report /\
    write_workflow_report e c contract plan report s = (Ok paths, s1) /\ s' = s1 /\
    code = (if String.eqb (wr_status report) "NEEDS_HUMAN_DECISION" then 3 else 0).
Proof.
  unfold _cmd_run. intros (cases & Ec & E)%lift_bind_Ok.
  apply try_except_Ok in Ec as [Ec|(x & _ & _ & Ex)]; [|by destruct x].
  apply lift_bind_Ok in E as (c & Es & E). apply from_option_Ok, last_Some_elem_of in Es.
  apply list_elem_of_In, filter_In in Es as [Hin Hid]. apply list_elem_of_In in Hin. apply String.eqb_eq in Hid.
  apply lift_bind_Ok in E as (contract & Ed & E). apply lift_bind_Ok in E as (plan & Ep & E).
  apply lift_bind_Ok in E as (report' & Er & E). apply st_bind_Ok in E as (paths & s1 & Ew & E). injection E as <- <- <-.
  exists cases, c, contract, plan, s1, paths. split_and!; try done.
  intros i -> Hi. rewrite Hid. unfold nonempty. apply String.eqb_neq in Hi. by rewrite Hi.
Qed.

(** A run of [support-demo] that returns has published the report of one of
    the loaded cases: its exit code is 0 exactly when the case completed, with an
    action that every policy that decides authorizes and no open question, and 3
    when it is left to a human, with a question; and the version of the report
    holds its canonical text and its page, every other version being untouched. *)
Theorem support_run_publishes file case_id s code report s' :
  _cmd_run e file case_id s = (Ok (code, report), s') ->
  exists cases c contract plan, load_visible_cases file = Ok cases /\ c ∈ cases /\
    (forall i, case_id = Some i -> i <> ""%string -> sc_case_id c = i) /\ wr_case_id report = sc_case_id c /\
    discover c = Ok contract /\ compile_workflow contract = Ok plan /\ execute_workflow c contract plan = Ok report /\
    (code = 0 /\ wr_status report = "COMPLETED"%string /\ wr_unresolved_questions report = [] /\
       (forall p, decides c p -> pr_action p = wr_selected_action report /\ pr_human_question p = ""%string)
     \/ code = 3 /\ wr_status report = "NEEDS_HUMAN_DECISION"%string /\ wr_unresolved_questions report <> []) /\
    exists bytes d, canonical_json_bytes (report_dict report) = Ok bytes /\ s' !! version_of report = Some d /\
      complete (bytes +:+ newline) (markdown report) d /\
      forall n, n <> version_of report -> startswith n "." = false -> s' !! n = s !! n.
Proof.
  intros (cases & c & contract & plan & s1 & paths & Ec & Hin & Hid & Ed & Ep & Er & Ew & -> & ->)%run_Ok.
  destruct (load_ok _ _ Ec) as (_ & Hall & _). rewrite Forall_forall in Hall. specialize (Hall c Hin).
  apply write_report_Ok in Ew as [_ Hp]. exists cases, c, contract, plan. split_and!; try done.
  - pose proof (proj1 (execute_Ok c contract plan report Hall) Er) as (_ & _ & _ & Hr).
    unfold report_of in Hr. simp_res. by subst.
  - destruct (execution_authorized c contract plan report Hall Ed Er) as [H3 H4].
    destruct (decide (wr_status report = "COMPLETED"%string)) as [Hs|Hs]; [left|right].
    + rewrite Hs. destruct (H3 Hs). done.
    + destruct (H4 Hs) as [-> Hq]. done.
Qed.
End Runs.
