(* ===== verification/SupportDemo.v ===== *)
(** * Visible support cases: a concrete run

    A corpus of one case whose stronger policy grants a refund, run from the text
    of the corpus to the published report, with the theorems at that run. *)
From Stdlib Require Import Ascii String.
From S2P Require Import Prelude Sha256 Json JsonText PyStr PyConv Canonical JsonSpec CanonicalFacts.
From S2P Require Import AcceptanceTheorems CheckTheorems Support SupportTheorems Workflow PublishTheorems.
From S2P Require Import Publish PublishTheorems.

#[local] Existing Instance ascii_unicode.

Section Demo.
Local Open Scope string_scope.

Definition value_of {A} (default : A) (r : res A) : A := match r with Ok a => a | Raise _ => default end.

Definition proof_fact : VisibleFact := {| vf_fact_id := "F1"; vf_text := "The parcel never arrived."; vf_source_id := "carrier" |}.
Definition window_fact : VisibleFact := {| vf_fact_id := "F2"; vf_text := "The order is 40 days old."; vf_source_id := "orders" |}.
Definition no_rule : PolicyRule := Build_PolicyRule "" "" 0 "" "" "" "" "".
Definition refund_rule : PolicyRule := Eval vm_compute in
  value_of no_rule (create_policy_rule "P1" "Lost parcels are refunded." 10 "refund" proof_fact "").
Definition reject_rule : PolicyRule := Eval vm_compute in
  value_of no_rule (create_policy_rule "P2" "Late claims are rejected." 5 "reject" window_fact "").
Definition demo_case : SupportCase := {|
  sc_case_id := "case-1"; sc_split := "development"; sc_ticket_text := "Where is my parcel?";
  sc_facts := [proof_fact; window_fact]; sc_policies := [reject_rule; refund_rule]; sc_product_constraints := [] |}.
Definition demo_corpus : string :=
  json_dumps (JObj [("schema_version", JStr "1.0.0"); ("cases", JArr [case_dict demo_case])]).

Definition no_contract : DecisionContract := Build_DecisionContract "" "" "" "" "" "" [] [] [] "".
Definition refund_contract : DecisionContract := Eval vm_compute in value_of no_contract (discover demo_case).
Definition refund_plan : ExecutableWorkflowPlan := Eval vm_compute in
  value_of (Build_ExecutableWorkflowPlan "" "" "" [] "") (compile_workflow refund_contract).
Definition refund_report : WorkflowReport := Eval vm_compute in
  value_of (Build_WorkflowReport "" "" "" "" "" "" "" "" [] [] false "")
    (report_of demo_case refund_contract refund_plan (dc_input_digest refund_contract)).

(** Fresh names that are longer than every name in use. *)
Definition longer_name (prefix : string) (used : gset string) : string := prefix +:+ String.concat "" (elements used) +:+ "x".
Definition disk (fault : io_call -> option exn) : publish_env :=
  {| fault := fault; fresh_name := longer_name; written_before_fault := "partial" |}.
Definition working_disk : publish_env := disk (fun _ => None).
Definition full_disk : publish_env :=
  disk (fun c => match c with WriteTemporary name => if String.eqb name markdown_name then Some (OSError "No space left") else None
                 | _ => None end).

Lemma concat_length (l : list string) x : x ∈ l -> (String.length x <= String.length (String.concat "" l))%nat.
Proof.
  induction l as [|y l IH]; [by intros []%not_elem_of_nil|]. intros [->|Hx]%elem_of_cons; destruct l as [|z l]; cbn [String.concat].
  - done.
  - rewrite sapp_length. lia.
  - by apply not_elem_of_nil in Hx.
  - specialize (IH Hx). rewrite !sapp_length. cbn [String.concat] in IH. lia.
Qed.
Lemma longer_fresh prefix used : longer_name prefix used ∉ used /\ startswith (longer_name prefix used) prefix = true.
Proof.
  split; [|apply startswith_app]. intros Hin. apply elem_of_elements, concat_length in Hin. unfold longer_name in Hin.
  rewrite !sapp_length in Hin. cbn [String.length] in Hin. lia.
Qed.

#[local] Abbreviation demo_run e := (_cmd_run e (Ok demo_corpus) None ∅).

Lemma demo_loads : load_visible_cases (Ok demo_corpus) = Ok [demo_case].
Proof. vm_compute. reflexivity. Qed.
Lemma demo_discovers : discover demo_case = Ok refund_contract.
Proof. vm_compute. reflexivity. Qed.
Lemma demo_publishes : fst (demo_run working_disk) = Ok (0, refund_report).
Proof. vm_compute. reflexivity. Qed.

(** The plan of the run, and its report. *)
Lemma demo_executes :
  exists plan, compile_workflow refund_contract = Ok plan /\
    execute_workflow demo_case refund_contract plan = Ok refund_report.
Proof.
  destruct (run_Ok working_disk (Ok demo_corpus) None ∅ 0 refund_report (snd (demo_run working_disk)))
    as (cases & c & contract & plan & _ & _ & Hl & Hc & _ & Hd & Hp & He & _).
  { rewrite <- demo_publishes. apply surjective_pairing. }
  rewrite demo_loads in Hl. injection Hl as <-. apply list_elem_of_singleton in Hc as ->.
  rewrite demo_discovers in Hd. injection Hd as <-. eauto.
Qed.
Lemma demo_evaluates : evaluate_cases [demo_case] = Ok [(demo_case, refund_contract, refund_report)].
Proof.
  destruct demo_executes as (plan & Hp & He). unfold evaluate_cases. cbn [res_mapM]. rewrite demo_discovers. cbn [mbind res_bind].
  rewrite Hp. cbn [mbind res_bind]. by rewrite He.
Qed.

Lemma demo_case_ok : case_ok demo_case.
Proof. destruct (load_ok _ _ demo_loads) as (_ & Hall & _). by apply Forall_cons in Hall as [? _]. Qed.

Lemma demo_decides : decides demo_case refund_rule.
Proof.
  split; [apply list_elem_of_further, list_elem_of_here|].
  intros q [->|[->|[]%not_elem_of_nil]%elem_of_cons]%elem_of_cons; vm_compute; discriminate.
Qed.

Lemma discovery_follows_policies_witness :
  dc_selected_action refund_contract = pr_action refund_rule /\ "P1" ∈ dc_action_rule_refs refund_contract.
Proof.
  destruct (discovery_follows_policies demo_case refund_contract demo_case_ok demo_discovers)
    as (Hr & _ & Ha & _). split.
  - apply Ha; [exact demo_decides|]. intros q [Hq Hmax].
    assert (q = reject_rule \/ q = refund_rule) as [->| ->] by set_solver; [|reflexivity].
    exfalso. specialize (Hmax refund_rule (proj1 demo_decides)). vm_compute in Hmax. by apply Hmax.
  - apply Hr. exists refund_rule. split; [exact demo_decides|reflexivity].
Defined.

Lemma discovery_decides_witness :
  (exists d, discover demo_case = Ok d) \/ exists v x, canonical_digest v = Raise x /\ discover demo_case = Raise x.
Proof. exact (discovery_decides demo_case demo_case_ok). Defined.

Lemma execution_iff_witness :
  exists plan, compile_workflow refund_contract = Ok plan /\
    report_of demo_case refund_contract plan (dc_input_digest refund_contract) = Ok refund_report.
Proof.
  destruct demo_executes as (plan & Hp & He). exists plan. split; [exact Hp|].
  exact (proj2 (proj2 (proj2 (proj1 (execution_iff demo_case refund_contract plan refund_report demo_case_ok) He)))).
Defined.

Lemma report_digest_names_report_witness :
  refund_report = refund_report \/ text_collision (report_body refund_report) (report_body refund_report).
Proof.
  destruct demo_executes as (plan & _ & He). exact (report_digest_names_report _ _ _ _ _ _ _ _ He He eq_refl).
Defined.

Lemma publication_is_atomic_witness :
  published "v" "json" "page" ∅ (snd (publish full_disk "v" "json" "page" ∅)) (fst (publish full_disk "v" "json" "page" ∅)).
Proof.
  exact (proj1 (publication_is_atomic full_disk longer_fresh "v" "json" "page" ∅ _ _ eq_refl (surjective_pairing _))).
Defined.

Lemma no_unsupported_action_witness : unsafe [(demo_case, refund_contract, refund_report)] = 0%nat.
Proof. exact (no_unsupported_action _ _ _ _ demo_loads (fun c Hc => Hc) demo_evaluates). Defined.

Lemma support_run_publishes_witness :
  exists d, snd (demo_run working_disk) !! version_of refund_report = Some d /\
    d !! markdown_name = Some (markdown refund_report).
Proof.
  destruct (support_run_publishes working_disk longer_fresh (Ok demo_corpus) None ∅ 0 refund_report (snd (demo_run working_disk)))
    as (cases & c & contract & plan & _ & _ & _ & _ & _ & _ & _ & _ & bytes & d & _ & Hd & [_ Hm] & _).
  - rewrite <- demo_publishes. apply surjective_pairing.
  - exists d. split; [exact Hd|exact Hm].
Defined.
End Demo.
