(* ===== verification/JsonBytes.v ===== *)
(** * [json.loads] of bytes

    [json.detect_encoding] looks at the first bytes of a document for a byte
    order mark or for the zero bytes of UTF-16 and UTF-32; the text is decoded
    with the error handler [surrogatepass], which lets surrogates through. *)
From Stdlib Require Import Ascii String.
From S2P Require Import Prelude Json JsonText.

(** ** [json.detect_encoding] *)

Inductive encoding : Type :=
  | utf_8 (sig : bool)
  | utf_16 (big : bool) (mark : bool)
  | utf_32 (big : bool) (mark : bool).

Definition bom (l : list N) : string := foldr (fun n acc => String (chr_n n) acc) ""%string l.
Definition BOM_UTF8 : string := bom [239; 187; 191]%N.
Definition BOM_UTF16_LE : string := bom [255; 254]%N.
Definition BOM_UTF16_BE : string := bom [254; 255]%N.
Definition BOM_UTF32_LE : string := bom [255; 254; 0; 0]%N.
Definition BOM_UTF32_BE : string := bom [0; 0; 254; 255]%N.

Definition is_zero (c : ascii) : bool := (byte_n c =? 0)%N.

Definition detect_encoding (b : string) : encoding :=
  if startswith b BOM_UTF32_BE then utf_32 true true
  else if startswith b BOM_UTF32_LE then utf_32 false true
  else if startswith b BOM_UTF16_BE then utf_16 true true
  else if startswith b BOM_UTF16_LE then utf_16 false true
  else if startswith b BOM_UTF8 then utf_8 true
  else match b with
       | String b0 (String b1 (String b2 (String b3 _))) =>
           if is_zero b0 then (if is_zero b1 then utf_32 true false else utf_16 true false)
           else if is_zero b1 then (if is_zero b2 && is_zero b3 then utf_32 false false else utf_16 false false)
           else utf_8 false
       | String b0 (String b1 EmptyString) =>
           if is_zero b0 then utf_16 true false else if is_zero b1 then utf_16 false false else utf_8 false
       | _ => utf_8 false
       end.

(** ** [bytes.decode(encoding, "surrogatepass")] *)

(** The code units of [size] bytes each: [None] when the last one is cut. *)
Definition unit_value (big : bool) (l : list N) : N :=
  fold_left (fun acc b => 256 * acc + b)%N (if big then l else rev l) 0%N.

Fixpoint units16 (big : bool) (s : string) : option (list N) :=
  match s with
  | EmptyString => Some []
  | String a (String b s') => us ← units16 big s'; Some (unit_value big [byte_n a; byte_n b] :: us)
  | _ => None
  end.
Fixpoint units32 (big : bool) (s : string) : option (list N) :=
  match s with
  | EmptyString => Some []
  | String a (String b (String c (String d s'))) =>
      us ← units32 big s'; Some (unit_value big [byte_n a; byte_n b; byte_n c; byte_n d] :: us)
  | _ => None
  end.

(** A high surrogate in front of a low one makes one code point. *)
Fixpoint join_units (us : list N) : list N :=
  match us with
  | hi :: ((lo :: us') as tail) =>
      if is_high hi && is_low lo then join_surrogates hi lo :: join_units us' else hi :: join_units tail
  | _ => us
  end.

Definition undecodable {A} : res A := Raise (UnicodeDecodeError "invalid data").

Definition decode_pass (e : encoding) (b : string) : res string :=
  match e with
  | utf_8 sig =>
      let b := if sig then drop_str 3 b else b in
      if utf8_valid_with true (String.length b) b then Ok b else undecodable
  | utf_16 big mark =>
      match units16 big (if mark then drop_str 2 b else b) with
      | Some us => Ok (utf8_encode_all (join_units us))
      | None => undecodable
      end
  | utf_32 big mark =>
      match units32 big (if mark then drop_str 4 b else b) with
      | Some us => if forallb (fun cp => cp <? 1114112)%N us then Ok (utf8_encode_all us) else undecodable
      | None => undecodable
      end
  end.

(** [json.loads(encoded)]. *)
Definition json_loads_bytes (b : string) : res json :=
  text ← decode_pass (detect_encoding b) b; json_loads default_hooks text.

(** ** Examples: one document in every encoding *)

Example loads_every_encoding :
  map json_loads_bytes
    ["[1]"; BOM_UTF8 +:+ "[1]"; bom [91; 0; 49; 0; 93; 0]; bom [0; 91; 0; 49; 0; 93];
     bom [255; 254; 91; 0; 49; 0; 93; 0]; bom [91; 0; 0; 0; 49; 0; 0; 0; 93; 0; 0; 0];
     bom [0; 0; 254; 255; 0; 0; 0; 91; 0; 0; 0; 49; 0; 0; 0; 93]]%string%N
  = repeat (Ok (JArr [JInt 1])) 7.
Proof. vm_compute. reflexivity. Qed.

(** ** ASCII documents *)

Definition no_zero (s : string) : bool := string_forallb (fun c => negb (is_zero c)) s.
