(* ===== verification/EngineeringLedger.v ===== *)
(** * The engineering evidence ledger ([engineering/ledger.py])

    One JSON document per line, appended by [record] and read back by
    [read_all].  The file is its bytes, so that a line the machine cut short is a
    state of the model: [_read_all] repairs it for a keyed record. *)
From Stdlib Require Import Ascii String.
From S2P Require Import Prelude Json JsonText Canonical JsonBytes.

(** ** [bytes.splitlines(keepends=True)] and [bytes.strip] *)

Definition LF : ascii := chr_n 10.
Definition CR : ascii := chr_n 13.

Fixpoint byte_lines (s : string) : list string :=
  match s with
  | EmptyString => []
  | String c s' =>
      if Ascii.eqb c LF then String c "" :: byte_lines s'
      else if Ascii.eqb c CR then
        match s' with
        | String d s'' => if Ascii.eqb d LF then String c (String d "") :: byte_lines s''
                          else String c "" :: byte_lines s'
        | EmptyString => [String c ""]
        end
      else match byte_lines s' with
           | [] => [String c ""]
           | line :: lines => String c line :: lines
           end
  end.

Definition byte_space (c : ascii) : bool := is_ws c || (byte_n c =? 11)%N || (byte_n c =? 12)%N.
Definition blank_line (encoded : string) : bool := string_forallb byte_space encoded.

(** [encoded.endswith((b"\n", b"\r"))]. *)
Fixpoint complete (encoded : string) : bool :=
  match encoded with
  | EmptyString => false
  | String c EmptyString => Ascii.eqb c LF || Ascii.eqb c CR
  | String _ rest => complete rest
  end.

(** ** The ledger of a run: the run directory, the file, the depth of the lock *)

Record EvidenceLedger : Type := { run_dir : bool; contents : option string; depth : nat }.
Abbreviation op := (st EvidenceLedger).

Definition set_contents (c : string) : op unit :=
  modify_st (fun s => {| run_dir := run_dir s; contents := Some c; depth := depth s |}).
Definition set_depth (n : nat) : op unit :=
  modify_st (fun s => {| run_dir := run_dir s; contents := contents s; depth := n |}).
Definition make_run_dir : op unit :=
  modify_st (fun s => {| run_dir := true; contents := contents s; depth := depth s |}).

(** [open("a")] and [open("ab")] create the file. *)
Definition file_bytes (s : EvidenceLedger) : string := default ""%string (contents s).
Definition append_bytes (b : string) : op unit := old ← get_st file_bytes; set_contents (old +:+ b).

Fixpoint prefix_bytes (n : nat) (s : string) : string :=
  match n, s with S n', String c s' => String c (prefix_bytes n' s') | _, _ => ""%string end.
Definition truncate_bytes (n : nat) : op unit := old ← get_st file_bytes; set_contents (prefix_bytes n old).

Definition finally {A} (body : op A) (cleanup : op unit) : op A := fun s =>
  let (r, s') := body s in (r, snd (cleanup s')).

(** The lock is reentrant in a thread, and needs the run directory. *)
Definition exclusive {A} (body : op A) : op A :=
  depth_ ← get_st depth;
  match depth_ with
  | S _ => _ ← set_depth (S depth_); finally body (set_depth depth_)
  | O =>
      exists_ ← get_st run_dir;
      if (exists_ : bool)
      then _ ← set_depth 1; finally body (set_depth 0)
      else raise_st (ValueError "engineering run directory is missing")
  end.

(** ** Reading *)

Definition is_decode_error (e : exn) : bool :=
  match e with UnicodeDecodeError _ | JSONDecodeError _ => true | _ => false end.

(** The loop of [_read_all]: the lines left, the bytes read, the events. *)
Fixpoint read_lines (repair_truncated_tail : bool) (lines : list string) (valid_bytes : nat) (events : list json)
    : op (list json) :=
  match lines with
  | [] => mret events
  | encoded :: rest =>
      let tail := repair_truncated_tail && match rest with [] => true | _ => false end && negb (complete encoded) in
      if blank_line encoded
      then read_lines repair_truncated_tail rest (valid_bytes + String.length encoded) events
      else
        match json_loads_bytes encoded with
        | Ok event =>
            _ ← (if (tail : bool) then append_bytes (String LF "") else mret tt);
            read_lines repair_truncated_tail rest (valid_bytes + String.length encoded) (events ++ [event])
        | Raise e =>
            if is_decode_error e then
              if (tail : bool) then _ ← truncate_bytes valid_bytes; mret events
              else raise_st (ValueError "evidence ledger contains an invalid JSON event")
            else raise_st e
        end
  end.

Definition _read_all (repair_truncated_tail : bool) : op (list json) :=
  raw ← get_st contents;
  match raw with
  | None => mret []
  | Some raw => read_lines repair_truncated_tail (byte_lines raw) 0 []
  end.

(** The shared lock of [read_all] is released with the file it is taken on. *)
Definition read_all : op (list json) :=
  depth_ ← get_st depth;
  match depth_ with
  | S _ => _read_all false
  | O => _ ← make_run_dir; _read_all false
  end.

(** ** Recording *)

(** The arguments of [record]. *)
Record evidence : Type := {
  stage : string; agent : string; action : string;
  input_digests : list (string * json); output_digests : list (string * json);
  tool : string; verdict : string; escalation : string; next_state : string; detail : string;
  cost : option (list (string * json)); idempotency_key : string
}.

Definition identity_payload (run_id : string) (e : evidence) : list (string * json) := [
  ("run_id", JStr run_id); ("stage", JStr (stage e)); ("agent", JStr (agent e)); ("action", JStr (action e));
  ("input_digests", JObj (input_digests e)); ("output_digests", JObj (output_digests e));
  ("tool", JStr (tool e)); ("verdict", JStr (verdict e)); ("escalation", JStr (escalation e));
  ("next_state", JStr (next_state e)); ("detail", JStr (detail e));
  ("cost", match cost e with Some c => JObj c | None => JNull end);
  ("idempotency_key", JStr (idempotency_key e))
]%string.

Definition item_key (item : json) : res json :=
  match item with
  | JObj m => Ok (jget "idempotency_key" m)
  | _ => Raise (AttributeError "object has no attribute 'get'")
  end.

(** The first event with the key. *)
Fixpoint prior_event (key : string) (existing : list json) : res (option json) :=
  match existing with
  | [] => Ok None
  | item :: rest =>
      k ← item_key item;
      if py_eq k (JStr key) then Ok (Some item) else prior_event key rest
  end.

Definition comparable (payload : list (string * json)) (prior : json) : res json :=
  match prior with
  | JObj m => Ok (JObj (map (fun p => (fst p, jget (fst p) m)) payload))
  | _ => Raise (AttributeError "object has no attribute 'get'")
  end.

Section Record.
Context `{Rfc8785}.
Variable run_id : string.

Definition event_of (e : evidence) (recorded_at : string) : res (list (string * json)) :=
  let payload := identity_payload run_id e in
  event_id ← canonical_digest (JObj (if nonempty (idempotency_key e) then payload
                                     else payload ++ [("ts"%string, JStr recorded_at)]));
  Ok (payload ++ [("event_id", JStr event_id); ("ts", JStr recorded_at)]%string).

Definition event_line (event : list (string * json)) : string := json_dumps_sorted (JObj event) +:+ String LF "".

Definition append_event (event : list (string * json)) : op json :=
  _ ← append_bytes (event_line event); mret (JObj event).

(** The body of [record] under the lock. *)
Definition record_locked (e : evidence) (event : list (string * json)) : op json :=
  let payload := identity_payload run_id e in
  let key := idempotency_key e in
  existing ← _read_all (nonempty key);
  if nonempty key then
    prior ← lift_res (prior_event key existing);
    match prior with
    | Some prior =>
        c ← lift_res (comparable payload prior);
        if py_eq c (JObj payload) then mret prior
        else raise_st (ValueError "idempotency key was reused for different evidence")
    | None => append_event event
    end
  else append_event event.

(** [record]; [recorded_at] is [utc_now()]. *)
Definition record (e : evidence) (recorded_at : string) : op json :=
  event ← lift_res (event_of e recorded_at);
  exclusive (record_locked e event).
End Record.
