(* ===== verification/EngineeringLedgerFacts.v ===== *)
(** * Truncated JSON texts

    No proper prefix of the text of an object, an array or a string is read: a
    write that the machine interrupts is recognised.  (A prefix of an integer is
    an integer.)

    ** The engineering ledger: lemmas

    The lines of a log and of a log whose last line is cut short, and what
    [_read_all] makes of them. *)
From Stdlib Require Import SpecFloat Ascii String.
From Stdlib Require Import Ascii String.
From S2P Require Import Prelude Json JsonText Canonical JsonFacts JsonAscii TextFacts JsonBytes EngineeringLedger.

(** ** Prefixes *)

Lemma app_split (a b s : string) c q :
  a +:+ b = s +:+ String c q ->
  (exists c' u, a = s +:+ String c' u) \/ (exists s', s = a +:+ s' /\ b = s' +:+ String c q).
Proof.
  revert s. induction a as [|x a IH]; intros s E; [right; by exists s|].
  destruct s as [|y s]; [left; by exists x, a|]. cbn in E. injection E as <- E.
  destruct (IH s E) as [(c' & u & ->)|(s' & -> & Eb)]; [left; by exists c', u|right; by exists s'].
Qed.

Definition breaks (m : res (json * string)) : Prop := exists why, m = Raise (JSONDecodeError why).

Lemma breaks_malformed why : breaks (malformed why).
Proof. by exists why. Qed.
Lemma breaks_bind {A} (m : res A) (k : A -> res (json * string)) why : m = Raise (JSONDecodeError why) -> breaks (m ≫= k).
Proof. intros ->. by exists why. Qed.

(** ** Strings *)

(** The escape of a character, cut short. *)
Lemma trunc_u (cp : N) s c q : u_escape cp = s +:+ String c q -> scan_string s = None.
Proof.
  unfold u_escape. intros E.
  do 6 (destruct s as [|? s]; [reflexivity|cbn in E; injection E as <- E]). by destruct s.
Qed.

Lemma trunc_escape (cp : N) s c q : scalar cp = true -> escape_ascii cp = s +:+ String c q -> scan_string s = None.
Proof.
  unfold scalar. intros [Hs Hm%N.ltb_lt]%andb_prop. unfold escape_ascii.
  assert (Hshort : forall a b, String a (String b "") = s +:+ String c q -> a = "\"%char -> scan_string s = None).
  { intros a b E ->. destruct s as [|x s]; [done|]. cbn in E. injection E as <- E. by destruct s as [|y [|]]. }
  repeat match goal with |- context [N.eqb cp ?k] => destruct (N.eqb_spec cp k); [intros E; by eapply Hshort|] end.
  destruct (_ && _); [intros E; destruct s as [|? []]; done|].
  destruct (N.ltb_spec cp 65536); [by apply trunc_u|]. intros E.
  destruct (surrogate_pair cp) as ([Hhi Hlo] & Hh & _); [lia|].
  apply app_split in E as [(c' & u & E)|(s' & -> & E)]; [by eapply trunc_u|].
  apply trunc_u in E as E'. revert Hh Hhi E'.
  generalize (N.lor 55296 (N.land (N.shiftr (cp - 65536) 10) 1023)) as hi. intros hi Hh Hhi E'.
  assert (Hl : (String.length s' < 6)%nat).
  { apply (f_equal String.length) in E. rewrite sapp_length in E. cbn in E. lia. }
  unfold u_escape at 1. cbn -[hex4 hex_digit N.land N.shiftr]. rewrite hex4_digits by done. cbn -[scan_string]. rewrite Hh, E'.
  do 6 (destruct s' as [|? s']; [done|]). cbn in Hl. lia.
Qed.

Lemma trunc_chars (cps : list N) s c q :
  forallb scalar cps = true -> foldr (fun cp acc => escape_ascii cp +:+ acc) quote cps = s +:+ String c q ->
  scan_string s = None.
Proof.
  revert s. induction cps as [|cp cps IH]; cbn [foldr forallb]; intros s H E.
  - by destruct s as [|? []].
  - apply andb_prop in H as [Hc H]. apply app_split in E as [(c' & u & E)|(s' & -> & E)]; [by eapply trunc_escape|].
    rewrite scan_escape by done. by rewrite (IH s').
Qed.

Lemma trunc_dump_str k s c q :
  is_text k = true -> dump_str k = s +:+ String c q -> s = ""%string \/ exists s', s = String "034" s' /\ scan_string s' = None.
Proof.
  intros [Hk _]%andb_prop. unfold dump_str. destruct s as [|x s]; [by left|]. cbn. intros [= <- E]. right.
  exists s. split; [done|]. by eapply trunc_chars.
Qed.

(** ** Values *)

#[local] Arguments reverse : simpl never.

(** A value cut short is not read, a number cut short is another number. *)
Definition cut (t : string) : Prop :=
  forall f s c q, (2 * String.length s < f)%nat -> t = s +:+ String c q ->
    breaks (scan_value default_hooks f s) \/ exists v, scan_value default_hooks f s = Ok (v, ""%string).

Definition torn (t : string) : Prop :=
  forall f s c q, (2 * String.length s < f)%nat -> t = s +:+ String c q -> breaks (scan_value default_hooks f s).

Lemma torn_cut t : torn t -> cut t.
Proof. intros H f s c q Hf E. left. by eapply H. Qed.

Lemma break_at_end f : (0 < f)%nat -> breaks (scan_value default_hooks f "").
Proof. destruct f; [lia|]. intros _. apply breaks_malformed. Qed.

Lemma blank_prefix w s c q : blank w = true -> w = s +:+ String c q -> skip_ws s = ""%string.
Proof.
  intros H ->. unfold blank in H. rewrite string_forallb_app in H. apply andb_prop in H as [H _].
  rewrite <- (sapp_nil_r s). by rewrite skip_blank.
Qed.

Section Cut.
Variables w w'' : string.
Hypothesis Hw : blank w = true.
Hypothesis Hw'' : blank w'' = true.

Definition whole (t : string) : Prop := cut t /\ exists v, reads t v.

(** What follows an element: a comma and the next one, or the bracket. *)
Definition rest_text (ts : list string) (close : string) : string :=
  match ts with [] => close | t :: ts => "," +:+ w +:+ body_text w (t :: ts) +:+ close end.

Lemma body_rest t ts close : body_text w (t :: ts) +:+ close = t +:+ rest_text ts close.
Proof.
  destruct ts as [|t' ts]; [done|]. rewrite body_cons. cbn [rest_text]. by rewrite !sapp_assoc.
Qed.

(** A cut after a comma leaves blanks, or a part of the next text. *)
Lemma cut_rest ts b s' c q :
  rest_text ts (String b "") = s' +:+ String c q ->
  s' = ""%string \/ exists t ts' s'', ts = t :: ts' /\ s' = String "," s'' /\
    (skip_ws s'' = ""%string \/
     exists u, s'' = w +:+ u /\ body_text w (t :: ts') +:+ String b "" = u +:+ String c q).
Proof.
  destruct s' as [|x s'']; [by left|]. intros E. right. destruct ts as [|t ts]; cbn [rest_text] in E.
  - injection E as _ E. by destruct s''.
  - cbn [String.append] in E. injection E as <- E. exists t, ts, s''. split_and!; [done..|].
    apply app_split in E as [(c' & u & E)|(u & -> & E)]; [left; exact (blank_prefix w _ _ _ Hw E)|right; eauto].
Qed.

Lemma rest_delimited ts s' b c q : rest_text ts (String b "") = s' +:+ String c q -> delimited s' = true.
Proof. intros [->|(t & ts' & s'' & _ & -> & _)]%cut_rest; done. Qed.

Lemma head_skips t u : (exists v, reads t v) -> skip_ws (t +:+ u) = t +:+ u.
Proof. intros (v & H). by eapply skip_reads. Qed.

(** A prefix of a body starts with no blank. *)
Lemma prefix_skips x u s c q : is_ws x = false -> String x u = s +:+ String c q -> skip_ws s = s.
Proof. intros Hx E. destruct s as [|y s]; [done|]. injection E as <- _. by apply skip_ws_head. Qed.

(** What is left of a body after the first text and [s'] of what follows. *)
Lemma body_head_char t ts u : (exists v, reads t v) ->
  exists c v, body_text w (t :: ts) +:+ u = String c v /\ is_ws c = false.
Proof.
  intros (v & (c & t' & -> & Hc) & _). apply value_head_facts in Hc as (Hc & _).
  destruct (body_head w (String c t') ts) as (u' & ->). eauto.
Qed.

Lemma cut_elements ts t acc f s c q :
  Forall whole (t :: ts) -> (2 * String.length s + 1 < f)%nat ->
  body_text w (t :: ts) +:+ "]" = s +:+ String c q ->
  breaks (scan_elements default_hooks f s acc).
Proof.
  revert t acc f s. induction ts as [|t' ts IH]; intros t acc f s Hall Hf E; (destruct f as [|f]; [lia|]);
    rewrite body_rest in E; apply Forall_cons in Hall as [[Hcut [v Hreads]] Hall]; cbn [scan_elements];
    apply app_split in E as [(c' & u & E)|(s' & -> & E)].
  1, 3: destruct (Hcut f s c' u) as [[why ->]|[v' ->]]; [lia|done|by exists why|apply breaks_malformed].
  all: rewrite sapp_length in Hf;
    assert (Hpos : (0 < String.length t)%nat) by (destruct Hreads as [(? & ? & -> & _) _]; cbn; lia);
    rewrite (proj2 Hreads f s') by (eapply rest_delimited, E || lia);
    apply cut_rest in E as [->|(t2 & ts2 & s'' & Ets & -> & E)]; [apply breaks_malformed|].
  { done. }
  injection Ets as <- <-. cbn -[scan_elements body_text]. destruct E as [->|(u & -> & E)].
  - destruct f; [cbn in Hf; lia|]. cbn [scan_elements].
    destruct (break_at_end f) as [why ->]; [cbn in Hf; lia|]. by exists why.
  - rewrite skip_blank by done. pose proof Hall as [Ht' _]%Forall_cons. destruct (body_head_char t' ts "]") as (x & y & Ex & Hx); [apply Ht'|].
    rewrite (prefix_skips x y u c q) by (done || by rewrite <- E, Ex).
    apply (IH t'); [done| |done]. cbn in Hf. rewrite sapp_length in Hf. lia.
Qed.
(** A member cut short: its name, its colon or its value. *)
Lemma cut_member k t f s c q acc :
  is_text k = true -> whole t -> (2 * String.length s < S f)%nat ->
  member_of w'' (k, t) = s +:+ String c q ->
  breaks (scan_members default_hooks (S f) s acc).
Proof.
  intros Hk [Hcut Hreads] Hf E. unfold member_of in E. cbn [fst snd] in E.
  apply app_split in E as [(c' & u & E)|(s' & -> & E)].
  { apply trunc_dump_str in E as [->|(s' & -> & E)]; [apply breaks_malformed| |done].
    cbn [scan_members]. rewrite E. apply breaks_malformed. }
  destruct (scan_dump_str k s' Hk) as (x & Ex & Hx). rewrite sapp_length in Hf.
  assert (Hl : (2 * String.length s' < f)%nat) by (unfold dump_str in Hf; cbn in Hf; lia).
  rewrite Ex. cbn [scan_members]. rewrite Hx. destruct s' as [|y s']; [apply breaks_malformed|].
  injection E as <- E. cbn -[scan_value]. cbn in Hl.
  apply app_split in E as [(c' & u & E)|(u & -> & E)].
  { rewrite (blank_prefix w'' _ _ _ Hw'' E). destruct (break_at_end f) as [why ->]; [lia|by exists why]. }
  rewrite skip_blank by done. rewrite sapp_length in Hl.
  assert (skip_ws u = u) as ->.
  { destruct Hreads as (v & (x' & t' & -> & Hh) & _). apply value_head_facts in Hh as [Hh _].
    by eapply prefix_skips. }
  destruct (Hcut f u c q) as [[why ->]|[v' ->]]; [lia|done|by exists why|apply breaks_malformed].
Qed.

Definition whole_member (p : string * string) : Prop := is_text (fst p) = true /\ whole (snd p).

Lemma cut_members ts p acc f s c q :
  Forall whole_member (p :: ts) -> (2 * String.length s < f)%nat ->
  body_text w (map (member_of w'') (p :: ts)) +:+ "}" = s +:+ String c q ->
  breaks (scan_members default_hooks f s acc).
Proof.
  revert p acc f s. induction ts as [|p' ts IH]; intros [k t] acc f s Hall Hf E; (destruct f as [|f]; [lia|]);
    cbn [map] in E; rewrite body_rest in E; apply Forall_cons in Hall as [[Hk Ht] Hall]; cbn [fst snd] in *;
    apply app_split in E as [(c' & u & E)|(s' & -> & E)].
  1, 3: by eapply cut_member.
  all: rewrite sapp_length in Hf; destruct Ht as [Hcut [v Hreads]];
    assert (Hl : (2 * String.length t + 2 + 2 * String.length s' < f)%nat)
      by (unfold member_of, dump_str in Hf; cbn [fst snd] in Hf; rewrite !sapp_length in Hf; cbn in Hf; lia);
    rewrite (scan_member w'' Hw'' k t v) by (eapply rest_delimited, E || done || lia);
    apply cut_rest in E as [->|(t2 & ts2 & s'' & Ets & -> & E)]; [apply breaks_malformed|].
  { done. }
  injection Ets as <- <-. cbn -[scan_members body_text]. destruct E as [->|(u & -> & E)].
  - destruct f; [lia|]. apply breaks_malformed.
  - rewrite skip_blank by done.
    assert (skip_ws u = u) as ->.
    { destruct (body_head w (member_of w'' p') (map (member_of w'') ts)) as (x & Ex). rewrite Ex in E.
      eapply (prefix_skips "034"%char); [done|exact E]. }
    apply (IH p'); [done| |done]. cbn in Hl. rewrite sapp_length in Hl. lia.
Qed.

(** ** Containers *)

(** The opening bracket, in front of something that does not close. *)
Lemma scan_open_array f x s : is_ws x = false -> x <> "]"%char ->
  scan_value default_hooks (S f) (String "[" (String x s)) = scan_elements default_hooks f (String x s) [].
Proof. intros Hs Hx. cbn [scan_value skip_ws]. rewrite Hs. destruct x as [[] [] [] [] [] [] [] []]; done. Qed.

Lemma torn_array t ts :
  Forall whole (t :: ts) -> torn ("[" +:+ body_text w (t :: ts) +:+ "]").
Proof.
  intros Hall f s c q Hf E. destruct f as [|f]; [lia|]. destruct s as [|x s]; [by apply break_at_end|].
  injection E as <- E. cbn in Hf. pose proof (cut_elements ts t [] f s c q Hall ltac:(lia) E) as Hb.
  destruct s as [|y s]; [destruct f; [lia|exact Hb]|].
  pose proof Hall as [[_ (v' & (x & u & -> & Hx) & _)] _]%Forall_cons. destruct (body_head w (String x u) ts) as (u' & Eu).
  rewrite Eu in E. injection E as <- _. apply value_head_facts in Hx as (Hws & Hnb & _). by rewrite scan_open_array.
Qed.

Lemma torn_object p ts :
  Forall whole_member (p :: ts) -> torn ("{" +:+ body_text w (map (member_of w'') (p :: ts)) +:+ "}").
Proof.
  intros Hall f s c q Hf E. destruct f as [|f]; [lia|]. destruct s as [|x s]; [by apply break_at_end|].
  injection E as <- E. cbn in Hf. pose proof (cut_members ts p [] f s c q Hall ltac:(lia) E) as Hb.
  destruct s as [|y s]; [destruct f; [lia|exact Hb]|].
  destruct (body_head w (member_of w'' p) (map (member_of w'') ts)) as (u' & Eu).
  cbn [map] in E. rewrite Eu in E. injection E as <- _. exact Hb.
Qed.
End Cut.

(** ** Scalars *)

Lemma torn_str s : is_text s = true -> torn (dump_str s).
Proof.
  intros Hs f t c q Hf E. destruct f as [|f]; [lia|].
  apply trunc_dump_str in E as [->|(s' & -> & E)]; [apply breaks_malformed| |done].
  cbn [scan_value]. rewrite E. apply breaks_malformed.
Qed.

Lemma torn_word t : t ∈ ["null"; "true"; "false"; "[]"; "{}"]%string -> torn t.
Proof.
  intros Ht f s c q Hf E. destruct f as [|f]; [lia|].
  repeat (apply elem_of_cons in Ht as [->|Ht]); [..|by apply elem_of_nil in Ht];
  repeat (destruct s as [|? s]; [destruct f as [|[|f]]; first [cbn in Hf; lia|by eexists]|cbn in E; injection E as <- E]); by destruct s.
Qed.

Lemma numeral_prefix s c q n : numeral (s +:+ String c q) n -> s <> ""%string -> exists m, numeral s m.
Proof.
  intros [Hd _ (x & ds & E & Hz)] Hs. rewrite string_forallb_app in Hd. apply andb_prop in Hd as [Hd _].
  eexists. split; [done|done|]. destruct s as [|y s]; [done|]. exists y, s. split; [done|].
  injection E as <- E. intros ->. rewrite <- E in Hz. specialize (Hz eq_refl). by destruct s.
Qed.

Lemma py_int_prefix s c q : int_text s -> is_ok (py_int (s +:+ String c q)) = true -> exists z, py_int s = Ok z.
Proof.
  intros Hs H. unfold py_int in *. destruct (4300 <? _) eqn:E in |- *; [|by eexists]. exfalso.
  destruct (4300 <? _) eqn:E' in H; [done|]. apply Z.ltb_lt in E. apply Z.ltb_ge in E'.
  assert (Hl : (String.length (match s with String "-" t => t | _ => s end)
              <= String.length (match s +:+ String c q with String "-" t => t | _ => s +:+ String c q end))%nat); [|lia].
  destruct (int_text_head s Hs) as (x & u & -> & _). cbn [String.append].
  destruct x as [[] [] [] [] [] [] [] []]; cbn [String.length]; rewrite ?sapp_length; lia.
Qed.

Lemma cut_int z : short_int z = true -> cut (str_of_Z z).
Proof.
  unfold short_int. intros Hz f s c q Hf E. destruct f as [|f]; [lia|].
  destruct (decide (s = ""%string)) as [->|Hs]; [left; by apply break_at_end|].
  assert (Hp : s = "-"%string \/ int_text s).
  { pose proof (str_of_Z_text z) as Ht. rewrite E in Ht. remember (s +:+ String c q) as t eqn:Et.
    destruct Ht as [ds n Hn|ds n Hn]; subst.
    - right. apply numeral_prefix in Hn as (m & Hm); [|done]. by econstructor.
    - destruct s as [|x s]; [done|]. injection Et as <- ->. destruct (decide (s = ""%string)) as [->|Hs']; [by left|].
      right. apply numeral_prefix in Hn as (m & Hm); [|done]. by econstructor. }
  destruct Hp as [->|Ht]; [left; apply breaks_malformed|]. right. rewrite E in Hz.
  destruct (py_int_prefix s c q Ht Hz) as (i & Ei). exists (JInt i).
  assert (scan_value default_hooks (S f) s = scan_scalar default_hooks s) as ->.
  { destruct (int_text_head s Ht) as (x & u & -> & Hx & _). apply scan_value_scalar; intros ->; done. }
  rewrite <- (sapp_nil_r s) at 1. rewrite scan_int_text by done. cbn [parse_int default_hooks]. by rewrite Ei.
Qed.

(** ** Texts *)

Section Text.
Variables w w'' : string.
Hypothesis Hw : blank w = true.
Hypothesis Hw'' : blank w'' = true.
Abbreviation text := (dumps_with true ("," +:+ w) (":" +:+ w'')).

Lemma members_whole m :
  Forall (fun p => readable (snd p) = true -> cut (text (snd p))) m ->
  forallb (fun p => is_text (fst p) && readable (snd p)) m = true ->
  Forall whole_member (sorted_items (map (fun p => (fst p, text (snd p))) m)).
Proof.
  intros IH Hr. rewrite sorted_items_perm. apply Forall_forall. intros p Hp.
  apply list_elem_of_In in Hp. apply in_map_iff in Hp as (q & <- & Hq). apply list_elem_of_In in Hq.
  rewrite Forall_forall in IH. rewrite forallb_true in Hr. apply Hr in Hq as H. apply andb_prop in H as [Hk Hv].
  split; [done|]. split; [by apply IH|]. eexists. by apply dumps_reads.
Qed.

Lemma torn_members m :
  Forall (fun p => readable (snd p) = true -> cut (text (snd p))) m -> readable (JObj m) = true -> torn (text (JObj m)).
Proof.
  intros IH [H _]%andb_prop. destruct m as [|p m]; [by apply torn_word; apply str_in_elem|].
  pose proof (members_whole _ IH H) as Hall. cbn [dumps_with].
  destruct (sorted_items _) as [|t ts] eqn:E; [by apply sorted_items_nil in E|]. by apply torn_object.
Qed.

Lemma cut_text (v : json) : readable v = true -> cut (text v).
Proof.
  induction v as [|b|z|f|s|l IH|m IH] using json_ind'; intros H.
  - by apply torn_cut, torn_word; apply str_in_elem.
  - apply torn_cut, torn_word; apply str_in_elem; by destruct b.
  - by apply cut_int.
  - done.
  - by apply torn_cut, torn_str.
  - apply torn_cut. destruct l as [|v l]; [by apply torn_word; apply str_in_elem|].
    cbn [dumps_with]. apply torn_array; [done|]. cbn [readable] in H. rewrite forallb_true in H.
    rewrite Forall_forall in IH. apply Forall_forall. intros t Ht.
    apply list_elem_of_In in Ht. change (In t (map text (v :: l))) in Ht.
    apply in_map_iff in Ht as (q & <- & Hq). apply list_elem_of_In in Hq. split; [by apply IH, H|]. eexists. by apply dumps_reads, H.
  - by apply torn_cut, torn_members.
Qed.

Lemma torn_object_text m : readable (JObj m) = true -> torn (text (JObj m)).
Proof.
  intros H. apply torn_members; [|done]. apply Forall_forall. intros p _. apply cut_text.
Qed.

(** No proper prefix of an object's text is a document. *)
Theorem torn_object_unread m s c q :
  readable (JObj m) = true -> text (JObj m) = s +:+ String c q -> exists why, json_loads default_hooks s = Raise (JSONDecodeError why).
Proof.
  intros H E. assert (Hs : skip_ws s = s). { cbn [dumps_with] in E. by eapply (prefix_skips "{"%char). }
  unfold json_loads. rewrite Hs. destruct (torn_object_text m H (S (2 * String.length s)) s c q) as [why ->]; [lia|done|by exists why].
Qed.
End Text.

(** * The engineering ledger: lemmas *)

(** ** Reading back compares equal *)

Lemma dyadic_refl m e : dyadic_compare m e m e = Eq.
Proof. unfold dyadic_compare. apply Z.compare_refl. Qed.

Lemma py_eq_members (l m : list (string * json)) :
  List.length l = List.length m -> Forall (fun p => exists v, assoc (fst p) m = Some v /\ py_eq (snd p) v = true) l ->
  py_eq (JObj l) (JObj m) = true.
Proof.
  intros Hl Hall. cbn [py_eq]. rewrite Hl, Nat.eqb_refl. cbn [andb]. clear Hl.
  induction Hall as [|[k v] l (x & Ex & Hx) _ IHl]; [done|]. cbn [fst snd] in *. by rewrite Ex, Hx, IHl.
Qed.

Lemma py_eq_differs (l m : list (string * json)) k x y :
  (k, x) ∈ l -> assoc k m = Some y -> py_eq x y = false -> py_eq (JObj l) (JObj m) = false.
Proof.
  intros Hl Hm Hxy. cbn [py_eq]. apply andb_false_iff. right.
  induction l as [|[k' x'] l IH]; [by apply elem_of_nil in Hl|].
  apply elem_of_cons in Hl as [[= <- <-]|Hl]; [by rewrite Hm, Hxy|]. by rewrite IH, andb_false_r.
Qed.

Lemma py_eq_sorted v : readable v = true -> py_eq (sort_json v) v = true.
Proof.
  induction v as [|b|z|f|s|l IH|m IH] using json_ind'; cbn [readable sort_json]; intros H.
  - done.
  - cbn. by rewrite dyadic_refl.
  - cbn. by rewrite dyadic_refl.
  - done.
  - cbn. apply String.eqb_refl.
  - cbn [py_eq]. induction IH as [|v l Hv _ IHl]; [done|]. cbn [map forallb] in *. bool_simp. by rewrite Hv, IHl.
  - apply andb_prop in H as [H Hn%bool_decide_eq_true]. apply py_eq_members.
    { rewrite (Permutation_length (sorted_items_perm _)). apply List.length_map. }
    rewrite sorted_items_perm. apply List.Forall_map, Forall_forall. intros [k v] Hp. cbn [fst snd]. exists v.
    split; [by apply assoc_NoDup|]. rewrite Forall_forall in IH. rewrite forallb_true in H.
    pose proof (H _ Hp) as [_ Hv]%andb_prop. by apply (IH (k, v)).
Qed.

(** ** Lines *)

Definition event_ok (event : list (string * json)) : Prop := readable (JObj event) = true.
Definition log (es : list (list (string * json))) : string := foldr (fun e acc => event_line e +:+ acc) ""%string es.
Abbreviation text_of event := (json_dumps_sorted (JObj event)).
Abbreviation stored event := (sort_json (JObj event)).

Lemma log_app es es' : log (es ++ es') = log es +:+ log es'.
Proof. induction es as [|e es IH]; [done|]. cbn [app log foldr]. unfold log in IH. by rewrite IH, sapp_assoc. Qed.

Lemma text_printable event : event_ok event -> printable (text_of event) = true.
Proof. by apply dumps_with_printable. Qed.

Lemma char_not_end c : printable_char c = true -> Ascii.eqb c LF = false /\ Ascii.eqb c CR = false.
Proof. destruct c as [[] [] [] [] [] [] [] []]; done. Qed.

Lemma byte_lines_line t rest : printable t = true -> byte_lines (t +:+ String LF rest) = (t +:+ String LF "") :: byte_lines rest.
Proof.
  unfold printable. induction t as [|c t IH]; [done|]. cbn [string_forallb]. intros [Hc Ht]%andb_prop.
  destruct (char_not_end c Hc) as [E1 E2]. cbn [String.append byte_lines]. rewrite E1, E2, IH by done. done.
Qed.

Lemma byte_lines_tail c t : printable (String c t) = true -> byte_lines (String c t) = [String c t].
Proof.
  unfold printable. revert c. induction t as [|d t IH]; intros c H; cbn [string_forallb] in *;
    apply andb_prop in H as [Hc Ht]; destruct (char_not_end c Hc) as [E1 E2]; cbn [byte_lines]; rewrite E1, E2; [done|].
  specialize (IH d Ht). cbn [byte_lines] in IH. by rewrite IH.
Qed.

(** The last line, when it is cut short. *)
Definition tail_lines (t : string) : list string := match t with EmptyString => [] | _ => [t] end.

Lemma byte_lines_log es x : Forall event_ok es -> byte_lines (log es +:+ x) = map event_line es ++ byte_lines x.
Proof.
  induction 1 as [|e es He _ IH]; cbn [log foldr map app]; [done|].
  unfold event_line at 1. rewrite !sapp_assoc. cbn [String.append].
  rewrite byte_lines_line by by apply text_printable. by rewrite <- IH.
Qed.

Lemma tail_lines_of t : printable t = true -> byte_lines t = tail_lines t.
Proof. destruct t; [done|]. apply byte_lines_tail. Qed.

Lemma complete_line t : complete (t +:+ String LF "") = true.
Proof. induction t as [|c t IH]; [done|]. cbn [String.append]. destruct t; [done|exact IH]. Qed.

Lemma incomplete t : printable t = true -> complete t = false.
Proof.
  unfold printable. induction t as [|c t IH]; [done|]. cbn [string_forallb]. intros [Hc Ht]%andb_prop.
  destruct (char_not_end c Hc) as [E1 E2]. cbn [complete]. destruct t; [by rewrite E1, E2|by apply IH].
Qed.

(** ** Documents *)

Lemma document_byte c : document_char c = true ->
  is_zero c = false /\ c <> chr_n 0 /\ c <> chr_n 239 /\ c <> chr_n 254 /\ c <> chr_n 255.
Proof. destruct c as [[] [] [] [] [] [] [] []]; done. Qed.

Lemma no_bom c s x b : c <> x -> startswith (String c s) (String x b) = false.
Proof. intros H. unfold startswith. cbn [String.prefix]. by destruct (ascii_dec x c) as [->|]. Qed.

Lemma detect_document s : document s = true -> detect_encoding s = utf_8 false.
Proof.
  unfold document. destruct s as [|a s]; [done|]. cbn [string_forallb]. intros [Ha Hs]%andb_prop.
  destruct (document_byte a Ha) as (Hz & H0 & H1 & H2 & H3). unfold detect_encoding.
  assert (startswith (String a s) BOM_UTF32_BE = false) as -> by by apply no_bom.
  assert (startswith (String a s) BOM_UTF32_LE = false) as -> by by apply no_bom.
  assert (startswith (String a s) BOM_UTF16_BE = false) as -> by by apply no_bom.
  assert (startswith (String a s) BOM_UTF16_LE = false) as -> by by apply no_bom.
  assert (startswith (String a s) BOM_UTF8 = false) as -> by by apply no_bom.
  destruct s as [|b s]; [done|]. cbn [string_forallb] in Hs. apply andb_prop in Hs as [Hb _].
  destruct (document_byte b Hb) as (Hz' & _). destruct s as [|x [|y z]]; rewrite ?Hz, ?Hz'; done.
Qed.

Lemma document_ascii s : document s = true -> string_forallb ascii_char s = true.
Proof.
  unfold document. induction s as [|c s IH]; [done|]. cbn [string_forallb]. intros [Hc Hs]%andb_prop.
  rewrite IH by done. rewrite andb_true_r. destruct c as [[] [] [] [] [] [] [] []]; done.
Qed.

Lemma loads_document s : document s = true -> json_loads_bytes s = json_loads default_hooks s.
Proof.
  intros H. unfold json_loads_bytes. rewrite detect_document by done. cbn [decode_pass].
  rewrite ascii_valid by by apply document_ascii. done.
Qed.

Lemma loads_line event : event_ok event -> json_loads_bytes (event_line event) = Ok (stored event).
Proof.
  intros H. pose proof (text_printable event H) as Hp. unfold event_line. rewrite loads_document.
  - apply reads_loads; [by apply (dumps_reads " " " ")|done].
  - rewrite document_app. by rewrite printable_document.
Qed.

Lemma loads_text event : event_ok event -> json_loads_bytes (text_of event) = Ok (stored event).
Proof.
  intros H. rewrite loads_document by by apply printable_document, text_printable.
  rewrite <- (sapp_nil_r (text_of event)). apply reads_loads; [by apply (dumps_reads " " " ")|done].
Qed.

Lemma printable_prefix a b : printable (a +:+ b) = true -> printable a = true.
Proof. rewrite printable_app. by intros [? _]%andb_prop. Qed.

Lemma loads_torn event s c q : event_ok event -> text_of event = s +:+ String c q ->
  exists why, json_loads_bytes s = Raise (JSONDecodeError why).
Proof.
  intros H E. rewrite loads_document.
  - by apply (torn_object_unread " " " " eq_refl eq_refl event s c q).
  - apply printable_document. eapply printable_prefix. rewrite <- E. by apply text_printable.
Qed.

Lemma scan_text event f rest : event_ok event -> (2 * String.length (text_of event) < f)%nat ->
  scan_value default_hooks f (text_of event +:+ rest) = Ok (stored event, rest).
Proof. exact (object_reads " " " " eq_refl eq_refl event f rest). Qed.

(** Two objects on one line. *)
Lemma loads_merged event event' : event_ok event -> event_ok event' ->
  exists why, json_loads_bytes (text_of event +:+ event_line event') = Raise (JSONDecodeError why).
Proof.
  intros H H'. pose proof (text_printable event H). pose proof (text_printable event' H'). unfold event_line.
  rewrite loads_document by (rewrite !document_app, !printable_document by done; done).
  unfold json_loads. set (rest := text_of event' +:+ String LF "").
  assert (Hs : skip_ws (text_of event +:+ rest) = text_of event +:+ rest) by done. rewrite Hs.
  rewrite scan_text by (done || (rewrite sapp_length; lia)). by eexists.
Qed.

Lemma prefix_not_blank event s c q : text_of event = s +:+ String c q -> s <> ""%string -> blank_line s = false.
Proof. intros E Hs. destruct s; [done|]. injection E as <- _. done. Qed.

(** ** [_read_all] *)

Lemma read_complete_lines r es rest n evs s : Forall event_ok es ->
  read_lines r (map event_line es ++ rest) n evs s
  = read_lines r rest (n + String.length (log es))%nat (evs ++ map (fun e => stored e) es) s.
Proof.
  intros H. revert n evs. induction H as [|e es He _ IH]; intros n evs; cbn [map app log foldr String.length].
  - by rewrite Nat.add_0_r, app_nil_r.
  - cbn [read_lines]. assert (Hb : blank_line (event_line e) = false) by done. rewrite Hb, loads_line by done.
    assert (Hc : complete (event_line e) = true) by apply complete_line. rewrite Hc. cbn [negb]. rewrite andb_false_r.
    transitivity (read_lines r (map event_line es ++ rest) (n + String.length (event_line e))%nat (evs ++ [stored e]) s); [done|].
    rewrite IH, (sapp_length (event_line e)), <- app_assoc. f_equal. unfold log. lia.
Qed.

(** The state of a ledger that holds the events [es]. *)
Definition holds (s : EvidenceLedger) (es : list (list (string * json))) : Prop :=
  run_dir s = true /\ file_bytes s = log es.

Definition with_bytes (b : string) (s : EvidenceLedger) : EvidenceLedger :=
  {| run_dir := run_dir s; contents := Some b; depth := depth s |}.

Lemma read_all_tail r es t s : Forall event_ok es -> printable t = true -> file_bytes s = log es +:+ t ->
  _read_all r s = read_lines r (tail_lines t) (String.length (log es)) (map (fun e => stored e) es) s.
Proof.
  intros Hes Ht E. unfold file_bytes in E.
  transitivity (match contents s with None => mret [] | Some raw => read_lines r (byte_lines raw) 0 [] end s); [done|].
  destruct (contents s) as [raw|] eqn:Ec.
  - change (raw = log es +:+ t) in E. subst raw. by rewrite byte_lines_log, read_complete_lines, tail_lines_of by done.
  - destruct es as [|e es]; [|done]. by destruct t.
Qed.

Lemma read_all_log r es s : Forall event_ok es -> file_bytes s = log es ->
  _read_all r s = (Ok (map (fun e => stored e) es), s).
Proof. intros Hes E. rewrite (read_all_tail r es "" s); [done|done|done|]. by rewrite sapp_nil_r. Qed.

Lemma append_bytes_run b s : append_bytes b s = (Ok tt, with_bytes (file_bytes s +:+ b) s).
Proof. done. Qed.
Lemma truncate_bytes_run a u s : file_bytes s = a +:+ u -> truncate_bytes (String.length a) s = (Ok tt, with_bytes a s).
Proof.
  intros E. transitivity (Ok tt, with_bytes (prefix_bytes (String.length a) (file_bytes s)) s); [done|]. rewrite E.
  do 2 f_equal. clear E. induction a as [|x a IH]; [by destruct u|]. cbn. by rewrite IH.
Qed.

(** A line cut inside the object: nothing of it is kept, or reading refuses. *)
Lemma read_all_torn es event u c q s : Forall event_ok es -> event_ok event -> u <> ""%string ->
  text_of event = u +:+ String c q -> file_bytes s = log es +:+ u ->
  _read_all true s = (Ok (map (fun e => stored e) es), with_bytes (log es) s) /\
  _read_all false s = (Raise (ValueError "evidence ledger contains an invalid JSON event"), s).
Proof.
  intros Hes He Hu E Ef. destruct (loads_torn event u c q He E) as [why Hw].
  assert (Hp : printable u = true) by (eapply printable_prefix; rewrite <- E; by apply text_printable).
  assert (Ht : tail_lines u = [u]) by by destruct u.
  assert (Hb : blank_line u = false) by by eapply prefix_not_blank.
  split; rewrite (read_all_tail _ es u s) by done; rewrite Ht; cbn [read_lines];
    rewrite Hb, Hw, incomplete by done; [|done]. cbn [is_decode_error andb negb].
  erewrite bind_run by by eapply truncate_bytes_run. done.
Qed.

(** A whole object without its newline: it is kept, a keyed record completes the line. *)
Lemma read_all_unended es event s : Forall event_ok es -> event_ok event -> file_bytes s = log es +:+ text_of event ->
  _read_all true s = (Ok (map (fun e => stored e) (es ++ [event])), with_bytes (log (es ++ [event])) s) /\
  _read_all false s = (Ok (map (fun e => stored e) (es ++ [event])), s).
Proof.
  intros Hes He Ef. pose proof (text_printable event He) as Hp.
  assert (Hb : blank_line (text_of event) = false) by done.
  assert (Ht : tail_lines (text_of event) = [text_of event]) by done.
  split; rewrite (read_all_tail _ es _ s Hes Hp Ef), Ht; cbn [read_lines];
    rewrite Hb, loads_text, incomplete by done; rewrite map_app; [|done]. cbn [andb negb].
  rewrite (bind_run _ _ _ _ _ (append_bytes_run _ s)), Ef. unfold with_bytes.
  transitivity (Ok (map (fun e => stored e) es ++ [stored event]), with_bytes ((log es +:+ text_of event) +:+ String LF "") s); [done|].
  do 3 f_equal. rewrite log_app. change (log [event]) with (event_line event +:+ ""). by rewrite sapp_nil_r, sapp_assoc.
Qed.

(** A complete line that is no document stops every reader. *)
Lemma read_all_refused r es t why s : Forall event_ok es -> printable t = true -> t <> ""%string ->
  blank_line (t +:+ String LF "") = false -> json_loads_bytes (t +:+ String LF "") = Raise (JSONDecodeError why) ->
  file_bytes s = log es +:+ t +:+ String LF "" ->
  _read_all r s = (Raise (ValueError "evidence ledger contains an invalid JSON event"), s).
Proof.
  intros Hes Ht Hne Hb Hj E. unfold file_bytes in E.
  transitivity (match contents s with None => mret [] | Some raw => read_lines r (byte_lines raw) 0 [] end s); [done|].
  destruct (contents s) as [raw|].
  - change (raw = log es +:+ t +:+ String LF "") in E. subst raw.
    rewrite byte_lines_log, read_complete_lines, byte_lines_line by done. cbn [read_lines].
    by rewrite Hb, Hj, complete_line, andb_false_r.
  - by destruct es, t.
Qed.
