(* ===== verification/EngineeringLedgerTheorems.v ===== *)
(** * The engineering ledger: theorems

    Whatever the machine leaves of an interrupted [record], repeating a keyed one
    leaves exactly one event; a record without a key does not have that
    protection.

    ** The engineering ledger: a concrete run

    The hypotheses of the theorems of [EngineeringLedgerTheorems] at concrete
    evidence: an interrupted record and its retry, a key used twice, a record
    without a key after a line that lacks its newline. *)
From Stdlib Require Import Ascii String.
From S2P Require Import Prelude Json JsonText Canonical JsonSpec JsonFacts JsonAscii TextFacts JsonBytes.
From S2P Require Import EngineeringLedger EngineeringLedgerFacts.

(** ** Stored members *)

Lemma assoc_sorted (m : list (string * json)) k v :
  NoDup (map fst m) -> assoc k m = Some v -> assoc k (sorted_items (map (fun p => (fst p, sort_json (snd p))) m)) = Some (sort_json v).
Proof.
  intros Hn Hk. apply assoc_NoDup; [apply sorted_keys; by rewrite map_fst_map|].
  rewrite sorted_items_perm. apply list_elem_of_In, in_map_iff. exists (k, v). split; [done|].
  by apply list_elem_of_In, assoc_In.
Qed.

Definition key_of (event : list (string * json)) : json := jget "idempotency_key" event.

(** No event of [es] has the key. *)
Definition fresh (key : string) (es : list (list (string * json))) : Prop :=
  Forall (fun e => exists k, assoc "idempotency_key" e = Some (JStr k) /\ k <> key) es.

Section Ledger.
Context `{Rfc8785}.
Variable run_id : string.

Abbreviation payload := (identity_payload run_id).

(** Evidence whose texts and numbers survive the file. *)
Definition evidence_ok (e : evidence) : Prop := readable (JObj (payload e)) = true.

Lemma payload_names e : NoDup (map fst (payload e)).
Proof. cbn. decide_now. Qed.

Lemma event_shape e t event : event_of run_id e t = Ok event ->
  exists payload_digest, event = payload e ++ [("event_id", JStr payload_digest); ("ts", JStr t)]%string
    /\ is_text payload_digest = true.
Proof.
  unfold event_of, canonical_digest. intros E. simp_res. subst. eexists. split; [done|]. exact (sha256_digest_text a0).
Qed.

Lemma event_names e t event : event_of run_id e t = Ok event -> NoDup (map fst event).
Proof. intros (d & -> & _)%event_shape. cbn. decide_now. Qed.

Lemma event_is_ok e t event : evidence_ok e -> is_text t = true -> event_of run_id e t = Ok event -> event_ok event.
Proof.
  intros [He _]%andb_prop Ht E. pose proof (event_names _ _ _ E) as Hn. apply event_shape in E as (d & -> & Hd).
  apply readable_members; [done|]. apply Forall_app. split.
  - apply Forall_forall. intros p Hp. rewrite forallb_true in He. by apply He, andb_prop in Hp.
  - repeat constructor; done.
Qed.

Lemma event_key e t event : event_of run_id e t = Ok event -> assoc "idempotency_key" event = Some (JStr (idempotency_key e)).
Proof. by intros (d & -> & _)%event_shape. Qed.

(** ** Looking for the key *)

Lemma item_key_stored event k : NoDup (map fst event) -> assoc "idempotency_key" event = Some (JStr k) ->
  item_key (stored event) = Ok (JStr k).
Proof. intros Hn Hk. cbn [item_key sort_json]. unfold jget. by rewrite (assoc_sorted event _ (JStr k)). Qed.

Lemma event_ok_names event : event_ok event -> NoDup (map fst event).
Proof. by intros [_ Hn%bool_decide_eq_true]%andb_prop. Qed.

Lemma prior_fresh key es rest : Forall event_ok es -> fresh key es ->
  prior_event key (map (fun e => stored e) es ++ rest) = prior_event key rest.
Proof.
  intros Hok. induction 1 as [|e es (k & Hk & Hne) _ IH]; [done|]. apply Forall_cons in Hok as [He Hok].
  cbn [map app prior_event]. rewrite (item_key_stored e k) by auto using event_ok_names. cbn [mbind res_bind].
  cbn [py_eq]. destruct (String.eqb_spec k key); [done|]. auto.
Qed.

Lemma prior_found key event rest : event_ok event -> assoc "idempotency_key" event = Some (JStr key) ->
  prior_event key (stored event :: rest) = Ok (Some (stored event)).
Proof.
  intros He Hk. cbn [prior_event]. rewrite (item_key_stored event key) by auto using event_ok_names. cbn.
  by rewrite String.eqb_refl.
Qed.

(** ** The body under the lock *)

Lemma exclusive_run {A} (body : op A) s : run_dir s = true ->
  exclusive body s
  = let (r, s') := body {| run_dir := true; contents := contents s; depth := S (depth s) |} in
    (r, {| run_dir := run_dir s'; contents := contents s'; depth := depth s |}).
Proof.
  destruct s as [d c [|n]]; cbn; intros ->; cbv [exclusive mbind st_bind get_st set_depth modify_st finally depth run_dir contents];
    by destruct (body _).
Qed.

Lemma locked_appends e event es s s' :
  Forall event_ok es -> (idempotency_key e <> ""%string -> fresh (idempotency_key e) es) ->
  _read_all (nonempty (idempotency_key e)) s = (Ok (map (fun e => stored e) es), s') -> file_bytes s' = log es ->
  record_locked run_id e event s = (Ok (JObj event), with_bytes (log (es ++ [event])) s').
Proof.
  intros Hok Hf Hr Hb. unfold record_locked. rewrite (bind_run _ _ _ _ _ Hr).
  assert (Ha : append_event event s' = (Ok (JObj event), with_bytes (log (es ++ [event])) s')).
  { unfold append_event. rewrite (bind_run _ _ _ _ _ (append_bytes_run _ s')), Hb, log_app.
    change (log [event]) with (event_line event +:+ ""). by rewrite sapp_nil_r. }
  unfold nonempty in *. destruct (String.eqb_spec (idempotency_key e) ""); [done|]. cbn [negb] in *.
  rewrite <- (app_nil_r (map _ es)), prior_fresh by auto. exact Ha.
Qed.

(** What [comparable] makes of a stored event. *)
Definition fields_of (prior m : list (string * json)) : list (string * json) :=
  map (fun p => (fst p, jget (fst p) (sorted_items (map (fun p => (fst p, sort_json (snd p))) prior)))) m.

Lemma locked_finds e event es prior rest s s' :
  Forall event_ok es -> event_ok prior -> fresh (idempotency_key e) es -> idempotency_key e <> ""%string ->
  assoc "idempotency_key" prior = Some (JStr (idempotency_key e)) ->
  _read_all true s = (Ok (map (fun e => stored e) (es ++ prior :: rest)), s') ->
  record_locked run_id e event s
  = (if py_eq (JObj (fields_of prior (payload e))) (JObj (payload e)) then Ok (stored prior)
     else Raise (ValueError "idempotency key was reused for different evidence"), s').
Proof.
  intros Hok Hp Hf Hne Hk Hr. unfold record_locked, nonempty.
  destruct (String.eqb_spec (idempotency_key e) ""); [done|]. cbn [negb]. rewrite (bind_run _ _ _ _ _ Hr).
  rewrite map_app, prior_fresh by done. cbn [map]. rewrite prior_found by done.
  rewrite lift_Ok_bind. cbn [comparable sort_json]. rewrite lift_Ok_bind.
  change (map _ (payload e)) with (fields_of prior (payload e)). by destruct (py_eq _ _).
Qed.

(** Unlocking only restores the depth. *)
Lemma record_run e t event s : event_of run_id e t = Ok event -> run_dir s = true ->
  record run_id e t s
  = let (r, s') := record_locked run_id e event {| run_dir := true; contents := contents s; depth := S (depth s) |} in
    (r, {| run_dir := run_dir s'; contents := contents s'; depth := depth s |}).
Proof.
  intros E Hs. unfold record. rewrite E, lift_Ok_bind. by apply exclusive_run.
Qed.

Lemma read_all_holds es s : Forall event_ok es -> holds s es ->
  exists s', read_all s = (Ok (map (fun e => stored e) es), s') /\ holds s' es.
Proof.
  intros Hok [Hd Hb]. destruct s as [d c [|n]]; cbn in Hd; subst d; unfold read_all; rewrite get_bind; cbn [depth].
  - erewrite bind_run by done. erewrite read_all_log by done. eexists. split; done.
  - rewrite (read_all_log _ es) by done. eexists. split; done.
Qed.

(** The retry of a keyed record that an interrupted write left at [u]. *)
Lemma same_fields e t event :
  evidence_ok e -> event_of run_id e t = Ok event ->
  py_eq (JObj (fields_of event (payload e))) (JObj (payload e)) = true.
Proof.
  intros He E. pose proof (event_names _ _ _ E) as Hn.
  apply andb_prop in He as [He Hp%bool_decide_eq_true]. rewrite forallb_true in He.
  apply py_eq_members; [apply List.length_map|]. apply List.Forall_map, Forall_forall. intros [k v] Hkv. cbn [fst snd].
  exists v. split; [by apply assoc_NoDup|]. unfold jget. rewrite (assoc_sorted event k v); [|done|].
  - apply py_eq_sorted. by pose proof (He _ Hkv) as [_ Hv]%andb_prop.
  - apply assoc_NoDup; [done|]. apply event_shape in E as (d & -> & _). apply elem_of_app. by left.
Qed.

Lemma cut_line event u q : event_line event = u +:+ q ->
  u = event_line event \/ u = text_of event \/ exists c q', text_of event = u +:+ String c q'.
Proof.
  unfold event_line. destruct q as [|c q]; [rewrite sapp_nil_r; by left|]. intros E. right.
  apply app_split in E as [(c' & q' & E)|(s' & -> & E)]; [right; eauto|].
  destruct s' as [|x s']; [left; by rewrite sapp_nil_r|]. injection E as _ E. by destruct s'.
Qed.

(** [record] appends its event to a log that has none with its key. *)
Theorem record_appends e t event es s :
  Forall event_ok es -> evidence_ok e -> is_text t = true -> event_of run_id e t = Ok event -> holds s es ->
  (idempotency_key e <> ""%string -> fresh (idempotency_key e) es) ->
  exists s', record run_id e t s = (Ok (JObj event), s') /\ holds s' (es ++ [event]) /\
    exists s'', read_all s' = (Ok (map (fun e => stored e) (es ++ [event])), s'') /\ holds s'' (es ++ [event]).
Proof.
  intros Hok He Ht E [Hd Hb] Hf. pose proof (event_is_ok _ _ _ He Ht E) as Hev. rewrite (record_run _ _ _ _ E Hd).
  erewrite locked_appends by (done || by apply read_all_log).
  eexists. split; [done|]. assert (Hh : forall c, holds {| run_dir := true; contents := Some (log (es ++ [event])); depth := c |} (es ++ [event])) by done.
  split; [apply Hh|]. apply read_all_holds; [|apply Hh]. apply Forall_app. split; [done|by constructor].
Qed.

(** C16. Whatever part [u] of the line of a keyed record the machine wrote before
    it stopped, recording the same evidence again succeeds and leaves exactly one
    event with the key: the new one, or the first one when its text was whole. *)
Theorem retry_records_once e t0 t1 event0 event1 es u q s :
  evidence_ok e -> is_text t0 = true -> is_text t1 = true -> idempotency_key e <> ""%string ->
  Forall event_ok es -> fresh (idempotency_key e) es ->
  event_of run_id e t0 = Ok event0 -> event_of run_id e t1 = Ok event1 ->
  event_line event0 = u +:+ q -> run_dir s = true -> file_bytes s = log es +:+ u ->
  exists v event s', record run_id e t1 s = (Ok v, s') /\ holds s' (es ++ [event]) /\
    (event = event1 /\ v = JObj event1 \/ event = event0 /\ v = stored event0).
Proof.
  intros He Ht0 Ht1 Hne Hok Hf E0 E1 Hu Hd Hb.
  pose proof (event_is_ok _ _ _ He Ht0 E0) as Hev0. pose proof (event_key _ _ _ E0) as Hk0.
  rewrite (record_run _ _ _ _ E1 Hd). set (s1 := {| run_dir := true; contents := contents s; depth := S (depth s) |}).
  assert (Hne' : nonempty (idempotency_key e) = true) by by apply negb_true_iff, String.eqb_neq.
  assert (Hfound : forall s2, _read_all true s1 = (Ok (map (fun e => stored e) (es ++ [event0])), s2) ->
    record_locked run_id e event1 s1 = (Ok (stored event0), s2)).
  { intros s2 Hr. rewrite (locked_finds e event1 es event0 [] s1 s2) by done. by rewrite (same_fields e t0). }
  assert (Hlog : log (es ++ [event0]) = log es +:+ event_line event0).
  { rewrite log_app. change (log [event0]) with (event_line event0 +:+ ""). by rewrite sapp_nil_r. }
  assert (Hok0 : Forall event_ok (es ++ [event0])) by (apply Forall_app; split; [done|by constructor]).
  assert (Happ : forall s2, _read_all true s1 = (Ok (map (fun e => stored e) es), s2) -> file_bytes s2 = log es ->
    record_locked run_id e event1 s1 = (Ok (JObj event1), with_bytes (log (es ++ [event1])) s2)).
  { intros s2 Hr Hb2. apply locked_appends; [done|done| |done]. by rewrite Hne'. }
  destruct (cut_line _ _ _ Hu) as [->|[->|(c & q' & Eq)]].
  - rewrite (Hfound s1) by (apply read_all_log; [done|by rewrite Hlog]).
    eexists _, event0, _. split; [done|]. split; [split; [done|by rewrite Hlog]|by right].
  - destruct (read_all_unended es event0 s1 Hok Hev0 Hb) as [Hr _]. rewrite (Hfound _ Hr).
    eexists _, event0, _. split; [done|]. split; [done|by right].
  - destruct (decide (u = ""%string)) as [->|Hu'].
    + rewrite sapp_nil_r in Hb. rewrite (Happ s1) by (done || by apply read_all_log).
      eexists _, event1, _. split; [done|]. split; [done|by left].
    + destruct (read_all_torn es event0 u c q' s1 Hok Hev0 Hu' Eq Hb) as [Hr _]. rewrite (Happ _ Hr eq_refl).
      eexists _, event1, _. split; [done|]. split; [done|by left].
Qed.

(** A key that is used again for other evidence is refused and writes nothing. *)
Theorem reused_key_refused e t event es prior rest name x y s :
  Forall event_ok (es ++ prior :: rest) -> fresh (idempotency_key e) es -> idempotency_key e <> ""%string ->
  assoc "idempotency_key" prior = Some (JStr (idempotency_key e)) ->
  event_of run_id e t = Ok event -> holds s (es ++ prior :: rest) ->
  (name, JStr x) ∈ payload e -> assoc name prior = Some (JStr y) -> x <> y ->
  record run_id e t s = (Raise (ValueError "idempotency key was reused for different evidence"), s).
Proof.
  intros Hok Hf Hne Hk E [Hd Hb] Hx Hy Hxy. rewrite (record_run _ _ _ _ E Hd).
  set (s1 := {| run_dir := true; contents := contents s; depth := S (depth s) |}).
  pose proof Hok as [Hes [Hp _]%Forall_cons]%Forall_app.
  rewrite (locked_finds e event es prior rest s1 s1) by (done || by apply read_all_log).
  pose proof (event_ok_names _ Hp) as Hn.
  assert (py_eq (JObj (fields_of prior (payload e))) (JObj (payload e)) = false) as ->.
  { apply (py_eq_differs _ _ name (JStr y) (JStr x)).
    - apply list_elem_of_In, in_map_iff. exists (name, JStr x). cbn [fst]. split; [|by apply list_elem_of_In].
      unfold jget. by rewrite (assoc_sorted prior name (JStr y)).
    - apply assoc_NoDup; [apply payload_names|done].
    - cbn. apply String.eqb_neq. congruence. }
  destruct s as [d b n]; cbn in Hd. by subst d.
Qed.

(** C40. A record without a key does not complete a last line that lacks its
    newline: it reports success, but two events share a line, and from then on no
    reader and no record, keyed or not, gets past it. *)
Theorem keyless_record_merges_lines e t event0 event es s :
  Forall event_ok es -> event_ok event0 -> evidence_ok e -> is_text t = true -> idempotency_key e = ""%string ->
  event_of run_id e t = Ok event -> run_dir s = true -> file_bytes s = log es +:+ text_of event0 ->
  fst (read_all s) = Ok (map (fun e => stored e) (es ++ [event0])) /\
  exists s', record run_id e t s = (Ok (JObj event), s') /\
    fst (read_all s') = Raise (ValueError "evidence ledger contains an invalid JSON event") /\
    forall e' t' event', event_of run_id e' t' = Ok event' ->
      record run_id e' t' s' = (Raise (ValueError "evidence ledger contains an invalid JSON event"), s').
Proof.
  intros Hok Hev0 He Ht Hk E Hd Hb. pose proof (event_is_ok _ _ _ He Ht E) as Hev. split.
  { destruct s as [d c [|n]]; cbn in Hd; subst d; unfold read_all; rewrite get_bind; cbn [depth].
    all: destruct (read_all_unended es event0 _ Hok Hev0 Hb) as [_ Hr]; apply (f_equal fst) in Hr.
    - erewrite bind_run by done. exact Hr.
    - exact Hr. }
  rewrite (record_run _ _ _ _ E Hd). set (s1 := {| run_dir := true; contents := contents s; depth := S (depth s) |}).
  destruct (read_all_unended es event0 s1 Hok Hev0 Hb) as [_ Hr]. unfold record_locked. rewrite Hk.
  change (nonempty "") with false. cbv iota. rewrite (bind_run _ _ _ _ _ Hr). unfold append_event.
  rewrite (bind_run _ _ _ _ _ (append_bytes_run _ s1)). eexists. split; [done|].
  pose proof (text_printable _ Hev0) as Hp0. pose proof (text_printable _ Hev) as Hp.
  destruct (loads_merged event0 event Hev0 Hev) as (why & Hw).
  assert (Hrefused : forall r s2, file_bytes s2 = file_bytes s1 +:+ event_line event ->
    _read_all r s2 = (Raise (ValueError "evidence ledger contains an invalid JSON event"), s2)).
  { intros r s2 Hs2. apply (read_all_refused r es (text_of event0 +:+ text_of event) why); [done|by rewrite printable_app, Hp0|done|done| |].
    - by rewrite sapp_assoc.
    - change (file_bytes s1) with (file_bytes s) in Hs2. rewrite Hs2, Hb. unfold event_line. by rewrite !sapp_assoc. }
  split.
  - set (s2 := {| run_dir := _; contents := _; depth := _ |}). destruct (depth s) as [|n] eqn:En.
    + unfold read_all. rewrite get_bind. cbn [s2 depth]. erewrite bind_run by done. by rewrite Hrefused.
    + unfold read_all. rewrite get_bind. cbn [s2 depth]. by rewrite Hrefused.
  - intros e' t' event' E'. rewrite (record_run _ _ _ _ E') by done. unfold record_locked.
    set (s2 := {| run_dir := true; contents := _; depth := S _ |}).
    by rewrite (bind_stop _ _ _ _ _ (Hrefused (nonempty (idempotency_key e')) s2 eq_refl)).
Qed.
End Ledger.

(** * The engineering ledger: a concrete run *)

Definition demo_evidence (stage_ key : string) : evidence := {|
  stage := stage_; agent := "lead"; action := "verify";
  input_digests := [("plan", JStr "sha256:1"); ("code", JStr "sha256:2")]%string;
  output_digests := []; tool := ""; verdict := "pass"; escalation := ""; next_state := "done"; detail := "naïve";
  cost := Some [("tokens"%string, JInt 12)]; idempotency_key := key |}.

(** A ledger whose file is [b]. *)
Definition ledger_with (b : string) : EvidenceLedger := {| run_dir := true; contents := Some b; depth := 0 |}.

Definition build : evidence := demo_evidence "build" "k1".
Definition noted : evidence := demo_evidence "note" "".
Definition t0 : string := "2026-01-01T00:00:00.000000Z".
Definition t1 : string := "2026-01-01T00:00:01.000000Z".

Lemma build_ok : evidence_ok "run" build.
Proof. vm_compute. reflexivity. Qed.
Lemma noted_ok : evidence_ok "run" noted.
Proof. vm_compute. reflexivity. Qed.
Lemma times_ok : is_text t0 = true /\ is_text t1 = true.
Proof. vm_compute. done. Qed.

Lemma build_events : exists event0 event1, event_of "run" build t0 = Ok event0 /\ event_of "run" build t1 = Ok event1.
Proof.
  destruct (is_ok_exists (event_of "run" build t0)) as [e0 E0]; [vm_compute; reflexivity|].
  destruct (is_ok_exists (event_of "run" build t1)) as [e1 E1]; [vm_compute; reflexivity|]. by exists e0, e1.
Qed.
Lemma noted_event : exists event, event_of "run" noted t1 = Ok event.
Proof. apply is_ok_exists. vm_compute. reflexivity. Qed.
Lemma other_event : exists event, event_of "run" (demo_evidence "note" "k1") t1 = Ok event.
Proof. apply is_ok_exists. vm_compute. reflexivity. Qed.

Lemma build_is_ok event : event_of "run" build t0 = Ok event -> event_ok event.
Proof. apply event_is_ok; [apply build_ok|apply times_ok]. Qed.

(** An empty ledger takes the event. *)
Lemma record_appends_witness : exists event s' s'',
  event_of "run" build t0 = Ok event /\ record "run" build t0 (ledger_with "") = (Ok (JObj event), s') /\
  holds s' [event] /\ read_all s' = (Ok [stored event], s'').
Proof.
  destruct build_events as (event & _ & E & _).
  destruct (record_appends "run" build t0 event [] (ledger_with "")) as (s' & Hr & Hh & s'' & Hs & _);
    [constructor|apply build_ok|apply times_ok|done|done|constructor|]. by exists event, s', s''.
Defined.

(** The machine stops after the first character of the event. *)
Lemma retry_records_once_witness : exists event0 event1 v event s',
  event_of "run" build t0 = Ok event0 /\ event_of "run" build t1 = Ok event1 /\
  record "run" build t1 (ledger_with "{") = (Ok v, s') /\ holds s' [event] /\
  (event = event1 /\ v = JObj event1 \/ event = event0 /\ v = stored event0).
Proof.
  destruct build_events as (event0 & event1 & E0 & E1).
  destruct (retry_records_once "run" build t0 t1 event0 event1 [] "{" (drop_str 1 (event_line event0)) (ledger_with "{"))
    as (v & event & s' & Hr & Hh & Hv);
    [apply build_ok|apply times_ok|apply times_ok|done|constructor|constructor|done|done|reflexivity|done|done|].
  exists event0, event1, v, event, s'. split_and!; done.
Defined.

(** Another stage is recorded under the key of the first. *)
Lemma reused_key_refused_witness : exists event0,
  event_of "run" build t0 = Ok event0 /\
  record "run" (demo_evidence "note" "k1") t1 (ledger_with (log [event0]))
  = (Raise (ValueError "idempotency key was reused for different evidence"), ledger_with (log [event0])).
Proof.
  destruct build_events as (event0 & _ & E0 & _), other_event as (event & E). exists event0. split; [done|].
  apply (reused_key_refused "run" (demo_evidence "note" "k1") t1 event [] event0 [] "stage" "note" "build").
  - repeat constructor. by apply build_is_ok.
  - constructor.
  - done.
  - by apply (event_key "run" build t0).
  - done.
  - done.
  - right. left.
  - apply event_shape in E0 as (d & -> & _). done.
  - done.
Defined.

(** The first event lacks its newline; a note without a key comes after it. *)
Lemma keyless_record_merges_lines_witness : exists event0 event s',
  event_of "run" build t0 = Ok event0 /\ event_of "run" noted t1 = Ok event /\
  record "run" noted t1 (ledger_with (json_dumps_sorted (JObj event0))) = (Ok (JObj event), s') /\
  fst (read_all s') = Raise (ValueError "evidence ledger contains an invalid JSON event").
Proof.
  destruct build_events as (event0 & _ & E0 & _), noted_event as (event & E).
  destruct (keyless_record_merges_lines "run" noted t1 event0 event [] (ledger_with (json_dumps_sorted (JObj event0))))
    as (_ & s' & Hr & Ha & _);
    [constructor|by apply build_is_ok|apply noted_ok|apply times_ok|done|done|done|done|].
  exists event0, event, s'. split_and!; done.
Defined.
