(* ===== verification/TrajectoryFacts.v ===== *)
(** * Trajectory checks: what each rule means

    Every rule is silent exactly when a property of the positions of the events
    holds. *)
From Stdlib Require Import Ascii String.
From S2P Require Import Prelude Json JsonText Canonical PyStr PyConv Trajectory.

(** ** Positions *)

(** Every event that satisfies [p] comes after one that satisfies [q]. *)
Definition after (p q : event -> bool) (events : list event) : Prop :=
  forall i e, events !! i = Some e -> p e = true -> exists j e', (j < i)%nat /\ events !! j = Some e' /\ q e' = true.

(** The last value that [f] gives on a list. *)
Definition latest {A B} (f : A -> option B) (l : list A) : option B := foldl (fun acc x => match f x with Some b => Some b | None => acc end) None l.

Lemma latest_snoc {A B} (f : A -> option B) l x : latest f (l ++ [x]) = match f x with Some b => Some b | None => latest f l end.
Proof. unfold latest. by rewrite foldl_app. Qed.

Lemma latest_spec {A B} (f : A -> option B) l b :
  latest f l = Some b <->
  exists j x, l !! j = Some x /\ f x = Some b /\ forall k y, (j < k)%nat -> l !! k = Some y -> f y = None.
Proof.
  induction l as [|x l IH] using rev_ind.
  { split; [done|]. intros (j & x & H & _). by rewrite lookup_nil in H. }
  rewrite latest_snoc. destruct (f x) as [c|] eqn:E.
  - split.
    + intros [= ->]. exists (length l), x. rewrite list_lookup_middle by done. split_and!; [done..|].
      intros k y Hk Hy. apply lookup_lt_Some in Hy. rewrite length_app in Hy. cbn in Hy. lia.
    + intros (j & y & Hy & Hb & Hlast). assert (j = length l) as ->.
      { pose proof (lookup_lt_Some _ _ _ Hy) as Hl. rewrite length_app in Hl. cbn in Hl.
        destruct (decide (j = length l)) as [|Hne]; [done|].
        rewrite (Hlast (length l) x) in E; [done|lia|by apply list_lookup_middle]. }
      rewrite list_lookup_middle in Hy by done. injection Hy as <-. congruence.
  - rewrite IH. split.
    + intros (j & y & Hy & Hb & Hlast). exists j, y. split_and!; [by apply lookup_app_l_Some|done|].
      intros k z Hk Hz. apply lookup_snoc_Some in Hz as [[? Hz]|[-> <-]]; eauto.
    + intros (j & y & Hy & Hb & Hlast). apply lookup_snoc_Some in Hy as [[? Hy]|[-> <-]]; [|congruence].
      exists j, y. split_and!; [done..|]. intros k z Hk Hz. eapply Hlast; [exact Hk|]. by apply lookup_app_l_Some.
Qed.

Lemma foldl_latest {A B} (f : A -> option B) b l :
  foldl (fun acc x => match f x with Some c => c | None => acc end) b l = default b (latest f l).
Proof.
  induction l as [|x l IH] using rev_ind; [done|]. rewrite foldl_app, latest_snoc, IH. cbn. by destruct (f x).
Qed.

Lemma after_snoc p q l x : after p q (l ++ [x]) <-> after p q l /\ (p x = true -> exists y, y ∈ l /\ q y = true).
Proof.
  split.
  - intros H. split.
    + intros i e Hi Hp. destruct (H i e) as (j & e' & Hj & He' & Hq); [by apply lookup_app_l_Some|done|].
      exists j, e'. split_and!; [done| |done]. apply lookup_lt_Some in Hi. by rewrite lookup_app_l in He' by lia.
    + intros Hp. destruct (H (length l) x) as (j & e' & Hj & He' & Hq); [by apply list_lookup_middle|done|].
      rewrite lookup_app_l in He' by done. exists e'. split; [by eapply list_elem_of_lookup_2|done].
  - intros [H Hx] i e Hi Hp. apply lookup_snoc_Some in Hi as [[Hl Hi]|[-> <-]].
    + destruct (H i e Hi Hp) as (j & e' & Hj & He' & Hq). exists j, e'. split_and!; [done| |done]. by apply lookup_app_l_Some.
    + destruct (Hx Hp) as (y & Hy & Hq). apply list_elem_of_lookup_1 in Hy as (j & Hj). exists j, y.
      split_and!; [by apply lookup_lt_Some in Hj|by apply lookup_app_l_Some|done].
Qed.

(** ** Loops *)

Section Loop.
Context {S : Type} (step : nat -> S -> event -> res (S * list TrajectoryViolation)).

(** The states of a loop that collects nothing. *)
Fixpoint quiet (index : nat) (s : S) (events : list event) : option S :=
  match events with
  | [] => Some s
  | e :: rest => match step index s e with Ok (s', []) => quiet (Datatypes.S index) s' rest | _ => None end
  end.

Lemma loop_quiet index s events : check_loop step index s events = Ok [] <-> is_Some (quiet index s events).
Proof.
  revert index s. induction events as [|e rest IH]; intros index s; cbn [check_loop quiet].
  { split; [eauto|done]. }
  destruct (step index s e) as [[s' [|v vs]]|x]; cbn.
  - rewrite <- IH. destruct (check_loop step _ s' rest) as [l|x]; cbn; done.
  - split; [by destruct (check_loop step _ s' rest)|by intros []].
  - split; [done|by intros []].
Qed.

Lemma quiet_snoc index s events e : quiet index s (events ++ [e])
  = match quiet index s events with
    | Some s' => match step (index + length events) s' e with Ok (s'', []) => Some s'' | _ => None end
    | None => None
    end.
Proof.
  revert index s. induction events as [|x rest IH]; intros index s; cbn [app quiet length].
  - rewrite Nat.add_0_r. destruct (step index s e) as [[s' [|]]|]; done.
  - destruct (step index s x) as [[s' [|]]|]; [|done..]. by rewrite IH, Nat.add_succ_comm.
Qed.
End Loop.

(** ** Loops whose state is a function of the events seen *)

Definition everywhere (ok : list event -> event -> Prop) (events : list event) : Prop :=
  forall i e, events !! i = Some e -> ok (take i events) e.

Lemma everywhere_nil ok : everywhere ok [].
Proof. intros i e Hi. by rewrite lookup_nil in Hi. Qed.

Lemma everywhere_snoc ok l x : everywhere ok (l ++ [x]) <-> everywhere ok l /\ ok l x.
Proof.
  assert (Ht : forall i e, l !! i = Some e -> take i (l ++ [x]) = take i l).
  { intros i e Hi%lookup_lt_Some. apply take_app_le. lia. }
  split.
  - intros Hall. split.
    + intros i e Hi. rewrite <- (Ht i e Hi). apply Hall. by apply lookup_app_l_Some.
    + rewrite <- (take_app_length l [x]) at 1. apply Hall. by apply list_lookup_middle.
  - intros [Hall Hx] i e [[_ Hi]|[-> <-]]%lookup_snoc_Some; [rewrite (Ht i e Hi); auto|by rewrite take_app_length].
Qed.

Section StateOf.
Context {S : Type} (step : nat -> S -> event -> res (S * list TrajectoryViolation)).
Variable state_of : list event -> S.
Variable ok : list event -> event -> Prop.
Hypothesis step_ok : forall pre e, everywhere ok pre ->
  (ok pre e -> step (length pre) (state_of pre) e = Ok (state_of (pre ++ [e]), [])) /\
  (forall s, step (length pre) (state_of pre) e = Ok (s, []) -> ok pre e).

Lemma loop_state_of events : check_loop step 0 (state_of []) events = Ok [] <-> everywhere ok events.
Proof.
  rewrite loop_quiet.
  assert (Hq : match quiet step 0 (state_of []) events with
               | Some s => s = state_of events /\ everywhere ok events
               | None => ~ everywhere ok events
               end).
  { induction events as [|e events IH] using rev_ind; [split; [done|apply everywhere_nil]|].
    rewrite quiet_snoc, Nat.add_0_l. pose proof (everywhere_snoc ok events e) as Hs.
    destruct (quiet step 0 _ events) as [s|]; [|by intros [? _]%Hs]. destruct IH as [-> Hall]. destruct (step_ok events e Hall) as [Hok Hquiet].
    destruct (step _ _ e) as [[s' [|v vs]]|x] eqn:E.
    - assert (Hx : ok events e) by by eapply Hquiet. specialize (Hok Hx). injection Hok as ->. split; [done|by apply Hs].
    - intros [_ Hx]%Hs. by apply Hok in Hx.
    - intros [_ Hx]%Hs. by apply Hok in Hx. }
  destruct (quiet _ _ _ _); [naive_solver|]. split; [by intros []|done].
Qed.
End StateOf.

(** ** Events *)

Lemma field_is_spec k s e : field_is k s e = true <-> jget k e = JStr s.
Proof.
  unfold field_is. split; [|intros ->; cbn; apply String.eqb_refl].
  destruct (jget k e); cbn; try done. by intros ->%String.eqb_eq.
Qed.

Lemma stage_unique s s' e : at_stage s e = true -> at_stage s' e = true -> s = s'.
Proof. unfold at_stage. rewrite !field_is_spec. congruence. Qed.

Lemma acts_spec s a e : acts s a e = true <-> at_stage s e = true /\ field_is "action" a e = true.
Proof. apply andb_true_iff. Qed.

Lemma index_from_spec {A} (p : A -> bool) i l :
  match index_from p i l with
  | Some k => exists j x, k = (i + j)%nat /\ l !! j = Some x /\ p x = true /\ forall k y, (k < j)%nat -> l !! k = Some y -> p y = false
  | None => forall j x, l !! j = Some x -> p x = false
  end.
Proof.
  revert i. induction l as [|x l IH]; intros i; cbn [index_from]; [done|]. destruct (p x) eqn:E.
  - exists O, x. rewrite Nat.add_0_r. split_and!; [done..|]. intros; lia.
  - specialize (IH (S i)). destruct (index_from p (S i) l).
    + destruct IH as (j & y & -> & Hy & Hp & Hbefore). exists (S j), y. split_and!; [lia|done|done|].
      intros [|k] z Hk Hz; [by injection Hz as <-|]. eapply Hbefore; [|exact Hz]. lia.
    + intros [|j] y Hy; [by injection Hy as <-|]. by eapply IH.
Qed.

Lemma first_index_spec events stage :
  match _first_index events stage with
  | Some k => exists x, events !! k = Some x /\ at_stage stage x = true
                        /\ forall j y, (j < k)%nat -> events !! j = Some y -> at_stage stage y = false
  | None => forall j x, events !! j = Some x -> at_stage stage x = false
  end.
Proof.
  unfold _first_index. pose proof (index_from_spec (at_stage stage) 0 events) as H.
  destruct (index_from _ _ _); [|done]. destruct H as (j & x & -> & H). eauto.
Qed.

(** ** Order of the stages *)

Lemma precedes_spec check description n1 s1 n2 s2 events : s1 <> s2 ->
  precedes check description n1 s1 n2 s2 events = [] <-> after (at_stage s2) (at_stage s1) events.
Proof.
  intros Hne. unfold precedes. pose proof (first_index_spec events s1) as H1. pose proof (first_index_spec events s2) as H2.
  destruct (_first_index events s2) as [i2|].
  2: { split; [|done]. intros _ i e Hi He. by rewrite (H2 i e Hi) in He. }
  destruct H2 as (x2 & Hx2 & Hs2 & Hbefore2).
  destruct (_first_index events s1) as [i1|].
  - destruct H1 as (x1 & Hx1 & Hs1 & Hbefore1). destruct (Nat.ltb_spec i2 i1).
    + split; [done|]. intros H'. destruct (H' i2 x2 Hx2 Hs2) as (j & y & Hj & Hy & Hq).
      rewrite (Hbefore1 j y) in Hq; [done|lia|done].
    + split; [|done]. intros _ i e Hi He. exists i1, x1. split_and!; [|done..].
      destruct (decide (i < i2)%nat) as [Hl|]; [by rewrite (Hbefore2 i e Hl Hi) in He|].
      assert (i1 <> i); [|lia]. intros ->. rewrite Hi in Hx1. injection Hx1 as ->. by eapply Hne, stage_unique.
  - split; [done|]. intros H'. destruct (H' i2 x2 Hx2 Hs2) as (j & y & _ & Hy & Hq). by rewrite (H1 j y Hy) in Hq.
Qed.

Section Text.
Context `{Unicode}.

(** ** Sets of texts *)

Lemma sorted_set_nil l : sorted_set l = [] <-> l = [].
Proof.
  split; [|by intros ->]. intros E. destruct l as [|x l]; [done|].
  assert (x ∈ sorted_set (x :: l)) by (apply sorted_set_elem; left). rewrite E in *. by apply elem_of_nil in H0.
Qed.

Lemma minus_nil l m : minus l m = [] <-> forall x, x ∈ l -> x ∈ m.
Proof.
  unfold minus. rewrite filter_nil_iff, Forall_forall. split; intros Hl x Hx; specialize (Hl x Hx).
  - apply negb_false_iff in Hl. by apply str_in_elem.
  - apply negb_false_iff. by apply str_in_elem.
Qed.

Lemma agents_spec p events a : a ∈ agents p events <-> exists e, e ∈ events /\ p e = true /\ text "agent" e = a.
Proof.
  unfold agents. rewrite list_elem_of_In, in_map_iff. split.
  - intros (e & <- & He). apply filter_In in He as [He Hp]. exists e. by rewrite list_elem_of_In.
  - intros (e & He & Hp & <-). exists e. split; [done|]. apply filter_In. by rewrite <- list_elem_of_In.
Qed.

(** ** TRAJ-02, TRAJ-04 *)

Definition two_in (l : list string) : Prop := exists x y, x ∈ l /\ y ∈ l /\ x <> y.
Lemma sorted_set_two l : (1 <? List.length (sorted_set l))%nat = true <-> two_in l.
Proof.
  pose proof (sorted_set_sorted l) as Hs. apply strictly_sorted_NoDup in Hs as Hn.
  assert (Hin : forall x, x ∈ sorted_set l <-> x ∈ l) by (intros; apply sorted_set_elem).
  destruct (sorted_set l) as [|x [|y m]]; cbn.
  - split; [done|]. intros (x & _ & Hx & _). apply Hin in Hx. by apply elem_of_nil in Hx.
  - split; [done|]. intros (a & b & Ha%Hin & Hb%Hin & Hne). apply list_elem_of_singleton in Ha, Hb. congruence.
  - split; [|done]. intros _. exists x, y. split_and!; [apply Hin; left|apply Hin; right; left|].
    apply NoDup_cons in Hn as [Hn _]. intros ->. apply Hn. left.
Qed.

(** The digest that an event names for the contract, on either side. *)
Definition names_contract (d : string) (e : event) : Prop :=
  d <> ""%string /\ (_digest e "input_digests" "contract" = Ok (Some d) \/ _digest e "output_digests" "contract" = Ok (Some d)).
Definition digests_read (e : event) : Prop := exists i o, _digest e "input_digests" "contract" = Ok i /\ _digest e "output_digests" "contract" = Ok o.

Lemma some_nonempty_spec o d : d ∈ some_nonempty o <-> o = Some d /\ d <> ""%string.
Proof.
  destruct o as [s|]; cbn; [|split; [by intros ?%elem_of_nil|by intros [? _]]].
  unfold nonempty. destruct (String.eqb_spec s "") as [->|Hs]; cbn.
  - split; [by intros ?%elem_of_nil|]. by intros [[= <-] ?].
  - rewrite list_elem_of_singleton. split; [by intros ->|by intros [[= ->] _]].
Qed.

Lemma traj_02_spec events :
  traj_02 events = Ok [] <->
  Forall digests_read events /\ forall e e' d d', e ∈ events -> e' ∈ events -> names_contract d e -> names_contract d' e' -> d = d'.
Proof.
  unfold traj_02, violate. destruct (res_mapM contract_digests events) as [ds|x] eqn:E.
  - apply mapM_Ok in E as Hall. cbn [mbind res_bind].
    assert (Hin : forall d, d ∈ List.concat ds <-> exists e, e ∈ events /\ names_contract d e).
    { clear E. intros d. induction Hall as [|e l es ls He _ IH]; cbn [List.concat].
      { split; [by intros ?%elem_of_nil|by intros (? & ?%elem_of_nil & _)]. }
      rewrite elem_of_app, IH. unfold contract_digests in He. simp_res.
      assert (d ∈ l <-> names_contract d e) as ->.
      { subst l. rewrite elem_of_app, !some_nonempty_spec. unfold names_contract. rewrite E, E0. naive_solver. }
      setoid_rewrite elem_of_cons. naive_solver. }
    assert (Hr : Forall digests_read events).
    { clear -Hall. induction Hall as [|e l es ls He _ IH]; constructor; [|done]. unfold contract_digests in He. simp_res. by eexists _, _. }
    pose proof (sorted_set_two (List.concat ds)) as Htwo.
    destruct (1 <? _)%nat; (split; [|intros [_ H']]); [by intros [=]| | |done].
    + exfalso. destruct (proj1 Htwo eq_refl) as (d & d' & (e & He & Hd)%Hin & (e' & He' & Hd')%Hin & Hne). apply Hne.
      by apply (H' e e').
    + intros _. split; [done|]. intros e e' d d' He He' Hd Hd'. destruct (decide (d = d')) as [|Hne]; [done|].
      assert (false = true); [|done]. apply Htwo. exists d, d'. split_and!; [apply Hin; eauto|apply Hin; eauto|done].
  - cbn. split; [done|]. intros [Hr _]. exfalso. revert E. clear -Hr. intros E.
    assert (exists ds, res_mapM contract_digests events = Ok ds) as (ds & Ed); [|congruence].
    clear E. induction Hr as [|e es (i & o & Hi & Ho) _ (ds & IH)]; [by eexists|]. cbn [res_mapM].
    assert (contract_digests e = Ok (some_nonempty i ++ some_nonempty o)) as -> by (unfold contract_digests; by rewrite Hi, Ho).
    cbn [mbind res_bind]. rewrite IH. by eexists.
Qed.

(** What the last routing decision selected. *)
Definition routed (e : event) : option (list string) :=
  if at_stage "route" e then csv <$> after_prefix "selected=" (detail_of e) else None.
Lemma selected_latest events : selected events = default [] (latest routed events).
Proof.
  rewrite <- foldl_latest. unfold selected. generalize (@nil string). induction events as [|e es IH]; intros acc; [done|].
  cbn [foldl]. rewrite IH. f_equal. unfold routed. destruct (at_stage "route" e); [|done]. by destruct (after_prefix _ _).
Qed.

Lemma traj_04_spec events :
  traj_04 events = [] <->
  forall e, e ∈ events -> at_stage "implement" e = true -> text "agent" e ∈ default [] (latest routed events).
Proof.
  unfold traj_04. rewrite <- selected_latest.
  pose proof (sorted_set_nil (minus (implementers events) (selected events))) as Hn. rewrite minus_nil in Hn.
  transitivity (forall x, x ∈ implementers events -> x ∈ selected events).
  { rewrite <- Hn. by destruct (sorted_set _). }
  unfold implementers. setoid_rewrite agents_spec. naive_solver.
Qed.

(** ** TRAJ-05, TRAJ-06 *)

Definition implements_task (e : event) : bool := acts "implement" "task_implementation" e.
Definition tests_task (e : event) : bool := acts "implement" "task_tests" e.

Lemma action_unique a b e : field_is "action" a e = true -> field_is "action" b e = true -> a = b.
Proof. rewrite !field_is_spec. congruence. Qed.

(** The positions of [x :: l]. *)
Lemma positions_cons {A} (P : nat -> A -> Prop) x l :
  (forall i e, (x :: l) !! i = Some e -> P i e) <-> P O x /\ forall i e, l !! i = Some e -> P (S i) e.
Proof.
  split; [intros Hall; split; [by apply Hall|]; intros i e Hi; by apply Hall|].
  intros [H0 HS] [|i] e Hi; [by injection Hi as <-|by apply HS].
Qed.

(** The task of [e] has tests among [seen] or the events in front of position [i]. *)
Definition tested (seen : list string) (events : list event) (i : nat) (e : event) : Prop :=
  implements_task e = true ->
  detail_of e ∈ seen \/ exists e', e' ∈ take i events /\ tests_task e' = true /\ detail_of e' = detail_of e.

Lemma tested_cons seen x events i e :
  tested seen (x :: events) (S i) e <-> tested (if tests_task x then detail_of x :: seen else seen) events i e.
Proof.
  unfold tested. cbn [take firstn]. split; intros Hall He.
  - destruct (Hall He) as [Hs|(e' & [->|He']%elem_of_cons & Ht & Ed)].
    + left. destruct (tests_task x); [by right|done].
    + left. rewrite Ht, <- Ed. left.
    + right. by exists e'.
  - destruct (Hall He) as [Hs|(e' & He' & Ht & Ed)]; [|right; exists e'; split; [by right|done]].
    destruct (tests_task x) eqn:Ex; [|by left]. apply elem_of_cons in Hs as [Hs|Hs]; [|by left].
    right. exists x. split_and!; [left|done|done].
Qed.

Lemma traj_05_from_spec seen events :
  traj_05_from seen events = [] <-> forall i e, events !! i = Some e -> tested seen events i e.
Proof.
  revert seen. induction events as [|x events IH]; intros seen; cbn [traj_05_from].
  { split; [|done]. intros _ i e Hi. by rewrite lookup_nil in Hi. }
  rewrite positions_cons. setoid_rewrite tested_cons. rewrite <- IH.
  assert (Hx : tested seen (x :: events) 0 x <-> (implements_task x = true -> detail_of x ∈ seen)).
  { unfold tested. split; intros Hall He; [|left; auto]. destruct (Hall He) as [?|(? & ?%elem_of_nil & _)]; done. }
  rewrite Hx. unfold implements_task, tests_task, acts. destruct (at_stage "implement" x); cbn [negb andb]; [|naive_solver].
  destruct (field_is "action" "task_tests" x) eqn:Et; [|destruct (field_is "action" "task_implementation" x); cbn [andb]].
  - destruct (field_is "action" "task_implementation" x) eqn:Ei; [by pose proof (action_unique _ _ _ Et Ei)|naive_solver].
  - rewrite <- str_in_elem. destruct (str_in _ seen); cbn; naive_solver.
  - naive_solver.
Qed.

Lemma traj_06_spec events :
  traj_06 events = [] <->
  forall e, e ∈ events -> submits_review e = true ->
    text "agent" e ∈ REVIEWER_AGENTS /\
    forall b, b ∈ events -> at_stage "implement" b = true \/ at_stage "integrate" b = true -> text "agent" b <> text "agent" e.
Proof.
  unfold traj_06. rewrite flat_map_nil. setoid_rewrite agents_spec.
  assert (Hb : forall a, a ∈ builders events <->
    exists b, b ∈ events /\ (at_stage "implement" b = true \/ at_stage "integrate" b = true) /\ text "agent" b = a).
  { intros a. unfold builders, implementers. rewrite elem_of_app, !agents_spec. naive_solver. }
  assert (Ha : forall a, (if str_in a (builders events) then violate "TRAJ-06" "an implementer reviewed its own work" a else [])
      ++ (if str_in a REVIEWER_AGENTS then [] else violate "TRAJ-06" "review submitted by a non-reviewer agent" a) = []
      <-> a ∉ builders events /\ a ∈ REVIEWER_AGENTS).
  { intros a. rewrite <- str_in_false, <- (str_in_elem a REVIEWER_AGENTS).
    by destruct (str_in a (builders events)), (str_in a REVIEWER_AGENTS); (split; [|intros []]). }
  setoid_rewrite Ha. setoid_rewrite Hb. split.
  - intros Hall e He Hs. destruct (Hall (text "agent" e)) as [Hn Hr]; [eauto|]. split; [done|]. intros b Hb' Hst Eq. apply Hn. eauto.
  - intros Hall a (e & He & Hs & <-). destruct (Hall e He Hs) as [Hr Hn]. split; [|done]. intros (b & Hb' & Hst & Eq). by apply (Hn b).
Qed.

(** ** TRAJ-09 to TRAJ-11 *)

Lemma traj_09_spec events :
  traj_09 events = [] <->
  forall e, e ∈ events -> submits_review e = true ->
    (exists c, c ∈ events /\ readonly_check c = true /\ text "agent" c = text "agent" e) /\
    forall c, c ∈ events -> readonly_check c = true -> text "agent" c = text "agent" e -> field_is "verdict" "clean" c = true.
Proof.
  assert (Hv : forall s l, flat_map (violate "TRAJ-09" s) l = [] <-> l = []) by (intros s [|]; done).
  unfold traj_09. rewrite app_nil, !Hv, minus_nil, filter_nil_iff, Forall_forall.
  assert (Hs : forall a, a ∈ sorted_set (agents submits_review events) <->
    exists e, e ∈ events /\ submits_review e = true /\ text "agent" e = a) by (intros a; by rewrite sorted_set_elem, agents_spec).
  assert (Hc : forall a, a ∈ clean events <-> exists c, c ∈ events /\ (readonly_check c = true /\ field_is "verdict" "clean" c = true) /\ text "agent" c = a).
  { intros a. unfold clean. rewrite agents_spec. by setoid_rewrite andb_true_iff. }
  assert (Hd : forall a, a ∈ dirty events <-> exists c, c ∈ events /\ (readonly_check c = true /\ field_is "verdict" "clean" c = false) /\ text "agent" c = a).
  { intros a. unfold dirty. rewrite agents_spec. setoid_rewrite andb_true_iff. by setoid_rewrite negb_true_iff. }
  assert (Hm : forall a, a ∈ minus (sorted_set (agents submits_review events)) (clean events)
                         <-> a ∈ sorted_set (agents submits_review events) /\ a ∉ clean events).
  { intros a. unfold minus. rewrite list_elem_of_In, filter_In, <- list_elem_of_In, negb_true_iff. by rewrite str_in_false. }
  setoid_rewrite Hm. split.
  - intros [Hdirty Hclean] e He Hr. assert (Ha : text "agent" e ∈ sorted_set (agents submits_review events)) by (apply Hs; eauto).
    assert (Hnd : text "agent" e ∉ dirty events) by (apply str_in_false; by apply Hdirty). split.
    + destruct (decide (text "agent" e ∈ clean events)) as [(c & ? & [? ?] & ?)%Hc|Hn]; [eauto|]. by destruct Hnd; auto.
    + intros c Hc' Hro Ea. apply not_false_is_true. intros Hf. apply Hnd, Hd. eauto.
  - intros Hall. split.
    + intros a (e & He & Hr & <-)%Hs. apply str_in_false. intros (c & Hc' & [Hro Hf] & Ea)%Hd.
      destruct (Hall e He Hr) as [_ Hcl]. by rewrite (Hcl c) in Hf.
    + intros a [(e & He & Hr & <-)%Hs Hn]. exfalso. apply Hn, Hc. destruct (Hall e He Hr) as [(c & Hc' & Hro & Ea) Hcl]. eauto 6.
Qed.

(** What the last reconciliation that has such a part listed. *)
Definition part_of (prefix detail : string) : option (list string) :=
  latest (fun part => csv <$> after_prefix prefix part) (split_on ";" detail).
Definition reconciled (prefix : string) (e : event) : option (list string) :=
  if at_stage "reconcile" e then part_of prefix (detail_of e) else None.

Lemma last_part_spec prefix acc detail : last_part prefix acc detail = default acc (part_of prefix detail).
Proof.
  unfold part_of. rewrite <- foldl_latest. unfold last_part. revert acc.
  induction (split_on ";" detail) as [|p l IH]; intros acc; [done|]. cbn [foldl]. rewrite IH. by destruct (after_prefix prefix p).
Qed.

Lemma reconcile_step prefix acc e :
  (if at_stage "reconcile" e then last_part prefix acc (detail_of e) else acc) = default acc (reconciled prefix e).
Proof. unfold reconciled. destruct (at_stage "reconcile" e); [apply last_part_spec|done]. Qed.

Definition applies_fix : event -> bool := acts "fix" "fix".

Lemma latest_cons {A B} (f : A -> option B) x l (acc : B) : default acc (latest f (x :: l)) = default (default acc (f x)) (latest f l).
Proof. rewrite <- !foldl_latest. cbn [foldl]. by destruct (f x). Qed.

Lemma traj_10_from_spec acc events :
  traj_10_from acc events = [] <->
  forall i e, events !! i = Some e -> applies_fix e = true -> detail_of e ∈ default acc (latest (reconciled "accepted=") (take i events)).
Proof.
  revert acc. induction events as [|x events IH]; intros acc; cbn [traj_10_from].
  { split; [|done]. intros _ i e Hi. by rewrite lookup_nil in Hi. }
  rewrite (positions_cons (fun i e => applies_fix e = true -> _ ∈ default acc (latest _ (take i (x :: events))))).
  rewrite app_nil, IH, reconcile_step. cbn [take firstn]. setoid_rewrite latest_cons.
  assert (Hx : (if acts "fix" "fix" x && negb (str_in (detail_of x) (default acc (reconciled "accepted=" x)))
                then violate "TRAJ-10" "fix applied to a non-accepted finding" (detail_of x) else []) = []
               <-> (applies_fix x = true -> detail_of x ∈ acc)); [|by rewrite Hx].
  unfold applies_fix. destruct (acts "fix" "fix" x) eqn:Ef; [|done]. apply acts_spec in Ef as [Hf _].
  assert (reconciled "accepted=" x = None) as ->.
  { unfold reconciled. destruct (at_stage "reconcile" x) eqn:Er; [|done]. by pose proof (stage_unique _ _ _ Hf Er). }
  cbn [andb default from_option]. rewrite <- str_in_elem. destruct (str_in _ acc); cbn [negb]; [by split|]. unfold violate. split; [done|]. intros Hall. by specialize (Hall eq_refl).
Qed.

Lemma product_findings_latest events : product_findings events = default [] (latest (reconciled "product_decisions=") events).
Proof.
  rewrite <- foldl_latest. unfold product_findings. generalize (@nil string). induction events as [|e es IH]; intros acc; [done|].
  cbn [foldl]. by rewrite IH, reconcile_step.
Qed.

Lemma traj_11_spec events :
  traj_11 events = [] <->
  forall f, f ∈ default [] (latest (reconciled "product_decisions=") events) ->
    exists e, e ∈ events /\ field_is "action" "change_request_created" e = true /\ detail_of e = f.
Proof.
  unfold traj_11. rewrite <- product_findings_latest.
  pose proof (sorted_set_nil (minus (product_findings events) (change_requests_for events))) as Hn. rewrite minus_nil in Hn.
  transitivity (forall x, x ∈ product_findings events -> x ∈ change_requests_for events).
  { rewrite <- Hn. by destruct (sorted_set _). }
  assert (Hc : forall f, f ∈ change_requests_for events <->
    exists e, e ∈ events /\ field_is "action" "change_request_created" e = true /\ detail_of e = f); [|by setoid_rewrite Hc].
  intros f. unfold change_requests_for. rewrite list_elem_of_In, in_map_iff. setoid_rewrite filter_In.
  setoid_rewrite list_elem_of_In. naive_solver.
Qed.

(** ** TRAJ-12 to TRAJ-14 *)

Lemma last_index_snoc {A} (p : A -> bool) i acc l x :
  last_index_from p i acc (l ++ [x]) = if p x then Some (i + length l)%nat else last_index_from p i acc l.
Proof.
  revert i acc. induction l as [|y l IH]; intros i acc; cbn [app last_index_from length].
  - by rewrite Nat.add_0_r.
  - by rewrite IH, Nat.add_succ_comm.
Qed.

Lemma last_index_spec {A} (p : A -> bool) l :
  match last_index_from p 0 None l with
  | Some k => exists x, l !! k = Some x /\ p x = true /\ forall j y, (k < j)%nat -> l !! j = Some y -> p y = false
  | None => forall j y, l !! j = Some y -> p y = false
  end.
Proof.
  induction l as [|x l IH] using rev_ind; [done|]. rewrite last_index_snoc. destruct (p x) eqn:E.
  - exists x. split_and!; [by apply list_lookup_middle|done|]. intros j y Hj Hy. apply lookup_lt_Some in Hy.
    rewrite length_app in Hy. cbn in *. lia.
  - destruct (last_index_from p 0 None l).
    + destruct IH as (y & Hy & Hp & Hlast). exists y. split_and!; [by apply lookup_app_l_Some|done|].
      intros j z Hj [[_ Hz]|[_ <-]]%lookup_snoc_Some; eauto.
    + intros j z [[_ Hz]|[_ <-]]%lookup_snoc_Some; eauto.
Qed.

Lemma traj_12_spec events :
  traj_12 events = [] <->
  forall i e, events !! i = Some e -> applies_fix e = true -> exists j e', (i < j)%nat /\ events !! j = Some e' /\ at_stage "retest" e' = true.
Proof.
  unfold traj_12. change (acts "fix" "fix") with applies_fix. pose proof (last_index_spec applies_fix events) as Hlast.
  destruct (last_index_from applies_fix 0 None events) as [k|].
  2: { split; [|done]. intros _ i e Hi He. by rewrite (Hlast i e Hi) in He. }
  destruct Hlast as (x & Hx & Hp & Hlast). destruct (existsb _ _) eqn:E.
  - split; [|done]. intros _ i e Hi He. apply existsb_true in E as (y & Hy & Hr).
    apply list_elem_of_lookup_1 in Hy as (j & Hj). rewrite lookup_drop in Hj. exists (S k + j)%nat, y.
    split_and!; [|done..]. destruct (decide (k < i)%nat) as [Hl|]; [by rewrite (Hlast i e Hl Hi) in He|lia].
  - split; [done|]. intros Hall. destruct (Hall k x Hx Hp) as (j & y & Hj & Hy & Hr).
    rewrite existsb_false in E. rewrite (E y) in Hr; [done|]. apply (list_elem_of_lookup_2 _ (j - S k)). rewrite lookup_drop.
    by replace (S k + (j - S k))%nat with j by lia.
Qed.

Lemma traj_13_spec events :
  traj_13 events = [] <->
  after (at_stage "draft_pr") (at_stage "reconcile") events /\
  ((exists e, e ∈ events /\ at_stage "draft_pr" e = true) -> exists e, e ∈ events /\ at_stage "review" e = true).
Proof.
  rewrite <- (precedes_spec "TRAJ-13" "" "" "reconcile" "" "draft_pr") by done. unfold traj_13, precedes.
  pose proof (first_index_spec events "draft_pr") as Hp. pose proof (first_index_spec events "review") as Hr.
  destruct (_first_index events "draft_pr") as [p|].
  2: { split; [|done]. intros _. split; [done|]. intros (e & (j & Hj)%list_elem_of_lookup_1 & He). by rewrite (Hp j e Hj) in He. }
  destruct Hp as (x & Hx & Hs & _).
  destruct (_first_index events "review") as [r|], (_first_index events "reconcile") as [c|]; try (split; [done|by intros [? _]]).
  - destruct Hr as (y & Hy & Hr & _). destruct (p <? c)%nat; [split; [done|by intros [? _]]|]. split; [|done]. intros _. split; [done|].
    intros _. exists y. split; [by eapply list_elem_of_lookup_2|done].
  - split; [done|]. intros [_ Hex]. destruct Hex as (e & (j & Hj)%list_elem_of_lookup_1 & He); [|by rewrite (Hr j e Hj) in He].
    exists x. split; [by eapply list_elem_of_lookup_2|done].
Qed.

Lemma traj_14_spec events :
  traj_14 events = Ok [] <->
  forall e, e ∈ events -> production_deploy e = true -> exists a, _digest e "input_digests" "approval" = Ok (Some a) /\ a <> ""%string.
Proof.
  unfold traj_14. rewrite bind_Ok_iff. setoid_rewrite Ok_iff. rewrite mapM_nils.
  assert (He : forall e, traj_14_event e = Ok [] <->
    (production_deploy e = true -> exists a, _digest e "input_digests" "approval" = Ok (Some a) /\ a <> ""%string)); [|by setoid_rewrite He].
  intros e. unfold traj_14_event. destruct (production_deploy e); [|done].
  destruct (_digest e "input_digests" "approval") as [[a|]|x]; cbn.
  - unfold nonempty. destruct (String.eqb_spec a "") as [->|Hn]; cbn.
    + split; [done|]. intros Ha. destruct (Ha eq_refl) as (b & [= <-] & ?). done.
    + split; [|done]. intros _ _. by exists a.
  - split; [done|]. intros Ha. by destruct (Ha eq_refl) as (b & ? & _).
  - split; [done|]. intros Ha. by destruct (Ha eq_refl) as (b & ? & _).
Qed.

(** ** TRAJ-08 *)

(** The candidate that the last freeze names. *)
Definition frozen (e : event) : option (option string) :=
  if at_stage "freeze" e then match _digest e "output_digests" "candidate" with Ok d => Some d | Raise _ => None end else None.
Definition candidate (events : list event) : option string := default None (latest frozen events).

(** Freezes name a digest or none; a review names that of the candidate. *)
Definition review_ok (pre : list event) (e : event) : Prop :=
  (at_stage "freeze" e = true -> exists d, _digest e "output_digests" "candidate" = Ok d) /\
  (submits_review e = true -> exists d, candidate pre = Some d /\ _digest e "input_digests" "candidate" = Ok (Some d)).

Lemma traj_08_spec events : traj_08 events = Ok [] <-> everywhere review_ok events.
Proof.
  apply (loop_state_of review_step candidate review_ok). intros pre e _. unfold review_step, review_ok.
  assert (Hc : candidate (pre ++ [e]) = default (candidate pre) (frozen e)).
  { unfold candidate. rewrite latest_snoc. by destruct (frozen e). }
  rewrite Hc. clear Hc. unfold frozen. destruct (at_stage "freeze" e) eqn:Ef.
  - assert (submits_review e = false) as ->.
    { apply not_true_is_false. intros [Hr _]%acts_spec. by pose proof (stage_unique _ _ _ Ef Hr). }
    destruct (_digest e "output_digests" "candidate") as [d|x]; cbn; (split; [|intros s Es]); try done.
    + split; [eauto|done].
    + intros [Hd _]. by destruct (Hd eq_refl) as (? & ?).
  - destruct (submits_review e); cbn [mbind res_bind default from_option]; [|by split; [|split]].
    destruct (_digest e "input_digests" "candidate") as [seen|x]; cbn [mbind res_bind]; [|split; [|done]].
    + destruct (candidate pre) as [d|]; cbn [orb].
      * destruct (bool_decide_reflect (seen = Some d)) as [->|Hn]; cbn [negb].
        -- split; [done|]. intros _ _. split; [done|]. intros _. by exists d.
        -- split; [|done]. intros [_ Hs]. destruct (Hs eq_refl) as (d' & [= <-] & [= ->]). done.
      * split; [|done]. intros [_ Hs]. by destruct (Hs eq_refl) as (d & ? & _).
    + intros [_ Hs]. by destruct (Hs eq_refl) as (d & _ & ?).
Qed.

(** ** TRAJ-15: one policy, and only its destinations *)

Section Boundary.
Context `{Rfc8785}.

(** The policy that a binding event carries: the digest of its allowlist. *)
Definition policy_of (key member : string) (e : event) : option (string * list string) :=
  match read_binding key member e with Ok (Bound d allowed, _) => Some (d, allowed) | _ => None end.

Lemma policy_of_spec key member e d allowed :
  policy_of key member e = Some (d, allowed) <->
  _parse_allowed_destinations (detail_of e) = Some allowed /\ _digest e "output_digests" key = Ok (Some d) /\
  canonical_digest (JObj [(member, JArr (map JStr allowed))]) = Ok d.
Proof.
  unfold policy_of, read_binding. destruct (_digest e "output_digests" key) as [[d'|]|x]; cbn.
  2: { split; [by destruct (_parse_allowed_destinations _)|by intros (_ & ? & _)]. }
  2: { split; [done|by intros (_ & ? & _)]. }
  destruct (_parse_allowed_destinations (detail_of e)) as [l|]; [|by split; [|intros (? & _)]].
  destruct (canonical_digest _) as [x|x] eqn:E; cbn.
  - destruct (String.eqb_spec d' x) as [->|Hn].
    + split; [intros [= <- <-]; done|]. intros ([= <-] & [= <-] & _). done.
    + split; [done|]. intros ([= <-] & [= <-] & E'). congruence.
  - split; [done|]. intros ([= <-] & _ & E'). congruence.
Qed.

(** The policy of the first binding event. *)
Definition first_policy (binds : event -> bool) (key member : string) (events : list event) : option (string * list string) :=
  foldl (fun acc e => match acc with Some p => Some p | None => if binds e then policy_of key member e else None end) None events.

Section Policy.
Variables (binds : event -> bool) (key member : string).
Abbreviation policy_before := (first_policy binds key member).

Lemma first_policy_snoc events e :
  policy_before (events ++ [e])
  = match policy_before events with Some p => Some p | None => if binds e then policy_of key member e else None end.
Proof. unfold first_policy. by rewrite foldl_app. Qed.

Lemma first_policy_found events p : policy_before events = Some p ->
  exists j e, events !! j = Some e /\ binds e = true /\ policy_of key member e = Some p.
Proof.
  induction events as [|x events IH] using rev_ind; [done|]. rewrite first_policy_snoc.
  destruct (policy_before events) as [q|].
  - intros Eq. destruct (IH Eq) as (j & e & Hj & He). exists j, e. split; [by apply lookup_app_l_Some|done].
  - destruct (binds x) eqn:Ex; [|done]. intros Ep. exists (length events), x. by rewrite list_lookup_middle.
Qed.

(** A binding event is whole, and repeats the policy when there is one. *)
Definition binding_ok (pre : list event) (e : event) : Prop :=
  binds e = true -> exists p, policy_of key member e = Some p /\ (policy_before pre = None \/ policy_before pre = Some p).

Lemma bind_policy_quiet check name i b e b' :
  bind_policy check name key member i b e = Ok (b', []) <->
  exists p, policy_of key member e = Some p /\ (b = None \/ b = Some p) /\ b' = Some p.
Proof.
  unfold bind_policy, policy_of. destruct (read_binding key member e) as [[[|d x|d allowed] digest]|x]; cbn;
    try (split; [done|by intros (p & ? & _)]).
  destruct b as [[d0 allowed0]|].
  - destruct (String.eqb_spec d d0) as [->|Hd]; cbn; [destruct (bool_decide_reflect (allowed = allowed0)) as [->|Ha]; cbn|].
    + split; [intros [= <-]; eauto|]. by intros (p & [= <-] & _ & ->).
    + split; [done|]. intros (p & [= <-] & [?|[= <-]] & _); done.
    + split; [done|]. intros (p & [= <-] & [?|[= <- _]] & _); done.
  - split; [intros [= <-]; eauto|]. by intros (p & [= <-] & _ & ->).
Qed.

Lemma bind_policy_ok check name i pre e : binds e = true ->
  (binding_ok pre e -> bind_policy check name key member i (policy_before pre) e = Ok (policy_before (pre ++ [e]), [])) /\
  (forall s, bind_policy check name key member i (policy_before pre) e = Ok (s, []) -> binding_ok pre e).
Proof.
  intros Hb. rewrite first_policy_snoc, Hb. split.
  - intros (p & Ep & Hp)%(fun f => f Hb). apply bind_policy_quiet. exists p. split_and!; [done|done|].
    by destruct Hp as [-> | ->].
  - intros s (p & Ep & Hp & _)%bind_policy_quiet _. eauto.
Qed.
End Policy.

Definition egress_policy : list event -> option (string * list string) :=
  first_policy binds_egress "egress_policy" "allowed_destinations".
Definition reach_ok (pre : list event) (e : event) : Prop :=
  reaches e = true -> exists d allowed dest,
    egress_policy pre = Some (d, allowed) /\ _digest e "input_digests" "egress_policy" = Ok (Some d) /\
    _parse_destination (detail_of e) = Some dest /\ dest ∈ allowed.
Definition egress_ok (pre : list event) (e : event) : Prop :=
  binding_ok binds_egress "egress_policy" "allowed_destinations" pre e /\ reach_ok pre e.

Lemma check_reach_quiet i b e : check_reach i b e = Ok [] <->
  exists d allowed dest, b = Some (d, allowed) /\ _digest e "input_digests" "egress_policy" = Ok (Some d) /\
    _parse_destination (detail_of e) = Some dest /\ dest ∈ allowed.
Proof.
  unfold check_reach. destruct (_digest e "input_digests" "egress_policy") as [seen|x]; cbn [mbind res_bind].
  2: { split; [done|]. by intros (d & allowed & dest & _ & ? & _). }
  destruct b as [[d allowed]|]; [|split; [done|by intros (d & allowed & dest & ? & _)]].
  destruct (bool_decide_reflect (seen = Some d)) as [->|Hn]; cbn [negb].
  2: { split; [done|]. intros (d' & allowed' & dest & [= <- <-] & [= ->] & _). done. }
  destruct (_parse_destination (detail_of e)) as [dest|].
  2: { split; [done|]. by intros (d' & allowed' & dest & _ & _ & ? & _). }
  destruct (str_in dest allowed) eqn:E.
  - split; [|done]. intros _. exists d, allowed, dest. by rewrite <- str_in_elem.
  - split; [done|]. intros (d' & allowed' & dest' & [= <- <-] & _ & [= <-] & Hin). by apply str_in_false in E.
Qed.

Lemma traj_15_spec events : traj_15 events = Ok [] <-> everywhere egress_ok events.
Proof.
  apply (loop_state_of egress_step egress_policy egress_ok). intros pre e _. unfold egress_step, egress_ok, reach_ok.
  destruct (binds_egress e) eqn:Eb.
  - assert (reaches e = false) as ->.
    { apply not_true_is_false. intros [Hr _]%acts_spec. apply acts_spec in Eb as [Hb _]. by pose proof (stage_unique _ _ _ Hr Hb). }
    destruct (bind_policy_ok binds_egress "egress_policy" "allowed_destinations" "TRAJ-15" "egress" (length pre) pre e Eb) as [Hok Hq].
    split; [intros [Hb _]; by apply Hok|]. intros s Es. split; [by eapply Hq|done].
  - assert (egress_policy (pre ++ [e]) = egress_policy pre) as ->.
    { unfold egress_policy. rewrite first_policy_snoc, Eb. by destruct (first_policy _ _ _ _). }
    assert (Hb : binding_ok binds_egress "egress_policy" "allowed_destinations" pre e) by (intros Hb; congruence).
    destruct (reaches e); [|by split; [|split]]. pose proof (check_reach_quiet (length pre) (egress_policy pre) e) as Hq. split.
    + intros [_ Hr]. apply proj2 in Hq. rewrite (Hq (Hr eq_refl)). done.
    + intros s Es. split; [done|]. intros _. apply Hq. destruct (check_reach _ _ e) as [vs|x]; [|done]. cbn in Es. by injection Es as _ ->.
Qed.
End Boundary.
End Text.
