(* ===== verification/TrajectoryTheorems.v ===== *)
(** * Trajectory checks: theorems

    A clean verdict is the specified order of the run, an egress that stays
    within one frozen policy, and capabilities whose authority is that policy.

    ** Trajectory checks: a concrete run

    A run that binds an egress and a capability policy, reaches an allowed
    destination, grants and uses a capability; and one step of each that is
    refused. *)
From Stdlib Require Import Ascii String.
From S2P Require Import Prelude Json JsonText Canonical JsonSpec PyStr PyConv Trajectory TrajectoryFacts.

Section Theorems.
Context `{Unicode, Rfc8785}.

(** ** TRAJ-16 *)

Definition capability_policy : list event -> option (string * list string) :=
  first_policy binds_capability "capability_policy" "allowed_capabilities".

(** The digest and the capability that a grant event names; the grants in force,
    a later one replacing an earlier one with the same digest; the digests of the
    uses, in order. *)
Definition grant_of (e : event) : option (string * string) :=
  if grants e then
    match _parse_capability_grant (detail_of e), _digest e "output_digests" "capability_grant" with
    | Some (capability, _, _), Ok (Some g) => Some (g, capability)
    | _, _ => None
    end
  else None.
Definition grants_of (events : list event) : list (string * string) :=
  foldl (fun acc e => match grant_of e with Some (g, c) => assoc_set g c acc | None => acc end) [] events.
Definition use_of (e : event) : list string :=
  if attests_use e then match _digest e "output_digests" "capability_use" with Ok (Some d) => [d] | _ => [] end else [].
Definition uses_of (events : list event) : list string := flat_map use_of events.

(** A grant is of the frozen policy, by its authority, within its allowlist. *)
Definition grant_ok (pre : list event) (e : event) : Prop :=
  grants e = true -> exists policy allowed capability source g,
    capability_policy pre = Some (policy, allowed) /\ _digest e "input_digests" "capability_policy" = Ok (Some policy) /\
    _parse_capability_grant (detail_of e) = Some (capability, "boundary_policy"%string, source) /\
    canonical_digest (grant_payload "boundary_policy" capability policy source) = Ok g /\
    _digest e "output_digests" "capability_grant" = Ok (Some g) /\ capability ∈ allowed.

(** A use is of a capability that a grant in force gives. *)
Definition use_ok (pre : list event) (e : event) : Prop :=
  attests_use e = true -> exists policy allowed capability g u,
    capability_policy pre = Some (policy, allowed) /\ _digest e "input_digests" "capability_policy" = Ok (Some policy) /\
    _digest e "input_digests" "capability_grant" = Ok (Some g) /\ _parse_capability_use (detail_of e) = Some capability /\
    assoc g (grants_of pre) = Some capability /\
    canonical_digest (use_payload capability g policy) = Ok u /\ _digest e "output_digests" "capability_use" = Ok (Some u).

(** A release report names the digest of all the uses before it. *)
Definition release_ok (declared : bool) (pre : list event) (e : event) : Prop :=
  release_ready e = true -> declared = true -> exists d,
    uses_of pre <> [] /\ canonical_digest (uses_payload (uses_of pre)) = Ok d /\
    _digest e "input_digests" "capability_uses" = Ok (Some d).

Definition capability_ok (declared : bool) (pre : list event) (e : event) : Prop :=
  binding_ok binds_capability "capability_policy" "allowed_capabilities" pre e /\
  grant_ok pre e /\ use_ok pre e /\ release_ok declared pre e.

Definition capability_state_of (pre : list event) : capability_state :=
  {| bound := capability_policy pre; validated_grants := grants_of pre; validated_capability_uses := uses_of pre |}.

(** Neither side holds: the check refuses, and an equation of the other side is false. *)
Ltac refused :=
  split; [by intros [=]|];
  let H := fresh in intros H;
  repeat match type of H with
         | exists _, _ => destruct H as [? H]
         | _ /\ _ => let E := fresh in destruct H as [E H]
         end;
  simplify_eq; congruence.

Lemma check_grant_quiet i s e s' :
  check_grant i s e = Ok (s', []) <-> exists policy allowed capability source g,
    bound s = Some (policy, allowed) /\ _digest e "input_digests" "capability_policy" = Ok (Some policy) /\
    _parse_capability_grant (detail_of e) = Some (capability, "boundary_policy"%string, source) /\
    canonical_digest (grant_payload "boundary_policy" capability policy source) = Ok g /\
    _digest e "output_digests" "capability_grant" = Ok (Some g) /\ str_in capability allowed = true /\
    s' = add_grant g capability s.
Proof.
  unfold check_grant, refuse, violate.
  destruct (_digest e "input_digests" "capability_policy") as [seen|x]; cbn [mbind res_bind]; [|refused].
  destruct (bound s) as [[policy allowed]|]; [|refused].
  destruct (bool_decide_reflect (seen = Some policy)) as [->|Hn]; cbn [negb]; [|refused].
  destruct (_parse_capability_grant (detail_of e)) as [[[capability origin] source]|]; [|refused].
  destruct (canonical_digest (grant_payload origin _ _ _)) as [expected|x] eqn:Ec; cbn [mbind res_bind]; [|refused].
  destruct (_digest e "output_digests" "capability_grant") as [recorded|x]; cbn [mbind res_bind]; [|refused].
  destruct (bool_decide_reflect (recorded = Some expected)) as [->|Hr]; cbn [negb]; [|refused].
  destruct (String.eqb_spec origin "boundary_policy") as [->|Ho]; cbn [negb]; [|refused].
  destruct (str_in capability allowed) eqn:Ea; cbn [negb]; [|refused].
  split; [intros [= <-]; eauto 15|]. intros (p & a & c & src & g & [= <- <-] & _ & [= <- <-] & Eg & [= <-] & _ & ->). done.
Qed.

Lemma check_use_quiet i s e s' :
  check_use i s e = Ok (s', []) <-> exists policy allowed capability g u,
    bound s = Some (policy, allowed) /\ _digest e "input_digests" "capability_policy" = Ok (Some policy) /\
    _digest e "input_digests" "capability_grant" = Ok (Some g) /\ _parse_capability_use (detail_of e) = Some capability /\
    assoc g (validated_grants s) = Some capability /\
    canonical_digest (use_payload capability g policy) = Ok u /\ _digest e "output_digests" "capability_use" = Ok (Some u) /\
    s' = add_use u s.
Proof.
  unfold check_use, refuse, violate.
  destruct (_digest e "input_digests" "capability_policy") as [seen|x]; cbn [mbind res_bind]; [|refused].
  destruct (_digest e "input_digests" "capability_grant") as [grant|x]; cbn [mbind res_bind]; [|refused].
  destruct (bound s) as [[policy allowed]|]; cbn [fmap option_fmap option_map fst default from_option id]; [|refused].
  destruct (bool_decide_reflect (seen = Some policy)) as [->|Hn]; cbn [negb]; [|refused].
  destruct (_parse_capability_use (detail_of e)) as [capability|]; [|refused]. destruct grant as [g|]; [|refused].
  destruct (bool_decide_reflect (assoc g (validated_grants s) = Some capability)) as [Hg|Hg]; cbn [negb]; [|refused].
  destruct (canonical_digest (use_payload _ _ _)) as [expected|x] eqn:Ec; cbn [mbind res_bind]; [|refused].
  destruct (_digest e "output_digests" "capability_use") as [recorded|x]; cbn [mbind res_bind]; [|refused].
  destruct (bool_decide_reflect (recorded = Some expected)) as [->|Hr]; cbn [negb]; [|refused].
  split; [intros [= <-]; eauto 15|]. intros (p & a & c & g' & u & [= <- <-] & _ & [= <-] & [= <-] & _ & _ & [= <-] & ->). done.
Qed.

Lemma check_release_quiet i s e s' :
  check_release i s e = Ok (s', []) <-> exists d,
    validated_capability_uses s <> [] /\ canonical_digest (uses_payload (validated_capability_uses s)) = Ok d /\
    _digest e "input_digests" "capability_uses" = Ok (Some d) /\ s' = s.
Proof.
  unfold check_release, refuse, violate. destruct (validated_capability_uses s) as [|u us]; [refused|].
  destruct (canonical_digest _) as [expected|x]; cbn [mbind res_bind]; [|refused].
  destruct (_digest e "input_digests" "capability_uses") as [recorded|x]; cbn [mbind res_bind]; [|refused].
  destruct (bool_decide_reflect (recorded = Some expected)) as [->|Hr]; cbn [negb]; [|refused].
  split; [intros [= <-]; eauto 10|]. intros (d & _ & [= <-] & _ & ->). done.
Qed.

(** The kinds of event that the loop looks at exclude each other. *)
Lemma acts_exclusive st a st' a' e : acts st a e = true -> acts st' a' e = true -> st = st' /\ a = a'.
Proof. intros [Hs Ha]%acts_spec [Hs' Ha']%acts_spec. eauto using stage_unique, action_unique. Qed.

Lemma release_acts e : release_ready e = true -> acts "release_report" "report" e = true.
Proof. by intros [? _]%andb_prop. Qed.

Lemma kinds e :
  binds_capability e = true /\ grants e = false /\ attests_use e = false /\ release_ready e = false \/
  binds_capability e = false /\ grants e = true /\ attests_use e = false /\ release_ready e = false \/
  binds_capability e = false /\ grants e = false /\ attests_use e = true /\ release_ready e = false \/
  binds_capability e = false /\ grants e = false /\ attests_use e = false.
Proof.
  assert (Hx : forall st a st' a', acts st a e = true -> st <> st' \/ a <> a' -> acts st' a' e = false).
  { intros st a st' a' Ht Hne. apply not_true_is_false. intros Ht'. destruct (acts_exclusive _ _ _ _ _ Ht Ht'). naive_solver. }
  assert (Hr : forall st a, acts st a e = true -> st <> "release_report"%string -> release_ready e = false).
  { intros st a Ht Hne. unfold release_ready. rewrite (Hx _ _ "release_report"%string "report"%string Ht); [done|by left]. }
  unfold binds_capability, grants, attests_use.
  destruct (acts "boundary" "bind_capability_policy" e) eqn:Eb; [left|right].
  { split_and!; [done|by apply (Hx _ _ _ _ Eb); left|by apply (Hx _ _ _ _ Eb); right|by apply (Hr _ _ Eb)]. }
  destruct (acts "external" "capability_grant" e) eqn:Eg; [left|right].
  { split_and!; [done|done|by apply (Hx _ _ _ _ Eg); left|by apply (Hr _ _ Eg)]. }
  destruct (acts "boundary" "attest_capability_use" e) eqn:Eu; [left|right]; split_and!; try done. by apply (Hr _ _ Eu).
Qed.

Lemma policy_kept pre e : binds_capability e = false -> capability_policy (pre ++ [e]) = capability_policy pre.
Proof. intros Hb. unfold capability_policy. rewrite first_policy_snoc, Hb. by destruct (first_policy _ _ _ _). Qed.
Lemma grants_snoc pre e :
  grants_of (pre ++ [e]) = match grant_of e with Some (g, c) => assoc_set g c (grants_of pre) | None => grants_of pre end.
Proof. unfold grants_of. by rewrite foldl_app. Qed.
Lemma uses_snoc pre e : uses_of (pre ++ [e]) = uses_of pre ++ use_of e.
Proof. unfold uses_of. rewrite flat_map_app. cbn. by rewrite app_nil_r. Qed.

Lemma state_snoc pre e :
  capability_state_of (pre ++ [e])
  = {| bound := capability_policy (pre ++ [e]);
       validated_grants := match grant_of e with Some (g, c) => assoc_set g c (grants_of pre) | None => grants_of pre end;
       validated_capability_uses := uses_of pre ++ use_of e |}.
Proof. unfold capability_state_of. by rewrite grants_snoc, uses_snoc. Qed.

Lemma traj_16_spec events :
  traj_16 events = Ok [] <-> everywhere (capability_ok (existsb binds_capability events)) events.
Proof.
  unfold traj_16. generalize (existsb binds_capability events) as declared. intros declared.
  apply (loop_state_of (capability_step declared) capability_state_of (capability_ok declared)). intros pre e _.
  rewrite state_snoc. unfold capability_step, capability_ok, grant_ok, use_ok, release_ok, grant_of, use_of.
  destruct (kinds e) as [(Eb & Eg & Eu & Er)|[(Eb & Eg & Eu & Er)|[(Eb & Eg & Eu & Er)|(Eb & Eg & Eu)]]]; rewrite Eb, Eg, Eu, ?Er.
  - destruct (bind_policy_ok binds_capability "capability_policy" "allowed_capabilities" "TRAJ-16" "capability" (length pre) pre e Eb)
      as [Hok Hq]. cbn [capability_state_of bound]. split.
    + intros [Hb _]. unfold capability_policy at 1. rewrite (Hok Hb). rewrite app_nil_r. done.
    + intros s Es. split_and!; [|done..]. unfold capability_policy in Es at 1.
      destruct (bind_policy _ _ _ _ _ _ e) as [[b vs]|x] eqn:Ebind; [|done]. cbn in Es. injection Es as _ ->. by eapply Hq.
  - rewrite policy_kept by done. split.
    + intros (_ & Hg & _). destruct (Hg eq_refl) as (policy & allowed & c & src & g & Hp & Hs & Hd & Hc & Ho & Hin).
      rewrite Hd, Ho, app_nil_r. apply (check_grant_quiet _ _ _ _). apply str_in_elem in Hin. eauto 15.
    + intros s (policy & allowed & c & src & g & Hp & Hs & Hd & Hc & Ho & Hin & _)%check_grant_quiet. apply str_in_elem in Hin.
      split_and!; [intros ?; congruence|eauto 15|done..].
  - rewrite policy_kept by done. split.
    + intros (_ & _ & Hu & _). destruct (Hu eq_refl) as (policy & allowed & c & g & u & Hp & Hs & Hg & Hd & Ha & Hc & Ho).
      rewrite Ho. apply (check_use_quiet _ _ _ _). eauto 15.
    + intros s (policy & allowed & c & g & u & Hp & Hs & Hg & Hd & Ha & Hc & Ho & _)%check_use_quiet.
      split_and!; [intros ?; congruence|done|eauto 15|done].
  - rewrite policy_kept, app_nil_r by done. destruct (release_ready e && declared) eqn:Er.
    + apply andb_prop in Er as [-> ->]. split.
      * intros (_ & _ & _ & Hr). destruct (Hr eq_refl eq_refl) as (d & Hd). apply check_release_quiet. exists d. naive_solver.
      * intros s (d & Hd)%check_release_quiet. split_and!; [intros ?; congruence|done|done|]. intros _ _. exists d. naive_solver.
    + split; [done|]. intros s _. split_and!; [intros ?; congruence|done|done|]. intros Hr Hd. by rewrite Hr, Hd in Er.
Qed.

(** ** The specified order of a run *)

Record well_ordered (events : list event) : Prop := {
  (* TRAJ-01, 03, 07, 13: the stages come one after the other *)
  architecture_after_lock : after (at_stage "architecture") (at_stage "contract_lock") events;
  implementation_after_architecture : after (at_stage "implement") (at_stage "architecture") events;
  review_after_freeze : after (at_stage "review") (at_stage "freeze") events;
  draft_after_reconcile : after (at_stage "draft_pr") (at_stage "reconcile") events;
  draft_is_reviewed : (exists e, e ∈ events /\ at_stage "draft_pr" e = true) -> exists e, e ∈ events /\ at_stage "review" e = true;
  (* TRAJ-02: one contract *)
  contracts_read : Forall digests_read events;
  one_contract : forall e e' d d', e ∈ events -> e' ∈ events -> names_contract d e -> names_contract d' e' -> d = d';
  (* TRAJ-04, 05: who implements what, and after which tests *)
  implementers_routed : forall e, e ∈ events -> at_stage "implement" e = true -> text "agent" e ∈ default [] (latest routed events);
  tests_first : forall i e, events !! i = Some e -> implements_task e = true ->
    exists e', e' ∈ take i events /\ tests_task e' = true /\ detail_of e' = detail_of e;
  (* TRAJ-06, 08, 09: reviewers are on the roster, built nothing, saw the candidate, wrote nothing *)
  reviewers_independent : forall e, e ∈ events -> submits_review e = true ->
    text "agent" e ∈ REVIEWER_AGENTS /\
    forall b, b ∈ events -> at_stage "implement" b = true \/ at_stage "integrate" b = true -> text "agent" b <> text "agent" e;
  candidate_reviewed : everywhere review_ok events;
  reviewers_read_only : forall e, e ∈ events -> submits_review e = true ->
    (exists c, c ∈ events /\ readonly_check c = true /\ text "agent" c = text "agent" e) /\
    forall c, c ∈ events -> readonly_check c = true -> text "agent" c = text "agent" e -> field_is "verdict" "clean" c = true;
  (* TRAJ-10 to 12: only accepted findings are fixed, decisions are requested, fixes are retested *)
  fixes_accepted : forall i e, events !! i = Some e -> applies_fix e = true ->
    detail_of e ∈ default [] (latest (reconciled "accepted=") (take i events));
  decisions_requested : forall f, f ∈ default [] (latest (reconciled "product_decisions=") events) ->
    exists e, e ∈ events /\ field_is "action" "change_request_created" e = true /\ detail_of e = f;
  fixes_retested : forall i e, events !! i = Some e -> applies_fix e = true ->
    exists j e', (i < j)%nat /\ events !! j = Some e' /\ at_stage "retest" e' = true;
  (* TRAJ-14: production is approved *)
  production_approved : forall e, e ∈ events -> production_deploy e = true ->
    exists a, _digest e "input_digests" "approval" = Ok (Some a) /\ a <> ""%string
}.

Lemma tests_first_spec events :
  traj_05 events = [] <-> forall i e, events !! i = Some e -> implements_task e = true ->
    exists e', e' ∈ take i events /\ tests_task e' = true /\ detail_of e' = detail_of e.
Proof.
  unfold traj_05. rewrite traj_05_from_spec. unfold tested. split; intros Hall i e Hi He; [|right; by eapply Hall].
  by destruct (Hall i e Hi He) as [?%elem_of_nil|?].
Qed.

Lemma evaluate_nil events :
  evaluate_trajectory events = Ok [] <->
  (traj_01 events = [] /\ traj_02 events = Ok [] /\ traj_03 events = [] /\ traj_04 events = [] /\ traj_05 events = [] /\
   traj_06 events = [] /\ traj_07 events = [] /\ traj_08 events = Ok [] /\ traj_09 events = [] /\ traj_10 events = [] /\
   traj_11 events = [] /\ traj_12 events = [] /\ traj_13 events = [] /\ traj_14 events = Ok []) /\
  traj_15 events = Ok [] /\ traj_16 events = Ok [].
Proof.
  unfold evaluate_trajectory.
  destruct (traj_02 events), (traj_08 events), (traj_14 events), (traj_15 events), (traj_16 events); cbn [mbind res_bind];
    try (split; [done|by intros ((_ & ? & _ & _ & _ & _ & _ & ? & _ & _ & _ & _ & _ & ?) & ? & ?)]).
  rewrite !Ok_iff, !app_nil. tauto.
Qed.

Lemma well_ordered_iff events :
  (traj_01 events = [] /\ traj_02 events = Ok [] /\ traj_03 events = [] /\ traj_04 events = [] /\ traj_05 events = [] /\
   traj_06 events = [] /\ traj_07 events = [] /\ traj_08 events = Ok [] /\ traj_09 events = [] /\ traj_10 events = [] /\
   traj_11 events = [] /\ traj_12 events = [] /\ traj_13 events = [] /\ traj_14 events = Ok []) <-> well_ordered events.
Proof.
  unfold traj_01, traj_03, traj_07, traj_10. rewrite !precedes_spec by done.
  rewrite traj_02_spec, traj_04_spec, tests_first_spec, traj_06_spec, traj_08_spec, traj_09_spec, traj_10_from_spec,
    traj_11_spec, traj_12_spec, traj_13_spec, traj_14_spec.
  split; [intros H'; decompose [and] H'; by constructor|]. intros []. tauto.
Qed.

(** C21. The sixteen rules are silent exactly on the runs that keep the specified
    order and the two boundary policies: no rule misses a violation of it, and
    none reports a run that has none.  The order asks for tests before the
    implementation of every task, also of a task that has no tests at all, where
    the comment at TRAJ-05 says "where both exist". *)
Theorem clean_verdict_iff events :
  evaluate_trajectory events = Ok [] <->
  well_ordered events /\ everywhere egress_ok events /\ everywhere (capability_ok (existsb binds_capability events)) events.
Proof. by rewrite evaluate_nil, well_ordered_iff, traj_15_spec, traj_16_spec. Qed.

(** ** What a clean verdict says of the boundary, position by position *)

(** A binding event of the policy with that digest and that allowlist. *)
Definition binds_policy (binds : event -> bool) (key member : string) (e : event) (d : string) (allowed : list string) : Prop :=
  binds e = true /\ _parse_allowed_destinations (detail_of e) = Some allowed /\
  _digest e "output_digests" key = Ok (Some d) /\ canonical_digest (JObj [(member, JArr (map JStr allowed))]) = Ok d.

Lemma policy_is_bound binds key member events i d allowed :
  first_policy binds key member (take i events) = Some (d, allowed) ->
  exists j b, (j < i)%nat /\ events !! j = Some b /\ binds_policy binds key member b d allowed.
Proof.
  intros (j & b & Hj & Hb & Hp%policy_of_spec)%first_policy_found. apply lookup_take_Some in Hj as [Hj Hl].
  exists j, b. split_and!; [done..|]. by split.
Qed.

(** After a clean verdict, every external destination that was reached is in
    the allowlist of a policy bound before, whose digest the event names. *)
Theorem only_allowed_destinations events i e :
  evaluate_trajectory events = Ok [] -> events !! i = Some e -> reaches e = true ->
  exists j b d allowed dest, (j < i)%nat /\ events !! j = Some b /\
    binds_policy binds_egress "egress_policy" "allowed_destinations" b d allowed /\
    _digest e "input_digests" "egress_policy" = Ok (Some d) /\
    _parse_destination (detail_of e) = Some dest /\ dest ∈ allowed.
Proof.
  intros (_ & H15%traj_15_spec & _)%evaluate_nil Hi He.
  destruct (H15 i e Hi) as [_ Hr]. destruct (Hr He) as (d & allowed & dest & Hp & Hd & Hdest & Hin).
  apply policy_is_bound in Hp as (j & b & Hj & Hb & Hp). by exists j, b, d, allowed, dest.
Qed.

Lemma grants_of_found events g c : assoc g (grants_of events) = Some c ->
  exists j e, events !! j = Some e /\ grant_of e = Some (g, c).
Proof.
  induction events as [|x events IH] using rev_ind; [done|]. rewrite grants_snoc. intros Hg.
  assert (Hold : assoc g (grants_of events) = Some c -> exists j e, (events ++ [x]) !! j = Some e /\ grant_of e = Some (g, c)).
  { intros Ho. destruct (IH Ho) as (j & e & Hj & He). exists j, e. split; [by apply lookup_app_l_Some|done]. }
  destruct (grant_of x) as [[g' c']|] eqn:Ex; [|by apply Hold]. destruct (decide (g' = g)) as [->|Hne].
  - rewrite assoc_set_eq in Hg. injection Hg as ->. exists (length events), x. by rewrite list_lookup_middle.
  - rewrite assoc_set_ne in Hg by done. by apply Hold.
Qed.

(** C22. After a clean verdict, every attested use of a capability goes back, by
    digests, to a grant before it, which was made by the authority of the
    boundary policy bound before the grant and lies within its allowlist. *)
Theorem capability_authority_is_the_policy events i e :
  evaluate_trajectory events = Ok [] -> events !! i = Some e -> attests_use e = true ->
  exists j k b g policy allowed capability source grant,
    (j < k < i)%nat /\ events !! j = Some b /\ events !! k = Some g /\
    binds_policy binds_capability "capability_policy" "allowed_capabilities" b policy allowed /\
    grants g = true /\ _parse_capability_grant (detail_of g) = Some (capability, "boundary_policy"%string, source) /\
    canonical_digest (grant_payload "boundary_policy" capability policy source) = Ok grant /\ capability ∈ allowed /\
    _parse_capability_use (detail_of e) = Some capability /\ _digest e "input_digests" "capability_grant" = Ok (Some grant).
Proof.
  intros (_ & _ & H16%traj_16_spec)%evaluate_nil Hi He.
  destruct (H16 i e Hi) as (_ & _ & Hu & _).
  destruct (Hu He) as (policy & allowed & capability & grant & u & _ & _ & Hg & Hc & Ha & _).
  apply grants_of_found in Ha as (k & g & Hk & Hgrant). apply lookup_take_Some in Hk as [Hk Hki].
  assert (Hgr : grants g = true) by (unfold grant_of in Hgrant; by destruct (grants g)).
  destruct (H16 k g Hk) as (_ & Hgok & _).
  destruct (Hgok Hgr) as (policy' & allowed' & c & source & d & Hp & _ & Hparse & Hd & Hout & Hin).
  apply policy_is_bound in Hp as (j & b & Hj & Hb & Hp).
  unfold grant_of in Hgrant. rewrite Hgr, Hparse, Hout in Hgrant. injection Hgrant as -> ->.
  exists j, k, b, g, policy', allowed', capability, source, grant. split_and!; done || lia.
Qed.
End Theorems.

(** * Trajectory checks: a concrete run *)

#[local] Instance plain_unicode : Unicode := {| isprintable _ := true; isalnum _ := true; decimal _ := None |}.

Definition digest_of (v : json) : string := match canonical_digest v with Ok d => d | Raise _ => "" end.
Definition event_ (stage action detail : string) (inputs outputs : list (string * string)) : event := [
  ("stage", JStr stage); ("agent", JStr "core"); ("action", JStr action); ("detail", JStr detail);
  ("input_digests", strs inputs); ("output_digests", strs outputs)]%string.

Definition egress_digest : string := digest_of (JObj [("allowed_destinations", JArr [JStr "a.example"; JStr "b.example"])]%string).
Definition bind_egress : event := event_ "boundary" "bind_egress_policy" "allowed=b.example,a.example" [] [("egress_policy"%string, egress_digest)].
Definition reach (host : string) : event :=
  event_ "external" "reach_destination" ("destination=" +:+ host) [("egress_policy"%string, egress_digest)] [].

Definition capability_digest : string := digest_of (JObj [("allowed_capabilities", JArr [JStr "deploy"])]%string).
Definition bind_capability : event :=
  event_ "boundary" "bind_capability_policy" "allowed=deploy" [] [("capability_policy"%string, capability_digest)].
Definition grant_digest (origin : string) : string := digest_of (grant_payload origin "deploy" capability_digest "ticket").
Definition grant (origin : string) : event :=
  event_ "external" "capability_grant" ("capability=deploy;authority_origin=" +:+ origin +:+ ";source=ticket")
    [("capability_policy"%string, capability_digest)] [("capability_grant"%string, grant_digest origin)].
Definition use_digest (g : string) : string := digest_of (use_payload "deploy" g capability_digest).
Definition use (g : string) : event :=
  event_ "boundary" "attest_capability_use" "capability=deploy"
    [("capability_policy", capability_digest); ("capability_grant", g)]%string [("capability_use"%string, use_digest g)].

Definition egress_run : list event := [bind_egress; reach "a.example"].
Definition capability_run : list event := [bind_capability; grant "boundary_policy"; use (grant_digest "boundary_policy")].

Lemma egress_run_clean : evaluate_trajectory egress_run = Ok [].
Proof. vm_compute. reflexivity. Qed.
Lemma capability_run_clean : evaluate_trajectory capability_run = Ok [].
Proof. vm_compute. reflexivity. Qed.

(** A destination outside of the allowlist, and authority that an input claims. *)
Example refused_steps :
  map (fun r => match r with Ok vs => map (fun v => (check_id v, description v)) vs | Raise _ => [] end)
    [evaluate_trajectory [bind_egress; reach "c.example"]; evaluate_trajectory [bind_capability; grant "email"]]
  = [[("TRAJ-15", "unapproved external destination was reached")];
     [("TRAJ-16", "external input attempted to become the source of capability authority")]]%string.
Proof. vm_compute. reflexivity. Qed.

Lemma only_allowed_destinations_witness :
  exists j b d allowed dest, (j < 1)%nat /\ egress_run !! j = Some b /\
    binds_policy binds_egress "egress_policy" "allowed_destinations" b d allowed /\
    _digest (reach "a.example") "input_digests" "egress_policy" = Ok (Some d) /\
    _parse_destination (detail_of (reach "a.example")) = Some dest /\ dest ∈ allowed.
Proof. apply (only_allowed_destinations egress_run 1 (reach "a.example")); [exact egress_run_clean|reflexivity|reflexivity]. Defined.

Lemma capability_authority_is_the_policy_witness :
  exists j k b g policy allowed capability source grant_,
    (j < k < 2)%nat /\ capability_run !! j = Some b /\ capability_run !! k = Some g /\
    binds_policy binds_capability "capability_policy" "allowed_capabilities" b policy allowed /\
    grants g = true /\ _parse_capability_grant (detail_of g) = Some (capability, "boundary_policy"%string, source) /\
    canonical_digest (grant_payload "boundary_policy" capability policy source) = Ok grant_ /\ capability ∈ allowed /\
    _parse_capability_use (detail_of (use (grant_digest "boundary_policy"))) = Some capability /\
    _digest (use (grant_digest "boundary_policy")) "input_digests" "capability_grant" = Ok (Some grant_).
Proof.
  apply (capability_authority_is_the_policy capability_run 2 (use (grant_digest "boundary_policy")));
    [exact capability_run_clean|reflexivity|reflexivity].
Defined.
