(* ===== verification/Schema.v ===== *)
(** * Structural validation of a document ([ingestion/schema.py])

    The subset of JSON Schema that the contracts use.  The validator walks the
    schema, which is JSON itself, and collects one message per defect.

    ** The schema of a full-stack contract

    The packaged file [schemas/fullstack_product_contract.schema.json], as the
    value that [json.loads] makes of it. *)
From Stdlib Require Import Ascii String.
From Stdlib Require Import String.
From S2P Require Import Prelude Json JsonText PyStr PyConv.

(** [type(value).__name__]. *)
Definition type_name (v : json) : string :=
  match v with
  | JNull => "NoneType" | JBool _ => "bool" | JInt _ => "int" | JFloat _ => "float"
  | JStr _ => "str" | JArr _ => "list" | JObj _ => "dict"
  end.

(** [_TYPE_CHECKS]: the predicate is [isinstance], so a [bool] is an [int]. *)
Definition _TYPE_CHECKS : list (string * (json -> bool)) := [
  ("string", is_str); ("array", is_list); ("object", is_mapping); ("boolean", is_bool); ("integer", is_int);
  ("number", is_number)
]%string.

(** [value in container]. *)
Definition py_in (value container : json) : res bool :=
  match container with
  | JArr l => Ok (existsb (fun x => py_eq x value) l)
  | JObj m => if hashable value then Ok (existsb (fun p => py_eq (JStr (fst p)) value) m)
              else Raise (TypeError "unhashable type")
  | JStr s => match value with
              | JStr t => Ok (contains_str t s)
              | _ => Raise (TypeError "'in <string>' requires string as left operand")
              end
  | _ => Raise (TypeError "argument is not iterable")
  end.

(** [len] of a text. *)
Definition str_len (s : string) : Z := Z.of_nat (List.length (ords s)).

(** The messages of a loop, in its order. *)
Section Collect.
Context {A E : Type}.

Definition collect (f : A -> res (list E)) : list A -> res (list E) :=
  fix go (l : list A) : res (list E) :=
    match l with [] => Ok [] | x :: l' => e ← f x; es ← go l'; Ok (e ++ es) end.

Definition collect_indexed (f : nat -> A -> res (list E)) : nat -> list A -> res (list E) :=
  fix go (i : nat) (l : list A) : res (list E) :=
    match l with [] => Ok [] | x :: l' => e ← f i x; es ← go (S i) l'; Ok (e ++ es) end.
End Collect.

(** The member of a dict that a key names, when there is one. *)
Definition with_member {V A} (key : string) (default : A) (f : V -> A) : list (string * V) -> A :=
  fix go (m : list (string * V)) : A :=
    match m with
    | [] => default
    | (k, v) :: m' => if String.eqb key k then f v else go m'
    end.

Section Validator.
Context `{Unicode}.

(** The defect of the type, and of the value, that ends the visit of a node. *)
Definition type_defect (m : list (string * json)) (value : json) (label : string) : res (option string) :=
  match jget "type" m with
  | JNull => Ok None
  | expected =>
      known ← (if hashable expected then Ok (match expected with JStr s => assoc s _TYPE_CHECKS | _ => None end)
               else Raise (TypeError "unhashable type"));
      match known : option (json -> bool) with
      | None => Raise (ConfigError ("schema uses unsupported type '" +:+ py_str expected +:+ "' at " +:+ label))
      | Some is_instance =>
          if py_eq expected (JStr "integer") && is_bool value
          then Ok (Some (label +:+ ": expected integer, got boolean"))
          else if is_instance value then Ok None
          else Ok (Some (label +:+ ": expected " +:+ py_str expected +:+ ", got " +:+ type_name value))
      end
  end.

Definition enum_defect (m : list (string * json)) (value : json) (label : string) : res (option string) :=
  match assoc "enum" m with
  | None => Ok None
  | Some enum =>
      member ← py_in value enum;
      if member : bool then Ok None
      else allowed ← iterate enum;
           Ok (Some (label +:+ ": value " +:+ py_repr value +:+ " not one of [" +:+ join ", " (map py_repr allowed) +:+ "]"))
  end.

Definition length_defects (m : list (string * json)) (value : json) (label : string) : res (list string) :=
  match value, assoc "minLength" m with
  | JStr s, Some bound =>
      n ← as_int bound;
      Ok (if str_len (strip s) <? n then [label +:+ ": shorter than minLength " +:+ py_str bound] else [])
  | _, _ => Ok []
  end.

Definition count_defects (m : list (string * json)) (l : list json) (label : string) : res (list string) :=
  match assoc "minItems" m with
  | Some bound =>
      n ← as_int bound;
      Ok (if Z.of_nat (List.length l) <? n then [label +:+ ": needs at least " +:+ py_str bound +:+ " item(s)"] else [])
  | None => Ok []
  end.

Definition required_defects (m : list (string * json)) (fields : list (string * json)) (label : string) : res (list string) :=
  required ← iterate (match assoc "required" m with Some r => r | None => JArr [] end);
  collect (fun req =>
    present ← py_in req (JObj fields);
    Ok (if (present : bool) then [] else [label +:+ ": missing required field '" +:+ py_str req +:+ "'"])) required.

Fixpoint _validate_node (schema value : json) (path : string) {struct schema} : res (list string) :=
  match schema with
  | JObj m =>
      let label := if nonempty path then path else "specification"%string in
      wrong_type ← type_defect m value label;
      match wrong_type with
      | Some defect => Ok [defect]
      | None =>
          wrong_value ← enum_defect m value label;
          match wrong_value with
          | Some defect => Ok [defect]
          | None =>
              short ← length_defects m value label;
              nested ← match value with
                       | JArr l =>
                           few ← count_defects m l label;
                           items ← with_member "items" (Ok []) (fun item_schema =>
                             match item_schema with
                             | JObj _ => collect_indexed (fun i item =>
                                 _validate_node item_schema item (label +:+ "[" +:+ str_of_Z (Z.of_nat i) +:+ "]")) 0 l
                             | _ => Ok []
                             end) m;
                           Ok (few ++ items)
                       | JObj fields =>
                           missing ← required_defects m fields label;
                           members ← with_member "properties" (Ok []) (fun props =>
                             match props with
                             | JObj ps => collect (fun p =>
                                 match assoc (fst p) fields with
                                 | Some child => _validate_node (snd p) child (if nonempty path then path +:+ "." +:+ fst p else fst p)
                                 | None => Ok []
                                 end) ps
                             | _ => Raise (AttributeError "object has no attribute 'items'")
                             end) m;
                           Ok (missing ++ members)
                       | _ => Ok []
                       end;
              Ok (short ++ nested)
          end
      end
  | _ => Raise (AttributeError "object has no attribute 'get'")
  end.

(** [validate]: no message means that the document is structurally valid. *)
Definition validate (schema data : json) : res (list string) := _validate_node schema data "".
End Validator.

(** * The schema of a full-stack contract *)

Definition fullstack_schema : json := (JObj [
  ("$schema", JStr "https://json-schema.org/draft/2020-12/schema");
  ("$id", JStr "https://github.com/Abhillashjadhav/production-engineering-os/schemas/fullstack_product_contract.schema.json");
  ("title", JStr "FullStackProductContract");
  ("description", JStr "The V3 boundary object for full-stack web product delivery (PD-V3). Extends the ProductDecisionContract discipline to browser products: screens, UI states, user journey, backend capabilities, API contracts, accessibility and responsive requirements, release gates, deployment target, and explicit exclusions. Immutable within an engineering run; the canonical digest covers the whole document. Semantic runnability rules live in pmpe.fullstack.contract.");
  ("type", JStr "object");
  ("required", JArr [
    JStr "contract_version"; JStr "contract_id"; JStr "contract_status"; JStr "approved_at";
    JStr "approved_by"; JStr "product_name"; JStr "problem"; JStr "target_user";
    JStr "primary_journey"; JStr "screens"; JStr "ui_states"; JStr "backend_capabilities";
    JStr "data_entities"; JStr "api_contracts"; JStr "accessibility_requirements";
    JStr "responsive_requirements"; JStr "binary_release_gates"; JStr "guardrails";
    JStr "deployment_target"; JStr "out_of_scope"; JStr "unresolved_questions";
    JStr "required_approvals"]);
  ("properties", JObj [
    ("contract_version", JObj [("type", JStr "integer")]);
    ("contract_id", JObj [("type", JStr "string"); ("minLength", JInt 1)]);
    ("contract_status", JObj [
      ("type", JStr "string");
      ("enum", JArr [JStr "DRAFT"; JStr "APPROVED"; JStr "SUPERSEDED"; JStr "REJECTED"])]);
    ("approved_at", JObj [("type", JStr "string")]);
    ("approved_by", JObj [("type", JStr "string")]);
    ("product_name", JObj [("type", JStr "string"); ("minLength", JInt 1)]);
    ("problem", JObj [("type", JStr "string"); ("minLength", JInt 1)]);
    ("target_user", JObj [("type", JStr "string"); ("minLength", JInt 1)]);
    ("primary_journey", JObj [
      ("type", JStr "array");
      ("minItems", JInt 1);
      ("items", JObj [
        ("type", JStr "object");
        ("required", JArr [JStr "step_id"; JStr "description"; JStr "screen_id"]);
        ("properties", JObj [
          ("step_id", JObj [("type", JStr "string")]);
          ("description", JObj [("type", JStr "string"); ("minLength", JInt 1)]);
          ("screen_id", JObj [("type", JStr "string"); ("minLength", JInt 1)])])])]);
    ("screens", JObj [
      ("type", JStr "array");
      ("minItems", JInt 1);
      ("items", JObj [
        ("type", JStr "object");
        ("required", JArr [JStr "screen_id"; JStr "name"; JStr "purpose"; JStr "states"]);
        ("properties", JObj [
          ("screen_id", JObj [("type", JStr "string")]);
          ("name", JObj [("type", JStr "string"); ("minLength", JInt 1)]);
          ("purpose", JObj [("type", JStr "string"); ("minLength", JInt 1)]);
          ("states", JObj [
            ("type", JStr "array");
            ("minItems", JInt 1);
            ("items", JObj [("type", JStr "string"); ("minLength", JInt 1)])])])])]);
    ("ui_states", JObj [
      ("type", JStr "array");
      ("minItems", JInt 1);
      ("description", JStr "The UI-state vocabulary screens draw their declared states from; each screen lists the subset that applies to it.");
      ("items", JObj [("type", JStr "string"); ("minLength", JInt 1)])]);
    ("backend_capabilities", JObj [
      ("type", JStr "array");
      ("minItems", JInt 1);
      ("items", JObj [
        ("type", JStr "object");
        ("required", JArr [JStr "capability_id"; JStr "description"]);
        ("properties", JObj [
          ("capability_id", JObj [("type", JStr "string")]);
          ("description", JObj [("type", JStr "string"); ("minLength", JInt 1)])])])]);
    ("data_entities", JObj [
      ("type", JStr "array");
      ("items", JObj [
        ("type", JStr "object");
        ("required", JArr [JStr "entity_id"; JStr "name"; JStr "persistence"]);
        ("properties", JObj [
          ("entity_id", JObj [("type", JStr "string")]);
          ("name", JObj [("type", JStr "string"); ("minLength", JInt 1)]);
          ("persistence", JObj [
            ("type", JStr "string");
            ("enum", JArr [JStr "none"; JStr "ephemeral_session"; JStr "permanent"])])])])]);
    ("api_contracts", JObj [
      ("type", JStr "array");
      ("minItems", JInt 1);
      ("items", JObj [
        ("type", JStr "object");
        ("required", JArr [JStr "api_id"; JStr "method"; JStr "path"; JStr "purpose"]);
        ("properties", JObj [
          ("api_id", JObj [("type", JStr "string")]);
          ("method", JObj [
            ("type", JStr "string");
            ("enum", JArr [JStr "GET"; JStr "POST"; JStr "PUT"; JStr "PATCH"; JStr "DELETE"])]);
          ("path", JObj [("type", JStr "string")]);
          ("purpose", JObj [("type", JStr "string"); ("minLength", JInt 1)])])])]);
    ("accessibility_requirements", JObj [
      ("type", JStr "array");
      ("minItems", JInt 1);
      ("items", JObj [("type", JStr "string"); ("minLength", JInt 1)])]);
    ("responsive_requirements", JObj [
      ("type", JStr "array");
      ("minItems", JInt 1);
      ("items", JObj [("type", JStr "string"); ("minLength", JInt 1)])]);
    ("binary_release_gates", JObj [
      ("type", JStr "array");
      ("minItems", JInt 1);
      ("items", JObj [
        ("type", JStr "object");
        ("required", JArr [JStr "id"; JStr "description"]);
        ("properties", JObj [
          ("id", JObj [("type", JStr "string")]);
          ("description", JObj [("type", JStr "string"); ("minLength", JInt 1)])])])]);
    ("guardrails", JObj [
      ("type", JStr "array");
      ("minItems", JInt 1);
      ("items", JObj [("type", JStr "string"); ("minLength", JInt 1)])]);
    ("deployment_target", JObj [
      ("type", JStr "object");
      ("required", JArr [JStr "kind"; JStr "description"]);
      ("properties", JObj [
        ("kind", JObj [
          ("type", JStr "string");
          ("enum", JArr [JStr "local_preview"; JStr "containerized_preview"; JStr "cloud"])]);
        ("description", JObj [("type", JStr "string"); ("minLength", JInt 1)])])]);
    ("out_of_scope", JObj [
      ("type", JStr "array");
      ("minItems", JInt 1);
      ("items", JObj [("type", JStr "string"); ("minLength", JInt 1)])]);
    ("unresolved_questions", JObj [
      ("type", JStr "array");
      ("items", JObj [
        ("type", JStr "object");
        ("required", JArr [JStr "id"; JStr "question"; JStr "blocking"]);
        ("properties", JObj [
          ("id", JObj [("type", JStr "string")]);
          ("question", JObj [("type", JStr "string"); ("minLength", JInt 1)]);
          ("blocking", JObj [("type", JStr "boolean")]);
          ("resolution", JObj [("type", JStr "string")])])])]);
    ("required_approvals", JObj [("type", JStr "array"); ("items", JObj [("type", JStr "string"); ("minLength", JInt 1)])])])])%string.
