(* ===== verification/FullstackContract.v ===== *)
(** * The full-stack contract ([fullstack/contract.py])

    The typed contract, its loader and what keeps it from running.  The loader
    validates against the packaged schema, then refuses repeated identifiers. *)
From Stdlib Require Import Ascii String.
From S2P Require Import Prelude Json JsonText Canonical PyStr PyConv Schema.

Record JourneyStep : Type := { step_id : string; step_description : string; step_screen_id : string }.
Record Screen : Type := { screen_id : string; screen_name : string; purpose : string; states : list string }.
Record BackendCapability : Type := { capability_id : string; capability_description : string }.
Record DataEntity : Type := { entity_id : string; entity_name : string; persistence : string }.
Record ApiContract : Type := { api_id : string; method : string; api_path : string; api_purpose : string }.
Record FullStackReleaseGate : Type := { gate_id : string; gate_description : string }.
Record FullStackQuestion : Type := { question_id : string; question : string; blocking : bool; resolution : string }.
Record DeploymentTarget : Type := { kind : string; target_description : string }.

Record FullStackProductContract : Type := {
  contract_id : string; contract_version : Z; contract_status : string; approved_at : string; approved_by : string;
  product_name : string; problem : string; target_user : string;
  primary_journey : list JourneyStep; screens : list Screen; ui_states : list string;
  backend_capabilities : list BackendCapability; data_entities : list DataEntity; api_contracts : list ApiContract;
  accessibility_requirements : list string; responsive_requirements : list string;
  binary_release_gates : list FullStackReleaseGate; guardrails : list string;
  deployment_target : DeploymentTarget; out_of_scope : list string;
  unresolved_questions : list FullStackQuestion; required_approvals : list string;
  raw : list (string * json)
}.

(** ** What keeps a contract from running *)

Definition status_blocker (c : FullStackProductContract) : list string :=
  if String.eqb (contract_status c) "APPROVED" then []
  else ["contract_status is " +:+ contract_status c +:+ "; only APPROVED contracts run"].
Definition approver_blocker (c : FullStackProductContract) : list string :=
  if nonempty (strip (approved_by c)) then [] else ["no named approver"%string].
Definition unresolved (q : FullStackQuestion) : bool := blocking q && negb (nonempty (strip (resolution q))).
Definition question_blockers (c : FullStackProductContract) : list string :=
  map (fun q => "blocking question " +:+ question_id q +:+ " is unresolved: " +:+ question q)
    (List.filter unresolved (unresolved_questions c)).

Definition blockers (c : FullStackProductContract) : list string :=
  status_blocker c ++ approver_blocker c ++ question_blockers c.
Definition runnable (c : FullStackProductContract) : bool := match blockers c with [] => true | _ => false end.

Definition digest `{Rfc8785} (c : FullStackProductContract) : res string := canonical_digest (JObj (raw c)).
Definition screen (c : FullStackProductContract) (id : string) : option Screen :=
  List.find (fun s => String.eqb (screen_id s) id) (screens c).

(** ** Reading the fields of the document

    The schema has typed what is read here; a field of another type would be
    passed on by the code, and raises in the model. *)

Abbreviation dict := (list (string * json)).

Definition field (k : string) (m : dict) : res json := from_option_res (assoc k m) (KeyError k).
Definition as_text (v : json) : res string := from_option_res (as_str v) (TypeError "a text is expected").
Definition as_object (v : json) : res dict := from_option_res (as_obj v) (TypeError "indices must be integers or slices").
Definition text_at (k : string) (m : dict) : res string := field k m ≫= as_text.
Definition texts_at (k : string) (m : dict) : res (list string) := v ← field k m; l ← iterate v; res_mapM as_text l.
Definition objects_at {A} (k : string) (read : dict -> res A) (m : dict) : res (list A) :=
  v ← field k m; l ← iterate v; res_mapM (fun x => as_object x ≫= read) l.

Definition read_step (m : dict) : res JourneyStep :=
  i ← text_at "step_id" m; d ← text_at "description" m; s ← text_at "screen_id" m;
  Ok {| step_id := i; step_description := d; step_screen_id := s |}.
Definition read_screen (m : dict) : res Screen :=
  i ← text_at "screen_id" m; n ← text_at "name" m; p ← text_at "purpose" m; s ← texts_at "states" m;
  Ok {| screen_id := i; screen_name := n; purpose := p; states := s |}.
Definition read_capability (m : dict) : res BackendCapability :=
  i ← text_at "capability_id" m; d ← text_at "description" m;
  Ok {| capability_id := i; capability_description := d |}.
Definition read_entity (m : dict) : res DataEntity :=
  i ← text_at "entity_id" m; n ← text_at "name" m; p ← text_at "persistence" m;
  Ok {| entity_id := i; entity_name := n; persistence := p |}.
Definition read_api (m : dict) : res ApiContract :=
  i ← text_at "api_id" m; t ← text_at "method" m; p ← text_at "path" m; u ← text_at "purpose" m;
  Ok {| api_id := i; method := t; api_path := p; api_purpose := u |}.
Definition read_gate (m : dict) : res FullStackReleaseGate :=
  i ← text_at "id" m; d ← text_at "description" m; Ok {| gate_id := i; gate_description := d |}.
Definition read_question (m : dict) : res FullStackQuestion :=
  i ← text_at "id" m; q ← text_at "question" m; b ← field "blocking" m;
  r ← match assoc "resolution" m with Some v => as_text v | None => Ok ""%string end;
  Ok {| question_id := i; question := q; blocking := truthy b; resolution := r |}.
Definition read_target (m : dict) : res DeploymentTarget :=
  k ← text_at "kind" m; d ← text_at "description" m; Ok {| kind := k; target_description := d |}.

Section Load.
Context `{Unicode}.

Definition typed_contract (data : dict) : res FullStackProductContract :=
  id ← text_at "contract_id" data;
  version_ ← field "contract_version" data; version ← as_int version_;
  status ← text_at "contract_status" data;
  at_ ← text_at "approved_at" data;
  by_ ← text_at "approved_by" data;
  name ← text_at "product_name" data;
  problem_ ← text_at "problem" data;
  user ← text_at "target_user" data;
  journey ← objects_at "primary_journey" read_step data;
  screens_ ← objects_at "screens" read_screen data;
  vocabulary ← texts_at "ui_states" data;
  capabilities ← objects_at "backend_capabilities" read_capability data;
  entities ← objects_at "data_entities" read_entity data;
  apis ← objects_at "api_contracts" read_api data;
  accessibility ← texts_at "accessibility_requirements" data;
  responsive ← texts_at "responsive_requirements" data;
  gates ← objects_at "binary_release_gates" read_gate data;
  rails ← texts_at "guardrails" data;
  target_ ← field "deployment_target" data ≫= as_object; target ← read_target target_;
  scope ← texts_at "out_of_scope" data;
  questions ← objects_at "unresolved_questions" read_question data;
  approvals ← texts_at "required_approvals" data;
  Ok {| contract_id := id; contract_version := version; contract_status := status; approved_at := at_; approved_by := by_;
        product_name := name; problem := problem_; target_user := user; primary_journey := journey; screens := screens_;
        ui_states := vocabulary; backend_capabilities := capabilities; data_entities := entities; api_contracts := apis;
        accessibility_requirements := accessibility; responsive_requirements := responsive;
        binary_release_gates := gates; guardrails := rails; deployment_target := target; out_of_scope := scope;
        unresolved_questions := questions; required_approvals := approvals; raw := data |}.

Definition _UNIQUE_ID_SECTIONS : list (string * string) := [
  ("primary_journey", "step_id"); ("screens", "screen_id"); ("backend_capabilities", "capability_id");
  ("data_entities", "entity_id"); ("api_contracts", "api_id"); ("binary_release_gates", "id");
  ("unresolved_questions", "id")
]%string.

Fixpoint repeated_ids (section key : string) (seen : list string) (items : list json) : res (list string) :=
  match items with
  | [] => Ok []
  | JObj item :: rest =>
      let item_id := match assoc key item with Some v => py_str v | None => ""%string end in
      others ← repeated_ids section key (item_id :: seen) rest;
      Ok ((if str_in item_id seen then [section +:+ ": duplicate " +:+ key +:+ " '" +:+ item_id +:+ "'"] else []) ++ others)
  | _ :: _ => Raise (AttributeError "object has no attribute 'get'")
  end.
Definition section_ids (data : dict) (p : string * string) : res (list string) :=
  items ← iterate (match assoc (fst p) data with Some v => v | None => JArr [] end);
  repeated_ids (fst p) (snd p) [] items.

(** [SpecError(message, issues)], whose text lists the issues. *)
Definition spec_error (message : string) (issues : list string) : exn :=
  let bullet := String (chr_n 10) "- " in
  SpecError (match issues with [] => message | _ => message +:+ bullet +:+ join bullet issues end).

Definition unreadable (e : exn) : bool := is_OSError e || match e with JSONDecodeError _ => true | _ => false end.
Definition error_text (e : exn) : string :=
  match e with OSError m | FileExistsError m | TimeoutError m | JSONDecodeError m => m | _ => "" end.

(** What the loader does with the document once it is read. *)
Definition load_document (path : string) (data : json) : res FullStackProductContract :=
  match data with
  | JObj m =>
      structural ← validate fullstack_schema data;
      repeated ← collect (section_ids m) _UNIQUE_ID_SECTIONS;
      match structural ++ repeated with
      | [] => typed_contract m
      | errors => Raise (spec_error ("full-stack contract " +:+ path +:+ " violates the schema") errors)
      end
  | _ => Raise (SpecError ("full-stack contract " +:+ path +:+ " must be a JSON object"))
  end.

(** [content] is what opening [path] gives: its bytes, or what it raises. *)
Definition load_fullstack_contract (path : string) (content : res string) : res FullStackProductContract :=
  data ← try_except (bytes ← content; text ← read_text bytes; json_loads default_hooks text) unreadable
           (fun x => Raise (SpecError ("cannot read full-stack contract " +:+ path +:+ ": " +:+ error_text x)));
  load_document path data.
End Load.
