(* ===== verification/FullstackGates.v ===== *)
(** * The gates of a full-stack run

    What has to hold before a run may go on: the reference stack can deliver the
    contract ([fullstack/stack.py]), its journey is coherent
    ([fullstack/journey.py]), the reviewers cannot write ([agents/registry.py],
    [agents/permissions.py]) and have not written ([assurance/readonly_guard.py]),
    the preview is evidence of the reviewed tree ([fullstack/preview.py]), and the
    committed OpenAPI document is the live one ([fullstack/api_contract.py]). *)
From Stdlib Require Import Ascii String.
From S2P Require Import Prelude Sha256 Json JsonText JsonIndent Canonical PyStr PyConv Schema FullstackContract Trajectory.

(** [str.lower], by the tables of the interpreter. *)
Class Lower : Type := { lower : string -> string }.

(** ** The reference stack *)

Definition CAPABILITY_SURFACES : list string := [
  "frontend"; "backend"; "api_contract"; "browser_test"; "accessibility"; "responsive"; "preview"
]%string.
Definition _CORE_UI_STATES : list string := ["loading"; "error"; "success"]%string.
Definition stack_name : string := "nextjs-fastapi-playwright".
Definition supported_deployment_kinds : list string := ["local_preview"; "containerized_preview"]%string.
Definition supported_api_methods : list string := ["GET"; "POST"]%string.

Definition permanent (e : DataEntity) : bool := String.eqb (persistence e) "permanent".
Definition unsupported_method (a : ApiContract) : bool := negb (str_in (method a) supported_api_methods).

Definition assess_contract (c : FullStackProductContract) : list string :=
  let kind := kind (deployment_target c) in
  let missing_states := minus _CORE_UI_STATES (ui_states c) in
  (if str_in kind supported_deployment_kinds then []
   else ["deployment_target kind '" +:+ kind +:+ "' is not supported by " +:+ stack_name
         +:+ " (supported: local_preview, containerized_preview) — no cloud deployment is claimed (PD-V3-14)"])
  ++ map (fun e => "data entity " +:+ entity_id e +:+ " requires permanent persistence, which " +:+ stack_name +:+ " does not provide")
       (List.filter permanent (data_entities c))
  ++ (match missing_states with
      | [] => []
      | _ => ["ui_states vocabulary lacks core web states required by this stack: " +:+ join ", " missing_states]
      end)
  ++ map (fun a => "api contract " +:+ api_id a +:+ " uses method " +:+ method a +:+ ", outside what " +:+ stack_name
                     +:+ "'s contract verification covers (" +:+ join ", " (sorted_str supported_api_methods) +:+ ")")
       (List.filter unsupported_method (api_contracts c)).

(** ** The UX architecture *)

Definition screen_ids (c : FullStackProductContract) : list string := map screen_id (screens c).
Definition goes_nowhere (c : FullStackProductContract) (s : JourneyStep) : bool := negb (str_in (step_screen_id s) (screen_ids c)).
Definition reached (c : FullStackProductContract) : list string :=
  map step_screen_id (List.filter (fun s => negb (goes_nowhere c s)) (primary_journey c)).

Definition screen_problems (c : FullStackProductContract) (s : Screen) : list string :=
  let unknown := minus (states s) (ui_states c) in
  (if str_in (screen_id s) (reached c) then []
   else ["screen " +:+ screen_id s +:+ " ('" +:+ screen_name s
         +:+ "') is unreachable from the primary journey — dead UX is not deliverable"])
  ++ (match unknown with
      | [] => []
      | _ => ["screen " +:+ screen_id s +:+ " declares state(s) outside the contract vocabulary: " +:+ join ", " unknown]
      end)
  ++ (if str_in "error" (states s) then []
      else ["screen " +:+ screen_id s +:+ " declares no 'error' state — error and recovery states are mandatory"]).

Definition declared_anywhere (c : FullStackProductContract) : list string := flat_map states (screens c).

Definition validate_ux_architecture (c : FullStackProductContract) : list string :=
  map (fun s => "journey step " +:+ step_id s +:+ " points at screen '" +:+ step_screen_id s +:+ "', which does not exist")
    (List.filter (goes_nowhere c) (primary_journey c))
  ++ flat_map (screen_problems c) (screens c)
  ++ (match sorted_set (minus (ui_states c) (declared_anywhere c)) with
      | [] => []
      | unused => ["vocabulary state(s) no screen declares: " +:+ join ", " unused
                   +:+ " — an unused state is an unimplementable promise"]
      end).

(** ** Agents and their tools *)

Record AgentDefinition : Type := {
  agent_name : string; agent_description : string; tools : list string; isolation : string; agent_path : string
}.

(** [line.partition(":")], when there is a colon. *)
Fixpoint partition (sep : ascii) (s : string) : option (string * string) :=
  match s with
  | EmptyString => None
  | String c s' => if Ascii.eqb c sep then Some (""%string, s')
                   else p ← partition sep s'; Some (String c (fst p), snd p)
  end.

Fixpoint frontmatter (fields : list (string * string)) (lines : list string) : list (string * string) :=
  match lines with
  | [] => fields
  | line :: rest =>
      if String.eqb (strip line) "---" then fields
      else match partition ":" line with
           | Some (key, value) => frontmatter (assoc_set (strip key) (strip value) fields) rest
           | None => frontmatter fields rest
           end
  end.

Definition _parse (path content : string) : res (option AgentDefinition) :=
  text ← read_text content;
  match str_splitlines text with
  | first :: rest =>
      let fields := frontmatter [] rest in
      let get k := default ""%string (assoc k fields) in
      Ok (if negb (String.eqb (strip first) "---") || negb (nonempty (get "name"%string)) then None
          else Some {| agent_name := get "name"%string; agent_description := get "description"%string;
                       tools := List.filter nonempty (map strip (split_on "," (get "tools"%string)));
                       isolation := get "isolation"%string; agent_path := path |})
  | [] => Ok None
  end.

(** The Markdown files of the directory, by name, read in the order of their names. *)
Definition AgentRegistry (agents_dir : string) (files : list (string * string)) : res (list (string * AgentDefinition)) :=
  res_foldM (fun agents file =>
    definition ← _parse (agents_dir +:+ "/" +:+ fst file) (snd file);
    Ok (match definition with Some d => assoc_set (agent_name d) d agents | None => agents end))
    [] (sorted_items files).
Definition v2_agents (registry : list (string * AgentDefinition)) : list AgentDefinition :=
  List.filter (fun a => startswith (agent_name a) "v2-") (map snd registry).

Definition READ_ONLY_TOOLS : list string := ["Read"; "Grep"; "Glob"]%string.

(** An empty list of tools inherits all of them. *)
Definition is_read_only (agent : AgentDefinition) : bool :=
  match tools agent with [] => false | ts => forallb (fun t => str_in t READ_ONLY_TOOLS) ts end.

Fixpoint _assert_named_read_only (registry : list (string * AgentDefinition)) (names : list string) : res unit :=
  match names with
  | [] => Ok tt
  | name :: rest =>
      match assoc name registry with
      | None => Raise (ReadOnlyViolation ("reviewer '" +:+ name +:+ "' has no agent definition"))
      | Some agent =>
          if is_read_only agent then _assert_named_read_only registry rest
          else
            let offending := match sorted_set (minus (tools agent) READ_ONLY_TOOLS) with
                             | [] => ["<inherit-all>"%string] | l => l end in
            Raise (ReadOnlyViolation ("reviewer '" +:+ name +:+ "' is not read-only: tool(s) " +:+ join ", " offending))
      end
  end.
Definition assert_reviewers_read_only registry : res unit := _assert_named_read_only registry REVIEWER_NAMES.
Definition assert_fullstack_reviewers_read_only registry : res unit :=
  _assert_named_read_only registry (map snd FULLSTACK_REVIEW_LENSES).

(** ** The read-only proof *)

(** A repository: what git answers, and the files below the root with their
    contents, in the order of their paths. *)
Record process : Type := { returncode : Z; stdout : string; stderr : string }.
Record repository : Type := {
  root : string; rev_parse_head : res string; status_porcelain : res string;
  ls_files : process; tree : list (string * string)
}.

Definition _SKIP_PARTS : list string := [".git"; "__pycache__"; ".ruff_cache"; ".pytest_cache"; ".mypy_cache"]%string.
Definition skipped (rel : string) : bool := existsb (fun part => str_in part _SKIP_PARTS) (split_on "/" rel).
Definition _file_map (repo : repository) : list (string * string) :=
  map (fun f => (fst f, sha256_hexdigest (snd f))) (List.filter (fun f => negb (skipped (fst f))) (tree repo)).
Definition tree_digest : repository -> list (string * string) := _file_map.

Definition _tracked_files (repo : repository) : res (list string) :=
  let result := ls_files repo in
  if negb (returncode result =? 0)
  then Raise (ValueError ("read-only proof requires a git worktree at " +:+ root repo +:+ ": "
                +:+ (if nonempty (strip (stderr result)) then strip (stderr result) else "git ls-files failed")))
  else Ok (List.filter nonempty (split_on (chr_n 0) (stdout result))).

Definition _tracked_file_map (repo : repository) : res (list (string * string)) :=
  rels ← _tracked_files repo;
  Ok (omap (fun rel => content ← assoc rel (tree repo); Some (rel, sha256_hexdigest content)) (sorted_set rels)).
Definition readonly_snapshot : repository -> res (list (string * string)) := _tracked_file_map.

Definition changed_files (before after : list (string * string)) : list string :=
  List.filter (fun rel => match assoc rel before, assoc rel after with
                          | Some d, Some d' => negb (String.eqb d d')
                          | _, _ => false
                          end) (sorted_set (map fst before)).
Definition verify_unmodified (repo : repository) (before : list (string * string)) : res (list string) :=
  after ← _tracked_file_map repo;
  Ok (map (fun rel => "changed: " +:+ rel) (changed_files before after)
      ++ map (fun rel => "added: " +:+ rel) (sorted_set (minus (map fst after) (map fst before)))
      ++ map (fun rel => "removed: " +:+ rel) (sorted_set (minus (map fst before) (map fst after)))).

(** ** Preview evidence *)

Definition ALLOWED_PREVIEW_KINDS : list string := ["local_preview"; "containerized_preview"]%string.
Definition _JOURNEY_RESULTS : list string := ["passed"; "failed"]%string.

Record PreviewEvidence : Type := {
  source_digest : string; deployment_kind : string;
  artifacts : list (string * string); journeys : list (string * string); recorded_at : string
}.

Definition structural_problems (e : PreviewEvidence) : list string :=
  (if nonempty (strip (source_digest e)) then [] else ["a preview must bind a non-empty source tree digest"%string])
  ++ (if str_in (deployment_kind e) ALLOWED_PREVIEW_KINDS then []
      else ["deployment kind '" +:+ deployment_kind e +:+ "' is not a verifiable preview — cloud (or unknown) claims are refused; allowed: "
            +:+ join ", " ALLOWED_PREVIEW_KINDS])
  ++ (match artifacts e with [] => ["a preview must record at least one artifact fingerprint"%string] | _ => [] end)
  ++ flat_map (fun p => if nonempty (strip (snd p)) then [] else ["artifact '" +:+ fst p +:+ "' has a blank fingerprint"]) (artifacts e)
  ++ (match journeys e with [] => ["a preview must record at least one journey result"%string] | _ => [] end)
  ++ flat_map (fun p => if str_in (snd p) _JOURNEY_RESULTS then []
                        else ["journey '" +:+ fst p +:+ "' result '" +:+ snd p +:+ "' is not in the vocabulary ("
                              +:+ join ", " _JOURNEY_RESULTS +:+ "); only executed outcomes count as passed"]) (journeys e).

(** [asdict] of the evidence, and the file that [record_preview] writes. *)
Definition preview_dict (e : PreviewEvidence) : json := JObj [
  ("source_digest", JStr (source_digest e)); ("deployment_kind", JStr (deployment_kind e));
  ("artifacts", strs (artifacts e)); ("journeys", strs (journeys e)); ("recorded_at", JStr (recorded_at e))
]%string.
Definition record_preview_file (e : PreviewEvidence) : res string :=
  match structural_problems e with
  | [] => Ok (json_document (preview_dict e))
  | problems => Raise (ValueError (join "; " problems))
  end.

Section Preview.
Context `{Unicode}.

(** [{str(k): str(v) for k, v in dict(value).items()}]. *)
Definition text_dict (value : json) : res (list (string * string)) :=
  d ← py_dict value; Ok (foldl (fun m p => assoc_set (py_str (fst p)) (py_str (snd p)) m) [] d).

Definition read_evidence (content : string) : res PreviewEvidence :=
  text ← read_text content;
  data ← json_loads default_hooks text;
  m ← as_object data;
  source ← field "source_digest" m; kind ← field "deployment_kind" m;
  artifacts_ ← field "artifacts" m; artifacts_ ← text_dict artifacts_;
  journeys_ ← field "journeys" m; journeys_ ← text_dict journeys_;
  at_ ← field "recorded_at" m;
  Ok {| source_digest := py_str source; deployment_kind := py_str kind; artifacts := artifacts_;
        journeys := journeys_; recorded_at := py_str at_ |}.

Definition unreadable_evidence (e : exn) : bool :=
  is_ValueError e || match e with KeyError _ | TypeError _ => true | _ => false end.

(** [s[:19]]. *)
Definition shown (s : string) : string := utf8_encode_all (take 19 (ords s)).

Definition preview_problems (evidence : PreviewEvidence) (expected_source_digest : string) : list string :=
  structural_problems evidence
  ++ (if String.eqb (source_digest evidence) expected_source_digest then []
      else ["the previewed source digest does not match the reviewed tree — previewed " +:+ shown (source_digest evidence)
            +:+ "…, reviewed " +:+ shown expected_source_digest +:+ "…; rebuild the preview from the reviewed tree"])
  ++ flat_map (fun p => if String.eqb (snd p) "failed"
                        then ["journey '" +:+ fst p +:+ "' failed in the preview — not releasable evidence"] else [])
       (journeys evidence).

(** [content] is the file at [path], when there is one. *)
Definition verify_preview (path : string) (content : option string) (expected_source_digest : string) : res (list string) :=
  match content with
  | None => Ok ["no preview evidence at " +:+ path]
  | Some bytes =>
      match read_evidence bytes with
      | Ok evidence => Ok (preview_problems evidence expected_source_digest)
      | Raise x => if unreadable_evidence x then Ok ["unreadable preview evidence at " +:+ path +:+ " — re-record it"]
                   else Raise x
      end
  end.
End Preview.

(** ** The API contract *)

Section OpenApi.
Context `{Lower}.

Definition undocumented (paths : list (string * json)) (api : ApiContract) : list string :=
  match assoc (api_path api) paths with
  | Some (JObj documented) =>
      if has_key (lower (method api)) documented then []
      else [api_id api +:+ ": '" +:+ api_path api +:+ "' is documented, but not for method " +:+ method api]
  | _ => [api_id api +:+ ": promised path '" +:+ api_path api +:+ "' is not documented in the OpenAPI contract"]
  end.
Definition verify_openapi_covers_contract (openapi : list (string * json)) (c : FullStackProductContract) : list string :=
  match assoc "paths" openapi with
  | Some (JObj paths) => flat_map (undocumented paths) (api_contracts c)
  | _ => ["the OpenAPI document has no 'paths' section"%string]
  end.

Definition canonical_openapi_text (openapi : list (string * json)) : string := json_document (JObj openapi).

(** [committed] is the file at the path, when there is one. *)
Definition verify_committed_schema (committed_path : string) (committed : option string) (live : list (string * json)) : res (list string) :=
  match committed with
  | None => Ok ["no committed OpenAPI contract at " +:+ committed_path]
  | Some bytes =>
      committed ← read_text bytes;
      Ok (if String.eqb committed (canonical_openapi_text live) then []
          else ["the committed OpenAPI contract at " +:+ committed_path
                +:+ " does not match the live application's schema — regenerate and re-review before merging"])
  end.
End OpenApi.
