(* ===== verification/FullstackGateTheorems.v ===== *)
(** * The gates of a full-stack run: theorems

    The read-only proof tells every change of a tracked file from none, and the
    preview that was recorded is verified exactly for its own source. *)
From Stdlib Require Import Ascii String.
From S2P Require Import Prelude Sha256 Json JsonText JsonIndent Canonical PyStr PyConv JsonFacts JsonAscii TextFacts.
From S2P Require Import Schema Trajectory TrajectoryFacts FullstackContract FullstackGates.

(** ** The read-only proof *)

(** The tracked files that exist, with their contents. *)
Definition tracked_contents (repo : repository) : res (list (string * string)) :=
  rels ← _tracked_files repo;
  Ok (omap (fun rel => content ← assoc rel (tree repo); Some (rel, content)) (sorted_set rels)).

Abbreviation hashed files := (map (fun f : string * string => (fst f, sha256_hexdigest (snd f))) files).

Lemma snapshot_hashes repo files : tracked_contents repo = Ok files -> readonly_snapshot repo = Ok (hashed files).
Proof.
  unfold tracked_contents, readonly_snapshot, _tracked_file_map. destruct (_tracked_files repo) as [rels|]; [|done].
  cbn [mbind res_bind]. intros [= <-]. f_equal. induction (sorted_set rels) as [|rel l IH]; [done|].
  cbn [omap list_omap]. destruct (assoc rel (tree repo)); cbn [mbind option_bind]; [|done]. cbn [map fst snd]. by rewrite IH.
Qed.

Lemma tracked_sorted repo files : tracked_contents repo = Ok files -> strictly_sorted (map fst files).
Proof.
  unfold tracked_contents. destruct (_tracked_files repo) as [rels|]; [|done]. cbn [mbind res_bind]. intros [= <-].
  pose proof (sorted_set_sorted rels) as Hs. revert Hs. induction (sorted_set rels) as [|rel l IH]; [done|].
  intros [Hx Hl]. cbn [omap list_omap]. destruct (assoc rel (tree repo)); cbn [mbind option_bind]; [|auto]. cbn [map fst].
  split; [|auto]. rewrite Forall_forall in Hx. apply Forall_forall. intros y Hy. apply Hx.
  apply list_elem_of_In, in_map_iff in Hy as ([k c] & <- & Hk). apply list_elem_of_In, list_elem_of_omap in Hk as (r & Hr & E).
  destruct (assoc r (tree repo)); [|done]. by injection E as <- <-.
Qed.

Lemma assoc_key {V} k (v : V) m : assoc k m = Some v -> k ∈ map fst m.
Proof. intros E. apply has_key_spec. unfold has_key. by rewrite E. Qed.

Lemma keys_hashed files : map fst (hashed files) = map fst files.
Proof. rewrite map_map. by apply map_ext. Qed.

(** Without a change the digests of files with the same names are the same. *)
Lemma unchanged_hashes files files' : map fst files = map fst files' -> NoDup (map fst files) ->
  changed_files (hashed files) (hashed files') = [] -> hashed files = hashed files'.
Proof.
  intros Hk Hn Hc. unfold changed_files in Hc. rewrite filter_nil_iff, Forall_forall in Hc.
  assert (Hall : forall rel d d', assoc rel (hashed files) = Some d -> assoc rel (hashed files') = Some d' -> d = d').
  { intros rel d d' Hd Hd'. specialize (Hc rel). rewrite Hd, Hd' in Hc.
    apply String.eqb_eq, negb_false_iff, Hc, elem_of_sorted_set. by eapply assoc_key. }
  clear Hc. revert files' Hk Hall. induction files as [|[k c] files IH]; intros [|[k' c'] files'] Hk Hall; try done.
  cbn [map fst] in *. injection Hk as <- Hk. apply NoDup_cons in Hn as [Hni Hn]. cbn [snd]. f_equal.
  - f_equal. apply (Hall k); cbn [assoc]; by rewrite String.eqb_refl.
  - apply IH; [done..|]. intros rel d d' Hd Hd'. apply (Hall rel); cbn [assoc]; destruct (String.eqb_spec rel k) as [->|]; try done.
    + destruct Hni. apply assoc_key in Hd. by rewrite keys_hashed in Hd.
    + destruct Hni. apply assoc_key in Hd'. by rewrite keys_hashed, <- Hk in Hd'.
Qed.

Lemma changed_same m : changed_files m m = [].
Proof.
  unfold changed_files. apply filter_nil_iff, Forall_forall. intros rel _. destruct (assoc rel m); [|done].
  by rewrite String.eqb_refl.
Qed.

Lemma hashes_or_collision files files' : hashed files = hashed files' -> files = files' \/
  exists rel a b, (rel, a) ∈ files /\ (rel, b) ∈ files' /\ a <> b /\ sha256_hexdigest a = sha256_hexdigest b.
Proof.
  revert files'. induction files as [|[k c] files IH]; intros [|[k' c'] files'] E; try done; [by left|].
  cbn [map fst snd] in E. assert (Hk : k = k') by congruence. assert (Hs : sha256_hexdigest c = sha256_hexdigest c') by congruence.
  assert (Ht : hashed files = hashed files') by congruence. subst k'. destruct (decide (c = c')) as [<-|Hne].
  - destruct (IH _ Ht) as [<-|(rel & a & b & Ha & Hb & Hne & Hab)]; [by left|right]. exists rel, a, b. by split_and!; [right|right| |].
  - right. exists k, c, c'. by split_and!; [left|left| |].
Qed.

(** C28. The read-only proof finds nothing exactly when every tracked file is there
    with the content it had: it is silent on the same files, and when it is silent
    the files are the same, or two contents of one file collide under SHA-256. *)
Theorem readonly_proof_exact repo repo' files files' before :
  tracked_contents repo = Ok files -> tracked_contents repo' = Ok files' -> readonly_snapshot repo = Ok before ->
  exists problems, verify_unmodified repo' before = Ok problems /\
    (files = files' -> problems = []) /\
    (problems = [] -> files = files' \/
      exists rel a b, (rel, a) ∈ files /\ (rel, b) ∈ files' /\ a <> b /\ sha256_hexdigest a = sha256_hexdigest b).
Proof.
  intros Hf Hf' Hb. pose proof (tracked_sorted _ _ Hf) as Hs. pose proof (tracked_sorted _ _ Hf') as Hs'.
  apply snapshot_hashes in Hf, Hf'. rewrite Hf in Hb. injection Hb as <-. unfold verify_unmodified, readonly_snapshot in *.
  rewrite Hf'. cbn [mbind res_bind]. eexists. split; [done|]. split.
  - intros <-. rewrite changed_same. by assert (minus (map fst (hashed files)) (map fst (hashed files)) = []) as -> by by apply minus_nil.
  - intros [Hc%map_eq_nil [Ha%map_eq_nil Hr%map_eq_nil]%app_nil]%app_nil.
    rewrite !keys_hashed in Ha, Hr. pose proof (proj1 (minus_nil _ _) (proj1 (sorted_set_nil _) Ha)) as Ha1.
    pose proof (proj1 (minus_nil _ _) (proj1 (sorted_set_nil _) Hr)) as Hr1.
    apply hashes_or_collision, unchanged_hashes; [|by apply strictly_sorted_NoDup|done].
    apply strictly_sorted_ext; [done..|]. by intros x; split; auto.
Qed.

(** ** The preview *)

Definition journey_failed (p : string * string) : bool := String.eqb (snd p) "failed".
Definition text_pair (p : string * string) : bool := is_text (fst p) && is_text (snd p).

(** Evidence that JSON carries: texts, and dicts. *)
Record carried (e : PreviewEvidence) : Prop := {
  ca_texts : forallb is_text [source_digest e; deployment_kind e; recorded_at e] = true;
  ca_artifacts : forallb text_pair (artifacts e) = true; ca_artifact_keys : NoDup (map fst (artifacts e));
  ca_journeys : forallb text_pair (journeys e) = true; ca_journey_keys : NoDup (map fst (journeys e))
}.

Lemma strs_readable l : forallb text_pair l = true -> NoDup (map fst l) -> readable (strs l) = true.
Proof.
  intros Hl Hn. unfold strs. cbn [readable]. rewrite map_fst_map, bool_decide_eq_true_2, andb_true_r by done.
  pose proof (proj1 (forallb_true _ _) Hl) as Hall. apply forallb_true.
  intros p (q & <- & Hq%list_elem_of_In)%list_elem_of_In%in_map_iff. by apply Hall in Hq.
Qed.

Lemma carried_readable e : carried e -> readable (preview_dict e) = true.
Proof.
  intros [Ht Ha Hna Hj Hnj]. cbn in Ht. bool_simp. unfold preview_dict. cbn [readable forallb fst snd].
  rewrite !strs_readable by done. repeat match goal with Hx : is_text _ = true |- _ => rewrite Hx; clear Hx end. done.
Qed.

Section Preview.
Context `{Unicode}.

Lemma text_dict_strs l : NoDup (map fst l) -> text_dict (sort_json (strs l)) = Ok (sorted_items l).
Proof.
  intros Hn. unfold strs. cbn [sort_json]. rewrite !map_map. cbn [fst snd sort_json]. rewrite sorted_items_map with (f := fun _ x => JStr x).
  unfold text_dict. cbn [py_dict mbind res_bind]. rewrite !map_map. cbn [fst snd]. f_equal.
  rewrite <- (app_nil_l (sorted_items l)) at 2. rewrite <- (dict_of_pairs (sorted_items l) []) by (cbn; by apply sorted_keys).
  generalize (@nil (string * string)). induction (sorted_items l) as [|p m IH]; [done|]. intros d. cbn [map foldl]. apply IH.
Qed.

(** What is read back: the same evidence, its dicts in the order of their keys. *)
Definition in_key_order (e : PreviewEvidence) : PreviewEvidence := {|
  source_digest := source_digest e; deployment_kind := deployment_kind e; artifacts := sorted_items (artifacts e);
  journeys := sorted_items (journeys e); recorded_at := recorded_at e |}.

Lemma preview_read_back e : carried e -> read_evidence (json_document (preview_dict e)) = Ok (in_key_order e).
Proof.
  intros Hc. pose proof (read_back_document true _ (carried_readable e Hc)) as E. apply bind_Ok in E as (t & Et & El).
  assert (Hs : read_order true (preview_dict e) = JObj [
    ("artifacts", sort_json (strs (artifacts e))); ("deployment_kind", JStr (deployment_kind e));
    ("journeys", sort_json (strs (journeys e))); ("recorded_at", JStr (recorded_at e));
    ("source_digest", JStr (source_digest e))]%string) by reflexivity.
  rewrite Hs in El. unfold read_evidence, json_document. rewrite Et. cbn [mbind res_bind]. rewrite El.
  cbn [mbind res_bind as_object as_obj from_option_res field assoc String.eqb Ascii.eqb Bool.eqb].
  rewrite !text_dict_strs by apply Hc. done.
Qed.

Lemma flat_map_nil_perm {A B} (f : A -> list B) l l' : l ≡ₚ l' -> flat_map f l = [] -> flat_map f l' = [].
Proof. intros Hp Hl. apply flat_map_nil. intros x Hx. apply (proj1 (flat_map_nil f l) Hl). by rewrite Hp. Qed.

Lemma order_still_sound e : structural_problems e = [] -> structural_problems (in_key_order e) = [].
Proof.
  unfold structural_problems, in_key_order. cbn [source_digest deployment_kind artifacts journeys].
  intros [-> [-> [Ha [Hb [Hj Hr]%app_nil]%app_nil]%app_nil]%app_nil]%app_nil. cbn [app].
  apply (flat_map_nil_perm _ _ _ (symmetry (sorted_items_perm (artifacts e)))) in Hb.
  apply (flat_map_nil_perm _ _ _ (symmetry (sorted_items_perm (journeys e)))) in Hr. rewrite Hb, Hr, app_nil_r.
  destruct (sorted_items (artifacts e)) eqn:Ea; [apply sorted_items_nil in Ea; by rewrite Ea in Ha|].
  by destruct (sorted_items (journeys e)) eqn:Ej; [apply sorted_items_nil in Ej; rewrite Ej in Hj|].
Qed.

(** C29. The preview evidence that [record_preview] writes is verified exactly for
    its own source digest, when none of its journeys failed. *)
Theorem preview_round_trip e path text expected : carried e -> record_preview_file e = Ok text ->
  exists problems, verify_preview path (Some text) expected = Ok problems /\
    (problems = [] <-> source_digest e = expected /\ Forall (fun p => snd p <> "failed"%string) (journeys e)).
Proof.
  intros Hc. unfold record_preview_file. destruct (structural_problems e) eqn:Hs; [|done]. intros [= <-].
  unfold verify_preview. rewrite preview_read_back by done. eexists. split; [done|]. unfold preview_problems.
  rewrite order_still_sound by done. cbn [app in_key_order source_digest journeys]. rewrite app_nil, flat_map_nil.
  rewrite <- Forall_forall, (sorted_items_perm (journeys e)).
  destruct (String.eqb_spec (source_digest e) expected) as [He|He]; [|split; [by intros [? _]|by intros [? _]]].
  split; intros [_ Hj]; (split; [done|]); (eapply Forall_impl; [exact Hj|]); intros p; cbn;
    by destruct (String.eqb_spec (snd p) "failed").
Qed.
End Preview.

(** ** The API contract *)

(** A committed document that is the canonical text of some document is accepted
    only when the live document is the same JSON value. *)
Lemma committed_schema_exact path committed live :
  readable (JObj committed) = true -> readable (JObj live) = true ->
  verify_committed_schema path (Some (canonical_openapi_text committed)) live = Ok [] ->
  sort_json (JObj committed) = sort_json (JObj live).
Proof.
  intros Hc Hl. pose proof (read_back_document true _ Hc) as Ec. pose proof (read_back_document true _ Hl) as El.
  unfold verify_committed_schema, canonical_openapi_text, json_document. apply bind_Ok in Ec as (t & Et & Ec).
  rewrite Et. cbn [mbind res_bind]. destruct (String.eqb_spec t (dumps_indented true 0 (JObj live) +:+ eol)) as [->|]; [|done].
  intros _. apply bind_Ok in El as (t' & Et' & El).
  assert (t' = dumps_indented true 0 (JObj live) +:+ eol) as ->.
  { apply read_text_again in Et. congruence. }
  change (read_order true (JObj committed) = read_order true (JObj live)). congruence.
Qed.
