(* ===== verification/Fullstack.v ===== *)
(** * The full-stack run ([fullstack/orchestration.py])

    A state machine over the engineering ledger: contract lock, journey, API
    contract, freeze of the candidate, browser verification, preview, the reviews
    of six lenses and the release report.  Its state is a dict that every
    operation saves; the evidence is in the ledger.  Includes
    [record_validated_journey] and [require_validated_journey] of
    [fullstack/journey.py] and the freeze of [engineering/candidate.py]. *)
From Stdlib Require Import Ascii String.
From S2P Require Import Prelude Json JsonText JsonIndent Canonical PyStr PyConv Schema FullstackContract EngineeringLedger.
From S2P Require Import Trajectory FullstackGates.

(** ** The run directory and the run *)

Record run_files : Type := {
  ledger : EvidenceLedger; contract_file : option string; state_file : option string;
  journey_record : option string; candidates : list (string * string); candidate_manifest : option string
}.
Record FullStackRun : Type := {
  files : run_files; contract : FullStackProductContract; _state : list (string * json);
  run_id : string; _snapshots : list (string * list (string * string))
}.
Abbreviation run_op := (st FullStackRun).

Definition with_ledger l f := {| ledger := l; contract_file := contract_file f; state_file := state_file f;
  journey_record := journey_record f; candidates := candidates f; candidate_manifest := candidate_manifest f |}.
Definition with_contract c f := {| ledger := ledger f; contract_file := Some c; state_file := state_file f;
  journey_record := journey_record f; candidates := candidates f; candidate_manifest := candidate_manifest f |}.
Definition with_saved s f := {| ledger := ledger f; contract_file := contract_file f; state_file := Some s;
  journey_record := journey_record f; candidates := candidates f; candidate_manifest := candidate_manifest f |}.
Definition with_journey j f := {| ledger := ledger f; contract_file := contract_file f; state_file := state_file f;
  journey_record := Some j; candidates := candidates f; candidate_manifest := candidate_manifest f |}.
Definition with_candidate name text f := {| ledger := ledger f; contract_file := contract_file f; state_file := state_file f;
  journey_record := journey_record f; candidates := assoc_set name text (candidates f); candidate_manifest := Some text |}.

Definition on_files (g : run_files -> run_files) : run_op unit := modify_st (fun r =>
  {| files := g (files r); contract := contract r; _state := _state r; run_id := run_id r; _snapshots := _snapshots r |}).
Definition set_state (s : list (string * json)) : run_op unit := modify_st (fun r =>
  {| files := files r; contract := contract r; _state := s; run_id := run_id r; _snapshots := _snapshots r |}).
Definition set_snapshots (s : list (string * list (string * string))) : run_op unit := modify_st (fun r =>
  {| files := files r; contract := contract r; _state := _state r; run_id := run_id r; _snapshots := s |}).

(** [self._state[k]] and [self._state[k] = v]. *)
Definition state_item (k : string) : run_op json := s ← get_st _state; lift_res (field k s).
Definition set_item (k : string) (v : json) : run_op unit := s ← get_st _state; set_state (assoc_set k v s).

(** [json.dumps(self._state, indent=2)] and a newline. *)
Definition state_document (s : list (string * json)) : string := dumps_indented false 0 (JObj s) +:+ eol.
Definition _save : run_op unit := s ← get_st _state; on_files (with_saved (state_document s)).

Definition _CORE : string := "pmpe-core".
Definition REQUIRED_LENSES : list string := map snd FULLSTACK_REVIEW_LENSES.
Definition _RELEASE_VERDICTS : list string := ["PROCEED"; "HOLD"; "INSUFFICIENT_EVIDENCE"]%string.
Definition INTEGRITY_VALID : string := "valid".
Definition INTEGRITY_INFRASTRUCTURE_INVALID : string := "infrastructure_invalid".

(** The evidence of the calls to [record]: what they do not name is empty. *)
Definition entry (stage agent action : string) (ins outs : list (string * string)) (verdict detail : string) : evidence := {|
  stage := stage; agent := agent; action := action;
  input_digests := map (fun p => (fst p, JStr (snd p))) ins; output_digests := map (fun p => (fst p, JStr (snd p))) outs;
  tool := ""; verdict := verdict; escalation := ""; next_state := ""; detail := detail; cost := None; idempotency_key := "" |}.

Section Run.
Context `{Rfc8785} `{Unicode} `{Lower}.

Definition ledger_record (e : evidence) (now : string) : run_op unit := fun r =>
  let (m, l) := record (run_id r) e now (ledger (files r)) in
  (_ ← m; Ok tt, {| files := with_ledger l (files r); contract := contract r; _state := _state r;
                    run_id := run_id r; _snapshots := _snapshots r |}).

Definition contract_digest : run_op string := v ← state_item "contract_digest"; mret (py_str v).
Definition candidate_digest : run_op string := v ← state_item "candidate_digest"; mret (py_str v).
Definition _require_candidate : run_op unit :=
  d ← candidate_digest;
  if nonempty d then mret tt else raise_st (OrchestrationViolation "no frozen candidate yet — freeze first").

(** ** Starting and loading *)

(** [cls(run_dir, contract, state)]: makes the run directory for the ledger. *)
Definition new_run (c : FullStackProductContract) (state : list (string * json)) (f : run_files) : res FullStackRun :=
  let default k v (s : list (string * json)) := if has_key k s then s else assoc_set k v s in
  let state := default "release_integrity"%string (JStr "") (default "reviews"%string (JObj []) state) in
  id ← field "run_id" state;
  Ok {| files := with_ledger {| run_dir := true; contents := contents (ledger f); depth := 0 |} f;
        contract := c; _state := state; run_id := py_str id; _snapshots := [] |}.

Definition initial_state (c : FullStackProductContract) (digest : string) : list (string * json) := [
  ("run_id", JStr ("fs-" +:+ lower (contract_id c))); ("contract_digest", JStr digest);
  ("journey_validated", JBool false); ("api_contract_current", JBool false); ("candidate_digest", JStr "");
  ("browser_suites", JArr []); ("preview_recorded", JBool false); ("reviews", JObj []);
  ("release_verdict", JStr ""); ("release_integrity", JStr "")
]%string.

(** The contract and the agents are admitted before anything is written. *)
Definition admitted_contract (contract_path : string) (content : res string) (agents_dir : string) (agent_files : list (string * string))
    (existing : bool) (run_dir : string) : res (FullStackProductContract * string) :=
  _ ← raise_if existing (OrchestrationViolation ("a full-stack run already exists at " +:+ run_dir +:+ " — resume it instead"));
  c ← load_fullstack_contract contract_path content;
  _ ← raise_if (negb (runnable c)) (OrchestrationViolation ("the contract is not runnable: " +:+ join "; " (blockers c)));
  _ ← raise_if (match assess_contract c with [] => false | _ => true end)
        (OrchestrationViolation ("the stack refuses this contract: " +:+ join "; " (assess_contract c)));
  registry ← AgentRegistry agents_dir agent_files;
  _ ← assert_fullstack_reviewers_read_only registry;
  bytes ← content; text ← read_text bytes;
  Ok (c, text).

Definition lock_contract (now : string) : run_op unit :=
  d ← contract_digest;
  _ ← ledger_record (entry "contract_lock" _CORE "lock" [] [("contract", d)]%string "" "") now;
  _save.

(** The result of a computation on a new run, over the files alone. *)
Definition keep (m : res unit * FullStackRun) : res FullStackRun * run_files :=
  (_ ← fst m; Ok (snd m), files (snd m)).

Definition start (contract_path : string) (content : res string) (run_dir_ agents_dir : string) (agent_files : list (string * string))
    (now : string) (f : run_files) : res FullStackRun * run_files :=
  match admitted_contract contract_path content agents_dir agent_files (match state_file f with Some _ => true | None => false end) run_dir_ with
  | Raise x => (Raise x, f)
  | Ok (c, text) =>
      let f := with_contract text (with_ledger {| run_dir := true; contents := contents (ledger f); depth := 0 |} f) in
      match d ← digest c; new_run c (initial_state c d) f with
      | Raise x => (Raise x, f)
      | Ok run => keep (lock_contract now run)
      end
  end.

Definition load (run_dir_ : string) (f : run_files) : res FullStackRun :=
  match state_file f with
  | None => Raise (OrchestrationViolation ("no full-stack run at " +:+ run_dir_))
  | Some bytes =>
      text ← read_text bytes;
      v ← json_loads default_hooks text;
      c ← load_fullstack_contract (run_dir_ +:+ "/fullstack-contract.json")
            (from_option_res (contract_file f) (OSError "No such file or directory"));
      d ← digest c;
      state ← as_object v;
      locked ← field "contract_digest" state;
      _ ← raise_if (negb (py_eq (JStr d) locked))
            (OrchestrationViolation "the run's contract file no longer matches the locked digest");
      new_run c state f
  end.

(** The events of the ledger, as its text. *)
Definition events (r : FullStackRun) : res (list json) :=
  match contents (ledger (files r)) with
  | None => Ok []
  | Some bytes =>
      text ← read_text bytes;
      res_mapM (json_loads default_hooks) (List.filter (fun l => nonempty (strip l)) (str_splitlines text))
  end.

(** ** The journey *)

Definition journey_document (c : FullStackProductContract) (d validated_at : string) : json := JObj [
  ("contract_digest", JStr d); ("validated_at", JStr validated_at);
  ("journey", JArr (map (fun s => strs [("step_id", step_id s); ("screen_id", step_screen_id s); ("description", step_description s)])
                      (primary_journey c)));
  ("screens", JArr (map (fun s => JObj [("screen_id", JStr (screen_id s)); ("name", JStr (screen_name s));
                                        ("purpose", JStr (purpose s)); ("states", JArr (map JStr (states s)))]) (screens c)));
  ("ui_states", JArr (map JStr (ui_states c)))
]%string.

Definition record_validated_journey (validated_at : string) : run_op unit :=
  c ← get_st contract;
  match validate_ux_architecture c with
  | [] => d ← lift_res (digest c); on_files (with_journey (json_document (journey_document c d validated_at)))
  | problems => raise_st (JourneyNotValidated ("UX architecture is not coherent; refusing to record: " +:+ join "; " problems))
  end.

Definition require_validated_journey (run_dir_ expected : string) : run_op unit :=
  record ← get_st (fun r => journey_record (files r));
  match record with
  | None => raise_st (JourneyNotValidated ("no validated UX architecture at " +:+ run_dir_
              +:+ "/ux-architecture.json — the journey must be validated before implementation (PD-V3-16)"))
  | Some bytes =>
      record ← lift_res (text ← read_text bytes; json_loads default_hooks text);
      match record with
      | JObj m =>
          if py_eq (jget "contract_digest" m) (JStr expected) then mret tt
          else raise_st (JourneyNotValidated ("the validated UX architecture belongs to a different contract ("
                 +:+ py_str (jget "contract_digest" m) +:+ " != " +:+ expected +:+ ") — revalidate"))
      | _ => raise_st (AttributeError "object has no attribute 'get'")
      end
  end.

Definition validate_journey (validated_at now : string) : run_op unit :=
  c ← get_st contract;
  match validate_ux_architecture c with
  | [] =>
      _ ← record_validated_journey validated_at;
      _ ← set_item "journey_validated" (JBool true);
      d ← contract_digest;
      _ ← ledger_record (entry "journey_validation" _CORE "validate" [("contract", d)]%string [("journey_record", d)]%string "" "") now;
      _save
  | problems => raise_st (OrchestrationViolation ("the UX architecture is incoherent: " +:+ join "; " problems))
  end.

(** ** What the agents submit *)

Definition record_architecture (agent digest now : string) : run_op unit :=
  d ← contract_digest;
  ledger_record (entry "architecture" agent "submit_architecture" [("contract", d)]%string [("architecture_pack", digest)]%string "" "") now.
Definition record_plan (agent digest now : string) : run_op unit :=
  d ← contract_digest;
  ledger_record (entry "plan" agent "submit_plan" [("contract", d)]%string [("plan", digest)]%string "" "") now.
Definition record_routing (agent : string) (selected : list string) (now : string) : run_op unit :=
  ledger_record (entry "route" agent "submit_routing" [] [] "" ("selected=" +:+ join "," selected)) now.
Definition record_implementation (run_dir_ agent action task surface now : string) : run_op unit :=
  if str_in surface ["frontend"; "backend"]%string then
    _ ← (if String.eqb surface "frontend" then d ← contract_digest; require_validated_journey run_dir_ d else mret tt);
    ledger_record (entry "implement" agent action [] [] "" ("task=" +:+ task +:+ ";surface=" +:+ surface)) now
  else raise_st (OrchestrationViolation ("unknown surface '" +:+ surface +:+ "'")).

Definition record_api_contract (current : bool) (now : string) : run_op unit :=
  _ ← ledger_record (entry "api_contract" _CORE "verify" [] [] (if current then "current" else "drift") "") now;
  if current then _ ← set_item "api_contract_current" (JBool true); _save
  else raise_st (OrchestrationViolation "the committed API contract drifted from the live application — regenerate and re-review before proceeding").

(** ** The candidate *)

Record Candidate : Type := {
  candidate_id : string; commit : string; candidate_tree_digest : string; candidate_contract_digest : string; frozen_at : string
}.
Definition candidate_json (c : Candidate) : json := strs [
  ("candidate_id", candidate_id c); ("commit", commit c); ("tree_digest", candidate_tree_digest c);
  ("contract_digest", candidate_contract_digest c); ("frozen_at", frozen_at c)
]%string.

Definition _combined_digest (files : list (string * string)) : res string := canonical_digest (strs files).
Definition tree_content_digest (repo : repository) : res string := _combined_digest (tree_digest repo).

(** [f"CAND-{n:03d}"]. *)
Definition candidate_name (n : nat) : string :=
  let d := str_of_Z (Z.of_nat n) in "CAND-" +:+ zeros (3 - String.length d) +:+ d.

(** [s[:n]] of an ASCII text, and [l[:5]] joined. *)
Definition first_five (l : list string) : string := join "; " (take 5 l).

Definition freeze_candidate (repo : repository) (contract_digest now : string) : run_op Candidate :=
  commit_ ← lift_res (rev_parse_head repo);
  dirty ← lift_res (status_porcelain repo);
  if nonempty (strip dirty) then
    raise_st (CandidateViolation ("cannot freeze a dirty worktree: the manifest would record commit "
      +:+ utf8_encode_all (take 12 (ords commit_)) +:+ " while the digest certifies uncommitted content — commit or discard first: "
      +:+ first_five (str_splitlines (strip dirty))))
  else
    d ← lift_res (tree_content_digest repo);
    n ← get_st (fun r => List.length (candidates (files r)));
    let candidate := {| candidate_id := candidate_name (S n); commit := commit_; candidate_tree_digest := d;
                        candidate_contract_digest := contract_digest; frozen_at := now |} in
    _ ← on_files (with_candidate (candidate_id candidate +:+ ".json") (json_document (candidate_json candidate)));
    mret candidate.

Definition state_flag (k : string) : run_op bool := v ← state_item k; mret (truthy v).

Definition freeze (run_dir_ : string) (repo : repository) (frozen_at now : string) : run_op Candidate :=
  validated ← state_flag "journey_validated";
  if negb validated then raise_st (OrchestrationViolation "cannot freeze before the journey is validated") else
  d ← contract_digest;
  _ ← require_validated_journey run_dir_ d;
  current ← state_flag "api_contract_current";
  if negb current then raise_st (OrchestrationViolation "cannot freeze without a current api-contract verification") else
  candidate ← freeze_candidate repo d frozen_at;
  _ ← set_item "candidate_digest" (JStr (candidate_tree_digest candidate));
  _ ← ledger_record (entry "freeze" _CORE "freeze" [] [("candidate", candidate_tree_digest candidate)]%string "" "") now;
  _ ← _save;
  mret candidate.

(** ** Browser verification and preview *)

(** The suites of the state; a state that [_save] wrote holds texts. *)
Definition recorded_suites : run_op (list string) :=
  v ← state_item "browser_suites"; lift_res (l ← iterate v; res_mapM as_text l).

Definition record_browser_verification (suites : list string) (mocked passed : bool) (now : string) : run_op unit :=
  if mocked then raise_st (OrchestrationViolation "browser verification against a mocked backend is not evidence (PD-V3-16)")
  else if negb passed then raise_st (OrchestrationViolation "a failed browser verification cannot be recorded as done")
  else
    _ ← _require_candidate;
    d ← candidate_digest;
    _ ← ledger_record (entry "browser_verification" _CORE "verify" [("candidate", d)]%string [] "passed"
                         ("suites=" +:+ join "," suites +:+ ";mocked=false")) now;
    recorded ← recorded_suites;
    _ ← set_item "browser_suites" (JArr (map JStr (sorted_set (recorded ++ suites))));
    _save.

(** [json.loads(path.read_text())["deployment_kind"]]. *)
Definition preview_kind (content : option string) : res string :=
  bytes ← from_option_res content (OSError "No such file or directory");
  text ← read_text bytes; data ← json_loads default_hooks text; m ← as_object data;
  v ← field "deployment_kind" m; Ok (py_str v).

Definition record_preview (evidence_path : string) (content : option string) (expected_source_digest now : string) : run_op unit :=
  _ ← _require_candidate;
  problems ← lift_res (verify_preview evidence_path content expected_source_digest);
  match problems with
  | [] =>
      kind ← lift_res (preview_kind content);
      d ← candidate_digest;
      _ ← ledger_record (entry "preview" _CORE "record" [("candidate", d)]%string [("preview_evidence", expected_source_digest)]%string
                           "" ("kind=" +:+ kind)) now;
      _ ← set_item "preview_recorded" (JBool true);
      _save
  | _ => raise_st (OrchestrationViolation ("preview evidence refused: " +:+ join "; " problems))
  end.

(** ** The reviews of the six lenses *)

Definition off_roster (lens_agent : string) : exn :=
  OrchestrationViolation ("'" +:+ lens_agent +:+ "' is not on the six-lens roster").

Definition begin_review (lens_agent : string) (repo : repository) : run_op unit :=
  if negb (str_in lens_agent REQUIRED_LENSES) then raise_st (off_roster lens_agent) else
  _ ← _require_candidate;
  snapshot ← lift_res (readonly_snapshot repo);
  open ← get_st _snapshots;
  set_snapshots (assoc_set lens_agent snapshot open).

(** [self._state["reviews"][lens_agent] = review]. *)
Definition set_review (lens_agent : string) (review : json) : run_op unit :=
  v ← state_item "reviews"; reviews ← lift_res (as_object v);
  set_item "reviews" (JObj (assoc_set lens_agent review reviews)).

Definition submit_review (lens_agent now : string) : run_op unit :=
  d ← candidate_digest;
  ledger_record (entry "review" lens_agent "submit_review" [("candidate", d)]%string [] "" "") now.

Definition end_review (lens_agent : string) (repo : repository) (now checked_at : string) : run_op unit :=
  open ← get_st _snapshots;
  match assoc lens_agent open with
  | None => raise_st (OrchestrationViolation ("no open review for '" +:+ lens_agent +:+ "'"))
  | Some before =>
      _ ← set_snapshots (assoc_del lens_agent open);
      _ ← submit_review lens_agent now;
      changed ← lift_res (verify_unmodified repo before);
      _ ← ledger_record (entry "review" lens_agent "readonly_check" [] []
                           (match changed with [] => "clean" | _ => "modified" end) "") checked_at;
      match changed with
      | [] => _ ← set_review lens_agent (strs [("integrity", INTEGRITY_VALID)]%string); _save
      | _ => raise_st (OrchestrationViolation ("reviewer '" +:+ lens_agent +:+ "' violated read-only: " +:+ first_five changed))
      end
  end.

Definition record_infrastructure_invalid_review (lens_agent reason now checked_at : string) : run_op unit :=
  if negb (str_in lens_agent REQUIRED_LENSES) then raise_st (off_roster lens_agent) else
  _ ← _require_candidate;
  open ← get_st _snapshots;
  _ ← set_snapshots (assoc_del lens_agent open);
  _ ← submit_review lens_agent now;
  _ ← ledger_record (entry "review" lens_agent "readonly_check" [] [] INTEGRITY_INFRASTRUCTURE_INVALID reason) checked_at;
  _ ← set_review lens_agent (strs [("integrity", INTEGRITY_INFRASTRUCTURE_INVALID); ("reason", reason)]%string);
  _save.

(** ** Release *)

Record ReleaseReport : Type := {
  product_verdict : string; verification_integrity : string;
  integrity_by_lens : list (string * json); lenses_reviewed : list string
}.

Definition lens_integrity (reviews : list (string * json)) (lens : string) : res (string * json) :=
  review ← field lens reviews; m ← as_object review; v ← field "integrity" m; Ok (lens, v).

(** The gates of the report: the integrity of each lens, or why it is refused. *)
Definition release_gates (state : list (string * json)) : res (list (string * json)) :=
  reviews ← field "reviews" state; reviewed ← as_object reviews;
  let missing := minus REQUIRED_LENSES (map fst reviewed) in
  _ ← raise_if (match missing with [] => false | _ => true end)
        (OrchestrationViolation ("release refused — lens(es) without a review: " +:+ join ", " (sorted_set missing)));
  suites ← field "browser_suites" state; a11y ← py_in (JStr "a11y") suites;
  _ ← raise_if (negb a11y) (OrchestrationViolation "release refused — no executed accessibility suite in this run");
  preview ← field "preview_recorded" state;
  _ ← raise_if (negb (truthy preview)) (OrchestrationViolation "release refused — no verified preview evidence");
  res_mapM (lens_integrity reviewed) REQUIRED_LENSES.

Definition intact (by_lens : list (string * json)) : bool := forallb (fun p => py_eq (snd p) (JStr INTEGRITY_VALID)) by_lens.

Definition release_report (verdict now : string) : run_op ReleaseReport :=
  if negb (str_in verdict _RELEASE_VERDICTS)
  then raise_st (OrchestrationViolation ("'" +:+ verdict +:+ "' is not a release verdict (PROCEED/HOLD/INSUFFICIENT_EVIDENCE)")) else
  state ← get_st _state;
  by_lens ← lift_res (release_gates state);
  let integrity := if intact by_lens then INTEGRITY_VALID else "degraded"%string in
  if String.eqb verdict "PROCEED" && negb (String.eqb integrity INTEGRITY_VALID)
  then raise_st (OrchestrationViolation "PROCEED refused — verification integrity is degraded (a reviewer-integrity proof is infrastructure-invalid); only HOLD or INSUFFICIENT_EVIDENCE may be issued")
  else
    d ← candidate_digest;
    _ ← ledger_record (entry "release_report" _CORE "report" [("candidate", d)]%string [] verdict ("integrity=" +:+ integrity)) now;
    _ ← set_item "release_verdict" (JStr verdict);
    _ ← set_item "release_integrity" (JStr integrity);
    _ ← _save;
    mret {| product_verdict := verdict; verification_integrity := integrity; integrity_by_lens := by_lens;
            lenses_reviewed := REQUIRED_LENSES |}.
End Run.
