(* ===== verification/TrajectoryFullstack.v ===== *)
(** * Full-stack trajectory checks ([evals/trajectory_fullstack.py])

    Eight named rules over the events of a ledger, on top of those of
    [evals/trajectory.py]; a run without a full-stack stage, surface or reviewer
    is out of their scope. *)
From Stdlib Require Import Ascii String.
From S2P Require Import Prelude Json JsonText PyStr PyConv Trajectory FullstackGates.

Definition FULLSTACK_STAGES : list string := ["journey_validation"; "browser_verification"; "preview"; "api_contract"]%string.
Definition REQUIRED_LENS_AGENTS : list string := map snd FULLSTACK_REVIEW_LENSES.

(** [name, _, value = part.partition("=")], stripped. *)
Definition name_value (part : string) : string * string :=
  match partition "=" part with
  | Some (name, value) => (strip name, strip value)
  | None => (strip part, ""%string)
  end.

(** [(event.get(side) or {}).get(key)]. *)
Definition digest_at (e : event) (side key : string) : res json := digests ← digests_of e side; Ok (jget key digests).

Definition event_at (i : option nat) (events : list event) : option event := n ← i; nth_error events n.

Section Rules.
Context `{Unicode}.

Definition text_or_empty (k : string) (e : event) : string := match assoc k e with Some v => py_str v | None => "" end.
Definition is_v3 (e : event) : bool := startswith (text_or_empty "agent" e) "v3-".

(** The first part of the detail with the name. *)
Definition _detail_field (e : event) (key : string) : option string :=
  snd <$> List.find (fun p => String.eqb (fst p) key) (map name_value (split_on ";" (detail_of e))).

Definition fullstack_event (e : event) : bool :=
  existsb (fun s => at_stage s e) FULLSTACK_STAGES || contains_str "surface=frontend" (detail_of e) || is_v3 e.
Definition _is_fullstack_run (events : list event) : bool := existsb fullstack_event events.

(** *** TRAJ-FS-01: no frontend implementation before a validated journey *)

Definition implements_frontend (e : event) : bool :=
  at_stage "implement" e && bool_decide (_detail_field e "surface" = Some "frontend"%string).
Definition fs_01 (events : list event) : list TrajectoryViolation :=
  let first := index_from implements_frontend 0 events in
  match first, event_at first events with
  | Some first_frontend, Some e =>
      match _first_index events "journey_validation" with
      | None => violate "TRAJ-FS-01" "frontend implementation with no validated journey in the run" (detail_of e)
      | Some journey_i =>
          if (first_frontend <? journey_i)%nat
          then violate "TRAJ-FS-01" "frontend implementation before the journey was validated" (detail_of e) else []
      end
  | _, _ => []
  end.

(** *** TRAJ-FS-02: the journey is bound to the locked contract *)

Definition fs_02 (events : list event) : res (list TrajectoryViolation) :=
  match event_at (_first_index events "journey_validation") events, event_at (_first_index events "contract_lock") events with
  | Some journey, Some lock =>
      locked ← digest_at lock "output_digests" "contract";
      journey_input ← digest_at journey "input_digests" "contract";
      Ok match locked with
         | JNull => violate "TRAJ-FS-02" "the contract lock emitted no digest — the journey binding cannot be verified"
                      (py_str (jget "output_digests" lock))
         | _ => if py_eq journey_input locked then []
                else violate "TRAJ-FS-02" "journey validated against a different contract digest than the lock"
                       ("locked=" +:+ py_str locked +:+ ", journey=" +:+ py_str journey_input)
         end
  | _, _ => Ok []
  end.

(** *** TRAJ-FS-03: browser verification, unmocked *)

Definition browser_events (events : list event) : list event := List.filter (at_stage "browser_verification") events.
Definition fs_03 (events : list event) : list TrajectoryViolation :=
  (match browser_events events with
   | [] => violate "TRAJ-FS-03" "no browser verification in a full-stack run"
             ("stages present: " +:+ join "," (sorted_set (map (text "stage") events)))
   | _ => []
   end)
  ++ flat_map (fun e => if bool_decide (_detail_field e "mocked" = Some "false"%string) then []
                        else violate "TRAJ-FS-03" "browser verification did not declare an unmocked backend" (detail_of e))
       (browser_events events).

(** *** TRAJ-FS-04: preview evidence of the frozen candidate *)

Definition frozen_candidate (events : list event) : res json :=
  match event_at (_first_index events "freeze") events with
  | Some e => digest_at e "output_digests" "candidate"
  | None => Ok JNull
  end.
Definition fs_04_event (candidate_digest : json) (e : event) : res (list TrajectoryViolation) :=
  let kind := _detail_field e "kind" in
  preview_candidate ← digest_at e "input_digests" "candidate";
  Ok ((if (match kind with Some k => str_in k ALLOWED_PREVIEW_KINDS | None => false end : bool) then []
       else violate "TRAJ-FS-04" ("preview kind '" +:+ show_text kind +:+ "' is not a verifiable preview") (detail_of e))
      ++ (if (match candidate_digest with JNull => true | _ => py_eq preview_candidate candidate_digest end : bool) then []
          else violate "TRAJ-FS-04" "preview evidence bound to a different candidate than the freeze"
                 ("frozen=" +:+ py_str candidate_digest +:+ ", preview=" +:+ py_str preview_candidate))).
Definition fs_04 (events : list event) : res (list TrajectoryViolation) :=
  candidate_digest ← frozen_candidate events;
  vs ← res_mapM (fs_04_event candidate_digest) (List.filter (at_stage "preview") events);
  Ok (List.concat vs).

(** *** TRAJ-FS-05: the roster of the six lenses *)

Definition v3_reviews (events : list event) : list event := List.filter (fun e => acts "review" "submit_review" e && is_v3 e) events.
Definition reviewed_by (events : list event) : list string := map (text "agent") (v3_reviews events).
Definition fs_05 (events : list event) : list TrajectoryViolation :=
  let frozen := existsb (at_stage "freeze") events in
  let missing := sorted_set (minus REQUIRED_LENS_AGENTS (reviewed_by events)) in
  let strangers := sorted_set (minus (reviewed_by events) REQUIRED_LENS_AGENTS) in
  if (match v3_reviews events with [] => false | _ => true end) || frozen then
    (if frozen && match missing with [] => false | _ => true end
     then violate "TRAJ-FS-05" "full-stack lens(es) missing from the review set" (join ", " missing) else [])
    ++ (match strangers with
        | [] => []
        | _ => violate "TRAJ-FS-05" "review submitted by an agent outside the six-lens roster" (join ", " strangers)
        end)
  else [].

(** *** TRAJ-FS-06: read-only proofs *)

(** The last verdict of each reviewer. *)
Definition readonly_verdicts (events : list event) : list (string * string) :=
  foldl (fun m e => assoc_set (text "agent" e) (text "verdict" e) m) []
    (List.filter (fun e => readonly_check e && is_v3 e) events).
Definition acceptable : list string := ["clean"; "infrastructure_invalid"]%string.
Definition first_report_proceeds (events : list event) : bool :=
  match event_at (_first_index events "release_report") events with
  | Some e => String.eqb (text "verdict" e) "PROCEED"
  | None => false
  end.
Definition fs_06 (events : list event) : list TrajectoryViolation :=
  let verdicts := readonly_verdicts events in
  let degraded := sorted_set (map fst (List.filter (fun p => String.eqb (snd p) "infrastructure_invalid") verdicts)) in
  flat_map (fun agent =>
      let verdict := assoc agent verdicts in
      if (match verdict with Some v => str_in v acceptable | None => false end : bool) then []
      else violate "TRAJ-FS-06" "a full-stack reviewer has no acceptable read-only proof for this run"
             (agent +:+ "=" +:+ show_text verdict)) (reviewed_by events)
  ++ (if first_report_proceeds events then
        match degraded with
        | [] => []
        | _ => violate "TRAJ-FS-06" "a PROCEED release rests on an infrastructure-invalid read-only proof" (join ", " degraded)
        end
      else []).

(** *** TRAJ-FS-07: the accessibility suite, before the report *)

Definition suites_field (e : event) : string := default ""%string (_detail_field e "suites").
Definition a11y_event (e : event) : bool :=
  at_stage "browser_verification" e && str_in "a11y" (split_on "," (suites_field e)).
Definition fs_07 (events : list event) : list TrajectoryViolation :=
  match _first_index events "release_report" with
  | None => []
  | Some report_i =>
      match browser_events events with
      | [] => []
      | seen => if existsb a11y_event (take report_i events) then []
                else violate "TRAJ-FS-07" "release report issued without an executed accessibility suite"
                       ("suites seen: " +:+ join "; " (map suites_field seen))
      end
  end.

(** *** TRAJ-FS-08: a current API contract, before the freeze *)

Definition api_verdict (e : event) : string := text "verdict" e.
Definition current_api (e : event) : bool := at_stage "api_contract" e && String.eqb (api_verdict e) "current".
Definition drifted_api (e : event) : bool := at_stage "api_contract" e && negb (str_in (api_verdict e) ["current"; ""]%string).
Definition fs_08 (events : list event) : list TrajectoryViolation :=
  match _first_index events "freeze" with
  | None => []
  | Some freeze_i =>
      match List.filter drifted_api events with
      | [] => if existsb current_api (take freeze_i events) then []
              else violate "TRAJ-FS-08" "no current api-contract verification before the freeze"
                     ("api_contract events: " +:+ str_of_Z (Z.of_nat (List.length (List.filter (at_stage "api_contract") events))))
      | drifted => violate "TRAJ-FS-08" "the committed API contract drifted from the live application"
                     (join "; " (map api_verdict drifted))
      end
  end.

Definition evaluate_fullstack_trajectory (events : list event) : res (list TrajectoryViolation) :=
  if _is_fullstack_run events then
    v02 ← fs_02 events;
    v04 ← fs_04 events;
    Ok (fs_01 events ++ v02 ++ fs_03 events ++ v04 ++ fs_05 events ++ fs_06 events ++ fs_07 events ++ fs_08 events)
  else Ok [].
End Rules.
