(* ===== verification/FullstackSpec.v ===== *)
(** * What a full-stack run promises

    The run as an abstract machine.  A fact is what one call to [record] attests;
    the machine's state is what the facts so far amount to, and [allowed] says
    which fact may come next.  [FullstackRefine] shows that the code implements
    it. *)
From Stdlib Require Import Ascii String.
From S2P Require Import Prelude Json JsonText Canonical PyStr EngineeringLedger Trajectory FullstackContract FullstackGates Fullstack.

(** ** Facts *)

Inductive proof_outcome : Type := Clean | Modified | Invalid (reason : string).

Inductive fact : Type :=
  | Locked
  | JourneyValidated
  | ArchitectureSubmitted (agent digest : string)
  | PlanSubmitted (agent digest : string)
  | Routed (agent : string) (selected : list string)
  | Implemented (agent action task surface : string)
  | ApiVerified (current : bool)
  | Frozen (subject : string)
  | BrowserVerified (executed : list string) (subject : string)
  | Previewed (kind source subject : string)
  | ReviewSubmitted (lens subject : string)
  | Checked (lens : string) (outcome : proof_outcome)
  | Released (conclusion proofs subject : string).

#[export] Instance proof_outcome_eq_dec : EqDecision proof_outcome.
Proof. solve_decision. Defined.
#[export] Instance fact_eq_dec : EqDecision fact.
Proof. solve_decision. Defined.

Definition outcome_verdict (o : proof_outcome) : string :=
  match o with Clean => "clean" | Modified => "modified" | Invalid _ => INTEGRITY_INFRASTRUCTURE_INVALID end.
Definition outcome_reason (o : proof_outcome) : string := match o with Invalid reason => reason | _ => "" end.

(** The evidence of a fact, in a run of the contract with the digest. *)
Definition entry_of (contract : string) (f : fact) : evidence :=
  match f with
  | Locked => entry "contract_lock" _CORE "lock" [] [("contract", contract)]%string "" ""
  | JourneyValidated =>
      entry "journey_validation" _CORE "validate" [("contract", contract)]%string [("journey_record", contract)]%string "" ""
  | ArchitectureSubmitted agent d =>
      entry "architecture" agent "submit_architecture" [("contract", contract)]%string [("architecture_pack", d)]%string "" ""
  | PlanSubmitted agent d => entry "plan" agent "submit_plan" [("contract", contract)]%string [("plan", d)]%string "" ""
  | Routed agent selected => entry "route" agent "submit_routing" [] [] "" ("selected=" +:+ join "," selected)
  | Implemented agent action task surface =>
      entry "implement" agent action [] [] "" ("task=" +:+ task +:+ ";surface=" +:+ surface)
  | ApiVerified current => entry "api_contract" _CORE "verify" [] [] (if current then "current" else "drift") ""
  | Frozen d => entry "freeze" _CORE "freeze" [] [("candidate", d)]%string "" ""
  | BrowserVerified suites d =>
      entry "browser_verification" _CORE "verify" [("candidate", d)]%string [] "passed"
        ("suites=" +:+ join "," suites +:+ ";mocked=false")
  | Previewed kind source d =>
      entry "preview" _CORE "record" [("candidate", d)]%string [("preview_evidence", source)]%string "" ("kind=" +:+ kind)
  | ReviewSubmitted lens d => entry "review" lens "submit_review" [("candidate", d)]%string [] "" ""
  | Checked lens o => entry "review" lens "readonly_check" [] [] (outcome_verdict o) (outcome_reason o)
  | Released verdict integrity d =>
      entry "release_report" _CORE "report" [("candidate", d)]%string [] verdict ("integrity=" +:+ integrity)
  end.

(** ** The machine *)

Record status : Type := {
  validated : bool; api_current : bool; candidate : string; suites : list string; previewed : bool;
  submitted : list string; reviews : list (string * proof_outcome); verdict : string; integrity : string
}.
Definition locked : status := {| validated := false; api_current := false; candidate := ""; suites := []; previewed := false;
  submitted := []; reviews := []; verdict := ""; integrity := "" |}.

Section Setters.
Variable a : status.

Definition set_validated : status := {| validated := true; api_current := api_current a; candidate := candidate a;
  suites := suites a; previewed := previewed a; submitted := submitted a; reviews := reviews a; verdict := verdict a;
  integrity := integrity a |}.
Definition set_current : status := {| validated := validated a; api_current := true; candidate := candidate a;
  suites := suites a; previewed := previewed a; submitted := submitted a; reviews := reviews a; verdict := verdict a;
  integrity := integrity a |}.
Definition set_candidate d : status := {| validated := validated a; api_current := api_current a; candidate := d;
  suites := suites a; previewed := previewed a; submitted := submitted a; reviews := reviews a; verdict := verdict a;
  integrity := integrity a |}.
Definition add_suites s : status := {| validated := validated a; api_current := api_current a; candidate := candidate a;
  suites := sorted_set (suites a ++ s); previewed := previewed a; submitted := submitted a; reviews := reviews a;
  verdict := verdict a; integrity := integrity a |}.
Definition set_previewed : status := {| validated := validated a; api_current := api_current a; candidate := candidate a;
  suites := suites a; previewed := true; submitted := submitted a; reviews := reviews a; verdict := verdict a;
  integrity := integrity a |}.
Definition add_submitted lens : status := {| validated := validated a; api_current := api_current a; candidate := candidate a;
  suites := suites a; previewed := previewed a; submitted := lens :: submitted a; reviews := reviews a; verdict := verdict a;
  integrity := integrity a |}.
Definition set_outcome lens o : status := {| validated := validated a; api_current := api_current a; candidate := candidate a;
  suites := suites a; previewed := previewed a; submitted := submitted a; reviews := assoc_set lens o (reviews a);
  verdict := verdict a; integrity := integrity a |}.
Definition set_released v i : status := {| validated := validated a; api_current := api_current a; candidate := candidate a;
  suites := suites a; previewed := previewed a; submitted := submitted a; reviews := reviews a; verdict := v; integrity := i |}.
End Setters.

(** What a fact changes.  A modification found by a reviewer's check changes
    nothing: the last outcome of the lens that counted still counts. *)
Definition advance (a : status) (f : fact) : status :=
  match f with
  | JourneyValidated => set_validated a
  | ApiVerified true => set_current a
  | Frozen d => set_candidate a d
  | BrowserVerified s _ => add_suites a s
  | Previewed _ _ _ => set_previewed a
  | ReviewSubmitted lens _ => add_submitted a lens
  | Checked lens Modified => a
  | Checked lens o => set_outcome a lens o
  | Released v i _ => set_released a v i
  | _ => a
  end.

(** The integrity that a release reports. *)
Definition lens_valid (a : status) (lens : string) : bool := bool_decide (assoc lens (reviews a) = Some Clean).
Definition integrity_of (a : status) : string := if forallb (lens_valid a) REQUIRED_LENSES then INTEGRITY_VALID else "degraded".
Definition releasable (a : status) : Prop :=
  Forall (fun lens => is_Some (assoc lens (reviews a))) REQUIRED_LENSES /\ "a11y"%string ∈ suites a /\ previewed a = true.

(** Which fact may come next. *)
Definition allowed (a : status) (f : fact) : Prop :=
  match f with
  | Locked => False
  | Implemented _ _ _ surface => surface ∈ ["frontend"; "backend"]%string /\ (surface = "frontend"%string -> validated a = true)
  | Frozen d => validated a = true /\ api_current a = true /\ d <> ""%string
  | BrowserVerified _ d => d = candidate a /\ d <> ""%string
  | Previewed k _ d => k ∈ ALLOWED_PREVIEW_KINDS /\ d = candidate a /\ d <> ""%string
  | ReviewSubmitted lens d => lens ∈ REQUIRED_LENSES /\ d = candidate a /\ d <> ""%string
  | Checked lens _ => lens ∈ submitted a
  | Released v i d =>
      v ∈ _RELEASE_VERDICTS /\ releasable a /\ i = integrity_of a /\ (v = "PROCEED"%string -> i = INTEGRITY_VALID) /\ d = candidate a
  | _ => True
  end.

(** The facts of a run, and what they amount to. *)
Inductive lawful : list fact -> status -> Prop :=
  | lawful_start : lawful [Locked] locked
  | lawful_next tr a f : lawful tr a -> allowed a f -> lawful (tr ++ [f]) (advance a f).

(** The dict that the code keeps. *)
Definition review_json (o : proof_outcome) : json :=
  match o with
  | Invalid reason => strs [("integrity", INTEGRITY_INFRASTRUCTURE_INVALID); ("reason", reason)]%string
  | _ => strs [("integrity", INTEGRITY_VALID)]%string
  end.
Definition state_of (run contract : string) (a : status) : list (string * json) := [
  ("run_id", JStr run); ("contract_digest", JStr contract); ("journey_validated", JBool (validated a));
  ("api_contract_current", JBool (api_current a)); ("candidate_digest", JStr (candidate a));
  ("browser_suites", JArr (map JStr (suites a))); ("preview_recorded", JBool (previewed a));
  ("reviews", JObj (map (fun p => (fst p, review_json (snd p))) (reviews a)));
  ("release_verdict", JStr (verdict a)); ("release_integrity", JStr (integrity a))
]%string.

(** ** Calls *)

Inductive call : Type :=
  | ValidateJourney (validated_at now : string)
  | RecordArchitecture (agent digest now : string)
  | RecordPlan (agent digest now : string)
  | RecordRouting (agent : string) (selected : list string) (now : string)
  | RecordImplementation (agent action task surface now : string)
  | RecordApiContract (current : bool) (now : string)
  | Freeze (repo : repository) (frozen_at now : string)
  | RecordBrowserVerification (executed : list string) (mocked passed : bool) (now : string)
  | RecordPreview (path : string) (content : option string) (expected_source_digest now : string)
  | BeginReview (lens : string) (repo : repository)
  | EndReview (lens : string) (repo : repository) (now checked_at : string)
  | RecordInfrastructureInvalid (lens reason now checked_at : string)
  | Report (conclusion now : string).

(** The texts that a call may write to the ledger: JSON carries them. *)
Definition call_texts (c : call) : list string :=
  match c with
  | ValidateJourney _ now | RecordApiContract _ now | Freeze _ _ now => [now]
  | RecordArchitecture agent d now | RecordPlan agent d now => [agent; d; now]
  | RecordRouting agent selected now => agent :: now :: selected
  | RecordImplementation agent action task surface now => [agent; action; task; surface; now]
  | RecordBrowserVerification executed _ _ now => now :: executed
  | RecordPreview _ _ expected now => [expected; now]
  | BeginReview _ _ => []
  | EndReview _ _ now checked_at => [now; checked_at]
  | RecordInfrastructureInvalid _ reason now checked_at => [reason; now; checked_at]
  | Report conclusion now => [conclusion; now]
  end.

(** What a call that gave [x] may have added to the ledger, if anything. *)
Definition emitted (c : call) (x : res unit) (fs : list fact) : Prop :=
  fs = [] \/
  match c with
  | ValidateJourney _ _ => fs = [JourneyValidated]
  | RecordArchitecture agent d _ => fs = [ArchitectureSubmitted agent d]
  | RecordPlan agent d _ => fs = [PlanSubmitted agent d]
  | RecordRouting agent selected _ => fs = [Routed agent selected]
  | RecordImplementation agent action task surface _ => fs = [Implemented agent action task surface]
  | RecordApiContract current _ => fs = [ApiVerified current] /\ (current = false -> x <> Ok tt)
  | Freeze _ _ _ => exists d, fs = [Frozen d]
  | RecordBrowserVerification executed _ _ _ => exists d, fs = [BrowserVerified executed d]
  | RecordPreview _ _ expected _ => exists k d, fs = [Previewed k expected d]
  | BeginReview _ _ => False
  | EndReview lens _ _ _ =>
      exists d, fs = [ReviewSubmitted lens d] \/ fs = [ReviewSubmitted lens d; Checked lens Clean]
                \/ fs = [ReviewSubmitted lens d; Checked lens Modified] /\ x <> Ok tt
  | RecordInfrastructureInvalid lens reason _ _ => exists d, fs = [ReviewSubmitted lens d; Checked lens (Invalid reason)]
  | Report v _ => exists p d, fs = [Released v p d]
  end.

Section Perform.
Context `{Rfc8785} `{Unicode} `{Lower}.
Variable dir : string.

Definition ignoring {A} (m : run_op A) : run_op unit := _ ← m; mret tt.
Definition perform (c : call) : run_op unit :=
  match c with
  | ValidateJourney t0 t => validate_journey t0 t
  | RecordArchitecture agent d t => record_architecture agent d t
  | RecordPlan agent d t => record_plan agent d t
  | RecordRouting agent selected t => record_routing agent selected t
  | RecordImplementation agent action task surface t => record_implementation dir agent action task surface t
  | RecordApiContract current t => record_api_contract current t
  | Freeze repo t0 t => ignoring (freeze dir repo t0 t)
  | RecordBrowserVerification executed mocked passed t => record_browser_verification executed mocked passed t
  | RecordPreview path content expected t => record_preview path content expected t
  | BeginReview lens repo => begin_review lens repo
  | EndReview lens repo t t' => end_review lens repo t t'
  | RecordInfrastructureInvalid lens reason t t' => record_infrastructure_invalid_review lens reason t t'
  | Report v t => ignoring (release_report v t)
  end.

End Perform.
