(* ===== verification/FullstackRefine.v ===== *)
(** * The full-stack run: lemmas

    What [record] appends for a fact, and that a run simulates the machine of
    [FullstackSpec]: its dict is what the facts of the ledger amount to.

    ** The full-stack run implements its machine

    Every operation keeps the run a simulation of [FullstackSpec]: the ledger
    attests a lawful sequence of facts, the dict is what they amount to, and it is
    saved. *)
From Stdlib Require Import Ascii String.
From S2P Require Import Prelude Sha256 Json JsonText Canonical JsonFacts JsonAscii PyStr PyConv TextFacts JsonIndent.
From S2P Require Import EngineeringLedger EngineeringLedgerFacts EngineeringLedgerTheorems Trajectory Schema.
From S2P Require Import FullstackContract FullstackGates Fullstack FullstackSpec.

(** ** Texts *)

Definition all_text (l : list string) : Prop := Forall (fun s => is_text s = true) l.

(** The texts of a fact. *)
Definition fact_texts (f : fact) : list string :=
  match f with
  | Locked | JourneyValidated | ApiVerified _ => []
  | ArchitectureSubmitted agent d | PlanSubmitted agent d => [agent; d]
  | Routed agent selected => agent :: selected
  | Implemented agent action task surface => [agent; action; task; surface]
  | Frozen d => [d]
  | BrowserVerified suites d => d :: suites
  | Previewed kind source d => [kind; source; d]
  | ReviewSubmitted lens d => [lens; d]
  | Checked lens o => [lens; outcome_reason o]
  | Released v i d => [v; i; d]
  end.

(** A flat object: texts, and objects of texts. *)
Definition text_member (p : string * json) : bool := is_text (fst p) && match snd p with JStr s => is_text s | _ => false end.
Definition flat_member (p : string * json) : bool :=
  is_text (fst p) && match snd p with
                     | JNull => true
                     | JStr s => is_text s
                     | JObj m => forallb text_member m && bool_decide (NoDup (map fst m))
                     | _ => false
                     end.
Definition flat (m : list (string * json)) : bool := forallb flat_member m && bool_decide (NoDup (map fst m)).

Lemma flat_readable m : flat m = true -> readable (JObj m) = true.
Proof.
  intros [Hm Hn]%andb_prop. cbn [readable]. rewrite Hn, andb_true_r. rewrite forallb_true in Hm |- *.
  intros [k v] [Hk Hv]%Hm%andb_prop. cbn [fst snd] in *. rewrite Hk. destruct v as [| | | |s|l|o]; try done.
  apply andb_prop in Hv as [Ho Hd]. cbn [andb readable]. rewrite Hd, andb_true_r. rewrite forallb_true in Ho |- *.
  intros [k' v'] [Hk' Hv']%Ho%andb_prop. cbn [fst snd] in *. rewrite Hk'. by destruct v'.
Qed.

Section Facts.
Context `{Rfc8785}.
Variables (id contract : string).
Hypothesis Hid : is_text id = true.
Hypothesis Hcontract : is_text contract = true.

(** [rfc8785.dumps] encodes flat objects. *)
Hypothesis flat_encodes : forall m, flat m = true -> is_ok (rfc8785_dumps (JObj m)) = true.

Definition fact_ok (f : fact) : Prop := all_text (fact_texts f).

Lemma entry_flat stage agent action ins outs verdict detail t :
  all_text (stage :: agent :: action :: verdict :: detail :: t :: map snd (ins ++ outs) ++ map fst (ins ++ outs)) ->
  (List.length ins <= 1)%nat -> (List.length outs <= 1)%nat ->
  flat (identity_payload id (entry stage agent action ins outs verdict detail) ++ [("ts"%string, JStr t)]) = true.
Proof.
  unfold all_text. rewrite !Forall_cons, Forall_app. intros (Hs & Ha & Hc & Hv & Hd & Ht & Hx & Hk) Hi Ho.
  destruct ins as [|[k1 v1] [|]], outs as [|[k2 v2] [|]]; cbn in Hi, Ho; try lia; cbn in Hx, Hk;
    rewrite ?Forall_cons in Hx, Hk; destruct_and?; unfold flat; apply andb_true_intro;
    (split; [|decide_now]); cbn [forallb map app identity_payload entry fst snd EngineeringLedger.stage EngineeringLedger.agent
      EngineeringLedger.action input_digests output_digests tool EngineeringLedger.verdict escalation next_state
      EngineeringLedger.detail cost idempotency_key];
    rewrite ?andb_true_iff; split_and!; unfold flat_member, text_member; cbn [fst snd map forallb];
    repeat match goal with E : is_text ?x = true |- context [is_text ?x] => rewrite E end; reflexivity.
Qed.

Lemma join_text sep l : is_text sep = true -> all_text l -> is_text (join sep l) = true.
Proof. apply is_text_join. Qed.

(** The payload of a fact, with the time, is flat. *)
Lemma fact_flat f t : fact_ok f -> is_text t = true ->
  flat (identity_payload id (entry_of contract f) ++ [("ts"%string, JStr t)]) = true.
Proof.
  intros Hf Ht.
  assert (Hcore : is_text _CORE = true) by done.
  destruct f as [| |agent d|agent d|agent selected|agent action task surface|current|d|suites d|kind source d|lens d|lens o|v i d];
    unfold fact_ok, all_text in Hf; cbn [fact_texts] in Hf; rewrite ?Forall_cons in Hf; destruct_and?; cbn [entry_of];
    (apply entry_flat; [|cbn; lia|cbn; lia]); unfold all_text; cbn [map fst snd app];
    rewrite ?Forall_cons; split_and?; try done.
  - apply is_text_app; [done|]. by apply join_text.
  - repeat (apply is_text_app; [done|]). done.
  - by destruct current.
  - repeat (apply is_text_app; [done|]). apply is_text_app; [|done]. by apply join_text.
  - by destruct o.
Qed.

(** An event of the ledger attests a fact. *)
Definition event_for (f : fact) (event : list (string * json)) : Prop :=
  exists h t, event = identity_payload id (entry_of contract f) ++ [("event_id", JStr h); ("ts", JStr t)]%string
    /\ is_text h = true /\ is_text t = true.

Lemma event_of_fact f t : fact_ok f -> is_text t = true ->
  exists event, event_of id (entry_of contract f) t = Ok event /\ event_for f event.
Proof.
  intros Hf Ht. pose proof (flat_encodes _ (fact_flat f t Hf Ht)) as [b Hb]%is_ok_exists.
  assert (Hk : idempotency_key (entry_of contract f) = ""%string) by by destruct f.
  unfold event_of. rewrite Hk. cbn [nonempty]. change (nonempty "") with false. cbv iota.
  unfold canonical_digest, canonical_json_bytes. rewrite Hb. eexists. split; [done|]. eexists _, t. split; [done|].
  split; [apply sha256_digest_text|done].
Qed.

Lemma fact_evidence f : fact_ok f -> evidence_ok id (entry_of contract f).
Proof.
  intros Hf. assert (Ht : is_text "" = true) by done. pose proof (fact_flat f "" Hf Ht) as H0.
  apply flat_readable, andb_prop in H0 as [Hm _]. rewrite forallb_app in Hm. apply andb_prop in Hm as [Hm _].
  unfold evidence_ok. apply andb_true_intro. split; [exact Hm|]. apply bool_decide_eq_true, payload_names.
Qed.

Lemma event_for_ok f event : fact_ok f -> event_for f event -> event_ok event.
Proof.
  intros Hf (h & t & -> & Hh & Ht). pose proof (fact_evidence f Hf) as [Hm _]%andb_prop. rewrite forallb_true in Hm.
  apply readable_members; [by destruct f; cbn; decide_now|].
  apply Forall_app. split.
  - apply Forall_forall. intros p Hp. by apply Hm, andb_prop in Hp.
  - repeat constructor; done.
Qed.

(** A ledger that attests the facts, in their order. *)
Definition attests (l : EvidenceLedger) (tr : list fact) : Prop :=
  depth l = 0%nat /\ exists es, holds l es /\ Forall2 event_for tr es.

Lemma attested_ok tr es : Forall fact_ok tr -> Forall2 event_for tr es -> Forall event_ok es.
Proof.
  intros Ho Hall. induction Hall as [|f e tr es He _ IH]; [constructor|]. apply Forall_cons in Ho as [Hf Ho].
  constructor; [by eapply event_for_ok|auto].
Qed.

(** [record] appends the event of a fact. *)
Lemma record_fact l tr f t : Forall fact_ok tr -> attests l tr -> fact_ok f -> is_text t = true ->
  exists m l', record id (entry_of contract f) t l = (Ok m, l') /\ attests l' (tr ++ [f]).
Proof.
  intros Ho [Hdepth (es & [Hd Hb] & Hall)] Hf Ht. destruct (event_of_fact f t Hf Ht) as (event & E & Hev).
  pose proof (attested_ok tr es Ho Hall) as Hok. rewrite (record_run id _ _ _ _ E Hd).
  assert (Hk : idempotency_key (entry_of contract f) = ""%string) by by destruct f.
  set (l1 := {| run_dir := true; contents := contents l; depth := S (depth l) |}).
  rewrite (locked_appends id (entry_of contract f) event es l1 l1); [|done|by rewrite Hk| |done].
  - eexists _, _. split; [done|]. split; [done|]. exists (es ++ [event]). split; [done|].
    apply Forall2_app; [done|]. by repeat constructor.
  - by apply read_all_log.
Qed.
End Facts.

(** * The full-stack run implements its machine *)

(** ** The parts of a run that an operation replaces *)

Definition put_ledger l r := {| files := with_ledger l (files r); contract := contract r; _state := _state r;
  run_id := run_id r; _snapshots := _snapshots r |}.
Definition put_state s r := {| files := files r; contract := contract r; _state := s; run_id := run_id r; _snapshots := _snapshots r |}.
Definition put_snapshots s r := {| files := files r; contract := contract r; _state := _state r; run_id := run_id r; _snapshots := s |}.
Definition put_files g r := {| files := g (files r); contract := contract r; _state := _state r; run_id := run_id r;
  _snapshots := _snapshots r |}.
Definition saved r := put_files (with_saved (state_document (_state r))) r.

Lemma state_item_run k r v : assoc k (_state r) = Some v -> state_item k r = (Ok v, r).
Proof. intros E. unfold state_item, field. rewrite get_bind, E. done. Qed.
Lemma set_item_run k v r : set_item k v r = (Ok tt, put_state (assoc_set k v (_state r)) r).
Proof. done. Qed.
Lemma save_run r : _save r = (Ok tt, saved r).
Proof. done. Qed.

(** ** What the facts say about the texts *)

Definition review_ok (p : string * proof_outcome) : Prop := is_text (fst p) = true /\ is_text (outcome_reason (snd p)) = true.
Record status_ok (a : status) : Prop := {
  so_candidate : is_text (candidate a) = true; so_suites : all_text (suites a);
  so_reviews : Forall review_ok (reviews a); so_lenses : NoDup (map fst (reviews a));
  so_verdict : is_text (verdict a) = true; so_integrity : is_text (integrity a) = true
}.

Lemma advance_ok a f : status_ok a -> fact_ok f -> status_ok (advance a f).
Proof.
  intros [Hc Hs Hr Hl Hv Hi] Hf. unfold fact_ok, all_text in *.
  destruct f as [| |agent d|agent d|agent selected|agent action task surface|[]|d|suites_ d|kind source d|lens d|lens []|v i d];
    cbn [advance fact_texts] in *; try (by constructor); rewrite ?Forall_cons in Hf; destruct_and?; constructor; try done;
    cbn [suites reviews]; try (by apply assoc_set_all); try (by apply set_keys_distinct).
  apply Forall_forall. intros x Hx. apply elem_of_sorted_set, elem_of_app in Hx.
  repeat match goal with Hall : Forall _ _ |- _ => rewrite Forall_forall in Hall end. destruct Hx; auto.
Qed.

Lemma lawful_ok tr a : lawful tr a -> Forall fact_ok tr -> status_ok a.
Proof.
  induction 1 as [|tr a f Hl IH Ha]; intros Hf; [by repeat constructor|].
  apply Forall_app in Hf as [Hf [Hx _]%Forall_cons]. apply advance_ok; auto.
Qed.

Lemma reviews_map lens o m :
  map (fun p => (fst p, review_json (snd p))) (assoc_set lens o m)
  = assoc_set lens (review_json o) (map (fun p => (fst p, review_json (snd p))) m).
Proof.
  induction m as [|[k v] m IH]; [done|]. cbn [assoc_set map fst snd]. destruct (String.eqb lens k); [done|].
  cbn [map fst snd]. by rewrite IH.
Qed.

Lemma reviews_assoc lens m :
  assoc lens (map (fun p => (fst p, review_json (snd p))) m) = review_json <$> assoc lens m.
Proof. induction m as [|[k v] m IH]; [done|]. cbn [assoc map fst snd]. by destruct (String.eqb lens k). Qed.

Section Refinement.
Context `{Rfc8785} `{Unicode} `{Lower}.
Hypothesis flat_encodes : forall m, flat m = true -> is_ok (rfc8785_dumps (JObj m)) = true.
Variable D : string.
Hypothesis HD : is_text D = true.

(** The contract of the run is the one of its file, and has the digest [D]. *)
Record locks (r : FullStackRun) : Prop := {
  lk_id : is_text (run_id r) = true;
  lk_digest : digest (contract r) = Ok D;
  lk_file : exists text, contract_file (files r) = Some text /\ read_text text = Ok text /\
    forall path, load_fullstack_contract path (Ok text) = Ok (contract r)
}.

Record simulates (r : FullStackRun) (tr : list fact) (a : status) : Prop := {
  si_locks : locks r;
  si_lawful : lawful tr a;
  si_facts : Forall fact_ok tr;
  si_ledger : attests (run_id r) D (ledger (files r)) tr;
  si_state : _state r = state_of (run_id r) D a;
  si_saved : state_file (files r) = Some (state_document (_state r));
  si_journey : is_Some (journey_record (files r)) -> validated a = true;
  si_open : Forall (fun p => fst p ∈ REQUIRED_LENSES /\ candidate a <> ""%string) (_snapshots r)
}.

(** ** Steps of the simulation *)

Lemma advance_candidate a f : candidate a <> ""%string -> allowed a f -> candidate (advance a f) <> ""%string.
Proof.
  destruct f as [| | | | | |[]| | | | | ? []|]; cbn [advance allowed candidate]; try done. by intros _ (_ & _ & ?).
Qed.
Lemma advance_validated a f : validated a = true -> validated (advance a f) = true.
Proof. by destruct f as [| | | | | |[]| | | | | ? []|]. Qed.

(** A fact that the ledger attests, with the state it amounts to. *)
Lemma commit r tr a f l : simulates r tr a -> allowed a f -> fact_ok f -> attests (run_id r) D l (tr ++ [f]) ->
  simulates (saved (put_state (state_of (run_id r) D (advance a f)) (put_ledger l r))) (tr ++ [f]) (advance a f).
Proof.
  intros [Hk Hl Hf _ _ _ Hj Ho] Ha Hfact Hled. constructor; try done.
  - destruct Hk. by constructor.
  - by constructor.
  - apply Forall_app. by split; [|repeat constructor].
  - intros Hsome. by apply advance_validated, Hj.
  - eapply Forall_impl; [exact Ho|]. intros p [Hp Hc]. split; [done|by apply advance_candidate].
Qed.

(** A fact that changes nothing of the dict is not saved. *)
Definition unsaved (a : status) (f : fact) : Prop := state_of "" D (advance a f) = state_of "" D a.

Lemma attest r tr a f l : simulates r tr a -> allowed a f -> fact_ok f -> attests (run_id r) D l (tr ++ [f]) ->
  unsaved a f -> simulates (put_ledger l r) (tr ++ [f]) (advance a f).
Proof.
  intros [Hk Hl Hf _ Hs Hd Hj Ho] Ha Hfact Hled Heq. constructor; try done.
  - destruct Hk. by constructor.
  - by constructor.
  - apply Forall_app. by split; [|repeat constructor].
  - unfold unsaved in Heq. change (_state (put_ledger l r)) with (_state r). rewrite Hs. unfold state_of in *. by injection Heq as -> -> -> -> -> -> -> ->.
  - intros Hsome. by apply advance_validated, Hj.
  - eapply Forall_impl; [exact Ho|]. intros p [Hp Hc]. split; [done|by apply advance_candidate].
Qed.

Lemma with_snapshots r tr a s : simulates r tr a ->
  Forall (fun p => fst p ∈ REQUIRED_LENSES /\ candidate a <> ""%string) s -> simulates (put_snapshots s r) tr a.
Proof. intros [Hk Hl Hf Hled Hs Hd Hj _] Ho. constructor; try done. destruct Hk. by constructor. Qed.

Lemma with_journey_record r tr a j : simulates r tr a -> validated a = true -> simulates (put_files (with_journey j) r) tr a.
Proof. intros [Hk Hl Hf Hled Hs Hd _ Ho] Hv. constructor; try done. destruct Hk. by constructor. Qed.
Lemma with_candidate_file r tr a name text : simulates r tr a -> simulates (put_files (with_candidate name text) r) tr a.
Proof. intros [Hk Hl Hf Hled Hs Hd Hj Ho]. constructor; try done. destruct Hk. by constructor. Qed.

Lemma ledger_run r tr f t : is_text (run_id r) = true -> Forall fact_ok tr -> attests (run_id r) D (ledger (files r)) tr ->
  fact_ok f -> is_text t = true ->
  exists l, ledger_record (entry_of D f) t r = (Ok tt, put_ledger l r) /\ attests (run_id r) D l (tr ++ [f]).
Proof.
  intros Hid Hok Hled Hf Ht.
  destruct (record_fact (run_id r) D Hid HD flat_encodes (ledger (files r)) tr f t Hok Hled Hf Ht) as (m & l & E & Hl).
  exists l. split; [|done]. unfold ledger_record. by rewrite E.
Qed.

Lemma text_item_run k r s : assoc k (_state r) = Some (JStr s) ->
  (v ← state_item k; mret (py_str v)) r = (Ok s, r).
Proof. intros E. by rewrite (bind_run _ _ _ (JStr s) r) by by apply state_item_run. Qed.

(** What the dict of a simulating run holds. *)
Lemma digest_run r tr a : simulates r tr a -> contract_digest r = (Ok D, r).
Proof. intros Hs. apply text_item_run. by rewrite (si_state _ _ _ Hs). Qed.
Lemma candidate_run r tr a : simulates r tr a -> candidate_digest r = (Ok (candidate a), r).
Proof. intros Hs. apply text_item_run. by rewrite (si_state _ _ _ Hs). Qed.
Lemma require_run r tr a : simulates r tr a ->
  candidate a <> ""%string /\ _require_candidate r = (Ok tt, r) \/ exists x, _require_candidate r = (Raise x, r).
Proof.
  intros Hs. unfold _require_candidate. rewrite (bind_run _ _ _ _ _ (candidate_run _ _ _ Hs)). unfold nonempty.
  destruct (String.eqb_spec (candidate a) ""); cbn [negb]; [right|left]; eauto.
Qed.

(** A run that a call took on from the facts [tr]. *)
Definition goes_on (c : call) (x : res unit) (tr : list fact) (r : FullStackRun) : Prop :=
  exists fs a, emitted c x fs /\ simulates r (tr ++ fs) a.

Lemma goes_on_same c x tr r a : simulates r tr a -> goes_on c x tr r.
Proof. exists [], a. rewrite app_nil_r. by split; [left|]. Qed.
Lemma goes_on_by c x tr fs r a : emitted c x fs -> simulates r (tr ++ fs) a -> goes_on c x tr r.
Proof. by exists fs, a. Qed.

Lemma emits r tr a f t : simulates r tr a -> fact_ok f -> is_text t = true ->
  exists l, ledger_record (entry_of D f) t r = (Ok tt, put_ledger l r) /\ attests (run_id r) D l (tr ++ [f]).
Proof. intros Hs. destruct Hs as [[Hid _ _] _ Hok Hled _ _ _ _]. by apply ledger_run. Qed.

(** A call that only records. *)
Lemma records r tr a f t x r' : simulates r tr a -> allowed a f -> fact_ok f -> unsaved a f -> is_text t = true ->
  ledger_record (entry_of D f) t r = (x, r') -> x = Ok tt /\ simulates r' (tr ++ [f]) (advance a f).
Proof.
  intros Hs Ha Hf Heq Ht E. destruct (emits r tr a f t Hs Hf Ht) as (l & El & Hl). rewrite El in E.
  injection E as <- <-. split; [done|]. by apply (attest _ _ _ f).
Qed.
End Refinement.
