(* ===== verification/FullstackRuns.v ===== *)
(** * The operations of a full-stack run, one by one

    Each of them, whatever it returns, leaves a run that simulates the machine
    and has kept the facts it had.

    ** Runs of the full-stack machine

    [start], any sequence of calls that return or raise, and [load]. *)
From Stdlib Require Import Ascii String.
From S2P Require Import Prelude Sha256 Json JsonText Canonical JsonFacts JsonAscii PyStr PyConv TextFacts JsonIndent.
From S2P Require Import EngineeringLedger EngineeringLedgerFacts EngineeringLedgerTheorems Trajectory Schema.
From S2P Require Import FullstackContract FullstackGates Fullstack FullstackSpec FullstackRefine.

Section Operations.
Context `{Rfc8785} `{Unicode} `{Lower}.
Hypothesis flat_encodes : forall m, flat m = true -> is_ok (rfc8785_dumps (JObj m)) = true.
Variable D : string.
Hypothesis HD : is_text D = true.

Abbreviation simulates := (simulates D).
Abbreviation goes_on := (goes_on D).

Lemma goes_on_raise c r tr a (x : exn) (y : res unit) r' : simulates r tr a -> (Raise x, r) = (y, r') -> goes_on c y tr r'.
Proof. intros Hs [= <- <-]. by eapply goes_on_same. Qed.

Lemma records_on c r tr a f t x r' : (forall x, emitted c x [f]) -> simulates r tr a -> allowed a f -> fact_ok f -> unsaved D a f -> is_text t = true ->
  ledger_record (entry_of D f) t r = (x, r') -> goes_on c x tr r'.
Proof. intros He Hs Ha Hf Heq Ht E. eapply records in E as [_ E]; [by exists [f], (advance a f)|done..]. Qed.

(** ** What agents submit *)

Lemma architecture_on agent d t r tr a x r' : simulates r tr a -> all_text [agent; d; t] ->
  record_architecture agent d t r = (x, r') -> goes_on (RecordArchitecture agent d t) x tr r'.
Proof.
  unfold all_text. rewrite !Forall_cons. intros Hs (Ha & Hd & Ht & _). unfold record_architecture.
  rewrite (bind_run _ _ _ _ _ (digest_run D r tr a Hs)).
  eapply (records_on _ r tr a (ArchitectureSubmitted agent d)); [by right|try done..]. by repeat constructor.
Qed.

Lemma plan_on agent d t r tr a x r' : simulates r tr a -> all_text [agent; d; t] ->
  record_plan agent d t r = (x, r') -> goes_on (RecordPlan agent d t) x tr r'.
Proof.
  unfold all_text. rewrite !Forall_cons. intros Hs (Ha & Hd & Ht & _). unfold record_plan.
  rewrite (bind_run _ _ _ _ _ (digest_run D r tr a Hs)).
  eapply (records_on _ r tr a (PlanSubmitted agent d)); [by right|try done..]. by repeat constructor.
Qed.

Lemma routing_on agent selected t r tr a x r' : simulates r tr a -> all_text (agent :: t :: selected) ->
  record_routing agent selected t r = (x, r') -> goes_on (RecordRouting agent selected t) x tr r'.
Proof.
  unfold all_text. rewrite !Forall_cons. intros Hs (Ha & Ht & Hl).
  eapply (records_on _ r tr a (Routed agent selected)); [by right|try done..]. by constructor.
Qed.

Lemma require_journey_on dir d r tr a x r' : simulates r tr a ->
  require_validated_journey dir d r = (x, r') -> r' = r /\ (x = Ok tt -> validated a = true).
Proof.
  intros Hs. unfold require_validated_journey. rewrite get_bind.
  pose proof (si_journey _ _ _ _ Hs) as Hj. destruct (journey_record (files r)) as [bytes|]; [|by intros [= <- <-]].
  intros E. split; [|intros _; apply Hj; eauto].
  destruct (text ← read_text bytes; json_loads default_hooks text) as [v|y];
    [rewrite lift_Ok_bind in E; destruct v as [| | | | | |m]|rewrite lift_Raise_bind in E]; try (by injection E as <- <-).
  destruct (py_eq (jget "contract_digest" m) (JStr d)); by injection E as <- <-.
Qed.

Lemma implementation_on dir agent action task surface t r tr a x r' : simulates r tr a ->
  all_text [agent; action; task; surface; t] ->
  record_implementation dir agent action task surface t r = (x, r') -> goes_on (RecordImplementation agent action task surface t) x tr r'.
Proof.
  unfold all_text. rewrite !Forall_cons. intros Hs (Ha & Hc & Hk & Hf & Ht & _). unfold record_implementation.
  destruct (str_in surface _) eqn:Hin; [|by apply goes_on_raise with (a := a)]. apply str_in_elem in Hin.
  assert (Hrec : (surface = "frontend"%string -> validated a = true) ->
    ledger_record (entry_of D (Implemented agent action task surface)) t r = (x, r') ->
    goes_on (RecordImplementation agent action task surface t) x tr r').
  { intros Hv. eapply (records_on _ r tr a (Implemented agent action task surface)); [by right|try done..]. by repeat constructor. }
  destruct (String.eqb_spec surface "frontend") as [->|Hne].
  - intros E. open_bind E.
    + rewrite (bind_run _ _ _ _ _ (digest_run D r tr a Hs)) in E0.
      apply (require_journey_on _ _ _ _ _ _ _ Hs) in E0 as [-> Hv]. destruct a0. by apply Hrec; [intros _; apply Hv|].
    + rewrite (bind_run _ _ _ _ _ (digest_run D r tr a Hs)) in E0.
      apply (require_journey_on _ _ _ _ _ _ _ Hs) in E0 as [-> _]. by eapply goes_on_same.
  - intros E. rewrite ret_bind in E. by apply Hrec.
Qed.

(** ** The journey and the API contract *)

Lemma journey_on t0 t r tr a x r' : simulates r tr a -> is_text t = true ->
  validate_journey t0 t r = (x, r') -> goes_on (ValidateJourney t0 t) x tr r'.
Proof.
  intros Hs Ht. unfold validate_journey. rewrite get_bind.
  destruct (validate_ux_architecture (contract r)) eqn:Hux; [|by apply goes_on_raise with (a := a)].
  set (j := json_document (journey_document (contract r) D t0)). set (r1 := put_files (with_journey j) r).
  set (r2 := put_state (assoc_set "journey_validated" (JBool true) (_state r)) r1).
  assert (E1 : record_validated_journey t0 r = (Ok tt, r1)).
  { unfold record_validated_journey. rewrite get_bind, Hux, (lk_digest D r (si_locks _ _ _ _ Hs)), lift_Ok_bind. done. }
  assert (Hfact : fact_ok JourneyValidated) by constructor.
  destruct (ledger_run flat_encodes D HD r2 tr JourneyValidated t) as (l & El & Hl);
    [apply (lk_id D r (si_locks _ _ _ _ Hs))|apply (si_facts _ _ _ _ Hs)|apply (si_ledger _ _ _ _ Hs)|done|done|].
  assert (Hd : contract_digest r2 = (Ok D, r2)).
  { apply text_item_run. cbn. by rewrite (si_state _ _ _ _ Hs). }
  rewrite (bind_run _ _ _ _ _ E1), (bind_run _ _ _ _ _ (set_item_run _ _ r1)), (bind_run _ _ _ _ _ Hd).
  rewrite (bind_run _ _ _ _ _ El), save_run. intros [= <- <-].
  pose proof (commit D r tr a JourneyValidated l Hs I Hfact Hl) as Hc.
  apply (with_journey_record D _ _ _ j) in Hc; [|done].
  exists [JourneyValidated], (advance a JourneyValidated). split; [by right|].
  unfold r2, r1. rewrite (si_state _ _ _ _ Hs). exact Hc.
Qed.

Lemma api_on current t r tr a x r' : simulates r tr a -> is_text t = true ->
  record_api_contract current t r = (x, r') -> goes_on (RecordApiContract current t) x tr r'.
Proof.
  intros Hs Ht. assert (Hfact : fact_ok (ApiVerified current)) by constructor. unfold record_api_contract.
  destruct (emits flat_encodes D HD r tr a (ApiVerified current) t Hs Hfact Ht) as (l & El & Hl).
  rewrite (bind_run _ _ _ _ _ El). destruct current.
  - rewrite (bind_run _ _ _ _ _ (set_item_run _ _ _)), save_run. intros [= <- <-].
    pose proof (commit D r tr a (ApiVerified true) l Hs I Hfact Hl) as Hc.
    exists [ApiVerified true], (advance a (ApiVerified true)). split; [by right|]. change (_state (put_ledger l r)) with (_state r).
    rewrite (si_state _ _ _ _ Hs). exact Hc.
  - intros [= <- <-]. apply goes_on_by with [ApiVerified false] (advance a (ApiVerified false)); [by right|].
    by apply attest.
Qed.

(** ** The candidate *)

Lemma flag_run k b r : assoc k (_state r) = Some (JBool b) -> state_flag k r = (Ok b, r).
Proof. intros E. unfold state_flag. by rewrite (bind_run _ _ _ _ _ (state_item_run _ _ _ E)). Qed.

Lemma candidate_text r tr a : simulates r tr a -> is_text (candidate a) = true.
Proof. intros Hs. apply so_candidate, (lawful_ok tr); apply Hs. Qed.

Lemma freeze_candidate_run repo now r x r' : freeze_candidate repo D now r = (x, r') ->
  (exists y, x = Raise y /\ r' = r) \/
  exists c, x = Ok c /\ is_text (candidate_tree_digest c) = true /\ candidate_tree_digest c <> ""%string
    /\ tree_content_digest repo = Ok (candidate_tree_digest c)
    /\ r' = put_files (with_candidate (candidate_id c +:+ ".json") (json_document (candidate_json c))) r.
Proof.
  unfold freeze_candidate. destruct (rev_parse_head repo) as [commit_|y]; [|intros [= <- <-]; eauto].
  destruct (status_porcelain repo) as [dirty|y]; [|intros [= <- <-]; eauto]. rewrite !lift_Ok_bind.
  destruct (nonempty (strip dirty)); [intros [= <- <-]; eauto|].
  destruct (tree_content_digest repo) as [d|y] eqn:Ed; [|intros [= <- <-]; eauto]. rewrite lift_Ok_bind, get_bind.
  rewrite (bind_run _ _ _ tt (put_files (with_candidate _ _) r)) by done.
  intros [= <- <-]. right. eexists. split; [done|]. cbn [candidate_tree_digest candidate_id].
  unfold tree_content_digest, _combined_digest, canonical_digest in Ed. simp_res. subst d.
  split_and!; [apply sha256_digest_text|done|done|done].
Qed.

(** A freeze is refused and changes nothing, or makes the digest of the tree the
    candidate. *)
Lemma freeze_cases dir repo t0 t r tr a x r' : simulates r tr a -> is_text t = true ->
  freeze dir repo t0 t r = (x, r') ->
  (exists y, x = Raise y /\ r' = r) \/
  exists c, x = Ok c /\ tree_content_digest repo = Ok (candidate_tree_digest c) /\
    simulates r' (tr ++ [Frozen (candidate_tree_digest c)]) (advance a (Frozen (candidate_tree_digest c))).
Proof.
  intros Hs Ht. unfold freeze. pose proof (si_state _ _ _ _ Hs) as Hst.
  rewrite (bind_run _ _ _ _ _ (flag_run "journey_validated" (validated a) r ltac:(by rewrite Hst))).
  destruct (validated a) eqn:Hv; [|intros [= <- <-]; eauto]. cbn [negb].
  rewrite (bind_run _ _ _ _ _ (digest_run D r tr a Hs)). intros E.
  open_bind E; apply (require_journey_on _ _ _ _ _ _ _ Hs) in E0 as [-> _]; [|eauto].
  rewrite (bind_run _ _ _ _ _ (flag_run "api_contract_current" (api_current a) r ltac:(by rewrite Hst))) in E.
  destruct (api_current a) eqn:Hapi; [|injection E as <- <-; eauto]. cbn [negb] in E.
  open_bind E; apply freeze_candidate_run in E0 as [(y & [=] & ->)|(c' & [=] & Htext & Hne & Htree & ->)]; [|eauto]. subst a1.
  set (d := candidate_tree_digest c') in *.
  rewrite (bind_run _ _ _ _ _ (set_item_run _ _ _)) in E. revert E.
  set (r1 := put_files _ r). set (r2 := put_state _ r1). intros E.
  assert (Hfact : fact_ok (Frozen d)) by by repeat constructor.
  destruct (ledger_run flat_encodes D HD r2 tr (Frozen d) t) as (l & El & Hl);
    [apply (lk_id D r (si_locks _ _ _ _ Hs))|apply (si_facts _ _ _ _ Hs)|apply (si_ledger _ _ _ _ Hs)|done|done|].
  rewrite (bind_run _ _ _ _ _ El), (bind_run _ _ _ _ _ (save_run _)) in E. injection E as <- <-.
  right. exists c'. split; [done|]. split; [done|].
  assert (Ha : allowed a (Frozen d)) by done.
  pose proof (with_candidate_file D _ _ _ (candidate_id c' +:+ ".json") (json_document (candidate_json c'))
    (commit D r tr a (Frozen d) l Hs Ha Hfact Hl)) as Hc.
  unfold r2, r1. change (_state (put_files _ r)) with (_state r). rewrite Hst. exact Hc.
Qed.

(** ** Browser verification and preview *)

Lemma texts_back l : res_mapM as_text (map JStr l) = Ok l.
Proof. induction l as [|s l IH]; [done|]. cbn [map res_mapM as_text as_str from_option_res mbind res_bind]. by rewrite IH. Qed.

Lemma browser_on suites_ mocked passed t r tr a x r' : simulates r tr a -> all_text (t :: suites_) ->
  record_browser_verification suites_ mocked passed t r = (x, r') -> goes_on (RecordBrowserVerification suites_ mocked passed t) x tr r'.
Proof.
  unfold all_text. rewrite Forall_cons. intros Hs [Ht Hl]. unfold record_browser_verification.
  destruct mocked; [by apply goes_on_raise with (a := a)|]. destruct passed; [|by apply goes_on_raise with (a := a)].
  cbn [negb]. destruct (require_run D r tr a Hs) as [[Hne E]|[y E]];
    [rewrite (bind_run _ _ _ _ _ E)|rewrite (bind_stop _ _ _ _ _ E); by apply goes_on_raise with (a := a)].
  rewrite (bind_run _ _ _ _ _ (candidate_run D r tr a Hs)).
  set (f := BrowserVerified suites_ (candidate a)).
  assert (Hfact : fact_ok f) by (constructor; [by eapply candidate_text|done]).
  destruct (emits flat_encodes D HD r tr a f t Hs Hfact Ht) as (l & El & Hatt). rewrite (bind_run _ _ _ _ _ El).
  assert (Hr : recorded_suites (put_ledger l r) = (Ok (suites a), put_ledger l r)).
  { unfold recorded_suites. rewrite (bind_run _ _ _ (JArr (map JStr (suites a))) (put_ledger l r)).
    - cbn [iterate mbind res_bind]. by rewrite texts_back.
    - apply state_item_run. change (_state (put_ledger l r)) with (_state r). by rewrite (si_state _ _ _ _ Hs). }
  rewrite (bind_run _ _ _ _ _ Hr), (bind_run _ _ _ _ _ (set_item_run _ _ _)), save_run. intros [= <- <-].
  exists [f], (advance a f). split; [right; by eexists _|].
  change (_state (put_ledger l r)) with (_state r). rewrite (si_state _ _ _ _ Hs).
  by apply (commit D r tr a f l Hs).
Qed.

Lemma read_evidence_kind content e k : read_evidence content = Ok e -> preview_kind (Some content) = Ok k -> k = deployment_kind e.
Proof.
  unfold read_evidence, preview_kind. cbn [from_option_res mbind res_bind]. intros He Hk. simp_res.
  subst k e. cbn [deployment_kind]. congruence.
Qed.

Lemma preview_verified path content expected k :
  verify_preview path content expected = Ok [] -> preview_kind content = Ok k -> k ∈ ALLOWED_PREVIEW_KINDS.
Proof.
  unfold verify_preview. destruct content as [bytes|]; [|done]. destruct (read_evidence bytes) as [e|y] eqn:He.
  - intros [= Hp] Hk. apply (read_evidence_kind _ _ _ He) in Hk as ->. apply str_in_elem.
    apply app_nil in Hp as [Hp _]. apply app_nil in Hp as [_ Hp]. apply app_nil in Hp as [Hp _].
    by destruct (str_in (deployment_kind e) ALLOWED_PREVIEW_KINDS).
  - by destruct (unreadable_evidence y).
Qed.

Lemma kind_text k : k ∈ ALLOWED_PREVIEW_KINDS -> is_text k = true.
Proof. unfold ALLOWED_PREVIEW_KINDS. rewrite !elem_of_cons, elem_of_nil. by intros [->|[->|[]]]. Qed.

Lemma preview_on path content expected t r tr a x r' : simulates r tr a -> all_text [expected; t] ->
  record_preview path content expected t r = (x, r') -> goes_on (RecordPreview path content expected t) x tr r'.
Proof.
  unfold all_text. rewrite !Forall_cons. intros Hs (He & Ht & _). unfold record_preview.
  destruct (require_run D r tr a Hs) as [[Hne E]|[y E]];
    [rewrite (bind_run _ _ _ _ _ E)|rewrite (bind_stop _ _ _ _ _ E); by apply goes_on_raise with (a := a)].
  destruct (verify_preview path content expected) as [problems|y] eqn:Hv; [rewrite lift_Ok_bind|by apply goes_on_raise with (a := a)].
  destruct problems; [|by apply goes_on_raise with (a := a)].
  destruct (preview_kind content) as [k|y] eqn:Hk; [rewrite lift_Ok_bind|by apply goes_on_raise with (a := a)].
  pose proof (preview_verified _ _ _ _ Hv Hk) as Hin. rewrite (bind_run _ _ _ _ _ (candidate_run D r tr a Hs)).
  set (f := Previewed k expected (candidate a)).
  assert (Hfact : fact_ok f) by (repeat constructor; [by apply kind_text|done|by eapply candidate_text]).
  destruct (emits flat_encodes D HD r tr a f t Hs Hfact Ht) as (l & El & Hatt). rewrite (bind_run _ _ _ _ _ El).
  rewrite (bind_run _ _ _ _ _ (set_item_run _ _ _)), save_run. intros [= <- <-].
  exists [f], (advance a f). split; [right; by eexists _, _|].
  change (_state (put_ledger l r)) with (_state r). rewrite (si_state _ _ _ _ Hs).
  by apply (commit D r tr a f l Hs).
Qed.

(** ** Reviews *)

Abbreviation open_ok a s := (Forall (fun p : string * list (string * string) => fst p ∈ REQUIRED_LENSES /\ candidate a <> ""%string) s).

Lemma begin_on lens repo r tr a x r' : simulates r tr a -> begin_review lens repo r = (x, r') -> goes_on (BeginReview lens repo) x tr r'.
Proof.
  intros Hs. unfold begin_review. destruct (str_in lens REQUIRED_LENSES) eqn:Hin; [|by apply goes_on_raise with (a := a)].
  cbn [negb]. apply str_in_elem in Hin. destruct (require_run D r tr a Hs) as [[Hne E]|[y E]];
    [rewrite (bind_run _ _ _ _ _ E)|rewrite (bind_stop _ _ _ _ _ E); by apply goes_on_raise with (a := a)].
  destruct (readonly_snapshot repo) as [snapshot|y]; [rewrite lift_Ok_bind|by apply goes_on_raise with (a := a)].
  rewrite get_bind. intros [= <- <-]. apply goes_on_same with a, with_snapshots; [done|].
  apply assoc_set_all; [done|]. apply (si_open _ _ _ _ Hs).
Qed.

Lemma open_del a lens s : open_ok a s -> open_ok a (assoc_del lens s).
Proof.
  rewrite !Forall_forall. intros Ho p Hp. apply Ho. unfold assoc_del in Hp.
  apply list_elem_of_In, filter_In in Hp as [Hp _]. by apply list_elem_of_In.
Qed.

(** The submission that opens the record of a review. *)
Lemma submit_run lens t r tr a : simulates r tr a -> lens ∈ REQUIRED_LENSES -> candidate a <> ""%string ->
  is_text t = true ->
  exists r1, submit_review lens t r = (Ok tt, r1) /\ simulates r1 (tr ++ [ReviewSubmitted lens (candidate a)]) (add_submitted a lens).
Proof.
  intros Hs Hin Hne Ht. unfold submit_review. rewrite (bind_run _ _ _ _ _ (candidate_run D r tr a Hs)).
  set (f := ReviewSubmitted lens (candidate a)).
  assert (Hfact : fact_ok f).
  { repeat constructor; [|by eapply candidate_text]. revert Hin. unfold REQUIRED_LENSES, FULLSTACK_REVIEW_LENSES.
    cbn [map snd]. rewrite !elem_of_cons, elem_of_nil. by intros [->|[->|[->|[->|[->|[->|[]]]]]]]. }
  destruct (emits flat_encodes D HD r tr a f t Hs Hfact Ht) as (l & El & Hatt). eexists. split; [exact El|].
  by apply (attest D r tr a f).
Qed.

Lemma roster_text lens : lens ∈ REQUIRED_LENSES -> is_text lens = true.
Proof.
  unfold REQUIRED_LENSES, FULLSTACK_REVIEW_LENSES. cbn [map snd]. rewrite !elem_of_cons, elem_of_nil.
  by intros [->|[->|[->|[->|[->|[->|[]]]]]]].
Qed.

Lemma set_review_run lens o r a : _state r = state_of (run_id r) D a -> o <> Modified ->
  set_review lens (review_json o) r = (Ok tt, put_state (state_of (run_id r) D (advance a (Checked lens o))) r).
Proof.
  intros Hst Ho. unfold set_review. erewrite bind_run by (apply state_item_run; by rewrite Hst).
  cbn [as_object as_obj from_option_res]. rewrite lift_Ok_bind, set_item_run, Hst, <- reviews_map. by destruct o.
Qed.

(** The check that closes a review. *)
Lemma check_run lens o t r tr a : simulates r tr a -> lens ∈ REQUIRED_LENSES -> lens ∈ submitted a ->
  all_text [outcome_reason o; t] ->
  exists l, ledger_record (entry_of D (Checked lens o)) t r = (Ok tt, put_ledger l r) /\
    (if bool_decide (o = Modified) then simulates (put_ledger l r) (tr ++ [Checked lens o]) a
     else exists r', (_ ← set_review lens (review_json o); _save) (put_ledger l r) = (Ok tt, r') /\
                     simulates r' (tr ++ [Checked lens o]) (advance a (Checked lens o))).
Proof.
  unfold all_text. rewrite !Forall_cons. intros Hs Hin Hne (Hr & Ht & _). set (f := Checked lens o).
  assert (Hfact : fact_ok f) by (repeat constructor; [by apply roster_text|done]).
  destruct (emits flat_encodes D HD r tr a f t Hs Hfact Ht) as (l & El & Hatt). exists l. split; [exact El|].
  assert (Hst : _state (put_ledger l r) = state_of (run_id r) D a) by exact (si_state _ _ _ _ Hs).
  case_bool_decide as Ho.
  - subst o. by apply (attest D r tr a f).
  - rewrite (bind_run _ _ _ _ _ (set_review_run lens o _ a Hst Ho)), save_run. eexists. split; [done|].
    by apply (commit D r tr a f l Hs).
Qed.

Lemma end_on lens repo t t' r tr a x r' : simulates r tr a -> all_text [t; t'] ->
  end_review lens repo t t' r = (x, r') -> goes_on (EndReview lens repo t t') x tr r'.
Proof.
  unfold all_text. rewrite !Forall_cons. intros Hs (Ht & Ht' & _). unfold end_review. rewrite get_bind.
  destruct (assoc lens (_snapshots r)) as [before|] eqn:Hb; [|by apply goes_on_raise with (a := a)].
  pose proof (si_open _ _ _ _ Hs) as Ho. pose proof Ho as Hlens. rewrite Forall_forall in Hlens.
  apply assoc_In, Hlens in Hb as [Hin Hne]. cbn [fst] in Hin. clear Hlens.
  pose proof (with_snapshots D r tr a _ Hs (open_del a lens _ Ho)) as Hs0.
  rewrite (bind_run _ _ _ tt (put_snapshots (assoc_del lens (_snapshots r)) r)) by done.
  destruct (submit_run lens t _ tr a Hs0 Hin Hne Ht) as (r1 & E1 & Hs1). rewrite (bind_run _ _ _ _ _ E1).
  destruct (verify_unmodified repo before) as [changed|y]; [rewrite lift_Ok_bind|].
  2: { intros [= <- <-]. eapply goes_on_by; [right; eexists; by left|done]. }
  destruct changed as [|c cs].
  - destruct (check_run lens Clean t' r1 _ _ Hs1 Hin ltac:(left)) as (l & El & r2 & E2 & Hs2); [by repeat constructor|].
    rewrite (bind_run _ _ _ _ _ El). change (strs [("integrity", INTEGRITY_VALID)]%string) with (review_json Clean).
    rewrite E2. intros [= <- <-]. rewrite <- app_assoc in Hs2. eapply goes_on_by; [right; eexists; by right; left|done].
  - destruct (check_run lens Modified t' r1 _ _ Hs1 Hin ltac:(left)) as (l & El & Hs2); [by repeat constructor|].
    rewrite (bind_run _ _ _ _ _ El). intros [= <- <-]. change (simulates (put_ledger l r1) ((tr ++ [ReviewSubmitted lens (candidate a)]) ++ [Checked lens Modified])
      (add_submitted a lens)) in Hs2. rewrite <- app_assoc in Hs2.
    eapply goes_on_by; [right; eexists; by right; right|done].
Qed.

Lemma infrastructure_on lens reason t t' r tr a x r' : simulates r tr a -> all_text [reason; t; t'] ->
  record_infrastructure_invalid_review lens reason t t' r = (x, r') ->
  goes_on (RecordInfrastructureInvalid lens reason t t') x tr r'.
Proof.
  unfold all_text. rewrite !Forall_cons. intros Hs (Hr & Ht & Ht' & _). unfold record_infrastructure_invalid_review.
  destruct (str_in lens REQUIRED_LENSES) eqn:Hin; [|by apply goes_on_raise with (a := a)].
  cbn [negb]. apply str_in_elem in Hin. destruct (require_run D r tr a Hs) as [[Hne E]|[y E]];
    [rewrite (bind_run _ _ _ _ _ E)|rewrite (bind_stop _ _ _ _ _ E); by apply goes_on_raise with (a := a)].
  rewrite get_bind, (bind_run _ _ _ tt (put_snapshots (assoc_del lens (_snapshots r)) r)) by done.
  pose proof (with_snapshots D r tr a _ Hs (open_del a lens _ (si_open _ _ _ _ Hs))) as Hs0.
  destruct (submit_run lens t _ tr a Hs0 Hin Hne Ht) as (r1 & E1 & Hs1). rewrite (bind_run _ _ _ _ _ E1).
  destruct (check_run lens (Invalid reason) t' r1 _ _ Hs1 Hin ltac:(left)) as (l & El & r2 & E2 & Hs2); [by repeat constructor|].
  rewrite (bind_run _ _ _ _ _ El).
  change (strs [("integrity", INTEGRITY_INFRASTRUCTURE_INVALID); ("reason", reason)]%string) with (review_json (Invalid reason)).
  rewrite E2. intros [= <- <-]. rewrite <- app_assoc in Hs2. eapply goes_on_by; [right; by eexists|done].
Qed.

(** ** Release *)

Lemma lens_integrity_run reviews_ lens o : assoc lens reviews_ = Some o -> o <> Modified ->
  lens_integrity (map (fun p => (fst p, review_json (snd p))) reviews_) lens
  = Ok (lens, JStr (if bool_decide (o = Clean) then INTEGRITY_VALID else INTEGRITY_INFRASTRUCTURE_INVALID)).
Proof.
  intros E Ho. unfold lens_integrity, field. rewrite reviews_assoc, E. by destruct o.
Qed.

(** What the gates ask of the dict is what the machine asks of its state. *)
Definition counted (a : status) : Prop := Forall (fun p => snd p <> Modified) (reviews a).

Lemma advance_counted a f : counted a -> counted (advance a f).
Proof.
  unfold counted. destruct f as [| | | | | |[]| | | | | ? []|]; cbn [advance reviews]; try done; intros Hc;
    by apply assoc_set_all.
Qed.
Lemma lawful_counted tr a : lawful tr a -> counted a.
Proof. induction 1; [by constructor|by apply advance_counted]. Qed.

Definition reported (a : status) (lens : string) : string * json :=
  (lens, JStr (if lens_valid a lens then INTEGRITY_VALID else INTEGRITY_INFRASTRUCTURE_INVALID)).

Lemma lenses_reported a lenses : counted a -> Forall (fun lens => is_Some (assoc lens (reviews a))) lenses ->
  res_mapM (lens_integrity (map (fun p => (fst p, review_json (snd p))) (reviews a))) lenses = Ok (map (reported a) lenses).
Proof.
  intros Hc. induction 1 as [|lens lenses [o Ho] _ IH]; [done|]. cbn [res_mapM map].
  unfold counted in Hc. rewrite Forall_forall in Hc. rewrite (lens_integrity_run _ _ o Ho) by (apply (Hc (lens, o)), assoc_In, Ho).
  cbn [mbind res_bind]. rewrite IH. unfold reported, lens_valid. rewrite Ho.
  do 3 f_equal. by rewrite (bool_decide_ext (o = Clean) (Some o = Some Clean)) by naive_solver.
Qed.

Lemma intact_reported a lenses : intact (map (reported a) lenses) = forallb (lens_valid a) lenses.
Proof.
  induction lenses as [|lens lenses IH]; [done|]. unfold intact in *. cbn [map forallb snd reported]. rewrite IH.
  f_equal. by destruct (lens_valid a lens).
Qed.

Lemma assoc_is_Some {V} k (m : list (string * V)) : is_Some (assoc k m) <-> k ∈ map fst m.
Proof.
  rewrite <- has_key_spec. unfold has_key. destruct (assoc k m); naive_solver.
Qed.

Lemma missing_lenses a : minus REQUIRED_LENSES (map fst (map (fun p => (fst p, review_json (snd p))) (reviews a))) = [] <->
  Forall (fun lens => is_Some (assoc lens (reviews a))) REQUIRED_LENSES.
Proof.
  rewrite map_fst_map. unfold minus. rewrite filter_nil_iff, !Forall_forall. split; intros Hall lens Hin.
  - apply Hall in Hin. apply negb_false_iff, str_in_elem in Hin. by apply assoc_is_Some.
  - apply negb_false_iff, str_in_elem, assoc_is_Some. by apply Hall.
Qed.

Lemma a11y_recorded l : py_in (JStr "a11y") (JArr (map JStr l)) = Ok (str_in "a11y" l).
Proof.
  cbn [py_in]. f_equal. unfold str_in. induction l as [|s l IH]; [done|]. cbn [map existsb py_eq]. rewrite IH.
  f_equal. apply String.eqb_sym.
Qed.

Lemma gates_run a : counted a ->
  (releasable a /\ release_gates (state_of "" D a) = Ok (map (reported a) REQUIRED_LENSES)) \/
  (~ releasable a /\ exists x, release_gates (state_of "" D a) = Raise x).
Proof.
  intros Hc. unfold release_gates, releasable. cbn [field assoc state_of String.eqb Ascii.eqb Bool.eqb from_option_res mbind res_bind as_object as_obj].
  pose proof (missing_lenses a) as Hm. destruct (minus REQUIRED_LENSES _) as [|m ms]; cbn [raise_if mbind res_bind].
  - destruct Hm as [Hm _]. specialize (Hm eq_refl). rewrite a11y_recorded. cbn [mbind res_bind].
    destruct (str_in "a11y" (suites a)) eqn:Hs; cbn [negb raise_if mbind res_bind].
    + apply str_in_elem in Hs. destruct (previewed a); cbn [truthy negb raise_if mbind res_bind].
      * left. rewrite lenses_reported by done. done.
      * right. split; [by intros (_ & _ & ?)|eauto].
    + apply str_in_false in Hs. right. split; [by intros (_ & ? & _)|eauto].
  - right. split; [|eauto]. intros (Hall & _). by apply Hm in Hall.
Qed.

(** A release is refused and changes nothing, or its report is what the machine
    allows. *)
Lemma release_cases v t r tr a x r' : simulates r tr a -> all_text [v; t] -> release_report v t r = (x, r') ->
  (exists y, x = Raise y /\ r' = r /\
     ~ (v ∈ _RELEASE_VERDICTS /\ releasable a /\ (v = "PROCEED"%string -> integrity_of a = INTEGRITY_VALID))) \/
  exists report, x = Ok report /\ product_verdict report = v /\ verification_integrity report = integrity_of a /\
    allowed a (Released v (integrity_of a) (candidate a)) /\
    simulates r' (tr ++ [Released v (integrity_of a) (candidate a)]) (advance a (Released v (integrity_of a) (candidate a))).
Proof.
  unfold all_text. rewrite !Forall_cons. intros Hs (Hv & Ht & _). unfold release_report.
  destruct (str_in v _RELEASE_VERDICTS) eqn:Hin; cbn [negb].
  2: { intros [= <- <-]. left. eexists. split_and!; [done..|]. intros (Hv' & _). apply str_in_elem in Hv'. congruence. }
  apply str_in_elem in Hin. rewrite get_bind, (si_state _ _ _ _ Hs).
  change (release_gates (state_of (run_id r) D a)) with (release_gates (state_of "" D a)).
  destruct (gates_run a (lawful_counted _ _ (si_lawful _ _ _ _ Hs))) as [[Hrel ->]|[Hrel [y ->]]].
  2: { rewrite lift_Raise_bind. intros [= <- <-]. left. eexists. split_and!; [done..|]. by intros (_ & ? & _). }
  rewrite lift_Ok_bind, intact_reported. fold (integrity_of a).
  destruct (String.eqb v "PROCEED" && negb (String.eqb (integrity_of a) INTEGRITY_VALID)) eqn:Hp.
  { intros [= <- <-]. left. eexists. split_and!; [done..|]. intros (_ & _ & Himp). bool_simp. auto. }
  assert (Himp : v = "PROCEED"%string -> integrity_of a = INTEGRITY_VALID).
  { intros ->. cbn in Hp. apply negb_false_iff in Hp. by apply String.eqb_eq in Hp. }
  rewrite (bind_run _ _ _ _ _ (candidate_run D r tr a Hs)). set (f := Released v (integrity_of a) (candidate a)).
  assert (Hfact : fact_ok f).
  { repeat constructor; [done| |by eapply candidate_text]. unfold integrity_of. by destruct (forallb _ _). }
  assert (Ha : allowed a f) by done.
  destruct (emits flat_encodes D HD r tr a f t Hs Hfact Ht) as (l & El & Hatt). rewrite (bind_run _ _ _ _ _ El).
  rewrite (bind_run _ _ _ _ _ (set_item_run _ _ _)), (bind_run _ _ _ _ _ (set_item_run _ _ _)), (bind_run _ _ _ _ _ (save_run _)).
  intros [= <- <-]. right. eexists. split; [done|]. do 3 (split; [done|]).
  pose proof (commit D r tr a f l Hs Ha Hfact Hatt) as Hcm.
  change (_state (put_state ?s ?r)) with s. change (_state (put_ledger l r)) with (_state r). rewrite (si_state _ _ _ _ Hs).
  exact Hcm.
Qed.
End Operations.

(** * Runs of the full-stack machine *)

Section Runs.
Context `{Rfc8785} `{Unicode} `{Lower}.
Variable dir : string.

(** A new directory. *)
Definition fresh_files (f : run_files) : Prop := file_bytes (ledger f) = ""%string /\ journey_record f = None.

(** The runs of the directory: what a call returns or raises does not matter. *)
Inductive reachable : FullStackRun -> Prop :=
  | started path content agents_dir agent_files now f f' r :
      start path content dir agents_dir agent_files now f = (Ok r, f') ->
      fresh_files f -> is_text now = true -> is_text (run_id r) = true -> reachable r
  | called c x r r' : reachable r -> all_text (call_texts c) -> perform dir c r = (x, r') -> reachable r'
  | reloaded r r' : reachable r -> load dir (files r) = Ok r' -> reachable r'.

Hypothesis flat_encodes : forall m, flat m = true -> is_ok (rfc8785_dumps (JObj m)) = true.

Lemma contract_digest_text c D : digest c = Ok D -> is_text D = true.
Proof. unfold digest, canonical_digest. intros E. simp_res. subst. apply sha256_digest_text. Qed.

Lemma load_any_path path path' text c :
  load_fullstack_contract path (Ok text) = Ok c -> load_fullstack_contract path' (Ok text) = Ok c.
Proof.
  unfold load_fullstack_contract. cbn [mbind res_bind].
  destruct (t ← read_text text; json_loads default_hooks t) as [v|y]; cbn [try_except mbind res_bind].
  - unfold load_document. destruct v as [| | | | | |m]; try done.
    destruct (validate fullstack_schema (JObj m)) as [structural|]; cbn [mbind res_bind]; [|done].
    destruct (collect _ _) as [repeated|]; cbn [mbind res_bind]; [|done]. by destruct (structural ++ repeated).
  - by destruct (unreadable y).
Qed.

(** [start] locks the contract. *)
Lemma start_simulates path content agents_dir agent_files now f f' r :
  start path content dir agents_dir agent_files now f = (Ok r, f') ->
  fresh_files f -> is_text now = true -> is_text (run_id r) = true ->
  exists D, digest (contract r) = Ok D /\ simulates D r [Locked] locked.
Proof.
  unfold start. intros E [Hfile Hj] Hnow Hid. destruct (admitted_contract _ _ _ _ _ _) as [[c text]|y] eqn:Ea; [|done].
  assert (Hadmit : exists bytes, content = Ok bytes /\ read_text bytes = Ok text /\ load_fullstack_contract path content = Ok c).
  { unfold admitted_contract in Ea. simp_res. subst. eauto. }
  destruct Hadmit as (bytes & Ebytes & Ht & Hload).
  destruct (digest c) as [D|y] eqn:ED; [|done]. cbn [mbind res_bind] in E.
  pose proof (contract_digest_text _ _ ED) as HD.
  set (f1 := with_contract text _) in E. set (id := "fs-" +:+ lower (contract_id c)) in *.
  set (r0 := {| files := with_ledger {| run_dir := true; contents := contents (ledger f1); depth := 0 |} f1;
                contract := c; _state := initial_state c D; run_id := id; _snapshots := [] |}).
  assert (Hnew : new_run c (initial_state c D) f1 = Ok r0) by done. rewrite Hnew in E.
  assert (Hlock : exists l, lock_contract now r0 = (Ok tt, saved (put_ledger l r0)) /\
            (is_text id = true -> attests id D l [Locked])).
  { destruct (is_text id) eqn:Hid'.
    - destruct (ledger_run flat_encodes D HD r0 [] Locked now) as (l & El & Hl); [done|constructor| |by constructor|done|].
      + split; [done|]. exists []. split; [|constructor]. split; [done|]. exact Hfile.
      + exists l. split; [|done]. unfold lock_contract.
        assert (Hd : contract_digest r0 = (Ok D, r0)) by by apply text_item_run.
        by rewrite (bind_run _ _ _ _ _ Hd), (bind_run _ _ _ _ _ El), save_run.
    - exfalso. unfold keep in E. destruct (lock_contract now r0) as [[[]|y] r1] eqn:El; [|done].
      injection E as <- <-. unfold lock_contract in El.
      assert (Hd : contract_digest r0 = (Ok D, r0)) by by apply text_item_run.
      rewrite (bind_run _ _ _ _ _ Hd) in El. open_ok El. unfold ledger_record in E.
      match type of E with context [let (_, _) := ?t in _] => destruct t as [m l] end.
      injection E as _ <-. injection El as <-. change (is_text id = true) in Hid. congruence. }
  destruct Hlock as (l & El & Hl). unfold keep in E. rewrite El in E. injection E as <- <-. exists D. split; [done|].
  constructor; try done.
  - constructor; [done|done|]. exists text. split; [done|]. pose proof (read_text_again _ _ Ht) as Hagain.
    split; [done|]. intros path'. apply (load_any_path path). subst content.
    unfold load_fullstack_contract in *. cbn [mbind res_bind] in *. rewrite Ht in Hload. by rewrite Hagain.
  - constructor.
  - by repeat constructor.
  - by apply Hl.
  - intros [j Ej]. change (journey_record f = Some j) in Ej. by rewrite Hj in Ej.
Qed.

(** ** The state file is read back *)

Lemma texts_readable l : all_text l -> forallb readable (map JStr l) = true.
Proof. unfold all_text. induction 1 as [|s l Hs _ IH]; [done|]. cbn [map forallb readable]. by rewrite Hs, IH. Qed.

Lemma review_readable o : is_text (outcome_reason o) = true -> readable (review_json o) = true.
Proof. destruct o as [| |reason]; try done. cbn [outcome_reason]. intros Hr. cbn. by rewrite Hr. Qed.

Lemma reviews_readable l : Forall review_ok l -> NoDup (map fst l) ->
  readable (JObj (map (fun p => (fst p, review_json (snd p))) l)) = true.
Proof.
  intros Hl Hn. apply readable_members; [by rewrite map_fst_map|]. apply List.Forall_map. eapply Forall_impl; [exact Hl|].
  intros [lens o] [Hk Ho]. cbn [fst snd] in *. split; [done|by apply review_readable].
Qed.

Lemma state_readable run D a : is_text run = true -> is_text D = true -> status_ok a -> readable (JObj (state_of run D a)) = true.
Proof.
  intros Hr HD [Hc Hs Hv Hl Hw Hi]. apply readable_members; [cbn; decide_now|].
  unfold state_of. rewrite !Forall_cons. split_and!; try (cbn [fst snd readable]; done).
  - cbn [fst snd readable]. by apply texts_readable.
  - by apply reviews_readable.
Qed.

Lemma load_simulates D r tr a : is_text D = true -> simulates D r tr a ->
  load dir (files r) = Ok (put_snapshots [] r).
Proof.
  intros HD Hs. pose proof Hs as [[Hid Hdig (text & Hcf & Htext & Hload)] Hl Hok Hled Hst Hsaved _ _].
  unfold load. rewrite Hsaved, Hst.
  pose proof (state_readable (run_id r) D a Hid HD (lawful_ok _ _ Hl Hok)) as Hr.
  apply (read_back_document false), bind_Ok in Hr as (t & Ht & Hread).
  change (dumps_indented false 0 (JObj (state_of (run_id r) D a)) +:+ eol) with (state_document (state_of (run_id r) D a)) in Ht.
  rewrite Ht. cbn [mbind res_bind]. rewrite Hread. cbn [mbind res_bind]. rewrite Hcf. cbn [from_option_res]. rewrite Hload. cbn [mbind res_bind]. rewrite Hdig.
  cbn [mbind res_bind read_order as_object as_obj from_option_res].
  assert (Hlock : field "contract_digest" (state_of (run_id r) D a) = Ok (JStr D)) by done. rewrite Hlock.
  cbn [mbind res_bind py_eq]. rewrite String.eqb_refl. cbn [negb raise_if mbind res_bind].
  assert (Hnew : new_run (contract r) (state_of (run_id r) D a) (files r)
    = Ok {| files := with_ledger {| run_dir := true; contents := contents (ledger (files r)); depth := 0 |} (files r);
            contract := contract r; _state := state_of (run_id r) D a; run_id := run_id r; _snapshots := [] |}) by done.
  rewrite Hnew. unfold put_snapshots. rewrite Hst. do 2 f_equal.
  destruct Hled as [Hdep (es & [Hd _] & _)]. destruct (files r) as [l cf sf jr cs cm]. unfold with_ledger.
  cbn [ledger contract_file state_file journey_record candidates candidate_manifest contents] in *.
  destruct l as [d c n]; cbn in Hdep, Hd |- *. by subst.
Qed.

(** ** Every run simulates the machine *)

Lemma perform_goes_on D c r tr a x r' : is_text D = true -> simulates D r tr a -> all_text (call_texts c) ->
  perform dir c r = (x, r') -> goes_on D c x tr r'.
Proof.
  intros HD Hs Ht E.
  destruct c; cbn [call_texts perform] in *.
  - apply Forall_cons in Ht as [Ht _]. by eapply journey_on.
  - by eapply architecture_on.
  - by eapply plan_on.
  - by eapply routing_on.
  - by eapply implementation_on.
  - apply Forall_cons in Ht as [Ht _]. by eapply api_on.
  - apply Forall_cons in Ht as [Ht _]. unfold ignoring in E.
    open_bind E; eapply (freeze_cases flat_encodes D HD) in E0 as [(y & [=] & ->)|(c & [=] & _ & Hc)]; eauto using goes_on_same.
    injection E as <- <-. eapply goes_on_by; [right; by eexists|exact Hc].
  - by eapply browser_on.
  - by eapply preview_on.
  - by eapply begin_on.
  - by eapply end_on.
  - by eapply infrastructure_on.
  - unfold ignoring in E.
    open_bind E; eapply (release_cases flat_encodes D HD) in E0 as [(y & [=] & -> & _)|(c & [=] & _ & _ & _ & Hc)];
      eauto using goes_on_same. injection E as <- <-. eapply goes_on_by; [right; by eexists _, _|exact Hc].
Qed.

Lemma reachable_simulates r : reachable r ->
  exists D tr a, digest (contract r) = Ok D /\ is_text D = true /\ simulates D r tr a.
Proof.
  induction 1 as [path content agents_dir agent_files now f f' r E Hf Hn Hid|c x r r' _ (D & tr & a & HD & Htext & Hs) Ht E
    |r r' _ (D & tr & a & HD & Htext & Hs) E].
  - destruct (start_simulates _ _ _ _ _ _ _ _ E Hf Hn Hid) as (D & HD & Hs). exists D, [Locked], locked.
    split; [done|]. split; [by eapply contract_digest_text|done].
  - eapply perform_goes_on in E as (fs & a' & _ & Hs'); [|done..]. exists D, (tr ++ fs), a'.
    split; [apply (lk_digest D r' (si_locks _ _ _ _ Hs'))|done].
  - rewrite (load_simulates D r tr a Htext Hs) in E. injection E as <-. exists D, tr, a.
    split; [done|]. split; [done|]. apply with_snapshots; [done|constructor].
Qed.
End Runs.
