(* ===== verification/FullstackAudit.v ===== *)
(** * Lawful sequences of facts

    What the state of the machine says about the facts before it.

    ** The trajectory rules on the ledger of a full-stack run

    What the eight rules see of the events that [record] wrote, and that they are
    silent on the ledger of a regular run. *)
From Stdlib Require Import Ascii String.
From S2P Require Import Prelude Sha256 Json JsonText Canonical JsonFacts JsonAscii PyStr PyConv TextFacts.
From S2P Require Import EngineeringLedger EngineeringLedgerFacts EngineeringLedgerTheorems Trajectory TrajectoryFacts.
From S2P Require Import FullstackContract FullstackGates Fullstack TrajectoryFullstack FullstackSpec FullstackRefine.
From S2P Require Import FullstackRuns.

(** ** Positions *)

Lemma lawful_locked tr a : lawful tr a -> exists tr', tr = Locked :: tr'.
Proof. induction 1 as [|tr a f _ [tr' ->] _]; [by exists []|by eexists]. Qed.

(** Every fact but the first was allowed by what came before it. *)
Lemma lawful_at tr a i f : lawful tr a -> tr !! i = Some f -> i = 0%nat /\ f = Locked \/
  exists b, lawful (take i tr) b /\ allowed b f.
Proof.
  induction 1 as [|tr a g Hl IH Ha]; intros Hi.
  - destruct i as [|i]; [by injection Hi as <-; left|by destruct i].
  - apply lookup_snoc_Some in Hi as [[Hlt Hi]|[-> <-]].
    + rewrite take_app_le by lia. by apply IH.
    + right. exists a. by rewrite take_app_length.
Qed.

(** [P] of the state comes from a fact that satisfies [Q]. *)
Lemma lawful_source (P : status -> Prop) (Q : fact -> Prop) tr a :
  (forall b f, allowed b f -> P (advance b f) -> P b \/ Q f) -> ~ P locked -> lawful tr a -> P a -> exists f, f ∈ tr /\ Q f.
Proof.
  intros Hstep H0. induction 1 as [|tr a f Hl IH Ha]; [done|]. intros [Hp|Hq]%Hstep; [|eauto with set_solver|done].
  - destruct (IH Hp) as (g & Hg & Hq). exists g. split; [|done]. apply elem_of_app. by left.
  - exists f. split; [|done]. apply elem_of_app. right. by left.
Qed.

Ltac by_fact f := destruct f as [| | | | | |[]| | | | |? []|]; cbn [allowed advance] in *; auto.

Lemma validated_source tr a : lawful tr a -> validated a = true -> JourneyValidated ∈ tr.
Proof.
  intros Hl Hv. destruct (lawful_source (fun a => validated a = true) (fun f => f = JourneyValidated) tr a) as (f & Hf & ->); try done.
  intros b f _. by_fact f.
Qed.
Lemma current_source tr a : lawful tr a -> api_current a = true -> ApiVerified true ∈ tr.
Proof.
  intros Hl Hv. destruct (lawful_source (fun a => api_current a = true) (fun f => f = ApiVerified true) tr a) as (f & Hf & ->); try done.
  intros b f _. by_fact f.
Qed.
Lemma candidate_source tr a d : lawful tr a -> candidate a = d -> d <> ""%string -> Frozen d ∈ tr.
Proof.
  intros Hl Hc Hd. destruct (lawful_source (fun a => candidate a = d) (fun f => f = Frozen d) tr a) as (f & Hf & ->); try done.
  intros b f _ Hb. by_fact f. cbn in Hb. subst. by right.
Qed.
Lemma a11y_source tr a : lawful tr a -> "a11y"%string ∈ suites a -> exists s d, BrowserVerified s d ∈ tr /\ "a11y"%string ∈ s.
Proof.
  intros Hl Hs. destruct (lawful_source (fun a => "a11y"%string ∈ suites a)
    (fun f => match f with BrowserVerified s _ => "a11y"%string ∈ s | _ => False end) tr a) as (f & Hf & Hq); try done.
  - intros b f _ Hb. by_fact f. cbn in Hb. by apply elem_of_sorted_set, elem_of_app in Hb.
  - cbn. by intros ?%elem_of_nil.
  - destruct f; try done. eauto.
Qed.
Lemma preview_source tr a : lawful tr a -> previewed a = true -> exists k s d, Previewed k s d ∈ tr.
Proof.
  intros Hl Hs. destruct (lawful_source (fun a => previewed a = true)
    (fun f => match f with Previewed _ _ _ => True | _ => False end) tr a) as (f & Hf & Hq); try done.
  - intros b f _ Hb. by_fact f.
  - destruct f; try done. eauto.
Qed.
Lemma submitted_source tr a lens : lawful tr a -> lens ∈ submitted a -> exists d, ReviewSubmitted lens d ∈ tr /\ d <> ""%string.
Proof.
  intros Hl Hs. destruct (lawful_source (fun a => lens ∈ submitted a)
    (fun f => match f with ReviewSubmitted l d => l = lens /\ d <> ""%string | _ => False end) tr a) as (f & Hf & Hq); try done.
  - intros b f Ha Hb. by_fact f. cbn in Hb. apply elem_of_cons in Hb as [->|Hb]; [right|by left].
    by destruct Ha as (_ & _ & ?).
  - cbn. by intros ?%elem_of_nil.
  - destruct f; try done. destruct Hq as [-> Hd]. eauto.
Qed.
Lemma clean_source tr a lens : lawful tr a -> assoc lens (reviews a) = Some Clean -> Checked lens Clean ∈ tr.
Proof.
  intros Hl Hs. destruct (lawful_source (fun a => assoc lens (reviews a) = Some Clean) (fun f => f = Checked lens Clean) tr a)
    as (f & Hf & ->); try done.
  intros b f _ Hb. by_fact f; cbn [set_outcome reviews] in Hb; destruct (decide (lens = lens0)) as [->|Hne].
  all: rewrite ?assoc_set_eq, ?assoc_set_ne in Hb by done; auto. discriminate.
Qed.

(** ** The lenses of a state *)

Lemma reviews_submitted tr a lens o : lawful tr a -> assoc lens (reviews a) = Some o -> lens ∈ submitted a.
Proof.
  intros Hl. revert o. induction Hl as [|tr a f Hl IH Ha]; intros o Ho; [done|].
  by_fact f; cbn [add_submitted set_outcome submitted reviews] in *; eauto.
  - right. eauto.
  - destruct (decide (lens = lens0)) as [->|Hne]; [done|]. rewrite assoc_set_ne in Ho by done. eauto.
  - destruct (decide (lens = lens0)) as [->|Hne]; [done|]. rewrite assoc_set_ne in Ho by done. eauto.
Qed.

Lemma submitted_roster tr a lens : lawful tr a -> lens ∈ submitted a -> lens ∈ REQUIRED_LENSES.
Proof.
  induction 1 as [|tr a f Hl IH Ha]; [by intros ?%elem_of_nil|]. intros Hs.
  by_fact f. cbn in Hs. apply elem_of_cons in Hs as [->|Hs]; [by destruct Ha|auto].
Qed.

(** ** What a release rests on *)

Record release_evidence (tr : list fact) (conclusion proofs subject : string) : Prop := {
  re_validated : JourneyValidated ∈ tr;
  re_current : ApiVerified true ∈ tr;
  re_frozen : Frozen subject ∈ tr;
  re_a11y : exists s d, BrowserVerified s d ∈ tr /\ "a11y"%string ∈ s;
  re_preview : exists k s d, Previewed k s d ∈ tr;
  re_reviews : forall lens, lens ∈ REQUIRED_LENSES -> exists d, ReviewSubmitted lens d ∈ tr;
  re_clean : conclusion = "PROCEED"%string -> forall lens, lens ∈ REQUIRED_LENSES -> Checked lens Clean ∈ tr
}.

Lemma take_elem (tr : list fact) i f : f ∈ take i tr -> f ∈ tr.
Proof. intros [j Hj]%list_elem_of_lookup_1. apply lookup_take_Some in Hj as [Hj _]. by eapply list_elem_of_lookup_2. Qed.

Lemma frozen_gates tr a d : lawful tr a -> Frozen d ∈ tr -> JourneyValidated ∈ tr /\ ApiVerified true ∈ tr.
Proof.
  intros Hl [i Hi]%list_elem_of_lookup_1. destruct (lawful_at _ _ _ _ Hl Hi) as [[_ [=]]|(b & Hb & Hv & Hc & _)].
  apply (validated_source _ _ Hb) in Hv. apply (current_source _ _ Hb) in Hc.
  split; by eapply take_elem.
Qed.

Lemma freeze_names_candidate tr a d : lawful tr a -> Frozen d ∈ tr -> candidate a <> ""%string.
Proof.
  induction 1 as [|tr a f Hl IH Ha]; [set_solver|]. intros [Hf|Hf]%elem_of_app.
  - apply IH in Hf. by_fact f. by destruct Ha as (_ & _ & ?).
  - apply list_elem_of_singleton in Hf as <-. by destruct Ha as (_ & _ & ?).
Qed.

Lemma reviewed_candidate tr a lens d : lawful tr a -> ReviewSubmitted lens d ∈ tr -> candidate a <> ""%string.
Proof.
  intros Hl [i Hi]%list_elem_of_lookup_1. destruct (lawful_at _ _ _ _ Hl Hi) as [[_ [=]]|(b & Hb & _ & Hc & Hd)].
  symmetry in Hc. apply (candidate_source _ _ _ Hb) in Hc; [|done]. apply take_elem in Hc. by eapply freeze_names_candidate.
Qed.

Lemma release_rests tr a v p d : lawful tr a -> allowed a (Released v p d) -> release_evidence tr v p d.
Proof.
  intros Hl (Hin & (Hall & Ha & Hp) & Hpr & Himp & Hd). rewrite Forall_forall in Hall.
  assert (Hsub : forall lens, lens ∈ REQUIRED_LENSES -> exists d, ReviewSubmitted lens d ∈ tr /\ d <> ""%string).
  { intros lens [o Ho]%Hall. apply (submitted_source _ a); [done|]. by eapply reviews_submitted. }
  assert (Hne : candidate a <> ""%string).
  { destruct (Hsub "v3-ux-journey-reviewer"%string) as (d' & Hin' & Hd'); [left|]. by eapply (reviewed_candidate tr). }
  assert (Hf : Frozen d ∈ tr) by (apply (candidate_source _ a); congruence).
  destruct (frozen_gates _ _ _ Hl Hf) as [Hj Hc]. constructor; try done.
  - by eapply a11y_source.
  - by eapply preview_source.
  - intros lens Hlens. destruct (Hsub lens Hlens) as (d' & ? & _). eauto.
  - intros Hv lens Hlens. apply (clean_source _ a); [done|]. subst p. apply Himp in Hv. unfold integrity_of in Hv.
    destruct (forallb (lens_valid a) REQUIRED_LENSES) eqn:E; [|done]. rewrite forallb_true in E.
    apply E in Hlens. unfold lens_valid in Hlens. by apply bool_decide_eq_true in Hlens.
Qed.

(** * The trajectory rules on the ledger of a full-stack run *)

(** ** The members of a stored event *)

Definition stored_members (e : list (string * json)) : list (string * json) :=
  sorted_items (map (fun p => (fst p, sort_json (snd p))) e).

Section Audit.
Context `{Unicode}.
Variables (id D : string).

(** What an event shows of its fact. *)
Record sees (f : fact) (m : event) : Prop := {
  se_stage : assoc "stage" m = Some (JStr (stage (entry_of D f)));
  se_agent : assoc "agent" m = Some (JStr (agent (entry_of D f)));
  se_action : assoc "action" m = Some (JStr (action (entry_of D f)));
  se_verdict : assoc "verdict" m = Some (JStr (EngineeringLedger.verdict (entry_of D f)));
  se_detail : assoc "detail" m = Some (JStr (detail (entry_of D f)));
  se_inputs : assoc "input_digests" m = Some (JObj (input_digests (entry_of D f)));
  se_outputs : assoc "output_digests" m = Some (JObj (output_digests (entry_of D f)))
}.

Lemma event_sees f e : event_for id D f e -> sees f (stored_members e).
Proof.
  intros (h & t & -> & _). unfold stored_members.
  assert (Hn : NoDup (map fst (identity_payload id (entry_of D f) ++ [("event_id", JStr h); ("ts", JStr t)]%string)))
    by (destruct f; cbn; decide_now).
  constructor.
  1-5: (erewrite assoc_sorted by (done || reflexivity)); reflexivity.
  all: (erewrite assoc_sorted by (done || reflexivity)); by destruct f.
Qed.

Section Fact.
Variables (f : fact) (m : event).
Hypothesis Hm : sees f m.

Abbreviation e := (entry_of D f).

Lemma sees_text k v : assoc k m = Some (JStr v) -> text k m = v.
Proof. intros E. unfold text, jget. by rewrite E. Qed.
Lemma sees_field k v s : assoc k m = Some (JStr v) -> field_is k s m = String.eqb v s.
Proof. intros E. unfold field_is, jget. by rewrite E. Qed.

Lemma at_stage_sees s : at_stage s m = String.eqb (stage e) s.
Proof. apply sees_field, Hm. Qed.
Lemma detail_sees : detail_of m = detail e.
Proof. unfold detail_of. by rewrite (se_detail _ _ Hm). Qed.
Lemma agent_sees : text "agent" m = agent e.
Proof. apply sees_text, Hm. Qed.
Lemma verdict_sees : text "verdict" m = EngineeringLedger.verdict e.
Proof. apply sees_text, Hm. Qed.
Lemma v3_sees : is_v3 m = startswith (agent e) "v3-".
Proof. unfold is_v3, text_or_empty. by rewrite (se_agent _ _ Hm). Qed.
Lemma sees_digest side key o : assoc side m = Some (JObj o) -> digest_at m side key = Ok (jget key o).
Proof.
  intros E. assert (Hj : jget side m = JObj o) by (unfold jget; by rewrite E). unfold digest_at, digests_of. by rewrite Hj.
Qed.
Lemma input_sees key : digest_at m "input_digests" key = Ok (jget key (input_digests e)).
Proof. apply sees_digest, Hm. Qed.
Lemma output_sees key : digest_at m "output_digests" key = Ok (jget key (output_digests e)).
Proof. apply sees_digest, Hm. Qed.
Lemma acts_sees s a : acts s a m = String.eqb (stage e) s && String.eqb (action e) a.
Proof. unfold acts. rewrite at_stage_sees. f_equal. apply sees_field, Hm. Qed.
Lemma check_sees : readonly_check m = String.eqb (action e) "readonly_check".
Proof. apply sees_field, Hm. Qed.
End Fact.

(** ** The fields of details *)

(** Names of suites, and descriptions of tasks, that do not look like fields. *)
Definition simple_char (c : ascii) : bool := is_alnum c || Ascii.eqb c "-" || Ascii.eqb c "_" || Ascii.eqb c ".".
Definition simple (s : string) : bool := string_forallb simple_char s.
Definition unlike (sep : ascii) (s : string) : bool := string_forallb (fun c => negb (Ascii.eqb c sep)) s.

Definition plain (f : fact) : Prop :=
  match f with
  | Implemented _ action task _ => unlike ";" task = true /\ action <> "readonly_check"%string
  | BrowserVerified s _ => Forall (fun x => simple x = true) s
  | _ => True
  end.

Lemma split_on_app sep a b : unlike sep a = true -> split_on sep (a +:+ String sep b) = a :: split_on sep b.
Proof.
  unfold unlike. induction a as [|c a IH]; cbn [string_forallb String.append split_on].
  - by rewrite Ascii.eqb_refl.
  - intros [Hc Ha]%andb_prop. apply negb_true_iff in Hc. by rewrite Hc, IH.
Qed.
Lemma split_on_none sep a : unlike sep a = true -> split_on sep a = [a].
Proof.
  unfold unlike. induction a as [|c a IH]; cbn [string_forallb split_on]; [done|].
  intros [Hc Ha]%andb_prop. apply negb_true_iff in Hc. by rewrite Hc, IH.
Qed.

Lemma simple_unlike s : simple s = true -> unlike ";" s = true /\ unlike "," s = true.
Proof.
  unfold simple, unlike. induction s as [|c s IH]; [done|]. cbn [string_forallb]. intros [Hc [IH1 IH2]%IH]%andb_prop.
  rewrite IH1, IH2. by destruct c as [[] [] [] [] [] [] [] []].
Qed.

(** A text of simple characters and commas. *)
Definition listed (s : string) : bool := string_forallb (fun c => simple_char c || Ascii.eqb c ",") s.
Lemma simple_listed s : simple s = true -> listed s = true.
Proof.
  unfold simple, listed. induction s as [|c s IH]; [done|]. cbn [string_forallb]. intros [Hc Hs]%andb_prop.
  by rewrite Hc, IH.
Qed.
Lemma join_listed l : Forall (fun x => simple x = true) l -> listed (join "," l) = true.
Proof.
  unfold join. induction 1 as [|s l Hs Hl IH]; [done|]. cbn [String.concat]. destruct l; [by apply simple_listed|].
  unfold listed in *. rewrite !string_forallb_app. rewrite IH. fold (listed s). by rewrite simple_listed.
Qed.
Lemma listed_unlike s : listed s = true -> unlike ";" s = true.
Proof.
  unfold listed, unlike. induction s as [|c s IH]; [done|]. cbn [string_forallb]. intros [Hc Hs]%andb_prop.
  rewrite IH by done. by destruct c as [[] [] [] [] [] [] [] []].
Qed.

Lemma listed_char c : simple_char c || Ascii.eqb c "," = true -> ascii_char c = true /\ is_space (byte_n c) = false.
Proof. by destruct c as [[] [] [] [] [] [] [] []]. Qed.
Lemma listed_bytes s : listed s = true -> string_forallb ascii_char s = true /\ Forall (fun cp => is_space cp = false) (bytes s).
Proof.
  unfold listed, bytes. induction s as [|c s IH]; [by split|]. cbn [string_forallb list_ascii_of_string map].
  intros [[Hc Hsp]%listed_char [IH1 IH2]%IH]%andb_prop. rewrite Hc, IH1. split; [done|by constructor].
Qed.
Lemma no_spaces l : Forall (fun cp => is_space cp = false) l -> drop_spaces l = l.
Proof. intros Hl. destruct Hl as [|x l Hx _]; [done|]. cbn [drop_spaces]. by rewrite Hx. Qed.
Lemma strip_listed s : listed s = true -> strip s = s.
Proof.
  intros [Ha Hs]%listed_bytes. unfold strip. rewrite ascii_ords by done. rewrite (no_spaces (bytes s)) by done.
  rewrite no_spaces, rev_involutive by (apply List.Forall_rev, Hs). by apply ascii_encode.
Qed.

Lemma split_join l : Forall (fun x => simple x = true) l -> l <> [] -> split_on "," (join "," l) = l.
Proof.
  unfold join. induction 1 as [|s l Hs Hl IH]; [done|]. intros _. cbn [String.concat]. destruct l as [|s' l].
  - by apply split_on_none, simple_unlike.
  - change ("," +:+ String.concat "," (s' :: l)) with (String "," (String.concat "," (s' :: l))).
    rewrite split_on_app by by apply simple_unlike. f_equal. by apply IH.
Qed.

Lemma detail_field_sees f m k : sees f m ->
  _detail_field m k = snd <$> List.find (fun p => String.eqb (fst p) k) (map name_value (split_on ";" (detail (entry_of D f)))).
Proof. intros Hm. unfold _detail_field. by rewrite (detail_sees f m Hm). Qed.

Lemma surface_field ag ac task surface m :
  sees (Implemented ag ac task surface) m -> unlike ";" task = true -> surface ∈ ["frontend"; "backend"]%string ->
  _detail_field m "surface" = Some surface.
Proof.
  intros Hm Ht Hs. rewrite (detail_field_sees _ _ _ Hm). cbn [entry_of detail entry].
  change ("task=" +:+ task +:+ ";surface=" +:+ surface) with (("task=" +:+ task) +:+ String ";" ("surface=" +:+ surface)).
  rewrite split_on_app by exact Ht. rewrite !elem_of_cons, elem_of_nil in Hs. by destruct Hs as [->|[->|[]]].
Qed.

Lemma browser_fields s d m : sees (BrowserVerified s d) m -> Forall (fun x => simple x = true) s ->
  _detail_field m "mocked" = Some "false"%string /\ suites_field m = join "," s.
Proof.
  intros Hm Hs. unfold suites_field. rewrite !(detail_field_sees _ _ _ Hm). cbn [entry_of detail entry].
  pose proof (join_listed _ Hs) as Hj.
  change ("suites=" +:+ join "," s +:+ ";mocked=false") with (("suites=" +:+ join "," s) +:+ String ";" "mocked=false").
  rewrite split_on_app by (exact (listed_unlike _ Hj)).
  assert (Hv : name_value ("suites=" +:+ join "," s) = ("suites"%string, strip (join "," s))) by done.
  cbn [map]. rewrite Hv. rewrite strip_listed by done. done.
Qed.

Lemma kind_field k s d m : sees (Previewed k s d) m -> k ∈ ALLOWED_PREVIEW_KINDS -> _detail_field m "kind" = Some k.
Proof.
  intros Hm Hk. rewrite (detail_field_sees _ _ _ Hm). unfold ALLOWED_PREVIEW_KINDS in Hk.
  rewrite !elem_of_cons, elem_of_nil in Hk. by destruct Hk as [->|[->|[]]].
Qed.

(** ** A regular run *)

(** One freeze, one report, at the end; no drift, no modification, plain texts. *)
Record regular (tr : list fact) : Prop := {
  rg_plain : Forall plain tr;
  rg_current : ApiVerified false ∉ tr;
  rg_unmodified : forall lens, Checked lens Modified ∉ tr;
  rg_frozen : forall i j d d', tr !! i = Some (Frozen d) -> tr !! j = Some (Frozen d') -> i = j;
  rg_report : forall i v p d, tr !! i = Some (Released v p d) -> S i = List.length tr
}.

Section Rules.
Variables (tr : list fact) (a : status) (evs : list event) (v p d : string).
Hypothesis Hlawful : lawful tr a.
Hypothesis Hallowed : allowed a (Released v p d).
Hypothesis Hregular : regular (tr ++ [Released v p d]).
Hypothesis Hevs : Forall2 sees (tr ++ [Released v p d]) evs.

Abbreviation facts := (tr ++ [Released v p d]).

Lemma fact_of i m : evs !! i = Some m -> exists f, facts !! i = Some f /\ sees f m.
Proof. intros Hi. destruct (Forall2_lookup_r _ _ _ _ _ Hevs Hi) as (f & ? & ?). eauto. Qed.
Lemma event_of i f : facts !! i = Some f -> exists m, evs !! i = Some m /\ sees f m.
Proof. intros Hi. destruct (Forall2_lookup_l _ _ _ _ _ Hevs Hi) as (m & ? & ?). eauto. Qed.
Lemma elem_event f : f ∈ facts -> exists i m, facts !! i = Some f /\ evs !! i = Some m /\ sees f m.
Proof. intros [i Hi]%list_elem_of_lookup_1. destruct (event_of _ _ Hi) as (m & ? & ?). eauto. Qed.
Lemma elem_fact m : m ∈ evs -> exists f, f ∈ facts /\ sees f m.
Proof. intros [i Hi]%list_elem_of_lookup_1. destruct (fact_of _ _ Hi) as (f & Hf%list_elem_of_lookup_2 & ?). eauto. Qed.

Lemma facts_lawful : lawful facts (advance a (Released v p d)).
Proof. by constructor. Qed.
Lemma facts_plain f : f ∈ facts -> plain f.
Proof. pose proof (rg_plain _ Hregular) as Hp. rewrite Forall_forall in Hp. apply Hp. Qed.

(** What was allowed at a position, by the facts before it. *)
Lemma allowed_at i f : facts !! i = Some f -> f <> Locked -> exists b, lawful (take i facts) b /\ allowed b f.
Proof. intros Hi Hne. by destruct (lawful_at _ _ _ _ facts_lawful Hi) as [[_ ->]|?]. Qed.
Lemma before_event i f : f ∈ take i facts -> exists j m, (j < i)%nat /\ facts !! j = Some f /\ evs !! j = Some m /\ sees f m.
Proof.
  intros [j Hj]%list_elem_of_lookup_1. apply lookup_take_Some in Hj as [Hj Hlt].
  destruct (event_of _ _ Hj) as (m & ? & ?). eauto 10.
Qed.

(** The first event of a stage. *)
Lemma first_stage s i m : evs !! i = Some m -> at_stage s m = true ->
  exists k x, _first_index evs s = Some k /\ (k <= i)%nat /\ evs !! k = Some x /\ at_stage s x = true.
Proof.
  intros Hi Hs. pose proof (first_index_spec evs s) as Hf. destruct (_first_index evs s) as [k|].
  - destruct Hf as (x & Hx & Hst & Hlt). exists k, x. split_and!; try done.
    destruct (decide (k <= i)%nat) as [|Hn]; [done|]. rewrite (Hlt i m) in Hs by (done || lia). done.
  - by rewrite (Hf i m) in Hs.
Qed.

(** A frontend implementation follows the validated journey. *)
Lemma frontend_after_journey i f m : facts !! i = Some f -> sees f m -> implements_frontend m = true ->
  JourneyValidated ∈ take i facts.
Proof.
  intros Hi Hm. pose proof (facts_plain f ltac:(by eapply list_elem_of_lookup_2)) as Hp.
  unfold implements_frontend. rewrite (at_stage_sees f m Hm).
  destruct f as [| |? ?|? ?|? ?|ag ac task surface|?|?|? ?|? ? ?|? ?|? ?|? ? ?]; try done. cbn [entry_of stage entry].
  destruct Hp as [Ht _]. destruct (allowed_at _ _ Hi) as (b & Hb & Hin & Hv); [done|].
  rewrite (surface_field _ _ _ _ _ Hm Ht Hin). intros [_ Hs%bool_decide_eq_true]%andb_prop. injection Hs as ->.
  apply (validated_source _ b); auto.
Qed.

Lemma rule_01 : fs_01 evs = [].
Proof.
  unfold fs_01. pose proof (index_from_spec implements_frontend 0 evs) as Hi.
  destruct (index_from implements_frontend 0 evs) as [k|]; [|done]. destruct Hi as (i & m & -> & Hm & Himp & _). cbn [Nat.add].
  destruct (fact_of _ _ Hm) as (f & Hf & Hs).
  destruct (before_event _ _ (frontend_after_journey _ _ _ Hf Hs Himp)) as (j & mj & Hlt & _ & Hej & Hsj).
  destruct (first_stage "journey_validation" j mj Hej) as (k & x & -> & Hk & _); [by rewrite (at_stage_sees _ _ Hsj)|].
  destruct (event_at _ _); [|done]. destruct (Nat.ltb_spec i k); [lia|done].
Qed.

Lemma nth_error_of_lookup {A} (l : list A) i x : l !! i = Some x -> nth_error l i = Some x.
Proof. revert i. induction l as [|y l IH]; intros [|i]; try done. apply IH. Qed.

(** The event of a first stage, and its fact. *)
Lemma stage_event s m : event_at (_first_index evs s) evs = Some m ->
  exists i f, evs !! i = Some m /\ facts !! i = Some f /\ sees f m /\ stage (entry_of D f) = s.
Proof.
  pose proof (first_index_spec evs s) as Hf. destruct (_first_index evs s) as [k|]; [|done].
  destruct Hf as (x & Hx & Hs & _). unfold event_at. cbn [mbind option_bind].
  rewrite (nth_error_of_lookup _ _ _ Hx). intros [= <-].
  destruct (fact_of _ _ Hx) as (f & Hfk & Hsees). exists k, f. split_and!; try done.
  rewrite (at_stage_sees _ _ Hsees) in Hs. by apply String.eqb_eq in Hs.
Qed.

Lemma rule_02 : fs_02 evs = Ok [].
Proof.
  unfold fs_02. destruct (event_at (_first_index evs "journey_validation") evs) as [mj|] eqn:Ej; [|done].
  destruct (event_at (_first_index evs "contract_lock") evs) as [ml|] eqn:El; [|done].
  apply stage_event in Ej as (i & f & _ & _ & Hj & Ef). apply stage_event in El as (k & g & _ & _ & Hg & Eg).
  destruct f; try done. destruct g; try done. rewrite (output_sees _ _ Hg), (input_sees _ _ Hj).
  cbn. by rewrite String.eqb_refl.
Qed.

Lemma browser_fact m : m ∈ browser_events evs -> exists s c, BrowserVerified s c ∈ facts /\ sees (BrowserVerified s c) m.
Proof.
  intros Hm. apply list_elem_of_In, filter_In in Hm as [Hm Hs]. apply list_elem_of_In, elem_fact in Hm as (f & Hf & Hsees).
  rewrite (at_stage_sees _ _ Hsees) in Hs. destruct f; try done. eauto.
Qed.

Lemma a11y_before : exists i m, (i < List.length tr)%nat /\ evs !! i = Some m /\ a11y_event m = true.
Proof.
  destruct (release_rests _ _ _ _ _ Hlawful Hallowed) as [_ _ _ (s & c & Hs & Ha) _ _ _].
  apply list_elem_of_lookup_1 in Hs as [i Hi].
  assert (Hf : facts !! i = Some (BrowserVerified s c)) by by apply lookup_app_l_Some.
  destruct (event_of _ _ Hf) as (m & Hm & Hsees). exists i, m. split; [by eapply lookup_lt_Some|]. split; [done|].
  pose proof (facts_plain _ ltac:(by eapply list_elem_of_lookup_2)) as Hp. cbn [plain] in Hp.
  unfold a11y_event. rewrite (at_stage_sees _ _ Hsees). cbn [entry_of entry stage].
  destruct (browser_fields _ _ _ Hsees Hp) as [_ ->]. rewrite split_join; [by apply str_in_elem|done|].
  by destruct s; [apply elem_of_nil in Ha|].
Qed.

Lemma browser_nonempty : browser_events evs <> [].
Proof.
  destruct a11y_before as (i & m & _ & Hm & [Hs _]%andb_prop). intros E.
  assert (Hin : m ∈ browser_events evs).
  { apply list_elem_of_In, filter_In. split; [|done]. apply list_elem_of_In. by eapply list_elem_of_lookup_2. }
  rewrite E in Hin. by apply elem_of_nil in Hin.
Qed.

Lemma rule_03 : fs_03 evs = [].
Proof.
  unfold fs_03. pose proof browser_nonempty as Hne. rewrite (proj2 (flat_map_nil _ _)).
  - by destruct (browser_events evs).
  - intros m Hm. apply browser_fact in Hm as (s & c & Hf & Hsees). pose proof (facts_plain _ Hf) as Hp.
    by destruct (browser_fields _ _ _ Hsees Hp) as [-> _].
Qed.

Lemma mapM_nil {A B} (g : A -> res (list B)) l : (forall x, x ∈ l -> g x = Ok []) -> exists vs, res_mapM g l = Ok vs /\ List.concat vs = [].
Proof.
  induction l as [|x l IH]; [by exists []|]. intros Hg. destruct IH as (vs & E & Hc); [intros y Hy; apply Hg; by right|].
  exists ([] :: vs). cbn [res_mapM]. rewrite (Hg x) by left. cbn [mbind res_bind]. by rewrite E.
Qed.

Lemma rule_04 : fs_04 evs = Ok [].
Proof.
  unfold fs_04.
  assert (Hc : exists c, frozen_candidate evs = Ok c /\ forall k s x i m,
    facts !! i = Some (Previewed k s x) -> sees (Previewed k s x) m -> fs_04_event c m = Ok []).
  { assert (Hcase : exists c, frozen_candidate evs = Ok c /\ (c = JNull \/ exists x j, c = JStr x /\ facts !! j = Some (Frozen x))).
    { unfold frozen_candidate. destruct (event_at (_first_index evs "freeze") evs) as [m|] eqn:E; [|eauto].
      apply stage_event in E as (j & f & _ & Hj & Hsees & Ef). destruct f; try done. rewrite (output_sees _ _ Hsees).
      eexists. split; [done|]. right. eexists _, j. by split. }
    destruct Hcase as (c & -> & Hcase). exists c. split; [done|]. intros k s x i m Hi Hsees.
    destruct (allowed_at _ _ Hi) as (b & Hb & Hk & Hx & Hne); [done|]. unfold fs_04_event.
    rewrite (kind_field _ _ _ _ Hsees Hk), (input_sees _ _ Hsees). cbn [entry_of entry input_digests map fst snd mbind res_bind].
    assert (str_in k ALLOWED_PREVIEW_KINDS = true) as -> by by apply str_in_elem. symmetry in Hx.
    apply (candidate_source _ _ _ Hb) in Hx; [|done]. apply list_elem_of_lookup_1 in Hx as [n Hn].
    apply lookup_take_Some in Hn as [Hn _].
    destruct Hcase as [->|(y & j & -> & Hj)]; [done|].
    assert (n = j) as -> by (eapply (rg_frozen _ Hregular); done). rewrite Hj in Hn. injection Hn as ->.
    cbn. by rewrite String.eqb_refl. }
  destruct Hc as (c & -> & Hev). cbn [mbind res_bind].
  destruct (mapM_nil (fs_04_event c) (List.filter (at_stage "preview") evs)) as (vs & -> & Hvs).
  - intros m Hm. apply list_elem_of_In, filter_In in Hm as [Hm Hs]. apply list_elem_of_In, elem_fact in Hm as (f & Hf & Hsees).
    rewrite (at_stage_sees _ _ Hsees) in Hs. destruct f; try done. apply list_elem_of_lookup_1 in Hf as [i Hi]. by eapply Hev.
  - cbn [mbind res_bind]. by rewrite Hvs.
Qed.

(** ** Reviews *)

Lemma roster_v3 lens : lens ∈ REQUIRED_LENSES -> startswith lens "v3-" = true.
Proof.
  unfold REQUIRED_LENSES, FULLSTACK_REVIEW_LENSES. cbn [map snd]. rewrite !elem_of_cons, elem_of_nil.
  by intros [->|[->|[->|[->|[->|[->|[]]]]]]].
Qed.

Lemma reviewed_spec agent : agent ∈ reviewed_by evs <-> exists c, ReviewSubmitted agent c ∈ facts.
Proof.
  unfold reviewed_by, v3_reviews. rewrite list_elem_of_In, in_map_iff. split.
  - intros (m & <- & Hm). apply filter_In in Hm as [Hm Hs]. apply list_elem_of_In, elem_fact in Hm as (f & Hf & Hsees).
    rewrite (acts_sees _ _ Hsees), (agent_sees _ _ Hsees) in *.
    destruct f as [| |? ?|? ?|? ?|? ? ? ?|?|?|? ?|? ? ?|? ?|? ?|? ? ?]; try done. eauto.
  - intros (c & Hc). destruct (elem_event _ Hc) as (i & m & Hi & Hm & Hsees). exists m.
    rewrite (agent_sees _ _ Hsees). split; [done|]. apply filter_In. split; [apply list_elem_of_In; by eapply list_elem_of_lookup_2|].
    rewrite (acts_sees _ _ Hsees), (v3_sees _ _ Hsees). cbn [entry_of entry stage action EngineeringLedger.agent].
    apply roster_v3. by destruct (allowed_at _ _ Hi) as (b & _ & Hin & _).
Qed.

Lemma reviewed_roster agent : agent ∈ reviewed_by evs <-> agent ∈ REQUIRED_LENSES.
Proof.
  rewrite reviewed_spec. split.
  - intros (c & Hc). destruct (elem_event _ Hc) as (i & m & Hi & _). by destruct (allowed_at _ _ Hi) as (b & _ & Hin & _).
  - intros Hin. destruct (re_reviews _ _ _ _ (release_rests _ _ _ _ _ Hlawful Hallowed) _ Hin) as (c & Hc).
    exists c. apply elem_of_app. by left.
Qed.

Lemma rule_05 : fs_05 evs = [].
Proof.
  unfold fs_05. change REQUIRED_LENS_AGENTS with REQUIRED_LENSES.
  assert (Hm : sorted_set (minus REQUIRED_LENSES (reviewed_by evs)) = []).
  { apply sorted_set_nil, minus_nil. intros x. apply reviewed_roster. }
  assert (Hs : sorted_set (minus (reviewed_by evs) REQUIRED_LENSES) = []).
  { apply sorted_set_nil, minus_nil. intros x. apply reviewed_roster. }
  rewrite Hm, Hs, andb_false_r. by destruct (_ || _).
Qed.

Definition check_pair (f : fact) : option (string * string) :=
  match f with Checked lens o => Some (lens, outcome_verdict o) | _ => None end.
Definition record_pair (m : list (string * string)) (q : string * string) := assoc_set (fst q) (snd q) m.

Lemma verdicts_of fs es acc :
  Forall (fun f => plain f /\ forall lens o, f = Checked lens o -> lens ∈ REQUIRED_LENSES) fs -> Forall2 sees fs es ->
  foldl (fun m e => assoc_set (text "agent" e) (text "verdict" e) m) acc (List.filter (fun e => readonly_check e && is_v3 e) es)
  = foldl record_pair acc (omap check_pair fs).
Proof.
  intros Hfs Hall. revert acc. induction Hall as [|f m fs es Hs Hall IH]; intros acc; [done|].
  apply Forall_cons in Hfs as [[Hp Hl] Hfs]. cbn [List.filter]. rewrite (check_sees _ _ Hs), (v3_sees _ _ Hs).
  destruct f as [| |? ?|? ?|? ?|? ac ? ?|[]|?|? ?|? ? ?|? ?|lens o|? ? ?];
    cbn [entry_of entry action EngineeringLedger.agent omap list_omap check_pair]; try (by apply IH).
  - destruct Hp as [_ Hac]. apply String.eqb_neq in Hac. rewrite Hac. by apply IH.
  - rewrite (roster_v3 lens) by (by eapply Hl). change ("readonly_check" =? "readonly_check")%string with true.
    cbn [andb foldl]. rewrite (agent_sees _ _ Hs), (verdict_sees _ _ Hs). by apply IH.
Qed.

Abbreviation outcomes l := (map (fun q : string * proof_outcome => (fst q, outcome_verdict (snd q))) l).

Lemma outcomes_set lens o l : outcomes (assoc_set lens o l) = assoc_set lens (outcome_verdict o) (outcomes l).
Proof.
  induction l as [|[k x] l IH]; [done|]. cbn [assoc_set map fst snd]. destruct (String.eqb lens k); [done|].
  cbn [map fst snd]. by rewrite IH.
Qed.

Lemma checks_are_reviews t b : lawful t b -> (forall lens, Checked lens Modified ∉ t) ->
  foldl record_pair [] (omap check_pair t) = outcomes (reviews b).
Proof.
  induction 1 as [|t b f Hl IH Ha]; intros Hm; [done|]. rewrite omap_app, foldl_app, IH.
  2: { intros lens Hin. apply (Hm lens), elem_of_app. by left. }
  destruct f as [| |? ?|? ?|? ?|? ? ? ?|[]|?|? ?|? ? ?|? ?|lens []|? ? ?]; try done.
  - cbn. by rewrite outcomes_set.
  - exfalso. apply (Hm lens), elem_of_app. right. by left.
  - cbn. by rewrite outcomes_set.
Qed.

Lemma reviews_distinct t b : lawful t b -> NoDup (map fst (reviews b)).
Proof.
  induction 1 as [|t b f Hl IH Ha]; [constructor|].
  destruct f as [| | | | | |[]| | | | |? []|]; try done; by apply set_keys_distinct.
Qed.

Lemma verdicts_are_outcomes : readonly_verdicts evs = outcomes (reviews a).
Proof.
  unfold readonly_verdicts. rewrite (verdicts_of facts); [|apply Forall_forall|done].
  - by rewrite (checks_are_reviews _ _ facts_lawful (rg_unmodified _ Hregular)).
  - intros f Hf. split; [by apply facts_plain|]. intros lens o ->. apply list_elem_of_lookup_1 in Hf as [i Hi].
    destruct (allowed_at _ _ Hi) as (b & Hb & Hin); [done|]. by apply (submitted_roster (take i facts) b).
Qed.

Lemma outcomes_assoc lens : assoc lens (outcomes (reviews a)) = outcome_verdict <$> assoc lens (reviews a).
Proof. induction (reviews a) as [|[k x] l IH]; [done|]. cbn [map fst snd assoc]. by destruct (String.eqb lens k). Qed.

Lemma proceeds_clean : first_report_proceeds evs = true -> forall lens o, (lens, o) ∈ reviews a -> o = Clean.
Proof.
  unfold first_report_proceeds. destruct (event_at (_first_index evs "release_report") evs) as [m|] eqn:E; [|done].
  apply stage_event in E as (i & f & _ & Hi & Hsees & Ef). destruct f as [| |? ?|? ?|? ?|? ? ? ?|?|?|? ?|? ? ?|? ?|? ?|v' p' d']; try done.
  pose proof (rg_report _ Hregular _ _ _ _ Hi) as Hlast. rewrite length_app in Hlast. cbn in Hlast.
  assert (i = List.length tr) as -> by lia. rewrite lookup_app_r, Nat.sub_diag in Hi by lia. injection Hi as <- <- <-.
  rewrite (verdict_sees _ _ Hsees). cbn [entry_of entry EngineeringLedger.verdict]. intros ->%String.eqb_eq lens o Ho.
  destruct Hallowed as (_ & _ & Hp & Himp & _). rewrite Hp in Himp. specialize (Himp eq_refl). unfold integrity_of in Himp.
  destruct (forallb (lens_valid a) REQUIRED_LENSES) eqn:Hall; [|done]. rewrite forallb_true in Hall.
  apply assoc_NoDup in Ho; [|by eapply reviews_distinct].
  assert (Hr : lens ∈ REQUIRED_LENSES) by (eapply submitted_roster, reviews_submitted; done).
  apply Hall in Hr. unfold lens_valid in Hr. apply bool_decide_eq_true in Hr. congruence.
Qed.

Lemma rule_06 : fs_06 evs = [].
Proof.
  unfold fs_06. rewrite verdicts_are_outcomes. rewrite (proj2 (flat_map_nil _ _)).
  - cbn [app]. destruct (first_report_proceeds evs) eqn:Hp; [|done].
    assert (List.filter (fun q => String.eqb (snd q) "infrastructure_invalid") (outcomes (reviews a)) = []) as ->; [|done].
    apply filter_nil_iff, Forall_forall. intros [k x] Hq. apply list_elem_of_In, in_map_iff in Hq as ([k' o] & [= <- <-] & Hq).
    apply list_elem_of_In in Hq. by rewrite (proceeds_clean Hp _ _ Hq).
  - intros agent Hin%reviewed_roster. rewrite outcomes_assoc.
    destruct Hallowed as (_ & (Hall & _) & _). rewrite Forall_forall in Hall. destruct (Hall _ Hin) as [o Ho]. rewrite Ho.
    pose proof (lawful_counted _ _ Hlawful) as Hc. unfold counted in Hc. rewrite Forall_forall in Hc.
    apply assoc_In, Hc in Ho. by destruct o.
Qed.

(** ** The report and the API contract *)

Lemma rule_07 : fs_07 evs = [].
Proof.
  unfold fs_07. pose proof (first_index_spec evs "release_report") as Hf.
  destruct (_first_index evs "release_report") as [k|]; [|done]. destruct Hf as (x & Hx & Hs & _).
  destruct (fact_of _ _ Hx) as (f & Hfk & Hsees). rewrite (at_stage_sees _ _ Hsees) in Hs.
  destruct f as [| |? ?|? ?|? ?|? ? ? ?|?|?|? ?|? ? ?|? ?|? ?|v' p' d']; try done.
  pose proof (rg_report _ Hregular _ _ _ _ Hfk) as Hlast. rewrite length_app in Hlast. cbn in Hlast.
  assert (k = List.length tr) as -> by lia. destruct a11y_before as (i & m & Hlt & Hm & Ha).
  assert (existsb a11y_event (take (List.length tr) evs) = true) as ->; [|by destruct (browser_events evs)].
  apply existsb_exists. exists m. split; [|done]. apply list_elem_of_In, list_elem_of_lookup_2 with i.
  apply lookup_take_Some. by split.
Qed.

Lemma rule_08 : fs_08 evs = [].
Proof.
  unfold fs_08. pose proof (first_index_spec evs "freeze") as Hf.
  destruct (_first_index evs "freeze") as [k|]; [|done]. destruct Hf as (x & Hx & Hs & _).
  destruct (fact_of _ _ Hx) as (f & Hfk & Hsees). rewrite (at_stage_sees _ _ Hsees) in Hs.
  destruct f as [| |? ?|? ?|? ?|? ? ? ?|?|c|? ?|? ? ?|? ?|? ?|? ? ?]; try done.
  assert (List.filter drifted_api evs = []) as ->.
  { apply filter_nil_iff, Forall_forall. intros m Hm. destruct (elem_fact _ Hm) as (g & Hg & Hsg).
    unfold drifted_api, api_verdict. rewrite (at_stage_sees _ _ Hsg), (verdict_sees _ _ Hsg).
    destruct g as [| |? ?|? ?|? ?|? ? ? ?|[]|?|? ?|? ? ?|? ?|? ?|? ? ?]; try done. by destruct (rg_current _ Hregular). }
  destruct (allowed_at _ _ Hfk) as (b & Hb & _ & Hc & _); [done|]. apply (current_source _ _ Hb) in Hc.
  destruct (before_event _ _ Hc) as (j & m & Hlt & _ & Hm & Hsm).
  assert (existsb current_api (take k evs) = true) as ->; [|done].
  apply existsb_exists. exists m. split.
  - apply list_elem_of_In, list_elem_of_lookup_2 with j. apply lookup_take_Some. by split.
  - unfold current_api, api_verdict. by rewrite (at_stage_sees _ _ Hsm), (verdict_sees _ _ Hsm).
Qed.

Lemma audit_silent : evaluate_fullstack_trajectory evs = Ok [].
Proof.
  unfold evaluate_fullstack_trajectory. destruct (_is_fullstack_run evs); [|done].
  rewrite rule_02, rule_04. cbn [mbind res_bind]. by rewrite rule_01, rule_03, rule_05, rule_06, rule_07, rule_08.
Qed.
End Rules.
End Audit.
