(* ===== verification/FullstackTheorems.v ===== *)
(** * The full-stack run: theorems

    The run implements its machine and can be loaded from its files; a release
    rests on its evidence and the auditor agrees with it; and what a release does
    not guarantee. *)
From Stdlib Require Import Ascii String.
From S2P Require Import Prelude Sha256 Json JsonText JsonIndent Canonical PyStr PyConv JsonFacts JsonAscii TextFacts.
From S2P Require Import EngineeringLedger EngineeringLedgerFacts EngineeringLedgerTheorems Schema.
From S2P Require Import Trajectory TrajectoryFacts TrajectoryFullstack FullstackContract FullstackGates Fullstack.
From S2P Require Import FullstackSpec FullstackRefine FullstackRuns FullstackAudit.

(** ** The events, read back *)

Lemma log_lines es : log es = text_of_lines (map (fun e => text_of e) es).
Proof.
  induction es as [|e es IH]; [done|]. cbn [log foldr map text_of_lines]. unfold log in IH. rewrite IH. unfold event_line.
  by rewrite sapp_assoc.
Qed.

Lemma line_kept e : event_ok e -> nonempty (strip (text_of e)) = true.
Proof.
  intros He. unfold json_dumps_sorted. cbn [dumps_with].
  match goal with |- nonempty (strip ?t) = true => assert (Ht : printable t = true) by by apply (text_printable e) end.
  eapply negb_true_iff, String.eqb_neq, strip_nonempty; [by rewrite ascii_ords by by apply printable_ascii|done].
Qed.

Lemma filter_kept {A} (p : A -> bool) l : Forall (fun x => p x = true) l -> List.filter p l = l.
Proof. induction 1 as [|x l Hx _ IH]; [done|]. cbn [List.filter]. by rewrite Hx, IH. Qed.

(** ** Runs in which every call returned *)

Definition steady_call (c : call) : Prop :=
  match c with
  | Report _ _ => False
  | RecordImplementation _ action task _ _ => unlike ";" task = true /\ action <> "readonly_check"%string
  | RecordBrowserVerification executed _ _ _ => Forall (fun s => simple s = true) executed
  | _ => True
  end.
Definition is_freeze (c : call) : bool := match c with Freeze _ _ _ => true | _ => false end.
Definition freezes (cs : list call) : nat := List.length (List.filter is_freeze cs).

(** The facts that such calls record. *)
Definition calm (f : fact) : Prop :=
  plain f /\ match f with ApiVerified false | Checked _ Modified | Released _ _ _ => False | _ => True end.
Definition is_frozen (f : fact) : bool := match f with Frozen _ => true | _ => false end.
Definition frozen_facts (tr : list fact) : nat := List.length (List.filter is_frozen tr).

Lemma emitted_calm c fs : steady_call c -> emitted c (Ok tt) fs ->
  Forall calm fs /\ (frozen_facts fs <= freezes [c])%nat.
Proof.
  intros Hc [->|He]; [split; [done|]; cbn; lia|].
  destruct c as [| | | | |current ?| | | | |lens ? ? ?| |]; cbn [steady_call] in Hc; try done; try subst fs;
    try (split; [by repeat constructor|cbn; lia]).
  - split; [by repeat constructor; destruct Hc|cbn; lia].
  - destruct He as [-> Hx]. destruct current; [split; [by repeat constructor|cbn; lia]|]. by destruct (Hx eq_refl).
  - destruct He as [d ->]. split; [by repeat constructor|cbn; lia].
  - destruct He as [d ->]. split; [by repeat constructor|cbn; lia].
  - destruct He as (k & d & ->). split; [by repeat constructor|cbn; lia].
  - destruct He as (d & [->|[->|[-> Hx]]]); [split; [by repeat constructor|cbn; lia]..|by destruct Hx].
  - destruct He as (d & ->). split; [by repeat constructor|cbn; lia].
Qed.

Lemma frozen_facts_app l l' : frozen_facts (l ++ l') = (frozen_facts l + frozen_facts l')%nat.
Proof. unfold frozen_facts. by rewrite List.filter_app, length_app. Qed.

Lemma frozen_once tr i j d d' : (frozen_facts tr <= 1)%nat -> tr !! i = Some (Frozen d) -> tr !! j = Some (Frozen d') -> i = j.
Proof.
  assert (Hin : forall l k e, l !! k = Some (Frozen e) -> (1 <= frozen_facts l)%nat).
  { intros l k e (l1 & l2 & -> & _)%list_elem_of_split_length. rewrite frozen_facts_app. cbn. lia. }
  revert i j. induction tr as [|f tr IH]; intros i j Hn Hi Hj; [done|].
  destruct i as [|i], j as [|j]; cbn in Hi, Hj; try done; try (f_equal; eapply IH; [|done..]).
  - injection Hi as ->. apply Hin in Hj. unfold frozen_facts in *. cbn in Hn. lia.
  - injection Hj as ->. apply Hin in Hi. unfold frozen_facts in *. cbn in Hn. lia.
  - unfold frozen_facts in *. cbn in Hn. destruct (is_frozen f); cbn in Hn; lia.
Qed.

Lemma calm_regular tr v p d : Forall calm tr -> (frozen_facts tr <= 1)%nat -> regular (tr ++ [Released v p d]).
Proof.
  intros Hc Hn. rewrite Forall_forall in Hc. constructor.
  - apply Forall_app. split; [apply Forall_forall; intros f Hf; by apply Hc|by repeat constructor].
  - intros [Hf|Hf]%elem_of_app; [by apply Hc in Hf as [_ ?]|by apply list_elem_of_singleton in Hf].
  - intros lens [Hf|Hf]%elem_of_app; [by apply Hc in Hf as [_ ?]|by apply list_elem_of_singleton in Hf].
  - intros i j e e'. apply frozen_once. rewrite frozen_facts_app. cbn. lia.
  - intros i w q e Hi. apply lookup_snoc_Some in Hi as [[_ Hi]|[-> _]]; [|rewrite length_app; cbn; lia].
    apply list_elem_of_lookup_2, Hc in Hi. by destruct Hi.
Qed.

Section Theorems.
Context `{Rfc8785} `{Unicode} `{Lower}.
Variable dir : string.

(** [rfc8785.dumps] encodes flat objects of texts. *)
Hypothesis flat_encodes : forall m, flat m = true -> is_ok (rfc8785_dumps (JObj m)) = true.

Lemma lines_loaded es : Forall event_ok es ->
  res_mapM (json_loads default_hooks) (map (fun e => text_of e) es) = Ok (map (fun e => JObj (stored_members e)) es).
Proof.
  induction 1 as [|e es He _ IH]; [done|]. cbn [map res_mapM]. pose proof (loads_text e He) as Hl.
  rewrite loads_document in Hl by by apply printable_document, text_printable.
  rewrite Hl. cbn [mbind res_bind]. rewrite IH. done.
Qed.

(** The events that [events] reads show the facts of the ledger. *)
Lemma events_show D r tr a : is_text D = true -> simulates D r tr a -> exists evs, events r = Ok (map JObj evs) /\ Forall2 (sees D) tr evs.
Proof.
  intros HD Hs. pose proof (si_ledger _ _ _ _ Hs) as [_ (es & [_ Hb] & Hall)].
  pose proof (attested_ok _ _ (lk_id _ _ (si_locks _ _ _ _ Hs)) HD _ _ (si_facts _ _ _ _ Hs) Hall) as Hok.
  exists (map stored_members es). split.
  - unfold events. destruct (lawful_locked _ _ (si_lawful _ _ _ _ Hs)) as [tr' ->]. inversion Hall as [|? e ? es' _ _]; subst.
    unfold file_bytes in Hb. destruct (contents (ledger (files r))) as [bytes|]; [|done]. cbn [default] in Hb.
    change (bytes = log (e :: es')) in Hb. subst bytes. rewrite log_lines.
    assert (Hp : Forall (fun l => printable l = true) (map (fun e => text_of e) (e :: es'))).
    { apply List.Forall_map. eapply Forall_impl; [exact Hok|]. intros x. apply text_printable. }
    rewrite TextFacts.read_lines by done. cbn [mbind res_bind]. rewrite splitlines_lines by done.
    rewrite filter_kept by (apply List.Forall_map; eapply Forall_impl; [exact Hok|apply line_kept]).
    rewrite lines_loaded by done. by rewrite map_map.
  - clear -Hall. induction Hall as [|f e tr es He _ IH]; constructor; [by eapply event_sees|done].
Qed.

Inductive returns : FullStackRun -> list call -> FullStackRun -> Prop :=
  | returns_none r : returns r [] r
  | returns_call c cs r r' r'' : all_text (call_texts c) -> perform dir c r = (Ok tt, r') -> returns r' cs r'' -> returns r (c :: cs) r''.

Lemma returns_calm D cs r r' tr a : is_text D = true -> returns r cs r' -> Forall steady_call cs ->
  simulates D r tr a -> Forall calm tr ->
  exists tr' a', simulates D r' tr' a' /\ Forall calm tr' /\ (frozen_facts tr' <= frozen_facts tr + freezes cs)%nat.
Proof.
  intros HD Hr. revert tr a. induction Hr as [r|c cs r r' r'' Ht E Hr IH]; intros tr a Hc Hs Htr.
  - exists tr, a. split_and!; [done..|lia].
  - apply Forall_cons in Hc as [Hc Hcs].
    destruct (perform_goes_on dir flat_encodes D c r tr a _ _ HD Hs Ht E) as (fs & a1 & He & Hs1).
    destruct (emitted_calm c fs Hc He) as [Hf Hn].
    destruct (IH _ _ Hcs Hs1) as (tr' & a' & Hs' & Hc' & Hn'); [by apply Forall_app|].
    exists tr', a'. split_and!; [done..|]. rewrite frozen_facts_app in Hn'. unfold freezes in *. cbn [List.filter] in *.
    destruct (is_freeze c); cbn [List.length] in *; lia.
Qed.

(** ** The machine *)

(** C3. Whatever was called on a run, and whatever it returned or raised, the
    ledger attests a lawful sequence of facts, the state is exactly what these
    facts amount to, and [load] rebuilds the run from the files. *)
Theorem run_implements_machine r : reachable dir r ->
  exists D tr a, digest (contract r) = Ok D /\ lawful tr a /\ attests (run_id r) D (ledger (files r)) tr /\
    _state r = state_of (run_id r) D a /\ load dir (files r) = Ok (put_snapshots [] r).
Proof.
  intros (D & tr & a & HD & Htext & Hs)%(reachable_simulates dir flat_encodes). exists D, tr, a.
  split; [done|]. split; [apply Hs|]. split; [apply Hs|]. split; [apply Hs|]. by eapply load_simulates.
Qed.

(** C8. A release that is reported rests on its evidence, all of it in the ledger
    before the report: the validated journey, the current API contract, the freeze
    of the reported candidate, an accessibility suite, a preview, a review of each
    lens, and for PROCEED a clean read-only proof of each. *)
Theorem release_is_backed r v t report r' : reachable dir r -> all_text [v; t] ->
  release_report v t r = (Ok report, r') ->
  product_verdict report = v /\
  exists D tr d, attests (run_id r) D (ledger (files r)) tr /\
    attests (run_id r') D (ledger (files r')) (tr ++ [Released v (verification_integrity report) d]) /\
    release_evidence tr v (verification_integrity report) d.
Proof.
  intros (D & tr & a & HD & Htext & Hs)%(reachable_simulates dir flat_encodes) Ht E.
  eapply (release_cases flat_encodes D Htext) in E as [(y & [=] & _)|(rep & [= ->] & Hv & Hi & Ha & Hs')]; [|done..].
  split; [done|]. exists D, tr, (candidate a). rewrite Hi. split; [apply Hs|].
  split; [apply Hs'|]. apply (release_rests _ a); [apply Hs|done].
Qed.
(** C14. The auditor that reads the ledger of a released run finds nothing to
    report, when every call of the run returned, the candidate was frozen at most
    once, no call before the last one reported, and no call recorded a text that
    the auditor reads as something else: the names of suites and tasks do not look
    like detail fields, and no action is named as the read-only proof of a reviewer
    ([steady_call]).  Without the third condition the two disagree: the rule on
    read-only proofs holds the proofs that came after a report against it. *)
Theorem auditor_agrees path content agents_dir agent_files now f f0 r0 cs r v t report r' :
  start path content dir agents_dir agent_files now f = (Ok r0, f0) -> fresh_files f -> is_text now = true ->
  is_text (run_id r0) = true -> returns r0 cs r -> Forall steady_call cs -> (freezes cs <= 1)%nat ->
  all_text [v; t] -> release_report v t r = (Ok report, r') ->
  exists evs, events r' = Ok (map JObj evs) /\ evaluate_fullstack_trajectory evs = Ok [].
Proof.
  intros E Hf Hn Hid Hr Hc Hz Ht Er.
  destruct (start_simulates dir flat_encodes _ _ _ _ _ _ _ _ E Hf Hn Hid) as (D & HD%contract_digest_text & Hs).
  destruct (returns_calm D cs r0 r [Locked] locked HD Hr Hc Hs) as (tr & a & Hs' & Htr & Hfz); [by repeat constructor|].
  eapply (release_cases flat_encodes D HD) in Er as [(y & [=] & _)|(rep & [= ->] & _ & _ & Ha & Hs'')]; [|done..].
  destruct (events_show D r' _ _ HD Hs'') as (evs & He & Hev). exists evs. split; [done|].
  eapply audit_silent; [apply Hs'|done| |done]. apply calm_regular; [done|]. cbn in Hfz. lia.
Qed.

(** ** What a release does not guarantee *)

(** The states from which PROCEED is issued. *)
Definition proceeds (a : status) : Prop := releasable a /\ integrity_of a = INTEGRITY_VALID.

Lemma release_proceeds D t r tr a x r' : is_text D = true -> simulates D r tr a -> is_text t = true ->
  release_report "PROCEED" t r = (x, r') ->
  (proceeds a -> exists report, x = Ok report /\ simulates D r' (tr ++ [Released "PROCEED" INTEGRITY_VALID (candidate a)])
                   (advance a (Released "PROCEED" INTEGRITY_VALID (candidate a)))) /\
  (forall report, x = Ok report -> proceeds a).
Proof.
  intros HD Hs Ht E.
  apply (release_cases flat_encodes D HD _ _ _ tr a) in E as [(y & -> & _ & Hno)|(rep & -> & _ & _ & Ha & Hs')]; [| |done|by repeat constructor].
  - split; [|done]. intros [Hrel Hi]. destruct Hno. split; [left|]. by split.
  - destruct Ha as (_ & Hrel & _ & Hi & _). specialize (Hi eq_refl). rewrite Hi in Hs'. split; [eauto|]. by split.
Qed.

(** C37. A second freeze keeps the reviews, the suites and the preview of the first
    candidate: where PROCEED was due before it, it is issued after it, for a tree
    that no lens has reviewed. *)
Theorem refreeze_keeps_reviews r repo t0 t1 t report r1 c r2 : reachable dir r -> all_text [t1; t] ->
  release_report "PROCEED" t r = (Ok report, r1) -> freeze dir repo t0 t1 r = (Ok c, r2) ->
  tree_content_digest repo = Ok (candidate_tree_digest c) /\
  exists report' r3 D tr, release_report "PROCEED" t r2 = (Ok report', r3) /\ attests (run_id r) D (ledger (files r)) tr /\
    attests (run_id r3) D (ledger (files r3))
      (tr ++ [Frozen (candidate_tree_digest c); Released "PROCEED" INTEGRITY_VALID (candidate_tree_digest c)]).
Proof.
  unfold all_text. rewrite !Forall_cons. intros (D & tr & a & _ & HD & Hs)%(reachable_simulates dir flat_encodes) (Ht1 & Ht & _) Er Ef.
  apply (release_proceeds D t r tr a) in Er as [_ Hp]; [|done..]. specialize (Hp report eq_refl).
  eapply (freeze_cases flat_encodes D HD) in Ef as [(y & [=] & _)|(c' & [= ->] & Htree & Hs')]; [|done..]. split; [done|].
  destruct (release_report "PROCEED" t r2) as [x r3] eqn:E.
  destruct (release_proceeds D t r2 _ _ x r3 HD Hs' Ht E) as [Hgo _]. destruct (Hgo Hp) as (rep & -> & Hs3).
  exists rep, r3, D, tr. split; [done|]. split; [apply Hs|]. pose proof (si_ledger _ _ _ _ Hs3) as Hl.
  by rewrite <- app_assoc in Hl.
Qed.

(** C38. A review that ends with modified files raises, and that is all: where
    PROCEED was due before it, by an earlier clean review of the lens, it is still
    issued after it. *)
Theorem modified_review_keeps_release r lens repo before changed rest t0 t1 t report r1 : reachable dir r ->
  all_text [t0; t1; t] -> assoc lens (_snapshots r) = Some before -> verify_unmodified repo before = Ok (changed :: rest) ->
  release_report "PROCEED" t r = (Ok report, r1) ->
  exists s r2 report' r3, end_review lens repo t0 t1 r = (Raise (OrchestrationViolation s), r2) /\
    release_report "PROCEED" t r2 = (Ok report', r3).
Proof.
  unfold all_text. rewrite !Forall_cons. intros (D & tr & a & _ & HD & Hs)%(reachable_simulates dir flat_encodes) (Ht0 & Ht1 & Ht & _) Hb Hv Er.
  apply (release_proceeds D t r tr a) in Er as [_ Hp]; [|done..]. specialize (Hp report eq_refl).
  pose proof (si_open _ _ _ _ Hs) as Ho. pose proof Ho as Hlens. rewrite Forall_forall in Hlens.
  destruct (Hlens _ (assoc_In _ _ _ Hb)) as [Hin Hne].
  pose proof (with_snapshots D r tr a _ Hs (open_del a lens _ Ho)) as Hs0.
  destruct (submit_run flat_encodes D HD lens t0 _ tr a Hs0 Hin Hne Ht0) as (ra & Ea & Hsa).
  destruct (check_run flat_encodes D HD lens Modified t1 ra _ _ Hsa Hin ltac:(left)) as (l & El & Hs2); [by repeat constructor|].
  destruct (release_report "PROCEED" t (put_ledger l ra)) as [y r3] eqn:E3.
  destruct (release_proceeds D t _ _ _ y r3 HD Hs2 Ht E3) as [Hgo _]. destruct (Hgo Hp) as (rep & -> & _).
  eexists _, (put_ledger l ra), rep, r3. split; [|done]. unfold end_review. rewrite get_bind, Hb.
  rewrite (bind_run _ _ _ tt (put_snapshots (assoc_del lens (_snapshots r)) r)) by done.
  by rewrite (bind_run _ _ _ _ _ Ea), Hv, lift_Ok_bind, (bind_run _ _ _ _ _ El).
Qed.
End Theorems.
