(* ===== verification/FullstackDemo.v ===== *)
(** * A full-stack run: a concrete run

    A contract of one screen, six reviewers that may only read, and a run from
    the lock to the release: the theorems of [FullstackTheorems] and of
    [FullstackGateTheorems] at that run. *)
From Stdlib Require Import Ascii String.
From S2P Require Import Prelude Sha256 Json JsonText JsonSpec JsonIndent Canonical PyStr PyConv JsonFacts JsonAscii TextFacts.
From S2P Require Import EngineeringLedger Schema Trajectory TrajectoryFullstack FullstackContract FullstackGates FullstackGateTheorems Fullstack.
From S2P Require Import FullstackSpec FullstackRefine FullstackRuns FullstackAudit FullstackTheorems.

(** The text of RFC 8785 for values without fractional numbers. *)
#[local] Instance canonical_text : Rfc8785 := {| rfc8785_dumps v := Ok (jcs_text (jcanon v)) |}.
#[local] Instance plain_unicode : Unicode := {| isprintable _ := true; isalnum _ := true; decimal _ := None |}.
#[local] Instance lower_case : Lower := {| lower s := s |}.

Section Demo.
Local Open Scope string_scope.

Definition words (l : list string) : json := JArr (map JStr l).
Definition demo_document : json := JObj [
  ("contract_version", JInt 1); ("contract_id", JStr "c1"); ("contract_status", JStr "APPROVED");
  ("approved_at", JStr "t"); ("approved_by", JStr "ann"); ("product_name", JStr "p"); ("problem", JStr "p");
  ("target_user", JStr "u");
  ("primary_journey", JArr [strs [("step_id", "s1"); ("description", "d"); ("screen_id", "home")]]);
  ("screens", JArr [JObj [("screen_id", JStr "home"); ("name", JStr "n"); ("purpose", JStr "p");
                          ("states", words ["loading"; "error"; "success"])]]);
  ("ui_states", words ["loading"; "error"; "success"]);
  ("backend_capabilities", JArr [strs [("capability_id", "b1"); ("description", "d")]]);
  ("data_entities", JArr []);
  ("api_contracts", JArr [strs [("api_id", "a1"); ("method", "GET"); ("path", "/"); ("purpose", "p")]]);
  ("accessibility_requirements", words ["a"]); ("responsive_requirements", words ["r"]);
  ("binary_release_gates", JArr [strs [("id", "g1"); ("description", "d")]]);
  ("guardrails", words ["g"]); ("deployment_target", strs [("kind", "local_preview"); ("description", "d")]);
  ("out_of_scope", words ["o"]); ("unresolved_questions", JArr []); ("required_approvals", JArr [])].
Definition demo_text : string := json_dumps demo_document.

Definition agent_text (name : string) : string :=
  text_of_lines ["---"; "name: " +:+ name; "tools: Read, Grep"; "---"].
Definition demo_agents : list (string * string) := map (fun name => (name +:+ ".md", agent_text name)) REQUIRED_LENSES.

Definition no_files : run_files := {| ledger := {| run_dir := false; contents := None; depth := 0 |};
  contract_file := None; state_file := None; journey_record := None; candidates := []; candidate_manifest := None |}.
Abbreviation demo_start := (start "contract.json" (Ok demo_text) "run" "agents" demo_agents "t0" no_files).

Definition repo_of (content : string) : repository := {| root := "repo"; rev_parse_head := Ok "0123456789abcdef";
  status_porcelain := Ok ""; ls_files := {| returncode := 0; stdout := "app.py" +:+ String (chr_n 0) ""; stderr := "" |};
  tree := [("app.py", content)] |}.
Definition demo_repo : repository := repo_of "x = 1".
Definition demo_preview : PreviewEvidence := {| source_digest := "d"; deployment_kind := "local_preview";
  artifacts := [("web", "f")]; journeys := [("s1", "passed")]; recorded_at := "t" |}.
Definition demo_evidence : option string := match record_preview_file demo_preview with Ok t => Some t | Raise _ => None end.

Definition demo_calls : list call := [
  ValidateJourney "t1" "t2"; RecordArchitecture "architect" "d" "t3"; RecordImplementation "coder" "write" "T1" "frontend" "t4";
  RecordApiContract true "t5"; Freeze demo_repo "t6" "t7"; RecordBrowserVerification ["a11y"; "smoke"] false true "t8";
  RecordPreview "preview.json" demo_evidence "d" "t9"]
  ++ flat_map (fun lens => [BeginReview lens demo_repo; EndReview lens demo_repo "t10" "t11"]) REQUIRED_LENSES.

(** Every lens is reviewed, and the first one opens a second review. *)
Definition demo_lens : string := "v3-ux-journey-reviewer".
Definition all_calls : list call := demo_calls ++ [BeginReview demo_lens demo_repo].
Definition other_repo : repository := repo_of "x = 2".

Fixpoint perform_all (cs : list call) (r : FullStackRun) : option FullStackRun :=
  match cs with
  | [] => Some r
  | c :: cs => match perform "run" c r with (Ok _, r) => perform_all cs r | (Raise _, _) => None end
  end.

Lemma perform_all_returns cs r r' : Forall (fun c => all_text (call_texts c)) cs -> perform_all cs r = Some r' ->
  returns "run" r cs r'.
Proof.
  revert r. induction cs as [|c cs IH]; intros r Ht; cbn [perform_all]; [intros [= <-]; constructor|].
  apply Forall_cons in Ht as [Hc Ht]. destruct (perform "run" c r) as [[[]|] r1] eqn:E; [|done]. intros Hp.
  econstructor; [done..|by apply IH].
Qed.

Lemma returns_reachable cs r r' : reachable "run" r -> returns "run" r cs r' -> reachable "run" r'.
Proof. intros Hr. induction 1 as [|c cs r r' r'' Ht E _ IH]; [done|]. apply IH. by eapply called. Qed.

(** What the run does, in one evaluation. *)
Definition released (r : FullStackRun) : bool := is_ok (fst (release_report "PROCEED" "t12" r)).
Definition refrozen (r : FullStackRun) : bool := is_ok (fst (freeze "run" other_repo "t13" "t14" r)).
Definition modified (r : FullStackRun) : bool :=
  match assoc demo_lens (_snapshots r) with
  | Some before => match verify_unmodified other_repo before with Ok (_ :: _) => true | _ => false end
  | None => false
  end.
Abbreviation demo_check := (
  match demo_start with
  | (Ok r0, _) => is_text (run_id r0) && match perform_all all_calls r0 with
                                         | Some r => released r && refrozen r && modified r
                                         | None => false
                                         end
  | (Raise _, _) => false
  end).

Lemma demo_checks : demo_check = true.
Proof. vm_compute. reflexivity. Qed.

Lemma call_texts_ok : Forall (fun c => all_text (call_texts c)) all_calls.
Proof.
  assert (E : forallb (fun c => forallb is_text (call_texts c)) all_calls = true) by (vm_compute; reflexivity).
  rewrite forallb_true in E. apply Forall_forall. intros c Hc%E. rewrite forallb_true in Hc. by apply Forall_forall.
Qed.

Lemma release_runs : exists r0 f0 r,
  demo_start = (Ok r0, f0) /\ is_text (run_id r0) = true /\ returns "run" r0 all_calls r /\ reachable "run" r /\
  released r = true /\ refrozen r = true /\ modified r = true.
Proof.
  pose proof demo_checks as E. destruct demo_start as [[r0|x] f0] eqn:Es; [|done].
  apply andb_prop in E as [Hid E]. destruct (perform_all all_calls r0) as [r|] eqn:Ep; [|done].
  apply perform_all_returns in Ep; [|exact call_texts_ok]. apply andb_prop in E as [[Hp Hf]%andb_prop Hm].
  exists r0, f0, r. split; [reflexivity|]. split; [exact Hid|]. split; [exact Ep|]. split; [|split; [exact Hp|]; split; [exact Hf|exact Hm]].
  eapply returns_reachable; [|exact Ep]. eapply started; [exact Es|split; reflexivity|reflexivity|exact Hid].
Qed.

Lemma flat_text m : flat m = true -> is_ok (rfc8785_dumps (JObj m)) = true.
Proof. done. Qed.

Lemma run_implements_machine_witness : exists r D tr a, reachable "run" r /\ digest (contract r) = Ok D /\
  attests (run_id r) D (ledger (files r)) tr /\ _state r = state_of (run_id r) D a /\
  load "run" (files r) = Ok (put_snapshots [] r).
Proof.
  destruct release_runs as (r0 & f0 & r & _ & _ & _ & Hr & _).
  destruct (run_implements_machine "run" flat_text r Hr) as (D & tr & a & HD & _ & Ha & Hs & Hl).
  exists r, D, tr, a. split; [exact Hr|]. split; [exact HD|]. split; [exact Ha|]. split; [exact Hs|exact Hl].
Defined.

Lemma release_is_backed_witness : exists r report r' D tr d, release_report "PROCEED" "t12" r = (Ok report, r') /\
  attests (run_id r) D (ledger (files r)) tr /\ release_evidence tr "PROCEED" (verification_integrity report) d.
Proof.
  destruct release_runs as (r0 & f0 & r & _ & _ & _ & Hr & Hp & _). unfold released in Hp.
  destruct (release_report "PROCEED" "t12" r) as [[report|x] r'] eqn:E; [|discriminate].
  destruct (release_is_backed "run" flat_text r "PROCEED" "t12" report r' Hr) as (_ & D & tr & d & Ha & _ & He);
    [repeat constructor|exact E|].
  exists r, report, r', D, tr, d. split; [exact E|]. split; [exact Ha|exact He].
Defined.

Lemma auditor_agrees_witness : exists r report r' evs, release_report "PROCEED" "t12" r = (Ok report, r') /\
  events r' = Ok (map JObj evs) /\ evaluate_fullstack_trajectory evs = Ok [].
Proof.
  destruct release_runs as (r0 & f0 & r & Es & Hid & Hret & Hr & Hp & _). unfold released in Hp.
  destruct (release_report "PROCEED" "t12" r) as [[report|x] r'] eqn:E; [|discriminate].
  destruct (auditor_agrees "run" flat_text "contract.json" (Ok demo_text) "agents" demo_agents "t0" no_files f0 r0 all_calls r
              "PROCEED" "t12" report r' Es) as (evs & He & Hv);
    [split; reflexivity|reflexivity|exact Hid|exact Hret|repeat constructor; discriminate|apply Nat.le_refl|repeat constructor|exact E|].
  exists r, report, r', evs. split; [exact E|]. split; [exact He|exact Hv].
Defined.

Lemma refreeze_keeps_reviews_witness : exists r c r2 report' r3, freeze "run" other_repo "t13" "t14" r = (Ok c, r2) /\
  tree_content_digest other_repo = Ok (candidate_tree_digest c) /\ release_report "PROCEED" "t12" r2 = (Ok report', r3).
Proof.
  destruct release_runs as (r0 & f0 & r & _ & _ & _ & Hr & Hp & Hf & _). unfold released in Hp. unfold refrozen in Hf.
  destruct (release_report "PROCEED" "t12" r) as [[report|x] r1] eqn:E; [|discriminate].
  destruct (freeze "run" other_repo "t13" "t14" r) as [[c|x] r2] eqn:Ef; [|discriminate].
  destruct (refreeze_keeps_reviews "run" flat_text r other_repo "t13" "t14" "t12" report r1 c r2 Hr)
    as (Ht & report' & r3 & D & tr & Hp' & _); [repeat constructor|exact E|exact Ef|].
  exists r, c, r2, report', r3. split; [exact Ef|]. split; [exact Ht|exact Hp'].
Defined.

Lemma modified_review_keeps_release_witness : exists r s r2 report' r3,
  end_review demo_lens other_repo "t13" "t14" r = (Raise (OrchestrationViolation s), r2) /\
  release_report "PROCEED" "t12" r2 = (Ok report', r3).
Proof.
  destruct release_runs as (r0 & f0 & r & _ & _ & _ & Hr & Hp & _ & Hm). unfold released in Hp. unfold modified in Hm.
  destruct (release_report "PROCEED" "t12" r) as [[report|x] r1] eqn:E; [|discriminate].
  destruct (assoc demo_lens (_snapshots r)) as [before|] eqn:Eb; [|discriminate].
  destruct (verify_unmodified other_repo before) as [[|changed rest]|x] eqn:Ev; try discriminate.
  destruct (modified_review_keeps_release "run" flat_text r demo_lens other_repo before changed rest "t13" "t14" "t12" report r1 Hr)
    as (s & r2 & report' & r3 & He & Hp'); [repeat constructor|exact Eb|exact Ev|exact E|].
  exists r, s, r2, report', r3. split; [exact He|exact Hp'].
Defined.
(** One tracked file whose content changed. *)
Lemma readonly_proof_exact_witness : exists problems,
  verify_unmodified other_repo [("app.py", sha256_hexdigest "x = 1")] = Ok problems /\
  (problems = [] -> [("app.py", "x = 1")] = [("app.py", "x = 2")] \/
    exists rel a b, (rel, a) ∈ [("app.py", "x = 1")] /\ (rel, b) ∈ [("app.py", "x = 2")] /\ a <> b /\
      sha256_hexdigest a = sha256_hexdigest b).
Proof.
  destruct (readonly_proof_exact demo_repo other_repo [("app.py", "x = 1")] [("app.py", "x = 2")]
              [("app.py", sha256_hexdigest "x = 1")]) as (problems & Hv & _ & Hn); [reflexivity..|].
  exists problems. split; [exact Hv|exact Hn].
Defined.

Lemma preview_round_trip_witness : exists text problems, record_preview_file demo_preview = Ok text /\
  verify_preview "preview.json" (Some text) "d" = Ok problems /\ problems = [].
Proof.
  destruct (record_preview_file demo_preview) as [text|x] eqn:E; [|discriminate].
  destruct (preview_round_trip demo_preview "preview.json" text "d") as (problems & Hv & Hi).
  - constructor; [reflexivity|reflexivity|repeat constructor|reflexivity|repeat constructor]; apply not_elem_of_nil.
  - exact E.
  - exists text, problems. split; [reflexivity|]. split; [exact Hv|]. apply Hi. split; [reflexivity|repeat constructor; discriminate].
Defined.
End Demo.
