(* ===== verification/Receipts.v ===== *)
(** * Admission receipts ([admission/receipts.py])

    A receipt says that the owner of a stage admitted an artifact for a subject;
    it is signed by a keyed fingerprint, stored once for each artifact and never
    replaced.  The store is the files of the ledger of receipts. *)
From Stdlib Require Import Ascii String.
From S2P Require Import Prelude Json JsonText Canonical PyStr JsonIndent Ledger JsonBytes FullstackContract.

Definition RECEIPT_SCHEMA_VERSION : string := "1.0.0".
Definition _FINGERPRINT_DOMAIN : string := "pmpe.artifact-admission.v1".
Definition _MAX_RECEIPT_BYTES : Z := 65536.

(** [_KIND] and [_DIGEST], both as [fullmatch]. *)
Definition _KIND (s : string) : bool :=
  match s with
  | String c rest => is_upper c && string_forallb (fun c => is_upper c || is_digit c || Ascii.eqb c "_") rest
                     && (1 <=? String.length rest)%nat && (String.length rest <=? 63)%nat
  | EmptyString => false
  end.

(** [value.encode("utf-8")] succeeds when there is no surrogate. *)
Definition _is_utf8 (value : string) : bool := forallb (fun cp => negb (is_surrogate cp)) (ords value).
Definition encode_utf8 (value : string) : res string :=
  if _is_utf8 value then Ok value else Raise (ValueError "surrogates not allowed").

Definition binding_ok (p : string * string) : bool :=
  nonempty (fst p) && nonempty (snd p) && _is_utf8 (fst p) && _is_utf8 (snd p).

Definition _validate_subject (artifact_kind artifact_digest : string) (subject_bindings : list (string * string))
    : res (list (string * string)) :=
  _ ← raise_if (negb (_KIND artifact_kind)) (AdmissionReceiptError "artifact kind is not a bounded canonical identifier");
  _ ← raise_if (negb (_is_digest (JStr artifact_digest))) (AdmissionReceiptError "artifact digest is not canonical SHA-256");
  _ ← raise_if ((match subject_bindings with [] => true | _ => false end) || negb (forallb binding_ok subject_bindings))
        (AdmissionReceiptError "subject bindings must be non-empty string pairs");
  Ok (sorted_items subject_bindings).

(** ** Receipts *)

Record AdmissionReceipt : Type := {
  schema_version : string; artifact_kind : string; artifact_digest : string; subject_bindings : list (string * string);
  key_version : string; fingerprint : string; receipt_digest : string
}.
#[export] Instance AdmissionReceipt_eq_dec : EqDecision AdmissionReceipt.
Proof. solve_decision. Defined.

Definition authority_payload (r : AdmissionReceipt) : dict := [
  ("artifact_digest", JStr (artifact_digest r)); ("artifact_kind", JStr (artifact_kind r));
  ("key_version", JStr (key_version r)); ("schema_version", JStr (schema_version r));
  ("subject_bindings", strs (sorted_items (subject_bindings r)))
]%string.
Definition unsigned_dict (r : AdmissionReceipt) : dict := authority_payload r ++ [("fingerprint"%string, JStr (fingerprint r))].
Definition as_dict (r : AdmissionReceipt) : dict := unsigned_dict r ++ [("receipt_digest"%string, JStr (receipt_digest r))].

(** [==] of receipts compares their bindings as dicts. *)
Definition in_order_of_keys (r : AdmissionReceipt) : AdmissionReceipt := {|
  schema_version := schema_version r; artifact_kind := artifact_kind r; artifact_digest := artifact_digest r;
  subject_bindings := sorted_items (subject_bindings r); key_version := key_version r; fingerprint := fingerprint r;
  receipt_digest := receipt_digest r |}.

(** A versioned keyed digest of the payload in a domain, and those of every key
    that is still trusted. *)
Record KeyedFingerprint : Type := { kf_version : string; kf_value : string }.
Record KeyedFingerprintProvider : Type := {
  provider_key_version : string; provider_fingerprint : string -> string -> string;
  candidate_fingerprints : string -> string -> list KeyedFingerprint
}.

Section Receipts.
Context `{Rfc8785} `{Unicode}.

(** [value[key]] of what [json.loads] gave. *)
Definition member (key : string) (value : json) : res json :=
  match value with JObj m => field key m | _ => Raise (TypeError "indices must be integers or slices") end.
Definition malformed_receipt (x : exn) : bool := is_ValueError x || match x with KeyError _ | TypeError _ => true | _ => false end.

Definition is_receipt_error (x : exn) : bool :=
  match x with AdmissionReceiptError _ | AdmissionReceiptConflictError _ => true | _ => false end.

Definition from_dict (value : json) : res AdmissionReceipt :=
  try_except (
    bindings ← member "subject_bindings" value;
    bindings ← match bindings with JObj m => Ok m | _ => Raise (TypeError "") end;
    version ← member "schema_version" value; kind ← member "artifact_kind" value; digest ← member "artifact_digest" value;
    key ← member "key_version" value; print ← member "fingerprint" value; own ← member "receipt_digest" value;
    Ok {| schema_version := py_str version; artifact_kind := py_str kind; artifact_digest := py_str digest;
          subject_bindings := map (fun p => (fst p, py_str (snd p))) bindings; key_version := py_str key;
          fingerprint := py_str print; receipt_digest := py_str own |})
    malformed_receipt (fun _ => Raise (AdmissionReceiptError "stored admission receipt is malformed")).

Definition digest_is_valid (r : AdmissionReceipt) : res bool :=
  try_except (expected ← canonical_digest (JObj (unsigned_dict r));
              Ok (_is_digest (JStr (receipt_digest r)) && String.eqb (receipt_digest r) expected))
    (fun x => is_ValueError x || match x with TypeError _ => true | _ => false end) (fun _ => Ok false).

(** [canonical_json_bytes(receipt.as_dict()) + b"\n"]. *)
Definition receipt_line (r : AdmissionReceipt) : res string := bytes ← canonical_json_bytes (JObj (as_dict r)); Ok (bytes +:+ eol).

Definition _load_canonical_receipt (payload : string) : res AdmissionReceipt :=
  try_except (
    value ← json_loads_bytes payload;
    receipt ← from_dict value;
    line ← receipt_line receipt;
    if String.eqb payload line then Ok receipt
    else Raise (AdmissionReceiptError "stored admission receipt is not canonical"))
    (fun x => negb (is_receipt_error x) && (is_ValueError x || match x with TypeError _ => true | _ => false end))
    (fun _ => Raise (AdmissionReceiptError "stored admission receipt is malformed")).

(** [any(...)] stops at the first candidate that agrees. *)
Fixpoint agrees (r : AdmissionReceipt) (candidates : list KeyedFingerprint) : res bool :=
  match candidates with
  | [] => Ok false
  | c :: rest =>
      if String.eqb (kf_version c) (key_version r) then
        value ← encode_utf8 (kf_value c); own ← encode_utf8 (fingerprint r);
        if String.eqb value own then Ok true else agrees r rest
      else agrees r rest
  end.
Definition _provider_verifies (provider : KeyedFingerprintProvider) (r : AdmissionReceipt) : res bool :=
  payload ← canonical_json_bytes (JObj (authority_payload r));
  agrees r (candidate_fingerprints provider _FINGERPRINT_DOMAIN payload).

(** ** The store *)

(** What a name of a kind's directory holds: the bytes of a regular file with one
    link, something else that can be opened, or what cannot (a symbolic link). *)
Inductive stored : Type := Regular (bytes : string) | Unsafe | Unopenable.
Abbreviation receipt_store := (gmap (string * string) stored).

Definition _filename (artifact_kind artifact_digest : string) : res string :=
  _ ← _validate_subject artifact_kind artifact_digest [("subject", "path-validation")]%string;
  Ok (drop_str 7 artifact_digest +:+ ".json").

(** [None]: there is no such file. *)
Definition _read (file : option stored) : res (option string) :=
  match file with
  | None => Ok None
  | Some Unsafe => Raise (AdmissionReceiptError "admission receipt is not a bounded regular file")
  | Some Unopenable => Raise (AdmissionReceiptError "admission receipt cannot be opened safely")
  | Some (Regular bytes) =>
      if _MAX_RECEIPT_BYTES <? Z.of_nat (String.length bytes)
      then Raise (AdmissionReceiptError "admission receipt is not a bounded regular file")
      else Ok (Some bytes)
  end.

Definition conflict (message : string) : res AdmissionReceipt := Raise (AdmissionReceiptConflictError message).

Definition _validated_replay (provider : KeyedFingerprintProvider) (payload kind digest : string)
    (bindings : list (string * string)) : res AdmissionReceipt :=
  stored ← try_except (_load_canonical_receipt payload)
    is_receipt_error (fun _ => conflict "artifact identity was claimed by unsafe authority evidence");
  let same := String.eqb (schema_version stored) RECEIPT_SCHEMA_VERSION && String.eqb (artifact_kind stored) kind
              && String.eqb (artifact_digest stored) digest
              && bool_decide (sorted_items (subject_bindings stored) = sorted_items bindings) in
  valid ← (if same then digest_is_valid stored else Ok false);
  attested ← (if (valid : bool) then _provider_verifies provider stored else Ok false);
  if (attested : bool) then Ok stored else conflict "artifact already has different authority evidence".

(** ** Admission *)

(** What goes wrong with the file system, and what another process puts at the
    target before the rename. *)
Inductive receipt_fault : Type := DirectoryFails | LockUnsafe | LockFails | WriteFails | RenameUnavailable | RenameFails | SyncFails.
Record receipt_io : Type := { fault : option receipt_fault; raced : option stored }.
#[export] Instance receipt_fault_eq_dec : EqDecision receipt_fault.
Proof. solve_decision. Defined.

Definition fails (io : receipt_io) (f : receipt_fault) : bool := bool_decide (fault io = Some f).
Definition not_persisted : exn := AdmissionReceiptError "admission receipt could not be persisted safely".

(** The receipt that the provider's current key signs. *)
Definition sign_receipt (provider : KeyedFingerprintProvider) (kind digest : string) (bindings : list (string * string))
    : res AdmissionReceipt :=
  let with_ print own := {| schema_version := RECEIPT_SCHEMA_VERSION; artifact_kind := kind; artifact_digest := digest;
    subject_bindings := bindings; key_version := provider_key_version provider; fingerprint := print; receipt_digest := own |} in
  payload ← canonical_json_bytes (JObj (authority_payload (with_ "" "")%string));
  let print := provider_fingerprint provider _FINGERPRINT_DOMAIN payload in
  own ← canonical_digest (JObj (unsigned_dict (with_ print ""%string)));
  Ok (with_ print own).

(** A new receipt and its line, within the limit and verified by its own provider. *)
Definition new_receipt (provider : KeyedFingerprintProvider) (kind digest : string) (bindings : list (string * string))
    : res (AdmissionReceipt * string) :=
  receipt ← sign_receipt provider kind digest bindings;
  line ← receipt_line receipt;
  _ ← raise_if (_MAX_RECEIPT_BYTES <? Z.of_nat (String.length line)) (AdmissionReceiptError "admission receipt exceeds its size limit");
  verified ← _provider_verifies provider receipt;
  _ ← raise_if (negb verified) (AdmissionReceiptError "current admission key is absent or inconsistent in the candidate set");
  Ok (receipt, line).

(** A file that was there before: the receipt in it, or a conflict. *)
Definition replay_stored (provider : KeyedFingerprintProvider) (io : receipt_io) (payload kind digest : string)
    (bindings : list (string * string)) : res AdmissionReceipt :=
  receipt ← _validated_replay provider payload kind digest bindings;
  _ ← raise_if (fails io SyncFails) not_persisted;
  Ok receipt.

(** The rename that does not replace: a file that another process put there wins. *)
Definition publish_receipt (provider : KeyedFingerprintProvider) (io : receipt_io) (key : string * string)
    (kind digest : string) (bindings : list (string * string)) (receipt : AdmissionReceipt) (line : string)
    : st receipt_store AdmissionReceipt :=
  if fails io WriteFails then raise_st not_persisted
  else if fails io RenameUnavailable then raise_st (AdmissionReceiptError "atomic no-replace publication is unavailable")
  else match raced io with
  | Some other =>
      _ ← modify_st (fun files => <[key := other]> files);
      match _read (Some other) with
      | Ok payload => lift_res (replay_stored provider io (default ""%string payload) kind digest bindings)
      | Raise x => lift_res (if is_receipt_error x then conflict "artifact identity was claimed by unsafe authority evidence" else Raise x)
      end
  | None =>
      if fails io RenameFails then raise_st not_persisted else
      _ ← modify_st (fun files => <[key := Regular line]> files);
      if fails io SyncFails then raise_st not_persisted else mret receipt
  end.

Definition admit_artifact (provider : KeyedFingerprintProvider) (io : receipt_io) (kind digest : string)
    (subject_bindings : list (string * string)) : st receipt_store AdmissionReceipt :=
  bindings ← lift_res (_validate_subject kind digest subject_bindings);
  target ← lift_res (_filename kind digest);
  if fails io DirectoryFails
  then raise_st (AdmissionReceiptError "admission ledger directory cannot be opened without following symlinks")
  else if fails io LockFails then raise_st not_persisted
  else if fails io LockUnsafe then raise_st (AdmissionReceiptError "admission receipt lock is not a safe regular file")
  else
    file ← get_st (fun files : receipt_store => files !! (kind, target));
    existing ← lift_res (_read file);
    match existing with
    | Some payload => lift_res (replay_stored provider io payload kind digest bindings)
    | None =>
        new ← lift_res (new_receipt provider kind digest bindings);
        publish_receipt provider io (kind, target) kind digest bindings (fst new) (snd new)
    end.

(** ** Verification *)

Definition unverifiable (x : exn) : bool :=
  is_ValueError x || is_OSError x || match x with AttributeError _ | TypeError _ => true | _ => false end.

Definition verify_admission (provider : KeyedFingerprintProvider) (files : receipt_store) (receipt : AdmissionReceipt)
    (kind digest : string) (subject_bindings_ : list (string * string)) : res bool :=
  try_except (
    bindings ← _validate_subject kind digest subject_bindings_;
    let same := String.eqb (schema_version receipt) RECEIPT_SCHEMA_VERSION && String.eqb (artifact_kind receipt) kind
                && String.eqb (artifact_digest receipt) digest
                && bool_decide (sorted_items (subject_bindings receipt) = bindings) in
    valid ← (if same then digest_is_valid receipt else Ok false);
    if negb (valid : bool) then Ok false else
    target ← _filename kind digest;
    file ← _read (files !! (kind, target));
    stored_bytes ← from_option_res file (OSError "No such file or directory");
    line ← receipt_line receipt;
    if negb (String.eqb stored_bytes line) then Ok false else
    stored ← _load_canonical_receipt stored_bytes;
    if bool_decide (in_order_of_keys stored = in_order_of_keys receipt) then _provider_verifies provider receipt else Ok false)
    unverifiable (fun _ => Ok false).
End Receipts.
