(* ===== verification/ReceiptTheorems.v ===== *)
(** * Admission receipts: theorems

    What [admit_artifact] returns is verified as long as its file stays, and an
    artifact has one receipt. *)
From Stdlib Require Import Ascii String.
From S2P Require Import Prelude Sha256 Json JsonText JsonSpec JsonFacts JsonAscii Canonical CanonicalFacts LedgerFacts PyStr TextFacts JsonIndent.
From S2P Require Import Ledger JsonBytes EngineeringLedgerFacts ControlLoadFacts FullstackContract Receipts.

(** ** Dicts in the order of their keys *)

Lemma sorted_again {V} (m : list (string * V)) : NoDup (map fst m) -> sorted_items (sorted_items m) = sorted_items m.
Proof. intros Hn. symmetry. apply sorted_items_unique; [done|]. by rewrite sorted_items_perm. Qed.

Lemma binding_keys kind digest b b' : _validate_subject kind digest b = Ok b' -> b' = sorted_items b.
Proof. unfold _validate_subject. intros E. simp_res. by subst. Qed.

Lemma payload_of_order r : NoDup (map fst (subject_bindings r)) -> authority_payload (in_order_of_keys r) = authority_payload r.
Proof. intros Hn. unfold authority_payload. cbn [in_order_of_keys subject_bindings]. by rewrite sorted_again. Qed.

(** An object of texts and of objects of texts. *)
Definition text_or_texts (v : json) : bool :=
  match v with JStr _ => true | JObj m => forallb (fun p => is_str (snd p)) m && bool_decide (NoDup (map fst m)) | _ => false end.
Definition texts_object (m : dict) : bool := forallb (fun p => text_or_texts (snd p)) m && bool_decide (NoDup (map fst m)).

Lemma receipt_texts r : NoDup (map fst (subject_bindings r)) -> texts_object (as_dict r) = true.
Proof.
  intros Hn. unfold texts_object, as_dict, unsigned_dict, authority_payload, strs. cbn [app forallb snd text_or_texts map fst].
  rewrite map_map. cbn [fst]. rewrite (bool_decide_eq_true_2 (NoDup (map (fun x => fst x) _))) by by apply sorted_keys.
  assert (forallb (fun p => is_str (snd p)) (map (fun p => (fst p, JStr (snd p))) (sorted_items (subject_bindings r))) = true) as ->.
  { induction (sorted_items (subject_bindings r)) as [|p m IH]; [done|exact IH]. }
  by rewrite bool_decide_eq_true_2 by decide_now.
Qed.

Section Theorems.
Context `{Rfc8785} `{Unicode}.

(** [json.loads] reads the bytes of [rfc8785.dumps] and a newline as the object
    that was written, its members in canonical order. *)
Hypothesis dumps_reads_line : forall m s, texts_object m = true -> rfc8785_dumps (JObj m) = Ok s ->
  json_loads_bytes (s +:+ eol) = Ok (jcanon (JObj m)).

(** ** The line of a receipt is read back *)

Lemma member_canonical k m v : NoDup (map fst m) -> assoc k m = Some v -> member k (jcanon (JObj m)) = Ok (jcanon v).
Proof.
  intros Hn Hk. cbn [jcanon member]. rewrite (sort_members_map jcanon m). unfold field.
  assert (assoc k (map (fun p => (fst p, jcanon (snd p))) (sort_members m)) = Some (jcanon v)) as ->; [|done].
  rewrite <- sort_members_assoc in Hk by done. revert Hk. generalize (sort_members m). intros l.
  induction l as [|[k' v'] l IH]; [done|]. cbn [assoc map fst snd]. destruct (String.eqb k k'); [by intros [= ->]|done].
Qed.

Lemma bindings_back (m : list (string * string)) :
  map (fun p => (fst p, py_str (snd p))) (sort_members (map (fun p => (fst p, jcanon (snd p))) (map (fun p => (fst p, JStr (snd p))) m))) ≡ₚ m.
Proof.
  rewrite sort_members_perm, !map_map. cbn [fst snd jcanon py_str]. induction m as [|[k v] m IH]; [done|]. cbn [map fst snd].
  by rewrite IH.
Qed.

Lemma read_back r : NoDup (map fst (subject_bindings r)) ->
  exists r', from_dict (jcanon (JObj (as_dict r))) = Ok r' /\ in_order_of_keys r' = in_order_of_keys r.
Proof.
  intros Hn. assert (Hk : NoDup (map fst (as_dict r))) by (cbn; decide_now). unfold from_dict.
  rewrite (member_canonical "subject_bindings" _ (strs (sorted_items (subject_bindings r))) Hk eq_refl).
  rewrite (member_canonical "schema_version" _ (JStr (schema_version r)) Hk eq_refl).
  rewrite (member_canonical "artifact_kind" _ (JStr (artifact_kind r)) Hk eq_refl).
  rewrite (member_canonical "artifact_digest" _ (JStr (artifact_digest r)) Hk eq_refl).
  rewrite (member_canonical "key_version" _ (JStr (key_version r)) Hk eq_refl).
  rewrite (member_canonical "fingerprint" _ (JStr (fingerprint r)) Hk eq_refl).
  rewrite (member_canonical "receipt_digest" _ (JStr (receipt_digest r)) Hk eq_refl).
  cbn -[sort_members map sorted_items]. eexists. split; [done|]. unfold in_order_of_keys.
  cbn [schema_version artifact_kind artifact_digest subject_bindings key_version fingerprint receipt_digest]. f_equal.
  pose proof (bindings_back (sorted_items (subject_bindings r))) as Hp. rewrite (sorted_items_perm (subject_bindings r)) in Hp at 2.
  symmetry. apply sorted_items_unique; [done|]. by symmetry.
Qed.

Lemma as_dict_order r r' : in_order_of_keys r = in_order_of_keys r' -> as_dict r = as_dict r'.
Proof. intros [=]. unfold as_dict, unsigned_dict, authority_payload. congruence. Qed.

Lemma loaded_line payload r : _load_canonical_receipt payload = Ok r -> receipt_line r = Ok payload.
Proof.
  unfold _load_canonical_receipt. intros [E|(x & _ & _ & [=])]%try_except_Ok. simp_res.
  match goal with E : (_ =? _)%string = true |- _ => apply String.eqb_eq in E; subst end. congruence.
Qed.

Lemma load_line r line : NoDup (map fst (subject_bindings r)) -> receipt_line r = Ok line ->
  exists r', _load_canonical_receipt line = Ok r' /\ in_order_of_keys r' = in_order_of_keys r.
Proof.
  intros Hn Hl. destruct (read_back r Hn) as (r' & Hr & Ho). exists r'. split; [|done]. unfold _load_canonical_receipt.
  assert (Hj : json_loads_bytes line = Ok (jcanon (JObj (as_dict r)))).
  { unfold receipt_line in Hl. apply bind_Ok in Hl as (s & Hs & [= <-]). by apply dumps_reads_line; [apply receipt_texts|]. }
  assert (Hl' : receipt_line r' = Ok line) by (unfold receipt_line in *; by rewrite (as_dict_order _ _ Ho)).
  rewrite Hj. cbn [mbind res_bind]. rewrite Hr. cbn [mbind res_bind]. rewrite Hl'. cbn [mbind res_bind].
  by rewrite String.eqb_refl.
Qed.

(** ** A receipt in its file *)

Record admitted_in (provider : KeyedFingerprintProvider) (payload kind digest : string) (bindings : list (string * string))
    (r : AdmissionReceipt) : Prop := {
  ad_line : receipt_line r = Ok payload;
  ad_size : (_MAX_RECEIPT_BYTES <? Z.of_nat (String.length payload)) = false;
  ad_loads : exists r', _load_canonical_receipt payload = Ok r' /\ in_order_of_keys r' = in_order_of_keys r;
  ad_subject : schema_version r = RECEIPT_SCHEMA_VERSION /\ artifact_kind r = kind /\ artifact_digest r = digest /\
    sorted_items (subject_bindings r) = bindings;
  ad_valid : digest_is_valid r = Ok true;
  ad_attested : _provider_verifies provider r = Ok true
}.

Lemma replay_admitted provider payload kind digest bindings r : sorted_items bindings = bindings ->
  (_MAX_RECEIPT_BYTES <? Z.of_nat (String.length payload)) = false ->
  _validated_replay provider payload kind digest bindings = Ok r ->
  _load_canonical_receipt payload = Ok r /\ admitted_in provider payload kind digest bindings r.
Proof.
  intros Hb Hs. unfold _validated_replay. intros (r' & [Hr|(x & _ & _ & [=])]%try_except_Ok & E)%bind_Ok.
  destruct (_ && _ && _ && _) eqn:Hsame; [|by simp_res; subst].
  apply bind_Ok in E as (valid & Hv & E). destruct valid; [|by simp_res; subst].
  apply bind_Ok in E as (attested & Ha & E). destruct attested; [|done]. injection E as <-. split; [done|].
  bool_simp. apply bool_decide_eq_true in H2.
  repeat match goal with E : (_ =? _)%string = true |- _ => apply String.eqb_eq in E end.
  constructor; try done; [by apply loaded_line|eauto|]. by rewrite H2.
Qed.

Lemma signed provider kind digest bindings r : sign_receipt provider kind digest bindings = Ok r ->
  schema_version r = RECEIPT_SCHEMA_VERSION /\ artifact_kind r = kind /\ artifact_digest r = digest /\
  subject_bindings r = bindings /\ digest_is_valid r = Ok true.
Proof.
  unfold sign_receipt. intros (payload & _ & (own & Ho & [= <-])%bind_Ok)%bind_Ok. split_and!; try done.
  unfold digest_is_valid. match type of Ho with ?m = _ => change (canonical_digest (JObj (unsigned_dict _))) with m end.
  cbn [receipt_digest]. rewrite Ho. cbn [mbind res_bind try_except]. rewrite String.eqb_refl, andb_true_r.
  unfold canonical_digest in Ho. apply bind_Ok in Ho as (b & _ & [= <-]). f_equal. apply sha256_is_digest.
Qed.

Lemma new_admitted provider kind digest bindings r line : NoDup (map fst bindings) -> sorted_items bindings = bindings ->
  new_receipt provider kind digest bindings = Ok (r, line) -> admitted_in provider line kind digest bindings r.
Proof.
  intros Hn Hb. unfold new_receipt. intros (r' & (Hs & Hk & Hd & Hbs & Hv)%signed & (line' & Hl & E)%bind_Ok)%bind_Ok.
  apply bind_Ok in E as ([] & Hsize%raise_if_Ok & (ver & Hver & ([] & Hyes%raise_if_Ok & [= -> ->])%bind_Ok)%bind_Ok).
  apply negb_false_iff in Hyes as ->. constructor; try done; [apply load_line; by rewrite ?Hbs|]. by rewrite Hbs.
Qed.

(** ** Admission and verification *)

Definition receipt_key (kind digest : string) : string * string := (kind, drop_str 7 digest +:+ ".json").

Lemma filename_key kind digest t : _filename kind digest = Ok t -> (kind, t) = receipt_key kind digest.
Proof. unfold _filename. by intros (b & _ & [= <-])%bind_Ok. Qed.

Lemma subject_named kind digest b : _validate_subject kind digest b = Ok (sorted_items b) -> exists t, _filename kind digest = Ok t.
Proof.
  unfold _filename, _validate_subject. intros E. simp_res. eexists.
  repeat match goal with E : ?b = false |- _ => rewrite E; clear E end. reflexivity.
Qed.

Lemma read_size file bytes : _read (Some file) = Ok (Some bytes) ->
  file = Regular bytes /\ (_MAX_RECEIPT_BYTES <? Z.of_nat (String.length bytes)) = false.
Proof. unfold _read. destruct file as [b| |]; [|done|done]. destruct (_ <? _) eqn:E; [done|]. by intros [= <-]. Qed.

Lemma replay_in provider io payload kind digest bindings r : sorted_items bindings = bindings ->
  (_MAX_RECEIPT_BYTES <? Z.of_nat (String.length payload)) = false ->
  replay_stored provider io payload kind digest bindings = Ok r ->
  _load_canonical_receipt payload = Ok r /\ admitted_in provider payload kind digest bindings r.
Proof.
  intros Hb Hs. unfold replay_stored. intros (r' & Hr & ([] & _ & [= ->])%bind_Ok)%bind_Ok. by apply replay_admitted.
Qed.

(** What a successful admission leaves. *)
Lemma admit_leaves provider io kind digest b files r files' : NoDup (map fst b) ->
  admit_artifact provider io kind digest b files = (Ok r, files') ->
  _validate_subject kind digest b = Ok (sorted_items b) /\
  exists payload, files' !! receipt_key kind digest = Some (Regular payload) /\
    admitted_in provider payload kind digest (sorted_items b) r.
Proof.
  intros Hn. unfold admit_artifact. destruct (_validate_subject kind digest b) as [b'|] eqn:Hv; [|done].
  pose proof (binding_keys _ _ _ _ Hv) as ->. rewrite lift_Ok_bind.
  destruct (_filename kind digest) as [t|] eqn:Ht; [|done]. apply filename_key in Ht. rewrite lift_Ok_bind.
  destruct (fails io DirectoryFails); [done|]. destruct (fails io LockFails); [done|]. destruct (fails io LockUnsafe); [done|].
  rewrite get_bind, Ht. assert (Hs := sorted_again b Hn). assert (Hns : NoDup (map fst (sorted_items b))) by by rewrite sorted_items_perm.
  intros E. split; [done|]. destruct (_read (files !! receipt_key kind digest)) as [[payload|]|] eqn:Hr; [| |done].
  - rewrite lift_Ok_bind in E. destruct (files !! receipt_key kind digest) as [file|] eqn:Hf; [|done].
    apply read_size in Hr as [-> Hsize]. destruct (replay_stored _ _ _ _ _ _) as [r'|] eqn:Hrep; [|done]. injection E as <- <-.
    exists payload. split; [done|]. by apply replay_in in Hrep as [_ ?].
  - rewrite lift_Ok_bind in E. destruct (new_receipt _ _ _ _) as [[new line]|] eqn:Hnew; [|done]. rewrite lift_Ok_bind in E.
    cbn [fst snd] in E. unfold publish_receipt in E. destruct (fails io WriteFails); [done|]. destruct (fails io RenameUnavailable); [done|].
    destruct (raced io) as [other|].
    + destruct (_read (Some other)) as [[payload|]|x] eqn:Ho; [|by destruct other; cbn in Ho; [case_match| |]|].
      * cbn [default] in E. apply read_size in Ho as [-> Hsize].
        destruct (replay_stored _ _ _ _ _ _) as [r'|] eqn:Hrep; [|done]. injection E as <- <-. exists payload.
        split; [apply lookup_insert_eq|]. by apply replay_in in Hrep as [_ ?].
      * by destruct (is_receipt_error x).
    + destruct (fails io RenameFails); [done|]. destruct (fails io SyncFails); [done|]. injection E as <- <-. exists line.
      split; [apply lookup_insert_eq|]. by apply new_admitted.
Qed.

Lemma verify_stored provider files kind digest b payload r : _validate_subject kind digest b = Ok (sorted_items b) ->
  NoDup (map fst b) -> files !! receipt_key kind digest = Some (Regular payload) ->
  admitted_in provider payload kind digest (sorted_items b) r -> verify_admission provider files r kind digest b = Ok true.
Proof.
  intros Hv Hn Hf [Hl Hsize (r' & Hload & Ho) (Hs & Hk & Hd & Hb) Hval Hatt]. unfold verify_admission. rewrite Hv.
  cbn [mbind res_bind]. rewrite Hs, Hk, Hd, !String.eqb_refl, bool_decide_eq_true_2 by done. cbn [andb]. rewrite Hval.
  cbn [mbind res_bind negb]. destruct (subject_named _ _ _ Hv) as [t Ht]. rewrite Ht. cbn [mbind res_bind].
  rewrite (filename_key _ _ _ Ht), Hf. cbn [_read]. rewrite Hsize. cbn [mbind res_bind from_option_res]. rewrite Hl.
  cbn [mbind res_bind]. rewrite String.eqb_refl. cbn [negb]. rewrite Hload. cbn [mbind res_bind].
  by rewrite bool_decide_eq_true_2, Hatt by done.
Qed.

(** C18. A receipt that [admit_artifact] returned is verified, for the artifact and
    the subject it was asked for, in every later state of the store in which its
    file is what it was. *)
Theorem admitted_receipts_verify provider io kind digest b files r files' later : NoDup (map fst b) ->
  admit_artifact provider io kind digest b files = (Ok r, files') ->
  later !! receipt_key kind digest = files' !! receipt_key kind digest ->
  verify_admission provider later r kind digest b = Ok true.
Proof.
  intros Hn (Hv & payload & Hf & Ha)%admit_leaves Hlater; [|done]. eapply verify_stored; [done|done|by rewrite Hlater|done].
Qed.

(** C17. An artifact has one receipt: after an admission, another one of the same
    artifact, by whatever authority and whatever goes wrong, writes nothing, and
    returns the same receipt for the same subject, or raises. *)
Theorem one_receipt_per_artifact provider io provider' io' kind digest b b' files r files1 files2 x files3 :
  NoDup (map fst b) -> NoDup (map fst b') ->
  admit_artifact provider io kind digest b files = (Ok r, files1) ->
  files2 !! receipt_key kind digest = files1 !! receipt_key kind digest ->
  admit_artifact provider' io' kind digest b' files2 = (x, files3) ->
  files3 = files2 /\ forall r', x = Ok r' -> in_order_of_keys r' = in_order_of_keys r /\ sorted_items b' = sorted_items b.
Proof.
  intros Hn Hn' (Hv & payload & Hf & Ha)%admit_leaves Hsame E; [|done]. rewrite Hf in Hsame. unfold admit_artifact in E.
  destruct (_validate_subject kind digest b') as [bs|] eqn:Hv'; [|by injection E as <- <-].
  pose proof (binding_keys _ _ _ _ Hv') as ->. rewrite lift_Ok_bind in E.
  destruct (subject_named _ _ _ Hv') as [t Ht]. rewrite Ht, lift_Ok_bind in E. apply filename_key in Ht.
  destruct (fails io' DirectoryFails); [by injection E as <- <-|]. destruct (fails io' LockFails); [by injection E as <- <-|].
  destruct (fails io' LockUnsafe); [by injection E as <- <-|]. rewrite get_bind, Ht, Hsame in E.
  cbn [_read] in E. rewrite (ad_size _ _ _ _ _ _ Ha), lift_Ok_bind in E. injection E as <- <-. split; [done|].
  intros r' [Hl Ha']%replay_in; [|by apply sorted_again|apply Ha].
  destruct (ad_loads _ _ _ _ _ _ Ha) as (r0 & Hl0 & Ho). rewrite Hl in Hl0. injection Hl0 as <-. split; [done|].
  destruct (ad_subject _ _ _ _ _ _ Ha) as (_ & _ & _ & <-). destruct (ad_subject _ _ _ _ _ _ Ha') as (_ & _ & _ & <-).
  by injection Ho.
Qed.
End Theorems.

(** ** A concrete store *)

(** An encoder whose texts are read back, and a provider with one key. *)
#[local] Instance document_encoder : Rfc8785 := {|
  rfc8785_dumps v := if JsonAscii.readable (jcanon v) then Ok (dumps_indented false 0 (jcanon v))
                     else Raise (CanonicalizationError "outside of the encoder's domain") |}.
#[local] Instance plain_unicode : Unicode := {| isprintable _ := true; isalnum _ := true; decimal _ := None |}.

Lemma encoder_reads_line m s : texts_object m = true -> rfc8785_dumps (JObj m) = Ok s ->
  json_loads_bytes (s +:+ eol) = Ok (jcanon (JObj m)).
Proof.
  intros _. cbn [rfc8785_dumps document_encoder]. destruct (JsonAscii.readable (jcanon (JObj m))) eqn:Hr; [|done]. intros [= <-].
  assert (Hd : document (dumps_indented false 0 (jcanon (JObj m)) +:+ eol) = true) by by rewrite document_app, dumps_document.
  pose proof (read_back_document false _ Hr) as E. rewrite read_document in E by done. rewrite loads_document by done. exact E.
Qed.

Section Demo.
Local Open Scope string_scope.

Definition demo_provider : KeyedFingerprintProvider := {|
  provider_key_version := "k1"; provider_fingerprint _ _ := "signed";
  candidate_fingerprints _ _ := [{| kf_version := "k0"; kf_value := "old" |}; {| kf_version := "k1"; kf_value := "signed" |}] |}.
Definition calm_io : receipt_io := {| fault := None; raced := None |}.
Definition demo_digest : string := "sha256:" +:+ string_of_list_ascii (repeat "a"%char 64).
Definition demo_bindings : list (string * string) := [("plan", "p1"); ("commit", "c1")].
Abbreviation demo_admission files := (admit_artifact demo_provider calm_io "RED_TEST" demo_digest demo_bindings files).

Lemma demo_admits : exists r files, demo_admission ∅ = (Ok r, files).
Proof.
  assert (E : is_ok (fst (demo_admission ∅)) = true) by (vm_compute; reflexivity).
  destruct (demo_admission ∅) as [[r|x] files]; [by exists r, files|discriminate].
Qed.

Lemma admitted_receipts_verify_witness : exists r files, demo_admission ∅ = (Ok r, files) /\
  verify_admission demo_provider files r "RED_TEST" demo_digest demo_bindings = Ok true.
Proof.
  destruct demo_admits as (r & files & E). exists r, files. split; [exact E|].
  apply (admitted_receipts_verify encoder_reads_line demo_provider calm_io "RED_TEST" demo_digest demo_bindings ∅ r files files);
    [decide_now|exact E|reflexivity].
Defined.

Lemma one_receipt_per_artifact_witness : exists r files x files',
  demo_admission ∅ = (Ok r, files) /\
  admit_artifact demo_provider {| fault := None; raced := Some Unsafe |} "RED_TEST" demo_digest [("plan", "p2")] files = (x, files') /\
  files' = files.
Proof.
  destruct demo_admits as (r & files & E).
  destruct (admit_artifact demo_provider {| fault := None; raced := Some Unsafe |} "RED_TEST" demo_digest [("plan", "p2")] files)
    as [x files'] eqn:E'.
  exists r, files, x, files'. split; [exact E|]. split; [exact E'|].
  apply (one_receipt_per_artifact encoder_reads_line demo_provider calm_io demo_provider {| fault := None; raced := Some Unsafe |}
           "RED_TEST" demo_digest demo_bindings [("plan", "p2")] ∅ r files files x files'); [decide_now|decide_now|exact E|reflexivity|exact E'].
Defined.
End Demo.
