(* ===== verification/Submissions.v ===== *)
(** * Routing, submissions and risk

    The gates that what an agent proposes has to pass: the routing decision
    ([agents/router.py]), which is accepted when every task goes to the one
    specialist that owns its capability and no specialist is selected without
    work; the validators of the artifacts ([engineering/submissions.py]), each of
    which gives the list of its objections; and the table of risk levels
    ([policies/engine.py]), which fails closed. *)
From Stdlib Require Import Ascii String.
From S2P Require Import Prelude Json JsonText JsonFacts PyStr PyConv Trajectory TrajectoryFacts FullstackContract FullstackGates.

(** ** Capabilities *)

Definition SPECIALIST_PROFILES : list (string * string) := [
  ("backend", "v2-backend-engineer"); ("frontend", "frontend-engineer"); ("data", "data-migration-engineer");
  ("eval", "eval-engineer"); ("security", "security-engineer"); ("platform", "platform-reliability-engineer");
  ("test", "v2-test-engineer")
]%string.
Definition ALL_PROFILES : list string := sorted_set (map snd SPECIALIST_PROFILES).

Abbreviation registry := (list (string * AgentDefinition)).

Section Routing.
Context `{Unicode}.

(** [value.get(key, default)] and [value[key]]. *)
Definition get_or (key : string) (default : json) (value : json) : res json :=
  match value with
  | JObj m => Ok (match assoc key m with Some v => v | None => default end)
  | _ => Raise (AttributeError "object has no attribute 'get'")
  end.
Definition item_at (key : string) (value : json) : res json :=
  match value with JObj m => field key m | _ => Raise (TypeError "indices must be integers or slices") end.

(** [list(routing.get(key, []))]. *)
Definition entries (key : string) (routing : dict) : res (list json) :=
  iterate (match assoc key routing with Some v => v | None => JArr [] end).

Record selection : Type := { sel_agent : string; sel_tasks : list string; sel_reason : string }.
Definition read_selection (entry : json) : res selection :=
  agent ← get_or "agent" (JStr "") entry;
  tasks ← get_or "tasks" (JArr []) entry; tasks ← iterate tasks;
  reason ← get_or "reason" (JStr "") entry;
  Ok {| sel_agent := py_str agent; sel_tasks := map py_str tasks; sel_reason := strip (py_str reason) |}.

Definition assign (agent : string) (assigned : list (string * string)) (task_id : string) : res (list (string * string)) :=
  match assoc task_id assigned with
  | Some other => Raise (RoutingError ("task " +:+ task_id +:+ " assigned to both " +:+ other +:+ " and " +:+ agent))
  | None => Ok (assigned ++ [(task_id, agent)])
  end.

(** One selected entry: the assignments so far, and the selections without tasks. *)
Definition select (agents : registry) (state : list (string * string) * list string) (entry : json)
    : res (list (string * string) * list string) :=
  s ← read_selection entry;
  let agent := sel_agent s in
  _ ← raise_if (negb (has_key agent agents))
        (RoutingError ("selected specialist '" +:+ agent +:+ "' has no agent definition — create .claude/agents/" +:+ agent
                       +:+ ".md before routing work to it"));
  _ ← raise_if (negb (nonempty (sel_reason s))) (RoutingError ("selected specialist '" +:+ agent +:+ "' has no justification"));
  assigned ← res_foldM (assign agent) (fst state) (sel_tasks s);
  Ok (assigned, match sel_tasks s with [] => snd state ++ [agent] | _ => snd state end).

Definition task_ids (tasks : list json) : res (list (string * json)) :=
  named ← res_mapM (fun t => id ← item_at "id" t; Ok (py_str id, t)) tasks;
  Ok (foldl (fun m p => assoc_set (fst p) (snd p) m) [] named).

Definition capability_of (by_id : list (string * json)) (task_id : string) : res string :=
  task ← from_option_res (assoc task_id by_id) (KeyError task_id);
  capability ← get_or "required_capability" (JStr "") task; Ok (py_str capability).

Definition check_owner (by_id : list (string * json)) (assignment : string * string) : res unit :=
  let (task_id, agent) := assignment in
  capability ← capability_of by_id task_id;
  match assoc capability SPECIALIST_PROFILES with
  | None => Raise (RoutingError ("task " +:+ task_id +:+ " needs unknown capability '" +:+ capability +:+ "'"))
  | Some owner =>
      raise_if (negb (String.eqb owner agent))
        (RoutingError ("task " +:+ task_id +:+ " needs capability '" +:+ capability +:+ "' owned by " +:+ owner
                       +:+ ", but was routed to " +:+ agent))
  end.

(** [str(e.get("agent"))]. *)
Definition name_of (entry : json) : res string := v ← get_or "agent" JNull entry; Ok (py_str v).
Definition explanation (entry : json) : res (option string) :=
  reason ← get_or "reason" (JStr "") entry;
  if nonempty (strip (py_str reason)) then name ← name_of entry; Ok (Some name) else Ok None.

Definition refuse_any (message : string) (l : list string) : res unit :=
  match l with [] => Ok tt | _ => Raise (RoutingError (message +:+ join ", " l)) end.

Definition validate_routing (tasks : list json) (routing : dict) (agents : registry) : res unit :=
  selected ← entries "selected" routing;
  not_selected ← entries "not_selected" routing;
  state ← res_foldM (select agents) ([], []) selected;
  let (assigned, empty_selections) := (state : list (string * string) * list string) in
  by_id ← task_ids tasks;
  _ ← refuse_any "unrouted task(s): " (sorted_set (minus (map fst by_id) (map fst assigned)));
  _ ← refuse_any "routing references unknown task(s): " (sorted_set (minus (map fst assigned) (map fst by_id)));
  _ ← refuse_any "selected specialist(s) with no assigned tasks — violates minimum routing: " empty_selections;
  _ ← res_mapM (check_owner by_id) assigned;
  names ← res_mapM name_of selected;
  explained ← res_mapM explanation not_selected;
  refuse_any "not_selected must explain why each unused profile is unnecessary; missing: "
    (sorted_set (minus ALL_PROFILES (names ++ omap id explained))).

End Routing.

(** ** Risk *)

Inductive RiskLevel : Type := LOW | MEDIUM | HIGH.
Record PolicyRule : Type := { rule_id : string; decision_type : string; level : RiskLevel; justification : string }.
Definition _rule i t l j : PolicyRule := {| rule_id := i; decision_type := t; level := l; justification := j |}.

Definition _DEFAULT_RULES : list PolicyRule := [
  _rule "POL-001" "validation.contradiction" HIGH "Contradictory product requirements: only the PM can decide which side wins.";
  _rule "POL-002" "validation.missing_product_decision" HIGH "A required product decision is absent from the spec.";
  _rule "POL-003" "validation.unclear_acceptance_criteria" HIGH
    "An acceptance criterion cannot be expressed as a verifiable assertion.";
  _rule "POL-004" "validation.activity_only_nsm" HIGH "The North Star Metric measures activity, not an outcome.";
  _rule "POL-005" "architecture.irreversible_choice" HIGH "Irreversible architecture choices require human sign-off.";
  _rule "POL-006" "deployment.production_target" HIGH
    "Production deployment carries material risk and V1 has no production adapter.";
  _rule "POL-007" "fix.unresolvable_test_failure" HIGH "Failing checks the fix agent cannot safely resolve need an engineer.";
  _rule "POL-008" "data.destructive_migration" HIGH "Possible data loss; out of V1 scope entirely.";
  _rule "POL-009" "implementation.auth_token" MEDIUM
    "Auth work is security-sensitive but explicitly required by the spec (capability auth.bearer_token); templates use env-injected tokens with constant-time compare, and the security gate re-checks the result.";
  _rule "POL-010" "architecture.storage_choice" MEDIUM
    "Storage choice follows the declared data model and stack; reversible, logged.";
  _rule "POL-011" "codegen.crud_endpoint" LOW "Mechanical template expansion of a spec capability.";
  _rule "POL-012" "deployment.local" LOW "Local process deployment in an isolated workspace; fully reversible.";
  _rule "POL-013" "review.safe_autofix" LOW "Allow-listed formatting-level fix; all gates re-run afterwards."
]%string.
Definition _DEFAULT : PolicyRule :=
  _rule "POL-DEFAULT" "*" HIGH "Unknown decision type: fail closed until an explicit policy rule is admitted.".

(** [{r.decision_type: r for r in rules}]: a later rule for a type replaces it. *)
Definition rules_by_type (rules : list PolicyRule) : list (string * PolicyRule) :=
  foldl (fun m r => assoc_set (decision_type r) r m) [] rules.

Record PolicyDecision : Type := { pd_decision_type : string; pd_level : RiskLevel; pd_rule_id : string; pd_justification : string }.
Definition classify (rules : list PolicyRule) (type : string) : PolicyDecision :=
  let rule := default _DEFAULT (assoc type (rules_by_type rules)) in
  {| pd_decision_type := type; pd_level := level rule; pd_rule_id := rule_id rule; pd_justification := justification rule |}.
Definition requires_approval (l : RiskLevel) : bool := match l with HIGH => true | _ => false end.

(** ** Submissions *)

Definition _SEVERITIES : list string := ["low"; "medium"; "high"; "critical"]%string.
Definition _PRODUCT_BOUNDARY_KEYS : list string :=
  ["scope_changes"; "acceptance_criteria_changes"; "requirement_changes"; "metric_changes"]%string.
Definition _boundary_errors (data : dict) (agent : string) : list string :=
  map (fun key => agent +:+ " output contains '" +:+ key
                  +:+ "' — product changes are ProductChangeRequests, never agent output (PD-03/PD-04)")
    (List.filter (fun key => has_key key data) _PRODUCT_BOUNDARY_KEYS).

(** [data.get(key, default)] of a dict. *)
Definition dget (key : string) (default : json) (data : dict) : json :=
  match assoc key data with Some v => v | None => default end.

(** [set(v)], the elements as they come; membership is [==]. *)
Definition hashed (l : list json) : res (list json) :=
  _ ← raise_if (negb (forallb hashable l)) (TypeError "unhashable type"); Ok l.
Definition py_set (v : json) : res (list json) := l ← iterate v; hashed l.
Definition in_set (x : json) (s : list json) : bool := existsb (py_eq x) s.
Definition difference (a b : list json) : list json := List.filter (fun x => negb (in_set x b)) a.

(** [", ".join(sorted(s))]: any element that is no text is a [TypeError]. *)
Definition as_member (v : json) : res string := from_option_res (as_str v) (TypeError "sequence item: expected str instance").
Definition joined (s : list json) : res string := names ← res_mapM as_member s; Ok (join ", " (sorted_set names)).

(** [data.get(key) or []]. *)
Definition or_empty (v : json) : json := if truthy v then v else JArr [].
Definition objections {A} (f : A -> res (list string)) (l : list A) : res (list string) :=
  found ← res_mapM f l; Ok (List.concat found).
Definition object_if (b : bool) (message : string) : list string := if b then [message] else [].

Section Submissions.
Context `{Unicode} `{Lower}.

(** [not str(v.get(key, default)).strip()]. *)
Definition blank (v : json) : bool := negb (nonempty (strip (py_str v))).

Definition validate_routing_submission (data context : dict) (agents : registry) : res (list string) :=
  tasks ← iterate (dget "tasks" (JArr []) context);
  match validate_routing tasks data agents with
  | Ok _ => Ok []
  | Raise (RoutingError message) => Ok [message]
  | Raise x => Raise x
  end.

(** *** Architecture packs *)

Definition digest_objection (claims expected : json) (what expects after : string) : list string :=
  object_if (negb (py_eq claims expected)) (what +:+ py_repr claims +:+ expects +:+ py_repr expected +:+ after).

Definition component_objections (requirement_ids : list json) (component : json) : res (list string) :=
  justifying ← get_or "justifying_requirements" (JArr []) component; justifying ← py_set justifying;
  name ← get_or "name" JNull component;
  match justifying with
  | [] => Ok ["component '" +:+ py_str name +:+ "' names no justifying requirement"]
  | _ =>
      match requirement_ids, difference justifying requirement_ids with
      | _ :: _, (_ :: _) as unknown =>
          unknown ← joined unknown;
          Ok ["component '" +:+ py_str name +:+ "' cites unknown requirement(s): " +:+ unknown]
      | _, _ => Ok []
      end
  end%string.

Definition adr_objections (escalation_count : nat) (adr : json) : res (list string) :=
  id ← get_or "id" (JStr "?") adr;
  missing ← objections (fun key => v ← get_or key (JStr "") adr;
                           Ok (object_if (blank v) ("ADR " +:+ py_str id +:+ " missing '" +:+ key +:+ "'")))
              ["id"; "title"; "context"; "decision"; "consequences"; "reversibility"]%string;
  reversibility ← get_or "reversibility" JNull adr;
  Ok (missing ++ object_if (py_eq reversibility (JStr "irreversible") && (escalation_count =? 0)%nat)
        ("ADR " +:+ py_str id +:+ " is irreversible with no escalation — irreversible choices require human sign-off (PD-04)")).

Definition py_len (v : json) : res nat :=
  match v with
  | JStr s => Ok (length (ords s))
  | JArr l => Ok (length l)
  | JObj m => Ok (length m)
  | _ => Raise (TypeError "object has no len()")
  end.

Definition validate_architecture_pack (data context : dict) : res (list string) :=
  let expected_digest := dget "contract_digest" (JStr "") context in
  requirement_ids ← py_set (dget "requirement_ids" (JArr []) context);
  components ← iterate (or_empty (jget "components" data));
  about_components ← objections (component_objections requirement_ids) components;
  let adrs := or_empty (jget "adrs" data) in
  escalation_count ← py_len (or_empty (jget "escalations" data));
  adrs ← iterate adrs;
  about_adrs ← objections (adr_objections escalation_count) adrs;
  Ok (_boundary_errors data "architect"
      ++ digest_objection (jget "contract_digest" data) expected_digest "architecture pack binds contract " ", expected " ""
      ++ object_if (bool_decide (components = [])) "architecture pack has no components" ++ about_components
      ++ object_if (bool_decide (adrs = [])) "architecture pack has no ADRs" ++ about_adrs).

(** *** Plans *)

Definition task_objections (components : list json) (task : json) : res (list string) :=
  id ← get_or "id" (JStr "?") task; let task_id := py_str id in
  missing ← objections (fun key => v ← get_or key JNull task;
                           Ok (object_if (negb (truthy v)) ("task " +:+ task_id +:+ " missing '" +:+ key +:+ "'")))
              ["id"; "requirement_ids"; "component"; "behavioural_test"; "rollback"; "required_capability"]%string;
  covers ← get_or "requirement_ids" (JArr []) task; _ ← py_set covers;
  component ← get_or "component" JNull task;
  _ ← raise_if (negb (bool_decide (components = [])) && negb (hashable component)) (TypeError "unhashable type");
  capability ← get_or "required_capability" (JStr "") task; let capability := py_str capability in
  Ok (missing
      ++ object_if (negb (bool_decide (components = [])) && negb (in_set component components))
           ("task " +:+ task_id +:+ " references component '" +:+ py_str component +:+ "' not in the architecture pack")
      ++ object_if (nonempty capability && negb (has_key capability SPECIALIST_PROFILES))
           ("task " +:+ task_id +:+ " needs unknown capability '" +:+ capability +:+ "'")).
Definition task_covers (task : json) : res (list json) := covers ← get_or "requirement_ids" (JArr []) task; py_set covers.

Definition validate_plan (data context : dict) : res (list string) :=
  let expected_digest := dget "contract_digest" (JStr "") context in
  components ← py_set (dget "components" (JArr []) context);
  tasks ← iterate (or_empty (jget "tasks" data));
  about_tasks ← objections (task_objections components) tasks;
  covered ← res_mapM task_covers tasks;
  required ← py_set (dget "requirement_ids" (JArr []) context);
  uncovered ← (match difference required (List.concat covered) with
               | [] => Ok []
               | missing => missing ← joined missing; Ok ["plan does not cover requirement(s): " +:+ missing]
               end)%string;
  Ok (_boundary_errors data "planner"
      ++ digest_objection (jget "contract_digest" data) expected_digest "plan binds contract " ", expected " ""
      ++ object_if (bool_decide (tasks = [])) "plan has no tasks" ++ about_tasks ++ uncovered).

(** *** Results of specialists *)

(** [str.split()]. *)
Fixpoint words_from (word : list N) (cps : list N) : list string :=
  let close := match word with [] => [] | _ => [utf8_encode_all word] end in
  match cps with
  | [] => close
  | cp :: rest => if is_space cp then close ++ words_from [] rest else words_from (word ++ [cp]) rest
  end.
Definition words (s : string) : list string := words_from [] (ords s).

Definition isdecimal (s : string) : bool :=
  nonempty s && forallb (fun cp => match digit_value cp with Some _ => true | None => false end) (ords s).
(** [w.isdecimal() and int(w) > 0]. *)
Definition positive_count (w : string) : res bool :=
  if isdecimal w then n ← as_int (JStr w); Ok (0 <? n) else Ok false.
Definition successful (results : string) : res bool :=
  let result := lower (strip results) in
  if str_in result ["passed"; "ok"; "green"; "all green"; "success"; "succeeded"]%string then Ok true
  else match words result with
       | [count; outcome] => positive ← positive_count count; Ok (positive && String.eqb outcome "passed")
       | _ => Ok false
       end.

Definition missing_keys (what : string) (keys : list string) (data : dict) : list string :=
  flat_map (fun key => object_if (negb (truthy (jget key data))) (what +:+ " missing '" +:+ key +:+ "'")) keys.

Definition validate_specialist_result (data context : dict) : res (list string) :=
  assigned ← py_set (dget "assigned_tasks" (JArr []) context);
  let task := jget "task_id" data in
  _ ← raise_if (negb (hashable task)) (TypeError "unhashable type");
  proved ← successful (py_str (dget "results" (JStr "") data));
  Ok (_boundary_errors data "specialist"
      ++ missing_keys "specialist result" ["task_id"; "commits"; "tests_run"]%string data
      ++ object_if (negb (in_set task assigned)) ("specialist reported task '" +:+ py_str task +:+ "' outside its assignment")
      ++ object_if (negb proved) "specialist result does not prove successful mandatory checks").

Definition checks_run (data : dict) : res (list string) :=
  checks ← iterate (or_empty (jget "tests_run" data)); Ok (map (fun check => lower (strip (py_str check))) checks).
Definition _require_named_checks (data : dict) (agent : string) (required : list string) : res (list string) :=
  observed ← checks_run data;
  match sorted_set (minus required observed) with
  | [] => Ok []
  | missing => Ok [(agent +:+ " result is missing required check(s): " +:+ join ", " missing)%string]
  end.

(** The common part, the objections of the profile, and the named checks. *)
Definition validate_frontend_result (data context : dict) : res (list string) :=
  errors ← validate_specialist_result data context;
  named ← _require_named_checks data "frontend" ["component"; "accessibility"; "typecheck"; "build"]%string;
  Ok (errors ++ object_if (negb (truthy (jget "changed_paths" data))) "frontend result names no changed paths" ++ named).
Definition validate_data_migration_result (data context : dict) : res (list string) :=
  errors ← validate_specialist_result data context;
  named ← _require_named_checks data "data migration" ["upgrade"; "downgrade"; "idempotency"; "partial-failure recovery"]%string;
  Ok (errors ++ object_if (negb (py_eq (jget "rollback_evidence" data) (JStr "verified")))
                  "data migration result lacks verified rollback evidence" ++ named).
Definition validate_eval_result (data context : dict) : res (list string) :=
  errors ← validate_specialist_result data context;
  named ← _require_named_checks data "eval" ["positive"; "planted-negative"; "boundary"; "tamper"]%string;
  Ok (errors ++ named).
Definition validate_security_result (data context : dict) : res (list string) :=
  errors ← validate_specialist_result data context;
  checks ← checks_run data;
  named ← _require_named_checks data "security" ["planted exploit"; "regression"; "bandit"]%string;
  Ok (errors ++ object_if (blank (dget "residual_risk" (JStr "") data)) "security result lacks a residual-risk statement"
      ++ object_if (str_in "live credential probe" checks) "security result attempted prohibited live credential access" ++ named).
Definition validate_platform_result (data context : dict) : res (list string) :=
  errors ← validate_specialist_result data context;
  checks ← checks_run data;
  named ← _require_named_checks data "platform" ["failure"; "recovery"; "idempotency"; "resource-limit"]%string;
  Ok (errors ++ object_if (negb (py_eq (jget "rollback_evidence" data) (JStr "verified")))
                  "platform result lacks verified rollback evidence"
      ++ object_if (str_in "production deployment" checks) "platform result attempted a prohibited production deployment" ++ named).

(** *** Integrations, reviews and fixes *)

Definition validate_integration_result (data _context : dict) : res (list string) :=
  Ok (_boundary_errors data "integration"
      ++ missing_keys "integration result" ["integrated_branches"; "checks_run"; "candidate_digest"]%string data
      ++ flat_map (fun forbidden => object_if (has_key forbidden data)
           ("integration result contains '" +:+ forbidden
            +:+ "' — the Integration Engineer does not approve the candidate (PD-06)"))
           ["approval"; "recommendation"; "verdict"]%string).

Definition finding_objections (finding : json) : res (list string) :=
  title ← get_or "title" (JStr "?") finding; let title := py_str title in
  severity ← get_or "severity" (JStr "") finding;
  missing ← objections (fun key => v ← get_or key (JStr "") finding;
                           Ok (object_if (blank v) ("finding '" +:+ title +:+ "' missing '" +:+ key +:+ "' — evidence is mandatory")))
              ["evidence"; "failure_mechanism"; "file"; "title"]%string;
  m ← as_object finding;
  Ok (object_if (negb (str_in (py_str severity) _SEVERITIES)) ("finding '" +:+ title +:+ "' has invalid severity")
      ++ missing ++ object_if (negb (has_key "blocking" m)) ("finding '" +:+ title +:+ "' missing 'blocking'")).

Definition validate_review_output (data context : dict) : res (list string) :=
  let expected_reviewer := dget "reviewer" (JStr "") context in
  findings ← iterate (or_empty (jget "findings" data));
  about_findings ← objections finding_objections findings;
  Ok (_boundary_errors data "reviewer"
      ++ object_if (truthy expected_reviewer && negb (py_eq (jget "reviewer" data) expected_reviewer))
           ("review claims reviewer '" +:+ py_str (jget "reviewer" data) +:+ "', expected '" +:+ py_str expected_reviewer +:+ "'")
      ++ digest_objection (jget "candidate_digest" data) (dget "candidate_digest" (JStr "") context)
           "review inspected candidate " ", expected the frozen " " (PD-06)"
      ++ about_findings).

Definition fix_objections (accepted : list json) (allowed_files : json) (entry : json) : res (list string) :=
  id ← get_or "finding_id" (JStr "?") entry; let finding_id := py_str id in
  commits ← get_or "commits" JNull entry;
  checks ← get_or "checks_rerun" JNull entry;
  changed ← get_or "changed_files" (JArr []) entry; changed ← iterate changed;
  let changed := map py_str changed in
  scope ← (match changed, allowed_files with
           | [], _ => Ok ["fix for '" +:+ finding_id +:+ "' names no changed files"]
           | _, JNull => Ok []
           | _, _ =>
               allowed ← py_set allowed_files;
               match sorted_set (List.filter (fun f => negb (in_set (JStr f) allowed)) changed) with
               | [] => Ok []
               | out_of_scope => Ok ["fix for '" +:+ finding_id +:+ "' touched file(s) outside the accepted-findings scope (PD-07): "
                                     +:+ join ", " out_of_scope]
               end
           end)%string;
  Ok (object_if (negb (bool_decide (accepted = [])) && negb (in_set (JStr finding_id) accepted))
        ("fixer touched finding '" +:+ finding_id +:+ "' which is not ACCEPTED (PD-07)")
      ++ object_if (negb (truthy commits)) ("fix for '" +:+ finding_id +:+ "' names no commits")
      ++ object_if (negb (truthy checks)) ("fix for '" +:+ finding_id +:+ "' reran no checks") ++ scope).

Definition validate_fixer_output (data context : dict) : res (list string) :=
  accepted ← py_set (dget "accepted_finding_ids" (JArr []) context);
  match jget "fixed" data with
  | JNull => Ok (_boundary_errors data "fixer" ++ ["fixer output missing 'fixed'"%string])
  | fixed =>
      entries ← iterate fixed;
      about_fixes ← objections (fix_objections accepted (jget "allowed_files" context)) entries;
      Ok (_boundary_errors data "fixer" ++ about_fixes)
  end.

Definition VALIDATORS : list (string * (dict -> dict -> res (list string))) := [
  ("v2-system-architect", validate_architecture_pack); ("v2-implementation-planner", validate_plan);
  ("v2-backend-engineer", validate_specialist_result); ("frontend-engineer", validate_frontend_result);
  ("data-migration-engineer", validate_data_migration_result); ("eval-engineer", validate_eval_result);
  ("security-engineer", validate_security_result); ("platform-reliability-engineer", validate_platform_result);
  ("v2-test-engineer", validate_specialist_result); ("v2-integration-engineer", validate_integration_result);
  ("v2-code-reviewer", validate_review_output); ("v2-product-conformance-reviewer", validate_review_output);
  ("v2-architecture-simplicity-reviewer", validate_review_output); ("v2-eval-integrity-auditor", validate_review_output);
  ("v2-approved-findings-fixer", validate_fixer_output)
]%string.
End Submissions.

(** * Facts *)

Section RoutingFacts.
Context `{Unicode}.

Definition assignments (selections : list selection) : list (string * string) :=
  flat_map (fun s => map (fun id => (id, sel_agent s)) (sel_tasks s)) selections.

(** The specialist that owns the capability of a task. *)
Definition owner_of (by_id : list (string * json)) (task_id : string) : option string :=
  match capability_of by_id task_id with Ok capability => assoc capability SPECIALIST_PROFILES | Raise _ => None end.

Definition may_work (agents : registry) (s : selection) : bool := has_key (sel_agent s) agents && nonempty (sel_reason s).
Definition without_work (s : selection) : list string := match sel_tasks s with [] => [sel_agent s] | _ => [] end.

Lemma raise_if_iff (c : bool) (e : exn) : raise_if c e = Ok tt <-> c = false.
Proof. by destruct c. Qed.
Lemma refuse_any_iff message l : refuse_any message l = Ok tt <-> l = [].
Proof. by destruct l. Qed.

Lemma sorted_minus_nil l m : sorted_set (minus l m) = [] <-> forall x, x ∈ l -> x ∈ m.
Proof. by rewrite sorted_set_nil, minus_nil. Qed.

(** ** The loop over the selections *)

Lemma assign_all agent ids assigned a : NoDup (map fst assigned) ->
  res_foldM (assign agent) assigned ids = Ok a <->
  a = assigned ++ map (fun id => (id, agent)) ids /\ NoDup (map fst a).
Proof.
  revert assigned. induction ids as [|id ids IH]; intros assigned Hn.
  - cbn. rewrite app_nil_r. naive_solver.
  - assert (Ha : forall x, assoc id assigned = Some x -> exists e, assign agent assigned id = Raise e)
      by (intros x E; unfold assign; rewrite E; eauto).
    assert (Hf : assoc id assigned = None -> assign agent assigned id = Ok (assigned ++ [(id, agent)]))
      by (intros E; unfold assign; by rewrite E).
    cbn [res_foldM map]. destruct (assoc id assigned) as [other|] eqn:E;
      [destruct (Ha _ eq_refl) as (e & ->)|rewrite Hf by done]; cbn.
    + split; [done|]. intros [-> Hd]. exfalso. rewrite map_app in Hd. apply NoDup_app in Hd as (_ & Hd & _).
      apply (Hd id); [|apply list_elem_of_here]. apply has_key_spec. unfold has_key. by rewrite E.
    + rewrite IH; [rewrite <- app_assoc; done|]. rewrite map_app. apply NoDup_app. split_and!; [done| |apply NoDup_singleton].
      intros x Hx Hi%list_elem_of_singleton. cbn in Hi. subst x. apply has_key_spec in Hx. unfold has_key in Hx. by rewrite E in Hx.
Qed.

Lemma select_one agents assigned empty entry a e : NoDup (map fst assigned) ->
  select agents (assigned, empty) entry = Ok (a, e) <->
  exists s, read_selection entry = Ok s /\ may_work agents s = true /\
    a = assigned ++ assignments [s] /\ NoDup (map fst a) /\ e = empty ++ without_work s.
Proof.
  intros Hn. unfold select. destruct (read_selection entry) as [s|x]; cbn; [|naive_solver].
  assert (Ea : assignments [s] = map (fun id => (id, sel_agent s)) (sel_tasks s)) by apply app_nil_r.
  unfold may_work, without_work.
  destruct (has_key (sel_agent s) agents) eqn:Hk; cbn; [|split; [done|intros (? & [= <-] & Hw & _); by rewrite Hk in Hw]].
  destruct (nonempty (sel_reason s)) eqn:Hr; cbn; [|split; [done|intros (? & [= <-] & Hw & _); by rewrite Hk, Hr in Hw]].
  pose proof (fun a => assign_all (sel_agent s) (sel_tasks s) assigned a Hn) as Ha.
  destruct (res_foldM _ _ _) as [a'|x] eqn:E; cbn.
  - destruct (proj1 (Ha a') eq_refl) as [-> Hd]. split.
    + intros [= <- <-]. exists s. cbn. rewrite Hk, Hr, app_nil_r. split_and!; try done. destruct (sel_tasks s); [done|by rewrite app_nil_r].
    + intros (? & [= <-] & _ & -> & _ & ->). cbn. rewrite app_nil_r. destruct (sel_tasks s); [done|by rewrite app_nil_r].
  - split; [done|]. intros (? & [= <-] & _ & Hs). cbn in Hs. rewrite app_nil_r in Hs. destruct (proj2 (Ha a)); naive_solver.
Qed.

Lemma select_all agents selected assigned empty a e : NoDup (map fst assigned) ->
  res_foldM (select agents) (assigned, empty) selected = Ok (a, e) <->
  exists selections, res_mapM read_selection selected = Ok selections /\ Forall (fun s => may_work agents s = true) selections /\
    a = assigned ++ assignments selections /\ NoDup (map fst a) /\ e = empty ++ flat_map without_work selections.
Proof.
  revert assigned empty. induction selected as [|entry selected IH]; intros assigned empty Hn.
  - cbn. split.
    + intros [= <- <-]. exists []. cbn. rewrite !app_nil_r. auto.
    + intros (? & [= <-] & _ & -> & _ & ->). cbn. by rewrite !app_nil_r.
  - cbn [res_foldM res_mapM]. split.
    + destruct (select agents (assigned, empty) entry) as [[a1 e1]|x] eqn:E; [|done]. cbn. intros E'.
      apply select_one in E as (s & -> & Hw & -> & Hd & ->); [|done].
      apply IH in E' as (selections & -> & Hf & -> & Hd' & ->); [|done].
      exists (s :: selections). split_and!; [done|by constructor| |done|]; cbn; by rewrite <- ?app_assoc, ?app_nil_r.
    + intros (selections & E & Hf & -> & Hd & ->). destruct (read_selection entry) as [s|x] eqn:Hs; [|done].
      destruct (res_mapM read_selection selected) as [l|x] eqn:Hl; [|done]. injection E as <-. apply Forall_cons in Hf as [Hw Hf].
      assert (assignments (s :: l) = assignments [s] ++ assignments l) as Ea by (cbn; by rewrite app_nil_r).
      rewrite Ea, app_assoc in Hd.
      assert (NoDup (map fst (assigned ++ assignments [s]))) as Hd1.
      { rewrite map_app in Hd. by apply NoDup_app in Hd as (? & _ & _). }
      assert (select agents (assigned, empty) entry = Ok (assigned ++ assignments [s], empty ++ without_work s)) as ->
        by (apply select_one; [done|]; exists s; split_and!; done).
      cbn [mbind res_bind]. apply IH; [done|]. exists l. rewrite Ea, app_assoc. split_and!; try done. cbn. by rewrite <- app_assoc.
Qed.

(** ** The tasks and their owners *)

Lemma owners_iff by_id assigned : (exists us, res_mapM (check_owner by_id) assigned = Ok us) <->
  forall id agent, (id, agent) ∈ assigned -> owner_of by_id id = Some agent.
Proof.
  assert (Hone : forall id agent u, check_owner by_id (id, agent) = Ok u <-> owner_of by_id id = Some agent).
  { intros id agent []. unfold check_owner, owner_of. destruct (capability_of by_id id) as [c|x]; cbn [mbind res_bind]; [|by split].
    destruct (assoc c SPECIALIST_PROFILES) as [o|]; [|by split]. rewrite raise_if_iff, negb_false_iff, String.eqb_eq.
    split; congruence. }
  split.
  - intros (us & Eu%mapM_Ok) id agent Hi. induction Eu as [|[i a] u l us E _ IH]; [by apply not_elem_of_nil in Hi|].
    apply elem_of_cons in Hi as [[= -> ->]|Hi]; [by apply Hone in E|by apply IH].
  - intros Ho. exists (map (fun _ => tt) assigned). apply mapM_Ok.
    induction assigned as [|[i a] l IH]; constructor; [apply Hone, Ho, list_elem_of_here|].
    apply IH. intros id agent Hi. by apply Ho, list_elem_of_further.
Qed.

Lemma owner_is_profile by_id id agent : owner_of by_id id = Some agent -> agent ∈ ALL_PROFILES.
Proof.
  unfold owner_of. destruct (capability_of by_id id) as [c|]; [|done]. intros E. apply elem_of_sorted_set.
  apply list_elem_of_fmap. exists (c, agent). split; [done|]. by apply assoc_In.
Qed.

(** The agent of an entry is the same text for both readers, unless it is absent. *)
Lemma names_agree entry s : read_selection entry = Ok s ->
  exists n, name_of entry = Ok n /\ forall p, p ∈ ALL_PROFILES -> n = p <-> sel_agent s = p.
Proof.
  unfold read_selection, name_of, get_or. destruct entry as [| | | | | |m]; try done. cbn [mbind res_bind].
  destruct (assoc "agent" m) as [v|]; intros E; simp_res; subst; cbn [sel_agent]; eexists; (split; [done|]); [done|].
  intros p Hp. split; intros <-; apply str_in_elem in Hp; vm_compute in Hp; done.
Qed.
Lemma all_names_agree selected selections : res_mapM read_selection selected = Ok selections ->
  exists names, res_mapM name_of selected = Ok names /\
    forall p, p ∈ ALL_PROFILES -> p ∈ names <-> p ∈ map sel_agent selections.
Proof.
  intros E%mapM_Ok. induction E as [|entry s selected selections E _ (names & En & Hn)]; [by exists []|].
  destruct (names_agree _ _ E) as (n & E' & Hp). exists (n :: names). split; [cbn; by rewrite E', En|].
  intros p Hi. cbn. rewrite !elem_of_cons, (Hn p Hi). specialize (Hp p Hi). naive_solver.
Qed.

Lemma explained_names names explained :
  (forall p, p ∈ ALL_PROFILES -> p ∈ names ++ omap id explained) <->
  (forall p, p ∈ ALL_PROFILES -> p ∈ names \/ Some p ∈ explained).
Proof.
  split; intros Ha p Hp; specialize (Ha p Hp); revert Ha; rewrite elem_of_app, list_elem_of_omap; unfold id.
  - intros [?|(? & ? & ->)]; auto.
  - intros [?|?]; [auto|right; eauto].
Qed.

(** ** Minimal routings *)

(** What the prompt of the router asks for: who is selected may work and has work,
    every task is given once, to the owner of its capability. *)
Record minimal (agents : registry) (by_id : list (string * json)) (selections : list selection) : Prop := {
  all_may_work : forall s, s ∈ selections -> has_key (sel_agent s) agents = true /\ sel_reason s <> ""%string;
  all_work : forall s, s ∈ selections -> sel_tasks s <> [];
  given_once : NoDup (map fst (assignments selections));
  given_to_owner : forall id agent, (id, agent) ∈ assignments selections <-> id ∈ map fst by_id /\ owner_of by_id id = Some agent;
  all_owned : forall id, id ∈ map fst by_id -> is_Some (owner_of by_id id)
}.

Lemma minimal_iff agents by_id selections : minimal agents by_id selections <->
  Forall (fun s => may_work agents s = true) selections /\ NoDup (map fst (assignments selections)) /\
  (forall id, id ∈ map fst by_id -> id ∈ map fst (assignments selections)) /\
  (forall id, id ∈ map fst (assignments selections) -> id ∈ map fst by_id) /\
  flat_map without_work selections = [] /\
  (forall id agent, (id, agent) ∈ assignments selections -> owner_of by_id id = Some agent).
Proof.
  assert (Hin : forall id, id ∈ map fst (assignments selections) <-> exists agent, (id, agent) ∈ assignments selections).
  { intros id. rewrite list_elem_of_fmap. split; [intros ([i a] & -> & ?); eauto|intros (a & ?); by exists (id, a)]. }
  assert (Hw : flat_map without_work selections = [] <-> forall s, s ∈ selections -> sel_tasks s <> []).
  { rewrite flat_map_nil. unfold without_work. split; intros Hs s Hi; specialize (Hs s Hi); by destruct (sel_tasks s). }
  assert (Hm : Forall (fun s => may_work agents s = true) selections <->
               forall s, s ∈ selections -> has_key (sel_agent s) agents = true /\ sel_reason s <> ""%string).
  { rewrite Forall_forall. unfold may_work. split; intros Hs s Hi; specialize (Hs s Hi).
    - apply andb_true_iff in Hs as [? Hr]. split; [done|]. intros E. by rewrite E in Hr.
    - destruct Hs as [-> Hr]. by destruct (sel_reason s). }
  rewrite Hm, Hw. setoid_rewrite Hin. split.
  - intros [? ? ? Hg Ho]. split_and!; try done.
    + intros id Hi. destruct (Ho id Hi) as [a Ha]. exists a. by apply Hg.
    + intros id (a & Ha). by apply Hg in Ha as [? _].
    + intros id a Ha. by apply Hg in Ha as [_ ?].
  - intros (? & ? & Ha & Hb & ? & Ho). constructor; try done.
    + intros id agent. split; [eauto|]. intros [Hi E]. destruct (Ha id Hi) as (a & Hx). rewrite (Ho _ _ Hx) in E. by simplify_eq.
    + intros id Hi. destruct (Ha id Hi) as (a & Hx). rewrite (Ho _ _ Hx). eauto.
Qed.

(** What the gate of the router reads in a routing that it accepts. *)
Definition routed (tasks : list json) (routing : dict) (agents : registry) : Prop :=
  exists selected not_selected selections by_id explained,
    entries "selected" routing = Ok selected /\ entries "not_selected" routing = Ok not_selected /\
    res_mapM read_selection selected = Ok selections /\ task_ids tasks = Ok by_id /\
    res_mapM explanation not_selected = Ok explained /\ minimal agents by_id selections /\
    forall p, p ∈ ALL_PROFILES -> p ∈ map sel_agent selections \/ Some p ∈ explained.

Lemma accepted_routed tasks routing agents : validate_routing tasks routing agents = Ok tt -> routed tasks routing agents.
Proof.
  unfold validate_routing.
  destruct (entries "selected" routing) as [selected|] eqn:Es; [|done].
  destruct (entries "not_selected" routing) as [not_selected|] eqn:En; [|done]. cbn [mbind res_bind].
  destruct (res_foldM (select agents) ([], []) selected) as [[assigned empty]|] eqn:Ef; [|done].
  apply select_all in Ef as (selections & Er & Hm & -> & Hd & ->); [|constructor]. cbn [mbind res_bind app].
  destruct (task_ids tasks) as [by_id|] eqn:Et; [|done]. intros E. simp_res. subst by_id.
  repeat match goal with u : () |- _ => destruct u end.
  apply refuse_any_iff in E, E1, E2, E3. rewrite sorted_minus_nil in E, E1, E2. rewrite explained_names in E.
  exists selected, not_selected, selections, a, a5. split; [done|]. split; [done|]. rewrite minimal_iff. split_and!; try done.
  - by apply owners_iff; eauto.
  - intros p Hp. destruct (all_names_agree _ _ Er) as (names & En' & Hn). rewrite E5 in En'. injection En' as <-.
    rewrite <- Hn by done. by apply E.
Qed.

Lemma routed_accepted tasks routing agents : routed tasks routing agents -> validate_routing tasks routing agents = Ok tt.
Proof.
  unfold validate_routing.
  intros (selected & not_selected & selections & by_id & explained & -> & -> & Er & -> & Ee & (Hm & Hd & H1 & H2 & H3 & H4)%minimal_iff & Hp).
  cbn [mbind res_bind].
  assert (res_foldM (select agents) ([], []) selected = Ok (assignments selections, [])) as ->
    by (apply select_all; [constructor|]; exists selections; by split_and!).
  cbn [mbind res_bind]. rewrite (proj2 (refuse_any_iff _ _) (proj2 (sorted_minus_nil _ _) H1)).
  rewrite (proj2 (refuse_any_iff _ _) (proj2 (sorted_minus_nil _ _) H2)). cbn [mbind res_bind refuse_any].
  destruct (proj2 (owners_iff by_id (assignments selections)) H4) as (us & ->).
  destruct (all_names_agree _ _ Er) as (names & -> & Hn). cbn [mbind res_bind]. rewrite Ee. cbn [mbind res_bind].
  apply refuse_any_iff, sorted_minus_nil, explained_names. intros p Hi. rewrite Hn by done. by apply Hp.
Qed.
End RoutingFacts.

(** The objections of an accepted output, each of them absent. *)
Ltac no_objections E :=
  simp_res; repeat match goal with E : _ ++ _ = [] |- _ => apply app_eq_nil in E as [? E] end; subst.

(** ** Plans that are accepted *)

Section PlanFacts.
Context `{Unicode} `{Lower}.

Lemma objections_nil {A} (f : A -> res (list string)) l : objections f l = Ok [] <-> forall x, x ∈ l -> f x = Ok [].
Proof.
  rewrite <- mapM_nils. unfold objections. destruct (res_mapM f l) as [ys|]; cbn; [|naive_solver].
  split; [intros [= E]; eauto|by intros (? & [= <-] & ->)].
Qed.
Lemma object_if_nil b message : object_if b message = [] <-> b = false.
Proof. by destruct b. Qed.

Lemma nonempty_app s t : nonempty (s +:+ t) = nonempty s || nonempty t.
Proof. by destruct s. Qed.
Lemma str_of_Z_nonempty z : nonempty (str_of_Z z) = true.
Proof. by destruct (str_of_Z_head z) as (? & ? & -> & _). Qed.
Lemma float_repr_nonempty f : nonempty (float_repr f) = true.
Proof.
  destruct f as [[]|[]| |s m e]; try done. unfold float_repr.
  destruct (repr_search _ _ _ _ _) as [d0 x0]. destruct (strip_zeros _ _ _) as [d x].
  repeat case_match; by rewrite ?nonempty_app, ?orb_true_r.
Qed.
Lemma truthy_text v : truthy v = true -> nonempty (py_str v) = true.
Proof.
  destruct v as [|[]| | | | |]; try done; intros _; [apply str_of_Z_nonempty|apply float_repr_nonempty].
Qed.

Lemma planned_task components task : task_objections components task = Ok [] ->
  exists m id capability, task = JObj m /\ assoc "id" m = Some id /\ assoc "required_capability" m = Some capability /\
    has_key (py_str capability) SPECIALIST_PROFILES = true.
Proof.
  unfold task_objections. destruct task as [| | | | | |m]; try done. intros E.
  assert (Hg : forall k d, get_or k d (JObj m) = Ok (match assoc k m with Some v => v | None => d end)) by done.
  rewrite !Hg in E. cbn [mbind res_bind] in E.
  destruct (objections _ _) as [missing|] eqn:Em; [|done]. cbn [mbind res_bind] in E. simp_res.
  apply app_eq_nil in E as [-> E]. apply app_eq_nil in E as [_ E]. apply object_if_nil in E.
  assert (Hk : forall key, key ∈ ["id"; "requirement_ids"; "component"; "behavioural_test"; "rollback"; "required_capability"]%string ->
                exists v, assoc key m = Some v /\ truthy v = true).
  { intros key Hi. apply (proj1 (objections_nil _ _) Em) in Hi. rewrite Hg in Hi. cbn [mbind res_bind] in Hi.
    injection Hi as Hi%object_if_nil%negb_false_iff. destruct (assoc key m) as [v|]; [eauto|done]. }
  destruct (Hk "id"%string) as (id & Hid & _); [by apply str_in_elem|].
  destruct (Hk "required_capability"%string) as (c & Hc & Ht); [by apply str_in_elem|].
  exists m, id, c. split_and!; try done. rewrite Hc, (truthy_text c Ht) in E. by apply negb_false_iff in E.
Qed.

Lemma planned_tasks v tasks : iterate (or_empty v) = Ok tasks -> tasks <> [] ->
  (forall t, t ∈ tasks -> exists m, t = JObj m) -> v = JArr tasks.
Proof.
  unfold or_empty. destruct (truthy v); [|intros [= <-]; done]. intros E Hne Ht.
  destruct tasks as [|t tasks]; [done|]. destruct (Ht t) as (m & ->); [apply list_elem_of_here|].
  destruct v as [| | | |s|l|o]; try done; cbn in E.
  - by destruct (ords s).
  - by injection E as ->.
  - by destruct o.
Qed.

(** ** A routing for such a plan *)

Definition owned_task (t : json) : Prop :=
  exists m capability, t = JObj m /\ assoc "required_capability" m = Some capability /\
    has_key (py_str capability) SPECIALIST_PROFILES = true.

Lemma owned_by_id by_id id : NoDup (map fst by_id) -> Forall (fun p => owned_task (snd p)) by_id ->
  id ∈ map fst by_id -> is_Some (owner_of by_id id).
Proof.
  intros Hn Hf ([i t] & -> & Hi)%list_elem_of_fmap. rewrite Forall_forall in Hf.
  destruct (Hf _ Hi) as (m & c & Et & Hc & Hk). cbn in Et. subst t. cbn [fst]. unfold owner_of, capability_of.
  rewrite (assoc_NoDup _ _ _ Hn Hi). cbn [from_option_res mbind res_bind get_or]. rewrite Hc. cbn [mbind res_bind].
  unfold has_key in Hk. destruct (assoc _ SPECIALIST_PROFILES); [eauto|done].
Qed.

Lemma planned_ids components tasks : (forall t, t ∈ tasks -> task_objections components t = Ok []) ->
  exists by_id, task_ids tasks = Ok by_id /\ NoDup (map fst by_id) /\ Forall (fun p => owned_task (snd p)) by_id.
Proof.
  intros Ht. unfold task_ids.
  assert (exists named, res_mapM (fun t => id ← item_at "id" t; Ok (py_str id, t)) tasks = Ok named /\
            Forall (fun p => owned_task (snd p)) named) as (named & -> & Hf).
  { induction tasks as [|t tasks IH]; [by exists []|].
    destruct IH as (named & En & Hf); [intros; apply Ht; by apply list_elem_of_further|].
    destruct (planned_task components t) as (m & id & c & -> & Hi & Hc & Hk); [apply Ht, list_elem_of_here|].
    exists ((py_str id, JObj m) :: named). split; [|constructor; [by exists m, c|done]].
    assert (Ei : item_at "id" (JObj m) = Ok id) by (cbn [item_at]; unfold field; by rewrite Hi).
    cbn [res_mapM]. rewrite Ei. cbn [mbind res_bind]. by rewrite En. }
  cbn [mbind res_bind]. eexists. split; [done|].
  assert (Ha : NoDup (map fst ([] : dict)) /\ Forall (fun p => owned_task (snd p)) ([] : dict)) by (split; constructor).
  revert Ha. generalize ([] : dict). induction Hf as [|[i t] named Hp _ IH]; intros d [Hn Hd]; [done|]. cbn [foldl fst snd].
  apply IH. split; [by apply set_keys_distinct|by apply assoc_set_all].
Qed.

Definition tasks_for (by_id : list (string * json)) (p : string) : list string :=
  filter (fun id => owner_of by_id id = Some p) (map fst by_id).
Definition needed (by_id : list (string * json)) : list string := filter (fun p => tasks_for by_id p <> []) ALL_PROFILES.
Definition unneeded (by_id : list (string * json)) : list string := filter (fun p => tasks_for by_id p = []) ALL_PROFILES.
Definition routing_for (by_id : list (string * json)) : dict := [
  ("selected", JArr (map (fun p => JObj [("agent", JStr p); ("tasks", JArr (map JStr (tasks_for by_id p)));
                                         ("reason", JStr "owner of its tasks")]) (needed by_id)));
  ("not_selected", JArr (map (fun p => JObj [("agent", JStr p); ("reason", JStr "no task")]) (unneeded by_id)))
]%string.
Definition selection_for (by_id : list (string * json)) (p : string) : selection :=
  {| sel_agent := p; sel_tasks := tasks_for by_id p; sel_reason := "owner of its tasks" |}.

Lemma tasks_for_elem by_id id p : id ∈ tasks_for by_id p <-> id ∈ map fst by_id /\ owner_of by_id id = Some p.
Proof. unfold tasks_for. rewrite list_elem_of_filter. naive_solver. Qed.

Lemma mapM_image {A B C} (f : B -> res C) (g : A -> B) (h : A -> C) l : (forall x, f (g x) = Ok (h x)) ->
  res_mapM f (map g l) = Ok (map h l).
Proof. intros Hf. induction l as [|x l IH]; [done|]. cbn. by rewrite Hf, IH. Qed.

Lemma NoDup_images {A B} (f : A -> list B) l : NoDup l -> (forall x, NoDup (f x)) ->
  (forall x y b, b ∈ f x -> b ∈ f y -> x = y) -> NoDup (flat_map f l).
Proof.
  intros Hl Hf Hd. induction Hl as [|x l Hx _ IH]; cbn; [constructor|]. apply NoDup_app. split_and!; [done| |done].
  intros b Hb (y & Hy & Hi)%list_elem_of_In%in_flat_map. apply Hx. rewrite (Hd x y b); [by apply list_elem_of_In|done|by apply list_elem_of_In].
Qed.

Lemma read_entry by_id p :
  read_selection (JObj [("agent", JStr p); ("tasks", JArr (map JStr (tasks_for by_id p))); ("reason", JStr "owner of its tasks")]%string)
  = Ok (selection_for by_id p).
Proof.
  assert (map py_str (map JStr (tasks_for by_id p)) = tasks_for by_id p) as Et by (rewrite map_map; apply map_id).
  unfold read_selection. cbn [get_or assoc String.eqb Ascii.eqb Bool.eqb mbind res_bind iterate]. by rewrite Et.
Qed.

Lemma assignments_for by_id ps : assignments (map (selection_for by_id) ps) = flat_map (fun p => map (fun id => (id, p)) (tasks_for by_id p)) ps.
Proof. induction ps as [|p ps IH]; [done|]. cbn. by rewrite <- IH. Qed.

Lemma routing_for_minimal agents by_id : NoDup (map fst by_id) -> Forall (fun p => owned_task (snd p)) by_id ->
  (forall p, p ∈ ALL_PROFILES -> has_key p agents = true) -> minimal agents by_id (map (selection_for by_id) (needed by_id)).
Proof.
  intros Hn Hf Hp. constructor.
  - intros s (p & -> & [_ Hi]%list_elem_of_filter)%list_elem_of_fmap. split; [by apply Hp|done].
  - by intros s (p & -> & [Hi _]%list_elem_of_filter)%list_elem_of_fmap.
  - rewrite assignments_for.
    assert (map fst (flat_map (fun p => map (fun id => (id, p)) (tasks_for by_id p)) (needed by_id)) = flat_map (tasks_for by_id) (needed by_id)) as ->.
    { induction (needed by_id) as [|p ps IH]; [done|]. cbn. rewrite map_app, IH, map_map. f_equal. apply map_id. }
    apply NoDup_images.
    + apply NoDup_filter, strictly_sorted_NoDup, sorted_set_sorted.
    + intros p. by apply NoDup_filter.
    + intros p q id Hi Hj. apply tasks_for_elem in Hi as [_ Hi], Hj as [_ Hj]. congruence.
  - intros id agent. rewrite assignments_for, list_elem_of_In, in_flat_map, <- tasks_for_elem. split.
    + intros (p & _ & (i & [= -> ->] & Hi)%list_elem_of_In%list_elem_of_fmap). done.
    + intros Hi. exists agent. split.
      * apply list_elem_of_In, list_elem_of_filter. split; [intros E; rewrite E in Hi; by apply not_elem_of_nil in Hi|].
        apply tasks_for_elem in Hi as [_ Hi]. by eapply owner_is_profile.
      * apply list_elem_of_In, list_elem_of_fmap. eauto.
  - intros id. by apply owned_by_id.
Qed.

(** ** Outputs that are accepted *)

Lemma boundary_kept data agent : _boundary_errors data agent = [] ->
  forall key, key ∈ _PRODUCT_BOUNDARY_KEYS -> has_key key data = false.
Proof.
  unfold _boundary_errors. intros E%map_eq_nil. rewrite filter_nil_iff, Forall_forall in E. apply E.
Qed.

Lemma set_of_texts l : py_set (JArr (map JStr l)) = Ok (map JStr l).
Proof.
  unfold py_set, hashed. cbn [iterate mbind res_bind].
  assert (forallb hashable (map JStr l) = true) as -> by (induction l; done). done.
Qed.
Lemma in_set_of_texts x l : in_set (JStr x) (map JStr l) = str_in x l.
Proof. unfold in_set, str_in. induction l as [|y l IH]; [done|]. cbn [map existsb]. by rewrite IH. Qed.

Lemma fix_in_scope accepted allowed entry : accepted <> [] ->
  fix_objections (map JStr accepted) (JArr (map JStr allowed)) entry = Ok [] ->
  exists m changed, entry = JObj m /\ iterate (jget "changed_files" m) = Ok changed /\ changed <> [] /\
    py_str (dget "finding_id" (JStr "?") m) ∈ accepted /\ (forall f, f ∈ changed -> py_str f ∈ allowed) /\
    truthy (jget "commits" m) = true /\ truthy (jget "checks_rerun" m) = true.
Proof.
  intros Hne. unfold fix_objections. destruct entry as [| | | | | |m]; try done.
  assert (Hg : forall k d, get_or k d (JObj m) = Ok (dget k d m)) by done. rewrite !Hg. cbn [mbind res_bind].
  destruct (iterate (dget "changed_files" (JArr []) m)) as [changed|] eqn:Ec; [|done]. cbn [mbind res_bind].
  intros E. no_objections E. apply object_if_nil in H1, H2, H3. apply negb_false_iff in H2, H3.
  destruct changed as [|f changed]; [done|]. cbn [map] in E0. rewrite set_of_texts in E0. cbn [mbind res_bind] in E0.
  exists m, (f :: changed). split; [done|]. split.
  { unfold dget in Ec. unfold jget. by destruct (assoc "changed_files" m). }
  split_and!; try done.
  - rewrite bool_decide_eq_false_2 in H1 by (by destruct accepted). cbn [negb andb] in H1.
    rewrite in_set_of_texts in H1. by apply negb_false_iff, str_in_elem in H1.
  - destruct (sorted_set _) eqn:Es; [|done]. rewrite sorted_set_nil, filter_nil_iff, Forall_forall in Es.
    intros g Hi. specialize (Es (py_str g)). rewrite in_set_of_texts, negb_false_iff, str_in_elem in Es. apply Es.
    apply (list_elem_of_fmap_2 py_str _ _ Hi).
Qed.
End PlanFacts.

(** ** Risk *)

Lemma foldl_invariant {A B} (P : A -> Prop) (f : A -> B -> A) l a :
  P a -> (forall a x, x ∈ l -> P a -> P (f a x)) -> P (foldl f a l).
Proof.
  revert a. induction l as [|x l IH]; intros a Ha Hf; [done|]. apply IH; [by apply Hf; [left|]|].
  intros b y Hy. apply Hf. by right.
Qed.

(** A decision goes ahead without an approval only by a rule for its type. *)
Lemma classify_fails_closed rules type : requires_approval (pd_level (classify rules type)) = false ->
  exists r, r ∈ rules /\ decision_type r = type /\ level r = pd_level (classify rules type).
Proof.
  unfold classify, rules_by_type. cbn [pd_level].
  assert (Hf : Forall (fun p => snd p ∈ rules /\ decision_type (snd p) = fst p)
                 (foldl (fun m r => assoc_set (decision_type r) r m) ([] : list (string * PolicyRule)) rules)).
  { apply foldl_invariant; [by constructor|]. intros m r Hi Hm. by apply assoc_set_all. }
  destruct (assoc type _) as [r|] eqn:E; cbn; [|done]. intros _. rewrite Forall_forall in Hf.
  destruct (Hf _ (assoc_In _ _ _ E)) as [Hi Ht]. by exists r.
Qed.

(** * Theorems *)

Section Theorems.
Context `{Unicode} `{Lower}.

(** C19. A routing is accepted iff it is minimal and complete: its entries can be
    read; every selected agent has a definition, a justification and a task; every
    task of the plan, and nothing else, is given exactly once, to the specialist that
    owns its capability; and every other profile is explained. *)
Theorem routing_accepted_iff tasks routing agents : validate_routing tasks routing agents = Ok tt <-> routed tasks routing agents.
Proof.
  split; [apply accepted_routed|apply routed_accepted].
Qed.

(** C20. A plan that the gate accepts can be routed: when every profile has a
    definition, some routing of exactly its tasks passes the gate of the router. *)
Theorem accepted_plan_can_be_routed data context agents :
  validate_plan data context = Ok [] -> (forall p, p ∈ ALL_PROFILES -> has_key p agents = true) ->
  exists tasks routing, jget "tasks" data = JArr tasks /\
    validate_routing_submission routing [("tasks"%string, JArr tasks)] agents = Ok [].
Proof.
  unfold validate_plan. intros E Hp. simp_res.
  repeat match goal with E : _ ++ _ = [] |- _ => apply app_eq_nil in E as [? E] end. subst.
  match goal with Hn : object_if (bool_decide _) _ = [] |- _ => apply object_if_nil, bool_decide_eq_false in Hn; rename Hn into Hn end.
  assert (Ht : forall t, t ∈ a0 -> task_objections a t = Ok []) by by apply objections_nil.
  destruct (planned_ids a a0 Ht) as (by_id & Ei & Hd & Hf).
  exists a0, (routing_for by_id). split.
  - apply planned_tasks; [done|done|]. intros t Hi. destruct (planned_task a t (Ht t Hi)) as (m & ? & ? & -> & _). eauto.
  - unfold validate_routing_submission. cbn [dget assoc String.eqb Ascii.eqb Bool.eqb iterate mbind res_bind].
    rewrite routed_accepted; [done|]. do 2 eexists. exists (map (selection_for by_id) (needed by_id)), by_id, (map Some (unneeded by_id)).
    split; [done|]. split; [done|]. split_and!; try done.
    + apply mapM_image, read_entry.
    + by apply mapM_image.
    + by apply routing_for_minimal.
    + intros p Hi. destruct (decide (tasks_for by_id p = [])).
      * right. apply list_elem_of_fmap. exists p. split; [done|]. by apply list_elem_of_filter.
      * left. rewrite map_map. cbn. rewrite map_id. by apply list_elem_of_filter.
Qed.

(** No output that a validator accepts changes the product: it has none of the
    keys by which an agent would decide on scope, requirements, acceptance criteria
    or metrics, whichever agent it is from. *)
Theorem submissions_leave_the_product agent validator data context :
  (agent, validator) ∈ VALIDATORS -> validator data context = Ok [] ->
  forall key, key ∈ _PRODUCT_BOUNDARY_KEYS -> has_key key data = false.
Proof.
  intros Hi. apply list_elem_of_In in Hi. cbn [VALIDATORS In] in Hi.
  assert (Hs : validate_specialist_result data context = Ok [] -> forall key, key ∈ _PRODUCT_BOUNDARY_KEYS -> has_key key data = false).
  { unfold validate_specialist_result. intros E. no_objections E. by eapply boundary_kept. }
  repeat (destruct Hi as [[= <- <-]|Hi]); [| | | | | | | | | | | | | | |done];
    unfold validate_architecture_pack, validate_plan, validate_frontend_result, validate_data_migration_result,
      validate_eval_result, validate_security_result, validate_platform_result, validate_integration_result,
      validate_review_output, validate_fixer_output; intros E; try (by apply Hs); no_objections E;
    try (by eapply boundary_kept); try (by apply Hs).
  destruct (jget "fixed" data); no_objections E; by eapply boundary_kept.
Qed.

(** A fix that is accepted stays in the scope of the gate: each entry names a
    finding that was accepted, commits and checks, and changes files of the accepted
    findings only. *)
Theorem accepted_fix_in_scope data context accepted allowed :
  dget "accepted_finding_ids" (JArr []) context = JArr (map JStr accepted) -> jget "allowed_files" context = JArr (map JStr allowed) ->
  accepted <> [] -> validate_fixer_output data context = Ok [] ->
  exists fixes, iterate (jget "fixed" data) = Ok fixes /\ forall fix_, fix_ ∈ fixes ->
    exists m changed, fix_ = JObj m /\ iterate (jget "changed_files" m) = Ok changed /\ changed <> [] /\
      py_str (dget "finding_id" (JStr "?") m) ∈ accepted /\ (forall f, f ∈ changed -> py_str f ∈ allowed) /\
      truthy (jget "commits" m) = true /\ truthy (jget "checks_rerun" m) = true.
Proof.
  intros Ha Hl Hne. unfold validate_fixer_output. rewrite Ha, Hl, set_of_texts. cbn [mbind res_bind]. intros E.
  assert (exists fixes, iterate (jget "fixed" data) = Ok fixes /\
            objections (fix_objections (map JStr accepted) (JArr (map JStr allowed))) fixes = Ok []) as (fixes & Ei & Eo).
  { destruct (jget "fixed" data); [|no_objections E; eauto..]. by injection E as [_ [=]]%app_eq_nil. }
  exists fixes. split; [done|]. intros entry Hi. apply fix_in_scope; [done|]. by apply (proj1 (objections_nil _ _) Eo).
Qed.
End Theorems.

(** * Instances *)

#[local] Instance every_character : Unicode := {| isprintable := fun _ => true; isalnum := fun _ => true; decimal := fun _ => None |}.
#[local] Instance lower_case : Lower := {| lower := fun s => s |}.

Abbreviation demo_task := (JObj [("id", JStr "T1"); ("requirement_ids", JArr [JStr "R1"]); ("component", JStr "api");
  ("behavioural_test", JStr "t"); ("rollback", JStr "r"); ("required_capability", JStr "backend")]%string).
Abbreviation demo_plan := ([("contract_digest", JStr "d"); ("tasks", JArr [demo_task])]%string).
Abbreviation demo_plan_context := ([("contract_digest", JStr "d"); ("requirement_ids", JArr [JStr "R1"]);
  ("components", JArr [JStr "api"])]%string).
Abbreviation demo_agents := (map (fun p => (p, {| agent_name := p; agent_description := "d"; tools := []; isolation := ""; agent_path := p |}%string)) ALL_PROFILES).

Lemma accepted_plan_can_be_routed_witness :
  validate_plan demo_plan demo_plan_context = Ok [] /\
  exists tasks routing, jget "tasks" demo_plan = JArr tasks /\
    validate_routing_submission routing [("tasks"%string, JArr tasks)] demo_agents = Ok [].
Proof.
  assert (E : validate_plan demo_plan demo_plan_context = Ok []) by (vm_compute; reflexivity).
  split; [exact E|]. apply (accepted_plan_can_be_routed _ _ _ E).
  intros p Hp. apply has_key_spec. rewrite map_map. cbn [fst]. rewrite map_id. exact Hp.
Defined.

Abbreviation demo_fix := ([("fixed", JArr [JObj [("finding_id", JStr "F1"); ("commits", JArr [JStr "c"]);
  ("checks_rerun", JArr [JStr "tests"]); ("changed_files", JArr [JStr "a.py"])]])]%string).
Abbreviation demo_scope := ([("accepted_finding_ids", JArr [JStr "F1"]); ("allowed_files", JArr [JStr "a.py"; JStr "b.py"])]%string).

Lemma submissions_leave_the_product_witness :
  validate_fixer_output demo_fix demo_scope = Ok [] /\
  forall key, key ∈ _PRODUCT_BOUNDARY_KEYS -> has_key key demo_fix = false.
Proof.
  assert (E : validate_fixer_output demo_fix demo_scope = Ok []) by (vm_compute; reflexivity).
  split; [exact E|]. apply (submissions_leave_the_product "v2-approved-findings-fixer" validate_fixer_output _ demo_scope); [|exact E].
  unfold VALIDATORS. repeat constructor.
Defined.

Lemma accepted_fix_in_scope_witness :
  validate_fixer_output demo_fix demo_scope = Ok [] /\
  exists fixes, iterate (jget "fixed" demo_fix) = Ok fixes /\ forall fix_, fix_ ∈ fixes ->
    exists m changed, fix_ = JObj m /\ iterate (jget "changed_files" m) = Ok changed /\ changed <> [] /\
      py_str (dget "finding_id" (JStr "?") m) ∈ ["F1"%string] /\ (forall f, f ∈ changed -> py_str f ∈ ["a.py"; "b.py"]%string) /\
      truthy (jget "commits" m) = true /\ truthy (jget "checks_rerun" m) = true.
Proof.
  assert (E : validate_fixer_output demo_fix demo_scope = Ok []) by (vm_compute; reflexivity).
  split; [exact E|]. apply (accepted_fix_in_scope demo_fix demo_scope ["F1"]%string ["a.py"; "b.py"]%string); [reflexivity|reflexivity|done|exact E].
Defined.
